(* ===== verification/_CoqProject ===== *)
-Q . S2P
Prelude.v
PyData.v
Sha256.v
Budget.v
Cpg.v
GraphSpec.v
Ordering.v
RefineSpec.v
SearchSpec.v
Canonical.v
Dsl.v
PyDict.v
Supergraph.v
Solver.v
SolverSpec.v
SolverReadout.v
Ifds.v
Incremental.v
CpgDelta.v
Fingerprint.v
SliceIdentity.v
Json.v
JsonAscii.v
Identity.v
Continuity.v
ContinuityPlan.v
ContinuitySpec.v
ContinuityTrace.v
ContinuitySamples.v
JsonParse.v
JsonSpec.v
JsonRoundTrip.v
BoundRules.v
BoundJson.v
RuleKeySpec.v
RuleDocs.v
RuleDocsSpec.v
Queue.v
QueueSpec.v
PyText.v
Guard.v
ScanApi.v
ScanApiSpec.v
ScanApiSamples.v
Sarif.v
SarifJson.v
SarifSpec.v
SarifEmit.v
SarifLog.v
SarifSamples.v
Worker.v
WorkerSpec.v
DslParser.v
DslGrammar.v
DslSpec.v
Detectors.v
WorkerSamples.v
Provenance.v
ProvenanceSpec.v
DiffOracle.v
VerifySpec.v
SoftwareKms.v
Attestor.v
AttestorSamples.v
ObjectStore.v
SnapshotService.v
SnapshotSpec.v
CwDetect.v
CpgTarball.v
SnapshotWorker.v
SnapshotWorkerSpec.v
SnapshotSamples.v
JoernMapper.v
JoernMapperSpec.v
OracleFingerprint.v
SecureRun.v
JoernFrontend.v
JoernSamples.v
