(* ===== verification/Prelude.v ===== *)
(** * Scanipy verification development

    Scanipy scans source code.  A scan is submitted to the API, which binds
    the versions of its inputs, stores the scan and enqueues one job per
    detector; a worker turns the snapshot into a code property graph (CPG),
    runs detectors over it and reports back under a signature.  The taint
    engine is an IFDS tabulation over the CPG; findings carry identities
    computed from canonical graph orders and program slices, and the
    continuity planner links the findings of consecutive scans and inherits
    human decisions through the links.

    ** Files

    Shared: [Prelude] (sorting, list and map lemmas, hints), [PyData] (Python
    text, bytes, exceptions; [outcome] is a computation that may raise),
    [PyDict] (dicts, loops that may raise, closure by worklist), [Sha256]
    (the digest, executable), [PyText] (string joins, UUIDs, dict access;
    state with exceptions, loops, what a computation keeps),
    [Json], [JsonAscii], [JsonParse], [JsonSpec], [JsonRoundTrip] (canonical
    printing, with and without ASCII escapes; [json.loads] with hooks;
    grammar, soundness and round trip).

    - [analysis/ordering.py]: [Budget] (the work counter and the deadline),
      [Cpg] (nodes, edges, [encode_graph]), [Ordering] (colour refinement,
      the transposition test, the individualisation search,
      [canonical_order]).  [GraphSpec], [RefineSpec], [SearchSpec] give the
      reference functions, [Canonical] the theorems: a strong result is a
      complete invariant of the graph up to isomorphism.
    - [analysis/ifds/dsl/]: [Dsl], flow functions and the distributivity gate.
    - [analysis/ifds/supergraph.py], [solver.py]: [Supergraph], [Solver],
      [SolverSpec] (tabulation as a least fixpoint), [SolverReadout]
      (witness paths), [Ifds] (soundness, completeness, termination),
      [Incremental] (the incremental run agrees with the full one).
    - [analysis/cpg_delta.py]: [CpgDelta], affected declarations and the
      id-preserving rebuild.
    - [analysis/fingerprint.py]: [Fingerprint] (with: the slice is the
      dependence cone), [SliceIdentity] (what the fingerprint identifies).
    - [analysis/artifact_identity.py]: [Identity].
    - [services/scan/continuity.py]: [Continuity] (records, checks, digests,
      transitions), [ContinuityPlan] ([plan_continuity],
      [effective_decisions]), [ContinuitySpec], [ContinuityTrace]
      (theorems), [ContinuitySamples] (a concrete scenario).
    - [analysis/ifds/bound_rules.py]: [BoundRules] (limits, bounded JSON
      reader, key codec), [RuleDocs] (model and rule documents,
      [BoundRule]); theorems in [BoundJson], [RuleKeySpec], [RuleDocsSpec].
    - [services/substrate/queue.py]: [Queue], [QueueSpec].
    - [services/control_plane/guard.py], [constants.py], [db/session.py]:
      [Guard].
    - [services/scan/api.py]: [ScanApi], [ScanApiSpec], [ScanApiSamples].
    - [analysis/sarif/canonical_emit.py]: [Sarif] (projection of findings,
      the validators, [normalize], [normalize_split]).  [SarifJson] relates a
      document to what the JSON reader gives back for its bytes, and shows that
      the log does not depend on the order of the findings; [SarifSpec]:
      what the validators accept; [SarifEmit], [SarifLog]: exactly when a log is emitted and what it
      holds; [SarifSamples] the concrete findings.
    - [services/scan/worker.py]: [Worker] (the job, the store of finding
      objects the lanes share, the core and oracle lanes, [process_job]),
      [WorkerSpec] (provenance of every emitted finding, completion, what the
      core lane emits), [WorkerSamples] (with the registry and the parser).
    - [analysis/ifds/dsl/parser.py]: [DslParser], [DslGrammar] (the functions on
      texts, the sanctioned clauses and their text), [DslSpec] (what is parsed and
      rejected; the documented grammar is parsed back from its text).
    - [detectors/registry.py]: [Detectors] (loading is atomic, the
      invariant of the registry).
    - [services/scan/provenance/__init__.py], [software_kms_signer.py]:
      [Provenance] (records, canonical bytes, signing, verification, auditor
      export, re-partition events), [SoftwareKms] (the software signer),
      [ProvenanceSpec], [VerifySpec] (what is verified was signed, and the
      reverse).
    - [services/snapshot/diff_oracle.py]: [DiffOracle] (each finding at
      risk is flipped once).
    - [services/scan/attestor.py]: [Attestor], [AttestorSamples] (with the
      samples of the two parts above).
    - [services/substrate/object_store.py]: [ObjectStore] (keys, guards, the
      in-memory and S3 stores; organisations are isolated; the class
      [LawfulStore]).
    - [services/snapshot/service.py], [models.py]: [SnapshotService],
      [SnapshotSpec] (rows refer to stored objects; a snapshot from its
      request to its row).
    - [services/snapshot/cw_detect.py]: [CwDetect] (a matcher of regular
      expressions; the verdict errs on the safe side only).
    - [services/substrate/cpg_tarball.py]: [CpgTarball].
    - [services/snapshot/worker.py]: [SnapshotWorker], [SnapshotWorkerSpec]
      (a ready report means a stored snapshot; each message is accounted
      for), [SnapshotSamples] (witnesses of the five parts).
    - [analysis/cpg_ingest/mapper.py]: [JoernMapper], [JoernMapperSpec] (the
      graph does not depend on the order of the export; it is the export,
      renumbered; the walk is a recursion and ends on forests).
    - [services/scan/oracle_fingerprint.py]: [OracleFingerprint] (a location
      picks a sink and is not in the fingerprint).
    - [tools/worker/secure_subprocess.py], [joern_java_safety.py]:
      [SecureRun] (only sanctioned processes are started).
    - [analysis/cpg_ingest/joern_frontend.py], [graph_views.py],
      [decl_reparser.py]: [JoernFrontend] (the two phases of a parse);
      [JoernSamples] has the samples of these four parts.

    ** How the parts interact

    The search of [Ordering] and the passes of [Fingerprint] run in the one
    state-and-exception monad of [Budget].  The fingerprint calls
    [canonical_order] on a slice; the solver orders its worklist by the
    canonical index; the continuity planner compares the identities that
    [Identity] validates.  The registry ([Detectors]) loads the
    specifications [DslParser] parses; a row of it is a detector of [Worker],
    whose core lane runs [Solver] and [Fingerprint] and whose findings
    [Sarif] emits: [core_lane_emits] and [loaded_detectors] state the
    composition.  [Queue] states the queue as a type class, which
    [IdempotentConsumer] and the API use: the theorems on the consumer hold
    for every queue, and [StandardQueue] is an instance.  [repartition_snapshot] appends through [Provenance]; the
    stores and the signer are the classes [ProvenanceStore] and
    [KMSAsymmetricSigner], whose promises ([AppendOnlyStore],
    [SnapshotQuery], [SigningLog], [HonestSigner]) the theorems use and the
    in-memory store and the software signer keep.  The attestor compares the
    core runs that [Sarif] emits.  The snapshot service and the snapshot
    worker store through the record [ObjectStore], whose promises
    ([LawfulStore]) both stores keep; the worker takes its jobs from a
    [Queue], its verdict is a route of [CpgDelta] and its artifact the
    document of [CpgTarball].  [JoernFrontend] starts its two processes
    through [SecureRun], over one log of what was started, and returns the
    graph of [JoernMapper], whose ids and edges have the form that artifact
    carries; [OracleFingerprint] looks a finding up in the mapper's table of
    locations and hands its node to [Fingerprint].  The API's other
    collaborators ([ScanStore], [JobStateStore], [HmacKeyIssuer],
    [SpecRegistryPort], [SnapshotPort]) are type classes as well; the stores
    the source implements are instances, the others stay arbitrary.

    ** Conventions

    A dataclass is a [Record]; its [__post_init__] is a [check_*] function.
    Tests that a field has its declared type hold by typing.  A [Literal] is
    an enumeration where the code enumerates it and a string where the code
    compares strings.  Dicts are finite maps, or association lists where
    their order is observed.  A handler returns its result together with the
    state after it, also when it raises.  Exceptions are the constructors of
    [exc]; messages are dropped.

    ** Fuel

    Loops whose recursion is not structural take fuel, and a theorem or lemma
    shows that the fuel given suffices ([OutOfFuel] is never returned):
    refinement gets one round more than there are nodes, the search one step
    more than the states its limit leaves, the tabulation one more than nodes
    times facts, closures one more than the members that can enter, the slice
    two more than the edges, the witness backtrack one more than the recorded
    predecessors, the JSON scanner two units per character and one, the
    document walks one more than the size of the document, the verification
    of a record one level per row (the code has no bound), the leading place
    of a decimal one more than the bits of its divisor.  The rounds of the
    mapper's walk are an argument: one per node suffices for a forest, and no
    number for an export whose AST loops.

    ** Not modelled

    Time is an arbitrary clock, and [uuid4] an arbitrary stream.  The code
    that reparses declarations, issues keys, resolves snapshots and
    specifications is a parameter, as are the text of [repr] of arbitrary
    objects, the file system (a source tree is a value; the file status a Java run
    checks, directories and processes are operations of a host), the
    pinned tools, tar and gzip, S3, the YAML and RSA libraries and the Unicode tables outside ASCII, of which the parser relies on [UnicodeLaws].  [SQSQueue] and the other adapters over client libraries (boto3,
    HTTP, SQL, container and build tools) are calls into code outside the
    repository; scripts, migrations, infrastructure and observability have no
    logic of their own to verify.  The limits of the interpreter (recursion
    depth, the digits of an integer's text) are not modelled.  There are no
    floats among the JSON values: a number with a fraction or an exponent is
    what the parameter [parse_float] makes of it, so a document that spells
    an id 0.0 is not represented.  The typed Joern exports, the accepted-input
    ledger, the runtime evidence tools and the source acquisition are not
    modelled yet. *)
From stdpp Require Import base tactics list gmap sorting.
From Stdlib Require Import ZArith Lia.

Create HintDb scanipy.

(** A closed decidable fact, by evaluation. *)
Ltac decided := apply (bool_decide_unpack _); vm_compute; exact I.

(** ** Python's [sorted] and [min]

    [sorted(xs, key=...)] is a stable sort; it is modelled by insertion sort
    over a boolean comparison, which keeps equal elements in their order. *)
Module PySort.

Class TotalLe {A} (leb : A -> A -> bool) : Prop := {
  leb_total : forall x y, leb x y = false -> leb y x = true;
  leb_trans : forall x y z, leb x y = true -> leb y z = true -> leb x z = true
}.

Class AntiLe {A} (leb : A -> A -> bool) : Prop :=
  leb_anti : forall x y, leb x y = true -> leb y x = true -> x = y.

Section sort.
Context {A : Type} (leb : A -> A -> bool).

Fixpoint insert_by (x : A) (l : list A) : list A :=
  match l with
  | [] => [x]
  | y :: l' => if leb x y then x :: y :: l' else y :: insert_by x l'
  end.

Definition py_sorted (l : list A) : list A := foldr insert_by [] l.

(** [min(xs)] on a non-empty list is the first least element. *)
Definition py_min (l : list A) : option A := head (py_sorted l).

Lemma insert_by_perm x l : insert_by x l ≡ₚ x :: l.
Proof.
  induction l as [|y l IH]; cbn; [done|].
  destruct (leb x y); [done|]. rewrite IH. apply Permutation_swap.
Qed.

Lemma py_sorted_perm l : py_sorted l ≡ₚ l.
Proof.
  induction l as [|x l IH]; cbn; [done|].
  by rewrite insert_by_perm, IH.
Qed.

Lemma py_sorted_elem x l : x ∈ py_sorted l <-> x ∈ l.
Proof. by rewrite py_sorted_perm. Qed.

Lemma length_py_sorted l : length (py_sorted l) = length l.
Proof. by rewrite py_sorted_perm. Qed.

Context `{!TotalLe leb}.

Lemma leb_refl x : leb x x = true.
Proof. destruct (leb x x) eqn:E; [done|]. by apply leb_total in E as E'; congruence. Qed.

Lemma insert_by_sorted x l :
  StronglySorted (fun a b => leb a b = true) l ->
  StronglySorted (fun a b => leb a b = true) (insert_by x l).
Proof.
  induction l as [|y l IH]; cbn; intros Hs; [by repeat constructor|].
  apply StronglySorted_inv in Hs as [Hs Hy].
  destruct (leb x y) eqn:E.
  - constructor; [by constructor|]. constructor; [done|].
    eapply Forall_impl; [exact Hy|]. intros z Hz. by eapply leb_trans.
  - constructor; [by apply IH|]. rewrite insert_by_perm. constructor; [|done].
    by apply leb_total.
Qed.

Lemma py_sorted_sorted l : StronglySorted (fun a b => leb a b = true) (py_sorted l).
Proof. induction l; cbn; [constructor|]. by apply insert_by_sorted. Qed.

Lemma insert_by_head x l :
  Forall (fun y => leb x y = true) l -> insert_by x l = x :: l.
Proof. intros Hl. destruct l as [|y l]; [done|]. cbn. by rewrite (Forall_inv Hl). Qed.

Lemma py_sorted_id l : StronglySorted (fun a b => leb a b = true) l -> py_sorted l = l.
Proof.
  induction 1 as [|x l Hs IH Hx]; [done|].
  change (insert_by x (py_sorted l) = x :: l). rewrite IH. by apply insert_by_head.
Qed.

(** A sorted list is determined by its elements, when the comparison tells
    them apart. *)
Lemma sorted_unique_on (l1 l2 : list A) :
  (forall x y, x ∈ l1 -> y ∈ l1 -> leb x y = true -> leb y x = true -> x = y) ->
  StronglySorted (fun a b => leb a b = true) l1 ->
  StronglySorted (fun a b => leb a b = true) l2 -> l1 ≡ₚ l2 -> l1 = l2.
Proof.
  intros Hanti H1. revert l2. induction H1 as [|x l1 Hs1 IH Hx1]; intros l2 H2 HP.
  { by apply Permutation_nil_l in HP. }
  destruct l2 as [|y l2]; [by apply Permutation_nil_r in HP|].
  apply StronglySorted_inv in H2 as [Hs2 Hy2].
  assert (Hx : x ∈ y :: l2) by (rewrite <-HP; left).
  assert (Hy : y ∈ x :: l1) by (rewrite HP; left).
  assert (x = y) as ->.
  { apply Hanti; [left|done|..].
    - apply elem_of_cons in Hy as [->|Hy]; [apply leb_refl|]. rewrite Forall_forall in Hx1. auto.
    - apply elem_of_cons in Hx as [->|Hx]; [apply leb_refl|]. rewrite Forall_forall in Hy2. auto. }
  f_equal. apply IH; [|done|by apply Permutation_cons_inv in HP].
  intros a b Ha Hb. apply Hanti; by right.
Qed.

Lemma py_sorted_perm_on (l1 l2 : list A) :
  (forall x y, x ∈ l1 -> y ∈ l1 -> leb x y = true -> leb y x = true -> x = y) ->
  l1 ≡ₚ l2 -> py_sorted l1 = py_sorted l2.
Proof.
  intros Hanti HP. apply sorted_unique_on; [|apply py_sorted_sorted..|by rewrite !py_sorted_perm].
  intros x y. rewrite !py_sorted_elem. apply Hanti.
Qed.

Lemma py_sorted_perm_eq `{!AntiLe leb} (l1 l2 : list A) :
  l1 ≡ₚ l2 -> py_sorted l1 = py_sorted l2.
Proof. apply py_sorted_perm_on. intros x y _ _. apply leb_anti. Qed.

Lemma py_min_spec l x :
  py_min l = Some x -> x ∈ l /\ forall y, y ∈ l -> leb x y = true.
Proof.
  unfold py_min. pose proof (py_sorted_sorted l) as Hs.
  destruct (py_sorted l) as [|z s] eqn:E; [done|]. intros [= ->].
  apply StronglySorted_inv in Hs as [_ Hz]. rewrite Forall_forall in Hz.
  assert (Hmem : forall y, y ∈ x :: s <-> y ∈ l) by (intros; rewrite <-E; apply py_sorted_elem).
  split; [apply Hmem; left|]. intros y Hy%Hmem.
  apply elem_of_cons in Hy as [->|Hy]; [apply leb_refl|by apply Hz].
Qed.

Lemma py_min_None l : py_min l = None <-> l = [].
Proof.
  unfold py_min. split; [|by intros ->]. intros H.
  destruct (py_sorted l) eqn:E; [|done].
  assert (length l = 0) as ?%length_zero_iff_nil by (by rewrite <-length_py_sorted, E). done.
Qed.

Lemma py_min_perm `{!AntiLe leb} l1 l2 : l1 ≡ₚ l2 -> py_min l1 = py_min l2.
Proof. intros HP. unfold py_min. by rewrite (py_sorted_perm_eq l1 l2). Qed.
End sort.

Lemma insert_by_map {A B} (lebA : A -> A -> bool) (lebB : B -> B -> bool) (f : A -> B) x l :
  (forall y, y ∈ l -> lebB (f x) (f y) = lebA x y) ->
  insert_by lebB (f x) (map f l) = map f (insert_by lebA x l).
Proof.
  induction l as [|y l IH]; cbn; intros H; [done|].
  rewrite H by left. destruct (lebA x y); [done|]. cbn. f_equal.
  apply IH. intros; apply H; by right.
Qed.

(** Sorting commutes with an order-preserving relabelling of the elements. *)
Lemma py_sorted_map {A B} (lebA : A -> A -> bool) (lebB : B -> B -> bool) (f : A -> B) l :
  (forall x y, x ∈ l -> y ∈ l -> lebB (f x) (f y) = lebA x y) ->
  py_sorted lebB (map f l) = map f (py_sorted lebA l).
Proof.
  induction l as [|x l IH]; intros H; [done|].
  change (insert_by lebB (f x) (py_sorted lebB (map f l)) =
          map f (insert_by lebA x (py_sorted lebA l))).
  rewrite IH by (intros; apply H; by right).
  apply insert_by_map. intros y Hy%py_sorted_elem. apply H; [left|by right].
Qed.

(** *** Lexicographic comparison of tuples and sequences *)
Definition pair_leb {A B} (lebA : A -> A -> bool) (lebB : B -> B -> bool) (p q : A * B) : bool :=
  if lebA p.1 q.1 then (if lebA q.1 p.1 then lebB p.2 q.2 else true) else false.

Fixpoint list_leb {A} (leb : A -> A -> bool) (l k : list A) : bool :=
  match l, k with
  | [], _ => true
  | _ :: _, [] => false
  | x :: l', y :: k' => if leb x y then (if leb y x then list_leb leb l' k' else true) else false
  end.

#[export] Instance Z_leb_total : TotalLe Z.leb.
Proof. split; intros *; lia. Qed.
#[export] Instance Z_leb_anti : AntiLe Z.leb.
Proof. intros x y; lia. Qed.

#[export] Instance pair_leb_total {A B} (lebA : A -> A -> bool) (lebB : B -> B -> bool) :
  TotalLe lebA -> TotalLe lebB -> TotalLe (pair_leb lebA lebB).
Proof.
  intros HA HB. split.
  - intros [a b] [a' b']; unfold pair_leb; cbn.
    destruct (lebA a a') eqn:E1, (lebA a' a) eqn:E2; try done; [apply leb_total|].
    intros _. by apply leb_total in E1; congruence.
  - intros [a b] [a' b'] [a'' b'']; unfold pair_leb; cbn.
    destruct (lebA a a') eqn:E1; [|done]. destruct (lebA a' a'') eqn:E2; [|by intros ?].
    rewrite (leb_trans _ _ _ E1 E2).
    destruct (lebA a'' a) eqn:E3; [|done].
    rewrite (leb_trans _ _ _ E2 E3), (leb_trans _ _ _ E3 E1). apply leb_trans.
Qed.

#[export] Instance pair_leb_anti {A B} (lebA : A -> A -> bool) (lebB : B -> B -> bool) :
  AntiLe lebA -> AntiLe lebB -> AntiLe (pair_leb lebA lebB).
Proof.
  intros HA HB [a b] [a' b']; unfold pair_leb; cbn.
  destruct (lebA a a') eqn:E1; [|done]. destruct (lebA a' a) eqn:E2; [|done].
  intros H1 H2. f_equal; by apply leb_anti.
Qed.

#[export] Instance list_leb_total {A} (leb : A -> A -> bool) :
  TotalLe leb -> TotalLe (list_leb leb).
Proof.
  intros HA. split.
  - intros x; induction x as [|a x IH]; intros [|b y]; cbn; try done.
    destruct (leb a b) eqn:E1, (leb b a) eqn:E2; try done; [apply IH|].
    intros _. by apply leb_total in E1; congruence.
  - intros x; induction x as [|a x IH]; intros [|b y] [|c z]; cbn; try done.
    destruct (leb a b) eqn:E1; [|done]. destruct (leb b c) eqn:E2; [|by intros ?].
    rewrite (leb_trans _ _ _ E1 E2).
    destruct (leb c a) eqn:E3; [|done].
    rewrite (leb_trans _ _ _ E2 E3), (leb_trans _ _ _ E3 E1). apply IH.
Qed.

#[export] Instance list_leb_anti {A} (leb : A -> A -> bool) :
  AntiLe leb -> AntiLe (list_leb leb).
Proof.
  intros HA x; induction x as [|a x IH]; intros [|b y]; cbn; try done.
  destruct (leb a b) eqn:E1; [|done]. destruct (leb b a) eqn:E2; [|done].
  intros H1 H2. f_equal; [by apply leb_anti|by apply IH].
Qed.

End PySort.
Export PySort.

(** ** Positions and maps over lists *)

(** The first position of [x]: the dict [{x: i for i, x in enumerate(l)}] of a
    list without duplicates. *)
Fixpoint index_of {A} `{!EqDecision A} (x : A) (l : list A) : option nat :=
  match l with
  | [] => None
  | y :: l' => if decide (x = y) then Some O else S <$> index_of x l'
  end.

Section index_of.
Context {A : Type} `{!EqDecision A}.
Implicit Types (x : A) (l : list A).

Lemma index_of_lt x l i : index_of x l = Some i -> (i < length l)%nat /\ l !! i = Some x.
Proof.
  revert i. induction l as [|y l IH]; intros i; cbn; [done|].
  destruct (decide (x = y)) as [->|Hne]; [intros [= <-]; split; [lia|done]|].
  destruct (index_of x l) as [j|]; [|done]. intros [= <-]. destruct (IH j eq_refl). split; [lia|done].
Qed.

Lemma index_of_elem x l : x ∈ l -> exists i, index_of x l = Some i.
Proof.
  induction l as [|y l IH]; [by intros ?%elem_of_nil|]. intros Hx. cbn.
  destruct (decide (x = y)); [eauto|]. apply elem_of_cons in Hx as [?|Hx]; [done|].
  destruct (IH Hx) as [i ->]. eauto.
Qed.

Lemma index_of_lookup l i (n : A) : NoDup l -> l !! i = Some n -> index_of n l = Some i.
Proof.
  intros Hnd Hi. destruct (index_of_elem n l) as [j Hj]; [by eapply list_elem_of_lookup_2|].
  rewrite Hj. apply index_of_lt in Hj as [_ Hj]. f_equal. by eapply NoDup_lookup.
Qed.
End index_of.

Lemma zip_map_map {A B C} (f : A -> B) (g : A -> C) l :
  zip (map f l) (map g l) = map (fun x => (f x, g x)) l.
Proof. induction l; cbn; [done|by f_equal]. Qed.

Lemma perm_map_inj {A B} (f : A -> B) (l k : list A) :
  (forall x y, x ∈ l -> y ∈ k -> f x = f y -> x = y) ->
  map f l ≡ₚ map f k -> l ≡ₚ k.
Proof.
  intros Hf Hp. apply Permutation_map_inv in Hp as (k' & E & Hk).
  rewrite Hk. assert (Hf' : forall x y, x ∈ l -> y ∈ k' -> f x = f y -> x = y).
  { intros x y Hx Hy. apply Hf; [done|]. by rewrite Hk. }
  clear Hf Hk. revert k' E Hf'.
  induction l as [|x l IH]; intros [|y k'] E Hf; try done. cbn in E. injection E as E1 E2.
  rewrite (Hf x y) by (done || left). constructor. apply IH; [done|].
  intros u v Hu Hv. apply Hf; by right.
Qed.

Lemma filter_perm {A} (f : A -> bool) (l k : list A) :
  l ≡ₚ k -> List.filter f l ≡ₚ List.filter f k.
Proof.
  induction 1 as [|x l k _ IH|x y l|l k m _ IH1 _ IH2]; cbn.
  - done.
  - destruct (f x); [by constructor|done].
  - destruct (f x), (f y); try done. apply Permutation_swap.
  - by etransitivity.
Qed.

Lemma py_min_ext {A} (leb : A -> A -> bool) `{!TotalLe leb, !AntiLe leb} (l k : list A) :
  (forall x, x ∈ l <-> x ∈ k) -> py_min leb l = py_min leb k.
Proof.
  intros H. destruct (py_min leb l) as [x|] eqn:E1, (py_min leb k) as [y|] eqn:E2; [|..|done].
  - apply py_min_spec in E1 as [Hx Hlx]; [|done]. apply py_min_spec in E2 as [Hy Hly]; [|done].
    f_equal. apply leb_anti; [apply Hlx|apply Hly]; by apply H.
  - apply py_min_spec in E1 as [Hx _]; [|done]. apply py_min_None in E2 as ->.
    by apply H, elem_of_nil in Hx.
  - apply py_min_spec in E2 as [Hx _]; [|done]. apply py_min_None in E1 as ->.
    by apply H, elem_of_nil in Hx.
Qed.

(** A bijection between two duplicate-free lists, as an alignment. *)
Lemma align {A B} (R : A -> B -> Prop) (l : list A) : forall (k : list B),
  NoDup l -> NoDup k ->
  (forall x, x ∈ l -> exists y, y ∈ k /\ R x y) -> (forall y, y ∈ k -> exists x, x ∈ l /\ R x y) ->
  (forall x y y', x ∈ l -> y ∈ k -> y' ∈ k -> R x y -> R x y' -> y = y') ->
  (forall x x' y, x ∈ l -> x' ∈ l -> y ∈ k -> R x y -> R x' y -> x = x') ->
  exists k', k' ≡ₚ k /\ Forall2 R l k'.
Proof.
  induction l as [|x l IH]; intros k Hl Hk Hlk Hkl Hfun Hinj.
  { destruct k as [|y k]; [by exists []|]. destruct (Hkl y) as (? & ?%elem_of_nil & _); [left|done]. }
  apply NoDup_cons in Hl as [Hx Hl]. destruct (Hlk x) as (y & Hy & Hxy); [left|].
  apply list_elem_of_split in Hy as (k1 & k2 & ->).
  assert (Hp : k1 ++ y :: k2 ≡ₚ y :: k1 ++ k2) by (symmetry; apply Permutation_middle).
  rewrite Hp in Hk. apply NoDup_cons in Hk as [Hyn Hk].
  assert (Hm : forall z, z ∈ k1 ++ y :: k2 <-> z = y \/ z ∈ k1 ++ k2)
    by (intros z; by rewrite Hp, elem_of_cons).
  destruct (IH (k1 ++ k2)) as (k' & Hk' & HF); [done..| | | | |].
  - intros x' Hx'. destruct (Hlk x') as (y' & Hy' & HR); [by right|].
    apply Hm in Hy' as [->|?]; [|eauto]. exfalso. apply Hx.
    rewrite (Hinj x x' y); [done|left|by right|apply Hm; by left|done..].
  - intros y' Hy'. destruct (Hkl y') as (x' & Hx' & HR); [apply Hm; by right|].
    apply elem_of_cons in Hx' as [->|?]; [|eauto]. exfalso. apply Hyn.
    rewrite (Hfun x y y'); [done|left|apply Hm; by left|apply Hm; by right|done..].
  - intros u v v' Hu Hv Hv'. apply Hfun; [by right|apply Hm; by right..].
  - intros u u' v Hu Hu' Hv. apply Hinj; [by right..|apply Hm; by right].
  - exists (y :: k'). split; [by rewrite Hk', Hp|by constructor].
Qed.

Lemma Forall2_elem_l {A B} (R : A -> B -> Prop) l k x :
  Forall2 R l k -> x ∈ l -> exists y, y ∈ k /\ R x y.
Proof.
  induction 1 as [|a b l k HR _ IH]; [by intros ?%elem_of_nil|].
  intros [->|Hx]%elem_of_cons; [exists b; split; [left|done]|].
  destruct (IH Hx) as (y & Hy & ?). exists y. split; [by right|done].
Qed.

(** Comparing by a key. *)
#[export] Instance on_key_total {A B} (f : A -> B) (leb : B -> B -> bool) :
  TotalLe leb -> TotalLe (fun a b => leb (f a) (f b)).
Proof. intros [H1 H2]. split; eauto. Qed.

Lemma NoDup_map_filter {A B} (f : A -> B) (p : A -> bool) l : NoDup (map f l) -> NoDup (map f (List.filter p l)).
Proof.
  induction l as [|x l IH]; intros Hnd; [done|]. cbn in *. apply NoDup_cons in Hnd as [Hni Hnd].
  destruct (p x); [|auto]. cbn. apply NoDup_cons. split; [|auto].
  intros (m & E & Hm)%list_elem_of_fmap. apply Hni. rewrite E. apply list_elem_of_fmap. exists m. split; [done|].
  apply list_elem_of_In, filter_In in Hm as [Hm _]. by apply list_elem_of_In.
Qed.

Lemma NoDup_map_inj {A B} (f : A -> B) l x y : NoDup (map f l) -> x ∈ l -> y ∈ l -> f x = f y -> x = y.
Proof.
  intros Hnd [i Hi]%list_elem_of_lookup [j Hj]%list_elem_of_lookup E. assert (i = j) as <-; [|congruence].
  eapply NoDup_lookup; [exact Hnd|..]; change (map f l) with (f <$> l); rewrite list_lookup_fmap; [rewrite Hi|rewrite Hj]; cbn; [done|by rewrite E].
Qed.
