(* ===== verification/PyData.v ===== *)
(** * Python values used by the sources: [str], [bytes], exceptions

    A Python [str] is a sequence of code points, a [bytes] a sequence of
    integers in [0..255].  [str.encode("utf-8", errors="strict")] is partial:
    it raises [UnicodeEncodeError] on a lone surrogate.  [int.to_bytes(8,
    "big")] is the big-endian split.  Python exceptions are the values of
    [exc]; a computation that may raise returns an [outcome]. *)
From stdpp Require Import base tactics list strings.
From Stdlib Require Import ZArith Lia Ascii.
From S2P Require Import Prelude.

Open Scope Z_scope.

(** ** Exceptions *)

(** The exception classes the modelled sources raise; [BaseException] stands
    for those that are not [Exception]s.  [OutOfFuel] is not a
    Python exception: it is the value a fuelled loop of the model returns when
    the fuel does not suffice, and theorems show that it never occurs. *)
Inductive exc :=
| ValueError (msg : string)
| UnicodeEncodeError
| OverflowError
| KeyError
| TypeError
| AssertionError
| CanonicalizationDeadlineExceeded
| BudgetExhausted
| NonDistributiveSpec (spec_id : list Z)
| EmptyWitness
| WitnessNotInCPG
| NodeIdCollision
| EnvDigestMismatch
| UnknownReceiptError
| QueueError
| TenantIsolationError
| NotImplementedError
| BoundRuleError (code : string)
| ObservedGraphInputError (code : string)
| AttributeError
| IndexError
| InvariantViolation (code : string)
| SARIFSchemaViolation
| CanonicalEmissionFailure
| DSLError (code : string) (line : Z)
| RegistryError (code : string)
| RegistryLoadError (code : string)
| ProvenanceError
| RepartitionWithoutParent
| InvalidSignature
| ObjectStoreError
| PathTraversalError
| CrossTenantAccessError
| AttestorConfigurationError
| OSError
| TarError
| CPGDeserializationError
| EnvDigestMissing
| MalformedSnapshotJobError
| IncrementalSnapshotNotSupportedError
| NoSourceFilesFoundError
| NativeGitAcquisitionUnavailable
| UnknownEdgeKindError
| UnknownNodeReferenceError
| UnsupportedParseLanguageError
| JoernExportMissingError
| ArgvAllowlistViolation
| UnknownTool
| JavaStaticEnvironmentError
| CalledProcessError (cmd : list (list Z)) (returncode : Z) (stdout stderr : list Z)
| TimeoutExpired (cmd : list (list Z)) (stdout stderr : list Z)
| FileNotFoundError
| BaseException
| OutOfFuel.

Inductive outcome (A : Type) :=
| Ok (a : A)
| Raise (e : exc).
Arguments Ok {A} _.
Arguments Raise {A} _.

Definition obind {A B} (x : outcome A) (f : A -> outcome B) : outcome B :=
  match x with Ok a => f a | Raise e => Raise e end.

(** ** Integers *)

(** [n/d] to the nearest integer, ties to even *)
Definition round_half_even (n d : Z) : Z :=
  let q := n / d in
  let r := n mod d in
  if 2 * r <? d then q
  else if d <? 2 * r then q + 1
  else if Z.even q then q else q + 1.

(** ** [str] and [bytes] *)

Definition pystr := list Z.
Definition pybytes := list Z.

(** A string literal of the source (ASCII). *)
Definition str (s : string) : pystr :=
  map (fun a => Z.of_N (N_of_ascii a)) (String.list_ascii_of_string s).

#[global] Arguments str : simpl never.

Definition str_eqb (s t : pystr) : bool := bool_decide (s = t).

Definition bytes_leb : pybytes -> pybytes -> bool := list_leb Z.leb.
Definition str_leb : pystr -> pystr -> bool := list_leb Z.leb.

#[export] Instance bytes_leb_total : TotalLe bytes_leb := list_leb_total Z.leb _.
#[export] Instance bytes_leb_anti : AntiLe bytes_leb := list_leb_anti Z.leb _.
#[export] Instance str_leb_total : TotalLe str_leb := list_leb_total Z.leb _.
#[export] Instance str_leb_anti : AntiLe str_leb := list_leb_anti Z.leb _.

Definition is_byte (b : Z) : Prop := 0 <= b < 256.

(** [int.to_bytes(n, "big", signed=False)], for a value in range. *)
Fixpoint to_bytes (n : nat) (v : Z) : pybytes :=
  match n with
  | O => []
  | S k => (v / 256 ^ Z.of_nat k) mod 256 :: to_bytes k v
  end.

Fixpoint from_bytes (bs : pybytes) : Z :=
  match bs with
  | [] => 0
  | b :: bs' => b * 256 ^ Z.of_nat (length bs') + from_bytes bs'
  end.

Lemma length_to_bytes n v : length (to_bytes n v) = n.
Proof. induction n; cbn; congruence. Qed.

Lemma to_bytes_is_byte n v : Forall is_byte (to_bytes n v).
Proof. induction n; cbn; constructor; [apply Z.mod_pos_bound; lia|done]. Qed.

Lemma from_to_bytes n v : from_bytes (to_bytes n v) = v mod 256 ^ Z.of_nat n.
Proof.
  induction n as [|n IH]; cbn [to_bytes from_bytes].
  { by rewrite Z.mod_1_r. }
  rewrite IH, length_to_bytes, Nat2Z.inj_succ, Z.pow_succ_r, Z.mul_comm by lia.
  rewrite (Z.mul_comm 256), Z.rem_mul_r by lia. lia.
Qed.

Lemma to_bytes_inj n v w :
  0 <= v < 256 ^ Z.of_nat n -> 0 <= w < 256 ^ Z.of_nat n ->
  to_bytes n v = to_bytes n w -> v = w.
Proof.
  intros Hv Hw E. apply (f_equal from_bytes) in E.
  by rewrite !from_to_bytes, !Z.mod_small in E.
Qed.

(** [str(n)] of a non-negative integer *)
Fixpoint decimal_digits (fuel : nat) (n : Z) (acc : pystr) : pystr :=
  match fuel with
  | O => acc
  | S fuel' => if n <? 10 then (48 + n) :: acc else decimal_digits fuel' (n / 10) ((48 + n mod 10) :: acc)
  end.
Definition decimal (n : Z) : pystr := decimal_digits (S (Z.to_nat (Z.log2 n))) n [].

#[global] Arguments decimal : simpl never.

(** [str(n)] *)
Definition str_of_int (n : Z) : pystr := if n <? 0 then 45 :: decimal (- n) else decimal n.

Definition is_digit (c : Z) : bool := (48 <=? c) && (c <=? 57).

(** [int(s)] of a string of ASCII digits. *)
Definition digits_value (s : pystr) : Z := fold_left (fun n c => 10 * n + (c - 48)) s 0.

(** A digit string without a leading zero. *)
Definition plain_digits (s : pystr) : Prop :=
  Forall (fun c => 48 <= c <= 57) s /\ match s with [] => False | [_] => True | c :: _ => c <> 48 end.

Lemma digits_value_snoc s c : digits_value (s ++ [c]) = 10 * digits_value s + (c - 48).
Proof. unfold digits_value. by rewrite fold_left_app. Qed.

Lemma plain_digits_snoc s c : plain_digits s -> digits_value s <> 0 -> 48 <= c <= 57 -> plain_digits (s ++ [c]).
Proof.
  intros [H1 H2] Hv Hc. split; [apply Forall_app; auto|]. destruct s as [|d [|e s]]; cbn in *; try done.
  unfold digits_value in Hv. cbn in Hv. lia.
Qed.

Lemma decimal_digits_spec fuel : forall n acc, 0 <= n < 2 ^ Z.of_nat fuel -> (0 < fuel)%nat ->
  exists ds, decimal_digits fuel n acc = ds ++ acc /\ plain_digits ds /\ digits_value ds = n.
Proof.
  induction fuel as [|fuel IH]; intros n acc Hn Hf; [lia|]. cbn [decimal_digits]. destruct (Z.ltb_spec n 10).
  { exists [48 + n]. split; [done|]. split; [split; [repeat constructor; lia|done]|]. unfold digits_value. cbn. lia. }
  rewrite Nat2Z.inj_succ, Z.pow_succ_r in Hn by lia.
  assert (Hdiv : 0 <= n / 10 < 2 ^ Z.of_nat fuel) by (split; [apply Z.div_pos; lia|apply Z.div_lt_upper_bound; lia]).
  destruct fuel as [|fuel]; [cbn in *; lia|].
  destruct (IH (n / 10) (48 + n mod 10 :: acc) Hdiv ltac:(lia)) as (ds & E & Hp & Hv).
  pose proof (Z.mod_pos_bound n 10). exists (ds ++ [48 + n mod 10]). split; [by rewrite E, <-app_assoc|]. split.
  - apply plain_digits_snoc; [done| |lia]. rewrite Hv. assert (1 <= n / 10) by (apply Z.div_le_lower_bound; lia). lia.
  - rewrite digits_value_snoc, Hv. pose proof (Z.div_mod n 10). lia.
Qed.

Lemma decimal_spec n : 0 <= n -> plain_digits (decimal n) /\ digits_value (decimal n) = n.
Proof.
  intros Hn. unfold decimal. destruct (decimal_digits_spec (S (Z.to_nat (Z.log2 n))) n []) as (ds & -> & H); [|lia|by rewrite app_nil_r].
  rewrite Nat2Z.inj_succ, Z2Nat.id by apply Z.log2_nonneg. destruct (Z.eq_dec n 0) as [->|]; [cbn; lia|].
  split; [done|]. apply Z.log2_spec. lia.
Qed.

#[global] Arguments str_of_int : simpl never.

(** A number's text ends where a character that is not a digit follows. *)
Definition ends (s : pystr) : Prop := match s with [] => True | c :: _ => ~ (48 <= c <= 57) end.

Lemma digits_prefix ds : forall ds' r s, Forall (fun c => 48 <= c <= 57) ds -> Forall (fun c => 48 <= c <= 57) ds' ->
  ends r -> ends s -> ds ++ r = ds' ++ s -> ds = ds' /\ r = s.
Proof.
  induction ds as [|d ds IH]; intros [|d' ds'] r s H H' Hr Hs E; cbn in *.
  - done.
  - subst r. apply Forall_cons in H' as [H' _]. done.
  - subst s. apply Forall_cons in H as [H _]. done.
  - apply Forall_cons in H as [_ H], H' as [_ H']. injection E as -> E. destruct (IH ds' r s H H' Hr Hs E) as [-> ->]. done.
Qed.

Lemma decimal_prefix m n r s : 0 <= m -> 0 <= n -> ends r -> ends s -> decimal m ++ r = decimal n ++ s -> m = n /\ r = s.
Proof.
  intros [[Hm _] Vm]%decimal_spec [[Hn _] Vn]%decimal_spec Hr Hs E.
  destruct (digits_prefix _ _ _ _ Hm Hn Hr Hs E) as [Ed ->]. split; [|done]. by rewrite <-Vm, <-Vn, Ed.
Qed.

Lemma decimal_head n : 0 <= n -> exists c t, decimal n = c :: t /\ 48 <= c <= 57.
Proof. intros [[H Hh] _]%decimal_spec. destruct (decimal n) as [|c t]; [done|]. exists c, t. by apply Forall_inv in H. Qed.

Lemma str_of_int_prefix m n r s : ends r -> ends s -> str_of_int m ++ r = str_of_int n ++ s -> m = n /\ r = s.
Proof.
  unfold str_of_int. intros Hr Hs. destruct (Z.ltb_spec m 0), (Z.ltb_spec n 0); cbn; intros E.
  - injection E as E. apply decimal_prefix in E as [E ->]; [|lia..|done|done]. split; [lia|done].
  - destruct (decimal_head n) as (c & t & En & Hc); [lia|]. rewrite En in E. injection E as E _. lia.
  - destruct (decimal_head m) as (c & t & Em & Hc); [lia|]. rewrite Em in E. injection E as E _. lia.
  - apply decimal_prefix in E; [done|lia..|done|done].
Qed.

Lemma str_of_int_head n : exists c t, str_of_int n = c :: t /\ (c = 45 \/ 48 <= c <= 57).
Proof.
  unfold str_of_int. destruct (Z.ltb_spec n 0); [eauto|]. destruct (decimal_head n) as (c & t & -> & Hc); [lia|]. eauto.
Qed.

Example str_of_int_neg : str_of_int (-120) = str "-120".
Proof. reflexivity. Qed.

(** UTF-8 encoding of one code point; [None] for a surrogate or a value
    outside Unicode. *)
Definition utf8_char (c : Z) : option pybytes :=
  if (c <? 0) then None
  else if (c <? 128) then Some [c]
  else if (c <? 2048) then Some [192 + c / 64; 128 + c mod 64]
  else if (55296 <=? c) && (c <? 57344) then None
  else if (c <? 65536) then
    Some [224 + c / 4096; 128 + (c / 64) mod 64; 128 + c mod 64]
  else if (c <? 1114112) then
    Some [240 + c / 262144; 128 + (c / 4096) mod 64; 128 + (c / 64) mod 64; 128 + c mod 64]
  else None.

(** [s.encode("utf-8", errors="strict")]. *)
Fixpoint utf8_encode (s : pystr) : option pybytes :=
  match s with
  | [] => Some []
  | c :: s' =>
      match utf8_char c, utf8_encode s' with
      | Some b, Some bs => Some (b ++ bs)
      | _, _ => None
      end
  end.

Ltac utf8_cases :=
  repeat match goal with
  | H : context [if ?b then _ else _] |- _ => destruct b eqn:?
  end; simplify_eq.

Ltac div_lia := Z.to_euclidean_division_equations; lia.

(** UTF-8 is a prefix code: the first character can be read off the bytes. *)
Lemma utf8_char_prefix c d bc bd r s :
  utf8_char c = Some bc -> utf8_char d = Some bd -> bc ++ r = bd ++ s -> c = d /\ r = s.
Proof.
  unfold utf8_char. intros Hc Hd E.
  utf8_cases; cbn in *; simplify_eq; try (exfalso; div_lia); split; try done; div_lia.
Qed.

Lemma utf8_char_nonempty c bc : utf8_char c = Some bc -> bc <> [].
Proof. unfold utf8_char. intros H ->. utf8_cases. Qed.

Lemma utf8_encode_inj s t bs :
  utf8_encode s = Some bs -> utf8_encode t = Some bs -> s = t.
Proof.
  revert t bs. induction s as [|c s IH]; intros [|d t] bs; cbn; try done.
  - intros [= <-]. destruct (utf8_char d) as [bd|] eqn:Ed, (utf8_encode t); try done.
    intros [= [E _]%app_nil]. by apply utf8_char_nonempty in Ed.
  - destruct (utf8_char c) as [bc|] eqn:Ec, (utf8_encode s); try done.
    intros [= <-] [= [E _]%eq_sym%app_nil]. by apply utf8_char_nonempty in Ec.
  - destruct (utf8_char c) as [bc|] eqn:Ec, (utf8_encode s) as [bs1|] eqn:Es; try done.
    destruct (utf8_char d) as [bd|] eqn:Ed, (utf8_encode t) as [bs2|] eqn:Et; try done.
    intros [= <-] [= E]. destruct (utf8_char_prefix _ _ _ _ _ _ Ed Ec E) as [-> ->].
    f_equal. by apply (IH t bs1).
Qed.

Lemma utf8_char_bytes c bc : utf8_char c = Some bc -> Forall is_byte bc.
Proof.
  unfold utf8_char, is_byte. intros H.
  utf8_cases; repeat constructor; div_lia.
Qed.

Lemma utf8_encode_bytes s bs : utf8_encode s = Some bs -> Forall is_byte bs.
Proof.
  revert bs. induction s as [|c s IH]; intros bs; cbn; [intros [= <-]; constructor|].
  destruct (utf8_char c) eqn:Ec, (utf8_encode s); try done.
  intros [= <-]. apply Forall_app; eauto using utf8_char_bytes.
Qed.

Example utf8_arrow : utf8_encode [8594] = Some [226; 134; 146].
Proof. reflexivity. Qed.
Example utf8_surrogate : utf8_encode (str "a" ++ [55296]) = None.
Proof. reflexivity. Qed.
