(* ===== verification/Sha256.v ===== *)
(** * [hashlib.sha256]

    The standard library's SHA-256 (FIPS 180-4) on [bytes], executable, so that
    digests of the model can be evaluated.  Words are [Z] masked to 32 bits. *)
From stdpp Require Import base tactics strings list.
From Stdlib Require Import ZArith Lia.
From S2P Require Import Prelude PyData.

Open Scope Z_scope.

Module Sha.

Definition mask32 : Z := 4294967295.
Definition w32 (x : Z) : Z := Z.land x mask32.
Definition rotr (n x : Z) : Z := Z.lor (Z.shiftr x n) (w32 (Z.shiftl x (32 - n))).
Definition not32 (x : Z) : Z := mask32 - x.

Definition ch (x y z : Z) : Z := Z.lxor (Z.land x y) (Z.land (not32 x) z).
Definition maj (x y z : Z) : Z := Z.lxor (Z.lxor (Z.land x y) (Z.land x z)) (Z.land y z).
Definition bsig0 (x : Z) : Z := Z.lxor (Z.lxor (rotr 2 x) (rotr 13 x)) (rotr 22 x).
Definition bsig1 (x : Z) : Z := Z.lxor (Z.lxor (rotr 6 x) (rotr 11 x)) (rotr 25 x).
Definition ssig0 (x : Z) : Z := Z.lxor (Z.lxor (rotr 7 x) (rotr 18 x)) (Z.shiftr x 3).
Definition ssig1 (x : Z) : Z := Z.lxor (Z.lxor (rotr 17 x) (rotr 19 x)) (Z.shiftr x 10).

Definition round_constants : list Z :=
  [1116352408; 1899447441; 3049323471; 3921009573; 961987163; 1508970993;
   2453635748; 2870763221; 3624381080; 310598401; 607225278; 1426881987;
   1925078388; 2162078206; 2614888103; 3248222580; 3835390401; 4022224774;
   264347078; 604807628; 770255983; 1249150122; 1555081692; 1996064986;
   2554220882; 2821834349; 2952996808; 3210313671; 3336571891; 3584528711;
   113926993; 338241895; 666307205; 773529912; 1294757372; 1396182291;
   1695183700; 1986661051; 2177026350; 2456956037; 2730485921; 2820302411;
   3259730800; 3345764771; 3516065817; 3600352804; 4094571909; 275423344;
   430227734; 506948616; 659060556; 883997877; 958139571; 1322822218;
   1537002063; 1747873779; 1955562222; 2024104815; 2227730452; 2361852424;
   2428436474; 2756734187; 3204031479; 3329325298].

Definition initial_state : list Z :=
  [1779033703; 3144134277; 1013904242; 2773480762; 1359893119; 2600822924;
   528734635; 1541459225].

(** Padding: a one bit, zeros, and the bit length on 64 bits. *)
Definition pad (m : pybytes) : pybytes :=
  let len := Z.of_nat (length m) in
  let zeros := Z.to_nat ((55 - len) mod 64) in
  m ++ [128] ++ repeat 0 zeros ++ to_bytes 8 (8 * len).

Fixpoint words (n : nat) (bs : pybytes) : list Z :=
  match n with
  | O => []
  | S k => from_bytes (take 4 bs) :: words k (drop 4 bs)
  end.

(** The message schedule, kept as the last sixteen words, newest first. *)
Fixpoint schedule (n : nat) (recent : list Z) : list Z :=
  match n with
  | O => []
  | S k =>
      let w i := nth i recent 0 in
      let x := w32 (ssig1 (w 1%nat) + w 6%nat + ssig0 (w 14%nat) + w 15%nat) in
      x :: schedule k (x :: take 15 recent)
  end.

Definition block_words (bs : pybytes) : list Z :=
  let w := words 16 bs in w ++ schedule 48 (rev w).

Definition step (st : list Z) (kw : Z * Z) : list Z :=
  match st with
  | [a; b; c; d; e; f; g; h] =>
      let t1 := h + bsig1 e + ch e f g + kw.1 + kw.2 in
      let t2 := bsig0 a + maj a b c in
      [w32 (t1 + t2); a; b; c; w32 (d + t1); e; f; g]
  | _ => st
  end.

Definition compress (st : list Z) (block : pybytes) : list Z :=
  zip_with (fun x y => w32 (x + y)) st
    (fold_left step (zip round_constants (block_words block)) st).

Fixpoint blocks (n : nat) (st : list Z) (bs : pybytes) : list Z :=
  match n with
  | O => st
  | S k => blocks k (compress st (take 64 bs)) (drop 64 bs)
  end.

(** [hashlib.sha256(m).digest()] *)
Definition sha256 (m : pybytes) : pybytes :=
  let p := pad m in
  concat (map (to_bytes 4) (blocks (Nat.div (length p) 64) initial_state p)).

(** The FIPS 180-4 test vector for the three-byte message. *)
Example sha256_abc :
  from_bytes (sha256 (str "abc")) =
  84342368487090800366523834928142263660104883695016514377462985829716817089965.
Proof. vm_compute. reflexivity. Qed.

(** The test vector for a message of two blocks. *)
Example sha256_two_blocks :
  from_bytes (sha256 (str "abcdbcdecdefdefgefghfghighijhijkijkljklmklmnlmnomnopnopq")) =
  16533122207477069341668099752125637525043274373652441057433006174010909329089.
Proof. vm_compute. reflexivity. Qed.

Lemma length_step st kw : length st = 8%nat -> length (step st kw) = 8%nat.
Proof. intros H. do 9 (destruct st as [|? st]; try done). Qed.

Lemma length_steps kws : forall st, length st = 8%nat -> length (fold_left step kws st) = 8%nat.
Proof. induction kws; cbn; auto using length_step. Qed.

Lemma length_blocks n : forall st bs, length st = 8%nat -> length (blocks n st bs) = 8%nat.
Proof.
  induction n as [|n IH]; intros st bs H; [done|]. cbn. apply IH.
  unfold compress. rewrite length_zip_with, length_steps; lia.
Qed.

(** A digest is always 32 bytes long. *)
Lemma length_sha256 m : length (sha256 m) = 32%nat.
Proof.
  unfold sha256.
  pose proof (length_blocks (Nat.div (length (pad m)) 64) initial_state (pad m) eq_refl) as H.
  revert H. generalize (blocks (Nat.div (length (pad m)) 64) initial_state (pad m)).
  intros l H. do 9 (destruct l as [|? l]; try done).
Qed.

End Sha.
#[global] Arguments Sha.sha256 : simpl never.
Abbreviation sha256 := Sha.sha256.
