(* ===== verification/Budget.v ===== *)
(** * The canonicalization budget ([analysis/ordering.py])

    [CanonicalizationBudget] couples a deterministic work counter (entered
    search states, at most [state_limit]) with a wall-clock deadline that every
    phase checks cooperatively.  The clock is an input of the model: the value
    of the [i]-th call of [time.monotonic], an arbitrary function of [i].
    Times are the rationals that Python's floats denote.

    The code that shares one budget is written in the state-and-exception
    monad [M].  The judgement [executes m L n r n'] says that from [n] entered
    states under the limit [L], and whatever the clock says, [m] either raises
    the deadline or ends with the one outcome [r] and [n'] entered states. *)
From stdpp Require Import base tactics list strings.
From Stdlib Require Import ZArith QArith Lia.
From S2P Require Import Prelude PyData.

Open Scope Z_scope.

Definition clock := nat -> Q.

(** [CanonicalizationBudget]; [clock_reads] counts the calls of the clock. *)
Record CanonicalizationBudget := mkBudget {
  state_limit : Z;
  duration : Q;
  started_at : Q;
  search_states : Z;
  clock_reads : nat
}.

Definition M (A : Type) := clock -> CanonicalizationBudget -> outcome A * CanonicalizationBudget.

Definition ret {A} (a : A) : M A := fun _ b => (Ok a, b).
Definition raise {A} (e : exc) : M A := fun _ b => (Raise e, b).
Definition bind {A B} (m : M A) (f : A -> M B) : M B := fun c b =>
  match m c b with
  | (Ok a, b') => f a c b'
  | (Raise e, b') => (Raise e, b')
  end.
Definition lift {A} (x : outcome A) : M A := fun _ b => (x, b).

(** [try: m except BudgetExhausted: h] *)
Definition except_exhausted {A} (m h : M A) : M A := fun c b =>
  match m c b with
  | (Raise BudgetExhausted, b') => h c b'
  | r => r
  end.

Declare Scope budget_scope.
Delimit Scope budget_scope with budget.
Notation "x ⇠ m ; k" := (bind m (fun x => k))
  (at level 100, m at next level, right associativity) : budget_scope.
Notation "m ;;; k" := (bind m (fun _ => k))
  (at level 100, k at level 200, right associativity) : budget_scope.
Open Scope budget_scope.

Fixpoint mapM {A B} (f : A -> M B) (l : list A) : M (list B) :=
  match l with
  | [] => ret []
  | x :: l' => y ⇠ f x; ys ⇠ mapM f l'; ret (y :: ys)
  end.

Fixpoint foldM {A S} (f : S -> A -> M S) (s : S) (l : list A) : M S :=
  match l with
  | [] => ret s
  | x :: l' => s' ⇠ f s x; foldM f s' l'
  end.

(** A [for] loop whose body only checks or raises. *)
Definition forM {A} (f : A -> M unit) (l : list A) : M unit :=
  foldM (fun _ x => f x) tt l.

(** [any(p(x) for x in l)], which stops at the first hit. *)
Fixpoint anyM {A} (p : A -> M bool) (l : list A) : M bool :=
  match l with
  | [] => ret false
  | x :: l' => b ⇠ p x; if b : bool then ret true else anyM p l'
  end.

(** Python numbers, as the arguments [B] and [T] may be given. *)
Inductive pynum :=
| PyBool (b : bool)
| PyInt (z : Z)
| PyFloat (q : Q)
| PyInfinite
| PyNaN
| PyNotNumber.

Definition float_overflow : Z := 2 ^ 1024 - 2 ^ 970.

(** [_duration_seconds] *)
Definition _duration_seconds (value : pynum) : outcome Q :=
  match value with
  | PyInt z =>
      if (float_overflow <=? Z.abs z) then Raise OverflowError
      else if (z <=? 0) then Raise (ValueError "T must be a finite positive duration in seconds")
      else Ok (inject_Z z)
  | PyFloat q =>
      if Qle_bool q 0 then Raise (ValueError "T must be a finite positive duration in seconds")
      else Ok q
  | _ => Raise (ValueError "T must be a finite positive duration in seconds")
  end.

(** [CanonicalizationBudget.start]: the first reading of the clock. *)
Definition start (B T : pynum) (c : clock) : outcome CanonicalizationBudget :=
  match B with
  | PyInt b =>
      if (b <=? 0) then Raise (ValueError "B must be a positive integer search-state limit")
      else obind (_duration_seconds T) (fun d => Ok (mkBudget b d (c O) 0 1))
  | _ => Raise (ValueError "B must be a positive integer search-state limit")
  end.

Definition tick (b : CanonicalizationBudget) : CanonicalizationBudget :=
  mkBudget (state_limit b) (duration b) (started_at b) (search_states b) (S (clock_reads b)).

(** [CanonicalizationBudget.check] *)
Definition check : M unit := fun c b =>
  if Qle_bool (duration b) (c (clock_reads b) - started_at b)
  then (Raise CanonicalizationDeadlineExceeded, tick b)
  else (Ok tt, tick b).

(** [CanonicalizationBudget.enter_state] *)
Definition enter_state : M unit :=
  check ;;;
  fun _ b =>
    if (search_states b =? state_limit b) then (Raise BudgetExhausted, b)
    else (Ok tt, mkBudget (state_limit b) (duration b) (started_at b)
                          (search_states b + 1) (clock_reads b)).

(** [CanonicalizationBudget.elapsed_ms] *)
Definition elapsed_ms : M Q := fun c b =>
  (Ok ((c (clock_reads b) - started_at b) * 1000)%Q, tick b).

(** [budget.search_states], read for the result. *)
Definition get_search_states : M Z := fun _ b => (Ok (search_states b), b).

(** ** Executions up to the deadline *)

Definition executes {A} (m : M A) (L n : Z) (r : outcome A) (n' : Z) : Prop :=
  forall c b, state_limit b = L -> search_states b = n ->
    fst (m c b) = Raise CanonicalizationDeadlineExceeded \/
    (fst (m c b) = r /\ state_limit (snd (m c b)) = L /\ search_states (snd (m c b)) = n').

(** [m] leaves the counter alone and has the outcome [r]. *)
Definition yields {A} (m : M A) (r : outcome A) : Prop := forall L n, executes m L n r n.

Section executes_rules.
Context {A B : Type}.
Implicit Types (m : M A) (L n : Z).

Lemma ex_ret (a : A) L n : executes (ret a) L n (Ok a) n.
Proof. intros c b ??. by right. Qed.

Lemma ex_raise e L n : executes (@raise A e) L n (Raise e) n.
Proof. intros c b ??. by right. Qed.

Lemma ex_bind m (f : A -> M B) L n n1 a r n' :
  executes m L n (Ok a) n1 -> executes (f a) L n1 r n' -> executes (bind m f) L n r n'.
Proof.
  intros Hm Hf c b HL Hn. unfold bind. specialize (Hm c b HL Hn).
  destruct (m c b) as [[a'|e] b'] eqn:E; cbn in Hm.
  - destruct Hm as [?|([= ->] & HL' & Hn')]; [done|]. by apply Hf.
  - destruct Hm as [[= ->]|(? & ?)]; [by left|done].
Qed.

Lemma ex_bind_raise m (f : A -> M B) L n e n' :
  executes m L n (Raise e) n' -> executes (bind m f) L n (Raise e) n'.
Proof.
  intros Hm c b HL Hn. unfold bind. specialize (Hm c b HL Hn).
  destruct (m c b) as [[a'|e'] b'] eqn:E; cbn in Hm; [by destruct Hm as [?|[? _]]|].
  destruct Hm as [[= ->]|([= ->] & ? & ?)]; [by left|by right].
Qed.

Lemma ex_except_ok m h L n a n' :
  executes m L n (Ok a) n' -> executes (except_exhausted m h) L n (Ok a) n'.
Proof.
  intros Hm c b HL Hn. unfold except_exhausted. specialize (Hm c b HL Hn).
  destruct (m c b) as [[a'|e] b'] eqn:E; cbn in Hm.
  - destruct Hm as [?|(? & ? & ?)]; [done|by right].
  - destruct Hm as [[= ->]|(? & ?)]; [by left|done].
Qed.

Lemma ex_except_exhausted m h L n n1 r n' :
  executes m L n (Raise BudgetExhausted) n1 -> executes h L n1 r n' ->
  executes (except_exhausted m h) L n r n'.
Proof.
  intros Hm Hh c b HL Hn. unfold except_exhausted. specialize (Hm c b HL Hn).
  destruct (m c b) as [[a'|e] b'] eqn:E; cbn in Hm; [by destruct Hm as [?|[? _]]|].
  destruct Hm as [[= ->]|([= ->] & ? & ?)]; [by left|by apply Hh].
Qed.
End executes_rules.

Lemma ex_check L n : executes check L n (Ok tt) n.
Proof.
  intros c b HL Hn. unfold check. destruct (Qle_bool _ _); [by left|right; by cbn].
Qed.

Lemma ex_enter_ok L n : n <> L -> executes enter_state L n (Ok tt) (n + 1).
Proof.
  intros Hne. eapply ex_bind; [apply ex_check|]. intros c b HL Hn. right; cbn.
  destruct (Z.eqb_spec (search_states b) (state_limit b)); [lia|]. cbn. auto with lia.
Qed.

Lemma ex_enter_exhausted L : executes enter_state L L (Raise BudgetExhausted) L.
Proof.
  eapply ex_bind; [apply ex_check|]. intros c b HL Hn. right; cbn.
  rewrite HL, Hn, Z.eqb_refl. done.
Qed.

Lemma ex_get_search_states L n : executes get_search_states L n (Ok n) n.
Proof. intros c b ? <-. by right. Qed.

Lemma yields_ret {A} (a : A) : yields (ret a) (Ok a).
Proof. intros L n. apply ex_ret. Qed.
Lemma yields_check : yields check (Ok tt).
Proof. intros L n. apply ex_check. Qed.
Lemma yields_bind {A B} (m : M A) (f : A -> M B) a r :
  yields m (Ok a) -> yields (f a) r -> yields (bind m f) r.
Proof. intros Hm Hf L n. eapply ex_bind; [apply Hm|apply Hf]. Qed.
Lemma yields_lift {A} (a : A) : yields (lift (Ok a)) (Ok a).
Proof. intros L n. apply ex_ret. Qed.

Lemma yields_mapM {A B} (f : A -> M B) (g : A -> B) l :
  (forall x, x ∈ l -> yields (f x) (Ok (g x))) -> yields (mapM f l) (Ok (map g l)).
Proof.
  induction l as [|x l IH]; intros H; cbn; [apply yields_ret|].
  eapply yields_bind; [apply H; left|].
  eapply yields_bind; [apply IH; intros; apply H; by right|]. apply yields_ret.
Qed.

Lemma yields_foldM {A S} (f : S -> A -> M S) (g : S -> A -> S) l :
  (forall s x, x ∈ l -> yields (f s x) (Ok (g s x))) ->
  forall s, yields (foldM f s l) (Ok (fold_left g l s)).
Proof.
  induction l as [|x l IH]; intros H s; cbn; [apply yields_ret|].
  eapply yields_bind; [apply H; left|]. apply IH. intros; apply H; by right.
Qed.

Lemma yields_forM {A} (f : A -> M unit) l :
  (forall x, x ∈ l -> yields (f x) (Ok tt)) -> yields (forM f l) (Ok tt).
Proof.
  intros H. unfold forM.
  replace (Ok tt) with (Ok (fold_left (fun _ _ => tt) l tt)) by (f_equal; by destruct (fold_left _ _ _)).
  apply yields_foldM. auto.
Qed.

Lemma yields_anyM {A} (p : A -> M bool) (q : A -> bool) l :
  (forall x, x ∈ l -> yields (p x) (Ok (q x))) -> yields (anyM p l) (Ok (existsb q l)).
Proof.
  induction l as [|x l IH]; intros H; cbn; [apply yields_ret|].
  eapply yields_bind; [apply H; left|]. destruct (q x); cbn; [apply yields_ret|].
  apply IH. intros; apply H; by right.
Qed.

#[export] Hint Resolve yields_ret yields_check yields_lift : scanipy.

Ltac yields_step := eapply yields_bind; [solve [eauto with scanipy]|].
Ltac yields_auto := repeat (cbn beta; yields_step); eauto with scanipy.

(** ** Clocks that never reach the deadline *)

Definition never_expires (c : clock) (b : CanonicalizationBudget) : Prop :=
  forall i, Qle_bool (duration b) (c i - started_at b) = false.

(** [m] raises the deadline only when a clock reading asks for it. *)
Definition timely {A} (m : M A) : Prop := forall c b, never_expires c b ->
  fst (m c b) <> Raise CanonicalizationDeadlineExceeded /\ never_expires c (snd (m c b)).

Lemma timely_ret {A} (a : A) : timely (ret a).
Proof. by intros c b. Qed.
Lemma timely_raise {A} e : e <> CanonicalizationDeadlineExceeded -> timely (@raise A e).
Proof. intros He c b Hb. cbn. split; [congruence|done]. Qed.
Lemma timely_bind {A B} (m : M A) (f : A -> M B) :
  timely m -> (forall a, timely (f a)) -> timely (bind m f).
Proof.
  intros Hm Hf c b Hb. unfold bind. specialize (Hm c b Hb).
  destruct (m c b) as [[a|e] b']; cbn in *; [apply Hf, Hm|].
  destruct Hm as [Hm ?]. split; [congruence|done].
Qed.
Lemma timely_except {A} (m h : M A) : timely m -> timely h -> timely (except_exhausted m h).
Proof.
  intros Hm Hh c b Hb. unfold except_exhausted. specialize (Hm c b Hb).
  destruct (m c b) as [[a|e] b']; cbn in *; [done|]. destruct e; try exact Hm. apply Hh, Hm.
Qed.
Lemma timely_check : timely check.
Proof.
  intros c b Hb. unfold check. rewrite Hb. split; [done|]. exact Hb.
Qed.
Lemma timely_enter_state : timely enter_state.
Proof.
  apply timely_bind; [apply timely_check|]. intros _ c b Hb.
  destruct (_ =? _); cbn; (split; [done|exact Hb]).
Qed.
Lemma timely_elapsed_ms : timely elapsed_ms.
Proof. intros c b Hb. split; [done|exact Hb]. Qed.
Lemma timely_get_search_states : timely get_search_states.
Proof. by intros c b Hb. Qed.
#[export] Hint Resolve timely_ret timely_raise timely_check timely_enter_state
  timely_elapsed_ms timely_get_search_states timely_bind timely_except : scanipy.

Lemma timely_mapM {A B} (f : A -> M B) l : (forall x, timely (f x)) -> timely (mapM f l).
Proof. intros Hf. induction l; cbn; auto with scanipy. Qed.
Lemma timely_foldM {A S} (f : S -> A -> M S) l : (forall s x, timely (f s x)) ->
  forall s, timely (foldM f s l).
Proof. intros Hf. induction l; intros s; cbn; auto with scanipy. Qed.
Lemma timely_anyM {A} (f : A -> M bool) l : (forall x, timely (f x)) -> timely (anyM f l).
Proof.
  intros Hf. induction l; cbn; auto with scanipy.
  apply timely_bind; [done|]. intros []; auto with scanipy.
Qed.
#[export] Hint Resolve timely_mapM timely_foldM timely_anyM : scanipy.

(** Walk through monadic code, splitting its tests. *)
Ltac timely_auto :=
  repeat (cbv zeta; first
    [ progress intros
    | apply timely_check | apply timely_enter_state
    | apply timely_bind | apply timely_mapM | apply timely_foldM | apply timely_anyM
    | apply timely_except
    | solve [eauto with scanipy | apply timely_raise; discriminate]
    | case_match ]).
