(* ===== verification/Cpg.v ===== *)
(** * The code property graph and its versioned encoding ([analysis/ordering.py])

    [CPG], [validate_cpg] and [encode_graph]: the framed byte encoding that the
    canonical identities hash.  The abstract graph [agraph] (ids, label bytes,
    typed edges) is the reference the encoder refines. *)
From stdpp Require Import base tactics list gmap strings.
From Stdlib Require Import ZArith Lia.
From S2P Require Import Prelude PyData Budget.

Open Scope Z_scope.
Open Scope budget_scope.

(** ** Data *)

Record CPGNode := mkNode {
  node_id : Z;
  kind : pystr;
  operator_or_literal : pystr;
  resolved_fqn : pystr;
  enclosing_decl_fqn : pystr;
  structural_path : pystr
}.

Record CPGEdge := mkEdge { src : Z; dst : Z; edge_kind : pystr }.

Record CPG := mkCPG { nodes : list CPGNode; edges : list CPGEdge }.

#[export] Instance CPGNode_eq_dec : EqDecision CPGNode.
Proof. solve_decision. Defined.
#[export] Instance CPGEdge_eq_dec : EqDecision CPGEdge.
Proof. solve_decision. Defined.

Definition empty_cpg : CPG := mkCPG [] [].

(** [CPG.add_node]: the id is the current number of nodes. *)
Definition add_node (g : CPG) (k op fqn encl path : pystr) : CPG * Z :=
  let nid := Z.of_nat (length (nodes g)) in
  (mkCPG (nodes g ++ [mkNode nid k op fqn encl path]) (edges g), nid).

(** [CPG.add_edge] *)
Definition add_edge (g : CPG) (s d : Z) (k : pystr) : CPG :=
  mkCPG (nodes g) (edges g ++ [mkEdge s d k]).

(** ** Encoding primitives *)

Definition u64_bytes (v : Z) : pybytes := to_bytes 8 v.

#[global] Arguments u64_bytes : simpl never.

(** [_u64] *)
Definition _u64 (value : Z) : M pybytes :=
  if (0 <=? value) && (value <? 2 ^ 64) then ret (u64_bytes value)
  else raise (ValueError "graph integer must be unsigned 64-bit").

(** [value.encode("utf-8", errors="strict")] *)
Definition py_encode (s : pystr) : M pybytes :=
  match utf8_encode s with
  | Some bs => ret bs
  | None => raise UnicodeEncodeError
  end.

Definition len {A} (l : list A) : Z := Z.of_nat (length l).

(** [_text] *)
Definition _text (value : pystr) : M pybytes :=
  encoded ⇠ py_encode value;
  n ⇠ _u64 (len encoded);
  ret (n ++ encoded).

(** [_label] *)
Definition _label (node : CPGNode) : M pybytes :=
  parts ⇠ mapM _text [kind node; operator_or_literal node; resolved_fqn node;
                      enclosing_decl_fqn node];
  ret (concat parts).

(** [if budget: budget.check()] *)
Definition check_if (budgeted : bool) : M unit := if budgeted then check else ret tt.

(** [validate_cpg]: the tests on the instance fields of the dataclasses hold of
    every value of the record types and are not repeated. *)
Definition validate_node (budgeted : bool) (seen : gset Z) (node : CPGNode) : M (gset Z) :=
  check_if budgeted ;;;
  _u64 (node_id node) ;;;
  (if decide (node_id node ∈ seen) then raise (ValueError "duplicate CPG node ID") else
   _label node ;;;
   _text (structural_path node) ;;;
   ret ({[node_id node]} ∪ seen)).

Definition validate_edge (budgeted : bool) (seen : gset Z) (edge : CPGEdge) : M unit :=
  check_if budgeted ;;;
  _u64 (src edge) ;;;
  _u64 (dst edge) ;;;
  (if decide (src edge ∈ seen /\ dst edge ∈ seen) then
     match edge_kind edge with
     | [] => raise (ValueError "CPG edge kind must be nonempty")
     | _ => _text (edge_kind edge) ;;; ret tt
     end
   else raise (ValueError "CPG edge references a missing node")).

Definition validate_cpg (budgeted : bool) (g : CPG) : M unit :=
  seen ⇠ foldM (validate_node budgeted) ∅ (nodes g);
  forM (validate_edge budgeted seen) (edges g).

(** Position of a node in an order: [{node: i for i, node in enumerate(order)}]. *)
Definition rank (order : list Z) (n : Z) : Z := Z.of_nat (default O (index_of n order)).

Definition ids (g : CPG) : list Z := map node_id (nodes g).

(** [{node.node_id: node for node in cpg.nodes}] *)
Definition by_id (g : CPG) : gmap Z CPGNode :=
  list_to_map (map (fun n => (node_id n, n)) (nodes g)).

(** The tuples [(kind, src, dst)], in Python's tuple order. *)
Definition edge_leb : pybytes * Z * Z -> pybytes * Z * Z -> bool :=
  pair_leb (pair_leb bytes_leb Z.leb) Z.leb.

#[export] Instance edge_leb_total : TotalLe edge_leb := pair_leb_total (pair_leb bytes_leb Z.leb) Z.leb _ _.
#[export] Instance edge_leb_anti : AntiLe edge_leb := pair_leb_anti (pair_leb bytes_leb Z.leb) Z.leb _ _.

Definition graph_magic : pybytes := str "SCANIPY-CANONICAL-GRAPH/2" ++ [10].

Definition encode_node_at (budgeted : bool) (m : gmap Z CPGNode) (n : Z) : M pybytes :=
  check_if budgeted ;;;
  match m !! n with
  | Some node => _label node
  | None => raise KeyError
  end.

Definition encode_edge (budgeted : bool) (e : pybytes * Z * Z) : M pybytes :=
  check_if budgeted ;;;
  nk ⇠ _u64 (len e.1.1);
  s ⇠ _u64 e.1.2;
  d ⇠ _u64 e.2;
  ret (nk ++ e.1.1 ++ s ++ d).

(** [encode_graph] *)
Definition encode_graph (budgeted : bool) (g : CPG) (order : list Z) : M pybytes :=
  validate_cpg budgeted g ;;;
  (let m := by_id g in
   if negb (bool_decide (length order = length (map_to_list m)) &&
            bool_decide (list_to_set order =@{gset Z} dom m))
   then raise (ValueError "graph encoding requires a complete node permutation")
   else
     n_nodes ⇠ _u64 (len order);
     labels ⇠ mapM (encode_node_at budgeted m) order;
     raw ⇠ mapM (fun e => k ⇠ py_encode (edge_kind e);
                          ret (k, rank order (src e), rank order (dst e))) (edges g);
     let es := py_sorted edge_leb raw in
     n_edges ⇠ _u64 (len es);
     parts ⇠ mapM (encode_edge budgeted) es;
     check_if budgeted ;;;
     ret (graph_magic ++ n_nodes ++ concat labels ++ n_edges ++ concat parts)).
