(* ===== verification/GraphSpec.v ===== *)
(** * Abstract graphs, isomorphism, and correctness of [encode_graph]

    [agraph] forgets what the canonical encoding must not depend on: the order
    of the node and edge lists and the structural paths.  [aiso] is
    isomorphism under a renaming of ids.  The theorems: [validate_cpg] accepts
    exactly the valid graphs; on a valid graph [encode_graph] computes the pure
    encoding [aencode]; equal encodings are equivalent to isomorphism. *)
From stdpp Require Import base tactics list gmap strings.
From Stdlib Require Import ZArith Lia.
From S2P Require Import Prelude PyData Budget Cpg.

Open Scope Z_scope.
Open Scope budget_scope.

(** ** Pure counterparts *)

Definition enc (s : pystr) : pybytes := default [] (utf8_encode s).

(** A text that [_text] accepts. *)
Definition text_ok (s : pystr) : Prop :=
  exists bs, utf8_encode s = Some bs /\ len bs < 2 ^ 64.

Definition ptext (s : pystr) : pybytes := u64_bytes (len (enc s)) ++ enc s.

Definition label_texts (n : CPGNode) : list pystr :=
  [kind n; operator_or_literal n; resolved_fqn n; enclosing_decl_fqn n].

Definition plabel (n : CPGNode) : pybytes := concat (map ptext (label_texts n)).

#[global] Arguments plabel : simpl never.

Definition u64_ok (v : Z) : Prop := 0 <= v < 2 ^ 64.

Record valid_node (n : CPGNode) : Prop := {
  vn_id : u64_ok (node_id n);
  vn_texts : Forall text_ok (label_texts n);
  vn_path : text_ok (structural_path n)
}.

Record valid_edge (I : list Z) (e : CPGEdge) : Prop := {
  ve_src : src e ∈ I;
  ve_dst : dst e ∈ I;
  ve_kind : edge_kind e <> [];
  ve_text : text_ok (edge_kind e)
}.

(** What [validate_cpg] accepts. *)
Record valid_cpg (g : CPG) : Prop := {
  vc_nodup : NoDup (ids g);
  vc_nodes : Forall valid_node (nodes g);
  vc_edges : Forall (valid_edge (ids g)) (edges g)
}.

(** Sizes that a 64-bit length field can carry (CPython's [len] is smaller). *)
Definition sized (g : CPG) : Prop :=
  len (nodes g) < 2 ^ 64 /\ len (edges g) < 2 ^ 64.

Lemma enc_text_ok s : text_ok s -> utf8_encode s = Some (enc s) /\ len (enc s) < 2 ^ 64.
Proof. intros (bs & H & Hl). unfold enc. by rewrite H. Qed.

Lemma len_nonneg {A} (l : list A) : 0 <= len l.
Proof. unfold len. lia. Qed.

Lemma len_app {A} (l k : list A) : len (l ++ k) = len l + len k.
Proof. unfold len. rewrite length_app. lia. Qed.

Lemma yields_u64 v : u64_ok v -> yields (_u64 v) (Ok (u64_bytes v)).
Proof.
  intros Hv. unfold _u64, u64_ok in *.
  destruct (_ && _) eqn:E; [apply yields_ret|]. lia.
Qed.

Lemma yields_encode s : text_ok s -> yields (py_encode s) (Ok (enc s)).
Proof. intros [H _]%enc_text_ok. unfold py_encode. rewrite H. apply yields_ret. Qed.
#[export] Hint Resolve yields_encode : scanipy.

Lemma yields_text s : text_ok s -> yields (_text s) (Ok (ptext s)).
Proof.
  intros Hs. unfold _text. yields_step.
  eapply yields_bind; [apply yields_u64; split; [apply len_nonneg|by apply enc_text_ok]|].
  apply yields_ret.
Qed.
#[export] Hint Resolve yields_text : scanipy.

Lemma yields_label n : Forall text_ok (label_texts n) -> yields (_label n) (Ok (plabel n)).
Proof.
  intros Hn. unfold _label. eapply yields_bind.
  - apply (yields_mapM _ ptext). intros s Hs. apply yields_text.
    rewrite Forall_forall in Hn. by apply Hn.
  - apply yields_ret.
Qed.

Lemma yields_check_if b : yields (check_if b) (Ok tt).
Proof. destruct b; cbn; auto with scanipy. Qed.
#[export] Hint Resolve yields_check_if yields_u64 : scanipy.

(** ** [validate_cpg] decides [valid_cpg] *)

Lemma yields_validate_node b seen n :
  valid_node n -> node_id n ∉ seen ->
  yields (validate_node b seen n) (Ok ({[node_id n]} ∪ seen)).
Proof.
  intros [H1 H2 H3] Hn. unfold validate_node. yields_step. yields_step.
  rewrite decide_False by done.
  eapply yields_bind; [by apply yields_label|]. yields_step. apply yields_ret.
Qed.

Lemma yields_validate_nodes b ns : forall seen,
  Forall valid_node ns -> NoDup (map node_id ns) ->
  (forall n, n ∈ map node_id ns -> n ∉ seen) ->
  yields (foldM (validate_node b) seen ns) (Ok (list_to_set (map node_id ns) ∪ seen)).
Proof.
  induction ns as [|n ns IH]; intros seen Hv Hnd Hd; cbn.
  { replace (∅ ∪ seen) with seen by set_solver. apply yields_ret. }
  apply Forall_cons in Hv as [Hn Hv]. apply NoDup_cons in Hnd as [Hni Hnd].
  eapply yields_bind; [apply yields_validate_node; [done|apply Hd; left]|].
  replace ({[node_id n]} ∪ list_to_set (map node_id ns) ∪ seen)
    with (list_to_set (map node_id ns) ∪ ({[node_id n]} ∪ seen)) by set_solver.
  apply IH; [done..|]. intros m Hm. apply not_elem_of_union. split.
  - apply not_elem_of_singleton. by intros ->.
  - apply Hd. by right.
Qed.

Lemma yields_validate_edge b I seen e :
  (forall n, n ∈ I -> n ∈ seen /\ u64_ok n) -> valid_edge I e ->
  yields (validate_edge b seen e) (Ok tt).
Proof.
  intros HI [Hs Hd Hk Ht]. apply HI in Hs as [Hs Hsu]. apply HI in Hd as [Hd Hdu].
  unfold validate_edge. do 3 yields_step. rewrite decide_True by done.
  destruct (edge_kind e) eqn:E; [done|]. rewrite <-E in *. yields_step. apply yields_ret.
Qed.

Lemma valid_ids_u64 g n : valid_cpg g -> n ∈ ids g -> u64_ok n.
Proof.
  intros [_ Hn _] (nd & -> & Hin)%list_elem_of_fmap. rewrite Forall_forall in Hn. by apply Hn.
Qed.

Lemma yields_validate b g : valid_cpg g -> yields (validate_cpg b g) (Ok tt).
Proof.
  intros Hg. pose proof Hg as [Hnd Hn He]. unfold validate_cpg.
  eapply yields_bind; [apply yields_validate_nodes; [done..|set_solver]|].
  apply yields_forM. intros e Hin. rewrite Forall_forall in He.
  eapply yields_validate_edge; [|by apply He].
  intros n Hi. split; [set_solver|]. by eapply valid_ids_u64.
Qed.

(** Inversion of a run that ended normally. *)
Lemma bind_Ok {A B} (m : M A) (f : A -> M B) c b v b2 :
  bind m f c b = (Ok v, b2) -> exists a b1, m c b = (Ok a, b1) /\ f a c b1 = (Ok v, b2).
Proof. unfold bind. destruct (m c b) as [[a|e] b1]; [eauto|done]. Qed.

Ltac bind_inv :=
  repeat match goal with
  | H : bind _ _ _ _ = (Ok _, _) |- _ =>
      let a := fresh "a" in let b1 := fresh "b" in let H1 := fresh "Hrun" in
      apply bind_Ok in H as (a & b1 & H1 & H)
  | H : raise _ _ _ = (Ok _, _) |- _ => done
  | H : ret _ _ _ = (Ok _, _) |- _ => injection H as ? ?; subst
  end.

Lemma u64_Ok v c b r b' : _u64 v c b = (Ok r, b') -> u64_ok v /\ r = u64_bytes v.
Proof. unfold _u64, u64_ok. destruct (_ && _) eqn:E; [|done]. intros [= <- _]. split; [lia|done]. Qed.

Lemma text_Ok s c b r b' : _text s c b = (Ok r, b') -> text_ok s.
Proof.
  unfold _text, py_encode. intros H. bind_inv.
  destruct (utf8_encode s) as [bs|] eqn:E; [|done]. injection Hrun as <- <-.
  apply u64_Ok in Hrun0 as [Hu _]. exists bs. split; [done|apply Hu].
Qed.

Lemma mapM_Ok {A B} (f : A -> M B) l c : forall b r b',
  mapM f l c b = (Ok r, b') -> Forall (fun x => exists b1 y b2, f x c b1 = (Ok y, b2)) l.
Proof.
  induction l as [|x l IH]; intros b r b' H; [constructor|]. cbn in H. bind_inv.
  constructor; eauto.
Qed.

Lemma mapM_length {A B} (f : A -> M B) l c : forall b r b',
  mapM f l c b = (Ok r, b') -> length r = length l.
Proof.
  induction l as [|x l IH]; intros b r b' H; cbn in H; bind_inv; [done|].
  cbn. f_equal. by eapply IH.
Qed.

Lemma label_Ok n c b r b' : _label n c b = (Ok r, b') -> Forall text_ok (label_texts n).
Proof.
  unfold _label. intros H. bind_inv. apply mapM_Ok in Hrun.
  eapply Forall_impl; [exact Hrun|]. intros s (? & ? & ? & Hs). by eapply text_Ok.
Qed.

Lemma validate_node_Ok k seen n c b r b' :
  validate_node k seen n c b = (Ok r, b') ->
  valid_node n /\ node_id n ∉ seen /\ r = {[node_id n]} ∪ seen.
Proof.
  unfold validate_node. intros H. bind_inv. destruct (decide _); [done|]. bind_inv.
  apply u64_Ok in Hrun0 as [? _]. apply label_Ok in Hrun1. apply text_Ok in Hrun2. done.
Qed.

Lemma validate_nodes_Ok k ns c : forall seen b r b',
  foldM (validate_node k) seen ns c b = (Ok r, b') ->
  Forall valid_node ns /\ NoDup (map node_id ns) /\
  (forall n, n ∈ map node_id ns -> n ∉ seen) /\ r = list_to_set (map node_id ns) ∪ seen.
Proof.
  induction ns as [|n ns IH]; intros seen b r b' H; cbn in H; bind_inv.
  { split_and!; [constructor..|set_solver|set_solver]. }
  apply validate_node_Ok in Hrun as (Hv & Hn & ->).
  apply IH in H as (Hvs & Hnd & Hd & ->). split_and!.
  - by constructor.
  - apply NoDup_cons. split; [|done]. intros Hin%Hd. set_solver.
  - intros m [->|Hm]%elem_of_cons; [done|]. apply Hd in Hm. set_solver.
  - set_solver.
Qed.

Lemma forM_Ok {A} (f : A -> M unit) l c : forall b r b',
  forM f l c b = (Ok r, b') -> Forall (fun x => exists b1 b2, f x c b1 = (Ok tt, b2)) l.
Proof.
  unfold forM. generalize tt at 1. induction l as [|x l IH]; intros u b r b' H; [constructor|].
  cbn in H. bind_inv. constructor; [|by eapply IH]. destruct a. eauto.
Qed.

Lemma validate_edge_Ok k seen e c b r b' :
  validate_edge k seen e c b = (Ok r, b') ->
  src e ∈ seen /\ dst e ∈ seen /\ edge_kind e <> [] /\ text_ok (edge_kind e).
Proof.
  unfold validate_edge. intros H. bind_inv. destruct (decide _) as [[? ?]|]; [|done].
  destruct (edge_kind e) eqn:E; [done|]. rewrite <-E in *. bind_inv.
  apply text_Ok in Hrun2. split_and!; try done. by rewrite E.
Qed.

Lemma validate_Ok k g c b r b' : validate_cpg k g c b = (Ok r, b') -> valid_cpg g.
Proof.
  unfold validate_cpg. intros H. bind_inv.
  apply validate_nodes_Ok in Hrun as (Hv & Hnd & _ & ->). split; [done..|].
  apply forM_Ok in H. eapply Forall_impl; [exact H|].
  intros e (b1 & b2 & (Hs & Hd & Hk & Ht)%validate_edge_Ok). split; set_solver.
Qed.

(** ** Abstract graphs and the pure encoding *)

Record agraph := mkAGraph {
  aids : list Z;
  alab : Z -> pybytes;
  aedges : list (pybytes * Z * Z)
}.

Definition edge_bytes (e : CPGEdge) : pybytes * Z * Z := (enc (edge_kind e), src e, dst e).

Definition abs (g : CPG) : agraph :=
  mkAGraph (ids g)
    (fun n => match by_id g !! n with Some nd => plabel nd | None => [] end)
    (map edge_bytes (edges g)).

Definition erank (order : list Z) (e : pybytes * Z * Z) : pybytes * Z * Z :=
  (e.1.1, rank order e.1.2, rank order e.2).

Definition pedge (e : pybytes * Z * Z) : pybytes :=
  u64_bytes (len e.1.1) ++ e.1.1 ++ u64_bytes e.1.2 ++ u64_bytes e.2.

Definition aencode (a : agraph) (order : list Z) : pybytes :=
  graph_magic ++ u64_bytes (len order) ++ concat (map (alab a) order) ++
  u64_bytes (len (aedges a)) ++
  concat (map pedge (py_sorted edge_leb (map (erank order) (aedges a)))).

#[global] Arguments pedge : simpl never.
#[global] Arguments aencode : simpl never.

Lemma by_id_lookup g nd : NoDup (ids g) -> nd ∈ nodes g -> by_id g !! node_id nd = Some nd.
Proof.
  intros Hnd Hin. apply elem_of_list_to_map_1.
  - rewrite <-list_fmap_compose. exact Hnd.
  - apply list_elem_of_fmap. eauto.
Qed.

Lemma by_id_dom g : dom (by_id g) = list_to_set (C := gset Z) (ids g).
Proof.
  unfold by_id, ids. rewrite dom_list_to_map_L. f_equal.
  rewrite <-list_fmap_compose. done.
Qed.

Lemma by_id_Some g n : n ∈ ids g -> exists nd, nd ∈ nodes g /\ node_id nd = n /\ by_id g !! n = Some nd.
Proof.
  intros Hn. assert (Hd : n ∈ dom (by_id g)) by (rewrite by_id_dom; set_solver).
  apply elem_of_dom in Hd as [nd Hnd]. exists nd.
  pose proof (elem_of_list_to_map_2 _ _ _ Hnd) as (nd' & [= -> ->] & Hin)%list_elem_of_fmap.
  auto.
Qed.

Lemma by_id_size g : NoDup (ids g) -> length (map_to_list (by_id g)) = length (ids g).
Proof.
  intros Hnd. rewrite length_map_to_list. rewrite <-(size_dom (D := gset Z)), by_id_dom.
  by rewrite size_list_to_set.
Qed.

Lemma abs_alab g nd : NoDup (ids g) -> nd ∈ nodes g -> alab (abs g) (node_id nd) = plabel nd.
Proof. intros Hnd Hin. cbn. by rewrite by_id_lookup. Qed.

Lemma rank_bound order n : n ∈ order -> 0 <= rank order n < len order.
Proof.
  intros [i Hi]%index_of_elem. unfold rank, len. rewrite Hi. apply index_of_lt in Hi. cbn. lia.
Qed.

(** Well-formedness that every valid graph's abstraction has. *)
Record awf (a : agraph) : Prop := {
  awf_nodup : NoDup (aids a);
  awf_ends : Forall (fun e => e.1.2 ∈ aids a /\ e.2 ∈ aids a) (aedges a);
  awf_kinds : Forall (fun e => len e.1.1 < 2 ^ 64) (aedges a);
  awf_nodes_sized : len (aids a) < 2 ^ 64;
  awf_edges_sized : len (aedges a) < 2 ^ 64
}.

Lemma abs_wf g : valid_cpg g -> sized g -> awf (abs g).
Proof.
  intros [Hnd Hn He] [Hs1 Hs2]. unfold len in *. split; cbn -[Z.pow].
  - done.
  - apply Forall_map. eapply Forall_impl; [exact He|]. by intros e [? ? _ _].
  - apply Forall_map. eapply Forall_impl; [exact He|]. intros e [_ _ _ Ht]. by apply enc_text_ok.
  - unfold len, ids. by rewrite length_map.
  - unfold len. by rewrite length_map.
Qed.

Lemma yields_encode_edge b e :
  len e.1.1 < 2 ^ 64 -> u64_ok e.1.2 -> u64_ok e.2 -> yields (encode_edge b e) (Ok (pedge e)).
Proof.
  intros Hk Hs Hd. unfold encode_edge. yields_step.
  eapply yields_bind; [apply yields_u64; split; [apply len_nonneg|done]|].
  do 2 yields_step. apply yields_ret.
Qed.

Lemma sorted_ranks_ok a order e :
  awf a -> aids a ≡ₚ order ->
  e ∈ py_sorted edge_leb (map (erank order) (aedges a)) ->
  len e.1.1 < 2 ^ 64 /\ u64_ok e.1.2 /\ u64_ok e.2.
Proof.
  intros [_ He Hk Hs _] Hp (e0 & -> & Hin)%py_sorted_elem%list_elem_of_fmap.
  rewrite Forall_forall in He, Hk. destruct (He _ Hin) as [H1 H2]. rewrite Hp in H1, H2.
  assert (len order = len (aids a)) by (unfold len; by rewrite Hp).
  pose proof (rank_bound _ _ H1). pose proof (rank_bound _ _ H2).
  split; [exact (Hk _ Hin)|]. unfold u64_ok; cbn -[Z.pow]. lia.
Qed.

(** On a valid graph and a complete order the encoder computes [aencode]. *)
Lemma yields_encode_graph b g order :
  valid_cpg g -> sized g -> ids g ≡ₚ order ->
  yields (encode_graph b g order) (Ok (aencode (abs g) order)).
Proof.
  intros Hg Hsz Hp. pose proof (abs_wf g Hg Hsz) as Hwf. destruct Hsz as [Hs1 Hs2].
  unfold encode_graph. eapply yields_bind; [by apply yields_validate|]. cbv zeta.
  rewrite by_id_size, by_id_dom by apply Hg.
  rewrite !bool_decide_eq_true_2; [|by rewrite Hp..]. cbn [negb andb].
  assert (Hlen : len order = len (nodes g)).
  { unfold len. rewrite <-Hp. unfold ids. by rewrite length_map. }
  eapply yields_bind; [apply yields_u64; split; [apply len_nonneg|lia]|].
  eapply yields_bind.
  { apply (yields_mapM _ (alab (abs g))). intros n Hn. rewrite <-Hp in Hn.
    unfold encode_node_at. yields_step. cbn.
    destruct (by_id_Some g n Hn) as (nd & Hin & <- & ->). apply yields_label.
    destruct Hg as [_ Hv _]. rewrite Forall_forall in Hv. by apply Hv. }
  eapply yields_bind.
  { apply (yields_mapM _ (fun e => erank order (edge_bytes e))). intros e He.
    destruct Hg as [_ _ Hv]. rewrite Forall_forall in Hv. destruct (Hv e He) as [_ _ _ Ht].
    yields_step. apply yields_ret. }
  cbv zeta. rewrite <-(map_map edge_bytes (erank order)).
  change (map edge_bytes (edges g)) with (aedges (abs g)).
  set (es := py_sorted _ _).
  assert (Hes : len es = len (aedges (abs g))).
  { unfold es, len. by rewrite length_py_sorted, length_map. }
  eapply yields_bind; [apply yields_u64; split; [apply len_nonneg|]|].
  { rewrite Hes. apply Hwf || (destruct Hwf; lia). }
  eapply yields_bind.
  { apply (yields_mapM _ pedge). intros e He. destruct (sorted_ranks_ok _ _ _ Hwf Hp He) as (? & ? & ?).
    by apply yields_encode_edge. }
  yields_step. rewrite Hes. apply yields_ret.
Qed.

(** ** Isomorphism *)

Definition erename (p : Z -> Z) (e : pybytes * Z * Z) : pybytes * Z * Z :=
  (e.1.1, p e.1.2, p e.2).

Definition inj_on (p : Z -> Z) (l : list Z) : Prop :=
  forall x y, x ∈ l -> y ∈ l -> p x = p y -> x = y.

Record aiso (p : Z -> Z) (a b : agraph) : Prop := {
  iso_inj : inj_on p (aids a);
  iso_ids : map p (aids a) ≡ₚ aids b;
  iso_lab : forall n, n ∈ aids a -> alab b (p n) = alab a n;
  iso_edges : map (erename p) (aedges a) ≡ₚ aedges b
}.

Lemma index_of_map p l x :
  inj_on p l -> x ∈ l -> index_of (p x) (map p l) = index_of x l.
Proof.
  induction l as [|y l IH]; cbn; [done|]. intros Hi Hx.
  destruct (decide (x = y)) as [->|Hne]; [by rewrite decide_True|].
  rewrite decide_False by (intros E; apply Hne, Hi; [done|left|done]).
  apply elem_of_cons in Hx as [?|Hx]; [done|]. rewrite IH; [done| |done].
  intros u v Hu Hv. apply Hi; by right.
Qed.

Lemma inj_on_perm p l k : l ≡ₚ k -> inj_on p l -> inj_on p k.
Proof. intros Hp Hi x y Hx Hy. rewrite <-Hp in Hx, Hy. by apply Hi. Qed.

(** The encoding does not see the ids: it is invariant under isomorphism. *)
Lemma aencode_iso p a b order :
  awf a -> aiso p a b -> aids a ≡ₚ order -> aencode b (map p order) = aencode a order.
Proof.
  intros Hwf [Hi Hids Hlab He] Hp. unfold aencode. f_equal. f_equal.
  { unfold len. by rewrite length_map. }
  f_equal.
  { rewrite map_map. f_equal. apply map_ext_in. intros n Hn%list_elem_of_In.
    apply Hlab. by rewrite Hp. }
  f_equal.
  { f_equal. unfold len. by rewrite <-He, length_map. }
  do 2 f_equal. apply py_sorted_perm_eq; [apply _..|]. rewrite <-He, map_map.
  erewrite map_ext_in; [done|]. intros e Hin%list_elem_of_In.
  destruct Hwf as [_ Hends _ _ _]. rewrite Forall_forall in Hends.
  destruct (Hends e Hin) as [H1 H2]. rewrite Hp in H1, H2.
  pose proof (inj_on_perm _ _ _ Hp Hi) as Hi'.
  unfold erank, rank; cbn. by rewrite !index_of_map.
Qed.

(** ** Equal encodings come from isomorphic graphs *)

(** A self-delimiting code: the first item can be read off a byte stream. *)
Definition delimited {A} (P : A -> Prop) (f : A -> pybytes) : Prop :=
  forall x y r s, P x -> P y -> f x ++ r = f y ++ s -> x = y /\ r = s.

Lemma delimited_concat {A} (P : A -> Prop) (f : A -> pybytes) l : forall k r s,
  delimited P f -> Forall P l -> Forall P k -> length l = length k ->
  concat (map f l) ++ r = concat (map f k) ++ s -> l = k /\ r = s.
Proof.
  induction l as [|x l IH]; intros [|y k] r s Hf Hl Hk Hlen E; try done.
  apply Forall_cons in Hl as [Hx Hl]. apply Forall_cons in Hk as [Hy Hk].
  cbn in E. rewrite <-!app_assoc in E.
  destruct (Hf _ _ _ _ Hx Hy E) as [-> E'].
  destruct (IH k r s Hf Hl Hk) as [-> ->]; auto.
Qed.

Lemma u64_app_inj v w r s :
  u64_ok v -> u64_ok w -> u64_bytes v ++ r = u64_bytes w ++ s -> v = w /\ r = s.
Proof.
  intros Hv Hw E. apply app_inj_1 in E as [E ->].
  - split; [|done]. by eapply (to_bytes_inj 8).
  - unfold u64_bytes. by rewrite !length_to_bytes.
Qed.

(** A length-prefixed byte string can be read back. *)
Lemma framed_inj x y r s :
  len x < 2 ^ 64 -> len y < 2 ^ 64 ->
  u64_bytes (len x) ++ x ++ r = u64_bytes (len y) ++ y ++ s -> x = y /\ r = s.
Proof.
  intros Hx Hy E. apply u64_app_inj in E as [E1 E2]; [|split; [apply len_nonneg|done]..].
  apply app_inj_1 in E2; [done|]. unfold len in E1. lia.
Qed.

Lemma enc_inj s t : text_ok s -> text_ok t -> enc s = enc t -> s = t.
Proof.
  intros [Hs _]%enc_text_ok [Ht _]%enc_text_ok E. rewrite E in Hs. by eapply utf8_encode_inj.
Qed.

Lemma ptext_delimited : delimited text_ok ptext.
Proof.
  intros s t r r' Hs Ht E. unfold ptext in E. rewrite <-!app_assoc in E.
  apply framed_inj in E as [E ->]; [|by apply enc_text_ok..].
  split; [by apply enc_inj|done].
Qed.

Definition texts_ok (ts : list pystr) : Prop := length ts = 4%nat /\ Forall text_ok ts.

Lemma label_delimited : delimited texts_ok (fun ts => concat (map ptext ts)).
Proof.
  intros ts us r s [Hl Ht] [Hl' Hu] E.
  by eapply (delimited_concat text_ok); [apply ptext_delimited|..|lia|exact E].
Qed.

Definition edge_ok (e : pybytes * Z * Z) : Prop := len e.1.1 < 2 ^ 64 /\ u64_ok e.1.2 /\ u64_ok e.2.

Lemma pedge_delimited : delimited edge_ok pedge.
Proof.
  intros [[k a] b] [[k' a'] b'] r s (Hk & Ha & Hb) (Hk' & Ha' & Hb') E.
  unfold pedge in E; cbn in *. rewrite <-!app_assoc in E.
  apply framed_inj in E as [-> E]; [|done..].
  apply u64_app_inj in E as [-> E]; [|done..]. by apply u64_app_inj in E as [-> ->].
Qed.

(** Isomorphism of CPGs: a renaming of the ids that carries the labelled nodes
    and the typed edges (with multiplicity) of one graph to the other's;
    structural paths and list orders are ignored. *)
Definition node_key (p : Z -> Z) (n : CPGNode) : Z * list pystr := (p (node_id n), label_texts n).
Definition rename_edge (p : Z -> Z) (e : CPGEdge) : CPGEdge :=
  mkEdge (p (src e)) (p (dst e)) (edge_kind e).

Record cpg_iso (p : Z -> Z) (g h : CPG) : Prop := {
  ci_inj : inj_on p (ids g);
  ci_nodes : map (node_key p) (nodes g) ≡ₚ map (node_key id) (nodes h);
  ci_edges : map (rename_edge p) (edges g) ≡ₚ edges h
}.

Lemma cpg_iso_ids p g h : cpg_iso p g h -> map p (ids g) ≡ₚ ids h.
Proof.
  intros [_ Hn _]. apply (Permutation_map fst) in Hn. rewrite !map_map in Hn.
  unfold ids. by rewrite map_map.
Qed.

Lemma cpg_iso_abs p g h : valid_cpg g -> valid_cpg h -> cpg_iso p g h -> aiso p (abs g) (abs h).
Proof.
  intros Hg Hh Hiso. pose proof Hiso as [Hi Hn He]. split; cbn.
  - done.
  - by apply cpg_iso_ids.
  - intros n Hin. destruct (by_id_Some g n Hin) as (nd & Hnd & <- & ->).
    assert (Hk : node_key p nd ∈ map (node_key id) (nodes h)).
    { rewrite <-Hn. apply list_elem_of_fmap. eauto. }
    apply list_elem_of_fmap in Hk as (nd' & [= E1 E2] & Hnd').
    rewrite E1. unfold id. rewrite by_id_lookup by (done || apply Hh).
    unfold plabel, label_texts. by rewrite E2, H0, H1, H2.
  - rewrite <-He, !map_map. done.
Qed.

Definition texts_at (g : CPG) (n : Z) : list pystr :=
  match by_id g !! n with Some nd => label_texts nd | None => [] end.

Lemma alab_texts g n : n ∈ ids g -> alab (abs g) n = concat (map ptext (texts_at g n)).
Proof. intros Hn. cbn. unfold texts_at. by destruct (by_id_Some g n Hn) as (nd & _ & _ & ->). Qed.

Lemma texts_at_ok g n : valid_cpg g -> n ∈ ids g -> texts_ok (texts_at g n).
Proof.
  intros [_ Hv _] Hn. unfold texts_at. destruct (by_id_Some g n Hn) as (nd & Hin & _ & ->).
  rewrite Forall_forall in Hv. split; [done|by apply Hv].
Qed.

(** The nodes of a graph, read through a complete order. *)
Lemma nodes_by_order p g order :
  NoDup (ids g) -> ids g ≡ₚ order ->
  map (node_key p) (nodes g) ≡ₚ map (fun n => (p n, texts_at g n)) order.
Proof.
  intros Hnd Hp. rewrite <-Hp. unfold ids. rewrite map_map.
  erewrite map_ext_in; [done|]. intros nd Hin%list_elem_of_In. unfold texts_at, node_key.
  by rewrite by_id_lookup.
Qed.

(** Matching two orders of the same length position by position. *)
Definition matching (o1 o2 : list Z) (n : Z) : Z :=
  match index_of n o1 with Some i => default n (o2 !! i) | None => n end.

Lemma map_matching o1 o2 : NoDup o1 -> length o1 = length o2 -> map (matching o1 o2) o1 = o2.
Proof.
  intros Hnd Hlen. apply list_eq. intros i.
  change (map ?f ?l) with (f <$> l). rewrite list_lookup_fmap.
  destruct (o1 !! i) as [n|] eqn:E; cbn.
  - unfold matching. rewrite (index_of_lookup o1 i n) by done.
    assert (i < length o2)%nat by (rewrite <-Hlen; by eapply lookup_lt_Some).
    destruct (lookup_lt_is_Some_2 o2 i) as [m ->]; [done|]. done.
  - symmetry. apply lookup_ge_None. rewrite <-Hlen. by apply lookup_ge_None.
Qed.

Lemma map_NoDup_inj_on p l : NoDup (map p l) -> inj_on p l.
Proof.
  intros Hnd x y (i & Hi)%list_elem_of_lookup (j & Hj)%list_elem_of_lookup E.
  assert (i = j) as ->; [|congruence].
  eapply (NoDup_lookup (map p l)); [done|..];
    change (map ?f ?l) with (f <$> l); rewrite list_lookup_fmap; [by rewrite Hi|by rewrite Hj, E].
Qed.

Lemma rank_inj order x y : x ∈ order -> y ∈ order -> rank order x = rank order y -> x = y.
Proof.
  intros [i Hi]%index_of_elem [j Hj]%index_of_elem. unfold rank. rewrite Hi, Hj. cbn.
  intros ->%Nat2Z.inj. apply index_of_lt in Hi as [_ Hi], Hj as [_ Hj]. congruence.
Qed.

Lemma aencode_inv g h o1 o2 :
  valid_cpg g -> valid_cpg h -> sized g -> sized h -> ids g ≡ₚ o1 -> ids h ≡ₚ o2 ->
  aencode (abs g) o1 = aencode (abs h) o2 ->
  map (texts_at g) o1 = map (texts_at h) o2 /\
  map (erank o1) (aedges (abs g)) ≡ₚ map (erank o2) (aedges (abs h)).
Proof.
  intros Hg Hh Sg Sh P1 P2 E. unfold aencode in E. apply app_inv_head in E.
  pose proof (abs_wf g Hg Sg) as Wg. pose proof (abs_wf h Hh Sh) as Wh.
  assert (L1 : len o1 = len (aids (abs g))) by (unfold len; by rewrite <-P1).
  assert (L2 : len o2 = len (aids (abs h))) by (unfold len; by rewrite <-P2).
  pose proof (len_nonneg o1). pose proof (len_nonneg o2).
  pose proof (awf_nodes_sized _ Wg). pose proof (awf_nodes_sized _ Wh).
  apply u64_app_inj in E as [E1 E]; [|unfold u64_ok; lia..].
  rewrite (map_ext_in (alab (abs g)) (fun n => concat (map ptext (texts_at g n)))) in E
    by (intros n Hn%list_elem_of_In; apply alab_texts; by rewrite P1).
  rewrite (map_ext_in (alab (abs h)) (fun n => concat (map ptext (texts_at h n)))) in E
    by (intros n Hn%list_elem_of_In; apply alab_texts; by rewrite P2).
  rewrite <-(map_map (texts_at g) (fun ts => concat (map ptext ts))),
    <-(map_map (texts_at h) (fun ts => concat (map ptext ts))) in E.
  apply (delimited_concat texts_ok _ _ _ _ _ label_delimited) in E as [Et E].
  2:{ apply Forall_map, Forall_forall. intros n Hn. rewrite <-P1 in Hn. by apply texts_at_ok. }
  2:{ apply Forall_map, Forall_forall. intros n Hn. rewrite <-P2 in Hn. by apply texts_at_ok. }
  2:{ rewrite !length_map. unfold len in E1. lia. }
  split; [done|].
  pose proof (len_nonneg (aedges (abs g))). pose proof (len_nonneg (aedges (abs h))).
  pose proof (awf_edges_sized _ Wg). pose proof (awf_edges_sized _ Wh).
  apply u64_app_inj in E as [E2 E]; [|unfold u64_ok; lia..].
  apply (f_equal (fun l => l ++ [])) in E.
  apply (delimited_concat edge_ok _ _ _ _ _ pedge_delimited) in E as [E _].
  - rewrite <-(py_sorted_perm edge_leb), E. apply py_sorted_perm.
  - apply Forall_forall. intros e He. exact (sorted_ranks_ok _ _ _ Wg P1 He).
  - apply Forall_forall. intros e He. exact (sorted_ranks_ok _ _ _ Wh P2 He).
  - rewrite !length_py_sorted, !length_map. unfold len in E2. lia.
Qed.

(** Equal encodings, under any complete orders, come from isomorphic graphs. *)
Lemma aencode_eq_iso g h o1 o2 :
  valid_cpg g -> valid_cpg h -> sized g -> sized h -> ids g ≡ₚ o1 -> ids h ≡ₚ o2 ->
  aencode (abs g) o1 = aencode (abs h) o2 -> cpg_iso (matching o1 o2) g h.
Proof.
  intros Hg Hh Sg Sh P1 P2 E.
  destruct (aencode_inv g h o1 o2 Hg Hh Sg Sh P1 P2 E) as [Et Ee].
  assert (N1 : NoDup o1) by (rewrite <-P1; apply Hg).
  assert (N2 : NoDup o2) by (rewrite <-P2; apply Hh).
  assert (Hlen : length o1 = length o2).
  { apply (f_equal length) in Et. by rewrite !length_map in Et. }
  pose proof (map_matching o1 o2 N1 Hlen) as Hm.
  assert (Hinj : inj_on (matching o1 o2) o1) by (apply map_NoDup_inj_on; by rewrite Hm).
  assert (Hmem : forall n, n ∈ o1 -> matching o1 o2 n ∈ o2).
  { intros n Hn. pose proof (list_elem_of_fmap_2 (matching o1 o2) o1 n Hn) as X.
    change (_ <$> _) with (map (matching o1 o2) o1) in X. by rewrite Hm in X. }
  assert (Hidx : forall n, n ∈ o1 -> index_of (matching o1 o2 n) o2 = index_of n o1).
  { intros n Hn. pose proof (index_of_map _ _ _ Hinj Hn) as X. by rewrite Hm in X. }
  split.
  - intros x y Hx Hy. rewrite P1 in Hx, Hy. by apply Hinj.
  - rewrite (nodes_by_order _ g o1), (nodes_by_order _ h o2) by (done || apply Hg || apply Hh).
    rewrite <-!zip_map_map, Hm, Et. unfold id. by rewrite map_id.
  - cbn in Ee. rewrite !map_map in Ee.
    apply (perm_map_inj (fun e => erank o2 (edge_bytes e))).
    + intros x y (e & -> & Hx)%list_elem_of_fmap Hy. destruct Hg as [_ _ Vg], Hh as [_ _ Vh].
      rewrite Forall_forall in Vg, Vh. destruct (Vg e Hx) as [A1 A2 _ A3], (Vh y Hy) as [B1 B2 _ B3].
      rewrite P1 in A1, A2. rewrite P2 in B1, B2.
      destruct e as [s d k], y as [s' d' k']; cbn in *. intros [= Ek Es Ed].
      unfold rename_edge; cbn.
      f_equal; [eapply rank_inj; eauto..|by apply enc_inj].
    + rewrite map_map, <-Ee. apply reflexive_eq, map_ext_in. intros e He%list_elem_of_In.
      destruct Hg as [_ _ Vg]. rewrite Forall_forall in Vg. destruct (Vg e He) as [A1 A2 _ _].
      rewrite P1 in A1, A2. unfold erank, edge_bytes, rank; cbn. by rewrite !Hidx.
Qed.
