(* ===== verification/Ordering.v ===== *)
(** * Canonical order search ([analysis/ordering.py])

    [_GraphIndex] with colour refinement and the transposition test, the
    bounded individualisation search, the same-source fallback order, and
    [canonical_order].  Dicts keyed by node ids are [gmap]s; where the source
    iterates such a dict, the iteration runs over [gi_order], the insertion
    order of the keys of [labels]. *)
From stdpp Require Import base tactics list gmap strings.
From Stdlib Require Import ZArith QArith Lia.
From S2P Require Import Prelude PyData Sha256 Budget Cpg.

Open Scope Z_scope.
Open Scope budget_scope.

(** ** Interning *)

(** [sorted(set(values))] *)
Definition sorted_set (values : list pybytes) : list pybytes :=
  py_sorted bytes_leb (remove_dups values).

(** [_intern]: bytewise ranks of the signatures, given as the items of the
    dict in insertion order. *)
Definition _intern (signatures : list (Z * pybytes)) : gmap Z Z :=
  let colors := sorted_set (map snd signatures) in
  list_to_map (map (fun s => (s.1, Z.of_nat (default O (index_of s.2 colors)))) signatures).

(** ** [_GraphIndex] *)

Record _GraphIndex := mkIndex {
  gi_order : list Z;
  labels : gmap Z pybytes;
  incoming : gmap Z (list (pybytes * Z));
  outgoing : gmap Z (list (pybytes * Z));
  pairs : gmap (Z * Z) (list pybytes)
}.

(** [d.setdefault(k, []).append(v)] *)
Definition append_at {K A} `{Countable K} (m : gmap K (list A)) (k : K) (v : A) : gmap K (list A) :=
  <[k := default [] (m !! k) ++ [v]]> m.

Definition Adjacency : Type :=
  gmap Z (list (pybytes * Z)) * gmap Z (list (pybytes * Z)) * gmap (Z * Z) (list pybytes).

Definition index_edge (acc : Adjacency) (e : CPGEdge) : M Adjacency :=
  check ;;;
  k ⇠ py_encode (edge_kind e);
  ret (append_at acc.1.1 (dst e) (k, src e),
       append_at acc.1.2 (src e) (k, dst e),
       append_at acc.2 (src e, dst e) k).

(** [_GraphIndex.build] *)
Definition build (g : CPG) : M _GraphIndex :=
  validate_cpg true g ;;;
  labs ⇠ mapM (fun node => l ⇠ _label node; ret (node_id node, l)) (nodes g);
  let empties : gmap Z (list (pybytes * Z)) := list_to_map (map (fun n => (n, [])) (ids g)) in
  acc ⇠ foldM index_edge (empties, empties, ∅) (edges g);
  ret (mkIndex (ids g) (list_to_map labs) acc.1.1 acc.1.2 (py_sorted bytes_leb <$> acc.2)).

Definition color_of (colors : gmap Z Z) (n : Z) : Z := default 0 (colors !! n).

Definition neighbor_leb : pybytes * Z -> pybytes * Z -> bool := pair_leb bytes_leb Z.leb.

#[export] Instance neighbor_leb_total : TotalLe neighbor_leb := pair_leb_total bytes_leb Z.leb _ _.
#[export] Instance neighbor_leb_anti : AntiLe neighbor_leb := pair_leb_anti bytes_leb Z.leb _ _.

(** One adjacency list inside a refinement signature. *)
Definition adjacency_parts (colors : gmap Z Z) (adjacency : list (pybytes * Z)) : M pybytes :=
  let neighbors := py_sorted neighbor_leb (map (fun a => (a.1, color_of colors a.2)) adjacency) in
  n ⇠ _u64 (len neighbors);
  parts ⇠ mapM (fun a => lk ⇠ _u64 (len a.1); c ⇠ _u64 a.2; ret (lk ++ a.1 ++ c)) neighbors;
  ret (n ++ concat parts).

Definition refine_signature (index : _GraphIndex) (colors : gmap Z Z) (node : Z) : M (Z * pybytes) :=
  check ;;;
  c ⇠ _u64 (color_of colors node);
  i ⇠ adjacency_parts colors (default [] (incoming index !! node));
  o ⇠ adjacency_parts colors (default [] (outgoing index !! node));
  ret (node, c ++ i ++ o).

(** [len(set(colors.values()))] *)
Definition class_count (order : list Z) (colors : gmap Z Z) : nat :=
  length (remove_dups (map (color_of colors) order)).

Fixpoint refine_loop (fuel : nat) (index : _GraphIndex) (colors : gmap Z Z) : M (gmap Z Z) :=
  match fuel with
  | O => raise OutOfFuel
  | S fuel' =>
      if bool_decide (colors = ∅) then ret colors
      else
        signatures ⇠ mapM (refine_signature index colors) (gi_order index);
        let refined := _intern signatures in
        if bool_decide (class_count (gi_order index) refined = class_count (gi_order index) colors)
        then ret refined
        else refine_loop fuel' index refined
  end.

Definition initial_signature (index : _GraphIndex) (markers : gmap Z Z) (n : Z) : M (Z * pybytes) :=
  u ⇠ _u64 (default 0 (markers !! n));
  ret (n, default [] (labels index !! n) ++ u).

(** [_GraphIndex.refine]: every round but the last has more classes than the
    one before it, so one round more than there are nodes is enough fuel. *)
Definition refine (index : _GraphIndex) (markers : gmap Z Z) : M (gmap Z Z) :=
  signatures ⇠ mapM (initial_signature index markers) (gi_order index);
  refine_loop (S (length (gi_order index))) index (_intern signatures).

Definition pair_kinds (index : _GraphIndex) (a b : Z) : list pybytes :=
  default [] (pairs index !! (a, b)).

(** The loop of [swap_is_automorphism] over the other vertices. *)
Fixpoint others_agree (index : _GraphIndex) (a b : Z) (others : list Z) : M bool :=
  match others with
  | [] => ret true
  | other :: rest =>
      check ;;;
      if negb (bool_decide (other = a) || bool_decide (other = b)) &&
         (negb (bool_decide (pair_kinds index a other = pair_kinds index b other)) ||
          negb (bool_decide (pair_kinds index other a = pair_kinds index other b)))
      then ret false
      else others_agree index a b rest
  end.

(** [_GraphIndex.swap_is_automorphism] *)
Definition swap_is_automorphism (index : _GraphIndex) (a b : Z) : M bool :=
  if negb (bool_decide (default [] (labels index !! a) = default [] (labels index !! b)))
  then ret false
  else if negb (bool_decide (pair_kinds index a a = pair_kinds index b b)) then ret false
  else if negb (bool_decide (pair_kinds index a b = pair_kinds index b a)) then ret false
  else others_agree index a b (gi_order index).

(** ** The search *)

(** [cells.setdefault(color, []).append(node)] for the items of [colors] *)
Definition color_cells (order : list Z) (colors : gmap Z Z) : gmap Z (list Z) :=
  fold_left (fun cells n => append_at cells (color_of colors n) n) order ∅.

(** [[(len(nodes), color) for color, nodes in cells.items() if len(nodes) > 1]] *)
Definition ambiguous_cells (cells : gmap Z (list Z)) : list (Z * Z) :=
  map (fun c => (len c.2, c.1)) (List.filter (fun c => 1 <? len c.2) (map_to_list cells)).

Definition size_color_leb : Z * Z -> Z * Z -> bool := pair_leb Z.leb Z.leb.

#[export] Instance size_color_leb_total : TotalLe size_color_leb := pair_leb_total Z.leb Z.leb _ _.
#[export] Instance size_color_leb_anti : AntiLe size_color_leb := pair_leb_anti Z.leb Z.leb _ _.

Definition candidate : Type := pybytes * list Z.

(** [candidate < best] on the tuples [(encoded, order)] *)
Definition candidate_leb : candidate -> candidate -> bool := pair_leb bytes_leb (list_leb Z.leb).

Definition better (cand : candidate) (best : option candidate) : option candidate :=
  match best with
  | None => Some cand
  | Some b => if candidate_leb b cand then Some b else Some cand
  end.

Definition add_representative (index : _GraphIndex) (reps : list Z) (node : Z) : M (list Z) :=
  hit ⇠ anyM (fun other => swap_is_automorphism index node other) reps;
  if hit : bool then ret reps else ret (reps ++ [node]).

(** [{**markers, node: len(markers) + 1}] *)
Definition mark (markers : gmap Z Z) (node : Z) : gmap Z Z :=
  <[node := Z.of_nat (size markers) + 1]> markers.

(** The [while pending] loop of [_canonical_search].  The stack is a list with
    the top first.  Every iteration enters a state, so the loop runs at most
    [state_limit + 1] times. *)
Fixpoint search_loop (fuel : nat) (g : CPG) (index : _GraphIndex)
    (pending : list (gmap Z Z)) (best : option candidate) : M (option candidate) :=
  match pending with
  | [] => ret best
  | markers :: pending' =>
      match fuel with
      | O => raise OutOfFuel
      | S fuel' =>
          enter_state ;;;
          colors ⇠ refine index markers;
          let cells := color_cells (gi_order index) colors in
          match py_min size_color_leb (ambiguous_cells cells) with
          | None =>
              let order := py_sorted (fun a b => color_of colors a <=? color_of colors b)
                                     (gi_order index) in
              encoded ⇠ encode_graph true g order;
              search_loop fuel' g index pending' (better (encoded, order) best)
          | Some target =>
              representatives ⇠ foldM (add_representative index) []
                (py_sorted Z.leb (default [] (cells !! target.2)));
              pending'' ⇠ foldM (fun p node => check ;;; ret (mark markers node :: p))
                                pending' (reverse representatives);
              search_loop fuel' g index pending'' best
          end
      end
  end.

(** The number of states that may still be entered. *)
Definition remaining_states : M nat := fun _ b =>
  (Ok (S (Z.to_nat (state_limit b - search_states b))), b).

(** [_canonical_search]; the final [assert best is not None] cannot fail. *)
Definition _canonical_search (g : CPG) (index : _GraphIndex) : M (list Z * pybytes) :=
  fuel ⇠ remaining_states;
  best ⇠ search_loop fuel g index [∅] None;
  match best with
  | Some (encoded, order) => ret (order, encoded)
  | None => raise (ValueError "assertion failed: best is not None")
  end.

(** ** The same-source fallback *)

Definition fallback_key : Type := pybytes * (pybytes * (list pystr * (pybytes * Z))).

Definition fallback_leb : fallback_key -> fallback_key -> bool :=
  pair_leb bytes_leb (pair_leb bytes_leb (pair_leb (list_leb str_leb) (pair_leb bytes_leb Z.leb))).

Definition incident_kinds (g : CPG) : gmap Z (list pystr) :=
  fold_left (fun m e => append_at (append_at m (src e) (edge_kind e)) (dst e) (edge_kind e))
    (edges g) (list_to_map (map (fun n => (n, [])) (ids g))).

Definition node_fallback_key (g : CPG) (node : CPGNode) : M fallback_key :=
  decl ⇠ py_encode (enclosing_decl_fqn node);
  path ⇠ py_encode (structural_path node);
  label ⇠ _label node;
  ret (sha256 decl, (path, (py_sorted str_leb (default [] (incident_kinds g !! node_id node)),
                            (label, node_id node)))).

(** [_stable_order_fallback] *)
Definition _stable_order_fallback (g : CPG) : M (list Z) :=
  keyed ⇠ mapM (fun node => k ⇠ node_fallback_key g node; ret (k, node_id node)) (nodes g);
  ret (map snd (py_sorted (fun a b => fallback_leb a.1 b.1) keyed)).

(** ** [canonical_order] *)

Inductive FingerprintClass := strong | weak.

#[export] Instance FingerprintClass_eq_dec : EqDecision FingerprintClass.
Proof. solve_decision. Defined.

Record CanonicalOrderResult := mkOrderResult {
  canonical_order_of : list Z;
  cpg_order_hash : pybytes;
  fingerprint_class : FingerprintClass;
  annotation : pystr;
  budget_exhausted : bool;
  order_elapsed_ms : Q;
  identity_namespace : pystr;
  budget_policy : pystr;
  order_search_states : Z
}.

Definition CPG_ORDER_HASH_ANNOTATION : pystr := str "canonical iff fingerprint_class = strong".
Definition DEFAULT_B : pynum := PyInt (2 ^ 16).
(** The float [0.2]. *)
Definition DEFAULT_T : pynum := PyFloat (3602879701896397 # 18014398509481984).
Definition GRAPH_IDENTITY_NAMESPACE : pystr := str "scanipy-canonical-graph/2".
Definition BUDGET_POLICY : pystr := str "scanipy-budget-policy/2".

Definition strong_domain : pybytes := str "SCANIPY-CPG-STRONG/2" ++ [10].
Definition weak_domain : pybytes := str "SCANIPY-CPG-WEAK/2" ++ [10].

Definition class_domain (k : FingerprintClass) : pybytes :=
  match k with strong => strong_domain | weak => weak_domain end.

(** The search, or the fallback when the states run out. *)
Definition order_core (g : CPG) : M (FingerprintClass * list Z * pybytes) :=
  index ⇠ build g;
  except_exhausted
    (s ⇠ _canonical_search g index; ret (strong, s.1, s.2))
    (check ;;;
     order ⇠ _stable_order_fallback g;
     encoded ⇠ encode_graph true g order;
     ret (weak, order, encoded)).

(** The digest, the telemetry and the final deadline check. *)
Definition finish_order (found : FingerprintClass * list Z * pybytes) : M CanonicalOrderResult :=
  let '(klass, order, encoded) := found in
  let digest := sha256 (class_domain klass ++ encoded) in
  elapsed ⇠ elapsed_ms;
  check ;;;
  states ⇠ get_search_states;
  ret (mkOrderResult order digest klass CPG_ORDER_HASH_ANNOTATION
         (bool_decide (klass = weak)) elapsed GRAPH_IDENTITY_NAMESPACE BUDGET_POLICY states).

(** [canonical_order(cpg, _budget=budget)]: the body, run on a given budget. *)
Definition canonical_order_with (g : CPG) : M CanonicalOrderResult :=
  found ⇠ order_core g;
  finish_order found.

(** [canonical_order(cpg, B=B, T=T)] on a fresh budget. *)
Definition canonical_order (g : CPG) (B T : pynum) (c : clock) : outcome CanonicalOrderResult :=
  obind (start B T c) (fun b => fst (canonical_order_with g c b)).

(** [to_provenance_fields]; [to_sarif_properties] and
    [to_auditor_export_fields] return the same dict. *)
Definition class_name (k : FingerprintClass) : pystr :=
  match k with strong => str "strong" | weak => str "weak" end.

Definition hex_digit (d : Z) : Z := if d <? 10 then 48 + d else 87 + d.
Definition hex (bs : pybytes) : pystr :=
  concat (map (fun b => [hex_digit (b / 16); hex_digit (b mod 16)]) bs).

Definition to_provenance_fields (r : CanonicalOrderResult) : list (pystr * pystr) :=
  [(str "cpg_order_hash", hex (cpg_order_hash r));
   (str "cpg_order_hash_annotation", CPG_ORDER_HASH_ANNOTATION);
   (str "fingerprint_class", class_name (fingerprint_class r));
   (str "cpg_order_namespace", identity_namespace r);
   (str "canonicalization_budget_policy", budget_policy r)].
