(* ===== verification/RefineSpec.v ===== *)
(** * Colour refinement: reference functions, termination, equivariance

    The pure functions below recompute [_GraphIndex.refine] on an abstract
    graph.  The monadic code yields them on every clock that does not expire;
    the loop stops within its fuel; and refinement commutes with
    isomorphism. *)
From stdpp Require Import base tactics list gmap strings.
From Stdlib Require Import ZArith Lia.
From S2P Require Import Prelude PyData Budget Cpg GraphSpec Ordering.

Open Scope Z_scope.
Open Scope budget_scope.

(** ** Interning *)

Definition intern_rank (all : list pybytes) (s : pybytes) : Z :=
  Z.of_nat (default O (index_of s (sorted_set all))).

(** The colours given to the nodes [I] by the signatures [sig]. *)
Definition colors_by (I : list Z) (sig : Z -> pybytes) : gmap Z Z :=
  _intern (map (fun n => (n, sig n)) I).

Lemma sorted_set_elem s l : s ∈ sorted_set l <-> s ∈ l.
Proof. unfold sorted_set. by rewrite py_sorted_elem, elem_of_remove_dups. Qed.

Lemma sorted_set_ext l k : (forall s, s ∈ l <-> s ∈ k) -> sorted_set l = sorted_set k.
Proof.
  intros H. unfold sorted_set. apply py_sorted_perm_eq; [apply _..|].
  apply NoDup_Permutation; [apply NoDup_remove_dups..|].
  intros s. by rewrite !elem_of_remove_dups.
Qed.

Lemma length_remove_dups_le {A} `{EqDecision A} (l : list A) :
  (length (remove_dups l) <= length l)%nat.
Proof. induction l; cbn; [done|]. case_decide; cbn; lia. Qed.

Lemma colors_by_lookup I sig n :
  n ∈ I -> colors_by I sig !! n = Some (intern_rank (map sig I) (sig n)).
Proof.
  intros Hn. unfold colors_by.
  assert (E : forall J, _intern (map (fun n => (n, sig n)) J) =
    list_to_map (map (fun m => (m, intern_rank (map sig J) (sig m))) J)).
  { intros J. unfold _intern. by rewrite !map_map. }
  rewrite E. clear E. generalize (map sig I). intros S.
  induction I as [|m I IH]; [by apply elem_of_nil in Hn|]. cbn.
  destruct (decide (n = m)) as [->|Hne]; [by rewrite lookup_insert_eq|].
  rewrite lookup_insert_ne by done. apply IH.
  by apply elem_of_cons in Hn as [?|?].
Qed.

Lemma colors_by_color I sig n :
  n ∈ I -> color_of (colors_by I sig) n = intern_rank (map sig I) (sig n).
Proof. intros Hn. unfold color_of. by rewrite colors_by_lookup. Qed.

Lemma intern_rank_bound all s : s ∈ all -> 0 <= intern_rank all s < len all.
Proof.
  intros Hs. unfold intern_rank, len.
  destruct (index_of_elem s (sorted_set all)) as [i Hi]; [by apply sorted_set_elem|].
  rewrite Hi. apply index_of_lt in Hi as [Hi _]. cbn. unfold sorted_set in Hi.
  rewrite length_py_sorted in Hi. pose proof (length_remove_dups_le all). lia.
Qed.

Lemma intern_rank_inj all s t :
  s ∈ all -> t ∈ all -> intern_rank all s = intern_rank all t -> s = t.
Proof.
  intros Hs Ht. unfold intern_rank.
  destruct (index_of_elem s (sorted_set all)) as [i Hi]; [by apply sorted_set_elem|].
  destruct (index_of_elem t (sorted_set all)) as [j Hj]; [by apply sorted_set_elem|].
  rewrite Hi, Hj. cbn. intros ->%Nat2Z.inj.
  apply index_of_lt in Hi as [_ Hi], Hj as [_ Hj]. congruence.
Qed.

Lemma colors_by_bound I sig n : n ∈ I -> 0 <= color_of (colors_by I sig) n < len I.
Proof.
  intros Hn. rewrite colors_by_color by done.
  pose proof (intern_rank_bound (map sig I) (sig n)) as H. unfold len in *.
  rewrite length_map in H. apply H. apply list_elem_of_fmap. eauto.
Qed.

Lemma colors_by_inj I sig n m :
  n ∈ I -> m ∈ I -> color_of (colors_by I sig) n = color_of (colors_by I sig) m -> sig n = sig m.
Proof.
  intros Hn Hm. rewrite !colors_by_color by done.
  apply intern_rank_inj; apply list_elem_of_fmap; eauto.
Qed.

Lemma colors_by_same I sig n m :
  n ∈ I -> m ∈ I -> sig n = sig m -> color_of (colors_by I sig) n = color_of (colors_by I sig) m.
Proof. intros Hn Hm E. rewrite !colors_by_color by done. by rewrite E. Qed.

Lemma colors_by_iso p I J sig sig' n :
  map p I ≡ₚ J -> (forall m, m ∈ I -> sig' (p m) = sig m) -> n ∈ I ->
  color_of (colors_by J sig') (p n) = color_of (colors_by I sig) n.
Proof.
  intros HJ Hs Hn.
  assert (Hp : p n ∈ J) by (rewrite <-HJ; apply list_elem_of_fmap; eauto).
  rewrite !colors_by_color by done. rewrite Hs by done. unfold intern_rank.
  rewrite (sorted_set_ext (map sig' J) (map sig I)); [done|].
  intros s. rewrite <-HJ, map_map.
  by rewrite (map_ext_in (fun x => sig' (p x)) sig) by (intros m Hm%list_elem_of_In; by apply Hs).
Qed.

(** ** The reference refinement *)

Definition pin (a : agraph) (n : Z) : list (pybytes * Z) :=
  map (fun e => (e.1.1, e.1.2)) (List.filter (fun e => bool_decide (e.2 = n)) (aedges a)).
Definition pout (a : agraph) (n : Z) : list (pybytes * Z) :=
  map (fun e => (e.1.1, e.2)) (List.filter (fun e => bool_decide (e.1.2 = n)) (aedges a)).

Definition colored (f : Z -> Z) (l : list (pybytes * Z)) : list (pybytes * Z) :=
  map (fun a => (a.1, f a.2)) l.

Definition pneighbor (x : pybytes * Z) : pybytes := u64_bytes (len x.1) ++ x.1 ++ u64_bytes x.2.

Definition padj (l : list (pybytes * Z)) : pybytes :=
  u64_bytes (len l) ++ concat (map pneighbor (py_sorted neighbor_leb l)).

Definition psig (a : agraph) (colors : gmap Z Z) (n : Z) : pybytes :=
  u64_bytes (color_of colors n) ++ padj (colored (color_of colors) (pin a n))
    ++ padj (colored (color_of colors) (pout a n)).

Definition psig0 (a : agraph) (markers : gmap Z Z) (n : Z) : pybytes :=
  alab a n ++ u64_bytes (default 0 (markers !! n)).

Fixpoint prefine_loop (fuel : nat) (a : agraph) (colors : gmap Z Z) : gmap Z Z :=
  match fuel with
  | O => colors
  | S fuel' =>
      let refined := colors_by (aids a) (psig a colors) in
      if bool_decide (class_count (aids a) refined = class_count (aids a) colors)
      then refined else prefine_loop fuel' a refined
  end.

Definition prefine (a : agraph) (markers : gmap Z Z) : gmap Z Z :=
  prefine_loop (S (length (aids a))) a (colors_by (aids a) (psig0 a markers)).

#[global] Arguments psig : simpl never.
#[global] Arguments prefine : simpl never.

(** A colouring of the nodes whose colours fit the signatures. *)
Definition coloring (a : agraph) (colors : gmap Z Z) : Prop :=
  forall n, n ∈ aids a -> is_Some (colors !! n) /\ 0 <= color_of colors n < len (aids a).

Lemma colors_by_coloring a sig : coloring a (colors_by (aids a) sig).
Proof.
  intros n Hn. split; [rewrite colors_by_lookup by done; eauto|by apply colors_by_bound].
Qed.

(** ** The loop stops within its fuel *)

(** [finer I f g]: [f] separates at least the nodes that [g] separates. *)
Definition finer (I : list Z) (f g : Z -> Z) : Prop :=
  forall x y, x ∈ I -> y ∈ I -> f x = f y -> g x = g y.

Lemma finer_count I f g :
  finer I f g -> (length (remove_dups (map g I)) <= length (remove_dups (map f I)))%nat.
Proof.
  intros H.
  set (h := fun y => match List.find (fun x => f x =? y) I with Some x => g x | None => 0 end).
  assert (Hh : forall x, x ∈ I -> h (f x) = g x).
  { intros x Hx. unfold h. destruct (List.find _ I) as [z|] eqn:E.
    - apply find_some in E as [Hz Ez%Z.eqb_eq]. apply list_elem_of_In in Hz. by apply H.
    - apply list_elem_of_In in Hx. by pose proof (find_none _ _ E x Hx) as ?%Z.eqb_neq. }
  rewrite <-(length_map h (remove_dups (map f I))).
  apply NoDup_incl_length.
  - apply NoDup_ListNoDup, NoDup_remove_dups.
  - intros y Hy. apply list_elem_of_In, elem_of_remove_dups, list_elem_of_fmap in Hy as (x & -> & Hx).
    apply list_elem_of_In, list_elem_of_fmap. exists (f x). split; [by rewrite Hh|].
    apply elem_of_remove_dups, list_elem_of_fmap. eauto.
Qed.

Lemma class_count_le I colors : (class_count I colors <= length I)%nat.
Proof.
  unfold class_count. etransitivity; [apply length_remove_dups_le|]. by rewrite length_map.
Qed.

Lemma class_count_pos I colors : I <> [] -> (0 < class_count I colors)%nat.
Proof.
  unfold class_count. intros Hne. destruct I as [|n I]; [done|].
  assert (Hx : color_of colors n ∈ remove_dups (map (color_of colors) (n :: I))).
  { apply elem_of_remove_dups. left. }
  destruct (remove_dups _); [by apply elem_of_nil in Hx|cbn; lia].
Qed.

(** A round refines the partition: its signatures start with the old colour. *)
Lemma psig_finer a colors :
  awf a -> coloring a colors ->
  finer (aids a) (color_of (colors_by (aids a) (psig a colors))) (color_of colors).
Proof.
  intros Hwf Hc x y Hx Hy E%colors_by_inj; [|done..]. unfold psig in E.
  apply u64_app_inj in E as [E _]; [done|..]; unfold u64_ok;
    pose proof (awf_nodes_sized _ Hwf); [destruct (Hc x Hx)|destruct (Hc y Hy)]; lia.
Qed.

Lemma prefine_loop_finer fuel : forall a colors,
  awf a -> coloring a colors ->
  coloring a (prefine_loop fuel a colors) /\
  finer (aids a) (color_of (prefine_loop fuel a colors)) (color_of colors).
Proof.
  induction fuel as [|fuel IH]; intros a colors Hwf Hc; cbn; [split; [done|by intros x y]|].
  pose proof (psig_finer a colors Hwf Hc) as Hf.
  pose proof (colors_by_coloring a (psig a colors)) as Hc'.
  case_bool_decide; [done|]. destruct (IH a _ Hwf Hc') as [H1 H2].
  split; [done|]. intros x y Hx Hy E. apply Hf; [done..|]. by apply H2.
Qed.

Lemma prefine_coloring a markers : awf a -> coloring a (prefine a markers).
Proof. intros Hwf. apply prefine_loop_finer; [done|]. apply colors_by_coloring. Qed.

(** Refinement separates what the labels and markers separate. *)
Lemma prefine_separates a markers x y :
  awf a -> x ∈ aids a -> y ∈ aids a ->
  color_of (prefine a markers) x = color_of (prefine a markers) y ->
  alab a x = alab a y /\ u64_bytes (default 0 (markers !! x)) = u64_bytes (default 0 (markers !! y)).
Proof.
  intros Hwf Hx Hy E.
  apply (proj2 (prefine_loop_finer _ _ _ Hwf (colors_by_coloring a (psig0 a markers)))) in E; [|done..].
  apply colors_by_inj in E; [|done..]. unfold psig0 in E.
  apply app_inj_2 in E; [done|]. unfold u64_bytes. by rewrite !length_to_bytes.
Qed.

(** ** Refinement of the monadic code *)

Record implements (index : _GraphIndex) (a : agraph) : Prop := {
  imp_order : gi_order index = aids a;
  imp_labels : forall n, n ∈ aids a -> labels index !! n = Some (alab a n);
  imp_incoming : forall n, n ∈ aids a -> incoming index !! n = Some (pin a n);
  imp_outgoing : forall n, n ∈ aids a -> outgoing index !! n = Some (pout a n);
  imp_pairs : forall x y, pair_kinds index x y =
    py_sorted bytes_leb (map (fun e => e.1.1)
      (List.filter (fun e => bool_decide (e.1.2 = x) && bool_decide (e.2 = y)) (aedges a)))
}.

Lemma yields_adjacency colors l :
  len l < 2 ^ 64 -> Forall (fun x => len x.1 < 2 ^ 64 /\ u64_ok (color_of colors x.2)) l ->
  yields (adjacency_parts colors l) (Ok (padj (colored (color_of colors) l))).
Proof.
  intros Hl Hf. unfold adjacency_parts, padj. fold (colored (color_of colors) l).
  set (k := colored _ l).
  assert (Hk : len (py_sorted neighbor_leb k) = len k) by (unfold len; by rewrite length_py_sorted).
  assert (Hkl : len k = len l) by (unfold len, k, colored; by rewrite length_map).
  cbv zeta. rewrite Hk.
  eapply yields_bind; [apply yields_u64; split; [apply len_nonneg|lia]|].
  eapply yields_bind; [|apply yields_ret].
  apply (yields_mapM _ pneighbor). intros x Hx%py_sorted_elem.
  apply list_elem_of_fmap in Hx as (y & -> & Hy). rewrite Forall_forall in Hf.
  destruct (Hf y Hy) as [H1 H2].
  eapply yields_bind; [apply yields_u64; split; [apply len_nonneg|done]|].
  eapply yields_bind; [by apply yields_u64|]. apply yields_ret.
Qed.

Lemma pin_ok a colors n :
  awf a -> coloring a colors ->
  len (pin a n) < 2 ^ 64 /\ Forall (fun x => len x.1 < 2 ^ 64 /\ u64_ok (color_of colors x.2)) (pin a n).
Proof.
  intros [_ He Hk Hs1 Hs2] Hc. unfold pin. split.
  - unfold len in *. rewrite length_map.
    pose proof (filter_length_le (fun e => bool_decide (e.2 = n)) (aedges a)). lia.
  - apply Forall_map, Forall_forall. intros e Hin%list_elem_of_In%filter_In.
    destruct Hin as [Hin%list_elem_of_In _]. rewrite Forall_forall in He, Hk.
    destruct (He e Hin) as [H1 _]. apply Hc in H1. split; [exact (Hk e Hin)|].
    unfold u64_ok. cbn -[Z.pow]. lia.
Qed.

Lemma pout_ok a colors n :
  awf a -> coloring a colors ->
  len (pout a n) < 2 ^ 64 /\ Forall (fun x => len x.1 < 2 ^ 64 /\ u64_ok (color_of colors x.2)) (pout a n).
Proof.
  intros [_ He Hk Hs1 Hs2] Hc. unfold pout. split.
  - unfold len in *. rewrite length_map.
    pose proof (filter_length_le (fun e => bool_decide (e.1.2 = n)) (aedges a)). lia.
  - apply Forall_map, Forall_forall. intros e Hin%list_elem_of_In%filter_In.
    destruct Hin as [Hin%list_elem_of_In _]. rewrite Forall_forall in He, Hk.
    destruct (He e Hin) as [_ H1]. apply Hc in H1. split; [exact (Hk e Hin)|].
    unfold u64_ok. cbn -[Z.pow]. lia.
Qed.

Lemma yields_refine_signature index a colors n :
  awf a -> implements index a -> coloring a colors -> n ∈ aids a ->
  yields (refine_signature index colors n) (Ok (n, psig a colors n)).
Proof.
  intros Hwf [Ho _ Hi Hu _] Hc Hn. unfold refine_signature. rewrite Hi, Hu by done.
  destruct (pin_ok a colors n Hwf Hc) as [? ?]. destruct (pout_ok a colors n Hwf Hc) as [? ?].
  yields_step. eapply yields_bind.
  { apply yields_u64. destruct (Hc n Hn). pose proof (awf_nodes_sized _ Hwf). unfold u64_ok. lia. }
  do 2 (eapply yields_bind; [by apply yields_adjacency|]). apply yields_ret.
Qed.

Lemma coloring_nonempty a colors : coloring a colors -> aids a <> [] -> colors <> ∅.
Proof.
  intros Hc Hne ->. destruct (aids a) as [|n I] eqn:E; [done|].
  destruct (Hc n) as [[? H] _]; [rewrite E; left|]. by rewrite lookup_empty in H.
Qed.

(** From a colouring with [k] classes, [|V| + 1 - k] rounds are enough. *)
Lemma yields_refine_loop fuel : forall index a colors,
  awf a -> implements index a -> coloring a colors -> aids a <> [] ->
  (length (aids a) < class_count (aids a) colors + fuel)%nat ->
  yields (refine_loop fuel index colors) (Ok (prefine_loop fuel a colors)).
Proof.
  induction fuel as [|fuel IH]; intros index a colors Hwf Himp Hc Hne Hf.
  { pose proof (class_count_le (aids a) colors). lia. }
  cbn. rewrite bool_decide_eq_false_2 by (by eapply coloring_nonempty).
  rewrite (imp_order _ _ Himp). eapply yields_bind.
  { apply (yields_mapM _ (fun n => (n, psig a colors n))). intros n Hn.
    by apply yields_refine_signature. }
  cbv zeta. fold (colors_by (aids a) (psig a colors)).
  pose proof (finer_count _ _ _ (psig_finer a colors Hwf Hc)) as Hcnt.
  fold (class_count (aids a) colors) in Hcnt.
  fold (class_count (aids a) (colors_by (aids a) (psig a colors))) in Hcnt.
  case_bool_decide; [apply yields_ret|].
  apply IH; [done..|apply colors_by_coloring|done|]. lia.
Qed.

Lemma yields_refine index a markers :
  awf a -> implements index a -> (forall n, u64_ok (default 0 (markers !! n))) ->
  yields (refine index markers) (Ok (prefine a markers)).
Proof.
  intros Hwf Himp Hm. unfold refine. rewrite (imp_order _ _ Himp). eapply yields_bind.
  { apply (yields_mapM _ (fun n => (n, psig0 a markers n))). intros n Hn.
    unfold initial_signature. rewrite (imp_labels _ _ Himp) by done.
    eapply yields_bind; [by apply yields_u64|]. apply yields_ret. }
  fold (colors_by (aids a) (psig0 a markers)). unfold prefine.
  destruct (aids a) as [|n I] eqn:E.
  { cbn. rewrite bool_decide_eq_true_2 by done. rewrite E. cbn. apply yields_ret. }
  rewrite <-E. apply yields_refine_loop; [done..|apply colors_by_coloring|by rewrite E|].
  pose proof (class_count_pos (aids a) (colors_by (aids a) (psig0 a markers))) as Hpos.
  rewrite E in *. specialize (Hpos ltac:(done)). lia.
Qed.

(** ** [build] implements the abstraction of the graph *)

Section append_at.
Context {K A E : Type} `{Countable K} (key : E -> K) (val : E -> A).

Definition appends (es : list E) (m : gmap K (list A)) : gmap K (list A) :=
  fold_left (fun m e => append_at m (key e) (val e)) es m.

Lemma appends_lookup es : forall m k,
  default [] (appends es m !! k) =
  default [] (m !! k) ++ map val (List.filter (fun e => bool_decide (key e = k)) es).
Proof.
  induction es as [|e es IH]; intros m k; cbn; [by rewrite app_nil_r|].
  unfold appends in IH. rewrite IH. unfold append_at at 1.
  destruct (decide (key e = k)) as [<-|Hne].
  - rewrite bool_decide_eq_true_2, lookup_insert_eq by done. cbn. by rewrite <-app_assoc.
  - by rewrite bool_decide_eq_false_2, lookup_insert_ne by done.
Qed.

Lemma appends_is_Some es : forall m k, is_Some (m !! k) -> is_Some (appends es m !! k).
Proof.
  induction es as [|e es IH]; intros m k Hk; [done|]. cbn. apply IH. unfold append_at.
  destruct (decide (key e = k)) as [<-|Hne]; [rewrite lookup_insert_eq; eauto|].
  by rewrite lookup_insert_ne.
Qed.
End append_at.

Definition pure_index_edge (acc : Adjacency) (e : CPGEdge) : Adjacency :=
  let k := enc (edge_kind e) in
  (append_at acc.1.1 (dst e) (k, src e), append_at acc.1.2 (src e) (k, dst e),
   append_at acc.2 (src e, dst e) k).

Lemma pure_index_edges es : forall i o p,
  fold_left pure_index_edge es (i, o, p) =
  (appends dst (fun e => (enc (edge_kind e), src e)) es i,
   appends src (fun e => (enc (edge_kind e), dst e)) es o,
   appends (fun e => (src e, dst e)) (fun e => enc (edge_kind e)) es p).
Proof. induction es as [|e es IH]; intros i o p; [done|]. apply IH. Qed.

Definition empties (I : list Z) : gmap Z (list (pybytes * Z)) := list_to_map (map (fun n => (n, [])) I).

Lemma empties_lookup I n : n ∈ I -> empties I !! n = Some [].
Proof.
  unfold empties. induction I as [|m I IH]; [by intros ?%elem_of_nil|]. intros Hn. cbn.
  destruct (decide (n = m)) as [->|Hne]; [by rewrite lookup_insert_eq|].
  rewrite lookup_insert_ne by done. apply IH. by apply elem_of_cons in Hn as [?|?].
Qed.

(** The index that [build] returns for a valid graph. *)
Definition pure_index (g : CPG) : _GraphIndex :=
  let acc := fold_left pure_index_edge (edges g) (empties (ids g), empties (ids g), ∅) in
  mkIndex (ids g) (list_to_map (map (fun nd => (node_id nd, plabel nd)) (nodes g)))
    acc.1.1 acc.1.2 (py_sorted bytes_leb <$> acc.2).

Lemma yields_build g : valid_cpg g -> yields (build g) (Ok (pure_index g)).
Proof.
  intros Hg. unfold build. eapply yields_bind; [by apply yields_validate|].
  destruct Hg as [_ Hn He]. rewrite Forall_forall in Hn. rewrite Forall_forall in He. eapply yields_bind.
  { apply (yields_mapM _ (fun nd => (node_id nd, plabel nd))). intros nd Hin.
    eapply yields_bind; [apply yields_label; by apply Hn|]. apply yields_ret. }
  cbv zeta. eapply yields_bind; [|apply yields_ret].
  apply yields_foldM. intros acc e Hin. unfold index_edge. yields_step.
  eapply yields_bind; [apply yields_encode; by apply He|]. apply yields_ret.
Qed.

Lemma adjacency_lookup (key : CPGEdge -> Z) val es I n l :
  n ∈ I ->
  map val (List.filter (fun e => bool_decide (key e = n)) es) = l ->
  appends key val es (empties I) !! n = Some l.
Proof.
  intros Hn <-. pose proof (appends_lookup key val es (empties I) n) as H.
  destruct (appends_is_Some key val es (empties I) n) as [v Hv]; [by rewrite empties_lookup|].
  rewrite Hv in H |- *. rewrite empties_lookup in H by done. by cbn in H; subst.
Qed.

Lemma pure_index_implements g : valid_cpg g -> implements (pure_index g) (abs g).
Proof.
  intros Hg. unfold pure_index. rewrite pure_index_edges. split; cbn -[empties].
  - done.
  - intros n Hn. destruct (by_id_Some g n Hn) as (nd & Hin & <- & ->).
    apply elem_of_list_to_map_1.
    + rewrite <-list_fmap_compose. apply Hg.
    + apply list_elem_of_fmap. eauto.
  - intros n Hn. apply adjacency_lookup; [done|]. unfold pin. cbn.
    by rewrite filter_map_swap, map_map.
  - intros n Hn. apply adjacency_lookup; [done|]. unfold pout. cbn.
    by rewrite filter_map_swap, map_map.
  - intros x y. unfold pair_kinds; cbn. rewrite lookup_fmap.
    pose proof (appends_lookup (fun e => (src e, dst e)) (fun e => enc (edge_kind e)) (edges g) ∅ (x, y)) as H.
    rewrite filter_map_swap, map_map. cbn.
    rewrite (filter_ext _ (fun e => bool_decide ((src e, dst e) = (x, y)))).
    2:{ intros e. repeat case_bool_decide; naive_solver. }
    rewrite lookup_empty in H. cbn in H. rewrite <-H. by destruct (appends _ _ _ _ !! _).
Qed.

(** ** Equivariance *)

Section equivariance.
Context (p : Z -> Z) (a b : agraph).
Context (Hwf : awf a) (Hiso : aiso p a b).

Lemma edges_filter_iso (sel : pybytes * Z * Z -> Z) n :
  (forall e, sel (erename p e) = p (sel e)) ->
  (forall e, e ∈ aedges a -> sel e ∈ aids a) -> n ∈ aids a ->
  List.filter (fun e => bool_decide (sel e = p n)) (aedges b) ≡ₚ
  map (erename p) (List.filter (fun e => bool_decide (sel e = n)) (aedges a)).
Proof.
  intros Hs He Hn. rewrite <-(filter_perm _ _ _ (iso_edges _ _ _ Hiso)), filter_map_swap.
  apply reflexive_eq. f_equal. apply filter_ext_in. intros e Hin%list_elem_of_In.
  rewrite Hs. apply bool_decide_ext. split; [|by intros ->].
  apply (iso_inj _ _ _ Hiso); auto.
Qed.

Lemma ends_in e : e ∈ aedges a -> e.1.2 ∈ aids a /\ e.2 ∈ aids a.
Proof. pose proof (awf_ends _ Hwf) as H. rewrite Forall_forall in H. apply H. Qed.

Lemma pin_iso n : n ∈ aids a -> pin b (p n) ≡ₚ map (fun x => (x.1, p x.2)) (pin a n).
Proof.
  intros Hn. unfold pin. rewrite (edges_filter_iso (fun e => e.2)); [|done| |done].
  - by rewrite !map_map.
  - apply ends_in.
Qed.

Lemma pout_iso n : n ∈ aids a -> pout b (p n) ≡ₚ map (fun x => (x.1, p x.2)) (pout a n).
Proof.
  intros Hn. unfold pout. rewrite (edges_filter_iso (fun e => e.1.2)); [|done| |done].
  - by rewrite !map_map.
  - apply ends_in.
Qed.

Definition matches (c d : gmap Z Z) : Prop :=
  forall n, n ∈ aids a -> color_of d (p n) = color_of c n.

Lemma padj_iso c d l k :
  (forall x, x ∈ l -> x.2 ∈ aids a) -> matches c d ->
  k ≡ₚ map (fun x => (x.1, p x.2)) l ->
  padj (colored (color_of d) k) = padj (colored (color_of c) l).
Proof.
  intros Hl Hm Hk.
  assert (E : colored (color_of d) k ≡ₚ colored (color_of c) l).
  { unfold colored. rewrite Hk, map_map. apply reflexive_eq, map_ext_in.
    intros x Hx%list_elem_of_In. cbn. by rewrite Hm by auto. }
  unfold padj. rewrite (py_sorted_perm_eq _ _ _ E). f_equal. f_equal.
  unfold len. by rewrite E.
Qed.

Lemma psig_iso c d n : matches c d -> n ∈ aids a -> psig b d (p n) = psig a c n.
Proof.
  intros Hm Hn. unfold psig. rewrite Hm by done. f_equal. f_equal.
  - eapply padj_iso; [|done|by apply pin_iso]. intros x Hx.
    unfold pin in Hx. apply list_elem_of_fmap in Hx as (e & -> & He%list_elem_of_In%filter_In).
    destruct He as [He%list_elem_of_In _]. by apply ends_in.
  - eapply padj_iso; [|done|by apply pout_iso]. intros x Hx.
    unfold pout in Hx. apply list_elem_of_fmap in Hx as (e & -> & He%list_elem_of_In%filter_In).
    destruct He as [He%list_elem_of_In _]. by apply ends_in.
Qed.

Lemma class_count_iso c d : matches c d -> class_count (aids b) d = class_count (aids a) c.
Proof.
  intros Hm. unfold class_count.
  assert (E : map (color_of d) (aids b) ≡ₚ map (color_of c) (aids a)).
  { rewrite <-(iso_ids _ _ _ Hiso), map_map. apply reflexive_eq, map_ext_in.
    intros x Hx%list_elem_of_In. by apply Hm. }
  apply Permutation_length, NoDup_Permutation; [apply NoDup_remove_dups..|].
  intros x. by rewrite !elem_of_remove_dups, E.
Qed.

Lemma colors_by_matches sig sig' :
  (forall n, n ∈ aids a -> sig' (p n) = sig n) ->
  matches (colors_by (aids a) sig) (colors_by (aids b) sig').
Proof. intros Hs n Hn. apply colors_by_iso; [apply Hiso|done..]. Qed.

Lemma prefine_loop_iso fuel : forall c d,
  matches c d -> matches (prefine_loop fuel a c) (prefine_loop fuel b d).
Proof.
  induction fuel as [|fuel IH]; intros c d Hm; [done|]. cbn.
  assert (Hm' : matches (colors_by (aids a) (psig a c)) (colors_by (aids b) (psig b d))).
  { apply colors_by_matches. intros n Hn. by apply psig_iso. }
  rewrite (class_count_iso c d Hm), (class_count_iso _ _ Hm').
  case_bool_decide; [done|by apply IH].
Qed.

(** Isomorphic graphs with corresponding markers get corresponding colours. *)
Lemma prefine_iso m m' :
  (forall n, n ∈ aids a -> m' !! p n = m !! n) -> matches (prefine a m) (prefine b m').
Proof.
  intros Hm. unfold prefine.
  assert (Hl : length (aids b) = length (aids a)) by (rewrite <-(iso_ids _ _ _ Hiso); apply length_map).
  rewrite Hl. apply prefine_loop_iso, colors_by_matches.
  intros n Hn. unfold psig0. rewrite Hm by done. f_equal. by apply Hiso.
Qed.
End equivariance.
