(* ===== verification/SearchSpec.v ===== *)
(** * The individualisation search: reference tree, pruning, equivariance

    The search tree as a pure function, the proof that pruning by certified
    transpositions loses no leaf encoding, the simulation of the bounded
    depth-first loop, and the invariance of the set of leaf encodings and of
    the number of states under isomorphism. *)
From stdpp Require Import base tactics list gmap strings.
From Stdlib Require Import ZArith Lia.
From S2P Require Import Prelude PyData Budget Cpg GraphSpec Ordering RefineSpec.

Open Scope Z_scope.
Open Scope budget_scope.

(** ** Cells and the target cell *)

Definition cell (I : list Z) (colors : gmap Z Z) (c : Z) : list Z :=
  List.filter (fun n => bool_decide (color_of colors n = c)) I.

Lemma elem_of_cell I colors c n : n ∈ cell I colors c <-> n ∈ I /\ color_of colors n = c.
Proof.
  unfold cell. rewrite list_elem_of_In, filter_In, <-list_elem_of_In.
  by rewrite bool_decide_eq_true.
Qed.

Lemma color_cells_lookup I colors c : default [] (color_cells I colors !! c) = cell I colors c.
Proof.
  change (color_cells I colors) with (appends (color_of colors) (fun n : Z => n) I ∅).
  rewrite appends_lookup, lookup_empty. cbn. by rewrite map_id.
Qed.

Lemma elem_of_ambiguous I colors k c :
  (k, c) ∈ ambiguous_cells (color_cells I colors) <-> k = len (cell I colors c) /\ 1 < k.
Proof.
  unfold ambiguous_cells. rewrite list_elem_of_fmap. split.
  - intros ([c' ns] & [= -> ->] & Hin%list_elem_of_In%filter_In). cbn in *.
    destruct Hin as [Hin%list_elem_of_In%elem_of_map_to_list Hlt].
    pose proof (color_cells_lookup I colors c') as H. rewrite Hin in H. cbn in H. subst.
    split; [done|lia].
  - intros [-> Hlt]. pose proof (color_cells_lookup I colors c) as H.
    destruct (color_cells I colors !! c) as [ns|] eqn:E; cbn in H.
    2:{ rewrite <-H in Hlt. done. }
    exists (c, ns). subst ns. split; [done|]. apply list_elem_of_In, filter_In.
    split; [apply list_elem_of_In; by apply elem_of_map_to_list|cbn; lia].
Qed.

Definition target (I : list Z) (colors : gmap Z Z) : option (Z * Z) :=
  py_min size_color_leb (ambiguous_cells (color_cells I colors)).

Lemma target_Some I colors t :
  target I colors = Some t -> t.1 = len (cell I colors t.2) /\ 1 < t.1.
Proof.
  intros [H _]%py_min_spec; [|apply _]. destruct t as [k c]. by apply elem_of_ambiguous in H.
Qed.

Lemma two_elems {A} (l : list A) x y : NoDup l -> x ∈ l -> y ∈ l -> x <> y -> 1 < len l.
Proof.
  intros _ Hx Hy Hne. unfold len. destruct l as [|u [|v l]]; [by apply elem_of_nil in Hx| |cbn; lia].
  apply list_elem_of_singleton in Hx, Hy. congruence.
Qed.

(** No ambiguous cell: the colouring is discrete. *)
Lemma target_None I colors :
  NoDup I -> target I colors = None -> inj_on (color_of colors) I.
Proof.
  intros Hnd Ht x y Hx Hy E. apply py_min_None in Ht.
  destruct (decide (x = y)) as [|Hne]; [done|]. exfalso.
  set (c := color_of colors x).
  assert (H : (len (cell I colors c), c) ∈ ambiguous_cells (color_cells I colors)).
  { apply elem_of_ambiguous. split; [done|].
    apply (two_elems _ x y); [|by apply elem_of_cell..|done].
    apply NoDup_ListNoDup. apply List.NoDup_filter. by apply NoDup_ListNoDup. }
  rewrite Ht in H. by apply elem_of_nil in H.
Qed.

Lemma cell_iso p a b c d k :
  aiso p a b -> matches p a c d -> cell (aids b) d k ≡ₚ map p (cell (aids a) c k).
Proof.
  intros Hiso Hm. unfold cell. rewrite <-(filter_perm _ _ _ (iso_ids _ _ _ Hiso)), filter_map_swap.
  apply reflexive_eq. f_equal. apply filter_ext_in. intros n Hn%list_elem_of_In. by rewrite Hm.
Qed.

Lemma target_iso p a b c d :
  aiso p a b -> matches p a c d -> target (aids b) d = target (aids a) c.
Proof.
  intros Hiso Hm. unfold target. apply py_min_ext; [apply _..|]. intros [k col].
  rewrite !elem_of_ambiguous.
  assert (len (cell (aids b) d col) = len (cell (aids a) c col)) as ->; [|done].
  unfold len. by rewrite (cell_iso p a b c d), length_map.
Qed.

(** ** Transpositions *)

Definition pkinds (a : agraph) (x y : Z) : list pybytes :=
  py_sorted bytes_leb (map (fun e => e.1.1)
    (List.filter (fun e => bool_decide (e.1.2 = x) && bool_decide (e.2 = y)) (aedges a))).

(** The transposition test of the source, on the abstract graph. *)
Definition twins (a : agraph) (x y : Z) : Prop :=
  alab a x = alab a y /\ pkinds a x x = pkinds a y y /\ pkinds a x y = pkinds a y x /\
  forall o, o ∈ aids a -> o <> x -> o <> y ->
    pkinds a x o = pkinds a y o /\ pkinds a o x = pkinds a o y.

Definition twinb (a : agraph) (x y : Z) : bool :=
  bool_decide (alab a x = alab a y) && bool_decide (pkinds a x x = pkinds a y y) &&
  bool_decide (pkinds a x y = pkinds a y x) &&
  forallb (fun o => bool_decide (o = x) || bool_decide (o = y) ||
                    bool_decide (pkinds a x o = pkinds a y o) && bool_decide (pkinds a o x = pkinds a o y))
          (aids a).

Lemma twinb_spec a x y : twinb a x y = true <-> twins a x y.
Proof.
  unfold twinb, twins. rewrite !andb_true_iff, forallb_forall, !bool_decide_eq_true.
  split.
  - intros [[[H1 H2] H3] H4]. split_and!; [done..|]. intros o Ho%list_elem_of_In N1 N2.
    specialize (H4 o Ho). rewrite !orb_true_iff, andb_true_iff, !bool_decide_eq_true in H4.
    naive_solver.
  - intros (H1 & H2 & H3 & H4). split_and!; [done..|]. intros o Ho%list_elem_of_In.
    rewrite !orb_true_iff, andb_true_iff, !bool_decide_eq_true.
    destruct (decide (o = x)); [by left; left|]. destruct (decide (o = y)); [by left; right|].
    right. by apply H4.
Qed.

Lemma yields_others_agree index a x y l :
  implements index a ->
  yields (others_agree index x y l)
    (Ok (forallb (fun o => bool_decide (o = x) || bool_decide (o = y) ||
       bool_decide (pkinds a x o = pkinds a y o) && bool_decide (pkinds a o x = pkinds a o y)) l)).
Proof.
  intros Himp. pose proof (imp_pairs _ _ Himp) as Hp.
  induction l as [|o l IH]; cbn; [apply yields_ret|]. yields_step.
  rewrite !Hp. fold (pkinds a x o) (pkinds a y o) (pkinds a o x) (pkinds a o y).
  destruct (bool_decide (o = x)), (bool_decide (o = y)),
    (bool_decide (pkinds a x o = pkinds a y o)), (bool_decide (pkinds a o x = pkinds a o y));
    cbn; try apply yields_ret; apply IH.
Qed.

(** Decide the first test, in every syntactic variant of its instance. *)
Ltac decide_both :=
  match goal with
  | |- context [@bool_decide ?P _] =>
      let E := fresh "E" in
      destruct (decide P) as [E|E];
      repeat match goal with
      | |- context [@bool_decide ?Q ?d] =>
          first [rewrite (@bool_decide_eq_true_2 Q d E) | rewrite (@bool_decide_eq_false_2 Q d E)]
      end
  end.

Lemma yields_swap index a x y :
  implements index a -> x ∈ aids a -> y ∈ aids a ->
  yields (swap_is_automorphism index x y) (Ok (twinb a x y)).
Proof.
  intros Himp Hx Hy. unfold swap_is_automorphism, twinb.
  rewrite !(imp_labels _ _ Himp) by done.
  change (default [] (Some (alab a x))) with (alab a x).
  change (default [] (Some (alab a y))) with (alab a y).
  rewrite !(imp_pairs _ _ Himp). fold (pkinds a x x) (pkinds a y y) (pkinds a x y) (pkinds a y x).
  do 3 (decide_both; cbn [negb andb]; [|rewrite ?andb_false_r; apply yields_ret]).
  rewrite (imp_order _ _ Himp).
  by apply yields_others_agree.
Qed.

Lemma twins_refl a x : twins a x x.
Proof. split_and!; done. Qed.

Lemma twins_sym a x y : twins a x y -> twins a y x.
Proof.
  intros (H1 & H2 & H3 & H4). split_and!; [done..|]. intros o Ho N1 N2.
  by destruct (H4 o Ho N2 N1).
Qed.

Lemma twins_trans a x y z :
  x ∈ aids a -> y ∈ aids a -> z ∈ aids a -> twins a x y -> twins a y z -> twins a x z.
Proof.
  intros Hx Hy Hz Hxy Hyz.
  destruct (decide (x = y)) as [->|Nxy]; [done|]. destruct (decide (y = z)) as [->|Nyz]; [done|].
  destruct (decide (x = z)) as [->|Nxz]; [apply twins_refl|].
  destruct Hxy as (A1 & A2 & A3 & A4), Hyz as (B1 & B2 & B3 & B4).
  destruct (A4 z Hz) as [C1 C2]; [done..|]. destruct (B4 x Hx) as [D1 D2]; [done..|].
  split_and!; [congruence..|]. intros o Ho N1 N2. destruct (decide (o = y)) as [->|N3].
  - split; congruence.
  - destruct (A4 o Ho) as [E1 E2]; [done..|]. destruct (B4 o Ho) as [F1 F2]; [done..|].
    split; congruence.
Qed.

(** The transposition of two ids. *)
Definition swap (x y n : Z) : Z := if decide (n = x) then y else if decide (n = y) then x else n.

Lemma swap_invol x y n : swap x y (swap x y n) = n.
Proof. unfold swap. repeat case_decide; congruence. Qed.

Lemma swap_l x y : swap x y x = y.
Proof. unfold swap. by rewrite decide_True. Qed.
Lemma swap_r x y : swap x y y = x.
Proof. unfold swap. case_decide; [done|]. by rewrite decide_True. Qed.
Lemma swap_ne x y n : n <> x -> n <> y -> swap x y n = n.
Proof. intros. unfold swap. by rewrite !decide_False. Qed.

Lemma swap_elem a x y n : x ∈ aids a -> y ∈ aids a -> swap x y n ∈ aids a <-> n ∈ aids a.
Proof. intros Hx Hy. unfold swap. repeat case_decide; subst; done. Qed.

Lemma pkinds_outside a u v : awf a -> ~ (u ∈ aids a /\ v ∈ aids a) -> pkinds a u v = [].
Proof.
  intros Hwf Hn. unfold pkinds. rewrite (filter_ext_in _ (fun _ => false)).
  { replace (List.filter _ _) with (@nil (pybytes * Z * Z)); [done|]. clear. by induction (aedges a). }
  intros e He%list_elem_of_In. destruct (ends_in _ Hwf _ He).
  repeat case_bool_decide; cbn; try done. exfalso. apply Hn. subst. done.
Qed.

(** The transposition of twins preserves the edges between any two nodes. *)
Lemma twins_kinds a x y u v :
  awf a -> x ∈ aids a -> y ∈ aids a -> twins a x y ->
  pkinds a (swap x y u) (swap x y v) = pkinds a u v.
Proof.
  intros Hwf Hx Hy (H1 & H2 & H3 & H4).
  destruct (decide (u ∈ aids a /\ v ∈ aids a)) as [[Hu Hv]|Hn].
  - unfold swap. repeat case_decide; subst; try done; try congruence;
      try (by destruct (H4 v)); try (by destruct (H4 u)).
  - rewrite !pkinds_outside; [done|done|done|done|]. by rewrite !swap_elem.
Qed.

#[local] Instance edge_tuple_eq_dec : EqDecision (pybytes * Z * Z) := _.

Lemma count_by_kinds a k u v :
  count_occ edge_tuple_eq_dec (aedges a) (k, u, v) = count_occ (decide_rel (=)) (pkinds a u v) k.
Proof.
  unfold pkinds.
  rewrite (proj1 (Permutation_count_occ _ _ _) (py_sorted_perm bytes_leb _) k).
  induction (aedges a) as [|[[k' u'] v'] l IH]; [done|]. cbn.
  repeat case_bool_decide; cbn; rewrite ?IH; repeat case_match; try done; congruence.
Qed.

Lemma count_occ_map_invol (f : pybytes * Z * Z -> pybytes * Z * Z) l x :
  (forall e, f (f e) = e) ->
  count_occ edge_tuple_eq_dec (map f l) x = count_occ edge_tuple_eq_dec l (f x).
Proof.
  intros Hf. induction l as [|y l IH]; [done|]. cbn. rewrite IH.
  repeat case_match; try done; exfalso; congruence.
Qed.

(** The certificate is sound: twins are exchanged by an automorphism. *)
Lemma twins_automorphism a x y :
  awf a -> x ∈ aids a -> y ∈ aids a -> twins a x y -> aiso (swap x y) a a.
Proof.
  intros Hwf Hx Hy Ht. split.
  - intros u v _ _ E. by rewrite <-(swap_invol x y u), E, swap_invol.
  - apply NoDup_Permutation.
    + apply NoDup_fmap_2; [|apply Hwf]. intros u v E. by rewrite <-(swap_invol x y u), E, swap_invol.
    + apply Hwf.
    + intros n. rewrite list_elem_of_fmap. split.
      * intros (m & -> & Hm). by apply swap_elem.
      * intros Hn. exists (swap x y n). rewrite swap_invol. by rewrite swap_elem.
  - intros n Hn. unfold swap. destruct Ht as (H1 & _). repeat case_decide; by subst.
  - apply (Permutation_count_occ edge_tuple_eq_dec). intros [[k u] v].
    rewrite count_occ_map_invol.
    + unfold erename; cbn. by rewrite !count_by_kinds, twins_kinds.
    + intros [[k' u'] v']. unfold erename; cbn. by rewrite !swap_invol.
Qed.

Lemma aiso_compose p q a b c : aiso p a b -> aiso q b c -> aiso (fun n => q (p n)) a c.
Proof.
  intros [I1 I2 I3 I4] [J1 J2 J3 J4].
  assert (Hp : forall n, n ∈ aids a -> p n ∈ aids b).
  { intros n Hn. rewrite <-I2. apply list_elem_of_fmap. eauto. }
  split.
  - intros x y Hx Hy E. apply I1; [done..|]. apply J1; auto.
  - rewrite <-J2, <-I2, map_map. done.
  - intros n Hn. rewrite J3 by auto. by apply I3.
  - rewrite <-J4, <-I4, map_map. done.
Qed.

Lemma twins_iso p a b x y :
  awf a -> aiso p a b -> x ∈ aids a -> y ∈ aids a -> twins a x y <-> twins b (p x) (p y).
Proof.
  intros Hwf Hiso Hx Hy.
  assert (Hk : forall u v, u ∈ aids a -> v ∈ aids a -> pkinds b (p u) (p v) = pkinds a u v).
  { intros u v Hu Hv. unfold pkinds. apply py_sorted_perm_eq; [apply _..|].
    rewrite <-(filter_perm _ _ _ (iso_edges _ _ _ Hiso)), filter_map_swap, map_map. cbn.
    apply reflexive_eq. f_equal. apply filter_ext_in. intros e He%list_elem_of_In.
    destruct (ends_in _ Hwf _ He). f_equal; apply bool_decide_ext; (split; [|by intros ->]);
      by apply (iso_inj _ _ _ Hiso). }
  assert (Hids : forall o, o ∈ aids b <-> exists o', o = p o' /\ o' ∈ aids a).
  { intros o. by rewrite <-(iso_ids _ _ _ Hiso), list_elem_of_fmap. }
  unfold twins. rewrite !(iso_lab _ _ _ Hiso), !Hk by done. split.
  - intros (H1 & H2 & H3 & H4). split_and!; [done..|].
    intros o (o' & -> & Ho)%Hids N1 N2. rewrite !Hk by done. apply H4; congruence.
  - intros (H1 & H2 & H3 & H4). split_and!; [done..|]. intros o Ho N1 N2.
    rewrite <-!Hk by done. apply H4; [apply Hids; eauto|..];
      intros E; [apply N1|apply N2]; by apply (iso_inj _ _ _ Hiso).
Qed.

(** ** Representatives of a cell *)

Definition add_rep (a : agraph) (reps : list Z) (n : Z) : list Z :=
  if existsb (twinb a n) reps then reps else reps ++ [n].

Definition reps (a : agraph) (ns : list Z) : list Z := fold_left (add_rep a) ns [].

(** [rs] represents [ns]: a set of pairwise inequivalent nodes of [ns] that
    meets every class. *)
Record represents (a : agraph) (ns rs : list Z) : Prop := {
  rp_sub : forall r, r ∈ rs -> r ∈ ns;
  rp_cover : forall n, n ∈ ns -> exists r, r ∈ rs /\ twins a n r;
  rp_apart : forall r s, r ∈ rs -> s ∈ rs -> twins a r s -> r = s;
  rp_nodup : NoDup rs
}.

Lemma existsb_twinb a n rs : existsb (twinb a n) rs = true <-> exists r, r ∈ rs /\ twins a n r.
Proof.
  rewrite existsb_exists. split; intros (r & H1 & H2); exists r.
  - by rewrite list_elem_of_In, <-twinb_spec.
  - by rewrite <-list_elem_of_In, twinb_spec.
Qed.

Lemma add_rep_represents a ns rs n :
  n ∉ ns -> represents a ns rs -> represents a (ns ++ [n]) (add_rep a rs n).
Proof.
  intros Hn [H1 H2 H3 H4]. unfold add_rep.
  destruct (existsb (twinb a n) rs) eqn:E.
  - apply existsb_twinb in E as (r & Hr & Ht). split; [set_solver| |done..].
    intros m [Hm|Hm]%elem_of_app; [auto|]. apply list_elem_of_singleton in Hm as ->. eauto.
  - assert (Hno : forall r, r ∈ rs -> ~ twins a n r).
    { intros r Hr Ht. assert (existsb (twinb a n) rs = true); [|congruence].
      apply existsb_twinb. eauto. }
    split.
    + set_solver.
    + intros m [Hm|Hm]%elem_of_app.
      * destruct (H2 m Hm) as (r & Hr & Ht). exists r. set_solver.
      * apply list_elem_of_singleton in Hm as ->. exists n. split; [set_solver|apply twins_refl].
    + intros r s Hr Hs Ht. apply elem_of_app in Hr, Hs. rewrite !list_elem_of_singleton in *.
      destruct Hr as [Hr| ->], Hs as [Hs| ->]; [auto| | |done].
      * exfalso. apply (Hno r Hr). by apply twins_sym.
      * exfalso. by apply (Hno s Hs).
    + apply NoDup_app. split_and!; [done| |apply NoDup_singleton].
      intros x Hx ->%list_elem_of_singleton. by apply Hn, H1.
Qed.

Lemma reps_represents a ns : NoDup ns -> represents a ns (reps a ns).
Proof.
  unfold reps. intros Hnd.
  assert (H : forall ms done_ rs, NoDup (done_ ++ ms) -> represents a done_ rs ->
    represents a (done_ ++ ms) (fold_left (add_rep a) ms rs)).
  { induction ms as [|m ms IH]; intros d rs Hd Hr; cbn; [by rewrite app_nil_r|].
    rewrite cons_middle, app_assoc in *. apply IH; [done|]. apply add_rep_represents; [|done].
    apply NoDup_app in Hd as (Hd & _). apply NoDup_app in Hd as (_ & Hd & _).
    intros Hm. by apply (Hd m Hm), list_elem_of_singleton. }
  apply (H ns [] []); [done|]. split; try set_solver; try constructor.
Qed.

Lemma yields_reps index a ns :
  implements index a -> (forall n, n ∈ ns -> n ∈ aids a) ->
  yields (foldM (add_representative index) [] ns) (Ok (reps a ns)).
Proof.
  intros Himp. unfold reps.
  assert (H : forall rs, (forall n, n ∈ rs -> n ∈ aids a) -> (forall n, n ∈ ns -> n ∈ aids a) ->
    yields (foldM (add_representative index) rs ns) (Ok (fold_left (add_rep a) ns rs))).
  { induction ns as [|n ns IH]; intros rs Hr Hn; cbn; [apply yields_ret|].
    eapply (yields_bind _ _ (add_rep a rs n)).
    - unfold add_representative, add_rep. eapply yields_bind.
      { apply (yields_anyM _ (twinb a n)). intros r Hin. apply yields_swap; [done| |auto].
        apply Hn. left. }
      destruct (existsb _ _); apply yields_ret.
    - apply IH; [|set_solver]. unfold add_rep. destruct (existsb _ _); [done|].
      intros m [Hm|Hm]%elem_of_app; [auto|]. apply list_elem_of_singleton in Hm as ->. apply Hn. left. }
  intros Hn. apply H; [set_solver|done].
Qed.

(** ** Markers *)

(** The markers given so far: distinct positive numbers on nodes of the graph. *)
Record marking (a : agraph) (m : gmap Z Z) : Prop := {
  mk_dom : forall n v, m !! n = Some v -> n ∈ aids a /\ 1 <= v <= Z.of_nat (size m);
  mk_inj : forall n n' v, m !! n = Some v -> m !! n' = Some v -> n = n'
}.

Lemma marking_empty a : marking a ∅.
Proof. split; intros *; by rewrite lookup_empty. Qed.

Lemma marking_size a m : awf a -> marking a m -> (size m <= length (aids a))%nat.
Proof.
  intros Hwf [Hd _]. rewrite <-(size_dom (D := gset Z)).
  rewrite <-(size_list_to_set (C := gset Z) (aids a)) by apply Hwf.
  apply subseteq_size. intros n [v Hv]%elem_of_dom. apply elem_of_list_to_set. by destruct (Hd n v Hv).
Qed.

Lemma marking_mark a m n :
  marking a m -> n ∈ aids a -> m !! n = None ->
  marking a (mark m n) /\ size (mark m n) = S (size m).
Proof.
  intros [Hd Hi] Hn Hnone. unfold mark.
  assert (Hs : size (<[n := Z.of_nat (size m) + 1]> m) = S (size m)) by by apply map_size_insert_None.
  split; [|done]. split.
  - intros k v. rewrite Hs. destruct (decide (k = n)) as [->|Hne].
    + rewrite lookup_insert_eq. intros [= <-]. split; [done|lia].
    + rewrite lookup_insert_ne by done. intros Hv%Hd. split; [apply Hv|lia].
  - intros k k' v. destruct (decide (k = n)) as [->|H1], (decide (k' = n)) as [->|H2];
      rewrite ?lookup_insert_eq, ?lookup_insert_ne by done; [done| | |apply Hi].
    + intros [= <-] Hv%Hd. lia.
    + intros Hv%Hd [= <-]. lia.
Qed.

Lemma marking_u64 a m n : awf a -> marking a m -> u64_ok (default 0 (m !! n)).
Proof.
  intros Hwf Hm. pose proof (marking_size a m Hwf Hm) as Hs.
  pose proof (awf_nodes_sized _ Hwf) as Hl. unfold len in Hl. unfold u64_ok.
  destruct (m !! n) as [v|] eqn:E; cbn -[Z.pow]; [|lia].
  destruct (mk_dom _ _ Hm n v E) as [_ ?]. lia.
Qed.

(** A marked node is alone in its cell, so the nodes of an ambiguous cell are
    unmarked. *)
Lemma ambiguous_unmarked a m n t :
  awf a -> marking a m -> target (aids a) (prefine a m) = Some t ->
  n ∈ cell (aids a) (prefine a m) t.2 -> m !! n = None.
Proof.
  intros Hwf Hm Ht Hn. destruct (m !! n) as [v|] eqn:E; [exfalso|done].
  apply target_Some in Ht as [H1 H2]. rewrite H1 in H2.
  assert (Hall : forall k, k ∈ cell (aids a) (prefine a m) t.2 -> k = n).
  { intros k Hk. apply elem_of_cell in Hk as [Hk Ek], Hn as [Hn En].
    destruct (prefine_separates a m k n) as [_ Hmk]; [done..|congruence|].
    unfold u64_bytes in Hmk. apply to_bytes_inj in Hmk; [|by apply (marking_u64 a)..].
    rewrite E in Hmk. cbn in Hmk. destruct (m !! k) as [w|] eqn:Ew; cbn in Hmk.
    - unfold id in Hmk. subst w. by eapply (mk_inj _ _ Hm).
    - destruct (mk_dom _ _ Hm n v E). lia. }
  assert (Hnd : NoDup (cell (aids a) (prefine a m) t.2)).
  { apply NoDup_ListNoDup, List.NoDup_filter, NoDup_ListNoDup, Hwf. }
  destruct (cell (aids a) (prefine a m) t.2) as [|x [|y l]]; [done|done|].
  apply NoDup_cons in Hnd as [Hx _]. apply Hx.
  rewrite (Hall x), (Hall y) by set_solver. left.
Qed.

(** ** The search tree *)

Definition leaf_order (I : list Z) (colors : gmap Z Z) : list Z :=
  py_sorted (fun x y => color_of colors x <=? color_of colors y) I.

Definition cell_reps (a : agraph) (colors : gmap Z Z) (c : Z) : list Z :=
  reps a (py_sorted Z.leb (cell (aids a) colors c)).

(** The leaves below a marking, as candidates in the order the search meets
    them, and the number of states entered. *)
Fixpoint explore (fuel : nat) (a : agraph) (m : gmap Z Z) : list candidate * nat :=
  match fuel with
  | O => ([], O)
  | S fuel' =>
      let colors := prefine a m in
      match target (aids a) colors with
      | None => let o := leaf_order (aids a) colors in ([(aencode a o, o)], 1%nat)
      | Some t =>
          let subs := map (fun r => explore fuel' a (mark m r)) (cell_reps a colors t.2) in
          (concat (map fst subs), S (sum_list (map snd subs)))
      end
  end.

Definition depth (a : agraph) (m : gmap Z Z) : nat := S (length (aids a) - size m).

Lemma cell_reps_represent a colors c :
  awf a -> represents a (cell (aids a) colors c) (cell_reps a colors c).
Proof.
  intros Hwf. unfold cell_reps. set (ns := cell _ _ _).
  destruct (reps_represents a (py_sorted Z.leb ns)) as [H1 H2 H3 H4].
  { rewrite py_sorted_perm. apply NoDup_ListNoDup, List.NoDup_filter, NoDup_ListNoDup, Hwf. }
  split; [|..|done|done].
  - intros r Hr. by apply py_sorted_elem with Z.leb, H1.
  - intros n Hn. apply H2. by apply py_sorted_elem.
Qed.

(** A representative of the target cell leads to a deeper marking. *)
Lemma rep_step a m t r :
  awf a -> marking a m -> target (aids a) (prefine a m) = Some t ->
  r ∈ cell_reps a (prefine a m) t.2 ->
  r ∈ cell (aids a) (prefine a m) t.2 /\ r ∈ aids a /\ m !! r = None /\
  marking a (mark m r) /\ (depth a (mark m r) < depth a m)%nat.
Proof.
  intros Hwf Hm Ht Hr. apply (rp_sub _ _ _ (cell_reps_represent a _ _ Hwf)) in Hr.
  pose proof Hr as [Hin _]%elem_of_cell. pose proof (ambiguous_unmarked a m r t Hwf Hm Ht Hr) as Hn.
  destruct (marking_mark a m r Hm Hin Hn) as [Hm' Hs]. split_and!; [done..|].
  pose proof (marking_size _ _ Hwf Hm'). unfold depth. lia.
Qed.

Lemma leaf_order_perm I colors : leaf_order I colors ≡ₚ I.
Proof. apply py_sorted_perm. Qed.

(** Every candidate is a complete order with its encoding. *)
Lemma explore_sound fuel : forall a m c,
  c ∈ (explore fuel a m).1 -> c.2 ≡ₚ aids a /\ c.1 = aencode a c.2.
Proof.
  induction fuel as [|fuel IH]; intros a m c; cbn; [by intros ?%elem_of_nil|].
  destruct (target _ _) as [t|]; cbn.
  - rewrite map_map.
    intros Hc. apply list_elem_of_In, in_concat in Hc as (cs & Hcs & Hc).
    apply list_elem_of_In, list_elem_of_fmap in Hcs as (r & -> & _).
    apply list_elem_of_In in Hc. eauto.
  - intros ->%list_elem_of_singleton. cbn. split; [apply leaf_order_perm|done].
Qed.

Lemma cell_reps_nonempty a m t :
  awf a -> target (aids a) (prefine a m) = Some t -> cell_reps a (prefine a m) t.2 <> [].
Proof.
  intros Hwf Ht E. apply target_Some in Ht as [H1 H2].
  destruct (cell (aids a) (prefine a m) t.2) as [|n l] eqn:Ec; [rewrite H1 in H2; done|].
  destruct (rp_cover _ _ _ (cell_reps_represent a (prefine a m) t.2 Hwf) n) as (r & Hr & _).
  { rewrite Ec. left. }
  rewrite E in Hr. by apply elem_of_nil in Hr.
Qed.

(** With enough fuel the tree has a leaf. *)
Lemma explore_nonempty fuel : forall a m,
  awf a -> marking a m -> (depth a m <= fuel)%nat -> (explore fuel a m).1 <> [].
Proof.
  induction fuel as [|fuel IH]; intros a m Hwf Hm Hf; [unfold depth in Hf; lia|]. cbn.
  destruct (target _ _) as [t|] eqn:Ht; [|done]. cbn.
  pose proof (cell_reps_nonempty a m t Hwf Ht) as Hne.
  destruct (cell_reps a (prefine a m) t.2) as [|r rs] eqn:Er; [done|]. cbn.
  destruct (rep_step a m t r) as (_ & _ & _ & Hm' & Hd); [done..|rewrite Er; left|].
  intros [E _]%app_nil. by apply (IH a (mark m r) Hwf Hm'); [lia|].
Qed.

(** ** The depth-first loop follows the tree *)

Definition betters (cs : list candidate) (best : option candidate) : option candidate :=
  fold_left (fun b c => better c b) cs best.

Lemma explore_branch a d m t : target (aids a) (prefine a m) = Some t ->
  explore (S d) a m =
  (concat (map (fun m' => (explore d a m').1) (map (mark m) (cell_reps a (prefine a m) t.2))),
   S (sum_list (map (fun m' => (explore d a m').2) (map (mark m) (cell_reps a (prefine a m) t.2))))).
Proof. intros Ht. cbn -[target]. rewrite Ht, !map_map. done. Qed.

Lemma explore_leaf a d m : target (aids a) (prefine a m) = None ->
  explore (S d) a m = ([(aencode a (leaf_order (aids a) (prefine a m)),
                         leaf_order (aids a) (prefine a m))], 1%nat).
Proof. intros Ht. cbn -[target]. by rewrite Ht. Qed.

Section simulation.
Context (g : CPG) (index : _GraphIndex).
Context (Hg : valid_cpg g) (Hsz : sized g) (Himp : implements index (abs g)).
Let a : agraph := abs g.
Let Hwf : awf a := abs_wf g Hg Hsz.

Lemma ex_yields {A B} (m : M A) (f : A -> M B) L n v r n' :
  yields m (Ok v) -> executes (f v) L n r n' -> executes (bind m f) L n r n'.
Proof. intros Hm Hf. eapply ex_bind; [apply Hm|exact Hf]. Qed.

(** One iteration on a leaf. *)
Lemma search_leaf fuel m rest best L n r n' :
  marking a m -> target (aids a) (prefine a m) = None -> n <> L ->
  let o := leaf_order (aids a) (prefine a m) in
  executes (search_loop fuel g index rest (better (aencode a o, o) best)) L (n + 1) r n' ->
  executes (search_loop (S fuel) g index (m :: rest) best) L n r n'.
Proof.
  intros Hm Ht Hn o Hk. cbn -[target].
  eapply ex_bind; [by apply ex_enter_ok|].
  eapply ex_yields; [apply yields_refine; [done..|]; intros; by apply (marking_u64 a)|].
  cbv zeta. rewrite (imp_order _ _ Himp). fold a.
  change (py_min _ _) with (target (aids a) (prefine a m)). rewrite Ht.
  fold (leaf_order (aids a) (prefine a m)). fold o.
  eapply ex_yields; [apply yields_encode_graph; [done..|]|exact Hk].
  symmetry. apply leaf_order_perm.
Qed.

Lemma yields_push m rest rs :
  yields (foldM (fun p node => check ;;; ret (mark m node :: p)) rest (reverse rs))
    (Ok (map (mark m) rs ++ rest)).
Proof.
  assert (H : forall ns p, yields (foldM (fun p node => check ;;; ret (mark m node :: p)) p ns)
    (Ok (map (mark m) (reverse ns) ++ p))).
  { induction ns as [|x ns IH]; intros p; cbn [foldM]; [apply yields_ret|].
    eapply yields_bind; [yields_step; apply yields_ret|]. rewrite reverse_cons, map_app, <-app_assoc.
    apply IH. }
  rewrite <-(reverse_involutive rs) at 2. apply H.
Qed.

(** One iteration on an ambiguous colouring. *)
Lemma search_branch fuel m rest best L n r n' t :
  marking a m -> target (aids a) (prefine a m) = Some t -> n <> L ->
  executes (search_loop fuel g index
    (map (mark m) (cell_reps a (prefine a m) t.2) ++ rest) best) L (n + 1) r n' ->
  executes (search_loop (S fuel) g index (m :: rest) best) L n r n'.
Proof.
  intros Hm Ht Hn Hk. cbn -[target].
  eapply ex_bind; [by apply ex_enter_ok|].
  eapply ex_yields; [apply yields_refine; [done..|]; intros; by apply (marking_u64 a)|].
  cbv zeta. rewrite (imp_order _ _ Himp). fold a.
  change (py_min _ _) with (target (aids a) (prefine a m)). rewrite Ht.
  rewrite color_cells_lookup.
  eapply ex_yields; [apply yields_reps; [done|]|].
  { intros x Hx%py_sorted_elem. by apply elem_of_cell in Hx as [? _]. }
  eapply ex_yields; [apply yields_push|]. exact Hk.
Qed.

Lemma search_exhausted fuel m rest best L :
  executes (search_loop (S fuel) g index (m :: rest) best) L L (Raise BudgetExhausted) L.
Proof. cbn. eapply ex_bind_raise, ex_enter_exhausted. Qed.

(** Within the limit, the loop consumes a subtree and its candidates. *)
Definition consumes (d : nat) : Prop := forall m rest best L n r n' fuel,
  marking a m -> (depth a m <= d)%nat -> n + Z.of_nat (explore d a m).2 <= L ->
  executes (search_loop fuel g index rest (betters (explore d a m).1 best)) L
    (n + Z.of_nat (explore d a m).2) r n' ->
  executes (search_loop ((explore d a m).2 + fuel) g index (m :: rest) best) L n r n'.

Lemma consumes_list d (ms : list (gmap Z Z)) : consumes d -> forall rest best L n r n' fuel,
  (forall m, m ∈ ms -> marking a m /\ (depth a m <= d)%nat) ->
  n + Z.of_nat (sum_list (map (fun m => (explore d a m).2) ms)) <= L ->
  executes (search_loop fuel g index rest (betters (concat (map (fun m => (explore d a m).1) ms)) best)) L
    (n + Z.of_nat (sum_list (map (fun m => (explore d a m).2) ms))) r n' ->
  executes (search_loop (sum_list (map (fun m => (explore d a m).2) ms) + fuel) g index (ms ++ rest) best) L n r n'.
Proof.
  intros Hd. induction ms as [|m ms IH]; intros rest best L n r n' fuel Hms HL Hk; cbn in *.
  { by rewrite Z.add_0_r in Hk. }
  destruct (Hms m) as [Hm Hdm]; [left|]. rewrite <-Nat.add_assoc.
  apply Hd; [done..|lia|]. apply IH; [intros; apply Hms; by right|lia|].
  unfold betters in *. rewrite fold_left_app in Hk.
  by replace (n + Z.of_nat (explore d a m).2 + Z.of_nat (sum_list (map (fun m => (explore d a m).2) ms)))
    with (n + Z.of_nat ((explore d a m).2 + sum_list (map (fun m => (explore d a m).2) ms))) by lia.
Qed.

Lemma children_ok m t d : marking a m -> target (aids a) (prefine a m) = Some t ->
  (depth a m <= S d)%nat ->
  forall m', m' ∈ map (mark m) (cell_reps a (prefine a m) t.2) -> marking a m' /\ (depth a m' <= d)%nat.
Proof.
  intros Hm Ht Hd m' (r & -> & Hr)%list_elem_of_fmap.
  destruct (rep_step a m t r) as (_ & _ & _ & Hm' & Hlt); [done..|]. split; [done|lia].
Qed.

Lemma explore_consumes d : consumes d.
Proof.
  induction d as [|d IH]; intros m rest best L n r n' fuel Hm Hd HL Hk; [unfold depth in Hd; lia|].
  destruct (target (aids a) (prefine a m)) as [t|] eqn:Ht.
  - rewrite (explore_branch a d m t Ht) in *. cbn [fst snd] in *. cbn [Nat.add].
    eapply search_branch; [done..|lia|].
    eapply consumes_list; [done|by eapply children_ok|lia|].
    by replace (n + 1 + Z.of_nat (sum_list (map (fun m' => (explore d a m').2)
        (map (mark m) (cell_reps a (prefine a m) t.2)))))
      with (n + Z.of_nat (S (sum_list (map (fun m' => (explore d a m').2)
        (map (mark m) (cell_reps a (prefine a m) t.2)))))) by lia.
  - rewrite (explore_leaf a d m Ht) in *. cbn [fst snd] in *. cbn [Nat.add].
    by eapply search_leaf; [..|lia|].
Qed.

(** Beyond the limit, the loop raises [BudgetExhausted]. *)
Lemma exhausts_list d (ms : list (gmap Z Z)) rest best L n fuel :
  (forall m rest best n fuel, marking a m -> (depth a m <= d)%nat ->
    n <= L < n + Z.of_nat (explore d a m).2 -> (Z.to_nat (L - n) < fuel)%nat ->
    executes (search_loop fuel g index (m :: rest) best) L n (Raise BudgetExhausted) L) ->
  (forall m, m ∈ ms -> marking a m /\ (depth a m <= d)%nat) ->
  n <= L < n + Z.of_nat (sum_list (map (fun m => (explore d a m).2) ms)) ->
  (Z.to_nat (L - n) < fuel)%nat ->
  executes (search_loop fuel g index (ms ++ rest) best) L n (Raise BudgetExhausted) L.
Proof.
  intros Hd. revert best n fuel. induction ms as [|m ms IH]; intros best n fuel Hms HL Hf; cbn in *; [lia|].
  destruct (Hms m) as [Hm Hdm]; [left|].
  destruct (decide (L < n + Z.of_nat (explore d a m).2)); [apply Hd; [done..|lia|done]|].
  replace fuel with ((explore d a m).2 + (fuel - (explore d a m).2))%nat by lia.
  apply (explore_consumes d); [done..|lia|]. apply IH; [intros; apply Hms; by right|lia|lia].
Qed.

Lemma explore_exhausts d : forall m rest best L n fuel,
  marking a m -> (depth a m <= d)%nat -> n <= L < n + Z.of_nat (explore d a m).2 ->
  (Z.to_nat (L - n) < fuel)%nat ->
  executes (search_loop fuel g index (m :: rest) best) L n (Raise BudgetExhausted) L.
Proof.
  induction d as [|d IH]; intros m rest best L n fuel Hm Hd HL Hf; [unfold depth in Hd; lia|].
  destruct fuel as [|fuel]; [lia|].
  destruct (decide (n = L)) as [->|Hne]; [apply search_exhausted|].
  destruct (target (aids a) (prefine a m)) as [t|] eqn:Ht.
  - rewrite (explore_branch a d m t Ht) in HL. cbn [fst snd] in HL.
    eapply search_branch; [done..|]. eapply exhausts_list; [|by eapply children_ok|lia|lia].
    intros; by apply IH.
  - exfalso. rewrite (explore_leaf a d m Ht) in HL. cbn [snd] in HL. lia.
Qed.
End simulation.

(** ** Equivariance of the tree *)

Definition codes (cs : list candidate) : list pybytes := map fst cs.

Lemma leaf_order_iso p a b c d :
  awf a -> aiso p a b -> matches p a c d -> inj_on (color_of c) (aids a) ->
  leaf_order (aids b) d = map p (leaf_order (aids a) c).
Proof.
  intros Hwf Hiso Hm Hinj. unfold leaf_order.
  assert (E : py_sorted Z.leb (map (color_of d) (aids b)) = py_sorted Z.leb (map (color_of c) (aids a))).
  { apply py_sorted_perm_eq; [apply _..|]. rewrite <-(iso_ids _ _ _ Hiso), map_map.
    apply reflexive_eq, map_ext_in. intros n Hn%list_elem_of_In. by apply Hm. }
  rewrite (py_sorted_map (fun x y => color_of d x <=? color_of d y) Z.leb (color_of d)) in E by done.
  rewrite (py_sorted_map (fun x y => color_of c x <=? color_of c y) Z.leb (color_of c)) in E by done.
  set (ob := py_sorted _ (aids b)) in *. set (oa := py_sorted _ (aids a)) in *.
  assert (Hob : forall x, x ∈ ob -> exists y, x = p y /\ y ∈ aids a).
  { intros x Hx%py_sorted_elem. by rewrite <-(iso_ids _ _ _ Hiso), list_elem_of_fmap in Hx. }
  assert (Hoa : forall x, x ∈ oa -> x ∈ aids a) by (intros x; apply py_sorted_elem).
  clearbody ob oa. revert ob E Hob. induction oa as [|x oa IH]; intros [|y ob] E Hob; try done.
  cbn in E. injection E as E1 E2. cbn. f_equal.
  - destruct (Hob y) as (z & -> & Hz); [left|]. rewrite Hm in E1 by done. f_equal.
    apply Hinj; [done|apply Hoa; left|done].
  - apply IH; [intros; apply Hoa; by right|done|intros; apply Hob; by right].
Qed.

Lemma sum_list_Forall2 {A B} (R : A -> B -> Prop) (f : A -> nat) (h : B -> nat) l k :
  Forall2 R l k -> (forall x y, R x y -> f x = h y) -> sum_list (map f l) = sum_list (map h k).
Proof. intros HF HR. induction HF; cbn; [done|]. rewrite IHHF. f_equal. by apply HR. Qed.

Lemma sum_list_perm (l k : list nat) : l ≡ₚ k -> sum_list l = sum_list k.
Proof. induction 1; cbn; lia. Qed.

Lemma elem_codes_concat {A} (f : A -> list candidate) l x :
  x ∈ codes (concat (map f l)) <-> exists y, y ∈ l /\ x ∈ codes (f y).
Proof.
  unfold codes. induction l as [|z l IH]; cbn.
  { split; [by intros ?%elem_of_nil|by intros (? & ?%elem_of_nil & _)]. }
  rewrite map_app, elem_of_app, IH. set_solver.
Qed.

(** Two isomorphic graphs with corresponding markings have the same number of
    search states and the same set of leaf encodings. *)
Lemma explore_iso fuel : forall p a b m m',
  awf a -> awf b -> aiso p a b -> marking a m -> marking b m' -> size m = size m' ->
  (forall n, n ∈ aids a -> m' !! p n = m !! n) -> (depth a m <= fuel)%nat ->
  (explore fuel b m').2 = (explore fuel a m).2 /\
  forall x, x ∈ codes (explore fuel b m').1 <-> x ∈ codes (explore fuel a m).1.
Proof.
  induction fuel as [|fuel IH]; intros p a b m m' Wa Wb Hiso Hm Hm' Hsz Hmm Hd; [done|].
  pose proof (prefine_iso p a b Wa Hiso m m' Hmm) as Hmatch.
  pose proof (target_iso p a b _ _ Hiso Hmatch) as Ht.
  destruct (target (aids a) (prefine a m)) as [t|] eqn:Ea.
  2:{ rewrite (explore_leaf a _ _ Ea), (explore_leaf b) by congruence. cbn [fst snd].
      split; [done|]. intros x. unfold codes; cbn [map fst].
      rewrite (leaf_order_iso p a b (prefine a m)); [|done..|by apply target_None; [apply Wa|]].
      rewrite (aencode_iso p a b); [done..|]. symmetry. apply leaf_order_perm. }
  rewrite (explore_branch a _ _ t Ea), (explore_branch b _ _ t) by congruence.
  cbn [fst snd]. rewrite !map_map.
  pose proof (cell_reps_represent a (prefine a m) t.2 Wa) as Ra.
  pose proof (cell_reps_represent b (prefine b m') t.2 Wb) as Rb.
  set (rsa := cell_reps a _ _) in *. set (rsb := cell_reps b _ _) in *.
  assert (Hcell : forall y, y ∈ cell (aids b) (prefine b m') t.2 <->
    exists x, y = p x /\ x ∈ cell (aids a) (prefine a m) t.2).
  { intros y. by rewrite (cell_iso p a b (prefine a m)), list_elem_of_fmap. }
  assert (Hina : forall x, x ∈ rsa -> x ∈ aids a /\ m !! x = None).
  { intros x Hx. destruct (rep_step a m t x) as (_ & ? & ? & _); auto. }
  assert (Hinb : forall y, y ∈ rsb -> y ∈ aids b /\ m' !! y = None).
  { intros y Hy. destruct (rep_step b m' t y) as (_ & ? & ? & _); auto. }
  assert (Hpa : forall x, x ∈ aids a -> p x ∈ aids b).
  { intros x Hx. rewrite <-(iso_ids _ _ _ Hiso). apply list_elem_of_fmap. eauto. }
  (* corresponding representatives are twins in b, so they have the same subtree *)
  assert (Hsub : forall x y, x ∈ rsa -> y ∈ rsb -> twins b (p x) y ->
    (explore fuel b (mark m' y)).2 = (explore fuel a (mark m x)).2 /\
    forall c, c ∈ codes (explore fuel b (mark m' y)).1 <-> c ∈ codes (explore fuel a (mark m x)).1).
  { intros x y Hx Hy Hxy. destruct (Hina x Hx) as [Hxa Hxm]. destruct (Hinb y Hy) as [Hyb Hym].
    destruct (rep_step a m t x) as (_ & _ & _ & Hmx & Hdx); [done..|].
    destruct (rep_step b m' t y) as (_ & _ & _ & Hmy & _); [done..|].
    pose proof (twins_automorphism b (p x) y Wb (Hpa x Hxa) Hyb Hxy) as Hauto.
    apply (IH (fun n => swap (p x) y (p n))); [done|done|by eapply aiso_compose|done|done| | |lia].
    - unfold mark. rewrite !map_size_insert_None by done. by rewrite Hsz.
    - intros n Hn. unfold mark. destruct (decide (n = x)) as [->|Hne].
      + rewrite swap_l, !lookup_insert_eq. by rewrite Hsz.
      + assert (p n <> p x) by (intros E; apply Hne; by apply (iso_inj _ _ _ Hiso)).
        rewrite (lookup_insert_ne m) by done. destruct (decide (p n = y)) as [<-|Hny].
        * rewrite swap_r, lookup_insert_ne by done. rewrite <-(Hmm n Hn), Hym.
          by rewrite Hmm.
        * rewrite swap_ne, lookup_insert_ne by done. by apply Hmm. }
  destruct (align (fun x y => y ∈ rsb /\ x ∈ rsa /\ twins b (p x) y) rsa rsb) as (rsb' & Hperm & HF).
  { apply Ra. } { apply Rb. }
  { intros x Hx. destruct (rp_cover _ _ _ Rb (p x)) as (y & Hy & Hty); [|eauto].
    apply Hcell. eexists. split; [done|]. by apply Ra. }
  { intros y Hy. pose proof (rp_sub _ _ _ Rb y Hy) as (x & -> & Hx)%Hcell.
    destruct (rp_cover _ _ _ Ra x Hx) as (r & Hr & Htr). exists r. split_and!; [done..|].
    apply twins_sym, twins_iso with a; [done..| | |done]; [by apply elem_of_cell in Hx as [? _]|].
    by apply Hina. }
  { intros x y y' Hx Hy Hy' (_ & _ & H1) (_ & _ & H2). apply (rp_apart _ _ _ Rb); [done..|].
    destruct (Hinb y Hy), (Hinb y' Hy'), (Hina x Hx).
    apply (twins_trans b y (p x) y'); [done|auto|done|by apply twins_sym|done]. }
  { intros x x' y Hx Hx' Hy (_ & _ & H1) (_ & _ & H2). apply (rp_apart _ _ _ Ra); [done..|].
    destruct (Hinb y Hy), (Hina x' Hx'), (Hina x Hx).
    apply (twins_iso p a b x x'); [done..|].
    apply (twins_trans b _ y _); [auto|done|auto|done|by apply twins_sym]. }
  split.
  - f_equal. rewrite <-(sum_list_perm _ _ (Permutation_map _ Hperm)). symmetry.
    eapply sum_list_Forall2; [exact HF|]. intros x y (Hy & Hx & Hxy). cbn. symmetry. by apply Hsub.
  - intros c. rewrite !elem_codes_concat. split.
    + intros (y & Hy & Hc). rewrite <-Hperm in Hy.
      apply Forall2_flip in HF. destruct (Forall2_elem_l _ _ _ y HF Hy) as (x & Hx & HR).
      destruct HR as (H1 & H2 & H3). exists x. split; [done|]. by apply (proj2 (Hsub x y H2 H1 H3)).
    + intros (x & Hx & Hc). destruct (Forall2_elem_l _ _ _ x HF Hx) as (y & Hy & HR).
      destruct HR as (H1 & H2 & H3). exists y. split; [done|]. by apply (proj2 (Hsub x y H2 H1 H3)).
Qed.
