(* ===== verification/Canonical.v ===== *)
(** * Correctness of [canonical_order] ([analysis/ordering.py])

    A completed strong result is a function of the isomorphism class of the
    graph, and determines it; a weak result is a function of the source; the
    clock can only turn a result into the deadline exception. *)
From stdpp Require Import base tactics list gmap strings.
From Stdlib Require Import ZArith QArith Lia.
From S2P Require Import Prelude PyData Sha256 Budget Cpg GraphSpec Ordering RefineSpec SearchSpec.

Open Scope Z_scope.
Open Scope budget_scope.

(** ** The best candidate *)

#[local] Instance candidate_leb_total : TotalLe candidate_leb := pair_leb_total _ _ _ _.
#[local] Instance candidate_leb_anti : AntiLe candidate_leb := pair_leb_anti _ _ _ _.

Lemma betters_spec cs : forall best c,
  betters cs best = Some c ->
  (best = Some c \/ c ∈ cs) /\
  (forall x, best = Some x \/ x ∈ cs -> candidate_leb c x = true).
Proof.
  induction cs as [|d cs IH]; intros best c H; cbn in H.
  { subst. split; [by left|]. intros x [[= ->]|?%elem_of_nil]; [apply leb_refl; apply _|done]. }
  apply IH in H as [H1 H2]. destruct best as [b|]; cbn in *.
  - destruct (candidate_leb b d) eqn:E.
    + split; [naive_solver set_solver|]. intros x [[= ->]|[->|Hx]%elem_of_cons]; auto.
      eapply leb_trans; [apply H2; by left|done].
    + assert (E' : candidate_leb d b = true) by by apply leb_total.
      split; [naive_solver set_solver|]. intros x [[= ->]|[->|Hx]%elem_of_cons]; auto.
      eapply leb_trans; [apply H2; by left|done].
  - split; [naive_solver set_solver|]. intros x [?|[->|Hx]%elem_of_cons]; [done|auto|auto].
Qed.

Lemma betters_Some cs : forall b, exists c, betters cs (Some b) = Some c.
Proof.
  induction cs as [|d cs IH]; intros b; cbn; [eauto|]. destruct (candidate_leb b d); apply IH.
Qed.

Definition best_of (cs : list candidate) : candidate := default ([], []) (betters cs None).

Lemma best_of_spec cs : cs <> [] ->
  betters cs None = Some (best_of cs) /\ best_of cs ∈ cs /\
  forall x, x ∈ cs -> bytes_leb (best_of cs).1 x.1 = true.
Proof.
  intros Hne. unfold best_of. destruct cs as [|d cs]; [done|].
  change (betters (d :: cs) None) with (betters cs (Some d)).
  destruct (betters_Some cs d) as [c Hc]. rewrite Hc. split; [done|].
  apply (betters_spec (d :: cs) None c) in Hc as [[?|H1] H2]; [done|].
  cbn. unfold id. split; [done|]. intros x Hx.
  assert (H : candidate_leb c x = true) by auto. unfold candidate_leb, pair_leb in H.
  by destruct (bytes_leb c.1 x.1).
Qed.

Lemma best_code_unique cs ds :
  cs <> [] -> ds <> [] -> (forall x, x ∈ codes cs <-> x ∈ codes ds) ->
  (best_of cs).1 = (best_of ds).1.
Proof.
  intros Hc Hd H. destruct (best_of_spec cs Hc) as (_ & C1 & C2).
  destruct (best_of_spec ds Hd) as (_ & D1 & D2). unfold codes in H.
  assert (H1 : (best_of cs).1 ∈ map fst ds) by (apply H, list_elem_of_fmap; eauto).
  assert (H2 : (best_of ds).1 ∈ map fst cs) by (apply H, list_elem_of_fmap; eauto).
  apply list_elem_of_fmap in H1 as (y & E1 & Hy), H2 as (x & E2 & Hx).
  apply (leb_anti (leb := bytes_leb)); [rewrite E2; by apply C2|rewrite E1; by apply D2].
Qed.

(** ** The pure result *)

(** The whole search tree of a graph: its leaves and its number of states. *)
Definition tree (g : CPG) : list candidate * nat := explore (depth (abs g) ∅) (abs g) ∅.

Lemma tree_nonempty g : valid_cpg g -> sized g -> (tree g).1 <> [].
Proof.
  intros Hg Hs. apply explore_nonempty; [by apply abs_wf|apply marking_empty|done].
Qed.

Definition best (g : CPG) : candidate := best_of (tree g).1.

Lemma best_sound g : valid_cpg g -> sized g ->
  (best g).2 ≡ₚ ids g /\ (best g).1 = aencode (abs g) (best g).2.
Proof.
  intros Hg Hs. destruct (best_of_spec _ (tree_nonempty g Hg Hs)) as (_ & Hin & _).
  by apply explore_sound in Hin.
Qed.

Lemma ex_remaining L n : executes remaining_states L n (Ok (S (Z.to_nat (L - n)))) n.
Proof. intros c b <- <-. by right. Qed.

Lemma search_within g index L n :
  valid_cpg g -> sized g -> implements index (abs g) -> n + Z.of_nat (tree g).2 <= L ->
  executes (_canonical_search g index) L n (Ok ((best g).2, (best g).1)) (n + Z.of_nat (tree g).2).
Proof.
  intros Hg Hs Hi HL. unfold _canonical_search. eapply ex_bind; [apply ex_remaining|].
  eapply ex_bind.
  { replace (S (Z.to_nat (L - n))) with ((tree g).2 + (S (Z.to_nat (L - n)) - (tree g).2))%nat by lia.
    eapply (explore_consumes g index Hg Hs Hi); [apply marking_empty|done|exact HL|].
    cbn [search_loop]. destruct (_ - _)%nat; apply ex_ret. }
  destruct (best_of_spec _ (tree_nonempty g Hg Hs)) as (E & _ & _). unfold tree in E.
  rewrite E. fold (tree g). fold (best g). destruct (best g). apply ex_ret.
Qed.

Lemma search_beyond g index L n :
  valid_cpg g -> sized g -> implements index (abs g) -> n <= L < n + Z.of_nat (tree g).2 ->
  executes (_canonical_search g index) L n (Raise BudgetExhausted) L.
Proof.
  intros Hg Hs Hi HL. unfold _canonical_search. eapply ex_bind; [apply ex_remaining|].
  apply ex_bind_raise. eapply (explore_exhausts g index Hg Hs Hi); [apply marking_empty|done|exact HL|lia].
Qed.

(** *** The fallback order *)

Definition pkey (g : CPG) (nd : CPGNode) : fallback_key :=
  (sha256 (enc (enclosing_decl_fqn nd)),
   (enc (structural_path nd),
    (py_sorted str_leb (default [] (incident_kinds g !! node_id nd)), (plabel nd, node_id nd)))).

Definition key_id (k : fallback_key) : Z := k.2.2.2.2.

Definition pfallback (g : CPG) : list Z :=
  map key_id (py_sorted fallback_leb (map (pkey g) (nodes g))).

#[local] Instance fallback_leb_total : TotalLe fallback_leb :=
  pair_leb_total _ _ _ (pair_leb_total _ _ _ (pair_leb_total _ _ _ _)).
#[local] Instance fallback_leb_anti : AntiLe fallback_leb :=
  pair_leb_anti _ _ _ (pair_leb_anti _ _ _ (pair_leb_anti _ _ _ _)).

Lemma yields_fallback g : valid_cpg g -> yields (_stable_order_fallback g) (Ok (pfallback g)).
Proof.
  intros [_ Hn _]. rewrite Forall_forall in Hn. unfold _stable_order_fallback.
  eapply yields_bind.
  { apply (yields_mapM _ (fun nd => (pkey g nd, node_id nd))). intros nd Hin.
    destruct (Hn nd Hin) as [_ Ht Hp]. unfold node_fallback_key.
    assert (Hd : text_ok (enclosing_decl_fqn nd)).
    { rewrite Forall_forall in Ht. apply Ht. unfold label_texts. set_solver. }
    eapply yields_bind; [|apply yields_ret].
    yields_step. yields_step. eapply yields_bind; [by apply yields_label|]. apply yields_ret. }
  unfold pfallback.
  replace (map (fun nd => (pkey g nd, node_id nd)) (nodes g))
    with (map (fun k => (k, key_id k)) (map (pkey g) (nodes g))) by by rewrite map_map.
  rewrite (py_sorted_map fallback_leb) by done. rewrite map_map. apply yields_ret.
Qed.

Lemma pfallback_perm g : pfallback g ≡ₚ ids g.
Proof. unfold pfallback, ids. rewrite py_sorted_perm, map_map. done. Qed.

(** ** [canonical_order_with] *)

(** The result for a budget with limit [L] and [n] states already entered. *)
Definition is_strong (g : CPG) (L n : Z) : bool := n + Z.of_nat (tree g).2 <=? L.

Definition expected (g : CPG) (L n : Z) (elapsed : Q) : CanonicalOrderResult :=
  let klass := if is_strong g L n then strong else weak in
  let order := if is_strong g L n then (best g).2 else pfallback g in
  mkOrderResult order (sha256 (class_domain klass ++ aencode (abs g) order)) klass
    CPG_ORDER_HASH_ANNOTATION (negb (is_strong g L n)) elapsed GRAPH_IDENTITY_NAMESPACE
    BUDGET_POLICY (if is_strong g L n then n + Z.of_nat (tree g).2 else L).

Lemma ex_order_core g L n : valid_cpg g -> sized g -> n <= L ->
  let order := if is_strong g L n then (best g).2 else pfallback g in
  executes (order_core g) L n
    (Ok (if is_strong g L n then strong else weak, order, aencode (abs g) order))
    (if is_strong g L n then n + Z.of_nat (tree g).2 else L).
Proof.
  intros Hg Hs HL order. unfold order_core. eapply ex_yields; [by apply yields_build|].
  pose proof (pure_index_implements g Hg) as Hi. unfold order, is_strong.
  destruct (Z.leb_spec (n + Z.of_nat (tree g).2) L).
  - apply ex_except_ok. eapply ex_bind; [by apply search_within|].
    rewrite <-(proj2 (best_sound g Hg Hs)). apply ex_ret.
  - eapply ex_except_exhausted; [apply ex_bind_raise; by apply search_beyond|].
    eapply ex_yields; [apply yields_check|]. eapply ex_yields; [by apply yields_fallback|].
    eapply ex_yields; [apply yields_encode_graph; [done..|]|apply ex_ret].
    symmetry. apply pfallback_perm.
Qed.

Lemma finish_order_spec k o e c b :
  (exists b', finish_order (k, o, e) c b = (Raise CanonicalizationDeadlineExceeded, b')) \/
  exists el, finish_order (k, o, e) c b =
    (Ok (mkOrderResult o (sha256 (class_domain k ++ e)) k CPG_ORDER_HASH_ANNOTATION
           (bool_decide (k = weak)) el GRAPH_IDENTITY_NAMESPACE BUDGET_POLICY (search_states b)),
     tick (tick b)).
Proof.
  unfold finish_order, elapsed_ms, check, get_search_states, ret, bind; cbn.
  destruct (Qle_bool _ _); [left|right]; eauto.
Qed.

Lemma canonical_order_with_spec g : valid_cpg g -> sized g -> forall c b,
  search_states b <= state_limit b ->
  fst (canonical_order_with g c b) = Raise CanonicalizationDeadlineExceeded \/
  exists el, fst (canonical_order_with g c b) =
             Ok (expected g (state_limit b) (search_states b) el) /\
             state_limit (snd (canonical_order_with g c b)) = state_limit b /\
             search_states (snd (canonical_order_with g c b)) =
             (if is_strong g (state_limit b) (search_states b)
              then search_states b + Z.of_nat (tree g).2 else state_limit b).
Proof.
  intros Hg Hs c b Hb.
  pose proof (ex_order_core g _ _ Hg Hs Hb c b eq_refl eq_refl) as Hcore.
  unfold canonical_order_with, bind.
  destruct (order_core g c b) as [[v|e] b1]; cbn [fst snd] in Hcore.
  2:{ destruct Hcore as [[= ->]|[? _]]; [by left|done]. }
  destruct Hcore as [?|([= ->] & HL & Hn)]; [done|].
  destruct (finish_order_spec (if is_strong g (state_limit b) (search_states b) then strong else weak)
    (if is_strong g (state_limit b) (search_states b) then (best g).2 else pfallback g)
    (aencode (abs g) (if is_strong g (state_limit b) (search_states b) then (best g).2 else pfallback g))
    c b1) as [[b' ->]|[el ->]]; [by left|right].
  exists el. cbn [fst snd tick state_limit search_states]. rewrite HL, Hn. split; [|done].
  unfold expected. by destruct (is_strong g _ _).
Qed.

(** ** A completed run had a valid graph of encodable size *)

Lemma encode_graph_sized k g o c b r b' :
  encode_graph k g o c b = (Ok r, b') -> valid_cpg g /\ sized g.
Proof.
  unfold encode_graph. intros H. bind_inv. apply validate_Ok in Hrun. split; [done|].
  cbv zeta in H. destruct (negb _) eqn:E; [done|]. bind_inv.
  apply negb_false_iff, andb_true_iff in E as [E _]. apply bool_decide_eq_true in E.
  rewrite by_id_size in E by apply Hrun. unfold ids in E. rewrite length_map in E.
  apply u64_Ok in Hrun0 as [[_ H1] _]. apply u64_Ok in Hrun3 as [[_ H2] _].
  unfold sized, len in *. rewrite length_py_sorted in H2.
  apply mapM_length in Hrun2 as Hl.
  rewrite <-E, <-Hl. done.
Qed.

Lemma search_loop_sized fuel : forall g index pending best c b x b',
  (is_Some best -> sized g) ->
  search_loop fuel g index pending best c b = (Ok (Some x), b') -> sized g.
Proof.
  induction fuel as [|fuel IH]; intros g index [|m pending] best c b x b' Hb H; cbn in H.
  1, 3: injection H as -> _; eauto.
  { done. }
  bind_inv. cbv zeta in H. destruct (py_min _ _) as [t|]; bind_inv.
  - by eapply IH.
  - eapply IH; [|exact H]. intros _. by eapply encode_graph_sized.
Qed.

Lemma canonical_order_with_Ok g c b r b' :
  canonical_order_with g c b = (Ok r, b') -> valid_cpg g /\ sized g.
Proof.
  unfold canonical_order_with, order_core. intros H. bind_inv.
  assert (Hv : valid_cpg g) by (unfold build in Hrun0; bind_inv; by eapply validate_Ok).
  split; [done|]. unfold except_exhausted in Hrun.
  destruct ((s ⇠ _canonical_search g a0; ret (strong, s.1, s.2)) c b1) as [[v|e] b2] eqn:E.
  - unfold _canonical_search in E. bind_inv. destruct a3 as [[en od]|]; bind_inv.
    eapply search_loop_sized; [|exact Hrun3]. by intros [? ?].
  - destruct e; try done. bind_inv. by eapply encode_graph_sized.
Qed.

(** The outcome of [canonical_order], when it completes. *)
Lemma canonical_order_expected g B T c r :
  canonical_order g B T c = Ok r ->
  exists L el, B = PyInt L /\ 0 < L /\ valid_cpg g /\ sized g /\ r = expected g L 0 el.
Proof.
  unfold canonical_order, start. destruct B as [|L| | | |]; try done.
  destruct (Z.leb_spec L 0) as [|HL]; [done|].
  destruct (_duration_seconds T) as [d|]; [|done]. cbn [obind].
  set (b := mkBudget _ _ _ _ _). intros H.
  destruct (canonical_order_with g c b) as [v b'] eqn:E. cbn in H. subst v.
  destruct (canonical_order_with_Ok _ _ _ _ _ E) as [Hv Hs].
  destruct (canonical_order_with_spec g Hv Hs c b) as [H|(el & H & _)]; [cbn; lia|..];
    rewrite E in H; [done|]. injection H as ->. exists L, el. done.
Qed.

(** ** The tree is an invariant of the isomorphism class *)

Lemma tree_iso p g h :
  valid_cpg g -> sized g -> valid_cpg h -> sized h -> cpg_iso p g h ->
  (tree h).2 = (tree g).2 /\ (best h).1 = (best g).1.
Proof.
  intros Hg Sg Hh Sh Hiso. pose proof (cpg_iso_abs p g h Hg Hh Hiso) as Ha.
  assert (Hd : depth (abs h) ∅ = depth (abs g) ∅).
  { unfold depth. by rewrite <-(iso_ids _ _ _ Ha), length_map. }
  destruct (explore_iso (depth (abs g) ∅) p (abs g) (abs h) ∅ ∅) as [H1 H2];
    [by apply abs_wf|by apply abs_wf|done|apply marking_empty|apply marking_empty|done|done|done|].
  unfold tree. rewrite Hd. split; [done|]. unfold best, tree. rewrite Hd.
  apply best_code_unique; [|by apply tree_nonempty|done].
  pose proof (tree_nonempty h Hh Sh) as Hne. unfold tree in Hne. by rewrite Hd in Hne.
Qed.

Lemma is_strong_eq g h L n : (tree g).2 = (tree h).2 -> is_strong g L n = is_strong h L n.
Proof. intros E. unfold is_strong. by rewrite E. Qed.

Lemma strong_hash g L n el :
  valid_cpg g -> sized g -> is_strong g L n = true ->
  cpg_order_hash (expected g L n el) = sha256 (strong_domain ++ (best g).1).
Proof. intros Hg Hs E. unfold expected. rewrite E. cbn. by rewrite (proj2 (best_sound g Hg Hs)). Qed.

Lemma expected_class g L n el :
  fingerprint_class (expected g L n el) = if is_strong g L n then strong else weak.
Proof. done. Qed.

Ltac order_inv H :=
  let L := fresh "L" in let el := fresh "el" in let HB := fresh "HB" in
  apply canonical_order_expected in H as (L & el & HB & ? & ? & ? & ->).

(** C1: a completed strong identity is invariant under isomorphism.  If two
    CPGs are isomorphic (a renaming of ids carries the labelled nodes and the
    typed edges of one to the other's), then whatever the clocks and the time
    limits, two completed runs under the same state limit agree on the class,
    and a strong result has the same hash and the same number of search
    states. *)
Theorem canonical_order_iso_invariant p g h B T T' c c' r r' :
  cpg_iso p g h ->
  canonical_order g B T c = Ok r -> canonical_order h B T' c' = Ok r' ->
  fingerprint_class r' = fingerprint_class r /\
  (fingerprint_class r = strong ->
   cpg_order_hash r' = cpg_order_hash r /\ order_search_states r' = order_search_states r).
Proof.
  intros Hiso Hr Hr'. order_inv Hr. order_inv Hr'. simplify_eq.
  destruct (tree_iso p g h) as [Ht Hb]; [done..|].
  rewrite !expected_class, (is_strong_eq h g) by done. split; [done|].
  destruct (is_strong g L0 0) eqn:E; [|done]. intros _.
  rewrite !strong_hash, Hb by (done || by rewrite (is_strong_eq h g)). split; [done|].
  unfold expected. rewrite (is_strong_eq h g), E by done. cbn [order_search_states]. by rewrite Ht.
Qed.

(** C2: a strong identity determines the graph up to isomorphism.  The hash is
    the digest of the domain-separated encoding under the returned order, and
    for two strong results the encodings are equal exactly when the graphs are
    isomorphic. *)
Theorem canonical_encoding_characterises g h B B' T T' c c' r r' :
  canonical_order g B T c = Ok r -> canonical_order h B' T' c' = Ok r' ->
  fingerprint_class r = strong -> fingerprint_class r' = strong ->
  exists e e',
    yields (encode_graph true g (canonical_order_of r)) (Ok e) /\
    yields (encode_graph true h (canonical_order_of r')) (Ok e') /\
    cpg_order_hash r = sha256 (strong_domain ++ e) /\
    cpg_order_hash r' = sha256 (strong_domain ++ e') /\
    (e = e' <-> exists p, cpg_iso p g h).
Proof.
  intros Hr Hr'. order_inv Hr. order_inv Hr'. rewrite !expected_class.
  destruct (is_strong g L 0) eqn:E1; [|done]. destruct (is_strong h L0 0) eqn:E2; [|done]. intros _ _.
  destruct (best_sound g) as [P1 Q1]; [done..|]. destruct (best_sound h) as [P2 Q2]; [done..|].
  unfold expected. rewrite E1, E2. cbn [canonical_order_of cpg_order_hash class_domain].
  do 2 eexists. split_and!; [apply yields_encode_graph; done..|done|done|].
  split.
  - intros E. eexists. eapply aencode_eq_iso; done.
  - intros [p Hiso]. rewrite <-Q1, <-Q2. symmetry. by eapply tree_iso.
Qed.

Definition with_elapsed (r : CanonicalOrderResult) (q : Q) : CanonicalOrderResult :=
  mkOrderResult (canonical_order_of r) (cpg_order_hash r) (fingerprint_class r) (annotation r)
    (budget_exhausted r) q (identity_namespace r) (budget_policy r) (order_search_states r).

(** Time never selects an identity.  Two completed runs on the same graph
    under the same state limit return the same record up to the elapsed-time
    telemetry, whatever the two clocks and time limits are. *)
Theorem canonical_order_clock_independent g B T T' c c' r r' :
  canonical_order g B T c = Ok r -> canonical_order g B T' c' = Ok r' ->
  r' = with_elapsed r (order_elapsed_ms r').
Proof. intros Hr Hr'. order_inv Hr. order_inv Hr'. simplify_eq. done. Qed.

(** The shape of every completed result: the order is a permutation of the
    node ids, exhaustion is reported exactly for the weak class, and at most
    [B] states were entered. *)
Theorem canonical_order_result_shape g L T c r :
  canonical_order g (PyInt L) T c = Ok r ->
  canonical_order_of r ≡ₚ ids g /\
  (budget_exhausted r = true <-> fingerprint_class r = weak) /\
  0 < order_search_states r <= L /\
  annotation r = CPG_ORDER_HASH_ANNOTATION.
Proof.
  intros Hr. order_inv Hr. injection HB as <-. unfold expected, is_strong.
  assert (0 < (tree g).2)%nat.
  { unfold tree, depth. cbn -[target]. by destruct (target _ _); cbn; lia. }
  destruct (Z.leb_spec (0 + Z.of_nat (tree g).2) L);
    cbn [negb canonical_order_of budget_exhausted fingerprint_class order_search_states annotation].
  - split_and!; [by apply best_sound|done|lia|lia|done].
  - split_and!; [apply pfallback_perm|done|lia|lia|done].
Qed.

(** ** Totality *)

Lemma timely_u64 v : timely (_u64 v).
Proof. unfold _u64. timely_auto. Qed.
Lemma timely_encode s : timely (py_encode s).
Proof. unfold py_encode. timely_auto. Qed.
#[local] Hint Resolve timely_u64 timely_encode : scanipy.
Lemma timely_text s : timely (_text s).
Proof. unfold _text. timely_auto. Qed.
#[local] Hint Resolve timely_text : scanipy.
Lemma timely_label n : timely (_label n).
Proof. unfold _label. timely_auto. Qed.
Lemma timely_check_if b : timely (check_if b).
Proof. unfold check_if. timely_auto. Qed.
#[local] Hint Resolve timely_label timely_check_if : scanipy.
Lemma timely_validate b g : timely (validate_cpg b g).
Proof. unfold validate_cpg, forM, validate_node, validate_edge. timely_auto. Qed.
#[local] Hint Resolve timely_validate : scanipy.
Lemma timely_encode_graph b g o : timely (encode_graph b g o).
Proof. unfold encode_graph, encode_node_at, encode_edge. timely_auto. Qed.
Lemma timely_build g : timely (build g).
Proof. unfold build, index_edge. timely_auto. Qed.
#[local] Hint Resolve timely_encode_graph timely_build : scanipy.
Lemma timely_refine_loop fuel : forall index colors, timely (refine_loop fuel index colors).
Proof.
  induction fuel; intros index colors; cbn; unfold refine_signature, adjacency_parts; timely_auto.
Qed.
#[local] Hint Resolve timely_refine_loop : scanipy.
Lemma timely_refine index m : timely (refine index m).
Proof. unfold refine, initial_signature. timely_auto. Qed.
Lemma timely_swap index x y : timely (swap_is_automorphism index x y).
Proof.
  unfold swap_is_automorphism. generalize (gi_order index). intros l.
  assert (timely (others_agree index x y l)) by (induction l; cbn; timely_auto).
  timely_auto.
Qed.
#[local] Hint Resolve timely_refine timely_swap : scanipy.
Lemma timely_search_loop fuel : forall g index pending best,
  timely (search_loop fuel g index pending best).
Proof.
  induction fuel; intros g index [|m pending] best; cbn; unfold add_representative; timely_auto.
Qed.
#[local] Hint Resolve timely_search_loop : scanipy.
Lemma timely_remaining : timely remaining_states.
Proof. by intros c b Hb. Qed.
#[local] Hint Resolve timely_remaining : scanipy.
Lemma timely_canonical_order g : timely (canonical_order_with g).
Proof.
  unfold canonical_order_with, order_core, finish_order, _canonical_search,
    _stable_order_fallback, node_fallback_key. timely_auto.
Qed.

Lemma canonical_order_runs g L T d c :
  valid_cpg g -> sized g -> 0 < L -> _duration_seconds T = Ok d ->
  (forall i, Qle_bool d (c i - c O) = false) ->
  exists el, canonical_order g (PyInt L) T c = Ok (expected g L 0 el).
Proof.
  intros Hg Hs HL HT Hc. unfold canonical_order, start.
  destruct (Z.leb_spec L 0); [lia|]. rewrite HT. cbn [obind].
  set (b := mkBudget L d (c O) 0 1).
  destruct (timely_canonical_order g c b) as [Hne _]; [exact Hc|].
  destruct (canonical_order_with_spec g Hg Hs c b) as [H'|(el & H' & _)]; [cbn; lia|done|].
  exists el. exact H'.
Qed.

(** [canonical_order] is total and its class is decided by the size of the
    search tree alone.  On a valid graph, with a positive state limit and a
    clock that does not reach the time limit, it returns, without running out
    of fuel; the result is strong exactly when the tree has at most [B]
    states. *)
Theorem canonical_order_total g L T d c :
  valid_cpg g -> sized g -> 0 < L -> _duration_seconds T = Ok d ->
  (forall i, Qle_bool d (c i - c O) = false) ->
  exists r, canonical_order g (PyInt L) T c = Ok r /\
    (fingerprint_class r = strong <-> Z.of_nat (tree g).2 <= L).
Proof.
  intros Hg Hs HL HT Hc. destruct (canonical_order_runs g L T d c) as [el H]; [done..|].
  rewrite H. eexists. split; [done|]. rewrite expected_class. unfold is_strong.
  destruct (Z.leb_spec (0 + Z.of_nat (tree g).2) L); split; try done; lia.
Qed.

(** ** The weak identity is a function of the source *)

Definition incident_at (n : Z) (e : CPGEdge) : list pystr :=
  (if decide (src e = n) then [edge_kind e] else []) ++
  (if decide (dst e = n) then [edge_kind e] else []).

Lemma incident_lookup g n :
  default [] (incident_kinds g !! n) = concat (map (incident_at n) (edges g)).
Proof.
  unfold incident_kinds.
  set (m0 := list_to_map _). assert (H0 : default [] (m0 !! n) = []).
  { unfold m0. clear m0. induction (ids g) as [|i I IH]; [done|]. cbn.
    destruct (decide (n = i)) as [->|]; [by rewrite lookup_insert_eq|by rewrite lookup_insert_ne]. }
  cut (forall es m, default [] (fold_left (fun m e =>
      append_at (append_at m (src e) (edge_kind e)) (dst e) (edge_kind e)) es m !! n) =
      default [] (m !! n) ++ concat (map (incident_at n) es)).
  { intros H. by rewrite H, H0. }
  clear. induction es as [|e es IH]; intros m; cbn; [by rewrite app_nil_r|].
  rewrite IH, app_assoc. f_equal. unfold append_at, incident_at.
  repeat case_decide; subst; rewrite ?lookup_insert_eq, ?lookup_insert_ne by done;
    cbn; rewrite ?lookup_insert_eq, ?lookup_insert_ne by done; cbn; rewrite ?app_nil_r; try done.
  - rewrite H0, !lookup_insert_eq. cbn. by rewrite <-app_assoc.
Qed.

Lemma concat_map_perm {A B} (f : A -> list B) l k : l ≡ₚ k -> concat (map f l) ≡ₚ concat (map f k).
Proof.
  induction 1; cbn; [done|by f_equiv| |by etransitivity].
  rewrite !app_assoc. f_equiv. apply Permutation_app_comm.
Qed.

(** The same source read in another order. *)
Definition same_source (g h : CPG) : Prop := nodes g ≡ₚ nodes h /\ edges g ≡ₚ edges h.

Lemma pfallback_same_source g h : same_source g h -> pfallback g = pfallback h.
Proof.
  intros [Hn He]. unfold pfallback. f_equal. apply py_sorted_perm_eq; [apply _..|].
  rewrite Hn. apply reflexive_eq, map_ext. intros nd. unfold pkey. do 3 f_equal.
  rewrite !incident_lookup. apply py_sorted_perm_eq; [apply _..|]. by apply concat_map_perm.
Qed.

Lemma same_source_iso g h : same_source g h -> cpg_iso id g h.
Proof.
  intros [Hn He]. split.
  - by intros x y.
  - by rewrite Hn.
  - rewrite <-He. rewrite (map_ext _ id) by by intros []. by rewrite map_id.
Qed.

Lemma aencode_same_source g h o :
  valid_cpg g -> valid_cpg h -> same_source g h -> ids g ≡ₚ o -> sized g ->
  aencode (abs h) o = aencode (abs g) o.
Proof.
  intros Hg Hh Hss Ho Hs.
  pose proof (aencode_iso id (abs g) (abs h) o (abs_wf g Hg Hs)) as H.
  rewrite map_id in H. apply H; [|done]. by apply cpg_iso_abs, same_source_iso.
Qed.

(** Exhausting the state limit yields a deterministic same-source
    identity: two completed runs on the same nodes and edges, listed in any
    order, agree on the class and the hash, and a weak result also on the
    order. *)
Theorem weak_identity_same_source g h B T T' c c' r r' :
  same_source g h ->
  canonical_order g B T c = Ok r -> canonical_order h B T' c' = Ok r' ->
  fingerprint_class r' = fingerprint_class r /\ cpg_order_hash r' = cpg_order_hash r /\
  (fingerprint_class r = weak -> canonical_order_of r' = canonical_order_of r).
Proof.
  intros Hss Hr Hr'. pose proof (same_source_iso g h Hss) as Hiso.
  order_inv Hr. order_inv Hr'. simplify_eq.
  destruct (tree_iso id g h) as [Ht Hb]; [done..|].
  rewrite !expected_class, (is_strong_eq h g) by done.
  destruct (is_strong g L0 0) eqn:E.
  - rewrite !strong_hash, Hb by (done || by rewrite (is_strong_eq h g)). done.
  - unfold expected. rewrite (is_strong_eq h g), E by done.
    cbn [cpg_order_hash canonical_order_of]. rewrite (pfallback_same_source g h) by done.
    split_and!; [done| |done]. rewrite (aencode_same_source g h); [done..| |done].
    rewrite <-(pfallback_same_source g h) by done. symmetry. apply pfallback_perm.
Qed.

(** ** The pruning certificate *)

Lemma cpg_iso_ext p q g h :
  (forall n, n ∈ ids g -> p n = q n) -> valid_cpg g -> cpg_iso p g h -> cpg_iso q g h.
Proof.
  intros E Hg [H1 H2 H3]. split.
  - intros x y Hx Hy. rewrite <-!E by done. by apply H1.
  - rewrite <-H2. apply reflexive_eq, map_ext_in. intros nd Hnd%list_elem_of_In.
    unfold node_key. rewrite E; [done|]. apply list_elem_of_fmap. eauto.
  - rewrite <-H3. apply reflexive_eq, map_ext_in. intros e He%list_elem_of_In.
    destruct Hg as [_ _ Hv]. rewrite Forall_forall in Hv. destruct (Hv e He).
    unfold rename_edge. by rewrite !E.
Qed.

Lemma aiso_cpg p g h :
  valid_cpg g -> valid_cpg h -> sized g -> sized h -> aiso p (abs g) (abs h) -> cpg_iso p g h.
Proof.
  intros Hg Hh Sg Sh Hiso.
  apply (cpg_iso_ext (matching (ids g) (map p (ids g)))).
  - intros n Hn. unfold matching. destruct (index_of_elem n (ids g) Hn) as [i Hi]. rewrite Hi.
    apply index_of_lt in Hi as [_ Hi]. change (map p (ids g)) with (p <$> ids g).
    by rewrite list_lookup_fmap, Hi.
  - done.
  - apply aencode_eq_iso; [done..| |].
    + symmetry. apply (iso_ids _ _ _ Hiso).
    + symmetry. apply aencode_iso; [by apply abs_wf|done|done].
Qed.

Lemma automorphism_twins a x y :
  awf a -> x ∈ aids a -> y ∈ aids a -> aiso (swap x y) a a -> twins a x y.
Proof.
  intros Hwf Hx Hy Hiso. destruct (decide (x = y)) as [->|Hne]; [apply twins_refl|].
  assert (Hk : forall u v, u ∈ aids a -> v ∈ aids a -> pkinds a (swap x y u) (swap x y v) = pkinds a u v).
  { intros u v Hu Hv. unfold pkinds. apply py_sorted_perm_eq; [apply _..|].
    rewrite <-(filter_perm _ _ _ (iso_edges _ _ _ Hiso)), filter_map_swap, map_map. cbn.
    apply reflexive_eq. f_equal. apply filter_ext_in. intros e He%list_elem_of_In.
    destruct (ends_in _ Hwf _ He). f_equal; apply bool_decide_ext; (split; [|by intros ->]);
      by apply (iso_inj _ _ _ Hiso). }
  split_and!.
  - rewrite <-(iso_lab _ _ _ Hiso) by done. by rewrite swap_l.
  - rewrite <-Hk by done. by rewrite swap_l.
  - rewrite <-Hk by done. by rewrite swap_l, swap_r.
  - intros o Ho N1 N2. rewrite <-(Hk x o), <-(Hk o x) by done. by rewrite swap_l, swap_ne.
Qed.

(** The pruning certificate is exact.  On the index of a valid graph,
    [swap_is_automorphism] answers whether the transposition of the two nodes
    is an automorphism of the graph. *)
Theorem swap_certificate_exact g x y :
  valid_cpg g -> sized g -> x ∈ ids g -> y ∈ ids g ->
  exists index answer,
    yields (build g) (Ok index) /\
    yields (swap_is_automorphism index x y) (Ok answer) /\
    (answer = true <-> cpg_iso (swap x y) g g).
Proof.
  intros Hg Hs Hx Hy. exists (pure_index g), (twinb (abs g) x y).
  split_and!; [by apply yields_build|by apply yields_swap; [apply pure_index_implements|..]|].
  pose proof (abs_wf g Hg Hs) as Hwf. rewrite twinb_spec. split.
  - intros Ht. apply aiso_cpg; [done..|]. by apply twins_automorphism.
  - intros Hiso. apply automorphism_twins; [done..|]. by apply cpg_iso_abs.
Qed.

(** [validate_cpg] accepts exactly the valid graphs: distinct 64-bit ids,
    encodable texts, edges between existing nodes with a non-empty kind. *)
Theorem validate_cpg_exact g :
  (valid_cpg g -> yields (validate_cpg true g) (Ok tt)) /\
  (forall c b, fst (validate_cpg true g c b) = Ok tt -> valid_cpg g).
Proof.
  split; [apply yields_validate|]. intros c b H.
  destruct (validate_cpg true g c b) as [v b'] eqn:E. cbn in H. subst. by eapply validate_Ok.
Qed.

(** ** Witnesses *)

Definition sample_node (i : Z) (k : string) : CPGNode := mkNode i (str k) [] [] [] [].

(** A function with two interchangeable returns, and a renumbered copy. *)
Definition sampleA : CPG := mkCPG
  [sample_node 1 "fn"; sample_node 2 "ret"; sample_node 3 "ret"]
  [mkEdge 1 2 (str "AST"); mkEdge 1 3 (str "AST")].
Definition sampleB : CPG := mkCPG
  [sample_node 7 "ret"; sample_node 9 "fn"; sample_node 4 "ret"]
  [mkEdge 9 7 (str "AST"); mkEdge 9 4 (str "AST")].
Definition sample_renaming (n : Z) : Z := if n =? 1 then 9 else if n =? 2 then 7 else 4.
Definition sampleA' : CPG := mkCPG
  [sample_node 2 "ret"; sample_node 1 "fn"; sample_node 3 "ret"]
  [mkEdge 1 2 (str "AST"); mkEdge 1 3 (str "AST")].

Definition still : clock := fun _ => 0%Q.
Definition ticking : clock := fun i => (Z.of_nat i # 1000000)%Q.
Definition run (g : CPG) (B : Z) : outcome CanonicalOrderResult :=
  canonical_order g (PyInt B) (PyInt 1) still.

Lemma sample_iso : cpg_iso sample_renaming sampleA sampleB.
Proof.
  split.
  - intros x y Hx Hy. vm_compute in Hx, Hy.
    repeat (apply elem_of_cons in Hx as [Hx|Hx]); try (by apply elem_of_nil in Hx);
    repeat (apply elem_of_cons in Hy as [Hy|Hy]); try (by apply elem_of_nil in Hy);
    subst; vm_compute; congruence.
  - apply perm_swap.
  - vm_compute. done.
Qed.

Lemma sample_same_source : same_source sampleA sampleA'.
Proof. split; [apply perm_swap|done]. Qed.

Definition class_of (o : outcome CanonicalOrderResult) : option FingerprintClass :=
  match o with Ok r => Some (fingerprint_class r) | Raise _ => None end.

Lemma sampleA_strong : class_of (run sampleA 64) = Some strong.
Proof. vm_compute. reflexivity. Qed.
Lemma sampleB_strong : class_of (run sampleB 64) = Some strong.
Proof. vm_compute. reflexivity. Qed.
Lemma sampleA_weak : class_of (run sampleA 1) = Some weak.
Proof. vm_compute. reflexivity. Qed.
Lemma sampleA'_weak : class_of (run sampleA' 1) = Some weak.
Proof. vm_compute. reflexivity. Qed.

Definition run_ticking : outcome CanonicalOrderResult :=
  canonical_order sampleA (PyInt 64) (PyFloat (1 # 5)) ticking.
Lemma sampleA_ticking : class_of run_ticking = Some strong.
Proof. vm_compute. reflexivity. Qed.

(** Name the result [r] of the completed run [m], with [K] its class. *)
Ltac run_ok m known E K :=
  let r := fresh "r" in
  pose proof known as K;
  destruct m as [r|] eqn:E; [|discriminate K]; cbn [class_of] in K; injection K as K.

Lemma canonical_order_iso_invariant_witness :
  match run sampleA 64, run sampleB 64 with
  | Ok r, Ok r' => fingerprint_class r = strong /\ cpg_order_hash r' = cpg_order_hash r
  | _, _ => False
  end.
Proof.
  run_ok (run sampleA 64) sampleA_strong E1 K1. run_ok (run sampleB 64) sampleB_strong E2 K2.
  split; [exact K1|].
  exact (proj1 (proj2 (canonical_order_iso_invariant _ _ _ _ _ _ _ _ _ _ sample_iso E1 E2) K1)).
Defined.

Lemma canonical_encoding_characterises_witness :
  match run sampleA 64, run sampleB 64 with
  | Ok r, Ok r' => exists e e',
      yields (encode_graph true sampleA (canonical_order_of r)) (Ok e) /\
      yields (encode_graph true sampleB (canonical_order_of r')) (Ok e') /\
      cpg_order_hash r = sha256 (strong_domain ++ e) /\
      cpg_order_hash r' = sha256 (strong_domain ++ e') /\
      (e = e' <-> exists p, cpg_iso p sampleA sampleB)
  | _, _ => False
  end.
Proof.
  run_ok (run sampleA 64) sampleA_strong E1 K1. run_ok (run sampleB 64) sampleB_strong E2 K2.
  exact (canonical_encoding_characterises _ _ _ _ _ _ _ _ _ _ E1 E2 K1 K2).
Defined.

Lemma canonical_order_clock_independent_witness :
  match run sampleA 64, run_ticking with
  | Ok r, Ok r' => r' = with_elapsed r (order_elapsed_ms r')
  | _, _ => False
  end.
Proof.
  run_ok (run sampleA 64) sampleA_strong E1 K1. run_ok run_ticking sampleA_ticking E2 K2.
  exact (canonical_order_clock_independent _ _ _ _ _ _ _ _ E1 E2).
Defined.

Lemma canonical_order_result_shape_witness :
  match run sampleA 1 with
  | Ok r => canonical_order_of r ≡ₚ ids sampleA /\
      (budget_exhausted r = true <-> fingerprint_class r = weak) /\
      0 < order_search_states r <= 1 /\ annotation r = CPG_ORDER_HASH_ANNOTATION
  | _ => False
  end.
Proof.
  run_ok (run sampleA 1) sampleA_weak E1 K1. exact (canonical_order_result_shape _ _ _ _ _ E1).
Defined.

Lemma sampleA_valid : valid_cpg sampleA /\ sized sampleA.
Proof.
  run_ok (run sampleA 64) sampleA_strong E1 K1.
  destruct (canonical_order_expected _ _ _ _ _ E1) as (? & ? & _ & _ & Hg & Hs & _).
  split; assumption.
Qed.

Lemma canonical_order_total_witness : exists r,
  canonical_order sampleA (PyInt 64) (PyInt 1) still = Ok r /\
  (fingerprint_class r = strong <-> Z.of_nat (tree sampleA).2 <= 64).
Proof.
  refine (canonical_order_total sampleA 64 (PyInt 1) 1%Q still
    (proj1 sampleA_valid) (proj2 sampleA_valid) _ _ _); [reflexivity..|].
  intros i. reflexivity.
Defined.

Lemma weak_identity_same_source_witness :
  match run sampleA 1, run sampleA' 1 with
  | Ok r, Ok r' => fingerprint_class r = weak /\ cpg_order_hash r' = cpg_order_hash r
  | _, _ => False
  end.
Proof.
  run_ok (run sampleA 1) sampleA_weak E1 K1. run_ok (run sampleA' 1) sampleA'_weak E2 K2.
  split; [exact K1|].
  exact (proj1 (proj2 (weak_identity_same_source _ _ _ _ _ _ _ _ _ sample_same_source E1 E2))).
Defined.

Lemma swap_certificate_exact_witness : exists index answer,
  yields (build sampleA) (Ok index) /\
  yields (swap_is_automorphism index 2 3) (Ok answer) /\
  (answer = true <-> cpg_iso (swap 2 3) sampleA sampleA).
Proof.
  refine (swap_certificate_exact sampleA 2 3 (proj1 sampleA_valid) (proj2 sampleA_valid) _ _).
  - right. left.
  - right. right. left.
Defined.
