(* ===== verification/Dsl.v ===== *)
(** * The flow-function DSL ([analysis/ifds/dsl])

    The grammar nodes ([primitives.py], [spec.py]), the flow functions they
    denote ([flow.py]) and the registry of distributivity obligations that
    guards the start of the DSL ([proofs.py]).  Facts are integers, fact sets
    finite sets of them, and a flow function is a function on fact sets. *)
From stdpp Require Import base tactics list gmap sets strings.
From Stdlib Require Import ZArith Lia.
From S2P Require Import Prelude PyData.

Open Scope Z_scope.

(** ** Grammar nodes *)

Definition AccessPathPattern := pystr.

Inductive Clause :=
| Source (pattern : AccessPathPattern)
| Sink (pattern : AccessPathPattern)
| Sanitize (pattern : AccessPathPattern)
| Propagate (source target : pystr).

#[export] Instance Clause_eq_dec : EqDecision Clause.
Proof. solve_decision. Defined.

(** [PRIMITIVE_HEADS] and [PROPAGATE_FORMS] *)
Definition PRIMITIVE_HEADS : list pystr := map str ["source"; "sink"; "sanitize"; "propagate"].
Definition PROPAGATE_FORMS : list pystr := map str ["arg_ret"; "arg_field"; "field_ret"; "field_field"].

Definition CLASS_NAMES : list pystr :=
  map str ["injection"; "path-traversal"; "ssrf"; "deserialization"; "xss"; "crypto-misuse";
           "authn-authz"; "secrets"; "dep-cve"; "memory-safety"].
Definition LANGUAGES : list pystr :=
  map str ["java"; "python"; "javascript"; "typescript"; "go"; "ruby"; "php"].
Definition DSL_ENGINES : list pystr := map str ["ifds"; "ide"].

(** [Spec] *)
Record Spec := mkSpec {
  spec_id : pystr;
  class_ : pystr;
  languages : list pystr;
  engine : pystr;
  clauses : list Clause
}.

(** ** Flow functions *)

Module Flow.

Definition Fact := Z.
Definition FactSet := gset Z.
Definition FlowFunction := FactSet -> FactSet.

(** [enumerate_bounded_fact_domain] *)
Definition enumerate_bounded_fact_domain (max_size : Z) : outcome (list Fact) :=
  if (max_size <? 1)
  then Raise (ValueError "fact domain must be non-empty for a meaningful proof")
  else Ok (map Z.of_nat (seq 0 (Z.to_nat max_size))).

(** [itertools.combinations(items, r)], in the order Python yields them *)
Fixpoint combinations (items : list Fact) (r : nat) : list (list Fact) :=
  match r, items with
  | O, _ => [[]]
  | S _, [] => []
  | S r', x :: rest => map (cons x) (combinations rest r') ++ combinations rest r
  end.

(** [powerset] *)
Definition powerset (domain : list Fact) : list FactSet :=
  concat (map (fun r => map list_to_set (combinations domain r)) (seq 0 (length domain + 1))).

(** The primitive builders. *)
Definition build_source (gen : Fact) : FlowFunction := fun x => x ∪ {[gen]}.
Definition build_sink : FlowFunction := fun x => x.
Definition build_sanitize (kill : FactSet) : FlowFunction := fun x => x ∖ kill.
Definition build_propagate (source target : Fact) : FlowFunction := fun x =>
  if bool_decide (source ∈ x) then x ∪ {[target]} else x.

(** [union_flow] *)
Definition union_flow (functions : list FlowFunction) : FlowFunction := fun x =>
  fold_left (fun out g => out ∪ g x) functions ∅.

(** [is_distributive] *)
Definition is_distributive (f : FlowFunction) (domain : list Fact) : bool :=
  let subsets := powerset domain in
  forallb (fun x => forallb (fun y => bool_decide (f (x ∪ y) = f x ∪ f y)) subsets) subsets.

(** ** What the builders denote *)

(** [f(X | Y) = f(X) | f(Y)] on every pair of fact sets. *)
Definition distributive (f : FlowFunction) : Prop := forall x y, f (x ∪ y) = f x ∪ f y.

Lemma distributive_source gen : distributive (build_source gen).
Proof. intros x y. unfold build_source. set_solver. Qed.
Lemma distributive_sink : distributive build_sink.
Proof. by intros x y. Qed.
Lemma distributive_sanitize kill : distributive (build_sanitize kill).
Proof. intros x y. unfold build_sanitize. set_solver. Qed.
Lemma distributive_propagate s t : distributive (build_propagate s t).
Proof. intros x y. unfold build_propagate. repeat case_bool_decide; set_solver. Qed.

Lemma elem_of_union_flow fs x e : e ∈ union_flow fs x <-> exists f, f ∈ fs /\ e ∈ f x.
Proof.
  unfold union_flow. cut (forall acc, e ∈ fold_left (fun out g => out ∪ g x) fs acc <->
    e ∈ acc \/ exists f, f ∈ fs /\ e ∈ f x).
  { intros H. rewrite H. set_solver. }
  induction fs as [|f fs IH]; intros acc; cbn; [set_solver|]. rewrite IH. set_solver.
Qed.

Lemma distributive_union fs : Forall distributive fs -> distributive (union_flow fs).
Proof.
  rewrite Forall_forall. intros H x y. apply set_eq. intros e.
  rewrite elem_of_union, !elem_of_union_flow. split.
  - intros (f & Hf & He). rewrite (H f Hf x y) in He. set_solver.
  - intros [(f & Hf & He)|(f & Hf & He)]; exists f; (split; [done|]);
      rewrite (H f Hf x y); set_solver.
Qed.

(** The functions a specification can denote: the primitives, closed under
    clause conjunction. *)
Inductive primitive_flow : FlowFunction -> Prop :=
| pf_source gen : primitive_flow (build_source gen)
| pf_sink : primitive_flow build_sink
| pf_sanitize kill : primitive_flow (build_sanitize kill)
| pf_propagate s t : primitive_flow (build_propagate s t)
| pf_union fs : Forall primitive_flow fs -> primitive_flow (union_flow fs).

Lemma primitive_distributive : forall f, primitive_flow f -> distributive f.
Proof.
  fix IH 2. intros f [gen| |kill|s t|fs Hfs];
    [apply distributive_source|apply distributive_sink|apply distributive_sanitize
    |apply distributive_propagate|].
  apply distributive_union. induction Hfs; constructor; auto.
Qed.

(** ** The exhaustive check *)

Lemma combinations_spec items : forall r c,
  c ∈ combinations items r <-> sublist c items /\ length c = r.
Proof.
  induction items as [|x items IH]; intros [|r] c; cbn.
  - rewrite list_elem_of_singleton. split; [intros ->; split; [constructor|done]|].
    intros [_ H]. by destruct c.
  - split; [by intros ?%elem_of_nil|]. intros [H Hr]. inversion H; subst. done.
  - rewrite list_elem_of_singleton. split; [intros ->; split; [apply sublist_nil_l|done]|].
    intros [_ H]. by destruct c.
  - rewrite elem_of_app, IH, list_elem_of_In, in_map_iff. split.
    + intros [(c' & <- & Hc%list_elem_of_In%IH)|[H Hr]].
      * destruct Hc as [H Hr]. split; [by constructor|cbn; lia].
      * split; [by constructor|done].
    + intros [H Hr]. inversion H; subst.
      * left. eexists. split; [done|]. apply list_elem_of_In, IH. split; [done|cbn in *; lia].
      * by right.
Qed.

Lemma subset_sublist (x : FactSet) items :
  x ⊆ list_to_set items -> exists c, sublist c items /\ list_to_set c = x.
Proof.
  intros Hx. exists (filter (fun i => i ∈ x) items). split; [apply sublist_filter|].
  apply set_eq. intros e. rewrite elem_of_list_to_set, list_elem_of_filter. set_solver.
Qed.

Lemma elem_of_powerset domain x : x ∈ powerset domain <-> x ⊆ list_to_set domain.
Proof.
  unfold powerset. rewrite list_elem_of_In, in_concat. setoid_rewrite in_map_iff. split.
  - intros (l & (r & <- & _) & (c & <- & Hc%list_elem_of_In%combinations_spec)%in_map_iff).
    destruct Hc as [Hc _]. intros e. rewrite !elem_of_list_to_set. by apply sublist_subseteq.
  - intros (c & Hc & <-)%subset_sublist. eexists. split.
    + exists (length c). split; [done|]. apply in_seq. apply sublist_length in Hc. unfold Fact in *. lia.
    + apply in_map, list_elem_of_In, combinations_spec. done.
Qed.

Lemma is_distributive_true f domain :
  is_distributive f domain = true <->
  forall x y, x ⊆ list_to_set domain -> y ⊆ list_to_set domain -> f (x ∪ y) = f x ∪ f y.
Proof.
  unfold is_distributive. rewrite forallb_forall.
  setoid_rewrite forallb_forall. setoid_rewrite bool_decide_eq_true.
  setoid_rewrite <-list_elem_of_In. setoid_rewrite elem_of_powerset. naive_solver.
Qed.

Lemma distributive_checked f domain : distributive f -> is_distributive f domain = true.
Proof. intros H. apply is_distributive_true. intros. apply H. Qed.

End Flow.

(** ** The obligation registry *)

Module Proofs.
Import Flow.

Notation ProofObligation := (unit -> bool).

(** The module dict [_OBLIGATIONS]. *)
Notation registry := (gmap pystr ProofObligation).

Definition REQUIRED_OBLIGATION_IDS : list pystr :=
  map str ["source"; "sink"; "sanitize"; "propagate:arg_ret"; "propagate:arg_field";
           "propagate:field_ret"; "propagate:field_field"; "compose:clause_union"].

(** [register_proof] *)
Definition register_proof (primitive_id : pystr) (obligation : ProofObligation) (r : registry) : registry :=
  <[primitive_id := obligation]> r.

(** [discharge] *)
Definition discharge (primitive_id : pystr) (r : registry) : outcome bool :=
  match r !! primitive_id with
  | Some o => Ok (o tt)
  | None => Raise KeyError
  end.

(** [registered_obligation_ids] *)
Definition registered_obligation_ids (r : registry) : gset pystr := dom r.

(** [all_obligations_discharged] *)
Definition all_obligations_discharged (r : registry) : bool :=
  if negb (forallb (fun oid => bool_decide (is_Some (r !! oid))) REQUIRED_OBLIGATION_IDS)
  then false
  else forallb (fun oid => match r !! oid with Some o => o tt | None => false end)
               REQUIRED_OBLIGATION_IDS.

(** [_D = enumerate_bounded_fact_domain()] and the reserved positions. *)
Definition _D : list Fact := map Z.of_nat (seq 0 8).
Definition _GEN : Fact := 0.
Definition _KILL_A : Fact := 1.
Definition _KILL_B : Fact := 2.
Definition _PSRC : Fact := 3.
Definition _PTGT : Fact := 4.
Definition _PF1 : Fact := 5.
Definition _PF2 : Fact := 6.

Definition _obl_source : ProofObligation := fun _ => is_distributive (build_source _GEN) _D.
Definition _obl_sink : ProofObligation := fun _ => is_distributive build_sink _D.
Definition _obl_sanitize : ProofObligation := fun _ =>
  is_distributive (build_sanitize {[_KILL_A; _KILL_B]}) _D.

(** [_PROPAGATE_FORM_FACTS] *)
Definition _PROPAGATE_FORM_FACTS : list (pystr * (Fact * Fact)) :=
  [(str "arg_ret", (_PSRC, _PTGT)); (str "arg_field", (_PSRC, _PF1));
   (str "field_ret", (_PF1, _PTGT)); (str "field_field", (_PF1, _PF2))].

Definition _make_propagate_obl (source target : Fact) : ProofObligation := fun _ =>
  is_distributive (build_propagate source target) _D.

Definition _obl_clause_union : ProofObligation := fun _ =>
  is_distributive
    (union_flow [build_source _GEN; build_propagate _PSRC _PTGT; build_sanitize {[_KILL_A]}]) _D.

(** [install_default_obligations]; the loop runs over [PROPAGATE_FORMS], whose
    keys [_PROPAGATE_FORM_FACTS] lists in the same order. *)
Definition install_default_obligations (r : registry) : registry :=
  let r := register_proof (str "source") _obl_source r in
  let r := register_proof (str "sink") _obl_sink r in
  let r := register_proof (str "sanitize") _obl_sanitize r in
  let r := fold_left (fun r '(form, (src, tgt)) =>
      register_proof (str "propagate:" ++ form) (_make_propagate_obl src tgt) r)
    _PROPAGATE_FORM_FACTS r in
  register_proof (str "compose:clause_union") _obl_clause_union r.

Lemma gate_true r :
  all_obligations_discharged r = true <->
  forall oid, oid ∈ REQUIRED_OBLIGATION_IDS -> exists o, r !! oid = Some o /\ o tt = true.
Proof.
  unfold all_obligations_discharged.
  destruct (forallb (fun oid => bool_decide (is_Some (r !! oid))) REQUIRED_OBLIGATION_IDS) eqn:E; cbn [negb].
  - rewrite forallb_forall. split.
    + intros H oid Hoid%list_elem_of_In. specialize (H oid Hoid).
      destruct (r !! oid) as [o|]; [by exists o|done].
    + intros H oid Hoid%list_elem_of_In. by destruct (H oid Hoid) as (o & -> & ?).
  - split; [done|]. intros H. apply not_true_iff_false in E. destruct E.
    apply forallb_forall. intros oid Hoid%list_elem_of_In.
    destruct (H oid Hoid) as (o & Ho & _). apply bool_decide_eq_true. by exists o.
Qed.

(** The obligation a default registration binds to each identifier. *)
Definition default_obligations : list (pystr * FlowFunction) :=
  [(str "source", build_source _GEN); (str "sink", build_sink);
   (str "sanitize", build_sanitize {[_KILL_A; _KILL_B]});
   (str "propagate:arg_ret", build_propagate _PSRC _PTGT);
   (str "propagate:arg_field", build_propagate _PSRC _PF1);
   (str "propagate:field_ret", build_propagate _PF1 _PTGT);
   (str "propagate:field_field", build_propagate _PF1 _PF2);
   (str "compose:clause_union",
    union_flow [build_source _GEN; build_propagate _PSRC _PTGT; build_sanitize {[_KILL_A]}])].

Lemma default_lookup r oid f :
  (oid, f) ∈ default_obligations ->
  exists o, install_default_obligations r !! oid = Some o /\ o tt = is_distributive f _D.
Proof.
  unfold install_default_obligations, register_proof. cbn [fold_left _PROPAGATE_FORM_FACTS].
  intros H.
  repeat (apply elem_of_cons in H as [H|H]; [
    apply pair_eq in H as [-> ->]; eexists; split; [
      repeat first [rewrite lookup_insert_eq; reflexivity | rewrite lookup_insert_ne by discriminate]
    | reflexivity]|]).
  by apply elem_of_nil in H.
Qed.

Lemma default_primitive oid f : (oid, f) ∈ default_obligations -> primitive_flow f.
Proof.
  unfold default_obligations. intros H.
  repeat (apply elem_of_cons in H as [[= -> ->]|H]; [repeat constructor|]).
  by apply elem_of_nil in H.
Qed.

End Proofs.
Import Flow Proofs.

(** The exhaustive check is exact: it accepts a flow function exactly when
    the function distributes over union on every pair of subsets of the
    domain. *)
Theorem is_distributive_exact f domain :
  is_distributive f domain = true <->
  forall x y : FactSet, x ⊆ list_to_set domain -> y ⊆ list_to_set domain -> f (x ∪ y) = f x ∪ f y.
Proof. apply is_distributive_true. Qed.

(** Every function built from the four primitives and clause conjunction
    is distributive on all fact sets, not only on the bounded domain, so the
    boot guard passes on the default registry, whatever was registered
    before. *)
Theorem dsl_distributive_by_construction :
  (forall f, primitive_flow f -> distributive f) /\
  (forall r, all_obligations_discharged (install_default_obligations r) = true).
Proof.
  split; [exact primitive_distributive|]. intros r. apply gate_true. intros oid Hoid.
  assert (exists f, (oid, f) ∈ default_obligations) as [f Hf].
  { change REQUIRED_OBLIGATION_IDS with (default_obligations.*1) in Hoid.
    apply list_elem_of_fmap in Hoid as ([oid' f] & -> & Hf). by exists f. }
  destruct (default_lookup r oid f Hf) as (o & Ho & Hv). exists o. split; [done|].
  rewrite Hv. apply distributive_checked, primitive_distributive. by eapply default_primitive.
Qed.
