(* ===== verification/PyDict.v ===== *)
(** * Dicts, loops that may raise, and worklist closures

    Python dicts as finite maps, [d[k]] with its [KeyError], loops whose body
    may raise, and the depth-first closure loop that the supergraph and the
    delta engine share. *)
From stdpp Require Import base tactics list gmap sets fin_sets relations.
From Stdlib Require Import ZArith Lia.
From S2P Require Import Prelude PyData.

Declare Scope py_scope.
Delimit Scope py_scope with py.
Notation "x ⇐ m ; k" := (obind m (fun x => k))
  (at level 100, m at next level, right associativity) : py_scope.
Open Scope py_scope.

(** ** Loops *)

(** A [for] loop that updates a state and may raise. *)
Fixpoint foldO {A S} (f : S -> A -> outcome S) (s : S) (l : list A) : outcome S :=
  match l with
  | [] => Ok s
  | x :: l' => s' ⇐ f s x; foldO f s' l'
  end.

(** A comprehension whose element may raise. *)
Fixpoint mapO {A B} (f : A -> outcome B) (l : list A) : outcome (list B) :=
  match l with
  | [] => Ok []
  | x :: l' => y ⇐ f x; ys ⇐ mapO f l'; Ok (y :: ys)
  end.

Lemma obind_Ok {A B} (m : outcome A) (f : A -> outcome B) r :
  obind m f = Ok r <-> exists a, m = Ok a /\ f a = Ok r.
Proof. destruct m; cbn; naive_solver. Qed.

Ltac obind_inv :=
  repeat match goal with
  | H : obind _ _ = Ok _ |- _ => apply obind_Ok in H as (? & ? & ?)
  | H : Ok _ = Ok _ |- _ => injection H as H
  | H : Raise _ = Ok _ |- _ => discriminate H
  end.

Lemma foldO_app {A S} (f : S -> A -> outcome S) s l k :
  foldO f s (l ++ k) = obind (foldO f s l) (fun s' => foldO f s' k).
Proof. revert s. induction l as [|x l IH]; intros s; cbn; [done|]. destruct (f s x); cbn; auto. Qed.

(** Invariant rule: a loop whose body preserves [P] and cannot raise in it. *)
Lemma foldO_inv {A S} (P : S -> Prop) (f : S -> A -> outcome S) l :
  (forall s x, x ∈ l -> P s -> exists s', f s x = Ok s' /\ P s') ->
  forall s, P s -> exists s', foldO f s l = Ok s' /\ P s'.
Proof.
  induction l as [|x l IH]; intros H s Hs; cbn; [by eauto|].
  destruct (H s x (list_elem_of_here _ _) Hs) as (s1 & -> & Hs1). cbn.
  apply IH; [|done]. intros s2 y Hy. apply H. by right.
Qed.

Lemma mapO_pure {A B} (f : A -> outcome B) (g : A -> B) l :
  (forall x, x ∈ l -> f x = Ok (g x)) -> mapO f l = Ok (map g l).
Proof.
  induction l as [|x l IH]; intros H; cbn; [done|].
  rewrite H by left. cbn. rewrite IH; [done|]. intros; apply H; by right.
Qed.

Lemma mapO_Forall2 {A B} (f : A -> outcome B) l ys : mapO f l = Ok ys <-> Forall2 (fun x y => f x = Ok y) l ys.
Proof.
  revert ys. induction l as [|x l IH]; intros ys; cbn [mapO].
  - split; [intros [= <-]; constructor|intros H; by inversion H].
  - rewrite obind_Ok. split.
    + intros (b & Hb & (bs & Hbs & [= <-])%obind_Ok). constructor; [done|by apply IH].
    + intros H. inversion H as [|? b ? bs Hb Hbs]; subst. exists b. split; [done|]. apply IH in Hbs. by rewrite Hbs.
Qed.

Lemma mapO_perm {A B} (f : A -> outcome B) l l' ys : l ≡ₚ l' -> mapO f l = Ok ys -> exists ys', mapO f l' = Ok ys' /\ ys ≡ₚ ys'.
Proof.
  intros Hp. revert ys. induction Hp as [|x l l' _ IH|x y l|l1 l2 l3 _ IH1 _ IH2]; intros ys; cbn [mapO].
  - intros [= <-]. by exists [].
  - intros (b & Hb & (bs & Hbs & [= <-])%obind_Ok)%obind_Ok. destruct (IH _ Hbs) as (bs' & -> & Hp'). rewrite Hb. cbn.
    eexists. split; [done|]. by rewrite Hp'.
  - intros (b & Hb & (bs & (c & Hc & (cs & Hcs & [= <-])%obind_Ok)%obind_Ok & [= <-])%obind_Ok)%obind_Ok.
    rewrite Hc, Hb, Hcs. cbn. eexists. split; [done|]. apply Permutation_swap.
  - intros H. destruct (IH1 _ H) as (ys' & H' & Hp1). destruct (IH2 _ H') as (ys'' & H'' & Hp2).
    exists ys''. split; [done|]. by rewrite Hp1.
Qed.

Lemma mapO_Raise {A B} (f : A -> outcome B) l e : mapO f l = Raise e -> exists x, x ∈ l /\ f x = Raise e.
Proof.
  induction l as [|x l IH]; cbn; [done|]. destruct (f x) as [y|e'] eqn:E; cbn.
  - destruct (mapO f l); cbn; [done|]. intros [= ->]. destruct (IH eq_refl) as (z & Hz & Ez). exists z. split; [by right|done].
  - intros [= ->]. exists x. split; [left|done].
Qed.

(** ** Dicts *)

(** [d[k]] *)
Definition getitem {K A} `{Countable K} (d : gmap K A) (k : K) : outcome A :=
  match d !! k with Some a => Ok a | None => Raise KeyError end.

Lemma getitem_Ok {K A} `{Countable K} (d : gmap K A) k a : getitem d k = Ok a <-> d !! k = Some a.
Proof. unfold getitem. destruct (d !! k); naive_solver. Qed.

(** A dict comprehension: later items overwrite earlier ones. *)
Definition py_dict {K A} `{Countable K} (items : list (K * A)) : gmap K A :=
  fold_left (fun d kv => <[kv.1 := kv.2]> d) items ∅.

(** [{x: i for i, x in enumerate(xs)}] *)
Definition enumerate_index {K} `{Countable K} (xs : list K) : gmap K Z :=
  py_dict (zip xs (map Z.of_nat (seq 0 (length xs)))).

Section dicts.
Context {K A : Type} `{Countable K}.
Implicit Types (items : list (K * A)).

Lemma py_dict_lookup_aux items : forall (d : gmap K A) k v, NoDup items.*1 ->
  fold_left (fun d kv => <[kv.1 := kv.2]> d) items (d : gmap K A) !! k = Some v <->
  (k, v) ∈ items \/ (k ∉ items.*1 /\ d !! k = Some v).
Proof.
  induction items as [|[k' v'] items IH]; intros d k v Hnd; cbn.
  { split; [intros; right; split; [apply not_elem_of_nil|done]|intros [?%elem_of_nil|[_ ?]]; done]. }
  cbn in Hnd. apply NoDup_cons in Hnd as [Hni Hnd]. rewrite IH by done.
  destruct (decide (k = k')) as [->|Hne].
  - rewrite lookup_insert_eq, !elem_of_cons. split.
    + intros [Hin|[_ [= ->]]]; [|by left; left]. destruct Hni. by apply (list_elem_of_fmap_2 fst) in Hin.
    + intros [[[= ->]|Hin]|[Hn _]]; [by right|by left|]. destruct Hn. by left.
  - rewrite lookup_insert_ne by done. rewrite !elem_of_cons. naive_solver.
Qed.

Lemma py_dict_lookup items k v : NoDup items.*1 ->
  py_dict items !! k = Some v <-> (k, v) ∈ items.
Proof.
  intros Hnd. unfold py_dict. rewrite py_dict_lookup_aux by done. rewrite lookup_empty. naive_solver.
Qed.

Lemma py_dict_lookup_is_Some items k : is_Some (py_dict items !! k) <-> k ∈ items.*1.
Proof.
  unfold py_dict. cut (forall d : gmap K A, is_Some (fold_left (fun d kv => <[kv.1 := kv.2]> d) items d !! k) <->
    k ∈ items.*1 \/ is_Some (d !! k)).
  { intros E. rewrite E, lookup_empty. split; [intros [?|[? ?]]; done|by left]. }
  induction items as [|[k' v'] items IH]; intros d; cbn; [set_solver|].
  rewrite IH. destruct (decide (k = k')) as [->|Hne].
  - rewrite lookup_insert_eq. set_solver.
  - rewrite lookup_insert_ne by done. set_solver.
Qed.
End dicts.

Lemma enumerate_index_lookup {K} `{Countable K} (xs : list K) x i :
  NoDup xs -> enumerate_index xs !! x = Some i <-> exists n, xs !! n = Some x /\ i = Z.of_nat n.
Proof.
  intros Hnd. unfold enumerate_index. rewrite py_dict_lookup.
  - rewrite list_elem_of_lookup. setoid_rewrite lookup_zip_Some.
    change (map Z.of_nat) with (fmap (M:=list) Z.of_nat). setoid_rewrite list_lookup_fmap. split.
    + intros (n & Hx & Hi). exists n. split; [done|].
      rewrite lookup_seq_lt in Hi by (by eapply lookup_lt_Some). by injection Hi as <-.
    + intros (n & Hx & ->). exists n. split; [done|].
      rewrite lookup_seq_lt by (by eapply lookup_lt_Some). done.
  - rewrite fst_zip; [done|]. by rewrite length_map, length_seq.
Qed.

Lemma size_list_to_set_le {A} `{Countable A} (l : list A) :
  (size (list_to_set l : gset A) <= length l)%nat.
Proof.
  unfold size, set_size. cbn. apply submseteq_length, NoDup_submseteq; [apply NoDup_elements|].
  intros x. by rewrite elem_of_elements, elem_of_list_to_set.
Qed.

(** ** The closure loop

    [while stack: cur = stack.pop(); for nxt in graph.get(cur, ()): if nxt not
    in seen: seen.add(nxt); stack.append(nxt)].  The stack is a list with its
    top first.  Python iterates a set in an unspecified order; the result does
    not depend on it. *)
Section closure.
Context {A : Type} `{Countable A}.
Implicit Types (graph : gmap A (gset A)) (seen : gset A) (stack : list A).

Definition successors graph (x : A) : list A := elements (default ∅ (graph !! x)).

Definition push_new (st : gset A * list A) (x : A) : gset A * list A :=
  if decide (x ∈ st.1) then st else ({[x]} ∪ st.1, x :: st.2).

Fixpoint closure_loop (fuel : nat) graph stack seen : outcome (gset A) :=
  match stack with
  | [] => Ok seen
  | cur :: rest =>
      match fuel with
      | O => Raise OutOfFuel
      | S fuel' =>
          let st := fold_left push_new (successors graph cur) (seen, rest) in
          closure_loop fuel' graph st.2 st.1
      end
  end.

(** Every target of the graph: an element is pushed at most once. *)
Definition targets graph : gset A := union_list (map snd (map_to_list graph)).

(** The loop from the stack [list(seeds)]. *)
Definition closure graph (seeds : gset A) seen : outcome (gset A) :=
  closure_loop (S (size seeds + size (targets graph))) graph (elements seeds) seen.

Definition edge_in graph (x y : A) : Prop := y ∈ successors graph x.

Lemma successors_targets graph x y : edge_in graph x y -> y ∈ targets graph.
Proof.
  unfold edge_in, successors, targets. rewrite elem_of_elements. intros Hy.
  destruct (graph !! x) as [S|] eqn:E; [|set_solver]. cbn in Hy.
  apply elem_of_union_list. exists S. split; [|done].
  apply list_elem_of_In, in_map_iff. exists (x, S). split; [done|].
  apply list_elem_of_In. by apply elem_of_map_to_list.
Qed.

Lemma push_new_spec l : forall seen stack,
  let st := fold_left push_new l (seen, stack) in
  (forall y, y ∈ st.1 <-> y ∈ seen \/ y ∈ l) /\
  (forall y, y ∈ st.2 <-> y ∈ stack \/ (y ∈ l /\ y ∉ seen)) /\
  (forall U : gset A, (forall y, y ∈ l -> y ∈ U) ->
     length st.2 + size (U ∖ st.1) = length stack + size (U ∖ seen))%nat.
Proof.
  induction l as [|x l IH]; intros seen stack; cbn; [set_solver|].
  destruct (push_new (seen, stack) x) as [seen' stack'] eqn:E. unfold push_new in E. cbn in E.
  destruct (decide (x ∈ seen)) as [Hx|Hx]; injection E as <- <-.
  - destruct (IH seen stack) as (H1 & H2 & H3). split_and!.
    + intros y. rewrite H1. set_solver.
    + intros y. rewrite H2. set_solver.
    + intros U HU. apply H3. intros y Hy. apply HU. by right.
  - destruct (IH ({[x]} ∪ seen) (x :: stack)) as (H1 & H2 & H3). split_and!.
    + intros y. rewrite H1. set_solver.
    + intros y. rewrite H2. destruct (decide (y = x)) as [->|]; set_solver.
    + intros U HU. rewrite H3 by (intros y Hy; apply HU; by right). cbn [length].
      assert (Hxu : x ∈ U) by (apply HU; left).
      replace (U ∖ seen) with ({[x]} ∪ (U ∖ ({[x]} ∪ seen))).
      * rewrite (size_union {[x]} (U ∖ ({[x]} ∪ seen))) by (clear H1 H2 H3 HU; set_solver).
        rewrite (size_singleton x). lia.
      * apply set_eq. intros y. destruct (decide (y = x)); clear HU H1 H2 H3; set_solver.
Qed.

(** Every seen element is still on the stack or has its successors seen. *)
Definition expanded graph stack seen : Prop :=
  forall x, x ∈ seen -> x ∈ stack \/ forall y, edge_in graph x y -> y ∈ seen.

Lemma expanded_reach graph stack seen x y :
  expanded graph stack seen -> x ∈ seen -> tc (edge_in graph) x y ->
  y ∈ seen \/ exists z, z ∈ stack /\ tc (edge_in graph) z y.
Proof.
  intros Hexp Hx Hxy. revert Hx.
  induction Hxy as [x y Hxy|x z y Hxz Hzy IH]; intros Hx; destruct (Hexp x Hx) as [Hs|Hs].
  - right. exists x. split; [done|by apply tc_once].
  - left. auto.
  - right. exists x. split; [done|by eapply tc_l].
  - auto.
Qed.

Lemma closure_loop_spec fuel : forall graph stack seen,
  expanded graph stack seen ->
  (length stack + size (targets graph ∖ seen) < fuel)%nat ->
  exists R, closure_loop fuel graph stack seen = Ok R /\
    forall y, y ∈ R <-> y ∈ seen \/ exists x, x ∈ stack /\ tc (edge_in graph) x y.
Proof.
  induction fuel as [|fuel IH]; intros graph [|cur rest] seen Hexp Hf; try (cbn in Hf; lia); cbn [closure_loop].
  { exists seen. split; [done|]. intros y. set_solver. }
  destruct (push_new_spec (successors graph cur) seen rest) as (H1 & H2 & H3).
  set (st := fold_left _ _ _) in *.
  assert (Hexp' : expanded graph st.2 st.1).
  { intros x Hx. apply H1 in Hx as [Hx|Hx].
    - destruct (Hexp x Hx) as [Hs|Hs].
      + apply elem_of_cons in Hs as [->|Hs]; [right; intros y Hy; apply H1; by right|].
        left. apply H2. by left.
      + right. intros y Hy. apply H1. left. auto.
    - destruct (decide (x ∈ seen)) as [Hs|Hs]; [|left; apply H2; by right].
      destruct (Hexp x Hs) as [Hc|Hc].
      + apply elem_of_cons in Hc as [->|Hc]; [right; intros y Hy; apply H1; by right|].
        left. apply H2. by left.
      + right. intros y Hy. apply H1. left. auto. }
  destruct (IH graph st.2 st.1) as (R & HR & HS); [done| |].
  { specialize (H3 (targets graph)). cbn in Hf. rewrite H3; [lia|]. apply successors_targets. }
  exists R. split; [done|]. intros y. rewrite HS. split.
  - intros [[Hy|Hy]%H1|(x & [Hx|[Hx _]]%H2 & Hxy)].
    + by left.
    + right. exists cur. split; [left|by apply tc_once].
    + right. exists x. split; [by right|done].
    + right. exists cur. split; [left|by eapply tc_l].
  - intros [Hy|(x & Hx & Hxy)]; [left; apply H1; by left|].
    apply elem_of_cons in Hx as [->|Hx]; [|right; exists x; split; [apply H2; by left|done]].
    inversion Hxy as [? ? Hcy|? z ? Hcz Hzy]; subst; [left; apply H1; by right|].
    eapply expanded_reach; [done| |done]. apply H1. by right.
Qed.

Lemma closure_spec graph seeds seen :
  expanded graph (elements seeds) seen ->
  exists R, closure graph seeds seen = Ok R /\
    forall y, y ∈ R <-> y ∈ seen \/ exists x, x ∈ seeds /\ tc (edge_in graph) x y.
Proof.
  intros Hexp.
  destruct (closure_loop_spec (S (size seeds + size (targets graph))) graph (elements seeds) seen)
    as (R & HR & HS); [done| |].
  { assert (size (targets graph ∖ seen) <= size (targets graph))%nat
      by (apply subseteq_size; set_solver).
    change (length (elements seeds)) with (size seeds). lia. }
  exists R. split; [done|]. intros y. rewrite HS. setoid_rewrite elem_of_elements. done.
Qed.
End closure.
