(* ===== verification/Supergraph.v ===== *)
(** * The interprocedural skeleton ([analysis/ifds/supergraph.py])

    [build_supergraph] partitions the nodes of a CPG into procedures and
    records CFG successors, call targets and the static call graph;
    [transitive_callers] is reverse reachability over that graph. *)
From stdpp Require Import base tactics list gmap sets relations strings.
From Stdlib Require Import ZArith Lia.
From S2P Require Import Prelude PyData PyDict Budget Cpg GraphSpec Ordering.

Open Scope Z_scope.
Open Scope py_scope.

Definition CALL_EDGE : pystr := str "CALL".
Definition RETURN_EDGE : pystr := str "RETURN".
Definition CFG_EDGE : pystr := str "CFG".

Record Procedure := mkProc {
  proc_id : Z;
  entry : Z;
  proc_fqn : pystr;
  body_nodes : list Z
}.

Record ExplodedSupergraph := mkSG {
  sg_cpg : CPG;
  procs : gmap Z Procedure;
  proc_of_node : gmap Z Z;
  cfg_succ : gmap Z (list Z);
  call_succ : gmap Z (list Z);
  callees : gmap Z (gset Z);
  callers : gmap Z (gset Z)
}.

(** [transitive_callers] *)
Definition transitive_callers (sg : ExplodedSupergraph) (seed : gset Z) : outcome (gset Z) :=
  closure (callers sg) seed ∅.

(** [okey]: nodes absent from the canonical order come last. *)
Definition okey (order_index : gmap Z Z) (nid : Z) : Z :=
  default (Z.of_nat (size order_index) + nid) (order_index !! nid).

Definition okey_leb (order_index : gmap Z Z) (a b : Z) : bool :=
  okey order_index a <=? okey order_index b.

Definition is_method (n : CPGNode) : bool := bool_decide (kind n = str "METHOD").

(** [n.resolved_fqn or n.enclosing_decl_fqn] *)
Definition method_fqn (n : CPGNode) : pystr :=
  match resolved_fqn n with [] => enclosing_decl_fqn n | f => f end.

(** [cpg.nodes] of kind [METHOD], sorted by [okey]. *)
Definition method_nodes (g : CPG) (order_index : gmap Z Z) : list CPGNode :=
  py_sorted (fun a b => okey_leb order_index (node_id a) (node_id b))
            (List.filter is_method (nodes g)).

(** Step 1: the procedures and the table of their names.  A later method
    with the same name replaces an earlier one in the table. *)
Definition declare_proc (acc : gmap Z Procedure * gmap pystr Z) (n : CPGNode) :
    gmap Z Procedure * gmap pystr Z :=
  let pid := node_id n in
  let fqn := method_fqn n in
  (<[pid := mkProc pid (node_id n) fqn []]> acc.1,
   match fqn with [] => acc.2 | _ => <[fqn := pid]> acc.2 end).

Definition declare_procs (g : CPG) (order_index : gmap Z Z) : gmap Z Procedure * gmap pystr Z :=
  fold_left declare_proc (method_nodes g order_index) (∅, ∅).

(** Step 2: the procedure of a node, [-1] for none. *)
Definition pid_of (fqn_to_proc : gmap pystr Z) (n : CPGNode) : Z :=
  if is_method n then node_id n else default (-1) (fqn_to_proc !! enclosing_decl_fqn n).

Definition assign_node (fqn_to_proc : gmap pystr Z)
    (acc : gmap Z Z * gmap Z (list Z)) (n : CPGNode) : gmap Z Z * gmap Z (list Z) :=
  let pid := pid_of fqn_to_proc n in
  if pid =? -1 then acc
  else (<[node_id n := pid]> acc.1,
        if is_method n then acc.2 else append_at acc.2 pid (node_id n)).

(** [d.setdefault(n, [])] for every node *)
Definition empty_succ (g : CPG) : gmap Z (list Z) := py_dict (map (fun n => (node_id n, [])) (nodes g)).

(** Step 3: one edge.  [sg.cfg_succ[e.src]] raises [KeyError] when [e.src] is
    not a node; the call-graph sets exist for every method. *)
Record EdgeMaps := mkEdgeMaps {
  em_cfg : gmap Z (list Z);
  em_call : gmap Z (list Z);
  em_callees : gmap Z (gset Z);
  em_callers : gmap Z (gset Z)
}.

Definition add_to (m : gmap Z (gset Z)) (k v : Z) : gmap Z (gset Z) :=
  <[k := {[v]} ∪ default ∅ (m !! k)]> m.

Definition record_edge (node_by_id : gmap Z CPGNode) (proc_of : gmap Z Z)
    (em : EdgeMaps) (e : CPGEdge) : outcome EdgeMaps :=
  if bool_decide (edge_kind e = CFG_EDGE) then
    l ⇐ getitem (em_cfg em) (src e);
    Ok (mkEdgeMaps (<[src e := l ++ [dst e]]> (em_cfg em)) (em_call em) (em_callees em) (em_callers em))
  else if bool_decide (edge_kind e = CALL_EDGE) then
    match node_by_id !! dst e with
    | Some callee =>
        if is_method callee then
          let callee_pid := node_id callee in
          l ⇐ getitem (em_call em) (src e);
          let call := <[src e := l ++ [callee_pid]]> (em_call em) in
          match proc_of !! src e with
          | Some caller_pid =>
              Ok (mkEdgeMaps (em_cfg em) call (add_to (em_callees em) caller_pid callee_pid)
                             (add_to (em_callers em) callee_pid caller_pid))
          | None => Ok (mkEdgeMaps (em_cfg em) call (em_callees em) (em_callers em))
          end
        else Ok em
    | None => Ok em
    end
  else Ok em.

Definition node_map (g : CPG) : gmap Z CPGNode := py_dict (map (fun n => (node_id n, n)) (nodes g)).

(** [build_supergraph] *)
Definition build_supergraph (g : CPG) (canonical_order : list Z) : outcome ExplodedSupergraph :=
  let order_index := enumerate_index canonical_order in
  let declared := declare_procs g order_index in
  let assigned := fold_left (assign_node declared.2) (nodes g) (∅, ∅) in
  let with_body p := mkProc (proc_id p) (entry p) (proc_fqn p)
    (py_sorted (okey_leb order_index) (default [] (assigned.2 !! proc_id p))) in
  let no_calls : gmap Z (gset Z) := (fun _ => ∅) <$> declared.1 in
  em ⇐ foldO (record_edge (node_map g) assigned.1)
         (mkEdgeMaps (empty_succ g) (empty_succ g) no_calls no_calls) (edges g);
  Ok (mkSG g (with_body <$> declared.1) assigned.1
        (py_sorted (okey_leb order_index) <$> em_cfg em)
        (py_sorted (okey_leb order_index) <$> em_call em)
        (em_callees em) (em_callers em)).

(** ** What the skeleton contains *)

Lemma ids_fmap g : (map (fun n => (node_id n, n)) (nodes g)).*1 = ids g.
Proof. unfold ids. rewrite <-list_fmap_compose. done. Qed.

Lemma node_map_lookup g i n : NoDup (ids g) ->
  node_map g !! i = Some n <-> n ∈ nodes g /\ node_id n = i.
Proof.
  intros Hnd. unfold node_map. rewrite py_dict_lookup by (by rewrite ids_fmap).
  rewrite list_elem_of_fmap. split; [intros (n' & [= -> ->] & Hn); done|].
  intros [Hn <-]. by exists n.
Qed.

Lemma node_unique g n n' : NoDup (ids g) ->
  n ∈ nodes g -> n' ∈ nodes g -> node_id n = node_id n' -> n = n'.
Proof.
  intros Hnd Hn Hn' E.
  assert (H1 : node_map g !! node_id n = Some n) by (by apply node_map_lookup).
  assert (H2 : node_map g !! node_id n = Some n') by (by apply node_map_lookup). congruence.
Qed.

Lemma node_map_is_Some g i : is_Some (node_map g !! i) <-> i ∈ ids g.
Proof. unfold node_map. by rewrite py_dict_lookup_is_Some, ids_fmap. Qed.

Definition succs (d : gmap Z (list Z)) (n : Z) : list Z := default [] (d !! n).

(** The methods of the graph, by node id. *)
Definition method_ids (g : CPG) : list Z := map node_id (List.filter is_method (nodes g)).

Lemma elem_of_method_ids g p :
  p ∈ method_ids g <-> exists n, n ∈ nodes g /\ is_method n = true /\ node_id n = p.
Proof.
  unfold method_ids. rewrite list_elem_of_fmap.
  assert (H : forall n, n ∈ List.filter is_method (nodes g) <-> n ∈ nodes g /\ is_method n = true)
    by (intros n; by rewrite !list_elem_of_In, filter_In).
  setoid_rewrite H. naive_solver.
Qed.

(** Every declared procedure is its own entry, and the name table only
    names declared procedures. *)
Lemma declared_spec g idx :
  (forall p, is_Some ((declare_procs g idx).1 !! p) <-> p ∈ method_ids g) /\
  (forall p P, (declare_procs g idx).1 !! p = Some P -> proc_id P = p /\ entry P = p) /\
  (forall f p, (declare_procs g idx).2 !! f = Some p -> p ∈ method_ids g).
Proof.
  assert (Hm : forall p, p ∈ method_ids g <-> p ∈ map node_id (method_nodes g idx)).
  { intros p. unfold method_ids, method_nodes. rewrite !list_elem_of_fmap.
    by setoid_rewrite py_sorted_elem. }
  setoid_rewrite Hm. unfold declare_procs. clear Hm.
  assert (Hgen : forall l (acc : gmap Z Procedure * gmap pystr Z) (D : list Z),
    (forall p, is_Some (acc.1 !! p) <-> p ∈ D) /\
    (forall p P, acc.1 !! p = Some P -> proc_id P = p /\ entry P = p) /\
    (forall f p, acc.2 !! f = Some p -> p ∈ D) ->
    let r := fold_left declare_proc l acc in
    (forall p, is_Some (r.1 !! p) <-> p ∈ map node_id l ++ D) /\
    (forall p P, r.1 !! p = Some P -> proc_id P = p /\ entry P = p) /\
    (forall f p, r.2 !! f = Some p -> p ∈ map node_id l ++ D)).
  { induction l as [|n l IH]; intros acc D HD; cbn; [done|].
    destruct (IH (declare_proc acc n) (node_id n :: D)) as (H1 & H2 & H3).
    - destruct HD as (D1 & D2 & D3). unfold declare_proc; cbn. split_and!.
      + intros p. rewrite lookup_insert_is_Some, elem_of_cons, D1.
        destruct (decide (p = node_id n)); naive_solver.
      + intros p P. rewrite lookup_insert_Some. intros [[<- <-]|[_ HP]]; [done|by apply D2].
      + intros f p Hf. destruct (method_fqn n) eqn:E; [right; by eapply D3|].
        apply lookup_insert_Some in Hf as [[_ <-]|[_ Hf]]; [left|right; by eapply D3].
    - cbv zeta in *. split_and!; [intros p; rewrite H1|done|intros f p Hp%H3; revert Hp];
        rewrite elem_of_cons, !elem_of_app, elem_of_cons; tauto. }
  destruct (Hgen (method_nodes g idx) (∅, ∅) []) as (H1 & H2 & H3).
  { cbn. split_and!.
    - intros p. rewrite lookup_empty. split; [intros [? ?]; done|by intros ?%elem_of_nil].
    - intros p P. by rewrite lookup_empty.
    - intros f p. by rewrite lookup_empty. }
  cbv zeta in *. setoid_rewrite app_nil_r in H1. setoid_rewrite app_nil_r in H3. done.
Qed.

(** A node is in a procedure when it is a method or its enclosing declaration
    is a named method. *)
Definition in_procedure (g : CPG) (i : Z) : Prop :=
  exists n, n ∈ nodes g /\ node_id n = i /\
    (is_method n = true \/
     exists m, m ∈ nodes g /\ is_method m = true /\ method_fqn m = enclosing_decl_fqn n /\ method_fqn m <> []).

Lemma declared_names g idx f :
  is_Some ((declare_procs g idx).2 !! f) <->
  exists m, m ∈ nodes g /\ is_method m = true /\ method_fqn m = f /\ f <> [].
Proof.
  assert (Hgen : forall l (acc : gmap Z Procedure * gmap pystr Z),
    is_Some ((fold_left declare_proc l acc).2 !! f) <->
    is_Some (acc.2 !! f) \/ exists m, m ∈ l /\ method_fqn m = f /\ f <> []).
  { induction l as [|n l IH]; intros acc; cbn.
    { split; [by left|]. intros [?|(m & ?%elem_of_nil & _)]; done. }
    rewrite IH. setoid_rewrite elem_of_cons. unfold declare_proc. cbn.
    destruct (method_fqn n) as [|c w] eqn:E.
    - split; [intros [?|(m & ? & ?)]; eauto|].
      intros [?|(m & [->|?] & Hm & Hf)]; [by left|congruence|eauto].
    - rewrite lookup_insert_is_Some. split.
      + intros [[<-|[_ ?]]|(m & ? & ?)]; [right; exists n; auto|by left|eauto].
      + intros [?|(m & [->|?] & <- & Hf)]; [|left; left; congruence|eauto].
        destruct (decide (c :: w = f)); auto. }
  unfold declare_procs. rewrite Hgen. cbn. rewrite lookup_empty. split.
  - intros [[? ?]|(m & Hm & E & Hf)]; [done|]. unfold method_nodes in Hm. rewrite py_sorted_elem in Hm.
    apply list_elem_of_In, filter_In in Hm as [Hm ?]. apply list_elem_of_In in Hm. eauto.
  - intros (m & Hm & Hi & E & Hf). right. exists m. split; [|done]. unfold method_nodes.
    rewrite py_sorted_elem. apply list_elem_of_In, filter_In. split; [by apply list_elem_of_In|done].
Qed.

Lemma assigned_spec g f2p : NoDup (ids g) -> forall i p,
  (fold_left (assign_node f2p) (nodes g) (∅, ∅)).1 !! i = Some p <->
  exists n, n ∈ nodes g /\ node_id n = i /\ pid_of f2p n = p /\ p <> -1.
Proof.
  unfold ids. intros Hnd i p.
  assert (Hgen : forall l (acc : gmap Z Z * gmap Z (list Z)), NoDup (map node_id l) ->
    (fold_left (assign_node f2p) l acc).1 !! i = Some p <->
    (exists n, n ∈ l /\ node_id n = i /\ pid_of f2p n = p /\ p <> -1) \/
    ((forall n, n ∈ l -> node_id n = i -> pid_of f2p n = -1) /\ acc.1 !! i = Some p)).
  { induction l as [|n l IH]; intros acc Hl; cbn.
    { split; [right; split; [by intros n Hn%elem_of_nil|done]|].
      intros [(n & Hn%elem_of_nil & _)|[_ H]]; done. }
    cbn in Hl. apply NoDup_cons in Hl as [Hni Hl]. rewrite IH by done. clear IH.
    assert (Hfresh : forall n', n' ∈ l -> node_id n' <> node_id n).
    { intros n' Hn' E. apply Hni. rewrite <-E. apply list_elem_of_fmap. by exists n'. }
    unfold assign_node. destruct (Z.eqb_spec (pid_of f2p n) (-1)) as [E|E]; cbn.
    - setoid_rewrite elem_of_cons. naive_solver.
    - rewrite lookup_insert_Some. setoid_rewrite elem_of_cons. split.
      + intros [(n' & H1 & H2)|(H1 & [[<- <-]|[Hne H2]])]; [naive_solver| |].
        * left. exists n. naive_solver.
        * right. naive_solver.
      + intros [(n' & [->|Hn'] & <- & <- & Hp)|(H1 & H2)].
        * right. split; [|by left]. intros n' Hn' E'. by destruct (Hfresh n' Hn').
        * left. by exists n'.
        * right. split; [naive_solver|]. right. split; [|done]. intros <-.
          by destruct E; apply H1; [left|]. }
  rewrite Hgen by done. cbn. rewrite lookup_empty. naive_solver.
Qed.

Section edges.
Context (g : CPG) (proc_of : gmap Z Z) (Hnd : NoDup (ids g)).

Record edges_recorded (es : list CPGEdge) (em : EdgeMaps) : Prop := {
  er_cfg_dom i : i ∈ ids g -> is_Some (em_cfg em !! i);
  er_call_dom i : i ∈ ids g -> is_Some (em_call em !! i);
  er_cfg n m : m ∈ succs (em_cfg em) n <->
    exists e, e ∈ es /\ edge_kind e = CFG_EDGE /\ src e = n /\ dst e = m;
  er_call n p : p ∈ succs (em_call em) n <->
    exists e, e ∈ es /\ edge_kind e = CALL_EDGE /\ src e = n /\ dst e = p /\ p ∈ method_ids g;
  er_callees q p : p ∈ default ∅ (em_callees em !! q) <->
    exists e, e ∈ es /\ edge_kind e = CALL_EDGE /\ dst e = p /\ p ∈ method_ids g /\
              proc_of !! src e = Some q;
  er_callers p q : q ∈ default ∅ (em_callers em !! p) <->
    exists e, e ∈ es /\ edge_kind e = CALL_EDGE /\ dst e = p /\ p ∈ method_ids g /\
              proc_of !! src e = Some q
}.

Lemma succs_app (d : gmap Z (list Z)) k l v n x :
  d !! k = Some l -> x ∈ succs (<[k := l ++ [v]]> d) n <-> x ∈ succs d n \/ (n = k /\ x = v).
Proof.
  intros Hk. unfold succs. destruct (decide (n = k)) as [->|Hne].
  - rewrite lookup_insert_eq, Hk. cbn. rewrite elem_of_app, list_elem_of_singleton. naive_solver.
  - rewrite lookup_insert_ne by done. naive_solver.
Qed.

Lemma elem_of_add_to m k v n x :
  x ∈ default ∅ (add_to m k v !! n) <-> x ∈ default ∅ (m !! n) \/ (n = k /\ x = v).
Proof.
  unfold add_to. destruct (decide (n = k)) as [->|Hne].
  - rewrite lookup_insert_eq. cbn. set_solver.
  - rewrite lookup_insert_ne by done. naive_solver.
Qed.

Lemma insert_dom {A} (d : gmap Z A) k v i : is_Some (d !! i) -> is_Some (<[k := v]> d !! i).
Proof. intros H. apply lookup_insert_is_Some. destruct (decide (k = i)); auto. Qed.

Lemma elem_of_snoc {A} (l : list A) e (P : A -> Prop) :
  (exists x, x ∈ l ++ [e] /\ P x) <-> (exists x, x ∈ l /\ P x) \/ P e.
Proof. setoid_rewrite elem_of_app. setoid_rewrite list_elem_of_singleton. naive_solver. Qed.

Lemma record_edge_spec es em e :
  edges_recorded es em -> src e ∈ ids g ->
  exists em', record_edge (node_map g) proc_of em e = Ok em' /\ edges_recorded (es ++ [e]) em'.
Proof.
  intros [R1 R2 R3 R4 R5 R6] Hsrc. unfold record_edge.
  assert (Hne : CFG_EDGE <> CALL_EDGE) by discriminate.
  case_bool_decide as Hk; [|case_bool_decide as Hk'].
  - destruct (R1 _ Hsrc) as [l Hl]. unfold getitem. rewrite Hl. cbn. eexists. split; [done|].
    split; cbn; intros; rewrite ?elem_of_snoc.
    + apply insert_dom. auto.
    + auto.
    + rewrite (succs_app _ _ _ _ _ _ Hl), R3. naive_solver.
    + rewrite R4. naive_solver congruence.
    + rewrite R5. naive_solver congruence.
    + rewrite R6. naive_solver congruence.
  - destruct (node_map g !! dst e) as [callee|] eqn:Ec.
    + apply node_map_lookup in Ec as [Hc Hid]; [|done]. destruct (is_method callee) eqn:Em.
      * assert (Hm : dst e ∈ method_ids g) by (apply elem_of_method_ids; eauto).
        destruct (R2 _ Hsrc) as [l Hl]. unfold getitem. rewrite Hl. cbn. rewrite Hid.
        destruct (proc_of !! src e) as [q|] eqn:Eq; eexists; (split; [done|]);
          split; cbn; intros; rewrite ?elem_of_snoc, ?elem_of_add_to;
          try (by apply insert_dom; auto); try (by auto);
          rewrite ?(succs_app _ _ _ _ _ _ Hl), ?R3, ?R4, ?R5, ?R6; naive_solver congruence.
      * assert (Hm : dst e ∉ method_ids g).
        { rewrite elem_of_method_ids. intros (n & Hn & Hm & Hi).
          assert (n = callee) as -> by (eapply node_unique; [done..|congruence]). congruence. }
        eexists; split; [done|]. split; intros; rewrite ?elem_of_snoc; try (by auto);
          rewrite ?R3, ?R4, ?R5, ?R6; naive_solver congruence.
    + assert (Hm : dst e ∉ method_ids g).
      { rewrite elem_of_method_ids. intros (n & Hn & Hm & Hi).
        assert (node_map g !! dst e = Some n) by (by apply node_map_lookup). congruence. }
      eexists; split; [done|]. split; intros; rewrite ?elem_of_snoc; try (by auto);
        rewrite ?R3, ?R4, ?R5, ?R6; naive_solver congruence.
  - eexists; split; [done|]. split; intros; rewrite ?elem_of_snoc; try (by auto);
      rewrite ?R3, ?R4, ?R5, ?R6; naive_solver congruence.
Qed.

Lemma record_edges_spec em0 es :
  edges_recorded [] em0 -> (forall e, e ∈ es -> src e ∈ ids g) ->
  exists em, foldO (record_edge (node_map g) proc_of) em0 es = Ok em /\ edges_recorded es em.
Proof.
  intros H0. induction es as [|e es IH] using rev_ind; intros Hes; [by exists em0|].
  destruct IH as (em & Hem & Hr); [set_solver|]. rewrite foldO_app, Hem. cbn.
  destruct (record_edge_spec es em e Hr) as (em' & -> & Hr'); [set_solver|]. by exists em'.
Qed.
End edges.

Lemma body_spec f2p l i p : forall acc : gmap Z Z * gmap Z (list Z),
  i ∈ default [] ((fold_left (assign_node f2p) l acc).2 !! p) <->
  i ∈ default [] (acc.2 !! p) \/
  exists n, n ∈ l /\ node_id n = i /\ is_method n = false /\ pid_of f2p n = p /\ p <> -1.
Proof.
  induction l as [|n l IH]; intros acc; cbn.
  { split; [by left|]. intros [?|(n & Hn%elem_of_nil & _)]; done. }
  rewrite IH. setoid_rewrite elem_of_cons. clear IH. unfold assign_node.
  destruct (Z.eqb_spec (pid_of f2p n) (-1)) as [E|E]; cbn; [naive_solver|].
  destruct (is_method n) eqn:Em.
  { split; [intros [H|(n' & H & H')]; [by left|right; exists n'; tauto]|].
    intros [H|(n' & [->|H] & H')]; [by left|destruct_and!; congruence|right; exists n'; tauto]. }
  unfold append_at.
  destruct (decide (p = pid_of f2p n)) as [->|Hne].
  - rewrite lookup_insert_eq. cbn. rewrite elem_of_app, list_elem_of_singleton. naive_solver.
  - rewrite lookup_insert_ne by done. naive_solver.
Qed.

(** The graph has an edge of kind [k] from [n] to [m]. *)
Definition has_edge (g : CPG) (k : pystr) (n m : Z) : Prop :=
  exists e, e ∈ edges g /\ edge_kind e = k /\ src e = n /\ dst e = m.

(** What [build_supergraph] promises about its result: every method is a
    procedure and its own entry; every other node belongs to at most one
    procedure, whose body lists it; the adjacency is that of the CFG edges and
    of the CALL edges into methods; the call graph relates the procedure of a
    call site to the called method. *)
Record skeleton (g : CPG) (sg : ExplodedSupergraph) : Prop := {
  sk_cpg : sg_cpg sg = g;
  sk_procs p : is_Some (procs sg !! p) <-> p ∈ method_ids g;
  sk_entry p P : procs sg !! p = Some P -> proc_id P = p /\ entry P = p;
  sk_method p : p ∈ method_ids g -> proc_of_node sg !! p = Some p;
  sk_proc i p : proc_of_node sg !! i = Some p -> i ∈ ids g /\ p ∈ method_ids g;
  sk_in_proc i : is_Some (proc_of_node sg !! i) <-> in_procedure g i;
  sk_body p P i : procs sg !! p = Some P ->
    i ∈ body_nodes P <-> i ∉ method_ids g /\ proc_of_node sg !! i = Some p;
  sk_cfg n m : m ∈ succs (cfg_succ sg) n <-> has_edge g CFG_EDGE n m;
  sk_call n p : p ∈ succs (call_succ sg) n <-> has_edge g CALL_EDGE n p /\ p ∈ method_ids g;
  sk_callees q p : p ∈ default ∅ (callees sg !! q) <->
    exists n, has_edge g CALL_EDGE n p /\ p ∈ method_ids g /\ proc_of_node sg !! n = Some q;
  sk_callers p q : q ∈ default ∅ (callers sg !! p) <->
    exists n, has_edge g CALL_EDGE n p /\ p ∈ method_ids g /\ proc_of_node sg !! n = Some q
}.

Lemma empty_maps_recorded g proc_of (D : gmap Z Procedure) :
  edges_recorded g proc_of []
    (mkEdgeMaps (empty_succ g) (empty_succ g) ((fun _ => ∅) <$> D) ((fun _ => ∅) <$> D)).
Proof.
  assert (Hd : forall i, i ∈ ids g -> is_Some (empty_succ g !! i)).
  { intros i Hi. unfold empty_succ. rewrite py_dict_lookup_is_Some, <-list_fmap_compose. done. }
  assert (Hs : forall n m, m ∉ succs (empty_succ g) n).
  { intros n m. unfold succs, empty_succ.
    destruct (py_dict _ !! n) as [l|] eqn:E; cbn; [|by intros ?%elem_of_nil].
    cut (l = []); [intros ->; by intros ?%elem_of_nil|]. revert E. unfold py_dict.
    cut (forall d : gmap Z (list Z), (forall v, d !! n = Some v -> v = []) ->
      fold_left (fun d kv => <[kv.1:=kv.2]> d) (map (fun n => (node_id n, [])) (nodes g)) d !! n = Some l -> l = []).
    { intros H. apply H. by intros v. }
    induction (nodes g) as [|x xs IH]; intros d Hd'; cbn; [apply Hd'|].
    apply IH. intros v. rewrite lookup_insert_Some. naive_solver. }
  assert (He : forall q p, p ∉ default ∅ (((fun _ => ∅ : gset Z) <$> D) !! q)).
  { intros q p. rewrite lookup_fmap. destruct (D !! q); set_solver. }
  split; cbn; auto; intros a b; (split; [intros Hx; exfalso; revert Hx; auto; by apply Hs || by apply He|]);
    intros (e & Hn%elem_of_nil & _); done.
Qed.

Lemma valid_id_nonneg g i : valid_cpg g -> i ∈ ids g -> i <> -1.
Proof.
  intros Hg Hi. apply list_elem_of_fmap in Hi as (n & -> & Hn).
  destruct Hg as [_ Hv _]. rewrite Forall_forall in Hv. destruct (Hv n Hn) as [Hid]. unfold u64_ok in Hid. lia.
Qed.

Lemma build_supergraph_skeleton g order :
  valid_cpg g -> exists sg, build_supergraph g order = Ok sg /\ skeleton g sg.
Proof.
  intros Hg. pose proof (valid_id_nonneg g) as Hnn. pose proof Hg as [Hnd _ He]. rewrite Forall_forall in He.
  unfold build_supergraph. set (idx := enumerate_index order).
  destruct (declared_spec g idx) as (D1 & D2 & D3). set (D := declare_procs g idx) in *.
  pose proof (assigned_spec g D.2 Hnd) as HA. set (A := fold_left (assign_node D.2) (nodes g) (∅, ∅)) in *.
  destruct (record_edges_spec g A.1 Hnd _ (edges g) (empty_maps_recorded g A.1 D.1)) as (em & -> & Hem).
  { intros e Hin. by destruct (He e Hin). }
  cbn. eexists. split; [done|]. destruct Hem as [_ _ E3 E4 E5 E6].
  assert (Hsort : forall (d : gmap Z (list Z)) n m,
    m ∈ succs (py_sorted (okey_leb idx) <$> d) n <-> m ∈ succs d n).
  { intros d n m. unfold succs. rewrite lookup_fmap. destruct (d !! n); cbn; [apply py_sorted_elem|done]. }
  assert (Hpid : forall n, n ∈ nodes g -> pid_of D.2 n <> -1 -> pid_of D.2 n ∈ method_ids g).
  { intros n Hn Hp. unfold pid_of in *. destruct (is_method n) eqn:Em.
    - apply elem_of_method_ids. by exists n.
    - destruct (D.2 !! enclosing_decl_fqn n) eqn:Ef; cbn in *; [by eapply D3|done]. }
  assert (Hmeth : forall p, p ∈ method_ids g -> p <> -1).
  { intros p (n & Hn & _ & <-)%elem_of_method_ids. apply (Hnn _ Hg). apply list_elem_of_fmap. eauto. }
  split; cbn.
  - done.
  - intros p. rewrite lookup_fmap, fmap_is_Some. apply D1.
  - intros p P. rewrite lookup_fmap_Some. intros (P0 & <- & HP0). cbn. eauto.
  - intros p Hp. apply HA. pose proof (Hmeth p Hp). apply elem_of_method_ids in Hp as (n & Hn & Hm & <-).
    exists n. unfold pid_of. rewrite Hm. done.
  - intros i p (n & Hn & <- & <- & Hp)%HA. split; [apply list_elem_of_fmap; eauto|by apply Hpid].
  - intros i. unfold in_procedure. split.
    + intros [p (n & Hn & <- & <- & Hp)%HA]. exists n. split_and!; [done..|]. unfold pid_of in Hp.
      destruct (is_method n); [by left|right].
      destruct (D.2 !! enclosing_decl_fqn n) eqn:Ef; [|done].
      destruct (proj1 (declared_names g idx (enclosing_decl_fqn n))) as (m & ? & ? & ? & ?); [by eexists|].
      exists m. split_and!; congruence.
    + intros (n & Hn & <- & Hp). exists (pid_of D.2 n). apply HA. exists n. split_and!; [done..|].
      unfold pid_of. destruct (is_method n) eqn:Em.
      * apply Hmeth, elem_of_method_ids. by exists n.
      * destruct Hp as [?|(m & Hm & Hi & E & Hf)]; [done|].
        assert (is_Some (D.2 !! enclosing_decl_fqn n)) as [p Hp].
        { apply declared_names. exists m. split_and!; congruence. }
        rewrite Hp. cbn. eapply Hmeth, D3, Hp.
  - intros p P i. rewrite lookup_fmap_Some. intros (P0 & <- & HP0). cbn.
    destruct (D2 p P0 HP0) as [-> _]. 
    pose proof (body_spec D.2 (nodes g) i p (∅, ∅)) as HB. fold A in HB. cbn in HB.
    rewrite lookup_empty in HB. rewrite py_sorted_elem, HB, HA, elem_of_method_ids. cbn. split.
    + intros [?%elem_of_nil|(n & Hn & <- & Hm & Hp & Hne)]; [done|]. split; [|by exists n].
      intros (n' & Hn' & Hm' & Hid). rewrite (node_unique g n' n) in Hm' by done. congruence.
    + intros [Hno (n & Hn & <- & Hp & Hne)]. right. exists n. split_and!; try done.
      destruct (is_method n) eqn:Em; [|done]. destruct Hno. by exists n.
  - intros n m. rewrite Hsort, E3. done.
  - intros n p. rewrite Hsort, E4. unfold has_edge. naive_solver.
  - intros q p. rewrite E5. unfold has_edge. naive_solver.
  - intros p q. rewrite E6. unfold has_edge. naive_solver.
Qed.

(** [build_supergraph] refines the graph.  On a valid CPG it returns a
    skeleton of it: the procedures are the methods, each node belongs to at
    most one procedure whose body lists it, and adjacency and call graph are
    those of the CFG and CALL edges. *)
Theorem supergraph_refines_graph g order :
  valid_cpg g -> exists sg, build_supergraph g order = Ok sg /\ skeleton g sg.
Proof. apply build_supergraph_skeleton. Qed.
