(* ===== verification/Solver.v ===== *)
(** * The IFDS tabulation solver ([analysis/ifds/solver.py])

    Seeding, the worklist tabulation with its write-once predecessor map,
    witness reconstruction, the read-out of findings, the solution hash, and
    the full and incremental entry points.  A taint fact is an integer; a fact
    set is a finite set.  The iteration over a Python set whose order does not
    matter runs over [elements]. *)
From stdpp Require Import base tactics list gmap sets relations strings.
From Stdlib Require Import ZArith QArith Lia.
From S2P Require Import Prelude PyData PyDict Sha256 Budget Cpg Ordering Dsl Supergraph.

Open Scope Z_scope.
Open Scope py_scope.

(** [_pattern_matches] *)
Definition _pattern_matches (pattern : AccessPathPattern) (node : CPGNode) : bool :=
  bool_decide (pattern = operator_or_literal node) && negb (bool_decide (operator_or_literal node = [])).

(** ** Outputs *)

Record Finding := mkFinding {
  sink : Z;
  fact : Z;
  witness : list Z;
  finding_spec_id : pystr;
  origin : pystr;
  S_version : pystr;
  env_digest : pybytes;
  finding_cpg_order_hash : pybytes;
  finding_annotation : pystr;
  finding_class : FingerprintClass;
  finding_engine : pystr
}.

#[export] Instance Finding_eq_dec : EqDecision Finding.
Proof. solve_decision. Defined.

(** [SummaryCache] *)
Record SummaryCache := mkCache {
  header : pystr * pybytes;
  summaries : gmap Z (gmap Z (gset Z));
  cache_visited : gset Z
}.

(** [SummaryCache.invalidate], on the copy that [copy] returns *)
Definition invalidate (c : SummaryCache) (ps : gset Z) : SummaryCache :=
  mkCache (header c)
    (fold_left (fun m p => delete p m) (elements ps) (summaries c))
    (fold_left (fun v p => v ∖ {[p]}) (elements ps) (cache_visited c)).

(** [SolverResult]; the frozenset of findings is a list without duplicates. *)
Record SolverResult := mkResult {
  findings : list Finding;
  solution_hash : pybytes;
  visited_procs : gset Z;
  result_summaries : SummaryCache
}.

(** ** Seeding *)

(** [seeded.setdefault(k, set()).add(f)] on a dict in insertion order *)
Fixpoint seed_add (seeded : list (Z * gset Z)) (k f : Z) : list (Z * gset Z) :=
  match seeded with
  | [] => [(k, {[f]})]
  | (k', F) :: rest => if decide (k = k') then (k', {[f]} ∪ F) :: rest
                       else (k', F) :: seed_add rest k f
  end.

Record SeedState := mkSeed {
  seeded : list (Z * gset Z);
  fact_pattern : gmap Z AccessPathPattern;
  next_fact : Z
}.

Definition source_patterns (spec : Spec) : list AccessPathPattern :=
  omap (fun c => match c with Source p => Some p | _ => None end) (clauses spec).

Definition seed_clause (node : CPGNode) (s : SeedState) (p : AccessPathPattern) : SeedState :=
  if _pattern_matches p node
  then mkSeed (seed_add (seeded s) (node_id node) (next_fact s))
              (<[next_fact s := p]> (fact_pattern s)) (next_fact s + 1)
  else s.

(** [_seed_sources]: nodes in the order of their ids *)
Definition _seed_sources (sg : ExplodedSupergraph) (spec : Spec) : outcome SeedState :=
  let node_by_id := node_map (sg_cpg sg) in
  foldO (fun s nid => node ⇐ getitem node_by_id nid;
                      Ok (fold_left (seed_clause node) (source_patterns spec) s))
        (mkSeed [] ∅ 0) (py_sorted Z.leb (elements (dom node_by_id))).

Definition _sanitized_at (spec : Spec) (node : CPGNode) : bool :=
  existsb (fun c => match c with Sanitize p => _pattern_matches p node | _ => false end) (clauses spec).

Definition _is_sink (spec : Spec) (node : CPGNode) : bool :=
  existsb (fun c => match c with Sink p => _pattern_matches p node | _ => false end) (clauses spec).

(** ** Tabulation *)

Definition item : Type := Z * Z.

(** The local variables of [_tabulate]. *)
Record Tab := mkTab {
  facts_at : gmap Z (gset Z);
  visited : gset Z;
  pred : gmap item (option item);
  worklist : list item
}.

Definition proc_in_scope (restrict_to : option (gset Z)) (pid : option Z) : bool :=
  match pid with
  | None => false
  | Some p => match restrict_to with None => true | Some R => bool_decide (p ∈ R) end
  end.

(** The inner function [add]. *)
Definition add (sg : ExplodedSupergraph) (t : Tab) (nid f : Z) (pred_key : option item) : outcome Tab :=
  F ⇐ getitem (facts_at t) nid;
  if decide (f ∈ F) then Ok t
  else Ok (mkTab (<[nid := {[f]} ∪ F]> (facts_at t))
                 (match proc_of_node sg !! nid with
                  | Some pid => {[pid]} ∪ visited t
                  | None => visited t
                  end)
                 (<[(nid, f) := pred_key]> (pred t))
                 (worklist t ++ [(nid, f)])).

Definition seed_node (sg : ExplodedSupergraph) (restrict_to : option (gset Z))
    (t : Tab) (s : Z * gset Z) : outcome Tab :=
  if proc_in_scope restrict_to (proc_of_node sg !! s.1)
  then foldO (fun t f => add sg t s.1 f None) t (py_sorted Z.leb (elements s.2))
  else Ok t.

(** The worklist order [(order_index.get(node, 1 << 30), fact)]. *)
Definition canon_key (canon_index : gmap Z Z) (n : Z) : Z := default (2 ^ 30) (canon_index !! n).

Definition item_leb (canon_index : gmap Z Z) (a b : item) : bool :=
  pair_leb Z.leb Z.leb (canon_key canon_index a.1, a.2) (canon_key canon_index b.1, b.2).

(** Facts that the summary of a callee says reach its exit. *)
Definition exit_facts (cache : SummaryCache) (callee_pid f : Z) : gset Z :=
  default ∅ (default ∅ (summaries cache !! callee_pid) !! f).

Definition expand_call (sg : ExplodedSupergraph) (restrict_to : option (gset Z)) (cache : SummaryCache)
    (it : item) (t : Tab) (callee_pid : Z) : outcome Tab :=
  if negb (proc_in_scope restrict_to (Some callee_pid)) then Ok t
  else
    callee ⇐ getitem (procs sg) callee_pid;
    t ⇐ add sg t (entry callee) it.2 (Some it);
    foldO (fun t exit_fact => foldO (fun t ret => add sg t ret exit_fact (Some it)) t
                                    (succs (cfg_succ sg) it.1))
      t (py_sorted Z.leb (elements (exit_facts cache callee_pid it.2))).

(** The body of the loop for one item. *)
Definition expand (sg : ExplodedSupergraph) (spec : Spec) (restrict_to : option (gset Z))
    (cache : SummaryCache) (t : Tab) (it : item) : outcome Tab :=
  node ⇐ getitem (node_map (sg_cpg sg)) it.1;
  if _sanitized_at spec node then Ok t
  else
    t ⇐ foldO (fun t succ => add sg t succ it.2 (Some it)) t (succs (cfg_succ sg) it.1);
    foldO (expand_call sg restrict_to cache it) t (succs (call_succ sg) it.1).

(** The [while worklist] loop: sort, pop the minimum, expand. *)
Fixpoint tab_loop (fuel : nat) (sg : ExplodedSupergraph) (spec : Spec) (restrict_to : option (gset Z))
    (cache : SummaryCache) (canon_index : gmap Z Z) (t : Tab) : outcome Tab :=
  match py_sorted (item_leb canon_index) (worklist t) with
  | [] => Ok t
  | it :: rest =>
      match fuel with
      | O => Raise OutOfFuel
      | S fuel' =>
          t' ⇐ expand sg spec restrict_to cache (mkTab (facts_at t) (visited t) (pred t) rest) it;
          tab_loop fuel' sg spec restrict_to cache canon_index t'
      end
  end.

(** All facts that can occur: the seeds and the exit facts of the cache. *)
Definition fact_universe (seeds : list (Z * gset Z)) (cache : SummaryCache) : gset Z :=
  union_list (map snd seeds) ∪
  union_list (map (fun m => union_list (map snd (map_to_list m.2))) (map_to_list (summaries cache))).

(** An item enters the worklist at most once. *)
Definition tab_fuel (sg : ExplodedSupergraph) (seeds : list (Z * gset Z)) (cache : SummaryCache) : nat :=
  S (length (nodes (sg_cpg sg)) * size (fact_universe seeds cache)).

(** The summaries recorded after the loop. *)
Definition record_summary (sg : ExplodedSupergraph) (t : Tab) (cache : SummaryCache) (pid : Z) :
    outcome SummaryCache :=
  proc ⇐ getitem (procs sg) pid;
  entry_facts ⇐ getitem (facts_at t) (entry proc);
  body ⇐ mapO (getitem (facts_at t)) (entry proc :: body_nodes proc);
  Ok (mkCache (header cache)
        (<[pid := set_to_map (fun ef => (ef, union_list body)) entry_facts]> (summaries cache))
        ({[pid]} ∪ cache_visited cache)).

Definition empty_facts (g : CPG) : gmap Z (gset Z) := py_dict (map (fun n => (node_id n, ∅)) (nodes g)).

(** [_tabulate]; it updates the cache in place, so it is returned too. *)
Definition _tabulate (sg : ExplodedSupergraph) (spec : Spec) (seeds : list (Z * gset Z))
    (restrict_to : option (gset Z)) (cache : SummaryCache) (canon_index : gmap Z Z) :
    outcome (Tab * SummaryCache) :=
  t ⇐ foldO (seed_node sg restrict_to) (mkTab (empty_facts (sg_cpg sg)) ∅ ∅ []) seeds;
  t ⇐ tab_loop (tab_fuel sg seeds cache) sg spec restrict_to cache canon_index t;
  cache ⇐ foldO (record_summary sg t) cache (elements (visited t));
  Ok (t, cache).

(** ** Read-out *)

(** The [while] loop of [_witness]; [pred.get(cur)] is [None] for a root and
    for a missing key alike. *)
Fixpoint witness_loop (fuel : nat) (p : gmap item (option item)) (cur : option item)
    (seen : gset item) (path : list Z) : outcome (list Z) :=
  match cur with
  | None => Ok path
  | Some it =>
      if decide (it ∈ seen) then Ok path
      else match fuel with
           | O => Raise OutOfFuel
           | S fuel' => witness_loop fuel' p (default None (p !! it)) ({[it]} ∪ seen) (path ++ [it.1])
           end
  end.

(** [_witness]: each iteration but the last looks up another key of [pred]. *)
Definition _witness (p : gmap item (option item)) (snk f : Z) : outcome (list Z) :=
  path ⇐ witness_loop (S (size p)) p (Some (snk, f)) ∅ [];
  Ok (reverse path).

(** The run parameters every finding carries. *)
Record Provenance := mkProv {
  prov_S_version : pystr;
  prov_env_digest : pybytes;
  prov_order_hash : pybytes;
  prov_class : FingerprintClass
}.

Definition mk_finding (spec : Spec) (pv : Provenance) (nid f : Z) (w : list Z) : Finding :=
  mkFinding nid f w (spec_id spec) (str "deterministic-core") (prov_S_version pv) (prov_env_digest pv)
    (prov_order_hash pv) CPG_ORDER_HASH_ANNOTATION (prov_class pv) (engine spec).

(** [sorted(ids, key=(canon_index.get(nid, 1 << 30), nid))] *)
Definition canon_ids (g : CPG) (canon_index : gmap Z Z) : list Z :=
  py_sorted (fun a b => pair_leb Z.leb Z.leb (canon_key canon_index a, a) (canon_key canon_index b, b))
            (ids g).

Definition sink_findings (sg : ExplodedSupergraph) (spec : Spec) (t : Tab) (pv : Provenance) (nid : Z) :
    outcome (list Finding) :=
  node ⇐ getitem (node_map (sg_cpg sg)) nid;
  if negb (_is_sink spec node) then Ok []
  else mapO (fun f => w ⇐ _witness (pred t) nid f; Ok (mk_finding spec pv nid f w))
            (py_sorted Z.leb (elements (default ∅ (facts_at t !! nid)))).

(** [_build_findings] *)
Definition _build_findings (sg : ExplodedSupergraph) (spec : Spec) (t : Tab) (pv : Provenance)
    (canon_index : gmap Z Z) : outcome (list Finding) :=
  fs ⇐ mapO (sink_findings sg spec t pv) (canon_ids (sg_cpg sg) canon_index);
  Ok (concat fs).

(** [int(v).to_bytes(8, "big", signed=False)] *)
Definition unsigned8 (v : Z) : outcome pybytes :=
  if (0 <=? v) && (v <? 2 ^ 64) then Ok (u64_bytes v) else Raise OverflowError.

Definition finding_leb (canon_index : gmap Z Z) (a b : Finding) : bool :=
  pair_leb Z.leb Z.leb (canon_key canon_index (sink a), fact a) (canon_key canon_index (sink b), fact b).

Definition finding_bytes (f : Finding) : outcome pybytes :=
  s ⇐ unsigned8 (sink f);
  k ⇐ unsigned8 (fact f);
  w ⇐ mapO unsigned8 (witness f);
  Ok (s ++ k ++ concat w ++ str "|").

(** [_hash_solution]: the updates of the hash concatenated *)
Definition _hash_solution (fs : list Finding) (canon_index : gmap Z Z) : outcome pybytes :=
  parts ⇐ mapO finding_bytes (py_sorted (finding_leb canon_index) fs);
  Ok (sha256 (concat parts)).

(** ** Entry points *)

Definition _require (value : list Z) (name : string) : outcome unit :=
  match value with
  | [] => Raise (ValueError (name +:+ " is required (INV-2); refusing to run with an unpinned value"))
  | _ => Ok tt
  end.

Definition engine_ok (spec : Spec) : bool := bool_decide (engine spec ∈ map str ["ifds"; "ide"]).

(** The checks both entry points start with. *)
Definition guard_run (spec : Spec) (sv : pystr) (env : pybytes) : outcome unit :=
  _ ⇐ _require sv "S_version";
  _ ⇐ _require env "env_digest";
  if engine_ok spec then Ok tt else Raise (NonDistributiveSpec (spec_id spec)).

(** [solve] *)
Definition solve (g : CPG) (spec : Spec) (sv : pystr) (env : pybytes) (c : clock) : outcome SolverResult :=
  _ ⇐ guard_run spec sv env;
  order_result ⇐ canonical_order g DEFAULT_B DEFAULT_T c;
  let canon_index := enumerate_index (canonical_order_of order_result) in
  sg ⇐ build_supergraph g (canonical_order_of order_result);
  seeds ⇐ _seed_sources sg spec;
  tab ⇐ _tabulate sg spec (seeded seeds) None (mkCache (sv, env) ∅ ∅) canon_index;
  let pv := mkProv sv env (cpg_order_hash order_result) (fingerprint_class order_result) in
  fs ⇐ _build_findings sg spec tab.1 pv canon_index;
  h ⇐ _hash_solution fs canon_index;
  Ok (mkResult (remove_dups fs) h (visited tab.1) tab.2).

Definition check_prior (sv : pystr) (env : pybytes) (f : Finding) : outcome unit :=
  if bool_decide (S_version f = sv) && bool_decide (env_digest f = env) then Ok tt
  else Raise (ValueError "INV-2: prior_findings do not match this run").

(** [incremental_solve] *)
Definition incremental_solve (g : CPG) (spec : Spec) (affected_set : gset Z) (prior_summaries : SummaryCache)
    (sv : pystr) (env : pybytes) (prior_findings : list Finding) (c : clock) : outcome SolverResult :=
  _ ⇐ guard_run spec sv env;
  _ ⇐ (if bool_decide (header prior_summaries = (sv, env)) then Ok tt
       else Raise (ValueError "SummaryCacheVersionMismatch"));
  order_result ⇐ canonical_order g DEFAULT_B DEFAULT_T c;
  let canon_index := enumerate_index (canonical_order_of order_result) in
  sg ⇐ build_supergraph g (canonical_order_of order_result);
  up ⇐ transitive_callers sg affected_set;
  let scope := affected_set ∪ up in
  seeds ⇐ _seed_sources sg spec;
  tab ⇐ _tabulate sg spec (seeded seeds) (Some scope) (invalidate prior_summaries scope) canon_index;
  let pv := mkProv sv env (cpg_order_hash order_result) (fingerprint_class order_result) in
  fresh ⇐ _build_findings sg spec tab.1 pv canon_index;
  _ ⇐ mapO (check_prior sv env) prior_findings;
  let outside f := negb (match proc_of_node sg !! sink f with
                         | Some p => bool_decide (p ∈ scope) | None => false end) in
  let fs := fresh ++ List.filter outside prior_findings in
  h ⇐ _hash_solution fs canon_index;
  Ok (mkResult (remove_dups fs) h (visited tab.1) tab.2).
