(* ===== verification/SolverSpec.v ===== *)
(** * Tabulation as a least fixpoint

    The worklist loop of [_tabulate] is reduced to repeated insertion of the
    successor items [next x] of a popped item [x].  It terminates with the
    items reachable from the seeds, and the predecessor map leads from every
    item back to a seed along such steps. *)
From stdpp Require Import base tactics list gmap sets fin_sets relations strings.
From Stdlib Require Import ZArith QArith Lia.
From S2P Require Import Prelude PyData PyDict Cpg GraphSpec Ordering Dsl Supergraph Solver.

Open Scope Z_scope.
Open Scope py_scope.

(** A fact holds at a node. *)
Definition holds (t : Tab) (x : item) : Prop := x.2 ∈ default ∅ (facts_at t !! x.1).

#[export] Instance holds_dec t x : Decision (holds t x).
Proof. unfold holds. apply _. Defined.

Definition add_all (sg : ExplodedSupergraph) (pk : option item) (t : Tab) (xs : list item) : outcome Tab :=
  foldO (fun t x => add sg t x.1 x.2 pk) t xs.

(** [t'] extends [t] by the items [new], discovered from [pk]. *)
Record grows (sg : ExplodedSupergraph) (pk : option item) (t t' : Tab) (new : list item) : Prop := {
  gr_worklist : worklist t' = worklist t ++ new;
  gr_nodup : NoDup new;
  gr_holds x : holds t' x <-> holds t x \/ x ∈ new;
  gr_fresh x : x ∈ new -> ~ holds t x;
  gr_pred_new x : x ∈ new -> pred t' !! x = Some pk;
  gr_pred_old x : x ∉ new -> pred t' !! x = pred t !! x;
  gr_visited p : p ∈ visited t' <-> p ∈ visited t \/ exists x, x ∈ new /\ proc_of_node sg !! x.1 = Some p;
  gr_dom i : is_Some (facts_at t !! i) -> is_Some (facts_at t' !! i)
}.

Section grows.
Context (sg : ExplodedSupergraph) (pk : option item).

Lemma grows_refl t : grows sg pk t t [].
Proof.
  split; try done.
  - by rewrite app_nil_r.
  - constructor.
  - intros x. split; [by left|]. intros [?|?%elem_of_nil]; done.
  - by intros x ?%elem_of_nil.
  - by intros x ?%elem_of_nil.
  - intros p. split; [by left|]. intros [?|(x & ?%elem_of_nil & _)]; done.
Qed.

Lemma grows_trans t1 t2 t3 n1 n2 :
  grows sg pk t1 t2 n1 -> grows sg pk t2 t3 n2 -> grows sg pk t1 t3 (n1 ++ n2).
Proof.
  intros [A1 A2 A3 A4 A5 A6 A7 A8] [B1 B2 B3 B4 B5 B6 B7 B8]. split.
  - by rewrite B1, A1, app_assoc.
  - apply NoDup_app. split_and!; [done| |done]. intros x Hx Hx'. apply (B4 x Hx'). apply A3. by right.
  - intros x. rewrite B3, A3, elem_of_app. tauto.
  - intros x [Hx|Hx]%elem_of_app; [by apply A4|]. intros Hh. apply (B4 x Hx). apply A3. by left.
  - intros x Hx. destruct (decide (x ∈ n2)) as [|Hn]; [by apply B5|]. rewrite B6 by done.
    apply A5. apply elem_of_app in Hx as [?|?]; done.
  - intros x Hx. apply not_elem_of_app in Hx as [H1 H2]. rewrite B6, A6 by done. done.
  - intros p. rewrite B7, A7. setoid_rewrite elem_of_app. naive_solver.
  - auto.
Qed.

Lemma add_spec t n f :
  is_Some (facts_at t !! n) ->
  exists t' new, add sg t n f pk = Ok t' /\ grows sg pk t t' new /\
    forall x, x ∈ new <-> x = (n, f) /\ ~ holds t (n, f).
Proof.
  intros [F HF]. unfold add, getitem. rewrite HF. cbn. unfold holds. cbn [fst snd].
  destruct (decide (f ∈ F)) as [Hf|Hf].
  - exists t, []. split; [done|]. split; [apply grows_refl|]. rewrite HF. cbn.
    intros x. split; [by intros ?%elem_of_nil|]. intros [_ H]. done.
  - eexists _, [(n, f)]. split; [done|]. split.
    2:{ rewrite HF. cbn. intros x. rewrite list_elem_of_singleton. naive_solver. }
    split; cbn.
    + done.
    + apply NoDup_singleton.
    + intros [m h]. unfold holds. cbn. rewrite list_elem_of_singleton.
      destruct (decide (m = n)) as [->|Hne].
      * rewrite lookup_insert_eq, HF. cbn. rewrite elem_of_union, elem_of_singleton. naive_solver.
      * rewrite lookup_insert_ne by done. naive_solver.
    + intros x ->%list_elem_of_singleton. unfold holds. cbn. by rewrite HF.
    + intros x ->%list_elem_of_singleton. by rewrite lookup_insert_eq.
    + intros x Hx. rewrite lookup_insert_ne; [done|]. intros <-. apply Hx. left.
    + intros p. setoid_rewrite list_elem_of_singleton.
      destruct (proc_of_node sg !! n) as [q|] eqn:E.
      * rewrite elem_of_union, elem_of_singleton. split.
        -- intros [->|?]; [right; by exists (n, f)|by left].
        -- intros [?|(x & -> & Hx)]; [by right|]. cbn in Hx. left. congruence.
      * split; [by left|]. intros [?|(x & -> & Hx)]; [done|]. cbn in Hx. congruence.
    + intros i Hi. apply lookup_insert_is_Some. destruct (decide (n = i)); auto.
Qed.

Lemma add_all_spec xs : forall t,
  (forall x, x ∈ xs -> is_Some (facts_at t !! x.1)) ->
  exists t' new, add_all sg pk t xs = Ok t' /\ grows sg pk t t' new /\
    forall x, x ∈ new <-> x ∈ xs /\ ~ holds t x.
Proof.
  induction xs as [|x xs IH]; intros t Hd.
  { exists t, []. split; [done|]. split; [apply grows_refl|]. intros x. rewrite elem_of_nil. tauto. }
  unfold add_all. cbn. destruct (add_spec t x.1 x.2) as (t1 & n1 & -> & G1 & N1); [apply Hd; left|].
  cbn. destruct (IH t1) as (t2 & n2 & H2 & G2 & N2).
  { intros y Hy. apply (gr_dom _ _ _ _ _ G1), Hd. by right. }
  fold (add_all sg pk t1 xs). rewrite H2. exists t2, (n1 ++ n2). split; [done|].
  split; [by eapply grows_trans|]. intros y. rewrite elem_of_app, N1, N2, elem_of_cons, (gr_holds _ _ _ _ _ G1), N1.
  destruct x as [n f]; cbn [fst snd].
  destruct (decide (holds t y)), (decide (y = (n, f))) as [->|]; tauto.
Qed.
End grows.

(** ** The successors of an item *)

Section tabulation.
Context (g : CPG) (sg : ExplodedSupergraph) (spec : Spec) (restrict_to : option (gset Z)).
Context (cache : SummaryCache) (canon_index : gmap Z Z).
Hypothesis Hg : valid_cpg g.
Hypothesis Hsg : skeleton g sg.

Definition call_items (it : item) (p : Z) : list item :=
  if negb (proc_in_scope restrict_to (Some p)) then []
  else (p, it.2) ::
    concat (map (fun ef => map (fun ret => (ret, ef)) (succs (cfg_succ sg) it.1))
      (py_sorted Z.leb (elements (exit_facts cache p it.2)))).

Definition next (it : item) : list item :=
  match node_map g !! it.1 with
  | None => []
  | Some node =>
      if _sanitized_at spec node then []
      else map (fun m => (m, it.2)) (succs (cfg_succ sg) it.1) ++
           concat (map (call_items it) (succs (call_succ sg) it.1))
  end.

Definition flow (x y : item) : Prop := y ∈ next x.

Lemma foldO_concat {A B} (h : Tab -> B -> outcome Tab) (k : A -> list B) (f : Tab -> A -> outcome Tab) l :
  (forall t a, a ∈ l -> f t a = foldO h t (k a)) ->
  forall t, foldO f t l = foldO h t (concat (map k l)).
Proof.
  induction l as [|a l IH]; intros H t; cbn; [done|].
  rewrite foldO_app, H by left. destruct (foldO h t (k a)); cbn; [|done].
  apply IH. intros; apply H; by right.
Qed.

Lemma foldO_map {A B} (h : Tab -> B -> outcome Tab) (k : A -> B) l :
  forall t, foldO (fun t a => h t (k a)) t l = foldO h t (map k l).
Proof. induction l as [|a l IH]; intros t; cbn; [done|]. destruct (h t (k a)); cbn; auto. Qed.

Lemma expand_call_items it t p :
  p ∈ method_ids g ->
  expand_call sg restrict_to cache it t p = add_all sg (Some it) t (call_items it p).
Proof.
  intros Hp. unfold expand_call, call_items. destruct (proc_in_scope restrict_to (Some p)); cbn; [|done].
  apply (sk_procs _ _ Hsg) in Hp as [P HP]. unfold getitem. rewrite HP. cbn.
  destruct (sk_entry _ _ Hsg p P HP) as [_ ->]. unfold add_all. cbn.
  destruct (add sg t p it.2 (Some it)); cbn; [|done].
  apply foldO_concat. intros t' ef _.
  apply (foldO_map (fun t x => add sg t x.1 x.2 (Some it)) (fun ret => (ret, ef))).
Qed.

Lemma expand_next it t :
  it.1 ∈ ids g ->
  expand sg spec restrict_to cache t it = add_all sg (Some it) t (next it).
Proof.
  intros Hi. unfold expand, next, getitem. rewrite (sk_cpg _ _ Hsg).
  apply node_map_is_Some in Hi as [node Hn]. rewrite Hn. cbn.
  destruct (_sanitized_at spec node); [done|]. unfold add_all. rewrite foldO_app.
  rewrite <-(foldO_map (fun t x => add sg t x.1 x.2 (Some it)) (fun m => (m, it.2))). cbn.
  destruct (foldO _ t _); cbn; [|done]. apply foldO_concat. intros t' p Hp.
  apply expand_call_items. by apply (sk_call _ _ Hsg) in Hp as [_ ?].
Qed.

Lemma has_edge_ids k n m : has_edge g k n m -> n ∈ ids g /\ m ∈ ids g.
Proof.
  intros (e & He & _ & <- & <-). destruct Hg as [_ _ Hv]. rewrite Forall_forall in Hv.
  by destruct (Hv e He).
Qed.

Lemma method_in_ids p : p ∈ method_ids g -> p ∈ ids g.
Proof. intros (n & Hn & _ & <-)%elem_of_method_ids. apply list_elem_of_fmap. eauto. Qed.

(** The three ways a fact moves. *)
Lemma flow_spec x y :
  flow x y <->
  exists node, node_map g !! x.1 = Some node /\ _sanitized_at spec node = false /\
  ((has_edge g CFG_EDGE x.1 y.1 /\ y.2 = x.2) \/
   exists p, has_edge g CALL_EDGE x.1 p /\ p ∈ method_ids g /\ proc_in_scope restrict_to (Some p) = true /\
     (y = (p, x.2) \/ (has_edge g CFG_EDGE x.1 y.1 /\ y.2 ∈ exit_facts cache p x.2))).
Proof.
  unfold flow, next. destruct (node_map g !! x.1) as [node|].
  2:{ split; [by intros ?%elem_of_nil|]. intros (? & ? & _). done. }
  destruct (_sanitized_at spec node) eqn:Es.
  { split; [by intros ?%elem_of_nil|]. intros (? & [= <-] & ? & _). congruence. }
  assert (Hc : forall p, y ∈ call_items x p <-> proc_in_scope restrict_to (Some p) = true /\
    (y = (p, x.2) \/ (has_edge g CFG_EDGE x.1 y.1 /\ y.2 ∈ exit_facts cache p x.2))).
  { intros p. unfold call_items. destruct (proc_in_scope restrict_to (Some p)); cbn.
    2:{ split; [by intros ?%elem_of_nil|]. by intros [? _]. }
    rewrite elem_of_cons, list_elem_of_In, in_concat. setoid_rewrite in_map_iff. split.
    - intros [->|(l & (ef & <- & Hef) & (m & <- & Hm)%in_map_iff)]; [by eauto|]. split; [done|]. right. cbn.
      apply list_elem_of_In, (sk_cfg _ _ Hsg) in Hm. split; [done|].
      apply list_elem_of_In in Hef. rewrite py_sorted_elem in Hef. by apply elem_of_elements in Hef.
    - intros [_ [->|[Hm Hef]]]; [by left|]. right. eexists. split.
      + exists y.2. split; [done|]. apply list_elem_of_In, py_sorted_elem. by apply elem_of_elements.
      + apply in_map_iff. exists y.1. split; [by destruct y|]. by apply list_elem_of_In, (sk_cfg _ _ Hsg). }
  rewrite elem_of_app, list_elem_of_fmap, list_elem_of_In, in_concat. setoid_rewrite in_map_iff. split.
  - intros [(m & -> & Hm)|(l & (p & <- & Hp) & Hy)]; exists node; (split_and!; [done..|]).
    + left. cbn. by apply (sk_cfg _ _ Hsg) in Hm.
    + right. exists p. apply list_elem_of_In, (sk_call _ _ Hsg) in Hp as [? ?].
      apply list_elem_of_In, Hc in Hy. tauto.
  - intros (? & [= <-] & _ & [[Hm E]|(p & Hp & Hpm & Hy)]).
    + left. exists y.1. split; [by destruct y; cbn in *; subst|]. by apply (sk_cfg _ _ Hsg).
    + right. eexists. split.
      * exists p. split; [done|]. by apply list_elem_of_In, (sk_call _ _ Hsg).
      * by apply list_elem_of_In, Hc.
Qed.

Lemma flow_ids x y : flow x y -> y.1 ∈ ids g.
Proof.
  intros (node & _ & _ & [[H _]|(p & Hp & Hm & _ & [->|[H _]])])%flow_spec;
    first [by apply has_edge_ids in H as [_ ?]|by apply method_in_ids].
Qed.

(** ** The loop *)

Context (seeds : list (Z * gset Z)).

(** The items the seeding loop inserts, in its order. *)
Definition seed_items : list item :=
  concat (map (fun s => if proc_in_scope restrict_to (proc_of_node sg !! s.1)
                        then map (pair s.1) (py_sorted Z.leb (elements s.2)) else []) seeds).

Lemma elem_of_seed_items x :
  x ∈ seed_items <-> exists F, (x.1, F) ∈ seeds /\ x.2 ∈ F /\
    proc_in_scope restrict_to (proc_of_node sg !! x.1) = true.
Proof.
  unfold seed_items. rewrite list_elem_of_In, in_concat. setoid_rewrite in_map_iff. split.
  - intros (l & ([n F] & <- & Hs%list_elem_of_In) & Hx). cbn [fst snd] in *.
    destruct (proc_in_scope restrict_to (proc_of_node sg !! n)) eqn:E; [|done].
    apply in_map_iff in Hx as (f & <- & Hf%list_elem_of_In). rewrite py_sorted_elem in Hf.
    apply elem_of_elements in Hf. by exists F.
  - intros (F & Hs%list_elem_of_In & Hf & E). eexists. split; [exists (x.1, F); split; [reflexivity|done]|].
    cbn. rewrite E. apply in_map_iff. exists x.2. split; [by destruct x|].
    apply list_elem_of_In, py_sorted_elem. by apply elem_of_elements.
Qed.

Lemma seeding_items t :
  foldO (seed_node sg restrict_to) t seeds = add_all sg None t seed_items.
Proof.
  unfold seed_items, add_all. revert t. apply foldO_concat. intros t [n F] _. unfold seed_node. cbn.
  destruct (proc_in_scope restrict_to (proc_of_node sg !! n)); [|done].
  apply (foldO_map (fun t x => add sg t x.1 x.2 None) (pair n)).
Qed.

Definition item_ok (x : item) : Prop := x.1 ∈ ids g /\ x.2 ∈ fact_universe seeds cache.

Lemma exit_facts_universe p f h : h ∈ exit_facts cache p f -> h ∈ fact_universe seeds cache.
Proof.
  unfold exit_facts, fact_universe. intros H. apply elem_of_union. right.
  destruct (summaries cache !! p) as [m|] eqn:Em; cbn in H; [|rewrite lookup_empty in H; set_solver].
  destruct (m !! f) as [F|] eqn:EF; cbn in H; [|set_solver].
  apply elem_of_union_list. eexists. split.
  - apply list_elem_of_fmap. exists (p, m). split; [reflexivity|]. by apply elem_of_map_to_list.
  - cbn. apply elem_of_union_list. exists F. split; [|done].
    apply list_elem_of_fmap. exists (f, F). split; [done|]. by apply elem_of_map_to_list.
Qed.

Lemma item_ok_flow x y : item_ok x -> flow x y -> item_ok y.
Proof.
  intros [_ Hx] Hxy. split; [by eapply flow_ids|].
  apply flow_spec in Hxy as (_ & _ & _ & [[_ ->]|(p & _ & _ & _ & [->|[_ H]])]); try done.
  by eapply exit_facts_universe.
Qed.

Lemma item_ok_seed x : x ∈ seed_items -> item_ok x.
Proof.
  intros (F & Hs & Hf & E)%elem_of_seed_items. split.
  - unfold proc_in_scope in E. destruct (proc_of_node sg !! x.1) eqn:Ep; [|done].
    by apply (sk_proc _ _ Hsg) in Ep as [? _].
  - unfold fact_universe. apply elem_of_union. left. apply elem_of_union_list. exists F. split; [|done].
    apply list_elem_of_fmap. by exists (x.1, F).
Qed.

(** The backtrack from an item to its root. *)
Inductive chain (p : gmap item (option item)) : item -> list item -> Prop :=
| chain_root x : p !! x = Some None -> chain p x [x]
| chain_step x y l : p !! x = Some (Some y) -> chain p y l -> chain p x (x :: l).

Lemma chain_mono p p' x l :
  (forall y, is_Some (p !! y) -> p' !! y = p !! y) -> chain p x l -> chain p' x l.
Proof.
  intros Hp Hc. induction Hc as [x H|x y l H _ IH].
  - apply chain_root. by rewrite Hp by (by eexists).
  - eapply chain_step; [|exact IH]. by rewrite Hp by (by eexists).
Qed.

(** The invariant of the loop, apart from the worklist. *)
Record tab_inv (t : Tab) : Prop := {
  ti_dom i : i ∈ ids g -> is_Some (facts_at t !! i);
  ti_ok x : holds t x -> item_ok x;
  ti_sound x : holds t x -> exists s, s ∈ seed_items /\ rtc flow s x;
  ti_pred x : is_Some (pred t !! x) <-> holds t x;
  ti_root x : pred t !! x = Some None -> x ∈ seed_items;
  ti_link x y : pred t !! x = Some (Some y) -> flow y x;
  ti_chain x : holds t x -> exists l, chain (pred t) x l;
  ti_visited p : p ∈ visited t <-> exists x, holds t x /\ proc_of_node sg !! x.1 = Some p
}.

(** Where new items may come from. *)
Definition justified (t : Tab) (pk : option item) (x : item) : Prop :=
  match pk with None => x ∈ seed_items | Some it => holds t it /\ flow it x end.

Lemma tab_inv_grows pk t t' new :
  tab_inv t -> grows sg pk t t' new -> (forall x, x ∈ new -> justified t pk x) -> tab_inv t'.
Proof.
  intros [I1 I2 I3 I4 I5 I6 I7 I8] [G1 G2 G3 G4 G5 G6 G7 G8] HJ.
  assert (Hold : forall y, is_Some (pred t !! y) -> pred t' !! y = pred t !! y).
  { intros y Hy. apply G6. intros Hn. apply (G4 y Hn). by apply I4. }
  split.
  - auto.
  - intros x [Hx|Hx]%G3; [auto|]. specialize (HJ x Hx). destruct pk as [it|]; cbn in HJ.
    + destruct HJ as [Hit Hf]. eapply item_ok_flow; [|exact Hf]. auto.
    + by apply item_ok_seed.
  - intros x [Hx|Hx]%G3; [auto|]. specialize (HJ x Hx). destruct pk as [it|]; cbn in HJ.
    + destruct HJ as [Hit Hf]. destruct (I3 it Hit) as (s & Hs & Hr). exists s. split; [done|].
      by eapply rtc_r.
    + by exists x.
  - intros x. rewrite G3. destruct (decide (x ∈ new)) as [Hn|Hn].
    + rewrite G5 by done. split; [by right|by eexists].
    + rewrite G6, I4 by done. tauto.
  - intros x Hx. destruct (decide (x ∈ new)) as [Hn|Hn]; [|rewrite G6 in Hx by done; auto].
    rewrite G5 in Hx by done. injection Hx as ->. by apply HJ in Hn.
  - intros x y Hx. destruct (decide (x ∈ new)) as [Hn|Hn]; [|rewrite G6 in Hx by done; auto].
    rewrite G5 in Hx by done. injection Hx as ->. by apply HJ in Hn as [_ ?].
  - intros x [Hx|Hx]%G3.
    + destruct (I7 x Hx) as [l Hl]. exists l. by eapply chain_mono.
    + pose proof (G5 x Hx) as Hp. specialize (HJ x Hx). destruct pk as [it|]; cbn in HJ.
      * destruct HJ as [Hit _]. destruct (I7 it Hit) as [l Hl]. exists (x :: l).
        eapply chain_step; [done|]. by eapply chain_mono.
      * exists [x]. by apply chain_root.
  - intros p. rewrite G7, I8. setoid_rewrite G3. naive_solver.
Qed.

(** Every item that holds is waiting or has its successors. *)
Definition saturated (W : list item) (t : Tab) : Prop :=
  forall x, holds t x -> x ∈ W \/ forall y, flow x y -> holds t y.

(** How many items can still be discovered. *)
Definition all_items : gset item :=
  list_to_set (list_prod (ids g) (elements (fact_universe seeds cache))).
Definition undiscovered (t : Tab) : gset item := filter (fun x => ~ holds t x) all_items.

Lemma elem_of_all_items x : item_ok x -> x ∈ all_items.
Proof.
  intros [H1 H2]. unfold all_items. apply elem_of_list_to_set, list_elem_of_In.
  rewrite (surjective_pairing x). apply in_prod; apply list_elem_of_In; [done|by apply elem_of_elements].
Qed.

Lemma undiscovered_grows pk t t' new :
  grows sg pk t t' new -> (forall x, x ∈ new -> item_ok x) ->
  size (undiscovered t) = (length new + size (undiscovered t'))%nat.
Proof.
  intros G Hok.
  assert (E : undiscovered t = list_to_set new ∪ undiscovered t').
  { apply set_eq. intros x. unfold undiscovered.
    rewrite elem_of_union, !elem_of_filter, elem_of_list_to_set, (gr_holds _ _ _ _ _ G).
    destruct (decide (x ∈ new)) as [Hn|Hn]; [|tauto].
    pose proof (gr_fresh _ _ _ _ _ G x Hn). pose proof (elem_of_all_items x (Hok x Hn)). tauto. }
  rewrite E, (size_union (list_to_set new) (undiscovered t')).
  - by rewrite (size_list_to_set new (gr_nodup _ _ _ _ _ G)).
  - intros x Hx Hx'. apply elem_of_list_to_set in Hx. unfold undiscovered in Hx'.
    apply elem_of_filter in Hx' as [Hn _]. apply Hn, (gr_holds _ _ _ _ _ G). by right.
Qed.

Record loop_inv (t : Tab) : Prop := {
  li_inv : tab_inv t;
  li_work x : x ∈ worklist t -> holds t x;
  li_saturated : saturated (worklist t) t
}.

Definition popped (t : Tab) (rest : list item) : Tab := mkTab (facts_at t) (visited t) (pred t) rest.

Lemma popped_inv t rest : tab_inv t -> tab_inv (popped t rest).
Proof. intros [? ? ? ? ? ? ? ?]. by split. Qed.

Lemma loop_step t it rest :
  loop_inv t -> py_sorted (item_leb canon_index) (worklist t) = it :: rest ->
  exists t' new, expand sg spec restrict_to cache (popped t rest) it = Ok t' /\
    grows sg (Some it) (popped t rest) t' new /\
    (forall x, x ∈ new <-> x ∈ next it /\ ~ holds t x) /\ loop_inv t'.
Proof.
  intros [Hinv Hw Hs] Hsort.
  assert (Hperm : worklist t ≡ₚ it :: rest) by (rewrite <-Hsort; symmetry; apply py_sorted_perm).
  assert (Hit : holds t it) by (apply Hw; rewrite Hperm; left).
  destruct (ti_ok _ Hinv it Hit) as [Hid _]. rewrite expand_next by done.
  destruct (add_all_spec sg (Some it) (next it) (popped t rest)) as (t' & new & Ht' & G & Hnew).
  { intros x Hx. apply (ti_dom _ Hinv). by eapply flow_ids. }
  exists t', new. split_and!; [done|done|done|]. split.
  - eapply tab_inv_grows; [by apply popped_inv|done|]. intros x Hx. split; [done|]. by apply Hnew in Hx as [? _].
  - intros x. rewrite (gr_worklist _ _ _ _ _ G), elem_of_app. intros [Hx|Hx]; apply (gr_holds _ _ _ _ _ G);
      [left; apply Hw; rewrite Hperm; by right|by right].
  - intros x. rewrite (gr_worklist _ _ _ _ _ G), elem_of_app. rewrite (gr_holds _ _ _ _ _ G).
    intros [Hx|Hx]; [|by left; right]. destruct (Hs x Hx) as [Hin|Hcl].
    + rewrite Hperm in Hin. apply elem_of_cons in Hin as [->|Hin]; [|by left; left].
      right. intros y Hy. apply (gr_holds _ _ _ _ _ G).
      destruct (decide (holds t y)); [by left|right; by apply Hnew].
    + right. intros y Hy. apply (gr_holds _ _ _ _ _ G). left. exact (Hcl y Hy).
Qed.

Lemma tab_loop_spec fuel : forall t,
  loop_inv t -> (length (worklist t) + size (undiscovered t) < fuel)%nat ->
  exists t', tab_loop fuel sg spec restrict_to cache canon_index t = Ok t' /\
    loop_inv t' /\ worklist t' = [] /\ forall x, holds t x -> holds t' x.
Proof.
  induction fuel as [|fuel IH]; intros t Ht Hf; [lia|]. cbn [tab_loop].
  destruct (py_sorted (item_leb canon_index) (worklist t)) as [|it rest] eqn:Hsort.
  { exists t. split_and!; try done. apply Permutation_nil.
    rewrite <-Hsort. apply py_sorted_perm. }
  destruct (loop_step t it rest Ht Hsort) as (t1 & new & Ht1 & G & Hnew & Hinv1).
  fold (popped t rest). rewrite Ht1. cbn.
  assert (Hok : forall x, x ∈ new -> item_ok x).
  { intros x Hx. apply (ti_ok _ (li_inv _ Hinv1)), (gr_holds _ _ _ _ _ G). by right. }
  pose proof (undiscovered_grows _ _ _ _ G Hok) as Hsz.
  assert (Hlen : length (worklist t) = S (length rest)).
  { by rewrite <-(length_py_sorted (item_leb canon_index)), Hsort. }
  destruct (IH t1) as (t' & Ht' & Hi & Hw & Hm).
  { done. }
  { rewrite (gr_worklist _ _ _ _ _ G), length_app. cbn [popped worklist].
    change (undiscovered (popped t rest)) with (undiscovered t) in Hsz. lia. }
  exists t'. split_and!; try done. intros x Hx. apply Hm, (gr_holds _ _ _ _ _ G). by left.
Qed.

Definition empty_tab : Tab := mkTab (empty_facts g) ∅ ∅ [].

Lemma empty_facts_lookup i F : empty_facts g !! i = Some F -> F = ∅.
Proof.
  unfold empty_facts. rewrite py_dict_lookup.
  - rewrite list_elem_of_fmap. by intros (n & [= _ ->] & _).
  - rewrite <-list_fmap_compose. apply Hg.
Qed.

Lemma empty_not_holds x : ~ holds empty_tab x.
Proof.
  unfold holds. cbn. destruct (empty_facts g !! x.1) as [F|] eqn:E; cbn; [|set_solver].
  apply empty_facts_lookup in E as ->. set_solver.
Qed.

Lemma empty_tab_inv : tab_inv empty_tab.
Proof.
  split; try (by intros x Hx%empty_not_holds).
  - intros i Hi. cbn. unfold empty_facts. by rewrite py_dict_lookup_is_Some, <-list_fmap_compose.
  - intros x. cbn. rewrite lookup_empty. split; [by intros [? ?]|by intros ?%empty_not_holds].
  - intros x. cbn. by rewrite lookup_empty.
  - intros x y. cbn. by rewrite lookup_empty.
  - intros p. cbn. split; [set_solver|]. by intros (x & ?%empty_not_holds & _).
Qed.

Lemma size_all_items :
  (size all_items <= length (nodes g) * size (fact_universe seeds cache))%nat.
Proof.
  unfold all_items. etransitivity; [apply size_list_to_set_le|].
  unfold item. rewrite length_prod. unfold ids. by rewrite length_map.
Qed.

(** Seeding and the loop, as [_tabulate] runs them. *)
Definition tab_run : outcome Tab :=
  t ⇐ foldO (seed_node sg restrict_to) empty_tab seeds;
  tab_loop (tab_fuel sg seeds cache) sg spec restrict_to cache canon_index t.

Lemma seeded_inv :
  exists t, foldO (seed_node sg restrict_to) empty_tab seeds = Ok t /\ loop_inv t /\
    (forall x, holds t x <-> x ∈ seed_items) /\
    (length (worklist t) + size (undiscovered t) < tab_fuel sg seeds cache)%nat.
Proof.
  rewrite seeding_items.
  destruct (add_all_spec sg None seed_items empty_tab) as (t & new & Ht & G & Hnew).
  { intros x Hx. apply (ti_dom _ empty_tab_inv). by apply item_ok_seed in Hx as [? _]. }
  assert (Hnew' : forall x, x ∈ new <-> x ∈ seed_items).
  { intros x. rewrite Hnew. pose proof (empty_not_holds x). tauto. }
  assert (Hh : forall x, holds t x <-> x ∈ seed_items).
  { intros x. rewrite (gr_holds _ _ _ _ _ G), Hnew'. pose proof (empty_not_holds x). tauto. }
  exists t. split_and!; [done| |done|].
  - split.
    + eapply tab_inv_grows; [apply empty_tab_inv|done|]. intros x Hx. by apply Hnew'.
    + intros x. rewrite (gr_worklist _ _ _ _ _ G), Hh. cbn. by rewrite Hnew'.
    + intros x Hx. left. rewrite (gr_worklist _ _ _ _ _ G). cbn. by apply Hnew', Hh.
  - rewrite (gr_worklist _ _ _ _ _ G). cbn [empty_tab worklist app].
    assert (Hok : forall x, x ∈ new -> item_ok x) by (intros x Hx; by apply item_ok_seed, Hnew').
    pose proof (undiscovered_grows _ _ _ _ G Hok) as Hsz.
    assert (size (undiscovered empty_tab) <= size all_items)%nat.
    { apply subseteq_size. intros x [_ ?]%elem_of_filter. done. }
    pose proof size_all_items. unfold tab_fuel. rewrite (sk_cpg _ _ Hsg). lia.
Qed.

(** The loop ends, with the least fixpoint and its predecessor map. *)
Lemma tab_run_spec :
  exists t, tab_run = Ok t /\ tab_inv t /\ worklist t = [] /\
    forall x, holds t x <-> exists s, s ∈ seed_items /\ rtc flow s x.
Proof.
  unfold tab_run. destruct seeded_inv as (t0 & -> & H0 & Hh & Hf). cbn.
  destruct (tab_loop_spec _ t0 H0 Hf) as (t & Ht & [Hi _ Hs] & Hw & Hm).
  exists t. split_and!; try done. intros x. split; [apply (ti_sound _ Hi)|].
  intros (s & Hsd & Hr). apply Hh, Hm in Hsd. revert Hsd.
  induction Hr as [|x y z Hxy _ IH]; intros Hx; [done|]. apply IH.
  destruct (Hs x Hx) as [Hin|Hcl]; [|auto]. rewrite Hw in Hin. by apply elem_of_nil in Hin.
Qed.
End tabulation.
