(* ===== verification/SolverReadout.v ===== *)
(** * Seeds, witnesses and findings

    The seeding loop gives every matching (node, clause) pair its own fact;
    the backtrack of [_witness] ends at a seed and lists distinct items; the
    read-out has one finding per sink and fact. *)
From stdpp Require Import base tactics list gmap sets fin_sets relations strings.
From Stdlib Require Import ZArith QArith Lia.
From S2P Require Import Prelude PyData PyDict Sha256 Cpg GraphSpec Ordering Dsl Supergraph Solver SolverSpec.

Open Scope Z_scope.
Open Scope py_scope.

(** ** Seeds *)

Definition seeded_at (l : list (Z * gset Z)) (n f : Z) : Prop := exists F, (n, F) ∈ l /\ f ∈ F.

Lemma seeded_at_add l k h n f :
  seeded_at (seed_add l k h) n f <-> seeded_at l n f \/ (n = k /\ f = h).
Proof.
  unfold seeded_at. induction l as [|[k' F'] l IH]; cbn.
  - setoid_rewrite list_elem_of_singleton. setoid_rewrite elem_of_nil. split.
    + intros (F & [= -> ->] & ->%elem_of_singleton). by right.
    + intros [(F & [] & _)|[-> ->]]. exists {[h]}. set_solver.
  - destruct (decide (k = k')) as [<-|Hne]; setoid_rewrite elem_of_cons.
    + split.
      * intros (F & [[= -> ->]|HF] & Hf); [|left; eauto].
        apply elem_of_union in Hf as [->%elem_of_singleton|Hf]; [by right|left; eauto].
      * intros [(F & [[= -> ->]|HF] & Hf)|[-> ->]]; [|eauto|]; eexists; (split; [by left|]); set_solver.
    + split.
      * intros (F & [[= -> ->]|HF] & Hf); [left; eauto|].
        destruct (proj1 IH) as [(F2 & ? & ?)|?]; eauto.
      * intros [(F & [[= -> ->]|HF] & Hf)|Hnf]; [eauto| |].
        -- destruct (proj2 IH) as (F2 & ? & ?); eauto.
        -- destruct (proj2 IH) as (F2 & ? & ?); eauto.
Qed.

(** A node that some source clause matches. *)
Definition is_source (spec : Spec) (node : CPGNode) : bool :=
  existsb (fun c => match c with Source p => _pattern_matches p node | _ => false end) (clauses spec).

Lemma is_source_patterns spec node :
  is_source spec node = true <-> exists p, p ∈ source_patterns spec /\ _pattern_matches p node = true.
Proof.
  unfold is_source, source_patterns. rewrite existsb_exists. setoid_rewrite list_elem_of_omap.
  setoid_rewrite <-list_elem_of_In. split.
  - intros ([p| | |] & Hc & Hm); try done. exists p. split; [by exists (Source p)|done].
  - intros (p & (c & Hc & E) & Hm). destruct c; try done. injection E as ->. by exists (Source p).
Qed.

(** Facts below [next_fact] are in use, each at one node. *)
Record seed_inv (s : SeedState) (D : Z -> Prop) : Prop := {
  sd_range n f : seeded_at (seeded s) n f -> 0 <= f < next_fact s;
  sd_inj n m f : seeded_at (seeded s) n f -> seeded_at (seeded s) m f -> n = m;
  sd_dom n : (exists f, seeded_at (seeded s) n f) <-> D n;
  sd_nonneg : 0 <= next_fact s
}.

Lemma seed_clauses_inv node ps : forall s D,
  seed_inv s D ->
  let s' := fold_left (seed_clause node) ps s in
  seed_inv s' (fun n => D n \/ (n = node_id node /\ exists p, p ∈ ps /\ _pattern_matches p node = true)) /\
  next_fact s' <= next_fact s + len ps.
Proof.
  induction ps as [|p ps IH]; intros s D Hs; cbn.
  { split; [|unfold len; cbn; lia]. destruct Hs as [H1 H2 H3 H4]. split; try done.
    intros n. rewrite H3. split; [by left|]. intros [?|(_ & p & ?%elem_of_nil & _)]; done. }
  unfold seed_clause at 2 4. destruct (_pattern_matches p node) eqn:Em.
  - destruct (IH (mkSeed (seed_add (seeded s) (node_id node) (next_fact s))
              (<[next_fact s := p]> (fact_pattern s)) (next_fact s + 1))
              (fun n => D n \/ n = node_id node)) as [HI Hn].
    { destruct Hs as [H1 H2 H3 H4]. split; cbn.
      - intros n f [Hf|[-> ->]]%seeded_at_add; [apply H1 in Hf; lia|lia].
      - intros n m f [Hn|[-> ->]]%seeded_at_add [Hm|[-> E]]%seeded_at_add; eauto.
        + apply H1 in Hn. lia.
        + apply H1 in Hm. lia.
      - intros n. setoid_rewrite seeded_at_add. rewrite <-H3. split.
        + intros (f & [?|[-> _]]); [left; eauto|by right].
        + intros [(f & ?)| ->]; eauto.
      - lia. }
    cbn in *. split; [|unfold len in *; cbn [length]; lia].
    destruct HI as [H1 H2 H3 H4]. split; try done. intros n. rewrite H3. setoid_rewrite elem_of_cons. split.
    + intros [[?| ->]|(-> & p' & Hp & Hm)]; [by left| |]; right; (split; [done|]); [by exists p; auto|by exists p'; auto].
    + intros [?|(-> & p' & [->|Hp] & Hm)]; [by left; left|by left; right|right; eauto].
  - destruct (IH s D Hs) as [HI Hn]. cbn in *. split; [|unfold len in *; cbn [length]; lia].
    destruct HI as [H1 H2 H3 H4]. split; try done. intros n. rewrite H3. setoid_rewrite elem_of_cons. split.
    + intros [?|(-> & p' & Hp & Hm)]; [by left|right; eauto].
    + intros [?|(-> & p' & [->|Hp] & Hm)]; [by left|congruence|right; eauto].
Qed.

Lemma seed_sources_spec g sg spec :
  NoDup (ids g) -> sg_cpg sg = g ->
  exists s, _seed_sources sg spec = Ok s /\
    seed_inv s (fun n => exists node, node_map g !! n = Some node /\ is_source spec node = true) /\
    next_fact s <= len (nodes g) * len (source_patterns spec).
Proof.
  intros Hnd E. unfold _seed_sources. rewrite E.
  assert (Hgen : forall l s D, (forall n, n ∈ l -> is_Some (node_map g !! n)) -> seed_inv s D ->
    exists s', foldO (fun s nid => node ⇐ getitem (node_map g) nid;
        Ok (fold_left (seed_clause node) (source_patterns spec) s)) s l = Ok s' /\
      seed_inv s' (fun n => D n \/ (n ∈ l /\ exists node, node_map g !! n = Some node /\ is_source spec node = true)) /\
      next_fact s' <= next_fact s + len l * len (source_patterns spec)).
  { induction l as [|n l IH]; intros s D Hl Hs; cbn.
    { exists s. split; [done|]. split; [|unfold len; cbn; lia]. destruct Hs as [H1 H2 H3 H4]. split; try done.
      intros n. rewrite H3. split; [by left|]. intros [?|(?%elem_of_nil & _)]; done. }
    destruct (Hl n (list_elem_of_here _ _)) as [node Hn]. unfold getitem at 1. rewrite Hn. cbn [obind].
    assert (Hid : node_id node = n) by (by apply node_map_lookup in Hn as [_ ?]).
    destruct (seed_clauses_inv node (source_patterns spec) s D Hs) as [Hs' Hle].
    destruct (IH _ _ (fun n Hn => Hl n (list_elem_of_further _ _ _ Hn)) Hs') as (s' & Hf & HI & Hle').
    exists s'. split; [done|]. split; [|unfold len in *; cbn [length]; lia].
    destruct HI as [H1 H2 H3 H4]. split; try done. intros m. rewrite H3, <-is_source_patterns, Hid, elem_of_cons.
    split.
    - intros [[?|[-> ?]]|?]; [by left|right|right; tauto]. split; [by left|eauto].
    - intros [?|[[->|?] (nd & Hnd' & Hsrc)]]; [by left; left| |right; eauto].
      left. right. split; [done|]. congruence. }
  destruct (Hgen (py_sorted Z.leb (elements (dom (node_map g)))) (mkSeed [] ∅ 0) (fun _ => False))
    as (s & Hs & HI & Hle).
  { intros n. rewrite py_sorted_elem, elem_of_elements. apply elem_of_dom. }
  { split; cbn; [by intros n f (F & ?%elem_of_nil & _)|by intros n m f (F & ?%elem_of_nil & _)| |lia].
    intros n. split; [|done]. by intros (f & F & ?%elem_of_nil & _). }
  exists s. split; [done|]. split.
  - destruct HI as [H1 H2 H3 H4]. split; try done. intros n. rewrite H3. split.
    + intros [?|(_ & ?)]; done.
    + intros (node & Hn & Hsrc). right. split; [|eauto].
      rewrite py_sorted_elem, elem_of_elements, elem_of_dom. by eexists.
  - cbn in Hle. etransitivity; [exact Hle|]. unfold len. rewrite length_py_sorted.
    apply Z.mul_le_mono_nonneg_r; [lia|]. change (length (elements (dom (node_map g)))) with (size (dom (node_map g))).
    assert (Hd : dom (node_map g) = list_to_set (ids g)).
    { apply set_eq. intros i. by rewrite elem_of_dom, node_map_is_Some, elem_of_list_to_set. }
    rewrite Hd. pose proof (size_list_to_set_le (ids g)). unfold ids in *. rewrite length_map in *. lia.
Qed.

(** ** Witnesses *)

Section chains.
Context (p : gmap item (option item)).

Lemma chain_functional x l l' : chain p x l -> chain p x l' -> l = l'.
Proof.
  intros H. revert l'. induction H as [x Hx|x y l Hx _ IH]; intros l' H'; inversion H'; subst; try congruence.
  assert (y0 = y) as -> by congruence. f_equal. auto.
Qed.

Lemma chain_suffix x l z : chain p x l -> z ∈ l -> exists k, chain p z k /\ (length k <= length l)%nat.
Proof.
  intros H. revert z. induction H as [x Hx|x y l Hx Hl IH]; intros z Hz.
  - apply list_elem_of_singleton in Hz as ->. exists [x]. split; [by apply chain_root|done].
  - apply elem_of_cons in Hz as [->|Hz]; [exists (x :: l); split; [by eapply chain_step|done]|].
    destruct (IH z Hz) as (k & Hk & Hle). exists k. split; [done|cbn; lia].
Qed.

Lemma chain_nodup x l : chain p x l -> NoDup l.
Proof.
  induction 1 as [x Hx|x y l Hx Hl IH]; [apply NoDup_singleton|]. apply NoDup_cons. split; [|done].
  intros Hin. destruct (chain_suffix y l x Hl Hin) as (k & Hk & Hle).
  rewrite (chain_functional x k (x :: l)) in Hle; [cbn in Hle; lia|done|by eapply chain_step].
Qed.

Lemma chain_dom x l : chain p x l -> forall z, z ∈ l -> z ∈ dom p.
Proof.
  intros H z Hz. apply elem_of_dom. destruct (chain_suffix x l z H Hz) as (k & Hk & _).
  inversion Hk; eauto.
Qed.

Lemma chain_length x l : chain p x l -> (length l <= size p)%nat.
Proof.
  intros H. rewrite <-size_dom, <-(size_list_to_set (C:=gset item) l) by (by eapply chain_nodup).
  apply subseteq_size. intros z Hz%elem_of_list_to_set. by eapply chain_dom.
Qed.

Lemma witness_loop_chain x l : chain p x l -> forall fuel seen path,
  (length l <= fuel)%nat -> (forall z, z ∈ l -> z ∉ seen) ->
  witness_loop fuel p (Some x) seen path = Ok (path ++ map fst l).
Proof.
  intros H. induction H as [x Hx|x y l Hx Hl IH]; intros fuel seen path Hf Hs.
  - destruct fuel; [cbn in Hf; lia|]. cbn. destruct (decide (x ∈ seen)) as [Hin|_]; [by destruct (Hs x); [left|]|].
    rewrite Hx. by destruct fuel.
  - destruct fuel; [cbn in Hf; lia|]. cbn. destruct (decide (x ∈ seen)) as [Hin|_]; [by destruct (Hs x); [left|]|].
    rewrite Hx. cbn [default from_option id]. rewrite IH.
    + by rewrite <-app_assoc.
    + cbn in Hf. lia.
    + intros z Hz. apply not_elem_of_union. split; [|apply Hs; by right].
      intros ->%elem_of_singleton. assert (Hnd : NoDup (x :: l)) by (by eapply chain_nodup, chain_step).
      by apply NoDup_cons in Hnd as [? _].
Qed.

Lemma witness_chain n f l : chain p (n, f) l -> _witness p n f = Ok (reverse (map fst l)).
Proof.
  intros H. unfold _witness. rewrite (witness_loop_chain (n, f) l H); [done| |set_solver].
  apply chain_length in H. lia.
Qed.
End chains.

(** ** Findings *)

Lemma NoDup_concat_map {A B} (k : A -> list B) l :
  NoDup l -> (forall a, a ∈ l -> NoDup (k a)) ->
  (forall a b x, a ∈ l -> b ∈ l -> x ∈ k a -> x ∈ k b -> a = b) -> NoDup (concat (map k l)).
Proof.
  induction l as [|a l IH]; intros Hnd H1 H2; cbn; [constructor|].
  apply NoDup_cons in Hnd as [Hni Hnd]. apply NoDup_app. split_and!.
  - apply H1. left.
  - intros x Hx Hx'. apply list_elem_of_In, in_concat in Hx' as (l' & (b & <- & Hb%list_elem_of_In)%in_map_iff & Hx'%list_elem_of_In).
    apply Hni. rewrite (H2 a b x); [done|left|by right|done|done].
  - apply IH; [done|intros; apply H1; by right|intros b c x ? ?; apply H2; by right].
Qed.

Definition finding_key (F : Finding) : item := (sink F, fact F).

Section findings.
Context (g : CPG) (sg : ExplodedSupergraph) (spec : Spec) (t : Tab) (pv : Provenance) (canon_index : gmap Z Z).
Hypothesis Hnd : NoDup (ids g).
Hypothesis Hsg : sg_cpg sg = g.
Hypothesis Hch : forall x, holds t x -> exists l, chain (pred t) x l.

(** The finding read out for a fact at a sink. *)
Definition readout (n f : Z) : Finding :=
  mk_finding spec pv n f (match _witness (pred t) n f with Ok w => w | Raise _ => [] end).

Definition sink_at (n : Z) : Prop := exists node, node_map g !! n = Some node /\ _is_sink spec node = true.

Lemma canon_ids_elem n : n ∈ canon_ids g canon_index <-> n ∈ ids g.
Proof. unfold canon_ids. apply py_sorted_elem. Qed.

Lemma sink_findings_spec n :
  n ∈ ids g -> exists fs, sink_findings sg spec t pv n = Ok fs /\
    NoDup (map finding_key fs) /\
    forall F, F ∈ fs <-> sink_at n /\ exists f, holds t (n, f) /\ F = readout n f.
Proof.
  intros Hn. apply node_map_is_Some in Hn as [node Hnode]. unfold sink_findings, getitem. rewrite Hsg, Hnode. cbn.
  assert (Hsk : sink_at n <-> _is_sink spec node = true).
  { unfold sink_at. rewrite Hnode. naive_solver. }
  destruct (_is_sink spec node) eqn:Es; cbn.
  - set (fl := py_sorted Z.leb (elements (default ∅ (facts_at t !! n)))).
    assert (Hfl : forall f, f ∈ fl <-> holds t (n, f)).
    { intros f. unfold fl. rewrite py_sorted_elem, elem_of_elements. done. }
    rewrite (mapO_pure _ (readout n)).
    + eexists. split; [done|]. split.
      * rewrite map_map. cbn. apply (NoDup_fmap_2 (pair n)). unfold fl.
        rewrite py_sorted_perm. apply NoDup_elements.
      * intros F. rewrite list_elem_of_fmap. setoid_rewrite Hfl. rewrite Hsk. naive_solver.
    + intros f Hf. apply Hfl in Hf. destruct (Hch _ Hf) as [l Hl]. unfold readout.
      by rewrite (witness_chain _ _ _ _ Hl).
  - exists []. split; [done|]. split; [constructor|]. intros F. rewrite Hsk, elem_of_nil.
    split; [done|]. by intros [? _].
Qed.

Lemma build_findings_spec :
  exists fs, _build_findings sg spec t pv canon_index = Ok fs /\
    NoDup (map finding_key fs) /\
    forall F, F ∈ fs <-> exists n f, sink_at n /\ holds t (n, f) /\ F = readout n f.
Proof.
  unfold _build_findings.
  set (k n := match sink_findings sg spec t pv n with Ok fs => fs | Raise _ => [] end).
  assert (Hk : forall n, n ∈ ids g -> sink_findings sg spec t pv n = Ok (k n) /\ NoDup (map finding_key (k n)) /\
    forall F, F ∈ k n <-> sink_at n /\ exists f, holds t (n, f) /\ F = readout n f).
  { intros n Hn. unfold k. by destruct (sink_findings_spec n Hn) as (fs & -> & ? & ?). }
  rewrite Hsg, (mapO_pure _ k) by (intros n Hn%canon_ids_elem; by apply Hk).
  cbn. eexists. split; [done|]. split.
  - rewrite concat_map, map_map. apply NoDup_concat_map.
    + unfold canon_ids. by rewrite py_sorted_perm.
    + intros n Hn%canon_ids_elem. by apply Hk.
    + intros n m x Hn%canon_ids_elem Hm%canon_ids_elem Hx Hx'.
      apply list_elem_of_fmap in Hx as (F & -> & HF). apply list_elem_of_fmap in Hx' as (F' & E & HF').
      apply Hk in HF as (_ & f & _ & ->); [|done]. apply Hk in HF' as (_ & f' & _ & ->); [|done].
      by injection E.
  - intros F. rewrite list_elem_of_In, in_concat. split.
    + intros (l & (n & <- & Hn%list_elem_of_In%canon_ids_elem)%in_map_iff & HF%list_elem_of_In).
      apply Hk in HF as (Hs & f & Hf & ->); [|done]. by exists n, f.
    + intros (n & f & Hs & Hf & ->).
      assert (Hn : n ∈ ids g). { destruct Hs as (node & Hn & _). apply node_map_is_Some. by eexists. }
      exists (k n). split; [apply in_map; by apply list_elem_of_In, canon_ids_elem|].
      apply list_elem_of_In, Hk; [done|]. split; [done|]. by exists f.
Qed.
End findings.

(** ** The hash *)

Definition in_range (F : Finding) : Prop :=
  u64_ok (sink F) /\ u64_ok (fact F) /\ Forall u64_ok (witness F).

Definition pfinding_bytes (F : Finding) : pybytes :=
  u64_bytes (sink F) ++ u64_bytes (fact F) ++ concat (map u64_bytes (witness F)) ++ str "|".

Lemma unsigned8_ok v : u64_ok v -> unsigned8 v = Ok (u64_bytes v).
Proof.
  intros [H1 H2]. unfold unsigned8. rewrite (proj2 (Z.leb_le _ _) H1), (proj2 (Z.ltb_lt _ _) H2). done.
Qed.

Lemma hash_solution_ok fs idx : Forall in_range fs ->
  _hash_solution fs idx = Ok (sha256 (concat (map pfinding_bytes (py_sorted (finding_leb idx) fs)))).
Proof.
  intros H. rewrite Forall_forall in H. unfold _hash_solution. rewrite (mapO_pure _ pfinding_bytes); [done|].
  intros F HF. rewrite py_sorted_elem in HF. destruct (H F HF) as (H1 & H2 & H3). unfold finding_bytes.
  rewrite !unsigned8_ok by done. cbn. rewrite (mapO_pure _ u64_bytes); [done|].
  intros w Hw. apply unsigned8_ok. rewrite Forall_forall in H3. auto.
Qed.
