(* ===== verification/Ifds.v ===== *)
(** * The solver is sound and complete

    [solve] reports exactly the sinks that an unsanitised path of CFG and CALL
    edges reaches from a source inside a procedure, each with a simple path as
    its witness. *)
From stdpp Require Import base tactics list gmap sets fin_sets relations strings.
From Stdlib Require Import ZArith QArith Lia.
From S2P Require Import Prelude PyData PyDict Sha256 Budget Cpg GraphSpec Ordering Canonical Dsl.
From S2P Require Import Supergraph Solver SolverSpec SolverReadout.

Open Scope Z_scope.
Open Scope py_scope.

(** ** Taint paths *)

Definition source_at (g : CPG) (spec : Spec) (n : Z) : Prop :=
  exists node, node_map g !! n = Some node /\ is_source spec node = true.

(** Taint moves from [n] to [m]: [n] is no sanitizer and a CFG edge, or a CALL
    edge into a procedure of the scope [R], joins them. *)
Definition scoped_step (g : CPG) (spec : Spec) (R : option (gset Z)) (n m : Z) : Prop :=
  exists node, node_map g !! n = Some node /\ _sanitized_at spec node = false /\
    (has_edge g CFG_EDGE n m \/
     (has_edge g CALL_EDGE n m /\ m ∈ method_ids g /\ proc_in_scope R (Some m) = true)).

Definition taint_step (g : CPG) (spec : Spec) : Z -> Z -> Prop := scoped_step g spec None.

(** [path_from step w s t]: [w] lists the nodes of a path from [s] to [t]. *)
Inductive path_from (step : Z -> Z -> Prop) : list Z -> Z -> Z -> Prop :=
| path_one s : path_from step [s] s s
| path_snoc w s n m : path_from step w s n -> step n m -> path_from step (w ++ [m]) s m.

(** No summary is spliced: every callee in scope has an empty summary. *)
Definition no_splice (R : option (gset Z)) (cache : SummaryCache) : Prop :=
  forall p f, proc_in_scope R (Some p) = true -> exit_facts cache p f = ∅.

Section plain.
Context (g : CPG) (sg : ExplodedSupergraph) (spec : Spec) (R : option (gset Z)) (cache : SummaryCache).
Context (canon_index : gmap Z Z) (seeds : list (Z * gset Z)).
Hypothesis Hg : valid_cpg g.
Hypothesis Hsg : skeleton g sg.
Hypothesis Hns : no_splice R cache.

Lemma flow_plain x y :
  flow g sg spec R cache x y <-> y.2 = x.2 /\ scoped_step g spec R x.1 y.1.
Proof.
  rewrite (flow_spec g sg spec R cache Hsg). unfold scoped_step. split.
  - intros (node & Hn & Hs & [[He E]|(p & Hp & Hm & Hsc & [->|[_ Hex]])]).
    + split; [done|]. exists node. cbn. tauto.
    + split; [done|]. exists node. cbn. tauto.
    + rewrite Hns in Hex by done. set_solver.
  - intros (E & node & Hn & Hs & [He|(Hp & Hm & Hsc)]); exists node; split_and!; try done; [by left|].
    right. exists y.1. split_and!; try done. left. destruct y; cbn in *; congruence.
Qed.

Lemma rtc_flow_plain x y :
  rtc (flow g sg spec R cache) x y <-> y.2 = x.2 /\ rtc (scoped_step g spec R) x.1 y.1.
Proof.
  split.
  - induction 1 as [x|x y z Hxy _ [E IH]]; [done|]. apply flow_plain in Hxy as [E' Hs].
    split; [congruence|by eapply rtc_l].
  - destruct x as [a f], y as [b h]; cbn. intros [-> H]. induction H as [a|a b c Hab _ IH]; [done|].
    eapply rtc_l; [|exact IH]. by apply flow_plain.
Qed.

Notation seeds_in := (seed_items sg R seeds).

(** The witness of an item is a simple path from its seed. *)
Lemma chain_path (t : Tab) x l :
  tab_inv g sg spec R cache seeds t -> chain (pred t) x l ->
  (exists s, (s, x.2) ∈ seeds_in /\ path_from (scoped_step g spec R) (reverse (map fst l)) s x.1) /\
  Forall (fun z => z.2 = x.2) l.
Proof.
  intros Hi Hl. induction Hl as [x Hx|x y l Hx _ [(s & Hs & Hp) Hf]].
  - split; [|by constructor]. exists x.1. split; [|apply path_one].
    apply (ti_root _ _ _ _ _ _ _ Hi) in Hx. by rewrite <-surjective_pairing.
  - apply (ti_link _ _ _ _ _ _ _ Hi), flow_plain in Hx as [E Hstep]. split.
    + exists s. rewrite E. split; [done|]. cbn [map]. rewrite reverse_cons. by eapply path_snoc.
    + constructor; [done|]. by rewrite E.
Qed.

Lemma nodup_fst_same_fact (l : list item) f :
  NoDup l -> Forall (fun z => z.2 = f) l -> NoDup (map fst l).
Proof.
  intros Hnd Hf. rewrite Forall_forall in Hf. apply NoDup_fmap_2_strong; [|done].
  intros [a h] [b k] Ha Hb E. apply Hf in Ha, Hb. cbn in *. congruence.
Qed.

Lemma witness_path (t : Tab) n f :
  tab_inv g sg spec R cache seeds t -> holds t (n, f) ->
  exists w s, _witness (pred t) n f = Ok w /\ (s, f) ∈ seeds_in /\
    path_from (scoped_step g spec R) w s n /\ NoDup w.
Proof.
  intros Hi Hh. destruct (ti_chain _ _ _ _ _ _ _ Hi _ Hh) as [l Hl].
  destruct (chain_path t _ l Hi Hl) as [(s & Hs & Hp) Hf].
  exists (reverse (map fst l)), s. split_and!; try done; [by apply witness_chain|].
  rewrite reverse_Permutation. eapply nodup_fst_same_fact; [by eapply chain_nodup|done].
Qed.
End plain.

Lemma no_splice_empty h : no_splice None (mkCache h ∅ ∅).
Proof. intros p f _. unfold exit_facts. cbn. by rewrite lookup_empty. Qed.

Lemma path_from_rtc step w s t : path_from step w s t -> rtc step s t.
Proof. induction 1; [done|by eapply rtc_r]. Qed.

Lemma path_from_ends step w s t :
  path_from step w s t -> head w = Some s /\ last w = Some t.
Proof.
  induction 1 as [s|w s n m Hp [IH1 IH2] _]; [done|]. rewrite last_snoc. split; [|done].
  by destruct w.
Qed.

(** ** Running the solver *)

Lemma record_summaries_ok g sg spec R cache seeds t : forall ps c0,
  valid_cpg g -> skeleton g sg -> tab_inv g sg spec R cache seeds t ->
  (forall p, p ∈ ps -> p ∈ visited t) ->
  exists c1, foldO (record_summary sg t) c0 ps = Ok c1 /\ header c1 = header c0.
Proof.
  intros ps c0 Hg Hsg Hi. revert c0. induction ps as [|p ps IH]; intros c0 Hps; cbn; [by eauto|].
  assert (Hp : p ∈ method_ids g).
  { destruct (proj1 (ti_visited _ _ _ _ _ _ _ Hi p)) as (x & _ & Hx); [apply Hps; left|].
    by apply (sk_proc _ _ Hsg) in Hx as [_ ?]. }
  destruct (proj2 (sk_procs _ _ Hsg p) Hp) as [P HP]. destruct (sk_entry _ _ Hsg p P HP) as [_ HE].
  assert (Hd : forall i, i ∈ entry P :: body_nodes P -> getitem (facts_at t) i = Ok (default ∅ (facts_at t !! i))).
  { intros i Hin. assert (Hids : i ∈ ids g).
    { apply elem_of_cons in Hin as [->|Hin]; [rewrite HE; by apply method_in_ids|].
      apply (sk_body _ _ Hsg p P) in Hin as [_ Hin]; [|done]. by apply (sk_proc _ _ Hsg) in Hin as [? _]. }
    destruct (ti_dom _ _ _ _ _ _ _ Hi i Hids) as [F HF]. unfold getitem. by rewrite HF. }
  unfold record_summary at 1. unfold getitem at 1. rewrite HP. cbn [obind].
  rewrite Hd by left. cbn [obind]. rewrite (mapO_pure _ (fun i => default ∅ (facts_at t !! i))) by done.
  cbn [obind]. edestruct IH as (c1 & H1 & H2); [intros; apply Hps; by right|]. rewrite H1. by exists c1.
Qed.

Lemma tabulate_spec g sg spec R cache idx seeds :
  valid_cpg g -> skeleton g sg ->
  exists t c1, _tabulate sg spec seeds R cache idx = Ok (t, c1) /\
    tab_run g sg spec R cache idx seeds = Ok t /\
    tab_inv g sg spec R cache seeds t /\
    (forall x, holds t x <-> exists s, s ∈ seed_items sg R seeds /\ rtc (flow g sg spec R cache) s x) /\
    header c1 = header cache.
Proof.
  intros Hg Hsg. destruct (tab_run_spec g sg spec R cache idx Hg Hsg seeds) as (t & Ht & Hi & _ & Hh).
  destruct (record_summaries_ok g sg spec R cache seeds t (elements (visited t)) cache Hg Hsg Hi)
    as (c1 & Hc & Hhd); [by intros p ?%elem_of_elements|].
  exists t, c1. split_and!; try done. unfold _tabulate. rewrite (sk_cpg _ _ Hsg).
  unfold tab_run in Ht. change (mkTab (empty_facts g) ∅ ∅ []) with (empty_tab g).
  apply obind_Ok in Ht as (t0 & -> & Ht). cbn [obind]. rewrite Ht. cbn [obind]. by rewrite Hc.
Qed.

(** Everything a run computes, for a scope and a cache. *)
Record analysis (g : CPG) (spec : Spec) (R : option (gset Z)) (cache : SummaryCache)
    (sv : pystr) (env : pybytes) (order : CanonicalOrderResult)
    (sg : ExplodedSupergraph) (s : SeedState) (t : Tab) (fs : list Finding) : Prop := {
  an_valid : valid_cpg g;
  an_order : canonical_order_of order ≡ₚ ids g;
  an_sg : build_supergraph g (canonical_order_of order) = Ok sg;
  an_skeleton : skeleton g sg;
  an_seeds : _seed_sources sg spec = Ok s;
  an_seed_inv : seed_inv s (source_at g spec);
  an_run : tab_run g sg spec R cache (enumerate_index (canonical_order_of order)) (seeded s) = Ok t;
  an_inv : tab_inv g sg spec R cache (seeded s) t;
  an_holds x : holds t x <-> exists y, y ∈ seed_items sg R (seeded s) /\ rtc (flow g sg spec R cache) y x;
  an_keys : NoDup (map finding_key fs);
  an_findings F : F ∈ fs <-> exists n f, sink_at g spec n /\ holds t (n, f) /\
    F = readout spec t (mkProv sv env (cpg_order_hash order) (fingerprint_class order)) n f
}.

Lemma order_valid g B T c order : canonical_order g B T c = Ok order ->
  valid_cpg g /\ sized g /\ canonical_order_of order ≡ₚ ids g.
Proof.
  intros Ho. destruct (canonical_order_expected _ _ _ _ _ Ho) as (L & el & _ & _ & Hg & Hs & ->).
  split_and!; [done..|]. unfold expected. cbn [canonical_order_of].
  destruct (is_strong g L 0); [by apply best_sound|apply pfallback_perm].
Qed.

(** The part of both entry points from the canonical order to the findings. *)
Lemma analysis_exists g spec R cache sv env order c :
  canonical_order g DEFAULT_B DEFAULT_T c = Ok order ->
  exists sg s t c1 fs,
    build_supergraph g (canonical_order_of order) = Ok sg /\
    _seed_sources sg spec = Ok s /\
    _tabulate sg spec (seeded s) R cache (enumerate_index (canonical_order_of order)) = Ok (t, c1) /\
    _build_findings sg spec t (mkProv sv env (cpg_order_hash order) (fingerprint_class order))
      (enumerate_index (canonical_order_of order)) = Ok fs /\
    header c1 = header cache /\
    next_fact s <= len (nodes g) * len (source_patterns spec) /\
    analysis g spec R cache sv env order sg s t fs.
Proof.
  intros Ho. destruct (order_valid _ _ _ _ _ Ho) as (Hg & _ & Hperm).
  destruct (build_supergraph_skeleton g (canonical_order_of order) Hg) as (sg & Hb & Hsg).
  destruct (seed_sources_spec g sg spec (vc_nodup _ Hg) (sk_cpg _ _ Hsg)) as (s & Hs & Hsi & Hnf).
  destruct (tabulate_spec g sg spec R cache (enumerate_index (canonical_order_of order)) (seeded s) Hg Hsg)
    as (t & c1 & Ht & Hr & Hi & Hh & Hc).
  destruct (build_findings_spec g sg spec t (mkProv sv env (cpg_order_hash order) (fingerprint_class order))
    (enumerate_index (canonical_order_of order)) (vc_nodup _ Hg) (sk_cpg _ _ Hsg) (ti_chain _ _ _ _ _ _ _ Hi))
    as (fs & Hf & Hk & HF).
  exists sg, s, t, c1, fs. split_and!; try done.
Qed.

Lemma nodup_keys fs : NoDup (map finding_key fs) -> NoDup fs.
Proof. apply NoDup_fmap_1. Qed.

Lemma remove_dups_id {A} `{EqDecision A} (l : list A) : NoDup l -> remove_dups l = l.
Proof.
  induction l as [|x l IH]; intros Hnd; cbn; [done|]. apply NoDup_cons in Hnd as [Hx Hnd].
  destruct (decide_rel elem_of x l); [done|]. by rewrite IH.
Qed.

Lemma solve_inv g spec sv env c r :
  solve g spec sv env c = Ok r ->
  guard_run spec sv env = Ok tt /\
  exists order sg s t fs,
    canonical_order g DEFAULT_B DEFAULT_T c = Ok order /\
    analysis g spec None (mkCache (sv, env) ∅ ∅) sv env order sg s t fs /\
    findings r = fs /\ visited_procs r = visited t /\ header (result_summaries r) = (sv, env) /\
    _hash_solution fs (enumerate_index (canonical_order_of order)) = Ok (solution_hash r).
Proof.
  unfold solve. intros H. apply obind_Ok in H as ([] & Hgd & H). split; [done|].
  apply obind_Ok in H as (order & Ho & H).
  destruct (analysis_exists g spec None (mkCache (sv, env) ∅ ∅) sv env order c Ho)
    as (sg & s & t & c1 & fs & Hb & Hs & Ht & Hf & Hc & _ & Han).
  rewrite Hb in H. cbn [obind] in H. rewrite Hs in H. cbn [obind] in H. rewrite Ht in H. cbn [obind fst] in H.
  rewrite Hf in H. cbn [obind] in H. apply obind_Ok in H as (h & Hh & [= <-]).
  exists order, sg, s, t, fs. split_and!; try done. cbn. apply remove_dups_id, nodup_keys, (an_keys _ _ _ _ _ _ _ _ _ _ _ Han).
Qed.

(** ** What a run finds *)

Section analysed.
Context {g : CPG} {spec : Spec} {R : option (gset Z)} {cache : SummaryCache} {sv : pystr} {env : pybytes}.
Context {order : CanonicalOrderResult} {sg : ExplodedSupergraph} {s : SeedState} {t : Tab} {fs : list Finding}.
Hypothesis Han : analysis g spec R cache sv env order sg s t fs.
Hypothesis Hns : no_splice R cache.

Let Hg := an_valid _ _ _ _ _ _ _ _ _ _ _ Han.
Let Hsg := an_skeleton _ _ _ _ _ _ _ _ _ _ _ Han.
Let Hi := an_inv _ _ _ _ _ _ _ _ _ _ _ Han.
Let Hsd := an_seed_inv _ _ _ _ _ _ _ _ _ _ _ Han.

Lemma seed_item_iff n f : (n, f) ∈ seed_items sg R (seeded s) <->
  seeded_at (seeded s) n f /\ proc_in_scope R (proc_of_node sg !! n) = true.
Proof. rewrite elem_of_seed_items. unfold seeded_at. cbn. naive_solver. Qed.

Lemma holds_iff n f : holds t (n, f) <->
  exists a, seeded_at (seeded s) a f /\ proc_in_scope R (proc_of_node sg !! a) = true /\
            rtc (scoped_step g spec R) a n.
Proof.
  rewrite (an_holds _ _ _ _ _ _ _ _ _ _ _ Han). split.
  - intros ([a h] & Ha & Hr). apply (rtc_flow_plain g sg spec R cache Hg Hsg Hns) in Hr as [E Hr].
    cbn in *. subst h. apply seed_item_iff in Ha as [? ?]. eauto.
  - intros (a & Ha & Hp & Hr). exists (a, f). split; [by apply seed_item_iff|].
    by apply (rtc_flow_plain g sg spec R cache Hg Hsg Hns).
Qed.

Lemma finding_path F : F ∈ fs ->
  exists a, seeded_at (seeded s) a (fact F) /\ proc_in_scope R (proc_of_node sg !! a) = true /\
    source_at g spec a /\ sink_at g spec (sink F) /\
    path_from (scoped_step g spec R) (witness F) a (sink F) /\ NoDup (witness F).
Proof.
  intros (n & f & Hk & Hh & ->)%(an_findings _ _ _ _ _ _ _ _ _ _ _ Han).
  destruct (witness_path g sg spec R cache (seeded s) Hg Hsg Hns t n f Hi Hh) as (w & a & Hw & Ha & Hp & Hnd).
  apply seed_item_iff in Ha as [Ha Hsc]. exists a. unfold readout. rewrite Hw. cbn.
  split_and!; try done. apply (sd_dom _ _ Hsd). by exists f.
Qed.

Lemma finding_provenance F : F ∈ fs ->
  finding_spec_id F = spec_id spec /\ origin F = str "deterministic-core" /\
  S_version F = sv /\ env_digest F = env /\ finding_cpg_order_hash F = cpg_order_hash order /\
  finding_annotation F = CPG_ORDER_HASH_ANNOTATION /\ finding_class F = fingerprint_class order /\
  finding_engine F = engine spec.
Proof. by intros (n & f & _ & _ & ->)%(an_findings _ _ _ _ _ _ _ _ _ _ _ Han). Qed.

Lemma path_ids w a b : path_from (scoped_step g spec R) w a b -> a ∈ ids g -> Forall (fun n => n ∈ ids g) w.
Proof.
  induction 1 as [a|w a n m _ IH Hst]; intros Ha; [by constructor|]. apply Forall_app. split; [auto|].
  constructor; [|done]. destruct Hst as (_ & _ & _ & [He|[He _]]); by apply (has_edge_ids g Hg) in He as [_ ?].
Qed.

Lemma findings_in_range : next_fact s <= 2 ^ 64 -> Forall in_range fs.
Proof.
  intros Hnf. apply Forall_forall. intros F HF.
  destruct (finding_path F HF) as (a & Ha & Hsc & Hsrc & Hsk & Hp & _).
  assert (Hid : forall n, n ∈ ids g -> u64_ok n).
  { intros n (nd & -> & Hn)%list_elem_of_fmap. destruct Hg as [_ Hv _]. rewrite Forall_forall in Hv. by destruct (Hv nd Hn). }
  assert (Hin : forall n (P : CPGNode -> Prop), (exists nd, node_map g !! n = Some nd /\ P nd) -> n ∈ ids g).
  { intros n P (nd & Hn & _). apply node_map_is_Some. by eexists. }
  split_and!.
  - apply Hid. exact (Hin _ _ Hsk).
  - apply (sd_range _ _ Hsd) in Ha. unfold u64_ok. lia.
  - eapply Forall_impl; [eapply path_ids; [exact Hp|exact (Hin _ _ Hsrc)]|]. done.
Qed.

(** The finding of a seed and a sink it reaches. *)
Lemma finding_complete a b :
  source_at g spec a -> proc_in_scope R (proc_of_node sg !! a) = true -> sink_at g spec b ->
  rtc (scoped_step g spec R) a b ->
  exists F, F ∈ fs /\ sink F = b /\ head (witness F) = Some a.
Proof.
  intros Hsrc Hsc Hsk Hr. apply (sd_dom _ _ Hsd) in Hsrc as [f Hf].
  assert (Hh : holds t (b, f)) by (apply holds_iff; by exists a).
  set (F := readout spec t (mkProv sv env (cpg_order_hash order) (fingerprint_class order)) b f).
  assert (HF : F ∈ fs) by (apply (an_findings _ _ _ _ _ _ _ _ _ _ _ Han); by exists b, f).
  exists F. split_and!; [done..|]. destruct (finding_path F HF) as (a' & Ha' & _ & _ & _ & Hp & _).
  rewrite (sd_inj _ _ Hsd a a' f Hf Ha'). by apply path_from_ends in Hp as [? _].
Qed.
End analysed.

(** C3: the solver is sound.  Every finding of [solve] joins a source inside a
    procedure to the reported sink: the witness is a path without repeated
    nodes, each step a CFG edge or a CALL edge into a method that leaves a node
    which does not sanitize; and the finding carries the run's pinned
    parameters and the co-resident graph identity. *)
Theorem solve_sound g spec sv env c r F :
  solve g spec sv env c = Ok r -> F ∈ findings r ->
  (exists a, source_at g spec a /\ in_procedure g a /\ sink_at g spec (sink F) /\
     path_from (taint_step g spec) (witness F) a (sink F) /\ NoDup (witness F)) /\
  origin F = str "deterministic-core" /\ S_version F = sv /\ env_digest F = env /\
  finding_annotation F = CPG_ORDER_HASH_ANNOTATION /\
  exists order, canonical_order g DEFAULT_B DEFAULT_T c = Ok order /\
    finding_cpg_order_hash F = cpg_order_hash order /\ finding_class F = fingerprint_class order.
Proof.
  intros (_ & order & sg & s & t & fs & Ho & Han & <- & _)%solve_inv HF.
  destruct (finding_path Han (no_splice_empty _) F HF) as (a & _ & Hsc & Hsrc & Hsk & Hp & Hnd).
  destruct (finding_provenance Han F HF) as (_ & ? & ? & ? & ? & ? & ? & _).
  split_and!; try done; [|by exists order]. exists a. split_and!; try done.
  apply (sk_in_proc _ _ (an_skeleton _ _ _ _ _ _ _ _ _ _ _ Han)).
  destruct (proc_of_node sg !! a); [by eexists|done].
Qed.

(** C4: the solver is complete.  Whenever an unsanitised path leads from a
    source inside a procedure to a sink, [solve] reports that sink with a
    witness that starts at that source. *)
Theorem solve_complete g spec sv env c r a b :
  solve g spec sv env c = Ok r ->
  source_at g spec a -> in_procedure g a -> sink_at g spec b -> rtc (taint_step g spec) a b ->
  exists F, F ∈ findings r /\ sink F = b /\ head (witness F) = Some a.
Proof.
  intros (_ & order & sg & s & t & fs & Ho & Han & <- & _)%solve_inv Hsrc Hin Hsk Hr.
  eapply (finding_complete Han (no_splice_empty _)); [done| |done|done].
  apply (sk_in_proc _ _ (an_skeleton _ _ _ _ _ _ _ _ _ _ _ Han)) in Hin as [p ->]. done.
Qed.

Lemma default_duration :
  _duration_seconds DEFAULT_T = Ok (3602879701896397 # 18014398509481984)%Q.
Proof. reflexivity. Qed.

Lemma solve_runs g spec sv env c order :
  guard_run spec sv env = Ok tt -> canonical_order g DEFAULT_B DEFAULT_T c = Ok order ->
  len (nodes g) * len (source_patterns spec) <= 2 ^ 64 ->
  exists r, solve g spec sv env c = Ok r.
Proof.
  intros Hgd Ho Hsz. unfold solve. rewrite Hgd. cbn [obind]. rewrite Ho. cbn [obind].
  destruct (analysis_exists g spec None (mkCache (sv, env) ∅ ∅) sv env order c Ho)
    as (sg & s & t & c1 & fs & Hb & Hs & Ht & Hf & Hc & Hnf & Han).
  rewrite Hb. cbn [obind]. rewrite Hs. cbn [obind]. rewrite Ht. cbn [obind fst]. rewrite Hf. cbn [obind].
  rewrite hash_solution_ok by (apply (findings_in_range Han (no_splice_empty _)); lia). by eexists.
Qed.

(** C40: the solver is total.  With its pinned parameters and a core engine, a
    valid graph of representable size and a clock that does not reach the
    default deadline, [solve] returns: the worklist loop and the backtrack do
    not run out of fuel and no dict lookup fails. *)
Theorem solve_total g spec sv env c :
  sv <> [] -> env <> [] -> engine_ok spec = true -> valid_cpg g -> sized g ->
  len (nodes g) * len (source_patterns spec) <= 2 ^ 64 ->
  (forall i, Qle_bool (3602879701896397 # 18014398509481984) (c i - c O) = false) ->
  exists r, solve g spec sv env c = Ok r.
Proof.
  intros Hsv Henv He Hg Hs Hsz Hc.
  destruct (canonical_order_runs g (2 ^ 16) DEFAULT_T _ c Hg Hs eq_refl default_duration Hc) as [el Ho].
  eapply solve_runs; [|exact Ho|done]. unfold guard_run, _require. destruct sv, env; try done. cbn. by rewrite He.
Qed.

(** The solution does not depend on the clock: two completed runs on the
    same inputs return the same findings, hash, visited procedures and
    summaries. *)
Theorem solve_clock_independent g spec sv env c c' r r' :
  solve g spec sv env c = Ok r -> solve g spec sv env c' = Ok r' -> r' = r.
Proof.
  unfold solve. intros H H'. destruct (guard_run spec sv env); [|done]. cbn [obind] in H, H'.
  apply obind_Ok in H as (o & Ho & H). apply obind_Ok in H' as (o' & Ho' & H').
  apply canonical_order_expected in Ho as (L & el & HB & _ & _ & _ & ->).
  apply canonical_order_expected in Ho' as (L' & el' & HB' & _ & _ & _ & ->).
  rewrite HB in HB'. injection HB' as <-.
  unfold expected in H, H'. cbn [canonical_order_of cpg_order_hash fingerprint_class] in H, H'. congruence.
Qed.
