(* ===== verification/Incremental.v ===== *)
(** * The incremental solver agrees with the full one

    The restricted tabulation is simulated by the full one: on the procedures
    of the closure both discover the same items, in the same order and from the
    same predecessors. *)
From stdpp Require Import base tactics list gmap sets fin_sets relations strings.
From Stdlib Require Import ZArith QArith Lia.
From S2P Require Import Prelude PyData PyDict Sha256 Budget Cpg GraphSpec Ordering Canonical Dsl.
From S2P Require Import Supergraph Solver SolverSpec SolverReadout Ifds.

Open Scope Z_scope.
Open Scope py_scope.

(** CFG edges stay inside a procedure, as the supergraph documents. *)
Definition cfg_intraprocedural (g : CPG) (sg : ExplodedSupergraph) : Prop :=
  forall n m, has_edge g CFG_EDGE n m -> proc_of_node sg !! m = proc_of_node sg !! n.

(** A set of procedures that contains every caller of its members. *)
Definition caller_closed (sg : ExplodedSupergraph) (C : gset Z) : Prop :=
  forall p q, p ∈ C -> q ∈ default ∅ (callers sg !! p) -> q ∈ C.

Section simulation.
Context (g : CPG) (sg : ExplodedSupergraph) (spec : Spec) (C : gset Z).
Context (cacheF cacheI : SummaryCache) (canon_index : gmap Z Z) (seeds : list (Z * gset Z)).
Hypothesis Hg : valid_cpg g.
Hypothesis Hsg : skeleton g sg.
Hypothesis HnsF : no_splice None cacheF.
Hypothesis HnsI : no_splice (Some C) cacheI.
Hypothesis Hcfg : cfg_intraprocedural g sg.
Hypothesis Hup : caller_closed sg C.
Hypothesis Hidx : forall n m, n ∈ ids g -> m ∈ ids g -> canon_key canon_index n = canon_key canon_index m -> n = m.

Notation flowF := (flow g sg spec None cacheF).
Notation flowI := (flow g sg spec (Some C) cacheI).
Notation invF := (loop_inv g sg spec None cacheF seeds).
Notation invI := (loop_inv g sg spec (Some C) cacheI seeds).

Definition inC (x : item) : bool := proc_in_scope (Some C) (proc_of_node sg !! x.1).

Lemma flowI_F x y : flowI x y -> flowF x y.
Proof.
  rewrite !flow_plain by done. intros [E (nd & Hn & Hs & He)]. split; [done|]. exists nd. tauto.
Qed.

Lemma flowI_closed x y : inC x = true -> flowI x y -> inC y = true.
Proof.
  rewrite flow_plain by done. unfold inC. intros Hx [_ (nd & _ & _ & [He|(_ & Hm & Hsc)])].
  - by rewrite (Hcfg _ _ He).
  - by rewrite (sk_method _ _ Hsg _ Hm).
Qed.

Lemma flowF_into x y :
  is_Some (proc_of_node sg !! x.1) -> flowF x y -> inC y = true -> flowI x y /\ inC x = true.
Proof.
  intros [q Hq]. rewrite !flow_plain by done. intros [E (nd & Hn & Hs & [He|(He & Hm & _)])] Hy.
  - split; [split; [done|exists nd; tauto]|]. unfold inC in *. by rewrite (Hcfg _ _ He) in Hy.
  - assert (Hy' := Hy). unfold inC in Hy'. rewrite (sk_method _ _ Hsg _ Hm) in Hy'.
    split; [split; [done|exists nd; tauto]|]. unfold inC. rewrite Hq. cbn in *.
    apply bool_decide_eq_true in Hy'. apply bool_decide_eq_true. eapply Hup; [exact Hy'|].
    apply (sk_callers _ _ Hsg). by exists x.1.
Qed.

(** Every item of the full run lies in a procedure. *)
Lemma holdsF_proc t x : tab_inv g sg spec None cacheF seeds t -> holds t x -> is_Some (proc_of_node sg !! x.1).
Proof.
  intros Hi Hx. destruct (ti_sound _ _ _ _ _ _ _ Hi x Hx) as (s & Hs & Hr).
  assert (H0 : is_Some (proc_of_node sg !! s.1)).
  { apply elem_of_seed_items in Hs as (F & _ & _ & Hsc). destruct (proc_of_node sg !! s.1); [by eexists|done]. }
  clear Hs Hx. induction Hr as [x|x y z Hxy _ IH]; [done|]. apply IH.
  rewrite flow_plain in Hxy by done. destruct Hxy as [_ (nd & _ & _ & [He|(_ & Hm & _)])].
  - by rewrite (Hcfg _ _ He).
  - rewrite (sk_method _ _ Hsg _ Hm). by eexists.
Qed.

Record sim (tF tI : Tab) : Prop := {
  sm_holds x : inC x = true -> holds tF x <-> holds tI x;
  sm_scope x : holds tI x -> inC x = true;
  sm_pred x : inC x = true -> pred tF !! x = pred tI !! x;
  sm_work : List.filter inC (worklist tF) ≡ₚ worklist tI
}.

(** Both sides grow by the same items of the closure. *)
Lemma sim_grows pk tF tF' tI tI' nF nI :
  sim tF tI -> grows sg pk tF tF' nF -> grows sg pk tI tI' nI ->
  (forall x, x ∈ nI <-> x ∈ nF /\ inC x = true) -> sim tF' tI'.
Proof.
  intros [S1 S2 S3 S4] GF GI Hn. split.
  - intros x Hx. rewrite (gr_holds _ _ _ _ _ GF), (gr_holds _ _ _ _ _ GI), Hn, (S1 x Hx). tauto.
  - intros x [Hx|Hx]%(gr_holds _ _ _ _ _ GI); [auto|]. by apply Hn in Hx as [_ ?].
  - intros x Hx. destruct (decide (x ∈ nF)) as [Hf|Hf].
    + rewrite (gr_pred_new _ _ _ _ _ GF) by done. rewrite (gr_pred_new _ _ _ _ _ GI); [done|by apply Hn].
    + rewrite (gr_pred_old _ _ _ _ _ GF) by done. rewrite (gr_pred_old _ _ _ _ _ GI); [by apply S3|].
      by intros [? _]%Hn.
  - rewrite (gr_worklist _ _ _ _ _ GF), (gr_worklist _ _ _ _ _ GI), List.filter_app, S4. f_equiv.
    apply NoDup_Permutation.
    + apply NoDup_ListNoDup, List.NoDup_filter, NoDup_ListNoDup, (gr_nodup _ _ _ _ _ GF).
    + apply (gr_nodup _ _ _ _ _ GI).
    + intros x. rewrite Hn, list_elem_of_In, filter_In, <-list_elem_of_In. done.
Qed.

(** The full side grows outside the closure. *)
Lemma sim_outside pk tF tF' tI nF :
  sim tF tI -> grows sg pk tF tF' nF -> (forall x, x ∈ nF -> inC x = false) -> sim tF' tI.
Proof.
  intros Hs GF Hn. eapply sim_grows; [exact Hs|exact GF|apply grows_refl|].
  intros x. rewrite elem_of_nil. split; [done|]. intros [Hx E]. rewrite Hn in E by done. done.
Qed.

#[local] Instance item_leb_total idx : TotalLe (item_leb idx).
Proof.
  unfold item_leb. apply (on_key_total (fun a : item => (canon_key idx a.1, a.2))).
  apply pair_leb_total; apply _.
Qed.

Lemma item_leb_anti (a b : item) : a.1 ∈ ids g -> b.1 ∈ ids g ->
  item_leb canon_index a b = true -> item_leb canon_index b a = true -> a = b.
Proof.
  intros Ha Hb H1 H2. assert (E : (canon_key canon_index a.1, a.2) = (canon_key canon_index b.1, b.2)).
  { apply (@leb_anti _ (pair_leb Z.leb Z.leb) (pair_leb_anti Z.leb Z.leb _ _)); done. }
  injection E as E1 E2. apply Hidx in E1; [|done..]. destruct a, b; cbn in *; congruence.
Qed.

Lemma sorted_head {A} (leb : A -> A -> bool) `{!TotalLe leb} l x rest :
  py_sorted leb l = x :: rest -> l ≡ₚ x :: rest /\ forall y, y ∈ l -> leb x y = true.
Proof.
  intros E. split; [rewrite <-E; symmetry; apply py_sorted_perm|].
  apply (py_min_spec leb l x). unfold py_min. by rewrite E.
Qed.

(** The item the full side pops is the next one of the restricted side. *)
Lemma sim_pop tF tI it rest :
  sim tF tI -> invF tF -> invI tI ->
  py_sorted (item_leb canon_index) (worklist tF) = it :: rest -> inC it = true ->
  exists restI, py_sorted (item_leb canon_index) (worklist tI) = it :: restI /\
    sim (popped tF rest) (popped tI restI).
Proof.
  intros Hs HF HI Hsort Hc. destruct (sorted_head _ _ _ _ Hsort) as [HpF HminF].
  assert (Hfil : List.filter inC (worklist tF) ≡ₚ it :: List.filter inC rest).
  { rewrite (filter_perm inC _ _ HpF). cbn. by rewrite Hc. }
  assert (HitI : it ∈ worklist tI) by (rewrite <-(sm_work _ _ Hs), Hfil; left).
  destruct (py_sorted (item_leb canon_index) (worklist tI)) as [|it' restI] eqn:HsI.
  { rewrite <-(py_sorted_elem (item_leb canon_index)), HsI in HitI. by apply elem_of_nil in HitI. }
  destruct (sorted_head _ _ _ _ HsI) as [HpI HminI].
  assert (it' = it) as ->.
  { assert (Hin' : it' ∈ worklist tI) by (rewrite HpI; left).
    assert (HinF : it' ∈ worklist tF).
    { rewrite <-(sm_work _ _ Hs) in Hin'. apply list_elem_of_In, filter_In in Hin' as [? _]. by apply list_elem_of_In. }
    apply item_leb_anti; auto.
    - apply (ti_ok _ _ _ _ _ _ _ (li_inv _ _ _ _ _ _ _ HF)). by apply (li_work _ _ _ _ _ _ _ HF).
    - apply (ti_ok _ _ _ _ _ _ _ (li_inv _ _ _ _ _ _ _ HI)). by apply (li_work _ _ _ _ _ _ _ HI). }
  exists restI. split; [done|]. destruct Hs as [S1 S2 S3 S4]. split; try done. cbn.
  apply (Permutation_cons_inv (a := it)). rewrite <-Hfil, S4, HpI. done.
Qed.

Lemma sim_loop fuelF : forall fuelI tF tI tF' tI',
  sim tF tI -> invF tF -> invI tI ->
  tab_loop fuelF sg spec None cacheF canon_index tF = Ok tF' ->
  tab_loop fuelI sg spec (Some C) cacheI canon_index tI = Ok tI' -> sim tF' tI'.
Proof.
  induction fuelF as [|fuelF IH]; intros fuelI tF tI tF' tI' Hs HF HI HrF HrI; cbn [tab_loop] in HrF.
  all: destruct (py_sorted (item_leb canon_index) (worklist tF)) as [|it rest] eqn:Hsort.
  1, 3: injection HrF as <-; cut (worklist tI = []);
    [intros E; destruct fuelI; cbn [tab_loop] in HrI; rewrite E in HrI; by injection HrI as <-|];
    apply Permutation_nil; rewrite <-(sm_work _ _ Hs);
    rewrite (filter_perm inC _ [] (Permutation_trans (symmetry (py_sorted_perm (item_leb canon_index) (worklist tF)))
      (reflexive_eq _ _ Hsort))); done.
  { done. }
  destruct (loop_step g sg spec None cacheF canon_index Hg Hsg seeds tF it rest HF Hsort)
    as (tF1 & nF & HeF & GF & HnF & HF1).
  change (mkTab (facts_at tF) (visited tF) (pred tF) rest) with (popped tF rest) in HrF.
  rewrite HeF in HrF. cbn [obind] in HrF.
  assert (Hit : holds tF it).
  { apply (li_work _ _ _ _ _ _ _ HF). rewrite (proj1 (sorted_head _ _ _ _ Hsort)). left. }
  pose proof (holdsF_proc tF it (li_inv _ _ _ _ _ _ _ HF) Hit) as Hproc.
  destruct (inC it) eqn:Hc.
  - destruct (sim_pop tF tI it rest Hs HF HI Hsort Hc) as (restI & HsI & Hs1).
    destruct fuelI as [|fuelI]; cbn [tab_loop] in HrI; rewrite HsI in HrI; [done|].
    destruct (loop_step g sg spec (Some C) cacheI canon_index Hg Hsg seeds tI it restI HI HsI)
      as (tI1 & nI & HeI & GI & HnI & HI1).
    change (mkTab (facts_at tI) (visited tI) (pred tI) restI) with (popped tI restI) in HrI.
    rewrite HeI in HrI. cbn [obind] in HrI.
    eapply (IH fuelI tF1 tI1); [|done..]. eapply sim_grows; [exact Hs1|exact GF|exact GI|].
    intros x. rewrite HnI, HnF. split.
    + intros [Hx Hh]. pose proof (flowI_closed it x Hc Hx) as Hcx.
      split_and!; [by apply flowI_F|by rewrite (sm_holds _ _ Hs x Hcx)|done].
    + intros [[Hx Hh] Hcx]. split; [by apply flowF_into|by rewrite <-(sm_holds _ _ Hs x Hcx)].
  - eapply (IH fuelI tF1 tI); [|done..]. eapply sim_outside; [|exact GF|].
    + destruct Hs as [S1 S2 S3 S4]. split; try done. cbn. rewrite <-S4.
      rewrite (filter_perm inC _ _ (proj1 (sorted_head _ _ _ _ Hsort))). cbn. by rewrite Hc.
    + intros x [Hx _]%HnF. destruct (inC x) eqn:Hcx; [|done].
      destruct (flowF_into it x Hproc Hx Hcx) as [_ ?]. congruence.
Qed.

Lemma sim_run tF tI :
  tab_run g sg spec None cacheF canon_index seeds = Ok tF ->
  tab_run g sg spec (Some C) cacheI canon_index seeds = Ok tI -> sim tF tI.
Proof.
  unfold tab_run. intros HF HI.
  apply obind_Ok in HF as (tF0 & HF0 & HF). apply obind_Ok in HI as (tI0 & HI0 & HI).
  destruct (seeded_inv g sg spec None cacheF Hg Hsg seeds) as (tF1 & E1 & IF & _ & _).
  destruct (seeded_inv g sg spec (Some C) cacheI Hg Hsg seeds) as (tI1 & E2 & II & _ & _).
  assert (tF1 = tF0) as -> by congruence. assert (tI1 = tI0) as -> by congruence.
  eapply sim_loop; [|done..]. rewrite seeding_items in HF0, HI0.
  assert (Hd : forall R x, x ∈ seed_items sg R seeds -> is_Some (facts_at (empty_tab g) !! x.1)).
  { intros R x Hx. apply (ti_dom _ _ _ _ _ _ _ (empty_tab_inv g sg spec R cacheF Hg Hsg seeds)).
    by apply (item_ok_seed g sg R cacheF Hsg) in Hx as [? _]. }
  destruct (add_all_spec sg None (seed_items sg None seeds) (empty_tab g)) as (tF2 & nF & E3 & GF & NF); [apply Hd|].
  destruct (add_all_spec sg None (seed_items sg (Some C) seeds) (empty_tab g)) as (tI2 & nI & E4 & GI & NI); [apply Hd|].
  assert (tF2 = tF0) as -> by congruence. assert (tI2 = tI0) as -> by congruence.
  eapply sim_grows; [|exact GF|exact GI|].
  - split; try done. by intros x ?%(empty_not_holds g sg Hg Hsg).
  - intros x. rewrite NF, NI, !elem_of_seed_items. unfold inC. split.
    + intros [(F & H1 & H2 & H3) H4]. split_and!; try done. exists F. split_and!; try done.
      by destruct (proc_of_node sg !! x.1).
    + intros [[(F & H1 & H2 & H3) H4] H5]. split; [|done]. by exists F.
Qed.
End simulation.

(** ** The closure and the cache *)

Lemma invalidate_no_splice c C : no_splice (Some C) (invalidate c C).
Proof.
  intros p f Hp. cbn in Hp. apply bool_decide_eq_true in Hp. unfold exit_facts. cbn.
  assert (H : forall l (m : gmap Z (gmap Z (gset Z))), p ∈ l -> fold_left (fun m p => delete p m) l m !! p = None).
  { assert (Hn : forall l (m : gmap Z (gmap Z (gset Z))), m !! p = None -> fold_left (fun m p => delete p m) l m !! p = None).
    { induction l as [|q l IH]; intros m Hm; cbn; [done|]. apply IH. by rewrite lookup_delete_None; right. }
    induction l as [|q l IH]; intros m Hin; [by apply elem_of_nil in Hin|]. cbn.
    apply elem_of_cons in Hin as [->|Hin]; [|auto]. apply Hn. by rewrite lookup_delete_eq. }
  rewrite H by (by apply elem_of_elements). cbn. by rewrite lookup_empty.
Qed.

(** Every procedure that can reach a call of [p] through the call graph. *)
Definition calls_transitively (sg : ExplodedSupergraph) (q p : Z) : Prop :=
  tc (fun a b => b ∈ default ∅ (callers sg !! a)) p q.

Lemma tc_iff {A} (P Q : A -> A -> Prop) x y : (forall a b, P a b <-> Q a b) -> tc P x y <-> tc Q x y.
Proof. intros H. split; apply (tc_congruence id); intros; by apply H. Qed.

Lemma transitive_callers_spec sg seed :
  exists up, transitive_callers sg seed = Ok up /\
    forall q, q ∈ up <-> exists p, p ∈ seed /\ calls_transitively sg q p.
Proof.
  destruct (closure_spec (callers sg) seed ∅) as (up & Hup & H); [intros x Hx; set_solver|].
  exists up. split; [done|]. intros q. rewrite H. unfold calls_transitively.
  assert (E : forall p, tc (edge_in (callers sg)) p q <-> tc (fun a b => b ∈ default ∅ (callers sg !! a)) p q).
  { intros p. apply tc_iff. intros a b. unfold edge_in, successors. by rewrite elem_of_elements. }
  setoid_rewrite E. set_solver.
Qed.

Lemma closure_caller_closed sg seed up :
  transitive_callers sg seed = Ok up -> caller_closed sg (seed ∪ up).
Proof.
  intros Ht p q Hp Hq. destruct (transitive_callers_spec sg seed) as (up' & E & H).
  assert (up' = up) as -> by congruence. apply elem_of_union. right. apply H.
  apply elem_of_union in Hp as [Hp|(a & Ha & Hc)%H].
  - exists p. split; [done|]. by apply tc_once.
  - exists a. split; [done|]. by eapply tc_r.
Qed.

Lemma canon_key_inj g order n m : NoDup (ids g) -> order ≡ₚ ids g -> n ∈ ids g -> m ∈ ids g ->
  canon_key (enumerate_index order) n = canon_key (enumerate_index order) m -> n = m.
Proof.
  intros Hnd Hp Hn Hm. assert (Hno : NoDup order) by (by rewrite Hp).
  assert (Hl : forall i, i ∈ ids g -> exists k, order !! k = Some i /\ enumerate_index order !! i = Some (Z.of_nat k)).
  { intros i. rewrite <-Hp. intros [k Hk]%list_elem_of_lookup. exists k. split; [done|].
    apply enumerate_index_lookup; eauto. }
  destruct (Hl n Hn) as (k & Hk & En), (Hl m Hm) as (j & Hj & Em). unfold canon_key. rewrite En, Em. cbn.
  intros ->%Nat2Z.inj. congruence.
Qed.

(** ** Inverting a run *)

Lemma incremental_inv g spec aff prior sv env pf c r :
  incremental_solve g spec aff prior sv env pf c = Ok r ->
  guard_run spec sv env = Ok tt /\ header prior = (sv, env) /\
  (forall F, F ∈ pf -> S_version F = sv /\ env_digest F = env) /\
  exists order sg up s t fs,
    canonical_order g DEFAULT_B DEFAULT_T c = Ok order /\
    transitive_callers sg aff = Ok up /\
    analysis g spec (Some (aff ∪ up)) (invalidate prior (aff ∪ up)) sv env order sg s t fs /\
    visited_procs r = visited t /\
    findings r = remove_dups (fs ++ List.filter (fun f => negb (proc_in_scope (Some (aff ∪ up)) (proc_of_node sg !! sink f))) pf).
Proof.
  unfold incremental_solve. intros H. apply obind_Ok in H as ([] & Hgd & H). split; [done|].
  case_bool_decide as Hh; [|done]. split; [done|]. cbn [obind] in H. apply obind_Ok in H as (order & Ho & H).
  destruct (build_supergraph_skeleton g (canonical_order_of order) (proj1 (order_valid _ _ _ _ _ Ho))) as (sg0 & Hb0 & _).
  destruct (transitive_callers_spec sg0 aff) as (up & Hup & _).
  destruct (analysis_exists g spec (Some (aff ∪ up)) (invalidate prior (aff ∪ up)) sv env order c Ho)
    as (sg & s & t & c1 & fs & Hb & Hs & Ht & Hf & Hc & _ & Han).
  assert (sg0 = sg) as -> by congruence. rewrite Hb in H. cbn [obind] in H. rewrite Hup in H. cbn [obind] in H.
  rewrite Hs in H. cbn [obind] in H. rewrite Ht in H. cbn [obind fst] in H. rewrite Hf in H. cbn [obind] in H.
  apply obind_Ok in H as (us & Hpf & H). apply obind_Ok in H as (h & _ & [= <-]). split.
  - clear -Hpf. revert us Hpf. induction pf as [|F pf IH]; intros us Hpf F' HF'; [by apply elem_of_nil in HF'|].
    cbn in Hpf. apply obind_Ok in Hpf as (u & Hc & Hpf). apply obind_Ok in Hpf as (us' & Hpf & _).
    apply elem_of_cons in HF' as [->|HF']; [|by eapply IH]. unfold check_prior in Hc.
    destruct (bool_decide_reflect (S_version F = sv)), (bool_decide_reflect (env_digest F = env)); done.
  - exists order, sg, up, s, t, fs. split_and!; done.
Qed.

(** Incremental tabulation is bounded.  When CFG edges stay inside
    procedures, the procedures an incremental run visits are affected ones or
    transitive callers of affected ones. *)
Theorem incremental_visited_bounded g spec aff prior sv env pf c r order sg :
  canonical_order g DEFAULT_B DEFAULT_T c = Ok order ->
  build_supergraph g (canonical_order_of order) = Ok sg -> cfg_intraprocedural g sg ->
  incremental_solve g spec aff prior sv env pf c = Ok r ->
  forall q, q ∈ visited_procs r -> q ∈ aff \/ exists p, p ∈ aff /\ calls_transitively sg q p.
Proof.
  intros Ho Hb Hcfg (_ & _ & _ & order' & sg' & up & s & t & fs & Ho' & Hup & Han & -> & _)%incremental_inv q Hq.
  assert (order' = order) as -> by congruence.
  assert (sg' = sg) as -> by (pose proof (an_sg _ _ _ _ _ _ _ _ _ _ _ Han); congruence).
  destruct (transitive_callers_spec sg aff) as (up' & Hup' & Hspec).
  assert (up' = up) as -> by congruence. rewrite <-Hspec, <-elem_of_union.
  pose proof (an_skeleton _ _ _ _ _ _ _ _ _ _ _ Han) as Hsg.
  pose proof (an_inv _ _ _ _ _ _ _ _ _ _ _ Han) as Hi.
  apply (ti_visited _ _ _ _ _ _ _ Hi) in Hq as (x & Hx & Hq).
  apply (an_holds _ _ _ _ _ _ _ _ _ _ _ Han) in Hx as (y & Hy & Hr).
  assert (Hc : inC sg (aff ∪ up) x = true).
  { assert (Hc : inC sg (aff ∪ up) y = true).
    { apply elem_of_seed_items in Hy as (F & _ & _ & ?). done. }
    clear Hy Hq. induction Hr as [|y z w Hyz _ IH]; [done|]. apply IH.
    eapply flowI_closed; [apply (an_valid _ _ _ _ _ _ _ _ _ _ _ Han)|exact Hsg|apply invalidate_no_splice|done|exact Hc|exact Hyz]. }
  unfold inC in Hc. rewrite Hq in Hc. cbn in Hc. by apply bool_decide_eq_true in Hc.
Qed.

(** ** Agreement with a full run *)

Section agreement.
Context (g : CPG) (spec : Spec) (sv : pystr) (env : pybytes) (order : CanonicalOrderResult) (sg : ExplodedSupergraph).
Context (C : gset Z) (cF cI : SummaryCache) (sF sI : SeedState) (tF tI : Tab) (fF fI : list Finding).
Hypothesis HF : analysis g spec None cF sv env order sg sF tF fF.
Hypothesis HI : analysis g spec (Some C) cI sv env order sg sI tI fI.
Hypothesis HnsF : no_splice None cF.
Hypothesis HnsI : no_splice (Some C) cI.
Hypothesis Hcfg : cfg_intraprocedural g sg.
Hypothesis Hup : caller_closed sg C.

Let Hg := an_valid _ _ _ _ _ _ _ _ _ _ _ HF.
Let Hsg := an_skeleton _ _ _ _ _ _ _ _ _ _ _ HF.
Let Hkey n m := canon_key_inj g (canonical_order_of order) n m (vc_nodup _ Hg) (an_order _ _ _ _ _ _ _ _ _ _ _ HF).

Lemma agreement_sim : sim sg C tF tI.
Proof.
  assert (E : sI = sF).
  { pose proof (an_seeds _ _ _ _ _ _ _ _ _ _ _ HF). pose proof (an_seeds _ _ _ _ _ _ _ _ _ _ _ HI). congruence. }
  pose proof (an_run _ _ _ _ _ _ _ _ _ _ _ HI) as HrI. rewrite E in HrI.
  eapply sim_run; [exact Hg|exact Hsg|exact HnsF|exact HnsI|exact Hcfg|exact Hup|exact Hkey
    |apply (an_run _ _ _ _ _ _ _ _ _ _ _ HF)|exact HrI].
Qed.

Lemma chain_sim x l : chain (pred tI) x l -> chain (pred tF) x l.
Proof.
  assert (Hin : forall y, is_Some (pred tI !! y) -> pred tF !! y = pred tI !! y).
  { intros y Hy. apply (sm_pred _ _ _ _ agreement_sim), (sm_scope _ _ _ _ agreement_sim).
    by apply (ti_pred _ _ _ _ _ _ _ (an_inv _ _ _ _ _ _ _ _ _ _ _ HI)). }
  apply chain_mono. exact Hin.
Qed.

Lemma readout_sim n f pv : holds tI (n, f) -> readout spec tI pv n f = readout spec tF pv n f.
Proof.
  intros Hh. destruct (ti_chain _ _ _ _ _ _ _ (an_inv _ _ _ _ _ _ _ _ _ _ _ HI) _ Hh) as [l Hl].
  unfold readout. by rewrite (witness_chain _ _ _ _ Hl), (witness_chain _ _ _ _ (chain_sim _ _ Hl)).
Qed.

Definition sink_in (F : Finding) : bool := proc_in_scope (Some C) (proc_of_node sg !! sink F).

Lemma fresh_findings F : F ∈ fI <-> F ∈ fF /\ sink_in F = true.
Proof.
  rewrite (an_findings _ _ _ _ _ _ _ _ _ _ _ HI), (an_findings _ _ _ _ _ _ _ _ _ _ _ HF). split.
  - intros (n & f & Hs & Hh & ->). pose proof (sm_scope _ _ _ _ agreement_sim _ Hh) as Hc.
    rewrite (readout_sim n f _ Hh). split; [|done]. exists n, f. split_and!; try done.
    by apply (sm_holds _ _ _ _ agreement_sim _ Hc).
  - intros [(n & f & Hs & Hh & ->) Hc].
    assert (HhI : holds tI (n, f)) by (by apply (sm_holds _ _ _ _ agreement_sim (n, f) Hc)).
    exists n, f. split_and!; try done. symmetry. by apply readout_sim.
Qed.

Lemma merged_perm pf : pf ≡ₚ fF -> fI ++ List.filter (fun F => negb (sink_in F)) pf ≡ₚ fF.
Proof.
  intros Hp. rewrite (filter_perm _ _ _ Hp).
  pose proof (nodup_keys _ (an_keys _ _ _ _ _ _ _ _ _ _ _ HF)) as NF.
  pose proof (nodup_keys _ (an_keys _ _ _ _ _ _ _ _ _ _ _ HI)) as NI.
  assert (Hfil : forall F, F ∈ List.filter (fun F => negb (sink_in F)) fF <-> F ∈ fF /\ sink_in F = false).
  { intros F. rewrite !list_elem_of_In, filter_In, negb_true_iff. done. }
  apply NoDup_Permutation; [|done|].
  - apply NoDup_app. split_and!; [done| |by apply NoDup_ListNoDup, List.NoDup_filter, NoDup_ListNoDup].
    intros F [_ H1]%fresh_findings [_ H2]%Hfil. congruence.
  - intros F. rewrite elem_of_app, fresh_findings, Hfil. destruct (sink_in F); naive_solver.
Qed.

#[local] Instance finding_leb_total idx : TotalLe (finding_leb idx).
Proof.
  unfold finding_leb. apply (on_key_total (fun a : Finding => (canon_key idx (sink a), fact a))).
  apply pair_leb_total; apply _.
Qed.

Lemma hash_perm fs : fs ≡ₚ fF ->
  _hash_solution fs (enumerate_index (canonical_order_of order)) =
  _hash_solution fF (enumerate_index (canonical_order_of order)).
Proof.
  intros Hp. unfold _hash_solution. rewrite (py_sorted_perm_on (finding_leb _) fs fF); [done| |done].
  intros F F'. rewrite Hp. intros H1 H2 L1 L2.
  assert (E : (canon_key (enumerate_index (canonical_order_of order)) (sink F), fact F) =
              (canon_key (enumerate_index (canonical_order_of order)) (sink F'), fact F')).
  { apply (@leb_anti _ (pair_leb Z.leb Z.leb) (pair_leb_anti Z.leb Z.leb _ _)); done. }
  injection E as E1 E2.
  assert (Hids : forall G, G ∈ fF -> sink G ∈ ids g).
  { intros G (n & f & (nd & Hn & _) & _ & ->)%(an_findings _ _ _ _ _ _ _ _ _ _ _ HF).
    apply node_map_is_Some. by eexists. }
  apply Hkey in E1; [|by apply Hids..].
  apply list_elem_of_lookup in H1 as [i Hi], H2 as [j Hj].
  assert (i = j); [|congruence].
  eapply (NoDup_lookup (map finding_key fF)); [apply (an_keys _ _ _ _ _ _ _ _ _ _ _ HF)|..];
    change (map finding_key fF) with (finding_key <$> fF); rewrite list_lookup_fmap, ?Hi, ?Hj; [done|].
  cbn. unfold finding_key. by rewrite E1, E2.
Qed.
End agreement.

(** C12: on an unchanged graph the incremental run agrees with the full one.
    Given the findings of a completed [solve] and any summary cache of the same
    pinned parameters, and CFG edges inside procedures, [incremental_solve]
    returns, whatever set of procedures is declared affected, the same set of
    findings, witnesses included, and the same solution hash. *)
Theorem incremental_agrees_with_full g spec sv env c c' r order sg aff prior pf :
  solve g spec sv env c = Ok r ->
  canonical_order g DEFAULT_B DEFAULT_T c' = Ok order ->
  build_supergraph g (canonical_order_of order) = Ok sg -> cfg_intraprocedural g sg ->
  header prior = (sv, env) -> pf ≡ₚ findings r ->
  exists r', incremental_solve g spec aff prior sv env pf c' = Ok r' /\
    findings r' ≡ₚ findings r /\ solution_hash r' = solution_hash r.
Proof.
  intros (Hgd & order0 & sg0 & s0 & t0 & fF & Ho & HF & Hfr & _ & _ & Hh)%solve_inv Ho' Hb Hcfg Hhd Hpf.
  rewrite Hfr in *.
  destruct (transitive_callers_spec sg aff) as (up & Hup & _). set (C := aff ∪ up).
  destruct (analysis_exists g spec (Some C) (invalidate prior C) sv env order c' Ho')
    as (sg1 & s & t & c1 & fI & Hb1 & Hs & Ht & Hf & _ & _ & HI).
  assert (sg1 = sg) as -> by congruence.
  assert (HF' : analysis g spec None (mkCache (sv, env) ∅ ∅) sv env order sg0 s0 t0 fF /\
    canonical_order_of order0 = canonical_order_of order).
  { apply canonical_order_expected in Ho as (L & el & HB & _ & _ & _ & ->).
    apply canonical_order_expected in Ho' as (L' & el' & HB' & _ & _ & _ & ->).
    rewrite HB in HB'. injection HB' as <-. split; [|done]. by destruct HF; split. }
  destruct HF' as [HF' Eo]. clear HF.
  assert (sg0 = sg) as -> by (pose proof (an_sg _ _ _ _ _ _ _ _ _ _ _ HF'); congruence).
  pose proof (closure_caller_closed sg aff up Hup) as Hcc. fold C in Hcc.
  set (fs := fI ++ List.filter (fun F => negb (sink_in sg C F)) pf).
  assert (Hm : fs ≡ₚ fF).
  { eapply merged_perm; [exact HF'|exact HI|apply no_splice_empty|apply invalidate_no_splice|done..]. }
  assert (Hhash : _hash_solution fs (enumerate_index (canonical_order_of order)) = Ok (solution_hash r)).
  { rewrite <-Hh, Eo. eapply hash_perm; [exact HF'|done]. }
  assert (Hprior : mapO (check_prior sv env) pf = Ok (map (fun _ => tt) pf)).
  { apply mapO_pure. intros F HFp. rewrite Hpf in HFp.
    destruct (finding_provenance HF' F HFp) as (_ & _ & E1 & E2 & _). unfold check_prior.
    by rewrite E1, E2, !bool_decide_true. }
  exists (mkResult (remove_dups fs) (solution_hash r) (visited t) c1). cbn. split_and!; [|..|done].
  - unfold incremental_solve. rewrite Hgd. cbn [obind]. rewrite bool_decide_true by done. cbn [obind].
    rewrite Ho'. cbn [obind]. rewrite Hb. cbn [obind]. rewrite Hup. cbn [obind]. rewrite Hs. cbn [obind].
    fold C. rewrite Ht. cbn [obind fst snd]. rewrite Hf. cbn [obind]. rewrite Hprior. cbn [obind].
    change (List.filter _ pf) with (List.filter (fun F => negb (sink_in sg C F)) pf). fold fs. by rewrite Hhash.
  - rewrite remove_dups_id; [done|]. rewrite Hm. apply nodup_keys, (an_keys _ _ _ _ _ _ _ _ _ _ _ HF').
Qed.

(** Pinned parameters cannot drift.  An incremental run completes only
    when its parameters are non-empty, its engine is a core engine, the cache
    was keyed under the same parameters and every prior finding carries them;
    then every finding of the result carries them too. *)
Theorem incremental_version_guard g spec aff prior sv env pf c r :
  incremental_solve g spec aff prior sv env pf c = Ok r ->
  sv <> [] /\ env <> [] /\ engine_ok spec = true /\ header prior = (sv, env) /\
  (forall F, F ∈ pf -> S_version F = sv /\ env_digest F = env) /\
  (forall F, F ∈ findings r -> S_version F = sv /\ env_digest F = env).
Proof.
  intros (Hgd & Hh & Hpf & order & sg & up & s & t & fs & _ & _ & Han & _ & Hfr)%incremental_inv.
  unfold guard_run, _require in Hgd. destruct sv as [|a sv]; [done|]. destruct env as [|b env]; [done|].
  cbn in Hgd. destruct (engine_ok spec) eqn:He; [|done]. split_and!; try done.
  intros F. rewrite Hfr, elem_of_remove_dups, elem_of_app. intros [HF|HF].
  - by destruct (finding_provenance Han F HF) as (_ & _ & ? & ? & _).
  - apply list_elem_of_In, filter_In in HF as [HF _]. apply Hpf. by apply list_elem_of_In.
Qed.

(** ** Summaries are written but not read *)

Section cache_irrelevant.
Context (sg : ExplodedSupergraph) (spec : Spec) (R : option (gset Z)) (c1 c2 : SummaryCache) (idx : gmap Z Z).
Hypothesis H1 : no_splice R c1.
Hypothesis H2 : no_splice R c2.

Lemma expand_call_cache it t p : expand_call sg R c1 it t p = expand_call sg R c2 it t p.
Proof.
  unfold expand_call. destruct (proc_in_scope R (Some p)) eqn:E; [|done]. cbn [negb].
  by rewrite H1, H2.
Qed.

Lemma foldO_ext {A S} (f h : S -> A -> outcome S) l :
  (forall s x, f s x = h s x) -> forall s, foldO f s l = foldO h s l.
Proof. intros E. induction l as [|x l IH]; intros s; cbn; [done|]. rewrite E. destruct (h s x); cbn; auto. Qed.

Lemma tab_loop_cache fuel1 : forall fuel2 t t1 t2,
  tab_loop fuel1 sg spec R c1 idx t = Ok t1 -> tab_loop fuel2 sg spec R c2 idx t = Ok t2 -> t1 = t2.
Proof.
  induction fuel1 as [|fuel1 IH]; intros [|fuel2] t t1 t2; cbn [tab_loop];
    destruct (py_sorted (item_leb idx) (worklist t)) as [|it rest]; try congruence.
  assert (E : forall t, expand sg spec R c1 t it = expand sg spec R c2 t it).
  { intros t'. unfold expand. destruct (getitem _ _); [|done]. cbn [obind]. destruct (_sanitized_at _ _); [done|].
    destruct (foldO _ t' _); [|done]. cbn [obind]. apply foldO_ext. intros. apply expand_call_cache. }
  rewrite E. destruct (expand sg spec R c2 _ it); cbn [obind]; [apply IH|done].
Qed.

Lemma tab_run_cache g seeds t1 t2 :
  tab_run g sg spec R c1 idx seeds = Ok t1 -> tab_run g sg spec R c2 idx seeds = Ok t2 -> t1 = t2.
Proof.
  unfold tab_run. destruct (foldO _ _ seeds); [|done]. cbn [obind]. apply tab_loop_cache.
Qed.
End cache_irrelevant.

(** Prior summaries never influence a result.  Two incremental runs that
    differ only in the prior summary cache return the same findings, solution
    hash and visited procedures: the splice of callee summaries in the
    tabulation loop is never reached with a non-empty summary, since the
    summaries of the procedures in scope have just been invalidated. *)
Theorem prior_summaries_unused g spec aff p1 p2 sv env pf c r1 r2 :
  incremental_solve g spec aff p1 sv env pf c = Ok r1 ->
  incremental_solve g spec aff p2 sv env pf c = Ok r2 ->
  findings r2 = findings r1 /\ solution_hash r2 = solution_hash r1 /\ visited_procs r2 = visited_procs r1.
Proof.
  unfold incremental_solve. intros E1 E2. destruct (guard_run spec sv env); [|done]. cbn [obind] in *.
  case_bool_decide; [|done]. case_bool_decide; [|done]. cbn [obind] in *.
  apply obind_Ok in E1 as (order & Ho & E1). rewrite Ho in E2. cbn [obind] in E2.
  apply obind_Ok in E1 as (sg & Hb & E1). rewrite Hb in E2. cbn [obind] in E2.
  apply obind_Ok in E1 as (up & Hup & E1). rewrite Hup in E2. cbn [obind] in E2. set (C := aff ∪ up) in *.
  destruct (analysis_exists g spec (Some C) (invalidate p1 C) sv env order c Ho)
    as (sg1 & s & t1 & k1 & f1 & Hb1 & Hs & Ht1 & _ & _ & _ & A1).
  assert (sg1 = sg) as -> by congruence.
  destruct (analysis_exists g spec (Some C) (invalidate p2 C) sv env order c Ho)
    as (sg2 & s2 & t2 & k2 & f2 & Hb2 & Hs2 & Ht2 & _ & _ & _ & A2).
  assert (sg2 = sg) as -> by congruence. assert (s2 = s) as -> by congruence.
  rewrite Hs in E1, E2. cbn [obind] in E1, E2. rewrite Ht1 in E1. rewrite Ht2 in E2. cbn [obind fst snd] in E1, E2.
  assert (t2 = t1) as ->.
  { eapply tab_run_cache; [apply invalidate_no_splice|apply invalidate_no_splice
      |apply (an_run _ _ _ _ _ _ _ _ _ _ _ A2)|apply (an_run _ _ _ _ _ _ _ _ _ _ _ A1)]. }
  apply obind_Ok in E1 as (fs & Hf & E1). rewrite Hf in E2. cbn [obind] in E2.
  destruct (mapO (check_prior sv env) pf); [|done]. cbn [obind] in E1, E2.
  apply obind_Ok in E1 as (h & Hh & [= <-]). rewrite Hh in E2. cbn [obind] in E2. by injection E2 as <-.
Qed.

(** [transitive_callers] is reverse reachability over the call graph.  On
    the supergraph of a valid CPG it returns, without running out of fuel,
    exactly the procedures from which a chain of CALL edges into methods leads
    to a seed procedure. *)
Theorem transitive_callers_exact g order sg seed :
  valid_cpg g -> build_supergraph g order = Ok sg ->
  exists up, transitive_callers sg seed = Ok up /\
    forall q, q ∈ up <-> exists p, p ∈ seed /\
      tc (fun a b => a ∈ method_ids g /\ exists n, has_edge g CALL_EDGE n a /\ proc_of_node sg !! n = Some b) p q.
Proof.
  intros Hg Hb. destruct (build_supergraph_skeleton g order Hg) as (sg' & Hb' & Hsg).
  assert (sg' = sg) as -> by congruence. destruct (transitive_callers_spec sg seed) as (up & Hup & H).
  exists up. split; [done|]. intros q. rewrite H. unfold calls_transitively.
  assert (E : forall p, tc (fun a b => b ∈ default ∅ (callers sg !! a)) p q <->
    tc (fun a b => a ∈ method_ids g /\ exists n, has_edge g CALL_EDGE n a /\ proc_of_node sg !! n = Some b) p q).
  { intros p. apply tc_iff. intros a b. rewrite (sk_callers _ _ Hsg). naive_solver. }
  by setoid_rewrite E.
Qed.

(** ** Witnesses *)

Definition ifds_node (i : Z) (k op fqn encl : string) : CPGNode :=
  mkNode i (str k) (str op) (str fqn) (str encl) [].

(** [main] reads tainted input and passes it to [f], which executes it;
    [other] is unrelated. *)
Definition ifds_graph : CPG := mkCPG
  [ifds_node 0 "METHOD" "" "main" ""; ifds_node 1 "CALL" "read" "" "main";
   ifds_node 2 "CALL" "f" "" "main"; ifds_node 3 "METHOD" "" "f" "";
   ifds_node 4 "CALL" "exec" "" "f"; ifds_node 5 "METHOD" "" "other" ""]
  [mkEdge 0 1 (str "CFG"); mkEdge 1 2 (str "CFG"); mkEdge 2 3 (str "CALL"); mkEdge 3 4 (str "CFG")].

Definition ifds_spec : Spec := mkSpec (str "SQLI") (str "injection") [str "java"] (str "ifds")
  [Source (str "read"); Sink (str "exec"); Sanitize (str "clean")].

Definition ifds_env : pybytes := [1; 2; 3].
Definition ifds_run : outcome SolverResult := solve ifds_graph ifds_spec (str "1") ifds_env still.
Definition ifds_order : outcome CanonicalOrderResult := canonical_order ifds_graph DEFAULT_B DEFAULT_T still.
Definition ifds_cache : SummaryCache := mkCache (str "1", ifds_env) ∅ ∅.

(** The keys and witnesses of the findings of a run. *)
Definition shown (o : outcome SolverResult) : option (list (Z * list Z)) :=
  match o with Ok r => Some (map (fun F => (sink F, witness F)) (findings r)) | Raise _ => None end.

Definition prior_of (o : outcome SolverResult) : list Finding :=
  match o with Ok r => findings r | Raise _ => [] end.

Definition ifds_incremental (aff : gset Z) : outcome SolverResult :=
  incremental_solve ifds_graph ifds_spec aff ifds_cache (str "1") ifds_env (prior_of ifds_run) still.

Lemma ifds_run_shown : shown ifds_run = Some [(4, [1; 2; 3; 4])].
Proof. vm_compute. reflexivity. Qed.

Lemma ifds_incremental_shown : shown (ifds_incremental {[3]}) = Some [(4, [1; 2; 3; 4])].
Proof. vm_compute. reflexivity. Qed.

(** The CFG edges checked one by one. *)
Definition cfg_localb (g : CPG) (sg : ExplodedSupergraph) : bool :=
  forallb (fun e => negb (bool_decide (edge_kind e = CFG_EDGE)) ||
    bool_decide (proc_of_node sg !! dst e = proc_of_node sg !! src e)) (edges g).

Lemma cfg_localb_spec g sg : cfg_localb g sg = true -> cfg_intraprocedural g sg.
Proof.
  unfold cfg_localb. rewrite forallb_forall. intros H n m (e & He & Hk & <- & <-).
  specialize (H e (proj1 (list_elem_of_In _ _) He)). rewrite bool_decide_true in H by done.
  by apply bool_decide_eq_true in H.
Qed.

Definition ifds_checked : bool :=
  match ifds_order with
  | Ok o => match build_supergraph ifds_graph (canonical_order_of o) with
            | Ok sg => cfg_localb ifds_graph sg | Raise _ => false end
  | Raise _ => false
  end.

Lemma ifds_checked_true : ifds_checked = true.
Proof. vm_compute. reflexivity. Qed.

(** The order and the skeleton of the sample, by name. *)
Lemma ifds_skeleton : exists o sg, ifds_order = Ok o /\
  build_supergraph ifds_graph (canonical_order_of o) = Ok sg /\ cfg_intraprocedural ifds_graph sg.
Proof.
  pose proof ifds_checked_true as H. unfold ifds_checked in H.
  destruct ifds_order as [o|] eqn:E; [|discriminate].
  destruct (build_supergraph ifds_graph (canonical_order_of o)) as [sg|] eqn:E2; [|discriminate].
  exists o, sg. split; [reflexivity|]. split; [exact E2|]. apply cfg_localb_spec. exact H.
Qed.

Lemma ifds_result : exists r, ifds_run = Ok r /\ map (fun F => (sink F, witness F)) (findings r) = [(4, [1; 2; 3; 4])].
Proof.
  pose proof ifds_run_shown as H. destruct ifds_run as [r|]; [|discriminate].
  cbn [shown] in H. injection H as H. exists r. split; [reflexivity|exact H].
Qed.

Lemma ifds_valid : valid_cpg ifds_graph /\ sized ifds_graph.
Proof.
  destruct ifds_skeleton as (o & sg & Ho & _). destruct (order_valid _ _ _ _ _ Ho) as (Hg & Hs & _).
  split; assumption.
Qed.

Lemma supergraph_refines_graph_witness :
  exists sg, build_supergraph ifds_graph [5; 4; 3; 2; 1; 0] = Ok sg /\ skeleton ifds_graph sg.
Proof. exact (supergraph_refines_graph ifds_graph [5; 4; 3; 2; 1; 0] (proj1 ifds_valid)). Defined.

Lemma transitive_callers_exact_witness :
  exists sg up, transitive_callers sg {[3]} = Ok up /\
    forall q, q ∈ up <-> exists p, p ∈ ({[3]} : gset Z) /\
      tc (fun a b => a ∈ method_ids ifds_graph /\
            exists n, has_edge ifds_graph CALL_EDGE n a /\ proc_of_node sg !! n = Some b) p q.
Proof.
  destruct ifds_skeleton as (o & sg & _ & Hb & _). exists sg.
  exact (transitive_callers_exact ifds_graph (canonical_order_of o) sg {[3]} (proj1 ifds_valid) Hb).
Defined.

Lemma solve_sound_witness : exists F, sink F = 4 /\ witness F = [1; 2; 3; 4] /\
  origin F = str "deterministic-core" /\ S_version F = str "1" /\
  exists a, path_from (taint_step ifds_graph ifds_spec) (witness F) a 4.
Proof.
  destruct ifds_result as (r & Hr & Hf). destruct (findings r) as [|F l] eqn:E; [discriminate|].
  injection Hf as H1 H2 _. exists F.
  assert (HF : F ∈ findings r) by (rewrite E; left).
  pose proof (solve_sound ifds_graph ifds_spec (str "1") ifds_env still r F Hr HF) as ((a & _ & _ & _ & Hp & _) & Ho & Hv & _).
  rewrite H1 in Hp. split; [exact H1|]. split; [exact H2|]. split; [exact Ho|]. split; [exact Hv|].
  exists a. exact Hp.
Defined.

Lemma solve_complete_witness : exists r, ifds_run = Ok r /\
  exists F, F ∈ findings r /\ sink F = 4 /\ head (witness F) = Some 1.
Proof.
  destruct ifds_result as (r & Hr & _). exists r. split; [exact Hr|].
  assert (He : forall e, e ∈ edges ifds_graph -> has_edge ifds_graph (edge_kind e) (src e) (dst e))
    by (intros e H; exists e; auto).
  refine (solve_complete ifds_graph ifds_spec (str "1") ifds_env still r 1 4 Hr _ _ _ _).
  - eexists. split; [vm_compute; reflexivity|vm_compute; reflexivity].
  - exists (ifds_node 1 "CALL" "read" "" "main"). split; [right; left|]. split; [reflexivity|]. right.
    exists (ifds_node 0 "METHOD" "" "main" ""). split; [left|]. split; [reflexivity|].
    split; [reflexivity|discriminate].
  - eexists. split; [vm_compute; reflexivity|vm_compute; reflexivity].
  - apply rtc_l with 2; [|apply rtc_l with 3; [|apply rtc_once]];
      (eexists; split; [vm_compute; reflexivity|]; split; [vm_compute; reflexivity|]).
    + left. apply (He (mkEdge 1 2 (str "CFG"))). right. left.
    + right. split; [apply (He (mkEdge 2 3 (str "CALL"))); right; right; left|].
      split; [|reflexivity]. vm_compute. right. left.
    + left. apply (He (mkEdge 3 4 (str "CFG"))). right. right. right. left.
Defined.

Lemma solve_total_witness : exists r, solve ifds_graph ifds_spec (str "1") ifds_env still = Ok r.
Proof.
  refine (solve_total ifds_graph ifds_spec (str "1") ifds_env still _ _ _
    (proj1 ifds_valid) (proj2 ifds_valid) _ _).
  - discriminate.
  - discriminate.
  - vm_compute. reflexivity.
  - vm_compute. discriminate.
  - intros i. reflexivity.
Defined.

Definition ifds_run_ticking : outcome SolverResult :=
  solve ifds_graph ifds_spec (str "1") ifds_env (fun i => (Z.of_nat i # 100000000)%Q).

Lemma ifds_ticking_shown : shown ifds_run_ticking = Some [(4, [1; 2; 3; 4])].
Proof. vm_compute. reflexivity. Qed.

Lemma solve_clock_independent_witness : exists r r',
  ifds_run = Ok r /\ ifds_run_ticking = Ok r' /\ r' = r.
Proof.
  destruct ifds_result as (r & Hr & _). pose proof ifds_ticking_shown as H.
  destruct ifds_run_ticking as [r'|] eqn:E; [|discriminate].
  exists r, r'. split; [exact Hr|]. split; [reflexivity|].
  exact (solve_clock_independent ifds_graph ifds_spec (str "1") ifds_env still _ r r' Hr E).
Defined.

Lemma ifds_incremental_result : exists r, ifds_incremental {[3]} = Ok r.
Proof.
  pose proof ifds_incremental_shown as H. destruct (ifds_incremental {[3]}) as [r|]; [|discriminate].
  exists r. reflexivity.
Qed.

Lemma incremental_visited_bounded_witness : exists r sg, ifds_incremental {[3]} = Ok r /\
  forall q, q ∈ visited_procs r -> q ∈ ({[3]} : gset Z) \/ exists p, p ∈ ({[3]} : gset Z) /\ calls_transitively sg q p.
Proof.
  destruct ifds_skeleton as (o & sg & Ho & Hb & Hl). destruct ifds_incremental_result as (r & Hr).
  unfold ifds_incremental in *.
  exists r, sg. split; [exact Hr|].
  exact (incremental_visited_bounded ifds_graph ifds_spec {[3]} ifds_cache (str "1") ifds_env
    (prior_of ifds_run) still r o sg Ho Hb Hl Hr).
Defined.

Lemma incremental_agrees_with_full_witness : exists r r',
  ifds_run = Ok r /\ ifds_incremental {[3]} = Ok r' /\
  findings r' ≡ₚ findings r /\ solution_hash r' = solution_hash r.
Proof.
  destruct ifds_skeleton as (o & sg & Ho & Hb & Hl). destruct ifds_result as (r & Hr & _).
  assert (Hp : prior_of ifds_run ≡ₚ findings r) by (rewrite Hr; reflexivity).
  destruct (incremental_agrees_with_full ifds_graph ifds_spec (str "1") ifds_env still still r o sg {[3]}
    ifds_cache (prior_of ifds_run) Hr Ho Hb Hl eq_refl Hp)
    as (r' & Hi & Hf & Hh).
  exists r, r'. unfold ifds_incremental.
  split; [exact Hr|]. split; [exact Hi|]. split; [exact Hf|exact Hh].
Defined.

Lemma incremental_version_guard_witness : exists r, ifds_incremental {[3]} = Ok r /\
  forall F, F ∈ findings r -> S_version F = str "1" /\ env_digest F = ifds_env.
Proof.
  destruct ifds_incremental_result as (r & Hr).
  unfold ifds_incremental in *. exists r. split; [exact Hr|].
  pose proof (incremental_version_guard ifds_graph ifds_spec {[3]} ifds_cache (str "1") ifds_env
    (prior_of ifds_run) still r Hr) as (_ & _ & _ & _ & _ & H). exact H.
Defined.

(** A cache that claims a fact reaches the exit of [f]. *)
Definition ifds_cache' : SummaryCache :=
  mkCache (str "1", ifds_env) {[3 := {[0 := {[7]}]}]} {[3]}.

Definition ifds_incremental' : outcome SolverResult :=
  incremental_solve ifds_graph ifds_spec {[3]} ifds_cache' (str "1") ifds_env (prior_of ifds_run) still.

Lemma ifds_incremental'_shown : shown ifds_incremental' = Some [(4, [1; 2; 3; 4])].
Proof. vm_compute. reflexivity. Qed.

Lemma prior_summaries_unused_witness : exists r r',
  ifds_incremental {[3]} = Ok r /\ ifds_incremental' = Ok r' /\ findings r' = findings r.
Proof.
  destruct ifds_incremental_result as (r & Hr).
  unfold ifds_incremental in *. pose proof ifds_incremental'_shown as H.
  destruct ifds_incremental' as [r'|] eqn:E; [|discriminate]. exists r, r'. unfold ifds_incremental' in E.
  split; [exact Hr|]. split; [reflexivity|].
  pose proof (prior_summaries_unused ifds_graph ifds_spec {[3]} ifds_cache ifds_cache' (str "1") ifds_env
    (prior_of ifds_run) still r r' Hr E) as (Hf & _). exact Hf.
Defined.
