(* ===== verification/CpgDelta.v ===== *)
(** * Incremental CPG maintenance ([analysis/cpg_delta.py])

    The AFFECTED set, the routing by the closed-world verdict, the
    id-preserving rebuild and its delta.  The reparser is injected in the
    source ([DeclReparser]); here it is the parameter [reparse], a function of
    the declaration and the lowest id it may mint. *)
From stdpp Require Import base tactics list gmap sets fin_sets relations strings.
From Stdlib Require Import ZArith QArith Lia.
From S2P Require Import Prelude PyData PyDict Cpg.

Open Scope Z_scope.
Open Scope py_scope.

(** ** Floats

    [a / b] on integers is the exact quotient rounded to 53 bits, ties to
    even. *)
(** The exponent [e] with [2^52 <= (a/b) * 2^e < 2^54] for positive [a], [b]. *)
Definition scale_exp (a b : Z) : Z := 53 - (Z.log2 a - Z.log2 b).

Definition scaled (a b e : Z) : Z :=
  if 0 <=? e then round_half_even (a * 2 ^ e) b else round_half_even a (b * 2 ^ (- e)).

Definition unscale (m e : Z) : Q :=
  if 0 <=? e then (m # Z.to_pos (2 ^ e))%Q else inject_Z (m * 2 ^ (- e)).

Definition float_div_pos (a b : Z) : Q :=
  if a =? 0 then 0%Q
  else
    let e := scale_exp a b in
    let e := if 2 ^ 53 <=? scaled a b e then e - 1 else e in
    unscale (scaled a b e) e.

(** [a / b] for [b > 0] *)
Definition true_div (a b : Z) : Q :=
  if a <? 0 then (- float_div_pos (- a) b)%Q else float_div_pos a b.

Definition Qgt_bool (x y : Q) : bool := negb (Qle_bool x y).

(** The floats [0.25] and [0.4]. *)
Definition DEFAULT_THETA_CONE : Q := (1 # 4)%Q.
Definition DEFAULT_THETA_FILES : Q := (3602879701896397 # 9007199254740992)%Q.

(** ** Data *)

Inductive Route := closed_world | degraded | full_reparse.

#[export] Instance Route_eq_dec : EqDecision Route.
Proof. solve_decision. Defined.

(** [IncrementalCpg.node_ids] *)
Definition node_ids (g : CPG) (decl : pystr) : gset Z :=
  list_to_set (map node_id (List.filter (fun n => bool_decide (enclosing_decl_fqn n = decl)) (nodes g))).

(** [_append_node], [_append_edge] *)
Definition _append_node (g : CPG) (n : CPGNode) : CPG := mkCPG (nodes g ++ [n]) (edges g).
Definition _append_edge (g : CPG) (e : CPGEdge) : CPG := mkCPG (nodes g) (edges g ++ [e]).

Record DeclSubgraph := mkSub {
  decl_fqn : pystr;
  sub_nodes : list CPGNode;
  sub_edges : list CPGEdge
}.

Record GraphView := mkView {
  reverse_symbol_index : gmap pystr (gset pystr);
  call_graph : gmap pystr (gset pystr);
  class_hierarchy : gmap pystr (gset pystr);
  decl_to_type : gmap pystr pystr
}.

Definition DeclReparser := pystr -> Z -> DeclSubgraph.

Record IncrementalCpgRequest := mkRequest {
  parent_cpg : CPG;
  parent_env_digest : pystr;
  worker_env_digest : pystr;
  cw_verdict : Route;
  changed_decls : gset pystr;
  changed_types : gset pystr;
  graph : GraphView;
  reparser : DeclReparser;
  total_files : Z;
  changed_files : Z;
  theta_cone : Q;
  theta_files : Q
}.

Record GraphDelta := mkDelta {
  added_nodes : list Z;
  removed_nodes : list Z;
  added_edges : list CPGEdge;
  removed_edges : list CPGEdge;
  affected_set : gset pystr
}.

Record IncrementalCpgResult := mkDeltaResult {
  new_cpg : CPG;
  delta_graph : GraphDelta;
  affected : gset pystr;
  precondition_status : Route;
  changed_files_ratio : Q;
  cone_size_ratio : option Q
}.

(** ** The AFFECTED set *)

(** [_transitive_closure] *)
Definition _transitive_closure (seeds : gset pystr) (g : gmap pystr (gset pystr)) : outcome (gset pystr) :=
  closure g seeds seeds.

(** [_direct_callers] *)
Definition _direct_callers (changed : gset pystr) (cg : gmap pystr (gset pystr)) : gset pystr :=
  fold_left (fun callers kv => if decide (kv.2 ∩ changed ≡ ∅) then callers else {[kv.1]} ∪ callers)
    (map_to_list cg) ∅.

(** [compute_affected] *)
Definition compute_affected (decls types : gset pystr) (v : GraphView) : outcome (gset pystr) :=
  rsc ⇐ _transitive_closure decls (reverse_symbol_index v);
  let direct := _direct_callers decls (call_graph v) in
  cone ⇐ _transitive_closure types (class_hierarchy v);
  let cha : gset pystr := list_to_set (map fst
    (List.filter (fun kv => bool_decide (kv.2 ∈ cone)) (map_to_list (decl_to_type v)))) in
  Ok (decls ∪ rsc ∪ direct ∪ cha).

(** ** Routing *)

(** [sum(1 for n in parent.nodes if n.enclosing_decl_fqn in affected)] *)
Definition cone_nodes (g : CPG) (aff : gset pystr) : Z :=
  len (List.filter (fun n => bool_decide (enclosing_decl_fqn n ∈ aff)) (nodes g)).

(** [_route_for] *)
Definition _route_for (req : IncrementalCpgRequest) (ratio : Q) (aff : gset pystr) : Route * option Q :=
  match cw_verdict req with
  | closed_world => (closed_world, None)
  | full_reparse => (full_reparse, None)
  | degraded =>
      if Qgt_bool ratio (theta_files req) then (full_reparse, None)
      else
        let r := true_div (cone_nodes (parent_cpg req) aff) (Z.max (len (nodes (parent_cpg req))) 1) in
        if Qgt_bool r (theta_cone req) then (full_reparse, Some r) else (degraded, Some r)
  end.

(** ** The id-preserving rebuild *)

Record Build := mkBuild {
  b_cpg : CPG;
  b_added_nodes : list Z;
  b_added_edges : list CPGEdge;
  b_next : Z
}.

(** One node of a reparsed declaration. *)
Definition add_reparsed (preserved : gset Z) (b : Build) (n : CPGNode) : outcome Build :=
  if decide (node_id n ∈ preserved) then Raise NodeIdCollision
  else Ok (mkBuild (_append_node (b_cpg b) n) (b_added_nodes b ++ [node_id n]) (b_added_edges b) (b_next b)).

Definition add_reparsed_edge (b : Build) (e : CPGEdge) : Build :=
  mkBuild (_append_edge (b_cpg b) e) (b_added_nodes b) (b_added_edges b ++ [e]) (b_next b).

(** [max(...)] of a non-empty list *)
Definition max_id (l : list Z) : Z := match l with [] => 0 | x :: l' => fold_left Z.max l' x end.

(** One affected declaration. *)
Definition add_decl (rp : DeclReparser) (preserved : gset Z) (b : Build) (decl : pystr) : outcome Build :=
  let sub := rp decl (b_next b) in
  b ⇐ foldO (add_reparsed preserved) b (sub_nodes sub);
  let b := fold_left add_reparsed_edge (sub_edges sub) b in
  Ok (match sub_nodes sub with
      | [] => b
      | ns => mkBuild (b_cpg b) (b_added_nodes b) (b_added_edges b) (max_id (map node_id ns) + 1)
      end).

(** The nodes carried over and their ids. *)
Definition kept_nodes (parent : CPG) (aff : gset pystr) : list CPGNode :=
  List.filter (fun n => negb (bool_decide (enclosing_decl_fqn n ∈ aff))) (nodes parent).

Definition preserved_ids (parent : CPG) (aff : gset pystr) : gset Z :=
  list_to_set (map node_id (kept_nodes parent aff)).

Definition kept_edges (parent : CPG) (aff : gset pystr) : list CPGEdge :=
  List.filter (fun e => bool_decide (src e ∈ preserved_ids parent aff) &&
                        bool_decide (dst e ∈ preserved_ids parent aff)) (edges parent).

Definition fresh_id_base (parent : CPG) (aff : gset pystr) : Z :=
  match elements (preserved_ids parent aff) with [] => 0 | l => max_id l + 1 end.

(** [_build_preserving_new_cpg] *)
Definition _build_preserving_new_cpg (parent : CPG) (aff : gset pystr) (rp : DeclReparser) :
    outcome (CPG * GraphDelta) :=
  let start := mkBuild (mkCPG (kept_nodes parent aff) (kept_edges parent aff)) [] []
                       (fresh_id_base parent aff) in
  b ⇐ foldO (add_decl rp (preserved_ids parent aff)) start (py_sorted str_leb (elements aff));
  let g := b_cpg b in
  let removed_n := List.filter (fun i => negb (bool_decide (i ∈ (list_to_set (ids g) : gset Z)))) (ids parent) in
  let removed_e := List.filter (fun e => negb (bool_decide (e ∈ edges g))) (edges parent) in
  Ok (g, mkDelta (b_added_nodes b) removed_n (b_added_edges b) removed_e aff).

(** [compute_incremental_cpg] *)
Definition compute_incremental_cpg (req : IncrementalCpgRequest) : outcome IncrementalCpgResult :=
  if negb (bool_decide (parent_env_digest req = worker_env_digest req)) then Raise EnvDigestMismatch
  else
    aff ⇐ compute_affected (changed_decls req) (changed_types req) (graph req);
    let ratio := true_div (changed_files req) (Z.max (total_files req) 1) in
    let route := _route_for req ratio aff in
    let aff := if decide (route.1 = full_reparse)
               then list_to_set (map enclosing_decl_fqn (nodes (parent_cpg req))) else aff in
    built ⇐ _build_preserving_new_cpg (parent_cpg req) aff (reparser req);
    Ok (mkDeltaResult built.1 built.2 aff route.1 ratio route.2).

(** ** The AFFECTED set is a union of closures *)

Definition step_in (g : gmap pystr (gset pystr)) (x y : pystr) : Prop := exists S, g !! x = Some S /\ y ∈ S.

Lemma transitive_closure_spec seeds g :
  exists R, _transitive_closure seeds g = Ok R /\ forall y, y ∈ R <-> exists x, x ∈ seeds /\ rtc (step_in g) x y.
Proof.
  destruct (closure_spec g seeds seeds) as (R & HR & H).
  { intros x Hx. left. by apply elem_of_elements. }
  exists R. split; [done|]. intros y. rewrite H.
  assert (E : forall a b, edge_in g a b <-> step_in g a b).
  { intros a b. unfold edge_in, successors, step_in. rewrite elem_of_elements.
    destruct (g !! a); cbn; [naive_solver|set_solver]. }
  split.
  - intros [Hy|(x & Hx & Hxy)]; [exists y; by split|]. exists x. split; [done|].
    apply tc_rtc. eapply (tc_congruence id); [|exact Hxy]. intros a b. apply E.
  - intros (x & Hx & Hxy). apply rtc_tc in Hxy as [->|Hxy]; [by left|]. right. exists x. split; [done|].
    eapply (tc_congruence id); [|exact Hxy]. intros a b. apply E.
Qed.

Lemma elem_of_direct_callers changed cg x :
  x ∈ _direct_callers changed cg <-> exists y, step_in cg x y /\ y ∈ changed.
Proof.
  unfold _direct_callers, step_in.
  assert (Hgen : forall l (acc : gset pystr), x ∈ fold_left (fun callers (kv : pystr * gset pystr) =>
      if decide (kv.2 ∩ changed ≡ ∅) then callers else {[kv.1]} ∪ callers) l acc <->
      x ∈ acc \/ exists S, (x, S) ∈ l /\ ~ S ∩ changed ≡ ∅).
  { induction l as [|[k S] l IH]; intros acc; cbn.
    { split; [by left|]. intros [?|(S & ?%elem_of_nil & _)]; done. }
    rewrite IH. setoid_rewrite elem_of_cons. destruct (decide (S ∩ changed ≡ ∅)) as [E|E]; naive_solver set_solver. }
  rewrite Hgen. setoid_rewrite elem_of_map_to_list. split.
  - intros [?|(S & HS & Hn)]; [set_solver|]. apply set_choose in Hn as [y Hy].
    exists y. set_solver.
  - intros (y & (S & HS & Hy) & Hc). right. exists S. split; [done|]. set_solver.
Qed.

Lemma compute_affected_spec decls types v :
  exists A, compute_affected decls types v = Ok A /\ forall x, x ∈ A <->
    (exists d, d ∈ decls /\ rtc (step_in (reverse_symbol_index v)) d x) \/
    (exists y, step_in (call_graph v) x y /\ y ∈ decls) \/
    (exists ty t0, decl_to_type v !! x = Some ty /\ t0 ∈ types /\ rtc (step_in (class_hierarchy v)) t0 ty).
Proof.
  unfold compute_affected. destruct (transitive_closure_spec decls (reverse_symbol_index v)) as (R & -> & HR).
  destruct (transitive_closure_spec types (class_hierarchy v)) as (K & -> & HK). cbn.
  eexists. split; [done|]. intros x. rewrite !elem_of_union, HR, elem_of_direct_callers, elem_of_list_to_set.
  assert (Hc : x ∈ map fst (List.filter (fun kv => bool_decide (kv.2 ∈ K)) (map_to_list (decl_to_type v))) <->
    exists ty t0, decl_to_type v !! x = Some ty /\ t0 ∈ types /\ rtc (step_in (class_hierarchy v)) t0 ty).
  { rewrite list_elem_of_fmap. split.
    - intros ([k ty] & -> & Hin). apply list_elem_of_In, filter_In in Hin as [Hin Hty].
      apply list_elem_of_In, elem_of_map_to_list in Hin. apply bool_decide_eq_true, HK in Hty as (t0 & ? & ?).
      by exists ty, t0.
    - intros (ty & t0 & Hx & Ht & Hr). exists (x, ty). split; [done|]. apply list_elem_of_In, filter_In.
      split; [by apply list_elem_of_In, elem_of_map_to_list|]. apply bool_decide_eq_true, HK. by exists t0. }
  rewrite Hc. split; [|naive_solver]. intros [[[Hx|?]|?]|?]; [|naive_solver..]. left. by exists x.
Qed.

(** AFFECTED is what Algorithm 1 specifies.  [compute_affected] terminates
    with the changed declarations closed under the reverse-symbol index, the
    direct callers of a changed declaration, and the declarations whose type is
    a transitive subtype of a changed type. *)
Theorem compute_affected_exact decls types v :
  exists A, compute_affected decls types v = Ok A /\ forall x, x ∈ A <->
    (exists d, d ∈ decls /\ rtc (step_in (reverse_symbol_index v)) d x) \/
    (exists y, step_in (call_graph v) x y /\ y ∈ decls) \/
    (exists ty t0, decl_to_type v !! x = Some ty /\ t0 ∈ types /\ rtc (step_in (class_hierarchy v)) t0 ty).
Proof. apply compute_affected_spec. Qed.

(** ** What the rebuild produces *)

Section rebuild.
Context (rp : DeclReparser) (preserved : gset Z).

Definition next_base (base : Z) (sub : DeclSubgraph) : Z :=
  match sub_nodes sub with [] => base | ns => max_id (map node_id ns) + 1 end.

(** The subgraphs the reparser returns for the declarations, in turn. *)
Fixpoint reparsed (base : Z) (decls : list pystr) : list DeclSubgraph :=
  match decls with
  | [] => []
  | d :: ds => rp d base :: reparsed (next_base base (rp d base)) ds
  end.

Definition collides (subs : list DeclSubgraph) : Prop :=
  exists s n, s ∈ subs /\ n ∈ sub_nodes s /\ node_id n ∈ preserved.

Lemma add_nodes_spec ns : forall b,
  (Forall (fun n => node_id n ∉ preserved) ns /\
   foldO (add_reparsed preserved) b ns =
     Ok (mkBuild (mkCPG (nodes (b_cpg b) ++ ns) (edges (b_cpg b))) (b_added_nodes b ++ map node_id ns)
                 (b_added_edges b) (b_next b))) \/
  ((exists n, n ∈ ns /\ node_id n ∈ preserved) /\ foldO (add_reparsed preserved) b ns = Raise NodeIdCollision).
Proof.
  induction ns as [|n ns IH]; intros b; cbn.
  { left. split; [done|]. rewrite !app_nil_r. by destruct b as [[] ? ? ?]. }
  unfold add_reparsed at 1 3. destruct (decide (node_id n ∈ preserved)) as [Hn|Hn]; cbn.
  { right. split; [|done]. exists n. split; [left|done]. }
  match goal with |- context [foldO _ ?b1 ns] => destruct (IH b1) as [[H1 ->]|[(m & Hm & Hp) ->]] end.
  - left. split; [by constructor|]. cbn. by rewrite <-!app_assoc.
  - right. split; [|done]. exists m. split; [by right|done].
Qed.

Lemma add_edges_spec es : forall b,
  fold_left add_reparsed_edge es b =
  mkBuild (mkCPG (nodes (b_cpg b)) (edges (b_cpg b) ++ es)) (b_added_nodes b) (b_added_edges b ++ es) (b_next b).
Proof.
  induction es as [|e es IH]; intros b; cbn; [rewrite !app_nil_r; by destruct b as [[] ? ? ?]|].
  rewrite IH. cbn. by rewrite <-!app_assoc.
Qed.

Lemma add_decls_spec ds : forall b,
  let subs := reparsed (b_next b) ds in
  (~ collides subs /\ exists nb, foldO (add_decl rp preserved) b ds =
     Ok (mkBuild (mkCPG (nodes (b_cpg b) ++ concat (map sub_nodes subs)) (edges (b_cpg b) ++ concat (map sub_edges subs)))
           (b_added_nodes b ++ map node_id (concat (map sub_nodes subs)))
           (b_added_edges b ++ concat (map sub_edges subs)) nb)) \/
  (collides subs /\ foldO (add_decl rp preserved) b ds = Raise NodeIdCollision).
Proof.
  induction ds as [|d ds IH]; intros b; cbn.
  { left. split; [intros (s & n & ?%elem_of_nil & _); done|]. exists (b_next b).
    rewrite !app_nil_r. by destruct b as [[] ? ? ?]. }
  set (sub := rp d (b_next b)). unfold add_decl at 1 3. fold sub.
  destruct (add_nodes_spec (sub_nodes sub) b) as [[Hok ->]|[(n & Hn & Hp) ->]]; cbn.
  2:{ right. split; [|done]. exists sub, n. split; [left|done]. }
  rewrite add_edges_spec. cbn.
  set (b1 := match sub_nodes sub with [] => _ | _ => _ end).
  assert (E : b1 = mkBuild (mkCPG (nodes (b_cpg b) ++ sub_nodes sub) (edges (b_cpg b) ++ sub_edges sub))
    (b_added_nodes b ++ map node_id (sub_nodes sub)) (b_added_edges b ++ sub_edges sub) (next_base (b_next b) sub)).
  { unfold b1, next_base. by destruct (sub_nodes sub). }
  rewrite E. destruct (IH (mkBuild (mkCPG (nodes (b_cpg b) ++ sub_nodes sub) (edges (b_cpg b) ++ sub_edges sub))
    (b_added_nodes b ++ map node_id (sub_nodes sub)) (b_added_edges b ++ sub_edges sub) (next_base (b_next b) sub)))
    as [[Hn [nb ->]]|[(s & n & Hs & Hn & Hp) ->]]; cbn.
  - left. split.
    + intros (s & n & Hs & Hin & Hp). apply elem_of_cons in Hs as [->|Hs]; [|apply Hn; by exists s, n].
      rewrite Forall_forall in Hok. by apply (Hok n Hin).
    + exists nb. rewrite map_app, !app_assoc. done.
  - right. split; [|done]. exists s, n. split; [by right|done].
Qed.
End rebuild.

(** The subgraphs reparsed for a parent and an affected set. *)
Definition reparse_all (parent : CPG) (aff : gset pystr) (rp : DeclReparser) : list DeclSubgraph :=
  reparsed rp (fresh_id_base parent aff) (py_sorted str_leb (elements aff)).

Lemma build_spec parent aff rp :
  let subs := reparse_all parent aff rp in
  (~ collides (preserved_ids parent aff) subs /\ exists d,
     _build_preserving_new_cpg parent aff rp = Ok
       (mkCPG (kept_nodes parent aff ++ concat (map sub_nodes subs))
              (kept_edges parent aff ++ concat (map sub_edges subs)), d) /\
     added_nodes d = map node_id (concat (map sub_nodes subs)) /\ affected_set d = aff) \/
  (collides (preserved_ids parent aff) subs /\ _build_preserving_new_cpg parent aff rp = Raise NodeIdCollision).
Proof.
  unfold _build_preserving_new_cpg, reparse_all. cbv zeta.
  match goal with |- context [foldO _ ?b0 _] =>
    destruct (add_decls_spec rp (preserved_ids parent aff) (py_sorted str_leb (elements aff)) b0)
      as [[Hn [nb ->]]|[Hc ->]] end; cbn.
  - left. split; [exact Hn|]. eexists. split_and!; [reflexivity|done|done].
  - right. split; [exact Hc|done].
Qed.

Lemma compute_inv req r : compute_incremental_cpg req = Ok r ->
  parent_env_digest req = worker_env_digest req /\
  exists A, compute_affected (changed_decls req) (changed_types req) (graph req) = Ok A /\
    precondition_status r = (_route_for req (changed_files_ratio r) A).1 /\
    changed_files_ratio r = true_div (changed_files req) (Z.max (total_files req) 1) /\
    affected r = (if decide (precondition_status r = full_reparse)
                  then list_to_set (map enclosing_decl_fqn (nodes (parent_cpg req))) else A) /\
    ~ collides (preserved_ids (parent_cpg req) (affected r)) (reparse_all (parent_cpg req) (affected r) (reparser req)) /\
    new_cpg r = mkCPG
      (kept_nodes (parent_cpg req) (affected r) ++
       concat (map sub_nodes (reparse_all (parent_cpg req) (affected r) (reparser req))))
      (kept_edges (parent_cpg req) (affected r) ++
       concat (map sub_edges (reparse_all (parent_cpg req) (affected r) (reparser req)))).
Proof.
  unfold compute_incremental_cpg. case_bool_decide as He; cbn [negb]; [|done]. intros H. split; [done|].
  apply obind_Ok in H as (A & HA & H). exists A. split; [done|].
  match type of H with context [_build_preserving_new_cpg _ ?a _] => set (aff := a) in H end.
  destruct (build_spec (parent_cpg req) aff (reparser req)) as [[Hn (d & Hb & _ & _)]|[_ Hb]];
    rewrite Hb in H; cbn in H; [|done]. injection H as <-. cbn. split_and!; done.
Qed.

(** The reparser stays inside the declaration it was asked for. *)
Definition well_scoped (rp : DeclReparser) : Prop :=
  forall d b n, n ∈ sub_nodes (rp d b) -> enclosing_decl_fqn n = d.

(** The documented contract on ids: at or above the base, no id twice. *)
Definition well_numbered (rp : DeclReparser) : Prop :=
  forall d b, NoDup (map node_id (sub_nodes (rp d b))) /\ Forall (fun n => b <= node_id n) (sub_nodes (rp d b)).

Lemma reparsed_elem rp ds : forall base s, s ∈ reparsed rp base ds -> exists d b, d ∈ ds /\ s = rp d b.
Proof.
  induction ds as [|d ds IH]; intros base s; cbn; [by intros ?%elem_of_nil|].
  intros [->|Hs]%elem_of_cons; [exists d, base; split; [left|done]|].
  destruct (IH _ _ Hs) as (d' & b' & Hd & ->). exists d', b'. split; [by right|done].
Qed.

Lemma reparsed_scope parent aff rp n :
  well_scoped rp -> n ∈ concat (map sub_nodes (reparse_all parent aff rp)) -> enclosing_decl_fqn n ∈ aff.
Proof.
  intros Hw Hn. apply list_elem_of_In, in_concat in Hn as (l & (s & <- & Hs)%in_map_iff & Hn).
  apply list_elem_of_In in Hs, Hn. apply reparsed_elem in Hs as (d & b & Hd & ->).
  rewrite (Hw d b n Hn). by rewrite py_sorted_elem, elem_of_elements in Hd.
Qed.

Lemma elem_of_kept parent aff n :
  n ∈ kept_nodes parent aff <-> n ∈ nodes parent /\ enclosing_decl_fqn n ∉ aff.
Proof.
  unfold kept_nodes. rewrite !list_elem_of_In, filter_In, negb_true_iff, bool_decide_eq_false. done.
Qed.

Lemma elem_of_node_ids g d i :
  i ∈ node_ids g d <-> exists n, n ∈ nodes g /\ enclosing_decl_fqn n = d /\ node_id n = i.
Proof.
  unfold node_ids. rewrite elem_of_list_to_set, list_elem_of_fmap. split.
  - intros (n & -> & Hn). apply list_elem_of_In, filter_In in Hn as [Hn Hd]. apply list_elem_of_In in Hn.
    apply bool_decide_eq_true in Hd. by exists n.
  - intros (n & Hn & Hd & <-). exists n. split; [done|]. apply list_elem_of_In, filter_In.
    split; [by apply list_elem_of_In|by apply bool_decide_eq_true].
Qed.

(** C11: node ids of unaffected declarations survive.  When the rebuild
    completes, every node of an unaffected declaration is carried over
    unchanged, no reparsed node has the id of a carried one, and with a
    reparser that stays inside its declaration an unaffected declaration has
    exactly the node ids it had. *)
Theorem unaffected_ids_preserved req r d :
  compute_incremental_cpg req = Ok r -> d ∉ affected r ->
  (forall n, n ∈ nodes (parent_cpg req) -> enclosing_decl_fqn n = d -> n ∈ nodes (new_cpg r)) /\
  (forall n m, n ∈ nodes (new_cpg r) -> n ∉ kept_nodes (parent_cpg req) (affected r) ->
     m ∈ kept_nodes (parent_cpg req) (affected r) -> node_id n <> node_id m) /\
  (well_scoped (reparser req) -> node_ids (new_cpg r) d = node_ids (parent_cpg req) d).
Proof.
  intros (_ & A & _ & _ & _ & _ & Hcol & ->)%compute_inv Hd. cbn [nodes]. split_and!.
  - intros n Hn E. apply elem_of_app. left. apply elem_of_kept. split; [done|congruence].
  - intros n m Hn Hnk Hm E. apply elem_of_app in Hn as [Hn|Hn]; [done|]. apply Hcol.
    apply list_elem_of_In, in_concat in Hn as (l & (s & <- & Hs)%in_map_iff & Hn).
    exists s, n. split_and!; [by apply list_elem_of_In..|]. rewrite E. unfold preserved_ids.
    apply elem_of_list_to_set, list_elem_of_fmap. by exists m.
  - intros Hw. apply set_eq. intros i. rewrite !elem_of_node_ids. cbn [nodes]. split.
    + intros (n & [Hn|Hn]%elem_of_app & E & Hi).
      * apply elem_of_kept in Hn as [Hn _]. by exists n.
      * apply reparsed_scope in Hn; [|done]. congruence.
    + intros (n & Hn & E & Hi). exists n. split_and!; try done. apply elem_of_app. left.
      apply elem_of_kept. split; [done|congruence].
Qed.

(** ** Fresh ids *)

Lemma max_id_ge x l : x ∈ l -> x <= max_id l.
Proof.
  assert (H : forall k a, a <= fold_left Z.max k a /\ forall y, y ∈ k -> y <= fold_left Z.max k a).
  { clear. induction k as [|b k IH]; intros a; cbn [fold_left]; [split; [lia|by intros y ?%elem_of_nil]|].
    destruct (IH (Z.max a b)) as [H1 H2]. split; [lia|]. intros y [->|Hy]%elem_of_cons; [lia|auto]. }
  destruct l as [|a l]; [by intros ?%elem_of_nil|]. cbn [max_id]. destruct (H l a) as [H1 H2].
  intros [->|Hx]%elem_of_cons; auto.
Qed.

Lemma reparsed_fresh rp ds : well_numbered rp -> forall base,
  let ns := concat (map sub_nodes (reparsed rp base ds)) in
  NoDup (map node_id ns) /\ Forall (fun n => base <= node_id n) ns.
Proof.
  intros Hw. induction ds as [|d ds IH]; intros base; cbn; [split; constructor|].
  destruct (Hw d base) as [Hnd Hge]. destruct (IH (next_base base (rp d base))) as [IHnd IHge].
  rewrite Forall_forall in Hge, IHge.
  assert (Hlt : forall n, n ∈ sub_nodes (rp d base) -> base <= node_id n < next_base base (rp d base)).
  { intros n Hn. specialize (Hge n Hn). unfold next_base. destruct (sub_nodes (rp d base)) as [|m ms] eqn:E.
    - by apply elem_of_nil in Hn.
    - assert (node_id n <= max_id (map node_id (m :: ms))); [|lia]. apply max_id_ge, list_elem_of_fmap. by exists n. }
  assert (Hb : base <= next_base base (rp d base)).
  { unfold next_base. destruct (sub_nodes (rp d base)) as [|m ms] eqn:E; [lia|].
    specialize (Hge m (list_elem_of_here _ _)).
    assert (node_id m <= max_id (map node_id (m :: ms))) by (apply max_id_ge; left). lia. }
  split.
  - rewrite map_app. apply NoDup_app. split_and!; [done| |done].
    intros i (n & -> & Hn)%list_elem_of_fmap (m & E & Hm)%list_elem_of_fmap.
    specialize (Hlt n Hn). specialize (IHge m Hm). lia.
  - apply Forall_forall. intros n [Hn|Hn]%elem_of_app; [by apply Hlt|]. specialize (IHge n Hn). lia.
Qed.

Lemma fresh_above parent aff i : i ∈ preserved_ids parent aff -> i < fresh_id_base parent aff.
Proof.
  intros Hi. apply elem_of_elements in Hi. unfold fresh_id_base.
  destruct (elements (preserved_ids parent aff)) as [|a l]; [by apply elem_of_nil in Hi|].
  apply max_id_ge in Hi. lia.
Qed.

(** A reparser that keeps to its id contract cannot collide.  With equal
    environment digests the computation returns, and the rebuilt graph has
    distinct node ids whenever the parent had. *)
Theorem well_numbered_rebuild req :
  parent_env_digest req = worker_env_digest req -> well_numbered (reparser req) ->
  NoDup (ids (parent_cpg req)) ->
  exists r, compute_incremental_cpg req = Ok r /\ NoDup (ids (new_cpg r)).
Proof.
  intros He Hw Hnd. unfold compute_incremental_cpg. rewrite bool_decide_true by done. cbn [negb].
  destruct (compute_affected_spec (changed_decls req) (changed_types req) (graph req)) as (A & -> & _). cbn [obind].
  match goal with |- context [_build_preserving_new_cpg _ ?a _] => set (aff := a) end.
  destruct (reparsed_fresh (reparser req) (py_sorted str_leb (elements aff)) Hw (fresh_id_base (parent_cpg req) aff))
    as [Hn1 Hn2]. fold (reparse_all (parent_cpg req) aff (reparser req)) in Hn1, Hn2. rewrite Forall_forall in Hn2.
  destruct (build_spec (parent_cpg req) aff (reparser req)) as [[Hn (d & Hb & _ & _)]|[(s & n & Hs & Hn & Hp) _]].
  - rewrite Hb. cbn [obind]. eexists. split; [done|]. cbn [new_cpg fst]. unfold ids. cbn [nodes].
    rewrite map_app. apply NoDup_app. split_and!; [| |done].
    + by apply NoDup_map_filter.
    + intros i Hi (m & -> & Hm)%list_elem_of_fmap. specialize (Hn2 m Hm).
      assert (node_id m < fresh_id_base (parent_cpg req) aff); [|lia]. apply fresh_above.
      unfold preserved_ids. by apply elem_of_list_to_set.
  - exfalso. apply fresh_above in Hp. specialize (Hn2 n). assert (fresh_id_base (parent_cpg req) aff <= node_id n); [|lia].
    apply Hn2. apply list_elem_of_In, in_concat. exists (sub_nodes s).
    split; [apply in_map; by apply list_elem_of_In|by apply list_elem_of_In].
Qed.

(** ** Routing *)

Definition severity (r : Route) : Z := match r with closed_world => 0 | degraded => 1 | full_reparse => 2 end.

(** Routing never relaxes the verdict.  The route of a completed
    computation is at least as conservative as the closed-world verdict; it
    differs only by demoting a degraded verdict to a full reparse, and the
    degraded route is taken exactly when both ratios are within their
    thresholds. *)
Theorem route_never_relaxes req r :
  compute_incremental_cpg req = Ok r ->
  severity (cw_verdict req) <= severity (precondition_status r) /\
  (precondition_status r = cw_verdict req \/
   (cw_verdict req = degraded /\ precondition_status r = full_reparse)) /\
  exists A, compute_affected (changed_decls req) (changed_types req) (graph req) = Ok A /\
  (precondition_status r = degraded <->
    cw_verdict req = degraded /\ (changed_files_ratio r <= theta_files req)%Q /\
    (true_div (cone_nodes (parent_cpg req) A) (Z.max (len (nodes (parent_cpg req))) 1) <= theta_cone req)%Q).
Proof.
  intros (_ & A & HA & Hst & _ & _ & _ & _)%compute_inv. rewrite Hst. unfold _route_for, Qgt_bool.
  set (cone := true_div _ _). set (ratio := changed_files_ratio r).
  assert (H : severity (cw_verdict req) <= severity (_route_for req ratio A).1 /\
    ((_route_for req ratio A).1 = cw_verdict req \/
     (cw_verdict req = degraded /\ (_route_for req ratio A).1 = full_reparse)) /\
    ((_route_for req ratio A).1 = degraded <->
     cw_verdict req = degraded /\ (ratio <= theta_files req)%Q /\ (cone <= theta_cone req)%Q)).
  { rewrite <-!Qle_bool_iff. unfold _route_for, Qgt_bool. fold cone.
    destruct (cw_verdict req), (Qle_bool ratio (theta_files req)), (Qle_bool cone (theta_cone req));
      cbn [negb fst severity]; split_and!; try lia; naive_solver. }
  destruct H as (H1 & H2 & H3). split; [exact H1|]. split; [exact H2|]. exists A. split; [exact HA|exact H3].
Qed.

(** The full-reparse route only reparses declarations of the parent.  A
    changed declaration that the parent does not contain is left out of the
    affected set and of the rebuilt graph, although the other routes reparse
    it. *)
Theorem full_reparse_drops_new_declarations req r d :
  compute_incremental_cpg req = Ok r -> precondition_status r = full_reparse -> well_scoped (reparser req) ->
  d ∈ changed_decls req -> (forall n, n ∈ nodes (parent_cpg req) -> enclosing_decl_fqn n <> d) ->
  d ∉ affected r /\ node_ids (new_cpg r) d = ∅.
Proof.
  intros (_ & A & _ & _ & _ & Haff & _ & Hg)%compute_inv Hst Hw _ Hnew.
  assert (Hd : d ∉ affected r).
  { rewrite Haff, decide_True by done. rewrite elem_of_list_to_set. intros (n & E & Hn)%list_elem_of_fmap.
    by apply (Hnew n Hn). }
  split; [done|]. apply set_eq. intros i. rewrite elem_of_node_ids, Hg. cbn [nodes]. split; [|set_solver].
  intros (n & [Hn|Hn]%elem_of_app & E & _).
  - apply elem_of_kept in Hn as [Hn _]. by destruct (Hnew n Hn).
  - apply reparsed_scope in Hn; [|done]. congruence.
Qed.

(** ** Witnesses *)

Definition delta_node (i : Z) (decl : string) : CPGNode := mkNode i (str "CALL") [] [] (str decl) [].

(** A reparser that mints one node per declaration. *)
Definition one_node_reparser : DeclReparser := fun d b =>
  mkSub d [mkNode b (str "CALL") [] [] d []] [].

Definition delta_request (verdict : Route) : IncrementalCpgRequest :=
  mkRequest (mkCPG [delta_node 0 "a"; delta_node 1 "b"] [mkEdge 0 1 (str "CFG")])
    (str "env") (str "env") verdict {[str "a"; str "new"]} ∅ (mkView ∅ ∅ ∅ ∅) one_node_reparser
    10 1 DEFAULT_THETA_CONE DEFAULT_THETA_FILES.

Lemma one_node_well_scoped : well_scoped one_node_reparser.
Proof. intros d b n Hn. cbn in Hn. apply list_elem_of_singleton in Hn as ->. done. Qed.

Lemma one_node_well_numbered : well_numbered one_node_reparser.
Proof. intros d b. cbn. split; [apply NoDup_singleton|]. repeat constructor. cbn. lia. Qed.

Definition delta_shown (o : outcome IncrementalCpgResult) : option (list Z * Route) :=
  match o with Ok r => Some (ids (new_cpg r), precondition_status r) | Raise _ => None end.

Lemma delta_closed_shown : delta_shown (compute_incremental_cpg (delta_request closed_world)) = Some ([1; 2; 3], closed_world).
Proof. vm_compute. reflexivity. Qed.

Lemma delta_full_shown : delta_shown (compute_incremental_cpg (delta_request full_reparse)) = Some ([0; 1], full_reparse).
Proof. vm_compute. reflexivity. Qed.

Lemma delta_closed_result : exists r, compute_incremental_cpg (delta_request closed_world) = Ok r /\ affected r = {[str "a"; str "new"]}.
Proof.
  destruct (compute_incremental_cpg (delta_request closed_world)) as [r|] eqn:E;
    [|pose proof delta_closed_shown as H; rewrite E in H; discriminate].
  exists r. split; [done|].
  destruct (compute_inv _ _ E) as (_ & A & HA & Hst & _ & Haff & _).
  cbn [_route_for cw_verdict delta_request fst] in Hst. rewrite Hst in Haff. rewrite Haff.
  assert (HA' : compute_affected {[str "a"; str "new"]} ∅ (mkView ∅ ∅ ∅ ∅) = Ok ({[str "a"; str "new"]} : gset pystr))
    by (vm_compute; reflexivity).
  cbn [delta_request changed_decls changed_types graph] in HA. rewrite HA' in HA. injection HA as <-. done.
Qed.

Lemma unaffected_ids_preserved_witness : exists r,
  compute_incremental_cpg (delta_request closed_world) = Ok r /\
  node_ids (new_cpg r) (str "b") = node_ids (parent_cpg (delta_request closed_world)) (str "b").
Proof.
  destruct delta_closed_result as (r & Hr & Ha). exists r. split; [exact Hr|].
  refine (proj2 (proj2 (unaffected_ids_preserved (delta_request closed_world) r (str "b") Hr _)) one_node_well_scoped).
  rewrite Ha. apply (bool_decide_unpack _). vm_compute. exact I.
Defined.

Lemma well_numbered_rebuild_witness : exists r,
  compute_incremental_cpg (delta_request closed_world) = Ok r /\ NoDup (ids (new_cpg r)).
Proof.
  refine (well_numbered_rebuild (delta_request closed_world) eq_refl one_node_well_numbered _).
  apply (bool_decide_unpack _). vm_compute. exact I.
Defined.

Lemma route_never_relaxes_witness : exists r,
  compute_incremental_cpg (delta_request closed_world) = Ok r /\
  severity (cw_verdict (delta_request closed_world)) <= severity (precondition_status r).
Proof.
  destruct delta_closed_result as (r & Hr & _). exists r. split; [exact Hr|].
  exact (proj1 (route_never_relaxes (delta_request closed_world) r Hr)).
Defined.

Lemma full_reparse_drops_new_declarations_witness : exists r,
  compute_incremental_cpg (delta_request full_reparse) = Ok r /\
  str "new" ∉ affected r /\ node_ids (new_cpg r) (str "new") = ∅.
Proof.
  pose proof delta_full_shown as H.
  destruct (compute_incremental_cpg (delta_request full_reparse)) as [r|] eqn:E; [|discriminate].
  cbn [delta_shown] in H. injection H as _ Hst. exists r. split; [reflexivity|].
  refine (full_reparse_drops_new_declarations (delta_request full_reparse) r (str "new") E Hst one_node_well_scoped _ _).
  - apply (bool_decide_unpack _). vm_compute. exact I.
  - intros n Hn. cbn in Hn. apply elem_of_cons in Hn as [->|Hn]; [discriminate|].
    apply list_elem_of_singleton in Hn as ->. discriminate.
Defined.
