(* ===== verification/Fingerprint.v ===== *)
(** * Slice fingerprints ([analysis/fingerprint.py])

    The backward slice of a witness, the normalisation passes, the strong
    content hash and the weak witness hashes, and [_compute], which shares one
    budget between validation, normalisation and canonicalisation. *)
From stdpp Require Import base tactics list gmap sets strings fin_sets relations.
From Stdlib Require Import ZArith QArith Lia Sorted.
From S2P Require Import Prelude PyData Sha256 Budget Cpg GraphSpec Ordering PyDict Supergraph.

Open Scope Z_scope.
Open Scope budget_scope.
Open Scope py_scope.

Definition SLICE_IDENTITY_NAMESPACE : pystr := str "scanipy-slice-normal-form/2".
Definition LEGACY_WITNESS_NAMESPACE : pystr := str "scanipy-witness-edge-sequence/1".
Definition SOURCE_WITNESS_NAMESPACE : pystr := str "scanipy-source-witness/2".

Record SliceFingerprintResult := mkSliceResult {
  slice_fingerprint : pybytes;
  slice_class : FingerprintClass;
  slice_exhausted : bool;
  slice_elapsed_ms : Q;
  slice_annotation : pystr;
  slice_namespace : pystr;
  slice_policy : pystr;
  slice_states : Z
}.

(** ** The backward slice *)

Record _Slice := mkSlice { slice_cpg : CPG; slice_witness : list Z }.

Definition dataflow_kinds : list pystr := map str ["CFG"; "CALL"; "PDG"].

Definition empty_lists (g : CPG) : gmap Z (list Z) := py_dict (map (fun n => (node_id n, [])) (nodes g)).

Definition add_pred (preds : gmap Z (list Z)) (e : CPGEdge) : gmap Z (list Z) :=
  if bool_decide (edge_kind e ∈ dataflow_kinds) then
    match preds !! dst e with
    | Some l => <[dst e := l ++ [src e]]> preds
    | None => preds
    end
  else preds.

Definition dataflow_preds (g : CPG) : gmap Z (list Z) := fold_left add_pred (edges g) (empty_lists g).

Record Cone := mkCone { stack : list Z; traversed : gset Z; on_slice : gset Z }.

Definition visit_pred (c : Cone) (p : Z) : Cone :=
  mkCone (if decide (p ∈ traversed c) then stack c else p :: stack c) (traversed c) ({[p]} ∪ on_slice c).

(** The [while stack] loop; the stack has its top first.  A node is traversed
    once and pushes one entry per incoming dataflow edge. *)
Fixpoint cone_loop (fuel : nat) (preds : gmap Z (list Z)) (c : Cone) : outcome (gset Z) :=
  match stack c with
  | [] => Ok (on_slice c)
  | cur :: rest =>
      match fuel with
      | O => Raise OutOfFuel
      | S fuel' =>
          if decide (cur ∈ traversed c)
          then cone_loop fuel' preds (mkCone rest (traversed c) (on_slice c))
          else cone_loop fuel' preds
                 (fold_left visit_pred (default [] (preds !! cur))
                    (mkCone rest ({[cur]} ∪ traversed c) (on_slice c)))
      end
  end.

Definition slice_cone (g : CPG) (witness : list Z) (sink : Z) : outcome (gset Z) :=
  cone_loop (S (S (length (edges g)))) (dataflow_preds g) (mkCone [sink] ∅ (list_to_set witness)).

(** [{n.node_id: n for n in cpg.nodes}] *)
Definition nodes_by_id (g : CPG) : gmap Z CPGNode := py_dict (map (fun n => (node_id n, n)) (nodes g)).

(** [dst.add_node(...)] with the fields of [n] and [remap[n.node_id]] set *)
Definition copy_node (op : pystr) (n : CPGNode) (acc : CPG * gmap Z Z) (key : Z) : CPG * gmap Z Z :=
  let r := add_node acc.1 (kind n) op (resolved_fqn n) (enclosing_decl_fqn n) (structural_path n) in
  (r.1, <[key := r.2]> acc.2).

Definition slice_node (by_id : gmap Z CPGNode) (acc : CPG * gmap Z Z) (nid : Z) : outcome (CPG * gmap Z Z) :=
  n ⇐ getitem by_id nid;
  Ok (copy_node (operator_or_literal n) n acc nid).

Definition copy_edge (remap : gmap Z Z) (g : CPG) (e : CPGEdge) : outcome CPG :=
  s ⇐ getitem remap (src e);
  d ⇐ getitem remap (dst e);
  Ok (add_edge g s d (edge_kind e)).

(** [_backward_interprocedural_slice] *)
Definition _backward_interprocedural_slice (g : CPG) (witness : list Z) : outcome _Slice :=
  match last witness with
  | None => Raise EmptyWitness
  | Some sink =>
      let by_id := nodes_by_id g in
      if negb (forallb (fun nid => bool_decide (is_Some (by_id !! nid))) witness) then Raise WitnessNotInCPG
      else
        on ⇐ slice_cone g witness sink;
        acc ⇐ foldO (slice_node by_id) (empty_cpg, ∅) (py_sorted Z.leb (elements on));
        sliced ⇐ foldO (copy_edge acc.2) acc.1
          (List.filter (fun e => bool_decide (src e ∈ on) && bool_decide (dst e ∈ on)) (edges g));
        w ⇐ mapO (getitem acc.2) witness;
        Ok (mkSlice sliced w)
  end.

(** ** Normalisation *)

(** [_copy_nodes], into an empty graph as at every call *)
Definition _copy_nodes (g : CPG) (rename : CPGNode -> pystr) : CPG * gmap Z Z :=
  fold_left (fun acc n => copy_node (rename n) n acc (node_id n)) (nodes g) (empty_cpg, ∅).

(** [_copy_edges] *)
Definition _copy_edges (g dst : CPG) (remap : gmap Z Z) : outcome CPG :=
  foldO (copy_edge remap) dst (edges g).

(** [_copy_nodes] followed by [_copy_edges] *)
Definition copy_graph (g : CPG) (rename : CPGNode -> pystr) : outcome (CPG * gmap Z Z) :=
  let acc := _copy_nodes g rename in
  out ⇐ _copy_edges g acc.1 acc.2;
  Ok (out, acc.2).

(** [_node]: the first node with the id *)
Definition _node (g : CPG) (nid : Z) : outcome CPGNode :=
  match List.find (fun n => node_id n =? nid) (nodes g) with
  | Some n => Ok n
  | None => Raise KeyError
  end.

Definition is_identifier (n : CPGNode) : bool := bool_decide (kind n = str "IDENTIFIER").

(** One step of the loop that numbers the identifiers in canonical order. *)
Definition count_local (g : CPG) (acc : gmap Z Z * Z) (nid : Z) : outcome (gmap Z Z * Z) :=
  node ⇐ _node g nid;
  Ok (if is_identifier node then (<[nid := acc.2]> acc.1, acc.2 + 1) else acc).

Definition local_name (counter : gmap Z Z) (n : CPGNode) : pystr :=
  match counter !! node_id n with
  | Some i => str "%local" ++ decimal i
  | None => operator_or_literal n
  end.

Definition anonymous_name (n : CPGNode) : pystr := if is_identifier n then [] else operator_or_literal n.

(** [_alpha_rename_locals], with the shared budget *)
Definition _alpha_rename_locals (g : CPG) : M CPG :=
  if negb (existsb is_identifier (nodes g)) then ret g
  else
    anonymized ⇠ lift (copy_graph g anonymous_name);
    ordering ⇠ canonical_order_with anonymized.1;
    if negb (bool_decide (fingerprint_class ordering = strong)) then raise BudgetExhausted
    else
      let inverse := py_dict (map (fun kv => (kv.2, kv.1)) (map_to_list anonymized.2)) in
      order ⇠ lift (mapO (getitem inverse) (canonical_order_of ordering));
      counted ⇠ lift (foldO (count_local g) (∅, 0) order);
      out ⇠ lift (copy_graph g (local_name counted.1));
      ret out.1.

(** Passes 2 to 4 are the identity on this graph model. *)
Definition _drop_pdg_only_formatting (g : CPG) : CPG := g.
Definition _canonical_topo_sort (g : CPG) : CPG := g.
Definition _summary_inline_pure_extract (g : CPG) : CPG := g.

(** [fqn.rsplit(".", 1)[-1]] *)
Fixpoint terminal (fqn : pystr) : pystr :=
  match fqn with
  | [] => []
  | c :: rest => if bool_decide (46 ∈ fqn) then (if bool_decide (46 ∈ rest) then terminal rest else rest) else fqn
  end.

Definition _norm_fqn (fqn : pystr) : pystr :=
  match fqn with [] => [] | _ => str "%pkg." ++ terminal fqn end.

Definition normalise_node (acc : CPG * gmap Z Z) (n : CPGNode) : CPG * gmap Z Z :=
  copy_node (operator_or_literal n)
    (mkNode (node_id n) (kind n) (operator_or_literal n) (_norm_fqn (resolved_fqn n))
       (_norm_fqn (enclosing_decl_fqn n)) (structural_path n)) acc (node_id n).

(** [_fqn_normalise] *)
Definition _fqn_normalise (g : CPG) : outcome CPG :=
  let acc := fold_left normalise_node (nodes g) (empty_cpg, ∅) in
  _copy_edges g acc.1 acc.2.

(** [_normalise]: a deadline check before each pass *)
Definition _normalise (g : CPG) : M CPG :=
  check ;;;
  g1 ⇠ _alpha_rename_locals g;
  check ;;;
  let g2 := _drop_pdg_only_formatting g1 in
  check ;;;
  let g3 := _canonical_topo_sort g2 in
  check ;;;
  let g4 := _summary_inline_pure_extract g3 in
  check ;;;
  lift (_fqn_normalise g4).

(** ** Hashes *)

Definition slice_strong_domain : pybytes := str "SCANIPY-SLICE-STRONG/2" ++ [10].
Definition slice_weak_domain : pybytes := str "SCANIPY-SLICE-WEAK/2" ++ [10].
Definition legacy_domain : pybytes := str "CMP-CORE-02/witness-edge-sequence/v1" ++ [10].

(** [_content_hash] *)
Definition _content_hash (g : CPG) (order : list Z) : M pybytes :=
  encoded ⇠ encode_graph true g order;
  ret (sha256 (slice_strong_domain ++ encoded)).

(** [int(v).to_bytes(8, "big")] *)
Definition to_bytes8 (v : Z) : outcome pybytes :=
  if (0 <=? v) && (v <? 2 ^ 64) then Ok (u64_bytes v) else Raise OverflowError.

(** [_witness_edge_sequence_hash] *)
Definition _witness_edge_sequence_hash (w : list Z) : outcome pybytes :=
  parts ⇐ mapO to_bytes8 w;
  Ok (sha256 (legacy_domain ++ concat parts)).

Definition add_adjacency (adj : gmap (Z * Z) (list pybytes)) (e : CPGEdge) : M (gmap (Z * Z) (list pybytes)) :=
  check ;;;
  k ⇠ py_encode (edge_kind e);
  ret (append_at adj (src e, dst e) k).

(** One step of the witness in the source-scoped hash. *)
Definition step_bytes (adj : gmap (Z * Z) (list pybytes)) (st : Z * Z) : outcome pybytes :=
  match py_sorted bytes_leb (default [] (adj !! st)) with
  | [] => Raise (ValueError "source-scoped witness has a disconnected step")
  | kinds =>
      n ⇐ to_bytes8 (len kinds);
      ks ⇐ mapO (fun k => l ⇐ to_bytes8 (len k); Ok (l ++ k)) kinds;
      Ok (n ++ concat ks)
  end.

(** [pairwise(witness)] *)
Definition pairwise (w : list Z) : list (Z * Z) := zip w (tail w).

(** [_source_witness_hash] *)
Definition _source_witness_hash (g : CPG) (w : list Z) (digest : pybytes) : M pybytes :=
  adj ⇠ foldM add_adjacency ∅ (edges g);
  n ⇠ lift (to_bytes8 (len w));
  ns ⇠ mapM (fun node => check ;;; lift (to_bytes8 node)) w;
  steps ⇠ lift (mapO (step_bytes adj) (pairwise w));
  ret (sha256 (slice_weak_domain ++ digest ++ n ++ concat ns ++ concat steps)).

(** ** [_compute] *)

Definition strong_path (sliced : CPG) : M (pybytes * FingerprintClass * pystr) :=
  normal ⇠ _normalise sliced;
  ordering ⇠ canonical_order_with normal;
  if bool_decide (fingerprint_class ordering = weak) then raise BudgetExhausted
  else
    fp ⇠ _content_hash normal (canonical_order_of ordering);
    ret (fp, strong, SLICE_IDENTITY_NAMESPACE).

Definition weak_path (sw : list Z) (source_weak : option pybytes) : M (pybytes * FingerprintClass * pystr) :=
  check ;;;
  match source_weak with
  | None => fp ⇠ lift (_witness_edge_sequence_hash sw); ret (fp, weak, LEGACY_WITNESS_NAMESPACE)
  | Some fp => ret (fp, weak, SOURCE_WITNESS_NAMESPACE)
  end.

Definition compute_with (g : CPG) (w : list Z) (digest : option pybytes) : M SliceFingerprintResult :=
  validate_cpg true g ;;;
  sliced ⇠ lift (_backward_interprocedural_slice g w);
  check ;;;
  source_weak ⇠ (match digest with
                 | Some d => h ⇠ _source_witness_hash g w d; ret (Some h)
                 | None => ret None
                 end);
  found ⇠ except_exhausted (strong_path (slice_cpg sliced)) (weak_path (slice_witness sliced) source_weak);
  elapsed ⇠ elapsed_ms;
  check ;;;
  states ⇠ get_search_states;
  ret (mkSliceResult found.1.1 found.1.2 (bool_decide (found.1.2 = weak)) elapsed CPG_ORDER_HASH_ANNOTATION
         found.2 BUDGET_POLICY states).

(** [_compute] *)
Definition _compute (g : CPG) (w : list Z) (B T : pynum) (digest : option pybytes) (c : clock) :
    outcome SliceFingerprintResult :=
  obind (start B T c) (fun b => fst (compute_with g w digest c b)).

(** [compute_slice_fingerprint] and [compute_slice_fingerprint_v2] *)
Definition compute_slice_fingerprint (g : CPG) (w : list Z) (B T : pynum) (c : clock) :
    outcome SliceFingerprintResult := _compute g w B T None c.

Definition compute_slice_fingerprint_v2 (g : CPG) (w : list Z) (digest : pybytes) (B T : pynum) (c : clock) :
    outcome SliceFingerprintResult :=
  if negb (len digest =? 32) then Raise (ValueError "source_tree_digest must be 32 real digest bytes")
  else _compute g w B T (Some digest) c.

(** [eligible_for_baseline_suppression] *)
Definition eligible_for_baseline_suppression (r : SliceFingerprintResult) : bool :=
  bool_decide (slice_class r = strong) && bool_decide (slice_namespace r = SLICE_IDENTITY_NAMESPACE).

(** * The backward slice is the dependence cone of the sink

    [_backward_interprocedural_slice] terminates with the subgraph induced by
    the witness and every node from which the sink is reachable along dataflow
    edges, renumbered by position in the order of the ids. *)

(** ** Dataflow predecessors *)

#[local] Arguments dataflow_kinds : simpl never.

Definition dataflow_edges (g : CPG) : list CPGEdge :=
  List.filter (fun e => bool_decide (edge_kind e ∈ dataflow_kinds)) (edges g).

Definition into (n : Z) (es : list CPGEdge) : list CPGEdge := List.filter (fun e => dst e =? n) es.

Lemma empty_lists_lookup g n : n ∈ ids g -> empty_lists g !! n = Some [].
Proof.
  intros Hn. unfold empty_lists.
  assert (H : is_Some (py_dict (map (fun n => (node_id n, [] : list Z)) (nodes g)) !! n)).
  { rewrite py_dict_lookup_is_Some, <-list_fmap_compose. done. }
  destruct H as [l Hl]. rewrite Hl. f_equal.
  assert (Hgen : forall xs (d : gmap Z (list Z)), (forall v, d !! n = Some v -> v = []) ->
    fold_left (fun d kv => <[kv.1 := kv.2]> d) (map (fun n => (node_id n, [] : list Z)) xs) d !! n = Some l -> l = []).
  { induction xs as [|x xs IH]; intros d Hd; cbn; [apply Hd|].
    apply IH. intros v. rewrite lookup_insert_Some. naive_solver. }
  apply (Hgen (nodes g) ∅); [|exact Hl]. intros v. by rewrite lookup_empty.
Qed.

Lemma preds_lookup g n : n ∈ ids g -> dataflow_preds g !! n = Some (map src (into n (dataflow_edges g))).
Proof.
  intros Hn. unfold dataflow_preds, dataflow_edges.
  cut (forall es (m : gmap Z (list Z)) l, m !! n = Some l ->
    fold_left add_pred es m !! n = Some (l ++ map src (into n (List.filter (fun e => bool_decide (edge_kind e ∈ dataflow_kinds)) es)))).
  { intros H. rewrite (H _ _ [] (empty_lists_lookup g n Hn)). done. }
  induction es as [|e es IH]; intros m l Hm; cbn; [by rewrite app_nil_r|].
  unfold add_pred at 2. destruct (bool_decide (edge_kind e ∈ dataflow_kinds)) eqn:Hk; cbn.
  - destruct (Z.eqb_spec (dst e) n) as [E|Hne].
    + rewrite E, Hm. cbn. rewrite (IH _ (l ++ [src e])) by apply lookup_insert_eq. by rewrite <-app_assoc.
    + apply IH. destruct (m !! dst e); [by rewrite lookup_insert_ne|done].
  - by apply IH.
Qed.

(** The direct dependences along dataflow edges. *)
Definition depends (g : CPG) (p n : Z) : Prop :=
  exists e, e ∈ edges g /\ edge_kind e ∈ dataflow_kinds /\ src e = p /\ dst e = n.

Lemma elem_of_preds g p n : n ∈ ids g -> p ∈ default [] (dataflow_preds g !! n) <-> depends g p n.
Proof.
  intros Hn. rewrite preds_lookup by done. cbn. rewrite list_elem_of_fmap. unfold depends, into, dataflow_edges.
  split.
  - intros (e & -> & He). apply list_elem_of_In, filter_In in He as [He Hd%Z.eqb_eq].
    apply filter_In in He as [He Hk%bool_decide_eq_true]. exists e. by rewrite list_elem_of_In.
  - intros (e & He & Hk & <- & <-). exists e. split; [done|]. apply list_elem_of_In, filter_In.
    split; [|apply Z.eqb_refl]. apply filter_In. split; [by apply list_elem_of_In|by apply bool_decide_eq_true].
Qed.

(** ** The cone *)

Section cone.
Context (g : CPG) (sink : Z) (W : gset Z).
Hypothesis Hg : valid_cpg g.
Hypothesis Hsink : sink ∈ ids g.
Hypothesis HsinkW : sink ∈ W.

Notation preds := (dataflow_preds g).

Lemma depends_ids p n : depends g p n -> p ∈ ids g /\ n ∈ ids g.
Proof.
  intros (e & He & _ & <- & <-). destruct Hg as [_ _ Hv]. rewrite Forall_forall in Hv. by destruct (Hv e He).
Qed.

Record cone_inv (c : Cone) : Prop := {
  co_stack x : x ∈ stack c -> rtc (depends g) x sink;
  co_trav x : x ∈ traversed c -> rtc (depends g) x sink;
  co_on x : x ∈ on_slice c -> x ∈ W \/ rtc (depends g) x sink;
  co_closed n p : n ∈ traversed c -> depends g p n ->
    p ∈ on_slice c /\ (p ∈ traversed c \/ p ∈ stack c);
  co_witness x : x ∈ W -> x ∈ on_slice c;
  co_sink : sink ∈ traversed c \/ sink ∈ stack c
}.

Lemma visit_preds ps : forall c,
  let c' := fold_left visit_pred ps c in
  traversed c' = traversed c /\
  (forall x, x ∈ on_slice c' <-> x ∈ on_slice c \/ x ∈ ps) /\
  (forall x, x ∈ stack c' <-> x ∈ stack c \/ (x ∈ ps /\ x ∉ traversed c)) /\
  (length (stack c') <= length ps + length (stack c))%nat.
Proof.
  induction ps as [|p ps IH]; intros c; cbn.
  { split_and!; [done| | |lia]; intros x; rewrite elem_of_nil; tauto. }
  destruct (IH (visit_pred c p)) as (H1 & H2 & H3 & H4). cbn in *. split_and!.
  - done.
  - intros x. rewrite H2, elem_of_union, elem_of_singleton, elem_of_cons. tauto.
  - intros x. rewrite H3, elem_of_cons. destruct (decide (p ∈ traversed c)); rewrite ?elem_of_cons;
      destruct (decide (x = p)) as [->|]; tauto.
  - destruct (decide (p ∈ traversed c)); cbn [length] in *; lia.
Qed.

(** Edges whose target has not been traversed. *)
Definition pending_edges (T : gset Z) : list CPGEdge :=
  List.filter (fun e => negb (bool_decide (dst e ∈ T))) (dataflow_edges g).

Lemma pending_step T n : n ∉ T ->
  length (pending_edges T) = (length (into n (dataflow_edges g)) + length (pending_edges ({[n]} ∪ T)))%nat.
Proof.
  intros Hn. unfold pending_edges, into. induction (dataflow_edges g) as [|e es IH]; cbn; [done|].
  destruct (Z.eqb_spec (dst e) n) as [E|E].
  - rewrite (bool_decide_false (dst e ∈ T)) by (by rewrite E).
    rewrite (bool_decide_true (dst e ∈ {[n]} ∪ T)) by set_solver. cbn. lia.
  - rewrite (bool_decide_ext (dst e ∈ {[n]} ∪ T) (dst e ∈ T)) by set_solver.
    destruct (bool_decide (dst e ∈ T)); cbn; lia.
Qed.

Lemma cone_loop_spec fuel : forall c,
  cone_inv c -> (length (stack c) + length (pending_edges (traversed c)) < fuel)%nat ->
  exists on, cone_loop fuel preds c = Ok on /\ forall x, x ∈ on <-> x ∈ W \/ rtc (depends g) x sink.
Proof.
  induction fuel as [|fuel IH]; intros c Hc Hf; [lia|]. cbn [cone_loop].
  destruct (stack c) as [|cur rest] eqn:Es.
  - exists (on_slice c). split; [done|]. intros x. destruct Hc as [C1 C2 C3 C4 C5 C6].
    assert (Hreach : forall y, rtc (depends g) y sink -> y ∈ traversed c).
    { intros y. apply (rtc_ind_l (fun y => y ∈ traversed c) sink).
      - destruct C6 as [?|Hs]; [done|]. rewrite Es in Hs. by apply elem_of_nil in Hs.
      - intros y' z Hyz _ IHy. destruct (C4 _ _ IHy Hyz) as [_ [?|Hs]]; [done|]. rewrite Es in Hs.
        by apply elem_of_nil in Hs. }
    split; [apply C3|]. intros [?|Hr]; [by apply C5|].
    apply rtc_inv in Hr as [->|(y & Hxy & Hy)]; [by apply C5|]. by apply (C4 y x (Hreach y Hy) Hxy).
  - assert (Hcur : cur ∈ ids g).
    { pose proof (co_stack _ Hc cur) as Hr. rewrite Es in Hr. specialize (Hr (list_elem_of_here _ _)).
      apply rtc_inv in Hr as [->|(y & Hy & _)]; [done|]. by destruct (depends_ids _ _ Hy). }
    destruct (decide (cur ∈ traversed c)) as [Ht|Ht].
    + apply IH; [|cbn in *; rewrite ?Es in *; cbn in *; lia]. destruct Hc as [C1 C2 C3 C4 C5 C6]. rewrite Es in *.
      split; cbn; try done.
      * intros x Hx. apply C1. by right.
      * intros n p Hn Hp. destruct (C4 n p Hn Hp) as [? [?|[->|?]%elem_of_cons]]; auto.
      * destruct C6 as [?|[->|?]%elem_of_cons]; auto.
    + destruct (visit_preds (default [] (preds !! cur)) (mkCone rest ({[cur]} ∪ traversed c) (on_slice c)))
        as (V1 & V2 & V3 & V4). cbn in V1, V2, V3, V4.
      assert (Hp : forall p, p ∈ default [] (preds !! cur) <-> depends g p cur) by (intros; by apply elem_of_preds).
      apply IH.
      * destruct Hc as [C1 C2 C3 C4 C5 C6]. rewrite Es in *.
        assert (Hcr : rtc (depends g) cur sink) by (apply C1; left).
        split.
        -- intros x [Hx|[Hx%Hp _]]%V3; [apply C1; by right|by eapply rtc_l].
        -- rewrite V1. intros x [->%elem_of_singleton|Hx]%elem_of_union; [done|auto].
        -- intros x [Hx|Hx%Hp]%V2; [auto|]. right. by eapply rtc_l.
        -- rewrite V1. intros n p [->%elem_of_singleton|Hn]%elem_of_union Hpn.
           ++ split; [apply V2; right; by apply Hp|]. destruct (decide (p ∈ {[cur]} ∪ traversed c)); [by left|].
              right. apply V3. right. split; [by apply Hp|done].
           ++ destruct (C4 n p Hn Hpn) as [Ho Hts]. split; [apply V2; by left|].
              destruct Hts as [?|[->|?]%elem_of_cons]; [left; set_solver|left; set_solver|right; apply V3; by left].
        -- intros x Hx. apply V2. left. auto.
        -- rewrite V1. destruct C6 as [?|[->|?]%elem_of_cons]; [left; set_solver|left; set_solver|right; apply V3; by left].
      * rewrite V1. pose proof (pending_step (traversed c) cur Ht) as Hst.
        rewrite preds_lookup in V4 |- * by done. cbn [default from_option id] in V4 |- *. rewrite length_map in V4.
        cbn in Hf. lia.
Qed.
End cone.

Lemma slice_cone_spec g w sink :
  valid_cpg g -> last w = Some sink -> sink ∈ ids g ->
  exists on, slice_cone g w sink = Ok on /\ forall x, x ∈ on <-> x ∈ w \/ rtc (depends g) x sink.
Proof.
  intros Hg Hl Hs. assert (Hw : sink ∈ w) by by apply last_Some_elem_of.
  destruct (cone_loop_spec g sink (list_to_set w) Hg Hs) with
    (fuel := S (S (length (edges g)))) (c := mkCone [sink] ∅ (list_to_set w)) as (on & Hon & Hx).
  - by apply elem_of_list_to_set.
  - split; cbn.
    + by intros x ->%list_elem_of_singleton.
    + set_solver.
    + set_solver.
    + set_solver.
    + done.
    + right. by left.
  - cbn. unfold pending_edges, dataflow_edges.
    set (f := fun e : CPGEdge => negb _). set (d := fun e : CPGEdge => bool_decide (edge_kind e ∈ _)).
    pose proof (filter_length_le f (List.filter d (edges g))).
    pose proof (filter_length_le d (edges g)). lia.
  - exists on. split; [done|]. intros x. by rewrite Hx, elem_of_list_to_set.
Qed.

(** ** Copies *)

Definition set_id (i : Z) (n : CPGNode) : CPGNode :=
  mkNode i (kind n) (operator_or_literal n) (resolved_fqn n) (enclosing_decl_fqn n) (structural_path n).

Lemma index_of_app_l (l k : list Z) x : x ∈ l -> index_of x (l ++ k) = index_of x l.
Proof.
  induction l as [|y l IH]; [by intros ?%elem_of_nil|]. intros Hx. cbn.
  destruct (decide (x = y)); [done|]. rewrite IH; [done|]. by apply elem_of_cons in Hx as [?|?].
Qed.

Lemma rank_app_l l k x : x ∈ l -> rank (l ++ k) x = rank l x.
Proof. intros Hx. unfold rank. by rewrite index_of_app_l. Qed.

Lemma rank_snoc l x : x ∉ l -> rank (l ++ [x]) x = len l.
Proof.
  intros Hx. unfold rank. cut (index_of x (l ++ [x]) = Some (length l)); [by intros ->|].
  induction l as [|y l IH]; cbn; [by rewrite decide_True|].
  apply not_elem_of_cons in Hx as [H1 H2]. rewrite decide_False by done. by rewrite IH.
Qed.

Section copy_fold.
Context {X : Type} (key : X -> Z) (F : X -> CPGNode).

Definition copied (xs : list X) : CPG * gmap Z Z :=
  fold_left (fun acc x => copy_node (operator_or_literal (F x)) (F x) acc (key x)) xs (empty_cpg, ∅).

Lemma copy_fold xs : NoDup (map key xs) ->
  (copied xs).1 = mkCPG (map (fun x => set_id (rank (map key xs) (key x)) (F x)) xs) [] /\
  (forall k i, (copied xs).2 !! k = Some i <-> k ∈ map key xs /\ i = rank (map key xs) k).
Proof.
  induction xs as [|x xs IH] using rev_ind; intros Hnd.
  { split; [done|]. intros k i. cbn. rewrite lookup_empty, elem_of_nil. naive_solver. }
  rewrite map_app in Hnd. apply NoDup_app in Hnd as (H1 & H2 & _).
  destruct (IH H1) as [E1 E2]. unfold copied in *. rewrite fold_left_app. cbn [fold_left].
  set (acc := fold_left _ xs _) in *. clearbody acc.
  assert (Hx : key x ∉ map key xs) by (intros Hin; apply (H2 _ Hin); by left).
  unfold copy_node, add_node. cbn [fst snd]. rewrite E1. cbn [nodes edges].
  rewrite !map_app. cbn [map]. split.
  - f_equal. f_equal.
    + apply map_ext_in. intros y Hy%list_elem_of_In. rewrite rank_app_l; [done|].
      by apply list_elem_of_fmap_2.
    + cbn. rewrite rank_snoc by done. unfold len, set_id. by rewrite !length_map.
  - intros k i. rewrite length_map, lookup_insert_Some, E2, elem_of_app, list_elem_of_singleton.
    destruct (decide (k = key x)) as [->|Hne].
    + rewrite rank_snoc by done. unfold len. rewrite length_map. naive_solver.
    + split.
      * intros [[? _]|(_ & Hk & ->)]; [done|]. rewrite rank_app_l by done. auto.
      * intros [[Hk|?] ->]; [|done]. rewrite rank_app_l by done. auto.
Qed.
End copy_fold.

Lemma copy_edges_spec (remap : gmap Z Z) (o : list Z) es : forall g,
  (forall k i, remap !! k = Some i <-> k ∈ o /\ i = rank o k) ->
  (forall e, e ∈ es -> src e ∈ o /\ dst e ∈ o) ->
  foldO (copy_edge remap) g es = Ok (mkCPG (nodes g) (edges g ++ map (rename_edge (rank o)) es)).
Proof.
  induction es as [|e es IH]; intros g Hm He; cbn.
  { rewrite app_nil_r. by destruct g. }
  destruct (He e (list_elem_of_here _ _)) as [Hs Hd]. unfold copy_edge, getitem.
  rewrite (proj2 (Hm (src e) _)) by done. cbn. rewrite (proj2 (Hm (dst e) _)) by done. cbn.
  change (foldO (fun g e => s ⇐ match remap !! src e with Some a => Ok a | None => Raise KeyError end;
    d ⇐ match remap !! dst e with Some a => Ok a | None => Raise KeyError end;
    Ok (add_edge g s d (edge_kind e)))) with (foldO (copy_edge remap)).
  rewrite IH by (done || intros; apply He; by right). cbn. by rewrite <-app_assoc.
Qed.

(** ** The slice *)

(** The node of [g] with an id. *)
Definition node_at (g : CPG) (k : Z) : CPGNode := default (mkNode k [] [] [] [] []) (by_id g !! k).

Definition inside (keep : list Z) (e : CPGEdge) : bool := bool_decide (src e ∈ keep) && bool_decide (dst e ∈ keep).

(** The subgraph induced by [keep], renumbered by position in [keep]. *)
Definition induced (g : CPG) (keep : list Z) : CPG :=
  mkCPG (map (fun k => set_id (rank keep k) (node_at g k)) keep)
        (map (rename_edge (rank keep)) (List.filter (inside keep) (edges g))).

Lemma nodes_by_id_lookup g k : NoDup (ids g) -> k ∈ ids g -> nodes_by_id g !! k = Some (node_at g k).
Proof.
  intros Hnd Hk. destruct (by_id_Some g k Hk) as (nd & Hnd' & <- & E). unfold node_at. rewrite E. cbn.
  unfold nodes_by_id. apply py_dict_lookup.
  - rewrite <-list_fmap_compose. done.
  - apply list_elem_of_fmap. eauto.
Qed.

Lemma nodes_by_id_is_Some g k : is_Some (nodes_by_id g !! k) <-> k ∈ ids g.
Proof. unfold nodes_by_id. rewrite py_dict_lookup_is_Some, <-list_fmap_compose. done. Qed.

Lemma slice_nodes_spec g keep : NoDup (ids g) -> (forall x, x ∈ keep -> x ∈ ids g) ->
  forall acc, foldO (slice_node (nodes_by_id g)) acc keep =
  Ok (fold_left (fun acc x => copy_node (operator_or_literal (node_at g x)) (node_at g x) acc x) keep acc).
Proof.
  intros Hnd. induction keep as [|k keep IH]; intros Hk acc; cbn; [done|].
  unfold slice_node at 1, getitem. rewrite nodes_by_id_lookup by (done || apply Hk; by left). cbn.
  apply IH. intros x Hx. apply Hk. by right.
Qed.

Record slice_of (g : CPG) (w : list Z) (sink : Z) (keep : list Z) : Prop := {
  so_sorted : StronglySorted Z.le keep;
  so_nodup : NoDup keep;
  so_ids x : x ∈ keep -> x ∈ ids g;
  so_elem x : x ∈ keep <-> x ∈ w \/ rtc (depends g) x sink
}.

Lemma slice_spec g w sink :
  valid_cpg g -> last w = Some sink -> (forall x, x ∈ w -> x ∈ ids g) ->
  exists keep, slice_of g w sink keep /\
    _backward_interprocedural_slice g w = Ok (mkSlice (induced g keep) (map (rank keep) w)).
Proof.
  intros Hg Hl Hw. assert (Hs : sink ∈ w) by by apply last_Some_elem_of.
  destruct (slice_cone_spec g w sink Hg Hl (Hw _ Hs)) as (on & Hon & Hx).
  set (keep := py_sorted Z.leb (elements on)).
  assert (Hk : forall x, x ∈ keep <-> x ∈ on).
  { intros x. unfold keep. rewrite py_sorted_elem. apply elem_of_elements. }
  assert (Hi : forall x, x ∈ keep -> x ∈ ids g).
  { intros x [?|Hr]%Hk%Hx; [auto|]. apply rtc_inv in Hr as [->|(y & Hy & _)]; [auto|].
    by destruct (depends_ids g Hg _ _ Hy). }
  assert (Hnd : NoDup keep) by (unfold keep; rewrite py_sorted_perm; apply NoDup_elements).
  exists keep. split.
  { split; [|done|done|intros x; by rewrite Hk]. pose proof (py_sorted_sorted Z.leb (elements on)) as Hss.
    fold keep in Hss. revert Hss. generalize keep. clear. intros l. induction 1 as [|x l H1 IH H2]; constructor; [done|].
    eapply Forall_impl; [exact H2|]. intros y Hy. cbn in Hy. lia. }
  unfold _backward_interprocedural_slice. rewrite Hl.
  replace (forallb _ w) with true.
  2:{ symmetry. apply forallb_forall. intros x Hin%list_elem_of_In. apply bool_decide_eq_true, nodes_by_id_is_Some; auto. }
  cbn [negb]. rewrite Hon. cbn [obind]. fold keep. rewrite slice_nodes_spec by (done || apply Hg). cbn [obind].
  destruct (copy_fold id (node_at g) keep) as [E1 E2]; [by rewrite map_id|].
  rewrite map_id in E1, E2. unfold copied, id in E1, E2. set (acc := fold_left _ keep _) in *.
  rewrite (copy_edges_spec _ keep); [|done|].
  2:{ intros e [_ He]%list_elem_of_In%filter_In. apply andb_true_iff in He as [H1 H2].
      by rewrite !Hk, <-(bool_decide_eq_true (src e ∈ on)), <-(bool_decide_eq_true (dst e ∈ on)). }
  cbn [obind]. rewrite (mapO_pure _ (rank keep)).
  2:{ intros x Hin. apply getitem_Ok, E2. split; [|done]. apply Hk, Hx. by left. }
  cbn [obind]. rewrite E1. unfold induced. cbn [nodes edges app]. do 4 f_equal.
  apply filter_ext. intros e. unfold inside. f_equal; apply bool_decide_ext; by rewrite Hk.
Qed.

Lemma slice_refuses g w sink x : last w = Some sink -> x ∈ w -> x ∉ ids g ->
  _backward_interprocedural_slice g w = Raise WitnessNotInCPG.
Proof.
  intros Hl Hx Hn. unfold _backward_interprocedural_slice. rewrite Hl.
  replace (forallb _ w) with false; [done|]. symmetry. apply not_true_iff_false.
  rewrite forallb_forall. intros H. apply list_elem_of_In in Hx.
  by apply H, bool_decide_eq_true, nodes_by_id_is_Some in Hx.
Qed.

Lemma slice_Ok g w s : valid_cpg g -> _backward_interprocedural_slice g w = Ok s ->
  exists sink keep, last w = Some sink /\ slice_of g w sink keep /\
    s = mkSlice (induced g keep) (map (rank keep) w).
Proof.
  intros Hg H. destruct (last w) as [sink|] eqn:Hl.
  2:{ unfold _backward_interprocedural_slice in H. by rewrite Hl in H. }
  destruct (decide (Forall (fun x => x ∈ ids g) w)) as [Hw|Hw].
  - rewrite Forall_forall in Hw. destruct (slice_spec g w sink Hg Hl Hw) as (keep & Hk & E).
    rewrite E in H. injection H as <-. by exists sink, keep.
  - apply not_Forall_Exists in Hw; [|apply _]. apply Exists_exists in Hw as (x & Hx & Hn).
    by rewrite (slice_refuses g w sink x) in H.
Qed.

(** The backward slice is exact.  On a valid graph the slice of a
    non-empty witness of existing nodes is the subgraph induced by the witness
    and every node from which its last node, the sink, is reachable along CFG,
    CALL and PDG edges, renumbered in the order of the ids, with the witness
    renumbered the same way; an empty witness and a witness with an unknown
    node are refused. *)
Theorem backward_slice_exact g w :
  valid_cpg g ->
  match last w with
  | None => _backward_interprocedural_slice g w = Raise EmptyWitness
  | Some sink =>
      ((exists x, x ∈ w /\ x ∉ ids g) -> _backward_interprocedural_slice g w = Raise WitnessNotInCPG) /\
      ((forall x, x ∈ w -> x ∈ ids g) -> exists keep, slice_of g w sink keep /\
        _backward_interprocedural_slice g w = Ok (mkSlice (induced g keep) (map (rank keep) w)))
  end.
Proof.
  intros Hg. destruct (last w) as [sink|] eqn:Hl.
  - split; [|by apply slice_spec]. intros (x & Hx & Hn). by apply (slice_refuses g w sink x).
  - unfold _backward_interprocedural_slice. by rewrite Hl.
Qed.
