(* ===== verification/SliceIdentity.v ===== *)
(** * What the slice fingerprint identifies ([analysis/fingerprint.py])

    The strong fingerprint is a function of the slice up to isomorphism and up
    to the names of its identifiers; only strong fingerprints are eligible for
    suppression; a package rename can change the strong fingerprint. *)
From stdpp Require Import base tactics list gmap sets relations strings.
From Stdlib Require Import ZArith QArith Lia Sorted.
From S2P Require Import Prelude PyData PyDict Sha256 Budget Cpg GraphSpec Ordering RefineSpec SearchSpec.
From S2P Require Import Canonical Fingerprint.

Open Scope Z_scope.
Open Scope budget_scope.
Open Scope py_scope.

(** ** Graphs numbered from zero are copied as they are *)

Definition map_nodes (f : CPGNode -> CPGNode) (g : CPG) : CPG := mkCPG (map f (nodes g)) (edges g).

Definition with_name (rename : CPGNode -> pystr) (n : CPGNode) : CPGNode :=
  mkNode (node_id n) (kind n) (rename n) (resolved_fqn n) (enclosing_decl_fqn n) (structural_path n).

(** The graph with the names of its identifiers erased. *)
Definition anon (g : CPG) : CPG := map_nodes (with_name anonymous_name) g.

Definition qualified (n : CPGNode) : CPGNode :=
  mkNode (node_id n) (kind n) (operator_or_literal n) (_norm_fqn (resolved_fqn n))
    (_norm_fqn (enclosing_decl_fqn n)) (structural_path n).

(** Ids are positions, and edges join nodes: the graphs the builder makes. *)
Record numbered (g : CPG) : Prop := {
  nu_ids : ids g = map Z.of_nat (seq 0 (length (nodes g)));
  nu_ends e : e ∈ edges g -> src e ∈ ids g /\ dst e ∈ ids g
}.

Lemma ids_map_nodes f g : (forall n, node_id (f n) = node_id n) -> ids (map_nodes f g) = ids g.
Proof. intros Hf. unfold ids, map_nodes. cbn. rewrite map_map. by apply map_ext. Qed.

Lemma numbered_map_nodes f g : (forall n, node_id (f n) = node_id n) -> numbered g -> numbered (map_nodes f g).
Proof.
  intros Hf [H1 H2]. split.
  - rewrite ids_map_nodes by done. unfold map_nodes. cbn. by rewrite length_map.
  - intros e He. rewrite ids_map_nodes by done. by apply H2.
Qed.

Lemma rank_seq n x : x ∈ map Z.of_nat (seq 0 n) -> rank (map Z.of_nat (seq 0 n)) x = x.
Proof.
  intros (i & -> & Hi)%list_elem_of_fmap. apply elem_of_seq in Hi. unfold rank.
  erewrite index_of_lookup; [done| |].
  - apply NoDup_fmap_2; [|apply NoDup_seq]. intros a b E. lia.
  - change (map Z.of_nat) with (fmap (M:=list) Z.of_nat). rewrite list_lookup_fmap, lookup_seq_lt by lia. done.
Qed.

Lemma numbered_nodup g : numbered g -> NoDup (ids g).
Proof. intros [-> _]. apply NoDup_fmap_2; [|apply NoDup_seq]. intros a b E. lia. Qed.

Lemma numbered_rank g x : numbered g -> x ∈ ids g -> rank (ids g) x = x.
Proof. intros [-> _]. apply rank_seq. Qed.

Lemma set_id_id n : set_id (node_id n) n = n.
Proof. by destruct n. Qed.

Lemma rename_ids g e : numbered g -> e ∈ edges g -> rename_edge (rank (ids g)) e = e.
Proof.
  intros Hg He. destruct (nu_ends g Hg e He). unfold rename_edge. rewrite !numbered_rank by done. by destruct e.
Qed.

Lemma numbered_copy f g : (forall n, node_id (f n) = node_id n) -> numbered g ->
  let acc := copied node_id f (nodes g) in
  _copy_edges g acc.1 acc.2 = Ok (map_nodes f g) /\
  (forall k i, acc.2 !! k = Some i <-> k ∈ ids g /\ i = k).
Proof.
  intros Hf Hg acc. destruct (copy_fold node_id f (nodes g) (numbered_nodup g Hg)) as [E1 E2].
  fold (ids g) in E1, E2. fold acc in E1, E2. split.
  - unfold _copy_edges. rewrite (copy_edges_spec _ (ids g)) by (done || apply Hg). rewrite E1.
    cbn [nodes edges app]. unfold map_nodes. do 2 f_equal.
    + apply map_ext_in. intros n Hn%list_elem_of_In. rewrite numbered_rank, <-(Hf n); [apply set_id_id|done|].
      by apply list_elem_of_fmap_2.
    + rewrite (map_ext_in _ id), map_id; [done|]. intros e He%list_elem_of_In. by apply rename_ids.
  - intros k i. rewrite E2. split; intros [Hk ->]; (split; [done|]); by rewrite numbered_rank.
Qed.

Lemma copy_graph_numbered g rename : numbered g ->
  exists remap, copy_graph g rename = Ok (map_nodes (with_name rename) g, remap) /\
  (forall k i, remap !! k = Some i <-> k ∈ ids g /\ i = k).
Proof.
  intros Hg. destruct (numbered_copy (with_name rename) g) as [E1 E2]; [done..|].
  exists (_copy_nodes g rename).2. split; [|exact E2]. unfold copy_graph.
  change (_copy_nodes g rename) with (copied node_id (with_name rename) (nodes g)). by rewrite E1.
Qed.

Lemma fqn_normalise_numbered g : numbered g -> _fqn_normalise g = Ok (map_nodes qualified g).
Proof. intros Hg. by destruct (numbered_copy qualified g) as [E1 _]. Qed.

Lemma induced_numbered g keep : NoDup keep -> numbered (induced g keep).
Proof.
  intros Hnd. assert (E : ids (induced g keep) = map Z.of_nat (seq 0 (length keep))).
  { unfold ids, induced. cbn. rewrite map_map. cbn. apply list_eq. intros i.
    change (map ?f ?l) with (f <$> l). rewrite !list_lookup_fmap.
    destruct (keep !! i) as [k|] eqn:Ek; cbn.
    - rewrite lookup_seq_lt by (by eapply lookup_lt_Some). cbn. unfold rank. by erewrite index_of_lookup.
    - rewrite lookup_seq_ge; [done|]. by apply lookup_ge_None. }
  split; [rewrite E; unfold induced; cbn; by rewrite length_map|].
  intros e. unfold induced at 1. cbn [edges]. intros (e' & -> & He)%list_elem_of_fmap.
  apply list_elem_of_In, filter_In in He as [_ Hi]. apply andb_true_iff in Hi as [H1 H2].
  apply bool_decide_eq_true in H1, H2. unfold ids, induced. cbn. rewrite map_map. cbn.
  split; by apply list_elem_of_fmap_2.
Qed.

(** ** The numbering of identifiers *)

Lemma node_find g n : numbered g -> n ∈ ids g ->
  exists nd, _node g n = Ok nd /\ nd ∈ nodes g /\ node_id nd = n.
Proof.
  intros Hg Hn. unfold _node. destruct (List.find _ (nodes g)) as [nd|] eqn:E.
  - apply find_some in E as [E1 E2%Z.eqb_eq]. exists nd. by rewrite list_elem_of_In.
  - apply list_elem_of_fmap in Hn as (nd & -> & Hnd%list_elem_of_In).
    pose proof (find_none _ _ E nd Hnd) as H. cbn in H. lia.
Qed.

Definition named_at (g : CPG) (n : Z) : bool :=
  match _node g n with Ok nd => is_identifier nd | Raise _ => false end.

Lemma named_at_node g nd : NoDup (ids g) -> nd ∈ nodes g -> named_at g (node_id nd) = is_identifier nd.
Proof.
  intros Hnd Hin. unfold named_at, _node. destruct (List.find _ (nodes g)) as [nd'|] eqn:E.
  - apply find_some in E as [E1%list_elem_of_In E2%Z.eqb_eq]. f_equal.
    apply list_elem_of_lookup in Hin as [i Hi], E1 as [j Hj].
    assert (i = j) as ->; [|congruence].
    eapply NoDup_lookup; [exact Hnd| |]; unfold ids; change (map node_id) with (fmap (M:=list) node_id);
      rewrite list_lookup_fmap; [by rewrite Hi|by rewrite Hj; cbn; rewrite E2].
  - apply list_elem_of_In in Hin. pose proof (find_none _ _ E nd Hin) as H. cbn in H. lia.
Qed.

Definition number_step (g : CPG) (acc : gmap Z Z * Z) (n : Z) : gmap Z Z * Z :=
  if named_at g n then (<[n := acc.2]> acc.1, acc.2 + 1) else acc.

(** The counters of the identifiers along an order. *)
Definition numbering (g : CPG) (order : list Z) : gmap Z Z := (fold_left (number_step g) order (∅, 0)).1.

Lemma count_locals g order : numbered g -> (forall n, n ∈ order -> n ∈ ids g) -> forall acc,
  foldO (count_local g) acc order = Ok (fold_left (number_step g) order acc).
Proof.
  intros Hg. induction order as [|n order IH]; intros Ho acc; cbn; [done|].
  destruct (node_find g n Hg) as (nd & E & _); [apply Ho; by left|].
  unfold count_local at 1, number_step at 2, named_at. rewrite E. cbn. apply IH. intros m Hm. apply Ho. by right.
Qed.

(** Corresponding orders number corresponding identifiers alike. *)
Lemma numbering_follows g h q I order : inj_on q I ->
  (forall n, n ∈ order -> n ∈ I) -> (forall n, n ∈ order -> named_at h (q n) = named_at g n) ->
  forall n, n ∈ I -> numbering h (map q order) !! q n = numbering g order !! n.
Proof.
  intros Hq Ho Hi. unfold numbering.
  cut (forall a a', a'.2 = a.2 -> (forall n, n ∈ I -> a'.1 !! q n = a.1 !! n) ->
    forall n, n ∈ I -> (fold_left (number_step h) (map q order) a').1 !! q n = (fold_left (number_step g) order a).1 !! n).
  { intros H. apply H; [done|]. intros n _. cbn. by rewrite !lookup_empty. }
  induction order as [|m order IH]; intros a a' E2 E1; cbn; [done|].
  apply IH; [intros; apply Ho; by right|intros; apply Hi; by right|..];
    unfold number_step; rewrite Hi by left; destruct (named_at g m); cbn; try done; [lia|].
  intros n Hn. destruct (decide (n = m)) as [->|Hne].
  - by rewrite !lookup_insert_eq, E2.
  - rewrite !lookup_insert_ne; [by apply E1|done|]. intros E. apply Hne. symmetry.
    apply Hq; [apply Ho; by left|done|done].
Qed.

Lemma numbering_Some g order n : is_Some (numbering g order !! n) <-> n ∈ order /\ named_at g n = true.
Proof.
  unfold numbering. cut (forall a, is_Some ((fold_left (number_step g) order a).1 !! n) <->
    (n ∈ order /\ named_at g n = true) \/ is_Some (a.1 !! n)).
  { intros H. rewrite H. cbn. rewrite lookup_empty. split; [intros [?|[? ?]]; done|by left]. }
  induction order as [|m order IH]; intros a; cbn.
  { rewrite elem_of_nil. naive_solver. }
  rewrite IH, elem_of_cons. unfold number_step. destruct (named_at g m) eqn:Em; cbn.
  - destruct (decide (n = m)) as [->|Hne]; [rewrite lookup_insert_eq|rewrite lookup_insert_ne by done]; naive_solver.
  - split; [naive_solver|]. intros [[[->|?] ?]|?]; [congruence|auto|auto].
Qed.

(** The normal form of a slice whose identifiers are numbered along [order]. *)
Definition normal_form (g : CPG) (order : list Z) : CPG :=
  map_nodes qualified (map_nodes (with_name (local_name (numbering g order))) g).

(** [node_key] after numbering and normalisation, from the key before. *)
Definition normal_key (counter : gmap Z Z) (k : Z * list pystr) : Z * list pystr :=
  (k.1, match k.2 with
        | [kd; op; fqn; encl] =>
            [kd; match counter !! k.1 with Some i => str "%local" ++ decimal i | None => op end;
             _norm_fqn fqn; _norm_fqn encl]
        | l => l
        end).

Lemma normal_form_key g order q counter n :
  NoDup (ids g) -> ids g ≡ₚ order -> n ∈ nodes g ->
  (forall m, m ∈ ids g -> counter !! q m = numbering g order !! m) ->
  node_key q (qualified (with_name (local_name (numbering g order)) n)) =
  normal_key counter (node_key q (with_name anonymous_name n)).
Proof.
  intros Hnd Ho Hn Hc. assert (Hid : node_id n ∈ ids g) by by apply list_elem_of_fmap_2.
  unfold node_key, normal_key. cbn. rewrite Hc by done. unfold label_texts. cbn. do 2 f_equal.
  unfold local_name, anonymous_name. destruct (numbering g order !! node_id n) eqn:E; [done|].
  destruct (is_identifier n) eqn:Ei; [|done]. destruct (proj2 (numbering_Some g order (node_id n))) as [? E'].
  - split; [by rewrite <-Ho|]. by rewrite named_at_node.
  - by rewrite E in E'.
Qed.

Lemma normal_form_iso g h q order :
  NoDup (ids g) -> NoDup (ids h) -> ids g ≡ₚ order -> cpg_iso q (anon g) (anon h) ->
  cpg_iso q (normal_form g order) (normal_form h (map q order)).
Proof.
  intros Hg Hh Ho Hiso. pose proof (cpg_iso_ids _ _ _ Hiso) as Hids. destruct Hiso as [Hi Hn He].
  unfold anon in Hi, Hids. rewrite ids_map_nodes in Hi, Hids by done. rewrite ids_map_nodes in Hids by done.
  assert (Hkey : forall n, n ∈ nodes g -> named_at h (q (node_id n)) = is_identifier n).
  { intros n Hin. assert (Hk : node_key q (with_name anonymous_name n) ∈ map (node_key id) (nodes (anon h))).
    { rewrite <-Hn. apply list_elem_of_fmap_2, list_elem_of_fmap_2. done. }
    apply list_elem_of_fmap in Hk as (n' & E & Hn'). apply list_elem_of_fmap in Hn' as (n'' & -> & Hn'').
    unfold node_key, label_texts in E. cbn in E. injection E as E1 E2 _ _ _. rewrite E1. unfold id.
    rewrite named_at_node by done. unfold is_identifier. by rewrite E2. }
  assert (Hnum : forall n, n ∈ ids g -> numbering h (map q order) !! q n = numbering g order !! n).
  { apply numbering_follows; [done|by intros n; rewrite <-Ho|].
    intros n Hin. rewrite <-Ho in Hin. apply list_elem_of_fmap in Hin as (nd & -> & Hnd).
    rewrite Hkey, named_at_node by done. done. }
  split.
  - unfold normal_form. rewrite !ids_map_nodes by done. done.
  - unfold normal_form, map_nodes. cbn [nodes]. rewrite !map_map.
    rewrite (map_ext_in _ (fun n => normal_key (numbering h (map q order)) (node_key q (with_name anonymous_name n))))
      by (intros n Hin%list_elem_of_In; by apply normal_form_key).
    rewrite (map_ext_in (fun n => node_key id _) (fun n => normal_key (numbering h (map q order)) (node_key id (with_name anonymous_name n)))).
    2:{ intros n Hin%list_elem_of_In. apply normal_form_key; [done|by rewrite <-Hids, Ho|done|done]. }
    unfold anon, map_nodes in Hn. cbn [nodes] in Hn. rewrite !map_map in Hn.
    apply (Permutation_map (normal_key (numbering h (map q order)))) in Hn. by rewrite !map_map in Hn.
  - done.
Qed.

Lemma numbering_empty g order : existsb is_identifier (nodes g) = false -> numbering g order = ∅.
Proof.
  intros He. apply map_eq. intros n. rewrite lookup_empty. apply eq_None_not_Some. rewrite numbering_Some.
  intros [_ Hn]. unfold named_at, _node in Hn. destruct (List.find _ (nodes g)) as [nd|] eqn:E; [|done].
  apply find_some in E as [E _]. apply not_true_iff_false in He. apply He, existsb_exists. eauto.
Qed.

Lemma unnamed_form g order : existsb is_identifier (nodes g) = false ->
  map_nodes (with_name (local_name (numbering g order))) g = g.
Proof.
  intros He. rewrite numbering_empty by done. unfold map_nodes.
  rewrite (map_ext _ id), map_id; [by destruct g|]. intros n. unfold with_name, local_name.
  rewrite lookup_empty. by destruct n.
Qed.

(** ** Code that leaves the state counter alone *)

Definition quiet {A} (m : M A) : Prop := forall c b,
  state_limit (snd (m c b)) = state_limit b /\ search_states (snd (m c b)) = search_states b.

Lemma quiet_ret {A} (a : A) : quiet (ret a).
Proof. by intros c b. Qed.
Lemma quiet_raise {A} e : quiet (@raise A e).
Proof. by intros c b. Qed.
Lemma quiet_lift {A} (o : outcome A) : quiet (lift o).
Proof. by intros c b. Qed.
Lemma quiet_check : quiet check.
Proof. intros c b. unfold check. by destruct (Qle_bool _ _). Qed.
Lemma quiet_bind {A B} (m : M A) (f : A -> M B) : quiet m -> (forall a, quiet (f a)) -> quiet (bind m f).
Proof.
  intros Hm Hf c b. unfold bind. specialize (Hm c b). destruct (m c b) as [[a|e] b']; cbn in *; [|done].
  destruct (Hf a c b') as [-> ->]. done.
Qed.
Lemma quiet_mapM {A B} (f : A -> M B) l : (forall x, quiet (f x)) -> quiet (mapM f l).
Proof. intros Hf. induction l; cbn; [apply quiet_ret|]. repeat (apply quiet_bind; [done|intros]). apply quiet_ret. Qed.
Lemma quiet_foldM {A S} (f : S -> A -> M S) l : (forall s x, quiet (f s x)) -> forall s, quiet (foldM f s l).
Proof. intros Hf. induction l; intros s; cbn; [apply quiet_ret|]. apply quiet_bind; auto. Qed.
#[local] Hint Resolve quiet_ret quiet_raise quiet_lift quiet_check : scanipy.

Ltac quiet_auto :=
  repeat (cbv zeta; first
    [ progress intros | solve [auto with scanipy nocore]
    | apply quiet_bind | apply quiet_mapM | apply quiet_foldM | case_match ]).

Lemma quiet_u64 v : quiet (_u64 v).
Proof. unfold _u64. quiet_auto. Qed.
Lemma quiet_encode s : quiet (py_encode s).
Proof. unfold py_encode. quiet_auto. Qed.
#[local] Hint Resolve quiet_u64 quiet_encode : scanipy.
Lemma quiet_text s : quiet (_text s).
Proof. unfold _text. quiet_auto. Qed.
#[local] Hint Resolve quiet_text : scanipy.
Lemma quiet_validate b g : quiet (validate_cpg b g).
Proof. unfold validate_cpg, forM, validate_node, validate_edge, check_if, _label. quiet_auto. Qed.
Lemma quiet_source_hash g w d : quiet (_source_witness_hash g w d).
Proof. unfold _source_witness_hash, add_adjacency. quiet_auto. Qed.

(** ** Completed strong runs *)

Definition affordable (b : CanonicalizationBudget) : Prop := search_states b <= state_limit b.

Lemma quiet_affordable {A} (m : M A) c b r b' : quiet m -> m c b = (r, b') -> affordable b -> affordable b'.
Proof. intros Hm E. unfold affordable. destruct (Hm c b) as [H1 H2]. rewrite E in H1, H2. cbn in *. by rewrite H1, H2. Qed.

Lemma order_with_strong g c b r b' :
  affordable b -> canonical_order_with g c b = (Ok r, b') ->
  valid_cpg g /\ sized g /\ affordable b' /\
  (fingerprint_class r = strong -> canonical_order_of r = (best g).2).
Proof.
  intros Hb E. destruct (canonical_order_with_Ok _ _ _ _ _ E) as [Hv Hs]. split_and!; [done..| |];
    destruct (canonical_order_with_spec g Hv Hs c b Hb) as [H|(el & H & HL & Hn)]; rewrite E in *; cbn [fst snd] in *;
    try done; injection H as ->; unfold affordable, expected, is_strong in *.
  - rewrite HL, Hn. destruct (Z.leb_spec (search_states b + Z.of_nat (tree g).2) (state_limit b)); lia.
  - cbn. by destruct (_ <=? _).
Qed.

(** The order along which the identifiers of a slice are numbered. *)
Definition local_order (g : CPG) : list Z :=
  if existsb is_identifier (nodes g) then (best (anon g)).2 else ids g.

Lemma alpha_Ok g c b n b' :
  numbered g -> affordable b -> _alpha_rename_locals g c b = (Ok n, b') ->
  affordable b' /\ n = map_nodes (with_name (local_name (numbering g (local_order g)))) g /\
  (existsb is_identifier (nodes g) = true -> valid_cpg (anon g) /\ sized (anon g)).
Proof.
  intros Hg Hb H. unfold _alpha_rename_locals in H. unfold local_order.
  destruct (existsb is_identifier (nodes g)) eqn:He; cbn [negb] in H.
  2:{ injection H as <- <-. by rewrite unnamed_form. }
  destruct (copy_graph_numbered g anonymous_name Hg) as (remap & Ec & Hremap).
  unfold lift in H. rewrite Ec in H. unfold bind in H at 1. cbn [fst] in H.
  fold (anon g) in H. bind_inv. apply order_with_strong in Hrun as (Hv & Hs & Hb' & Ho); [|done].
  destruct (bool_decide (fingerprint_class a = strong)) eqn:Ek; [|done]. apply bool_decide_eq_true in Ek.
  cbn [negb] in H. rewrite (Ho Ek) in H. destruct (best_sound (anon g) Hv Hs) as [Hperm _].
  unfold anon in Hperm at 2. rewrite ids_map_nodes in Hperm by done.
  assert (Hin : forall x, x ∈ (best (anon g)).2 -> x ∈ ids g) by (intros x; by rewrite Hperm).
  set (inverse := py_dict _) in H.
  assert (Hinv : forall x, x ∈ ids g -> inverse !! x = Some x).
  { intros x Hx. apply py_dict_lookup.
    - rewrite <-list_fmap_compose. apply NoDup_fmap_2_strong; [|apply NoDup_map_to_list].
      intros [k i] [k' i'] H1%elem_of_map_to_list H2%elem_of_map_to_list. cbn.
      apply Hremap in H1 as [_ ->], H2 as [_ ->]. by intros ->.
    - apply list_elem_of_fmap. exists (x, x). split; [done|]. by apply elem_of_map_to_list, Hremap. }
  rewrite (mapO_pure _ id) in H by (intros x Hx; apply getitem_Ok; auto).
  unfold bind in H at 1. rewrite map_id in H.
  rewrite count_locals in H by done. unfold bind in H at 1.
  destruct (copy_graph_numbered g (local_name (numbering g (best (anon g)).2)) Hg) as (remap' & Ec' & _).
  unfold numbering in Ec'. rewrite Ec' in H. unfold bind, ret in H. injection H as <- <-. done.
Qed.

Lemma check_Ok c b r b' : check c b = (Ok r, b') -> affordable b -> affordable b'.
Proof. intros E. eapply quiet_affordable; [apply quiet_check|exact E]. Qed.

Lemma normalise_Ok g c b n b' :
  numbered g -> affordable b -> _normalise g c b = (Ok n, b') ->
  affordable b' /\ n = normal_form g (local_order g) /\
  (existsb is_identifier (nodes g) = true -> valid_cpg (anon g) /\ sized (anon g)).
Proof.
  intros Hg Hb H. unfold _normalise, _drop_pdg_only_formatting, _canonical_topo_sort,
    _summary_inline_pure_extract in H. bind_inv.
  apply check_Ok in Hrun; [|done]. apply alpha_Ok in Hrun0 as (Hb' & -> & Hv); [|done..].
  apply check_Ok in Hrun1; [|done]. apply check_Ok in Hrun2; [|done].
  apply check_Ok in Hrun3; [|done]. apply check_Ok in Hrun4; [|done].
  unfold lift in H. rewrite fqn_normalise_numbered in H by by apply numbered_map_nodes.
  injection H as <- <-. done.
Qed.

(** A completed strong path hashes the best encoding of the normal form. *)
Lemma strong_path_Ok g c b fp k ns b' :
  numbered g -> affordable b -> strong_path g c b = (Ok (fp, k, ns), b') ->
  let n := normal_form g (local_order g) in
  k = strong /\ ns = SLICE_IDENTITY_NAMESPACE /\ valid_cpg n /\ sized n /\
  fp = sha256 (slice_strong_domain ++ (best n).1) /\
  (existsb is_identifier (nodes g) = true -> valid_cpg (anon g) /\ sized (anon g)).
Proof.
  intros Hg Hb H n. unfold strong_path in H. bind_inv.
  apply normalise_Ok in Hrun as (Hb' & -> & Hv); [|done..]. fold n in Hrun0, H.
  apply order_with_strong in Hrun0 as (Hvn & Hsn & _ & Ho); [|done].
  destruct (bool_decide (fingerprint_class a0 = weak)) eqn:Ek; [done|].
  assert (Hk : fingerprint_class a0 = strong).
  { apply bool_decide_eq_false in Ek. by destruct (fingerprint_class a0). }
  rewrite (Ho Hk) in H. destruct (best_sound n Hvn Hsn) as [Hp Hc].
  apply bind_Ok in H as (x & b2 & H & Hret). injection Hret as <- <- <- _.
  apply bind_Ok in H as (e & b3 & He & Hret). injection Hret as <- _.
  pose proof (yields_encode_graph true n (best n).2 Hvn Hsn (symmetry Hp)) as Hy.
  destruct (Hy _ _ c b1 eq_refl eq_refl) as [E|[E _]]; rewrite He in E; cbn in E; [done|].
  injection E as ->. by rewrite Hc.
Qed.

(** ** Isomorphic graphs have isomorphic slices *)

Section iso_slices.
Context (p : Z -> Z) (g h : CPG).
Hypothesis Hg : valid_cpg g.
Hypothesis Hh : valid_cpg h.
Hypothesis Hiso : cpg_iso p (anon g) (anon h).

Lemma anon_inj : inj_on p (ids g).
Proof. pose proof (ci_inj _ _ _ Hiso) as H. unfold anon in H. by rewrite ids_map_nodes in H. Qed.

Lemma anon_ids : map p (ids g) ≡ₚ ids h.
Proof. pose proof (cpg_iso_ids _ _ _ Hiso) as H. unfold anon in H. by rewrite !ids_map_nodes in H. Qed.

Lemma edges_image : map (rename_edge p) (edges g) ≡ₚ edges h.
Proof. apply (ci_edges _ _ _ Hiso). Qed.

Lemma valid_ends e : e ∈ edges g -> src e ∈ ids g /\ dst e ∈ ids g.
Proof. intros He. destruct Hg as [_ _ Hv]. rewrite Forall_forall in Hv. by destruct (Hv e He). Qed.

Lemma depends_image x y : depends g x y -> depends h (p x) (p y).
Proof.
  intros (e & He & Hk & <- & <-). exists (rename_edge p e). split; [|done].
  rewrite <-edges_image. by apply list_elem_of_fmap_2.
Qed.

Lemma depends_image_inv x' y : y ∈ ids g -> depends h x' (p y) -> exists x, x' = p x /\ depends g x y.
Proof.
  intros Hy (e & He & Hk & <- & Hd). rewrite <-edges_image in He. apply list_elem_of_fmap in He as (e' & -> & He).
  exists (src e'). split; [done|]. exists e'. split_and!; [done..|]. cbn in Hd.
  apply anon_inj; [by apply valid_ends|done|done].
Qed.

Lemma reach_image x y : rtc (depends g) x y -> rtc (depends h) (p x) (p y).
Proof. induction 1 as [|x y z Hxy _ IH]; [done|]. eapply rtc_l; [by apply depends_image|done]. Qed.

Lemma reach_image_inv sink x' : sink ∈ ids g -> rtc (depends h) x' (p sink) ->
  exists x, x' = p x /\ x ∈ ids g /\ rtc (depends g) x sink.
Proof.
  intros Hs. apply (rtc_ind_l (fun x' => exists x, x' = p x /\ x ∈ ids g /\ rtc (depends g) x sink)).
  - by exists sink.
  - intros x1 y1 Hxy _ (y & -> & Hy & Hr). apply depends_image_inv in Hxy as (x & -> & Hd); [|done].
    exists x. split_and!; [done|by destruct (depends_ids g Hg _ _ Hd)|by eapply rtc_l].
Qed.

Lemma keep_image w sink keep keep' :
  last w = Some sink -> slice_of g w sink keep -> slice_of h (map p w) (p sink) keep' -> map p keep ≡ₚ keep'.
Proof.
  intros Hl K K'. assert (Hw : forall x, x ∈ w -> x ∈ ids g).
  { intros x Hx. apply (so_ids _ _ _ _ K), (so_elem _ _ _ _ K). by left. }
  assert (Hs : sink ∈ ids g) by (apply Hw; by apply last_Some_elem_of).
  apply NoDup_Permutation; [|apply K'|].
  - apply NoDup_fmap_2_strong; [|apply K]. intros x y Hx Hy.
    apply anon_inj; by apply (so_ids _ _ _ _ K).
  - intros x'. rewrite (so_elem _ _ _ _ K' x'), list_elem_of_fmap. split.
    + intros (x & -> & [Hx|Hx]%(so_elem _ _ _ _ K)); [left; by apply list_elem_of_fmap_2|right; by apply reach_image].
    + intros [(x & -> & Hx)%list_elem_of_fmap|(x & -> & _ & Hr)%reach_image_inv]; [| |done];
        (exists x; split; [done|]; apply (so_elem _ _ _ _ K)); auto.
Qed.

(** The correspondence of the renumbered slices. *)
Definition slice_map (keep keep' : list Z) (i : Z) : Z := rank keep' (p (default 0 (keep !! Z.to_nat i))).

Lemma slice_map_rank keep keep' k : k ∈ keep -> slice_map keep keep' (rank keep k) = rank keep' (p k).
Proof.
  intros Hk. unfold slice_map, rank at 2. destruct (index_of_elem k keep Hk) as [i Hi]. rewrite Hi. cbn.
  apply index_of_lt in Hi as [_ Hi]. by rewrite Nat2Z.id, Hi.
Qed.

Lemma anon_texts k : k ∈ ids g -> label_texts (with_name anonymous_name (node_at h (p k))) =
  label_texts (with_name anonymous_name (node_at g k)).
Proof.
  intros Hk. destruct (by_id_Some g k Hk) as (nd & Hnd & <- & E). unfold node_at at 2. rewrite E. cbn [default from_option id].
  assert (Hin : node_key p (with_name anonymous_name nd) ∈ map (node_key id) (nodes (anon h))).
  { rewrite <-(ci_nodes _ _ _ Hiso). by apply list_elem_of_fmap_2, list_elem_of_fmap_2. }
  apply list_elem_of_fmap in Hin as (n' & E' & Hn'). apply list_elem_of_fmap in Hn' as (nd' & -> & Hnd').
  pose proof (f_equal fst E') as E1. apply (f_equal snd) in E'. cbn in E1. unfold id in E1.
  unfold node_at. rewrite E1, by_id_lookup by (done || apply Hh). symmetry. exact E'.
Qed.

Lemma induced_iso keep keep' :
  (forall x, x ∈ keep -> x ∈ ids g) -> NoDup keep -> map p keep ≡ₚ keep' ->
  cpg_iso (slice_map keep keep') (anon (induced g keep)) (anon (induced h keep')).
Proof.
  intros Hk Hnd Hp. assert (Hin : forall x, x ∈ keep -> p x ∈ keep').
  { intros x Hx. rewrite <-Hp. by apply list_elem_of_fmap_2. }
  assert (Hr : forall x y, x ∈ keep -> y ∈ keep -> rank keep' (p x) = rank keep' (p y) -> x = y).
  { intros x y Hx Hy E. apply rank_inj in E; [|by apply Hin..]. apply anon_inj; auto. }
  split.
  - unfold anon. rewrite ids_map_nodes by done. unfold ids, induced. cbn. rewrite map_map. cbn.
    intros i j (x & -> & Hx)%list_elem_of_fmap (y & -> & Hy)%list_elem_of_fmap.
    rewrite !slice_map_rank by done. intros E. by rewrite (Hr x y).
  - unfold anon, induced, map_nodes. cbn [nodes]. rewrite !map_map.
    set (T := fun k' => (rank keep' k', label_texts (with_name anonymous_name (node_at h k')))).
    transitivity (map T (map p keep)); [|rewrite Hp; done]. rewrite map_map. apply reflexive_eq, map_ext_in.
    intros k Hin'%list_elem_of_In. unfold node_key, T. cbn [node_id with_name set_id].
    rewrite slice_map_rank, anon_texts by auto. done.
  - cbn [edges anon map_nodes induced]. rewrite map_map.
    transitivity (map (rename_edge (rank keep')) (map (rename_edge p) (List.filter (inside keep) (edges g)))).
    + rewrite map_map. apply reflexive_eq, map_ext_in. intros e [_ He]%filter_In.
      apply andb_true_iff in He as [H1%bool_decide_eq_true H2%bool_decide_eq_true].
      unfold rename_edge. cbn. by rewrite !slice_map_rank.
    + apply Permutation_map. rewrite <-(filter_perm _ _ _ edges_image). apply reflexive_eq.
      cut (forall es, (forall e, e ∈ es -> src e ∈ ids g /\ dst e ∈ ids g) ->
        map (rename_edge p) (List.filter (inside keep) es) = List.filter (inside keep') (map (rename_edge p) es)).
      { intros H. apply H, valid_ends. }
      induction es as [|e es IH]; intros He; cbn; [done|].
      replace (inside keep' (rename_edge p e)) with (inside keep e);
        [|destruct (He e) as [H1 H2]; [by left|]; unfold inside; cbn; f_equal; apply bool_decide_ext].
      1: destruct (inside keep e); cbn; rewrite IH; auto; intros; apply He; by right.
      all: split; [apply Hin|]; rewrite <-Hp; intros (x & E & Hx)%list_elem_of_fmap;
        apply anon_inj in E; [by subst|done|by apply Hk].
Qed.
End iso_slices.

(** ** Invariance *)

Definition key_named (k : Z * list pystr) : bool := bool_decide (head k.2 = Some (str "IDENTIFIER")).

Lemma existsb_perm {A} (f : A -> bool) l k : l ≡ₚ k -> existsb f l = existsb f k.
Proof.
  intros Hp. apply eq_true_iff_eq. rewrite !existsb_exists. setoid_rewrite <-list_elem_of_In.
  by setoid_rewrite Hp.
Qed.

Lemma named_iso p g h : cpg_iso p (anon g) (anon h) ->
  existsb is_identifier (nodes g) = existsb is_identifier (nodes h).
Proof.
  intros Hiso. pose proof (existsb_perm key_named _ _ (ci_nodes _ _ _ Hiso)) as H.
  assert (E : forall q k, existsb key_named (map (node_key q) (nodes (anon k))) = existsb is_identifier (nodes k)).
  { intros q k. unfold anon. cbn. rewrite map_map. induction (nodes k) as [|n ns IH]; cbn; [done|].
    rewrite IH. f_equal. unfold key_named, is_identifier. cbn. apply bool_decide_ext. split; congruence. }
  by rewrite !E in H.
Qed.

Lemma normal_forms_iso p g h :
  numbered g -> numbered h -> cpg_iso p (anon g) (anon h) ->
  (existsb is_identifier (nodes g) = true -> valid_cpg (anon g) /\ sized (anon g)) ->
  (existsb is_identifier (nodes h) = true -> valid_cpg (anon h) /\ sized (anon h)) ->
  exists q, cpg_iso q (normal_form g (local_order g)) (normal_form h (local_order h)).
Proof.
  intros Hg Hh Hiso Vg Vh. pose proof (named_iso _ _ _ Hiso) as En. unfold local_order.
  pose proof (numbered_nodup g Hg) as Ng. pose proof (numbered_nodup h Hh) as Nh.
  destruct (existsb is_identifier (nodes g)) eqn:Eg; rewrite <-En.
  - destruct (Vg eq_refl) as [Vg1 Vg2], (Vh (eq_sym En)) as [Vh1 Vh2].
    destruct (tree_iso p (anon g) (anon h)) as [_ Hb]; [done..|].
    destruct (best_sound (anon g)) as [Pg Cg]; [done..|]. destruct (best_sound (anon h)) as [Ph Ch]; [done..|].
    rewrite Cg, Ch in Hb. exists (matching (best (anon g)).2 (best (anon h)).2).
    assert (Hq : cpg_iso (matching (best (anon g)).2 (best (anon h)).2) (anon g) (anon h)).
    { apply aencode_eq_iso; [done..|by symmetry|by symmetry|by symmetry]. }
    unfold anon in Pg at 2, Ph at 2. rewrite ids_map_nodes in Pg, Ph by done.
    rewrite <-(map_matching (best (anon g)).2 (best (anon h)).2) at 2.
    + apply normal_form_iso; [done..|by symmetry|done].
    + by rewrite Pg.
    + rewrite (Permutation_length Pg), (Permutation_length Ph).
      rewrite <-(Permutation_length (anon_ids p g h Hiso)). by rewrite length_map.
  - exists p. assert (Hf : forall o, normal_form h o = map_nodes qualified h).
    { intros o. unfold normal_form. by rewrite unnamed_form. }
    rewrite (Hf (ids h)), <-(Hf (map p (ids g))). by apply normal_form_iso.
Qed.

(** A completed run and its class. *)
Lemma compute_Ok g w B T d c r : _compute g w B T d c = Ok r ->
  valid_cpg g /\ exists s b b1 fp, affordable b /\ _backward_interprocedural_slice g w = Ok s /\
  except_exhausted (strong_path (slice_cpg s)) (weak_path (slice_witness s) fp) c b =
    (Ok (slice_fingerprint r, slice_class r, slice_namespace r), b1) /\
  slice_exhausted r = bool_decide (slice_class r = weak).
Proof.
  unfold _compute, start. intros H. destruct B as [|L| | | |]; try done.
  destruct (Z.leb_spec L 0) as [|HL]; [done|]. destruct (_duration_seconds T) as [dur|]; [|done]. cbn [obind] in H.
  set (b0 := mkBudget _ _ _ _ _) in H. assert (Hb0 : affordable b0) by (unfold affordable; cbn; lia).
  destruct (compute_with g w d c b0) as [v b9] eqn:E. cbn in H. subst v.
  unfold compute_with in E. apply bind_Ok in E as (u & b1 & Ev & E).
  pose proof (quiet_affordable _ _ _ _ _ (quiet_validate true g) Ev Hb0) as Hb1. apply validate_Ok in Ev.
  apply bind_Ok in E as (s & b2 & Es & E). unfold lift in Es. injection Es as Es ->.
  apply bind_Ok in E as (u2 & b3 & Ec & E). apply check_Ok in Ec; [|done].
  apply bind_Ok in E as (fp & b4 & Ef & E).
  assert (Hb4 : affordable b4).
  { eapply quiet_affordable; [|exact Ef|exact Ec]. destruct d; [|apply quiet_ret].
    apply quiet_bind; [apply quiet_source_hash|intros; apply quiet_ret]. }
  apply bind_Ok in E as (found & b5 & Ex & E). split; [done|].
  unfold elapsed_ms, bind at 1 in E. apply bind_Ok in E as (u3 & b6 & _ & E).
  unfold get_search_states, bind, ret in E. injection E as <- _. cbn.
  exists s, b4, b5, fp. destruct found as [[f k] n]. done.
Qed.

Lemma compute_strong g w B T d c r : _compute g w B T d c = Ok r -> slice_class r = strong ->
  valid_cpg g /\ exists sink keep, last w = Some sink /\ slice_of g w sink keep /\
    let s := induced g keep in let n := normal_form s (local_order s) in
    slice_namespace r = SLICE_IDENTITY_NAMESPACE /\ valid_cpg n /\ sized n /\
    slice_fingerprint r = sha256 (slice_strong_domain ++ (best n).1) /\
    (existsb is_identifier (nodes s) = true -> valid_cpg (anon s) /\ sized (anon s)).
Proof.
  intros H Hk. apply compute_Ok in H as (Hg & s & b & b1 & fp & Hb & Hs & Hx & _). split; [done|].
  apply slice_Ok in Hs as (sink & keep & Hl & Hkeep & ->); [|done]. exists sink, keep. split_and!; [done..|].
  cbn [slice_cpg slice_witness] in Hx. unfold except_exhausted in Hx.
  destruct (strong_path (induced g keep) c b) as [[[[f k] n]|e] b2] eqn:E.
  - injection Hx as -> -> -> ->. apply strong_path_Ok in E as (_ & E); [done| |done].
    apply induced_numbered, Hkeep.
  - destruct e; try done. unfold weak_path in Hx. bind_inv. rewrite Hk in Hx. destruct fp; bind_inv; done.
Qed.

(** The slices of corresponding witnesses have isomorphic normal forms. *)
Lemma strong_slices_iso p g h w keep keep' sink sink' :
  valid_cpg g -> valid_cpg h -> cpg_iso p (anon g) (anon h) -> last w = Some sink -> last (map p w) = Some sink' ->
  slice_of g w sink keep -> slice_of h (map p w) sink' keep' ->
  let s := induced g keep in let t := induced h keep' in
  (existsb is_identifier (nodes s) = true -> valid_cpg (anon s) /\ sized (anon s)) ->
  (existsb is_identifier (nodes t) = true -> valid_cpg (anon t) /\ sized (anon t)) ->
  exists q, cpg_iso q (normal_form s (local_order s)) (normal_form t (local_order t)).
Proof.
  intros Hg Hh Hiso Hl Hl' K K' s t Va Va'. change (map p w) with (p <$> w) in Hl'. rewrite fmap_last, Hl in Hl'. injection Hl' as <-.
  pose proof (keep_image p g h Hg Hiso w sink keep keep' Hl K K') as Hp.
  pose proof (induced_iso p g h Hg Hh Hiso keep keep' (so_ids _ _ _ _ K) (so_nodup _ _ _ _ K) Hp) as Hs.
  exact (normal_forms_iso _ _ _ (induced_numbered g keep (so_nodup _ _ _ _ K)) (induced_numbered h keep' (so_nodup _ _ _ _ K')) Hs Va Va').
Qed.

(** C8: the strong slice fingerprint ignores ids, list orders, structural
    paths and the names of local identifiers.  If the graphs with their
    identifier names erased are isomorphic and the isomorphism carries one
    witness to the other, two completed strong runs return the same
    fingerprint, whatever the budgets, the clocks and the source digests
    are. *)
Theorem slice_fingerprint_invariant p g h w B B' T T' d d' c c' r r' :
  cpg_iso p (anon g) (anon h) ->
  _compute g w B T d c = Ok r -> _compute h (map p w) B' T' d' c' = Ok r' ->
  slice_class r = strong -> slice_class r' = strong ->
  slice_fingerprint r' = slice_fingerprint r.
Proof.
  intros Hiso Hr Hr' Hk Hk'.
  destruct (compute_strong _ _ _ _ _ _ _ Hr Hk) as (Hg & sink & keep & Hl & K & _ & Vn & Sn & -> & Va).
  destruct (compute_strong _ _ _ _ _ _ _ Hr' Hk') as (Hh & sink' & keep' & Hl' & K' & _ & Vn' & Sn' & -> & Va').
  destruct (strong_slices_iso p g h w keep keep' sink sink' Hg Hh Hiso Hl Hl' K K' Va Va') as [q Hq].
  by destruct (tree_iso q _ _ Vn Sn Vn' Sn' Hq) as [_ ->].
Qed.

Lemma compute_namespace g w B T d c r : _compute g w B T d c = Ok r ->
  slice_namespace r = match slice_class r, d with
                      | strong, _ => SLICE_IDENTITY_NAMESPACE
                      | weak, None => LEGACY_WITNESS_NAMESPACE
                      | weak, Some _ => SOURCE_WITNESS_NAMESPACE
                      end.
Proof.
  intros H. destruct (slice_class r) eqn:Hk.
  { by destruct (compute_strong _ _ _ _ _ _ _ H Hk) as (_ & ? & ? & _ & _ & ? & _). }
  unfold _compute in H. destruct (start B T c) as [b0|]; [|done]. cbn [obind] in H.
  destruct (compute_with g w d c b0) as [v b9] eqn:E. cbn in H. subst v. unfold compute_with in E. bind_inv.
  cbn in Hk |- *. unfold except_exhausted in Hrun3.
  destruct (strong_path (slice_cpg a0) c b3) as [[v|e] b10] eqn:Es.
  - unfold strong_path in Es. injection Hrun3 as -> ->. bind_inv. destruct (bool_decide _); bind_inv; done.
  - destruct e; try done. unfold weak_path in Hrun3. bind_inv. destruct d; bind_inv; by bind_inv.
Qed.

(** Suppression trusts strong identities only.  For every completed run,
    [eligible_for_baseline_suppression] holds exactly when the class is strong,
    exactly when the search did not exhaust its budget, and the namespace says
    how the fingerprint was made: the slice normal form for a strong one, the
    source-scoped witness for a weak one with a source digest and the legacy
    witness sequence for a weak one without. *)
Theorem suppression_needs_strong g w B T d c r :
  _compute g w B T d c = Ok r ->
  (eligible_for_baseline_suppression r = true <-> slice_class r = strong) /\
  (slice_exhausted r = false <-> slice_class r = strong) /\
  slice_namespace r = match slice_class r, d with
                      | strong, _ => SLICE_IDENTITY_NAMESPACE
                      | weak, None => LEGACY_WITNESS_NAMESPACE
                      | weak, Some _ => SOURCE_WITNESS_NAMESPACE
                      end.
Proof.
  intros H. pose proof (compute_namespace _ _ _ _ _ _ _ H) as Hn.
  apply compute_Ok in H as (_ & _ & _ & _ & _ & _ & _ & _ & He). unfold eligible_for_baseline_suppression.
  rewrite Hn, He. by destruct (slice_class r), d.
Qed.

(** ** A package rename *)

Definition sample_local (i : Z) (k op encl : string) : CPGNode := mkNode i (str k) (str op) [] (str encl) [].

(** Two locals of two packages that flow into one call. *)
Definition two_locals (first_local first_decl : string) : CPG := mkCPG
  [sample_local 10 "IDENTIFIER" first_local first_decl; sample_local 11 "IDENTIFIER" "y" "b.g";
   sample_local 12 "CALL" "exec" "c.h"; sample_local 13 "CALL" "exec" "c.h"]
  [mkEdge 10 12 (str "CFG"); mkEdge 11 12 (str "CFG"); mkEdge 12 13 (str "CFG")].

Definition slice_run (g : CPG) (w : list Z) : outcome SliceFingerprintResult :=
  compute_slice_fingerprint g w (PyInt 100) (PyInt 1) still.

Definition strong_fingerprint (o : outcome SliceFingerprintResult) : option pybytes :=
  match o with
  | Ok r => if bool_decide (slice_class r = strong) then Some (slice_fingerprint r) else None
  | Raise _ => None
  end.

(** A package rename can change the strong fingerprint.  The identifiers
    are numbered in an order that still depends on the unnormalised names, so
    two graphs that differ only in the package of a declaration, and are equal
    once their names are normalised, have distinct strong fingerprints. *)
Theorem package_rename_not_invariant :
  exists g h w f f',
    map_nodes qualified g = map_nodes qualified h /\
    strong_fingerprint (slice_run g w) = Some f /\ strong_fingerprint (slice_run h w) = Some f' /\ f <> f'.
Proof.
  exists (two_locals "x" "a.f"), (two_locals "x" "z.f"), [10; 12].
  do 2 eexists. split_and!; [reflexivity..| | |].
  - vm_compute. reflexivity.
  - vm_compute. reflexivity.
  - refine (bool_decide_unpack _ _). vm_compute. exact I.
Qed.

(** ** Witnesses *)

Lemma two_locals_strong : exists f, strong_fingerprint (slice_run (two_locals "x" "a.f") [10; 12]) = Some f.
Proof. eexists. vm_compute. reflexivity. Qed.
Lemma renamed_local_strong : exists f, strong_fingerprint (slice_run (two_locals "renamed" "a.f") [10; 12]) = Some f.
Proof. eexists. vm_compute. reflexivity. Qed.

Lemma strong_fingerprint_Some o f : strong_fingerprint o = Some f ->
  exists r, o = Ok r /\ slice_class r = strong /\ slice_fingerprint r = f.
Proof.
  destruct o as [r|]; cbn; [|done]. case_bool_decide; [|done]. intros [= <-]. eauto.
Qed.

Lemma renamed_local_iso : cpg_iso id (anon (two_locals "x" "a.f")) (anon (two_locals "renamed" "a.f")).
Proof. split; [by intros x y|vm_compute; reflexivity|vm_compute; reflexivity]. Qed.

Lemma slice_fingerprint_invariant_witness : exists r r',
  slice_run (two_locals "x" "a.f") [10; 12] = Ok r /\ slice_run (two_locals "renamed" "a.f") [10; 12] = Ok r' /\
  slice_fingerprint r' = slice_fingerprint r.
Proof.
  destruct two_locals_strong as [f (r & E & K & _)%strong_fingerprint_Some].
  destruct renamed_local_strong as [f' (r' & E' & K' & _)%strong_fingerprint_Some].
  exists r, r'. split; [exact E|]. split; [exact E'|].
  exact (slice_fingerprint_invariant id _ _ [10; 12] _ _ _ _ _ _ _ _ _ _ renamed_local_iso E E' K K').
Defined.

Lemma suppression_needs_strong_witness : exists r,
  slice_run (two_locals "x" "a.f") [10; 12] = Ok r /\ eligible_for_baseline_suppression r = true.
Proof.
  destruct two_locals_strong as [f (r & E & K & _)%strong_fingerprint_Some].
  exists r. split; [exact E|]. exact (proj2 (proj1 (suppression_needs_strong _ _ _ _ _ _ _ E)) K).
Defined.

Lemma backward_slice_exact_witness :
  _backward_interprocedural_slice (two_locals "x" "a.f") [] = Raise EmptyWitness /\
  _backward_interprocedural_slice (two_locals "x" "a.f") [10; 99] = Raise WitnessNotInCPG /\
  exists keep, slice_of (two_locals "x" "a.f") [10; 12] 12 keep /\
    _backward_interprocedural_slice (two_locals "x" "a.f") [10; 12] =
    Ok (mkSlice (induced (two_locals "x" "a.f") keep) (map (rank keep) [10; 12])).
Proof.
  destruct two_locals_strong as [f (r & E & K & _)%strong_fingerprint_Some].
  pose proof (proj1 (compute_Ok _ _ _ _ _ _ _ E)) as Hg.
  split; [exact (backward_slice_exact _ [] Hg)|]. split.
  - apply (backward_slice_exact _ [10; 99] Hg). exists 99. split; [right; left|].
    refine (bool_decide_unpack _ _). vm_compute. exact I.
  - apply (backward_slice_exact _ [10; 12] Hg). intros x Hx.
    apply elem_of_cons in Hx as [->|[->|[]%elem_of_nil]%elem_of_cons]; refine (bool_decide_unpack _ _); vm_compute; exact I.
Defined.
