(* ===== verification/Json.v ===== *)
(** * Canonical JSON and content digests

    [json.dumps(value, sort_keys=True, separators=(",", ":"),
    ensure_ascii=False)] on the values the continuity records serialise
    (strings, booleans, integers, [None], lists and dicts with string keys), and the
    digest [_hash] makes of it.  The text determines the value up to the order
    of dict items, so a digest binds its content up to a SHA-256 collision. *)
From stdpp Require Import base tactics list strings.
From Stdlib Require Import ZArith Lia.
From S2P Require Import Prelude PyData PyDict Sha256 Ordering.

Open Scope Z_scope.
Open Scope py_scope.

Inductive json :=
| JNull
| JBool (b : bool)
| JInt (z : Z)
| JStr (s : pystr)
| JList (l : list json)
| JObj (items : list (pystr * json)).

(** ** Encoding *)

(** [json.encoder.encode_basestring] *)
Definition escape_char (c : Z) : pystr :=
  if c =? 34 then str "\" ++ [34]
  else if c =? 92 then str "\\"
  else if c =? 10 then str "\n"
  else if c =? 13 then str "\r"
  else if c =? 9 then str "\t"
  else if c =? 12 then str "\f"
  else if c =? 8 then str "\b"
  else if c <? 32 then str "\u00" ++ [hex_digit (c / 16); hex_digit (c mod 16)]
  else [c].

Definition json_string (s : pystr) : pystr := [34] ++ concat (map escape_char s) ++ [34].

#[global] Arguments json_string : simpl never.

(** The items of a list or dict after its opening bracket. *)
Fixpoint join_items (close : Z) (l : list pystr) : pystr :=
  match l with
  | [] => [close]
  | [x] => x ++ [close]
  | x :: l' => x ++ [44] ++ join_items close l'
  end.

Definition key_leb (p q : pystr * json) : bool := str_leb p.1 q.1.

(** The dict items in the order of [sort_keys=True], at every depth. *)
Fixpoint canon (v : json) : json :=
  match v with
  | JList l => JList (map canon l)
  | JObj items => JObj (py_sorted key_leb (map (fun kv => (kv.1, canon kv.2)) items))
  | _ => v
  end.

(** The text of a value whose dicts are sorted. *)
Fixpoint render (v : json) : pystr :=
  match v with
  | JNull => str "null"
  | JBool true => str "true"
  | JBool false => str "false"
  | JInt z => str_of_int z
  | JStr s => json_string s
  | JList l => [91] ++ join_items 93 (map render l)
  | JObj items => [123] ++ join_items 125 (map (fun kv => json_string kv.1 ++ [58] ++ render kv.2) items)
  end.

Definition dumps (v : json) : pystr := render (canon v).

(** The text with any printer of strings. *)
Fixpoint render_with (quote : pystr -> pystr) (v : json) : pystr :=
  match v with
  | JStr s => quote s
  | JList l => [91] ++ join_items 93 (map (render_with quote) l)
  | JObj items => [123] ++ join_items 125 (map (fun kv => quote kv.1 ++ [58] ++ render_with quote kv.2) items)
  | _ => render v
  end.

(** [_hash]: [namespace] is ASCII, so its encoding is itself. *)
Definition _hash (namespace : pystr) (value : json) : outcome pystr :=
  match utf8_encode (dumps value) with
  | Some encoded => Ok (str "sha256:" ++ hex (sha256 (namespace ++ [10] ++ encoded)))
  | None => Raise UnicodeEncodeError
  end.

Example dumps_sorted :
  dumps (JObj [(str "b", JList [JNull; JBool true]); (str "a", JStr [10; 34])]) =
  str "{" ++ [34] ++ str "a" ++ [34] ++ str ":" ++ [34] ++ str "\n\" ++ [34; 34] ++ str "," ++
  [34] ++ str "b" ++ [34] ++ str ":[null,true]}".
Proof. reflexivity. Qed.

(** ** The text determines the value *)

Lemma hex_digit_inj a b : 0 <= a < 16 -> 0 <= b < 16 -> hex_digit a = hex_digit b -> a = b.
Proof. unfold hex_digit. destruct (Z.ltb_spec a 10), (Z.ltb_spec b 10); lia. Qed.

(** An escape is not the closing quote, and can be read off the text. *)
Lemma escape_char_prefix c d r s : 0 <= c -> 0 <= d ->
  escape_char c ++ r = escape_char d ++ s -> c = d /\ r = s.
Proof.
  intros Hc Hd. unfold escape_char, str. cbn.
  repeat match goal with
  | |- context [if ?x =? ?y then _ else _] => destruct (Z.eqb_spec x y)
  | |- context [if ?x <? ?y then _ else _] => destruct (Z.ltb_spec x y)
  end; cbn; intros E; simplify_eq; try done.
  match goal with
  | H1 : hex_digit _ = hex_digit _, H2 : hex_digit _ = hex_digit _ |- _ =>
      apply hex_digit_inj in H1, H2; [|div_lia..]
  end.
  split; [div_lia|done].
Qed.

Lemma escape_char_open c r s : escape_char c ++ r <> 34 :: s.
Proof.
  unfold escape_char, str. cbn.
  repeat match goal with
  | |- context [if ?x =? ?y then _ else _] => destruct (Z.eqb_spec x y)
  | |- context [if ?x <? ?y then _ else _] => destruct (Z.ltb_spec x y)
  end; cbn; intros E; simplify_eq.
Qed.

(** Strings of code points. *)
Definition points (s : pystr) : Prop := Forall (fun c => 0 <= c) s.

Lemma json_string_prefix s : forall t r u, points s -> points t ->
  json_string s ++ r = json_string t ++ u -> s = t /\ r = u.
Proof.
  unfold json_string. intros t r u Hs Ht E. cbn in E. injection E as E. rewrite <-!app_assoc in E.
  revert t r u Hs Ht E. induction s as [|c s IH]; intros [|d t] r u Hs Ht E; cbn in E.
  - by injection E as ->.
  - exfalso. rewrite <-app_assoc in E. by apply eq_sym, escape_char_open in E.
  - exfalso. rewrite <-app_assoc in E. by apply escape_char_open in E.
  - apply Forall_cons in Hs as [Hc Hs], Ht as [Hd Ht]. rewrite <-!app_assoc in E.
    apply escape_char_prefix in E as [-> E]; [|done..]. destruct (IH t r u Hs Ht E) as [-> ->]. done.
Qed.

(** Items whose texts are prefix-free and do not start with the closing bracket. *)
Lemma join_items_prefix {A} (f : A -> pystr) (P : A -> Prop) close l : forall k r s,
  (forall x, P x -> exists c t, f x = c :: t /\ c <> close) -> close <> 44 ->
  ~ (48 <= close <= 57) ->
  (forall x y r s, x ∈ l -> P x -> P y -> ends r -> ends s -> f x ++ r = f y ++ s -> x = y /\ r = s) ->
  Forall P l -> Forall P k ->
  join_items close (map f l) ++ r = join_items close (map f k) ++ s -> l = k /\ r = s.
Proof.
  induction l as [|x l IH]; intros k r s Hopen Hc Hd Hf Hl Hk E.
  { destruct k as [|y k]; cbn in E; [by simplify_eq|]. apply Forall_cons in Hk as [Hy Hk].
    destruct (Hopen y Hy) as (c & t & Ey & Hne). destruct k; cbn in E; rewrite Ey in E; cbn in E; congruence. }
  apply Forall_cons in Hl as [Hx Hl]. destruct k as [|y k].
  { destruct (Hopen x Hx) as (c & t & Ex & Hne). destruct l; cbn in E; rewrite Ex in E; cbn in E; congruence. }
  apply Forall_cons in Hk as [Hy Hk].
  destruct l as [|x2 l], k as [|y2 k]; cbn in E; rewrite <-!app_assoc in E; cbn in E.
  - apply Hf in E as [-> E]; [by simplify_eq|left|done..].
  - apply Hf in E as [_ E]; [congruence|left|by try (cbn; lia)..].
  - apply Hf in E as [_ E]; [congruence|left|by try (cbn; lia)..].
  - apply Hf in E as [-> E]; [|left|by try (cbn; lia)..]. injection E as E.
    destruct (IH (y2 :: k) r s) as [-> ->]; try done. intros; eapply Hf; eauto. by right.
Qed.

(** All strings of a value, keys included, satisfy [P]. *)
Fixpoint strings_in (P : pystr -> Prop) (v : json) : Prop :=
  match v with
  | JStr s => P s
  | JList l => (fix all l := match l with [] => True | x :: l => strings_in P x /\ all l end) l
  | JObj items =>
      (fix all l := match l with [] => True | kv :: l => (P kv.1 /\ strings_in P kv.2) /\ all l end) items
  | _ => True
  end.

Definition item_in (P : pystr -> Prop) (kv : pystr * json) : Prop := P kv.1 /\ strings_in P kv.2.

Lemma strings_in_list P l : strings_in P (JList l) <-> Forall (strings_in P) l.
Proof. cbn. induction l as [|x l IH]; [by rewrite Forall_nil|]. rewrite Forall_cons, <-IH. done. Qed.

Lemma strings_in_obj P l : strings_in P (JObj l) <-> Forall (item_in P) l.
Proof. cbn. induction l as [|x l IH]; [by rewrite Forall_nil|]. rewrite Forall_cons, <-IH. done. Qed.

Definition well_pointed : json -> Prop := strings_in points.
Definition item_pointed : pystr * json -> Prop := item_in points.

Lemma well_pointed_list l : well_pointed (JList l) <-> Forall well_pointed l.
Proof. apply strings_in_list. Qed.

Lemma well_pointed_obj l : well_pointed (JObj l) <-> Forall item_pointed l.
Proof. apply strings_in_obj. Qed.

Fixpoint jsize (v : json) : nat :=
  match v with
  | JList l => S (sum_list (map jsize l))
  | JObj items => S (sum_list (map (fun kv => jsize kv.2) items))
  | _ => 1
  end.

Lemma jsize_elem {A} (f : A -> nat) l x : x ∈ l -> (f x <= sum_list (map f l))%nat.
Proof.
  induction l as [|y l IH]; [by intros ?%elem_of_nil|].
  intros [->|H]%elem_of_cons; cbn; [lia|]. specialize (IH H). lia.
Qed.

(** Induction through lists and dict items. *)
Lemma json_nested_ind (P : json -> Prop) :
  P JNull -> (forall b, P (JBool b)) -> (forall z, P (JInt z)) -> (forall s, P (JStr s)) ->
  (forall l, Forall P l -> P (JList l)) -> (forall items, Forall (fun kv => P kv.2) items -> P (JObj items)) ->
  forall v, P v.
Proof.
  intros H1 H2 H3 H4 H5 H6 v. remember (jsize v) as n eqn:Hn. assert (Hlt : (jsize v <= n)%nat) by lia. clear Hn.
  revert v Hlt. induction n as [|n IH]; intros v Hn; [destruct v; cbn in Hn; lia|].
  destruct v as [| | | |l|l]; auto; cbn in Hn.
  - apply H5, Forall_forall. intros x Hx. apply IH. pose proof (jsize_elem jsize l x Hx). lia.
  - apply H6, Forall_forall. intros x Hx. apply IH. pose proof (jsize_elem (fun kv => jsize kv.2) l x Hx) as Hs. cbn in Hs. lia.
Qed.

Lemma int_first z r c t : str_of_int z ++ r = c :: t -> c = 45 \/ 48 <= c <= 57.
Proof. destruct (str_of_int_head z) as (d & u & -> & H). by intros [= <- _]. Qed.

Lemma strings_in_impl (P Q : pystr -> Prop) v : (forall s, P s -> Q s) -> strings_in P v -> strings_in Q v.
Proof.
  intros HPQ. induction v as [| | | |l IH|l IH] using json_nested_ind; try done; [by apply HPQ|rewrite !strings_in_list|rewrite !strings_in_obj];
    rewrite !Forall_forall in *; intros H x Hx; [by apply IH, H|]. destruct (H x Hx) as [H1 H2]. split; [by apply HPQ|by apply IH].
Qed.

Lemma canon_strings P v : strings_in P v -> strings_in P (canon v).
Proof.
  induction v as [| | | |l IH|l IH] using json_nested_ind; cbn [canon]; try done.
  - rewrite !strings_in_list, !Forall_forall in *. intros H x (y & -> & Hy)%list_elem_of_fmap. by apply IH, H.
  - rewrite !strings_in_obj, !Forall_forall in *. intros H x Hx.
    apply py_sorted_elem in Hx. apply list_elem_of_fmap in Hx as ([k y] & -> & Hy).
    destruct (H _ Hy) as [H1 H2]. split; [done|]. by apply (IH (k, y)).
Qed.

(** A printer whose texts are prefix codes and open with a quote makes [render_with] one. *)
Section quoted.
Context (quote : pystr -> pystr) (P : pystr -> Prop).
Hypothesis quote_open : forall s, exists t, quote s = 34 :: t.
Hypothesis quote_prefix : forall s t r u, P s -> P t -> quote s ++ r = quote t ++ u -> s = t /\ r = u.

Lemma render_with_first v : exists c t, render_with quote v = c :: t /\ c <> 93.
Proof.
  destruct v as [|[]|z|s| |]; cbn; unfold str; cbn; try (do 2 eexists; split; done).
  - destruct (str_of_int_head z) as (c & t & -> & Hc). exists c, t. split; [done|lia].
  - destruct (quote_open s) as [t ->]. by do 2 eexists.
Qed.

Ltac openers :=
  repeat match goal with
  | E : context [quote ?s ++ _] |- _ => let t := fresh in let H := fresh in destruct (quote_open s) as [t H]; rewrite H in E; clear H
  end.

Lemma render_with_prefix v : forall w r s, strings_in P v -> strings_in P w -> ends r -> ends s ->
  render_with quote v ++ r = render_with quote w ++ s -> v = w /\ r = s.
Proof.
  induction v as [|b|z|x|l IH|l IH] using json_nested_ind; intros w r s Hv Hw Hr Hs E;
  destruct w as [|b'|z'|x'|l'|l'];
    try (destruct b); try (destruct b'); try (by cbn in E; openers; unfold str in E; cbn in E; simplify_eq);
    try (by cbn in E; openers; unfold str in E; cbn in E; apply int_first in E; lia);
    try (by cbn in E; openers; unfold str in E; cbn in E; apply eq_sym, int_first in E; lia).
  - cbn in E. by apply str_of_int_prefix in E as [-> ->].
  - cbn in E. apply quote_prefix in E as [-> ->]; done.
  - rewrite strings_in_list in Hv, Hw. cbn [render_with app] in E. injection E as E. rewrite Forall_forall in IH.
    apply (join_items_prefix (render_with quote) (strings_in P)) in E as [-> ->]; try done; try lia.
    + intros x _. apply render_with_first.
    + intros x y r' s' Hx Px Py. by apply IH.
  - rewrite strings_in_obj in Hv, Hw. cbn [render_with app] in E. injection E as E. rewrite Forall_forall in IH.
    apply (join_items_prefix (fun kv => quote kv.1 ++ [58] ++ render_with quote kv.2) (item_in P)) in E as [-> ->]; try done; try lia.
    + intros x _. destruct (quote_open x.1) as [t ->]. cbn. eauto.
    + intros [k x] [k' x'] r' s' Hx [P1 P2] [P3 P4] Er Es. cbn in P1, P2, P3, P4 |- *. rewrite <-!app_assoc. intros E'.
      apply quote_prefix in E' as [-> E']; [|done..]. cbn in E'. injection E' as E'.
      by destruct (IH _ Hx x' r' s' P2 P4 Er Es E') as [[= ->] ->].
Qed.

Lemma render_canon_inj v w : strings_in P v -> strings_in P w ->
  render_with quote (canon v) = render_with quote (canon w) -> canon v = canon w.
Proof.
  intros Hv Hw E. apply (render_with_prefix (canon v) (canon w) [] []); [by apply canon_strings..|done|done|by rewrite !app_nil_r].
Qed.
End quoted.

Lemma render_as v : render v = render_with json_string v.
Proof.
  induction v as [| | | |l IH|l IH] using json_nested_ind; cbn [render render_with]; try done; do 2 f_equal.
  - by apply map_ext_Forall.
  - apply map_ext_Forall. by eapply Forall_impl; [exact IH|]; cbn; intros kv ->.
Qed.

(** Equal texts come from values that differ only in the order of dict items. *)
Lemma dumps_inj v w : well_pointed v -> well_pointed w -> dumps v = dumps w -> canon v = canon w.
Proof.
  unfold dumps. rewrite !render_as. apply render_canon_inj; [by eexists|]. intros. by apply json_string_prefix.
Qed.

(** ** Digests bind content *)

Lemma hex_inj a b : Forall is_byte a -> Forall is_byte b -> hex a = hex b -> a = b.
Proof.
  unfold hex, is_byte. revert b. induction a as [|x a IH]; intros [|y b] Ha Hb E; try done.
  apply Forall_cons in Ha as [Hx Ha], Hb as [Hy Hb]. cbn in E. injection E as E1 E2 E3.
  apply hex_digit_inj in E1, E2; [|div_lia..]. rewrite (IH b) by done. f_equal. div_lia.
Qed.

Lemma sha256_bytes m : Forall is_byte (sha256 m).
Proof.
  apply Forall_concat, Forall_fmap, Forall_true. intros x. apply to_bytes_is_byte.
Qed.

(** Two distinct messages with one digest. *)
Definition sha256_collision : Prop := exists x y, x <> y /\ sha256 x = sha256 y.

Lemma hash_binds ns v w d : well_pointed v -> well_pointed w ->
  _hash ns v = Ok d -> _hash ns w = Ok d -> canon v = canon w \/ sha256_collision.
Proof.
  intros Hv Hw. unfold _hash. destruct (utf8_encode (dumps v)) as [x|] eqn:Ex; [|done].
  destruct (utf8_encode (dumps w)) as [y|] eqn:Ey; [|done]. intros [= <-] [= E].
  apply hex_inj in E; [|apply sha256_bytes..]. destruct (decide (x = y)) as [->|Hne].
  - left. apply dumps_inj; [done..|]. by eapply utf8_encode_inj.
  - right. do 2 eexists. split; [|exact E]. intros Heq. apply Hne. by simplify_eq.
Qed.

(** Records with the same field names: the digest order does not matter. *)
Lemma canon_obj_inj (l k : list (pystr * json)) :
  NoDup (map fst l) -> map fst l = map fst k -> canon (JObj l) = canon (JObj k) ->
  map (fun kv => canon kv.2) l = map (fun kv => canon kv.2) k.
Proof.
  cbn [canon]. set (f := fun kv : pystr * json => (kv.1, canon kv.2)). intros Hnd Hk [= E].
  assert (Hp : map f l ≡ₚ map f k) by (rewrite <-(py_sorted_perm key_leb (map f l)), E; apply py_sorted_perm).
  clear E. assert (Hkeys : map fst (map f l) = map fst (map f k)) by (rewrite !map_map; exact Hk).
  assert (Hnd' : NoDup (map fst (map f l))) by (rewrite map_map; exact Hnd).
  cut (map f l = map f k).
  { intros E. apply (f_equal (map snd)) in E. by rewrite !map_map in E. }
  revert Hp Hkeys Hnd'. generalize (map f l) (map f k). clear.
  intros l k Hp Hkeys Hnd. apply list_eq_same_length with (n := length l); [by rewrite Hp|done|].
  intros i [a x] [b y] _ Hx Hy.
  assert (a = b) as <-.
  { assert (Ha : map fst l !! i = Some a) by (change (map fst l) with (l.*1); by rewrite list_lookup_fmap, Hx).
    assert (Hb : map fst k !! i = Some b) by (change (map fst k) with (k.*1); by rewrite list_lookup_fmap, Hy).
    congruence. }
  f_equal. assert (Hin : (a, y) ∈ l) by (rewrite Hp; by eapply list_elem_of_lookup_2).
  apply list_elem_of_lookup in Hin as [j Hj].
  assert (i = j) as <-; [|congruence].
  eapply NoDup_lookup; [exact Hnd| |]; change (map fst l) with (l.*1); rewrite list_lookup_fmap;
    [by rewrite Hx|by rewrite Hj].
Qed.
