(* ===== verification/JsonAscii.v ===== *)
(** * JSON text in ASCII

    [json.dumps(value, sort_keys=True, separators=(",", ":"))] with the
    default [ensure_ascii=True]: a character outside printable ASCII is
    escaped, beyond the basic plane as a pair of surrogates.  The text
    determines the value up to the order of dict items when its strings hold
    no surrogates; a string that spells a surrogate pair has the text of the
    character the pair encodes. *)
From stdpp Require Import base tactics list strings.
From Stdlib Require Import ZArith Lia.
From S2P Require Import Prelude PyData PyDict Sha256 Ordering Json.

Open Scope Z_scope.

(** [ESCAPE_DCT], the character after the backslash *)
Definition short_escape (c : Z) : option Z :=
  if c =? 34 then Some 34
  else if c =? 92 then Some 92
  else if c =? 10 then Some 110
  else if c =? 13 then Some 114
  else if c =? 9 then Some 116
  else if c =? 12 then Some 102
  else if c =? 8 then Some 98
  else None.

Definition unicode_escape (n : Z) : pystr :=
  [92; 117; hex_digit (n / 4096); hex_digit (n / 256 mod 16); hex_digit (n / 16 mod 16); hex_digit (n mod 16)].

(** [json.encoder.py_encode_basestring_ascii] *)
Definition escape_char_ascii (c : Z) : pystr :=
  match short_escape c with
  | Some e => [92; e]
  | None =>
      if (32 <=? c) && (c <? 127) then [c]
      else if c <? 65536 then unicode_escape c
      else unicode_escape (55296 + (c - 65536) / 1024) ++ unicode_escape (56320 + (c - 65536) mod 1024)
  end.

Definition json_string_ascii (s : pystr) : pystr := [34] ++ concat (map escape_char_ascii s) ++ [34].

#[global] Arguments json_string_ascii : simpl never.

Definition dumps_ascii (v : json) : pystr := render_with json_string_ascii (canon v).

Example dumps_ascii_escapes :
  dumps_ascii (JStr [233; 128512; 127]) = [34] ++ str "\u00e9\ud83d\ude00\u007f" ++ [34].
Proof. reflexivity. Qed.

(** A surrogate pair and the character it encodes have one text. *)
Example dumps_ascii_surrogates : dumps_ascii (JStr [55357; 56832]) = dumps_ascii (JStr [128512]).
Proof. reflexivity. Qed.

(** ** The text is ASCII *)

Definition ascii_text (s : pystr) : Prop := Forall (fun c => 0 <= c < 128) s.

(** Strings of Unicode scalar values. *)
Definition scalar (c : Z) : Prop := 0 <= c < 55296 \/ 57344 <= c < 1114112.
Definition scalars (s : pystr) : Prop := Forall scalar s.

Lemma hex_digit_ascii d : 0 <= d < 16 -> 48 <= hex_digit d < 128.
Proof. intros Hd. unfold hex_digit. destruct (Z.ltb_spec d 10); lia. Qed.

Lemma unicode_escape_ascii n : 0 <= n < 65536 -> ascii_text (unicode_escape n).
Proof.
  intros Hn. unfold unicode_escape, ascii_text. repeat (apply Forall_cons; split); try apply Forall_nil_2; try lia.
  all: match goal with |- context [hex_digit ?d] => pose proof (hex_digit_ascii d); assert (0 <= d < 16) by div_lia; lia end.
Qed.

Lemma escape_char_ascii_ascii c : 0 <= c < 1114112 -> ascii_text (escape_char_ascii c).
Proof.
  intros Hc. unfold escape_char_ascii, short_escape.
  repeat match goal with |- context [if ?x =? ?y then _ else _] => destruct (Z.eqb_spec x y) end;
    try (repeat constructor; lia).
  destruct (Z.leb_spec 32 c), (Z.ltb_spec c 127); cbn [andb]; try (repeat constructor; lia).
  all: destruct (Z.ltb_spec c 65536); [apply unicode_escape_ascii; lia|].
  all: apply Forall_app; split; apply unicode_escape_ascii; div_lia.
Qed.

Lemma utf8_encode_ascii s : ascii_text s -> utf8_encode s = Some s.
Proof.
  induction 1 as [|c s Hc Hs IH]; [done|]. cbn. rewrite IH. unfold utf8_char.
  destruct (Z.ltb_spec c 0), (Z.ltb_spec c 128); by try lia.
Qed.

(** ** The text determines the value *)

Lemma unicode_escape_prefix m n r s : 0 <= m < 65536 -> 0 <= n < 65536 ->
  unicode_escape m ++ r = unicode_escape n ++ s -> m = n /\ r = s.
Proof.
  intros Hm Hn. unfold unicode_escape. cbn [app]. intros [= E1 E2 E3 E4 ->].
  apply hex_digit_inj in E1, E2, E3, E4; [|div_lia..]. split; [div_lia|done].
Qed.

Lemma short_escape_inj c d e : short_escape c = Some e -> short_escape d = Some e -> c = d.
Proof.
  unfold short_escape.
  repeat match goal with |- context [if ?x =? ?y then _ else _] => destruct (Z.eqb_spec x y) end; intros; simplify_eq; lia.
Qed.

Lemma short_escape_not_u c : short_escape c <> Some 117.
Proof.
  unfold short_escape.
  repeat match goal with |- context [if ?x =? ?y then _ else _] => destruct (Z.eqb_spec x y) end; congruence.
Qed.

Lemma short_escape_backslash : short_escape 92 = Some 92.
Proof. done. Qed.

(** The shapes an escaped character has. *)
Inductive escape_shape (c : Z) : pystr -> Prop :=
| esc_short e : short_escape c = Some e -> escape_shape c [92; e]
| esc_plain : short_escape c = None -> escape_shape c [c]
| esc_basic : c < 65536 -> escape_shape c (unicode_escape c)
| esc_pair : 65536 <= c -> escape_shape c (unicode_escape (55296 + (c - 65536) / 1024) ++ unicode_escape (56320 + (c - 65536) mod 1024)).

Lemma escape_escaped c : escape_shape c (escape_char_ascii c).
Proof.
  unfold escape_char_ascii. destruct (short_escape c) eqn:E; [by constructor|].
  destruct ((32 <=? c) && (c <? 127)); [by constructor|]. destruct (Z.ltb_spec c 65536); by constructor.
Qed.

Lemma escape_char_ascii_prefix c d r s : scalar c -> scalar d ->
  escape_char_ascii c ++ r = escape_char_ascii d ++ s -> c = d /\ r = s.
Proof.
  unfold scalar. intros Hc Hd. pose proof short_escape_backslash as Hb.
  pose proof (short_escape_not_u c). pose proof (short_escape_not_u d).
  destruct (escape_escaped c), (escape_escaped d); rewrite <-?app_assoc; intros E; try (unfold unicode_escape in E; cbn in E; simplify_eq; congruence).
  - injection E as <- <-. split; [by eapply short_escape_inj|done].
  - by injection E.
  - apply unicode_escape_prefix in E as [-> ->]; [done|lia..].
  - apply unicode_escape_prefix in E as [E _]; [|div_lia..]. exfalso. div_lia.
  - apply unicode_escape_prefix in E as [E _]; [|div_lia..]. exfalso. div_lia.
  - apply unicode_escape_prefix in E as [E1 E]; [|div_lia..]. apply unicode_escape_prefix in E as [E2 ->]; [|div_lia..].
    split; [div_lia|done].
Qed.

Lemma escape_char_ascii_open c r s : escape_char_ascii c ++ r <> 34 :: s.
Proof. destruct (escape_escaped c); unfold unicode_escape; cbn; intros E; by simplify_eq. Qed.

Lemma json_string_ascii_prefix s : forall t r u, scalars s -> scalars t ->
  json_string_ascii s ++ r = json_string_ascii t ++ u -> s = t /\ r = u.
Proof.
  unfold json_string_ascii. intros t r u Hs Ht E. cbn in E. injection E as E. rewrite <-!app_assoc in E.
  revert t r u Hs Ht E. induction s as [|c s IH]; intros [|d t] r u Hs Ht E; cbn in E.
  - by injection E as ->.
  - exfalso. rewrite <-app_assoc in E. by apply eq_sym, escape_char_ascii_open in E.
  - exfalso. rewrite <-app_assoc in E. by apply escape_char_ascii_open in E.
  - apply Forall_cons in Hs as [Hc Hs], Ht as [Hd Ht]. rewrite <-!app_assoc in E.
    apply escape_char_ascii_prefix in E as [-> E]; [|done..]. destruct (IH t r u Hs Ht E) as [-> ->]. done.
Qed.

Lemma dumps_ascii_inj v w : strings_in scalars v -> strings_in scalars w -> dumps_ascii v = dumps_ascii w -> canon v = canon w.
Proof. apply render_canon_inj; [by eexists|]. intros. by apply json_string_ascii_prefix. Qed.

(** ** The text of Unicode strings is ASCII *)

Definition code_points (s : pystr) : Prop := Forall (fun c => 0 <= c < 1114112) s.

Lemma json_string_ascii_ascii s : code_points s -> ascii_text (json_string_ascii s).
Proof.
  intros Hs. apply Forall_app; split; [repeat constructor; lia|]. apply Forall_app; split; [|repeat constructor; lia].
  apply Forall_concat, Forall_fmap. eapply Forall_impl; [exact Hs|]. intros c Hc. by apply escape_char_ascii_ascii.
Qed.

Lemma str_of_int_ascii z : ascii_text (str_of_int z).
Proof.
  assert (Hd : forall n, 0 <= n -> ascii_text (decimal n)).
  { intros n [[H _] _]%decimal_spec. eapply Forall_impl; [exact H|]. cbn. lia. }
  unfold str_of_int. destruct (Z.ltb_spec z 0); [constructor; [lia|]|]; apply Hd; lia.
Qed.

Lemma join_items_ascii close l : 0 <= close < 128 -> Forall ascii_text l -> ascii_text (join_items close l).
Proof.
  intros Hc. induction l as [|x l IH]; intros Hl; cbn; [by apply Forall_singleton|]. apply Forall_cons in Hl as [Hx Hl].
  destruct l; (apply Forall_app; split; [done|]); [by apply Forall_singleton|]. constructor; [lia|]. by apply IH.
Qed.

Lemma render_ascii v : strings_in code_points v -> ascii_text (render_with json_string_ascii v).
Proof.
  induction v as [|[]|z|s|l IH|l IH] using json_nested_ind; intros H; cbn [render_with render].
  1-3: repeat constructor; lia.
  - apply str_of_int_ascii.
  - by apply json_string_ascii_ascii.
  - rewrite strings_in_list in H. constructor; [lia|]. apply join_items_ascii; [lia|]. apply Forall_fmap.
    rewrite Forall_forall in *. intros x Hx. by apply IH, H.
  - rewrite strings_in_obj in H. constructor; [lia|]. apply join_items_ascii; [lia|]. apply Forall_fmap.
    rewrite Forall_forall in *. intros x Hx. destruct (H x Hx) as [H1 H2]. apply Forall_app; split; [by apply json_string_ascii_ascii|].
    constructor; [lia|]. by apply IH.
Qed.

Lemma dumps_ascii_encodes (P : pystr -> Prop) v : (forall s, P s -> code_points s) -> strings_in P v ->
  utf8_encode (dumps_ascii v) = Some (dumps_ascii v).
Proof. intros HP Hv. by apply utf8_encode_ascii, render_ascii, canon_strings, (strings_in_impl P). Qed.
