(* ===== verification/Identity.v ===== *)
(** * Artifact identities ([analysis/artifact_identity.py])

    The descriptor of a graph or slice identity, its validation, its dict form
    and the reading of both descriptors from a finding.  Values that reach the
    code untyped (attributes of a finding, parsed descriptors) are [pyval]s. *)
From stdpp Require Import base tactics list gmap strings.
From Stdlib Require Import ZArith Lia.
From S2P Require Import Prelude PyData PyDict Ordering.

Open Scope Z_scope.
Open Scope py_scope.

(** Dynamically typed values. *)
Inductive pyval :=
| VNone
| VBool (b : bool)
| VInt (z : Z)
| VStr (s : pystr)
| VBytes (b : pybytes)
| VList (l : list pyval)
| VDict (items : list (pystr * pyval)).

(** Truth value testing *)
Definition truthy (v : pyval) : bool :=
  match v with
  | VNone => false
  | VBool b => b
  | VInt z => negb (z =? 0)
  | VStr s => negb (bool_decide (s = []))
  | VBytes b => negb (bool_decide (b = []))
  | VList l => match l with [] => false | _ => true end
  | VDict l => match l with [] => false | _ => true end
  end.

(** [v in S] for a set [S] of strings: lists and dicts are not hashable. *)
Definition in_strings (v : pyval) (S : list pystr) : outcome bool :=
  match v with
  | VStr s => Ok (bool_decide (s ∈ S))
  | VList _ | VDict _ => Raise TypeError
  | _ => Ok false
  end.

Definition ANNOTATION : pystr := str "canonical iff fingerprint_class = strong".
Definition GRAPH_V2 : pystr := str "scanipy-canonical-graph/2".
Definition SLICE_V2 : pystr := str "scanipy-slice-normal-form/2".
Definition COMPLETED : pystr := str "completed".
Definition LEGACY : pystr := str "legacy-ambiguous".
Definition STATES : list pystr :=
  map str ["completed"; "pending"; "running"; "failed"; "not-applicable"; "legacy-ambiguous"].
Definition CLASSES : list pystr := map str ["strong"; "weak"].

(** [_SHA256.fullmatch] *)
Definition is_lower_hex (c : Z) : bool := ((48 <=? c) && (c <=? 57)) || ((97 <=? c) && (c <=? 102)).
Definition hex64 (s : pystr) : bool := (Z.of_nat (length s) =? 64) && forallb is_lower_hex s.

Record ArtifactIdentity := mkArtifact {
  a_status : pystr;
  a_digest : option pystr;
  a_class : option pystr;
  a_namespace : option pystr
}.

#[export] Instance ArtifactIdentity_eq_dec : EqDecision ArtifactIdentity.
Proof. solve_decision. Defined.

Definition check_digest (digest : pyval) : outcome (option pystr) :=
  match digest with
  | VNone => Ok None
  | VStr s =>
      if hex64 s then Ok (Some s)
      else Raise (ValueError "artifact digest must be 64 lowercase hexadecimal characters")
  | _ => Raise (ValueError "artifact digest must be 64 lowercase hexadecimal characters")
  end.

Definition check_completed (status : pystr) (digest : option pystr) (klass namespace : pyval) : outcome ArtifactIdentity :=
  match digest with
  | None => Raise (ValueError "completed artifact requires its digest and independent class")
  | Some d =>
      ok ⇐ in_strings klass CLASSES;
      match ok, klass, namespace with
      | true, VStr k, VStr (c :: ns) => Ok (mkArtifact status (Some d) (Some k) (Some (c :: ns)))
      | true, VStr k, _ => Raise (ValueError "completed artifact requires its algorithm namespace")
      | _, _, _ => Raise (ValueError "completed artifact requires its digest and independent class")
      end
  end.

Definition check_uncomputed (status : pystr) (digest : option pystr) (klass namespace : pyval) : outcome ArtifactIdentity :=
  match klass, namespace with
  | VNone, VNone =>
      if negb (bool_decide (status = LEGACY)) && bool_decide (is_Some digest)
      then Raise (ValueError "uncomputed artifact cannot carry a computed digest")
      else Ok (mkArtifact status digest None None)
  | _, _ => Raise (ValueError "uncomputed/legacy artifact cannot assert a class or namespace")
  end.

(** [ArtifactIdentity(...)] with [__post_init__] *)
Definition make_identity (status digest klass namespace : pyval) : outcome ArtifactIdentity :=
  known ⇐ in_strings status STATES;
  match known, status with
  | true, VStr s =>
      d ⇐ check_digest digest;
      if bool_decide (s = COMPLETED) then check_completed s d klass namespace
      else check_uncomputed s d klass namespace
  | _, _ => Raise (ValueError "unknown artifact status")
  end.

Definition of_opt (o : option pystr) : pyval := match o with Some s => VStr s | None => VNone end.

(** [to_dict] *)
Definition to_dict (a : ArtifactIdentity) : pyval := VDict
  [(str "status", VStr (a_status a)); (str "digest", of_opt (a_digest a));
   (str "fingerprint_class", of_opt (a_class a)); (str "namespace", of_opt (a_namespace a));
   (str "annotation", VStr ANNOTATION)].

(** [d[k]] of a dict with the key *)
Definition item (items : list (pystr * pyval)) (k : string) : pyval :=
  default VNone (snd <$> List.find (fun kv => bool_decide (kv.1 = str k)) items).

(** [set(value) == {...}] *)
Definition keys_are (items : list (pystr * pyval)) (names : list string) : bool :=
  bool_decide (list_to_set (map fst items) =@{gset pystr} list_to_set (map str names)).

Definition str_or_null (v : pyval) : bool := match v with VNone | VStr _ => true | _ => false end.

(** [from_dict] *)
Definition from_dict (value : pyval) : outcome ArtifactIdentity :=
  match value with
  | VDict items =>
      if negb (keys_are items ["status"; "digest"; "fingerprint_class"; "namespace"; "annotation"])
      then Raise (ValueError "invalid artifact descriptor shape")
      else match item items "annotation" with
      | VStr a =>
          if negb (bool_decide (a = ANNOTATION))
          then Raise (ValueError "artifact annotation must retain its exact scoped literal")
          else if negb (forallb (fun k => str_or_null (item items k)) ["status"; "digest"; "fingerprint_class"; "namespace"])
          then Raise (ValueError "artifact field must be a string or null")
          else match item items "status" with
          | VStr s => make_identity (VStr s) (item items "digest") (item items "fingerprint_class") (item items "namespace")
          | _ => Raise (ValueError "artifact status is required")
          end
      | _ => Raise (ValueError "artifact annotation must retain its exact scoped literal")
      end
  | _ => Raise (ValueError "invalid artifact descriptor shape")
  end.

(** A finding, as the attributes it has. *)
Definition finding := gmap pystr pyval.
Definition attr (f : finding) (name : string) (dflt : pyval) : pyval := default dflt (f !! str name).

(** [getattr(finding, digest_name, None) or None], bytes read as hex *)
Definition digest_attr (f : finding) (name : string) : pyval :=
  let v := attr f name VNone in
  if negb (truthy v) then VNone
  else match v with VBytes b => VStr (hex b) | v => v end.

Definition one_identity (f : finding) (version : Z) (digest_name status_name class_name ns_name : string) :
    outcome ArtifactIdentity :=
  let digest := digest_attr f digest_name in
  if version =? 1 then make_identity (VStr LEGACY) digest VNone VNone
  else make_identity (attr f status_name (VStr LEGACY)) digest (attr f class_name VNone) (attr f ns_name VNone).

(** [identities_from_finding] *)
Definition identities_from_finding (f : finding) : outcome (ArtifactIdentity * ArtifactIdentity) :=
  match attr f "identity_schema_version" (VInt 1) with
  | VInt version =>
      if (version =? 1) || (version =? 2) then
        graph ⇐ one_identity f version "cpg_order_hash" "cpg_order_status" "cpg_order_class" "cpg_order_namespace";
        sliced ⇐ one_identity f version "slice_fingerprint" "slice_status" "slice_fingerprint_class" "slice_namespace";
        Ok (graph, sliced)
      else Raise (ValueError "unsupported identity schema version")
  | _ => Raise (ValueError "unsupported identity schema version")
  end.

(** [identity_metadata] *)
Definition identity_metadata (f : finding) : outcome pyval :=
  ids ⇐ identities_from_finding f;
  Ok (VDict [(str "schema_version", VInt 2); (str "cpg_order", to_dict ids.1); (str "slice", to_dict ids.2)]).

(** [validate_identity_metadata] *)
Definition validate_identity_metadata (value : pyval) : outcome (ArtifactIdentity * ArtifactIdentity) :=
  match value with
  | VDict items =>
      if negb (keys_are items ["schema_version"; "cpg_order"; "slice"])
      then Raise (ValueError "invalid identity metadata shape")
      else match item items "schema_version" with
      | VInt v =>
          if negb (v =? 2) then Raise (ValueError "unsupported identity metadata version")
          else
            graph ⇐ from_dict (item items "cpg_order");
            sliced ⇐ from_dict (item items "slice");
            Ok (graph, sliced)
      | _ => Raise (ValueError "unsupported identity metadata version")
      end
  | _ => Raise (ValueError "invalid identity metadata shape")
  end.

(** Completed, strong and of the given namespace. *)
Definition strong_in (namespace : pystr) (a : ArtifactIdentity) : bool :=
  bool_decide (a_status a = COMPLETED) && bool_decide (a_class a = Some (str "strong")) &&
  bool_decide (a_namespace a = Some namespace).

(** [has_strong_v2_artifact_identities] *)
Definition has_strong_v2_artifact_identities (f : finding) : bool :=
  match identities_from_finding f with
  | Ok (graph, sliced) => strong_in GRAPH_V2 graph && strong_in SLICE_V2 sliced
  | Raise _ => false
  end.

(** ** Validation, dict form and the strong guard *)

Lemma make_identity_Ok status digest klass ns a : make_identity status digest klass ns = Ok a ->
  status = VStr (a_status a) /\ a_status a ∈ STATES /\ digest = of_opt (a_digest a) /\
  klass = of_opt (a_class a) /\ ns = of_opt (a_namespace a).
Proof.
  unfold make_identity. intros H. apply obind_Ok in H as (known & Hk & H).
  destruct status as [|b|z|s|b|l|l]; cbn in Hk; try (injection Hk as <-; discriminate H); try discriminate Hk.
  injection Hk as <-. case_bool_decide as Hs; [|done]. apply obind_Ok in H as (d & Hd & H).
  assert (Ed : digest = of_opt d).
  { destruct digest; cbn in Hd; try done; [by injection Hd as <-|]. destruct (hex64 s0); [by injection Hd as <-|done]. }
  subst digest. case_bool_decide as Hc.
  - unfold check_completed in H. destruct d as [d|]; [|done]. apply obind_Ok in H as (ok & Hok & H).
    destruct ok; [|done]. destruct klass; try done. destruct ns as [| | |[|c n]| | |]; try done.
    by injection H as <-.
  - unfold check_uncomputed in H. destruct klass; try done. destruct ns; try done.
    destruct (negb _ && _); [done|]. by injection H as <-.
Qed.

Lemma from_to_dict status digest klass ns a :
  make_identity status digest klass ns = Ok a -> from_dict (to_dict a) = Ok a.
Proof.
  intros H. pose proof (make_identity_Ok _ _ _ _ _ H) as (E1 & _ & E2 & E3 & E4). subst.
  unfold from_dict, to_dict. set (k := keys_are _ _). replace k with true by (vm_compute; reflexivity).
  cbn [negb]. set (i := item _ "annotation"). replace i with (VStr ANNOTATION) by (vm_compute; reflexivity).
  rewrite bool_decide_true by done. cbn [negb].
  set (it := item _). replace (it "status") with (VStr (a_status a)) by (vm_compute; reflexivity).
  replace (it "digest") with (of_opt (a_digest a)) by (vm_compute; reflexivity).
  replace (it "fingerprint_class") with (of_opt (a_class a)) by (vm_compute; reflexivity).
  replace (it "namespace") with (of_opt (a_namespace a)) by (vm_compute; reflexivity).
  replace (forallb _ _) with true; [by rewrite H|]. cbn.
  replace (it "status") with (VStr (a_status a)) by (vm_compute; reflexivity).
  replace (it "digest") with (of_opt (a_digest a)) by (vm_compute; reflexivity).
  replace (it "fingerprint_class") with (of_opt (a_class a)) by (vm_compute; reflexivity).
  replace (it "namespace") with (of_opt (a_namespace a)) by (vm_compute; reflexivity).
  by destruct (a_digest a), (a_class a), (a_namespace a).
Qed.

Lemma one_identity_made f v dn sn cn nn a : one_identity f v dn sn cn nn = Ok a ->
  exists s d k n, make_identity s d k n = Ok a.
Proof. unfold one_identity. destruct (v =? 1); eauto. Qed.

(** The metadata of a finding validates to the descriptors it was made of. *)
Lemma validate_metadata f v :
  identity_metadata f = Ok v -> validate_identity_metadata v = identities_from_finding f.
Proof.
  unfold identity_metadata. intros (ids & Hi & [= <-])%obind_Ok. rewrite Hi.
  unfold identities_from_finding in Hi. destruct (attr f "identity_schema_version" _) as [| |v| | | |]; try done.
  destruct ((v =? 1) || (v =? 2)); [|done].
  apply obind_Ok in Hi as (g & Hg & Hi). apply obind_Ok in Hi as (s & Hs & [= <-]).
  apply one_identity_made in Hg as (? & ? & ? & ? & Hg), Hs as (? & ? & ? & ? & Hs).
  apply from_to_dict in Hg, Hs. unfold validate_identity_metadata. cbn [fst snd].
  set (k := keys_are _ _). replace k with true by (vm_compute; reflexivity). cbn [negb].
  set (it := item _). replace (it "schema_version") with (VInt 2) by (vm_compute; reflexivity).
  replace (it "cpg_order") with (to_dict g) by (vm_compute; reflexivity).
  replace (it "slice") with (to_dict s) by (vm_compute; reflexivity).
  cbn [Z.eqb Pos.eqb negb]. rewrite Hg. cbn [obind]. by rewrite Hs.
Qed.

Lemma one_identity_strong f v ns dn sn cn nn : (v =? 1) || (v =? 2) = true -> ns <> [] ->
  (exists a, one_identity f v dn sn cn nn = Ok a /\ strong_in ns a = true) <->
  v = 2 /\ attr f sn (VStr LEGACY) = VStr COMPLETED /\ attr f cn VNone = VStr (str "strong") /\
  attr f nn VNone = VStr ns /\ exists d, digest_attr f dn = VStr d /\ hex64 d = true.
Proof.
  intros Hv Hns. unfold one_identity, strong_in. split.
  - intros (a & H & Hs). apply andb_true_iff in Hs as [Hs H3%bool_decide_eq_true].
    apply andb_true_iff in Hs as [H1%bool_decide_eq_true H2%bool_decide_eq_true].
    destruct (Z.eqb_spec v 1) as [->|Hne].
    { apply make_identity_Ok in H as (_ & _ & _ & H & _). by rewrite H2 in H. }
    pose proof (make_identity_Ok _ _ _ _ _ H) as (E1 & _ & E2 & E3 & E4). rewrite H1, H2, H3 in *.
    split_and!; [lia|done..|]. unfold make_identity in H. rewrite E1, E2 in H. cbn in H.
    destruct (a_digest a) as [d|]; cbn in H.
    + exists d. split; [done|]. by destruct (hex64 d).
    + by vm_compute in H.
  - intros (-> & H1 & H2 & H3 & d & H4 & H5). rewrite H1, H2, H3, H4. cbn [Z.eqb Pos.eqb].
    exists (mkArtifact COMPLETED (Some d) (Some (str "strong")) (Some ns)). split.
    + unfold make_identity. cbn [in_strings obind]. rewrite bool_decide_true by (vm_compute; set_solver).
      cbn [check_digest]. rewrite H5. cbn [obind]. rewrite bool_decide_true by done. unfold check_completed.
      cbn [in_strings obind]. rewrite bool_decide_true by (vm_compute; set_solver). by destruct ns.
    + cbn. by rewrite !bool_decide_true.
Qed.

(** The strong guard is exact.  It accepts a finding exactly when the
    finding declares schema version 2 and both of its descriptors are declared
    completed, strong and of the version-2 namespace with a 64-digit digest;
    in particular a version-1 finding is never promoted. *)
Theorem strong_guard_exact f :
  has_strong_v2_artifact_identities f = true <->
  attr f "identity_schema_version" (VInt 1) = VInt 2 /\
  (attr f "cpg_order_status" (VStr LEGACY) = VStr COMPLETED /\
   attr f "cpg_order_class" VNone = VStr (str "strong") /\ attr f "cpg_order_namespace" VNone = VStr GRAPH_V2 /\
   exists d, digest_attr f "cpg_order_hash" = VStr d /\ hex64 d = true) /\
  (attr f "slice_status" (VStr LEGACY) = VStr COMPLETED /\
   attr f "slice_fingerprint_class" VNone = VStr (str "strong") /\ attr f "slice_namespace" VNone = VStr SLICE_V2 /\
   exists d, digest_attr f "slice_fingerprint" = VStr d /\ hex64 d = true).
Proof.
  unfold has_strong_v2_artifact_identities, identities_from_finding.
  destruct (attr f "identity_schema_version" _) as [| |v| | | |]; try (split; [done|by intros [? _]]).
  destruct ((v =? 1) || (v =? 2)) eqn:Hv; [|split; [done|intros [[= ->] _]; done]].
  pose proof (one_identity_strong f v GRAPH_V2 "cpg_order_hash" "cpg_order_status" "cpg_order_class" "cpg_order_namespace" Hv)
    as Hg.
  pose proof (one_identity_strong f v SLICE_V2 "slice_fingerprint" "slice_status" "slice_fingerprint_class" "slice_namespace" Hv)
    as Hs.
  specialize (Hg ltac:(done)). specialize (Hs ltac:(done)). split.
  - destruct (one_identity f v "cpg_order_hash" _ _ _) as [g|]; [|done]. cbn [obind].
    destruct (one_identity f v "slice_fingerprint" _ _ _) as [s|]; [|done]. cbn [obind].
    intros [H1 H2]%andb_true_iff. destruct (proj1 Hg) as [-> ?]; [eauto|]. destruct (proj1 Hs) as [_ ?]; eauto.
  - intros ([= ->] & Hg' & Hs'). destruct (proj2 Hg) as (g & -> & H1); [done|].
    destruct (proj2 Hs) as (s & -> & H2); [done|]. cbn [obind]. by rewrite H1, H2.
Qed.

(** ** A sample *)

Definition sample_digest : pystr := concat (repeat (str "0a") 32).
Definition sample_finding : finding := list_to_map
  [(str "identity_schema_version", VInt 2); (str "cpg_order_hash", VStr sample_digest);
   (str "cpg_order_status", VStr COMPLETED); (str "cpg_order_class", VStr (str "strong"));
   (str "cpg_order_namespace", VStr GRAPH_V2); (str "slice_fingerprint", VBytes (repeat 10 32));
   (str "slice_status", VStr COMPLETED); (str "slice_fingerprint_class", VStr (str "strong"));
   (str "slice_namespace", VStr SLICE_V2)].

Example sample_metadata :
  exists v, identity_metadata sample_finding = Ok v /\
    validate_identity_metadata v = identities_from_finding sample_finding /\
    has_strong_v2_artifact_identities sample_finding = true.
Proof.
  destruct (identity_metadata sample_finding) as [v|e] eqn:E; [|vm_compute in E; discriminate E].
  exists v. split; [reflexivity|]. split; [exact (validate_metadata sample_finding v E)|].
  vm_compute. reflexivity.
Qed.
