(* ===== verification/Continuity.v ===== *)
(** * Continuity records ([services/scan/continuity.py])

    The records of the continuity planner with the checks their constructors
    run ([__post_init__], here [check_*]), the content digests, and the two
    transition validators of the policy registry and of entities.  Tests that a
    field has its declared type hold by typing and are not repeated; fields
    restricted to a few literals are enumerations. *)
From stdpp Require Import base tactics list gmap strings.
From Stdlib Require Import ZArith Lia.
From S2P Require Import Prelude PyData PyDict Cpg Ordering Json Identity.

Open Scope Z_scope.
Open Scope py_scope.

Notation "m ⊳ k" := (obind m (fun _ => k)) (at level 101, right associativity) : py_scope.

(** [if c: raise ValueError(msg)] *)
Definition raise_if (c : bool) (msg : string) : outcome unit :=
  if c then Raise (ValueError msg) else Ok tt.

(** A [for] loop whose body only raises. *)
Definition forO {A} (f : A -> outcome unit) (l : list A) : outcome unit := foldO (fun _ x => f x) tt l.

Definition is_nil {A} (l : list A) : bool := match l with [] => true | _ => false end.
Definition is_some {A} (o : option A) : bool := match o with Some _ => true | None => false end.

(** [len(set(l)) != len(l)] *)
Definition has_dup (l : list pystr) : bool := negb (bool_decide (NoDup l)).

(** ** Field checks *)

(** [str.isspace] of one character *)
Definition is_space (c : Z) : bool :=
  ((9 <=? c) && (c <=? 13)) || ((28 <=? c) && (c <=? 32)) || (c =? 133) || (c =? 160) || (c =? 5760) ||
  ((8192 <=? c) && (c <=? 8202)) || (c =? 8232) || (c =? 8233) || (c =? 8239) || (c =? 8287) || (c =? 12288).

(** [_text] *)
Definition _text_check (value : pystr) (field : string) : outcome unit :=
  raise_if (forallb is_space value || (2048 <? len value) || existsb (fun c => c <? 32) value)
    (field +:+ " must be nonempty bounded text without control characters").

Definition sha_prefix : pystr := str "sha256:".

(** [_SHA256.fullmatch] *)
Definition is_sha256_ref (value : pystr) : bool :=
  bool_decide (take 7 value = sha_prefix) && hex64 (drop 7 value).

(** [_digest] *)
Definition _digest (value : pystr) (field : string) : outcome unit :=
  raise_if (negb (is_sha256_ref value)) (field +:+ " must be sha256:<64 lowercase hex>").

(** [_revision] *)
Definition _revision (value : Z) : outcome unit := raise_if (value <? 0) "revision must be a nonnegative integer".

(** [_references] *)
Definition _references (values : list pystr) (required : bool) : outcome unit :=
  raise_if ((required && bool_decide (values = [])) || (64 <? len values))
    "evidence/references must be a bounded immutable tuple" ⊳
  forO (fun v => _text_check v "reference") values ⊳
  raise_if (has_dup values) "duplicate evidence/reference".

(** ** Scopes, bindings and occurrences *)

Record CohortKey := mkCohort {
  org_id : pystr;
  codebase_id : pystr;
  repository_id : pystr;
  lineage_id : pystr;
  origin : pystr;
  engine : pystr;
  detector_id : pystr;
  vulnerability_class : pystr;
  language : pystr;
  rule_semantic_digest : pystr;
  s_version : pystr
}.

#[export] Instance CohortKey_eq_dec : EqDecision CohortKey.
Proof. solve_decision. Defined.

(** [asdict], as the fields in order *)
Definition cohort_fields (k : CohortKey) : list (string * pystr) :=
  [("org_id", org_id k); ("codebase_id", codebase_id k); ("repository_id", repository_id k);
   ("lineage_id", lineage_id k); ("origin", origin k); ("engine", engine k); ("detector_id", detector_id k);
   ("vulnerability_class", vulnerability_class k); ("language", language k);
   ("rule_semantic_digest", rule_semantic_digest k); ("s_version", s_version k)].

Definition CORE : pystr := str "deterministic-core".

Definition check_cohort (k : CohortKey) : outcome unit :=
  forO (fun nv => _text_check nv.2 nv.1) (cohort_fields k) ⊳
  _digest (rule_semantic_digest k) "rule_semantic_digest" ⊳
  raise_if (negb (bool_decide (origin k ∈ [CORE; str "oracle-passthrough"]))) "unknown finding origin".

Record IdentityBinding := mkBinding {
  identity_policy_digest : pystr;
  model_profile : pystr;
  normalization_profile : pystr;
  binding_budget_policy : pystr;
  observed_full_environment_manifest_digest : pystr;
  analysis_code_revision : pystr;
  analysis_code_content_digest : pystr
}.

#[export] Instance IdentityBinding_eq_dec : EqDecision IdentityBinding.
Proof. solve_decision. Defined.

Definition binding_fields (b : IdentityBinding) : list (string * pystr) :=
  [("identity_policy_digest", identity_policy_digest b); ("model_profile", model_profile b);
   ("normalization_profile", normalization_profile b); ("budget_policy", binding_budget_policy b);
   ("observed_full_environment_manifest_digest", observed_full_environment_manifest_digest b);
   ("analysis_code_revision", analysis_code_revision b);
   ("analysis_code_content_digest", analysis_code_content_digest b)].

(** ["*" in value] *)
Definition has_star (v : pystr) : bool := bool_decide (42 ∈ v).

Definition check_binding (b : IdentityBinding) : outcome unit :=
  forO (fun nv => _text_check nv.2 nv.1 ⊳ raise_if (has_star nv.2) "identity compatibility has no wildcard")
    (binding_fields b) ⊳
  forO (fun v => _digest v "identity binding digest")
    [identity_policy_digest b; observed_full_environment_manifest_digest b; analysis_code_content_digest b] ⊳
  raise_if (negb ((len (analysis_code_revision b) =? 40) && forallb is_lower_hex (analysis_code_revision b)))
    "analysis_code_revision must be 40 lowercase hex".

Record IdentityObservation := mkObservation {
  artifact : ArtifactIdentity;
  obs_evidence_refs : list pystr;
  failure_reason : option pystr
}.

#[export] Instance IdentityObservation_eq_dec : EqDecision IdentityObservation.
Proof. solve_decision. Defined.

Definition FAILED : pystr := str "failed".

Definition check_observation (o : IdentityObservation) : outcome unit :=
  _references (obs_evidence_refs o) (bool_decide (a_status (artifact o) ∈ [COMPLETED; FAILED])) ⊳
  (match failure_reason o with Some r => _text_check r "identity failure reason" | None => Ok tt end) ⊳
  raise_if (bool_decide (a_status (artifact o) = FAILED) && bool_decide (failure_reason o = None))
    "failed identity requires its actual failure reason" ⊳
  raise_if (bool_decide (a_status (artifact o) = COMPLETED) && bool_decide (is_Some (failure_reason o)))
    "completed identity cannot carry a failure reason".

Record OccurrenceView := mkOccurrence {
  occurrence_id : pystr;
  scan_id : pystr;
  capture_id : pystr;
  source_tree_digest : pystr;
  cohort : CohortKey;
  raw_result_digest : pystr;
  scan_local_sink_binding : pystr;
  duplicate_ambiguity : bool;
  graph : IdentityObservation;
  sliced : IdentityObservation;
  binding : option IdentityBinding
}.

#[export] Instance OccurrenceView_eq_dec : EqDecision OccurrenceView.
Proof. solve_decision. Defined.

Definition check_occurrence (o : OccurrenceView) : outcome unit :=
  forO (fun v => _text_check v "occurrence identifier")
    [occurrence_id o; scan_id o; capture_id o; scan_local_sink_binding o] ⊳
  _digest (source_tree_digest o) "source_tree_digest" ⊳
  _digest (raw_result_digest o) "raw_result_digest".

(** ** [asdict] and digests *)

Definition jopt (o : option pystr) : json := match o with Some s => JStr s | None => JNull end.
Definition jstrs (l : list pystr) : json := JList (map JStr l).
Definition jfields (l : list (string * pystr)) : list (pystr * json) := map (fun nv => (str nv.1, JStr nv.2)) l.

Definition cohort_json (k : CohortKey) : json := JObj (jfields (cohort_fields k)).
Definition binding_json (b : IdentityBinding) : json := JObj (jfields (binding_fields b)).
Definition artifact_json (a : ArtifactIdentity) : json := JObj
  [(str "status", JStr (a_status a)); (str "digest", jopt (a_digest a));
   (str "fingerprint_class", jopt (a_class a)); (str "namespace", jopt (a_namespace a))].
Definition observation_json (o : IdentityObservation) : json := JObj
  [(str "artifact", artifact_json (artifact o)); (str "evidence_refs", jstrs (obs_evidence_refs o));
   (str "failure_reason", jopt (failure_reason o))].
Definition occurrence_json (o : OccurrenceView) : json := JObj
  [(str "occurrence_id", JStr (occurrence_id o)); (str "scan_id", JStr (scan_id o));
   (str "capture_id", JStr (capture_id o)); (str "source_tree_digest", JStr (source_tree_digest o));
   (str "cohort", cohort_json (cohort o)); (str "raw_result_digest", JStr (raw_result_digest o));
   (str "scan_local_sink_binding", JStr (scan_local_sink_binding o));
   (str "duplicate_ambiguity", JBool (duplicate_ambiguity o)); (str "graph", observation_json (graph o));
   (str "sliced", observation_json (sliced o));
   (str "binding", match binding o with Some b => binding_json b | None => JNull end)].

(** [occurrence_digest] *)
Definition occurrence_digest (o : OccurrenceView) : outcome pystr :=
  _hash (str "scanipy-continuity-occurrence-view/1") (occurrence_json o).

Inductive DetectionState := detection_pending | detection_running | detection_completed | detection_failed.

#[export] Instance DetectionState_eq_dec : EqDecision DetectionState.
Proof. solve_decision. Defined.

Definition detection_state_str (s : DetectionState) : pystr :=
  match s with
  | detection_pending => str "pending"
  | detection_running => str "running"
  | detection_completed => str "completed"
  | detection_failed => str "failed"
  end.

Record DetectionInventory := mkInventory {
  inv_scan_id : pystr;
  inv_capture_id : pystr;
  inv_source_tree_digest : pystr;
  inv_cohort : CohortKey;
  detection_state : DetectionState;
  sealed : bool;
  sealed_occurrence_ids : list pystr;
  occurrences : list OccurrenceView;
  inv_evidence_refs : list pystr;
  inv_content_digest : pystr
}.

Definition by_occurrence_id (a b : OccurrenceView) : bool := str_leb (occurrence_id a) (occurrence_id b).

(** [inventory_digest] *)
Definition inventory_digest (i : DetectionInventory) : outcome pystr :=
  _hash (str "scanipy-continuity-inventory/1") (JObj
    [(str "scan_id", JStr (inv_scan_id i)); (str "capture_id", JStr (inv_capture_id i));
     (str "source_tree_digest", JStr (inv_source_tree_digest i)); (str "cohort", cohort_json (inv_cohort i));
     (str "detection_state", JStr (detection_state_str (detection_state i))); (str "sealed", JBool (sealed i));
     (str "sealed_occurrence_ids", jstrs (py_sorted str_leb (sealed_occurrence_ids i)));
     (str "occurrences", JList (map occurrence_json (py_sorted by_occurrence_id (occurrences i))));
     (str "evidence_refs", jstrs (py_sorted str_leb (inv_evidence_refs i)))]).

Definition outside_scope (i : DetectionInventory) (o : OccurrenceView) : bool :=
  negb (bool_decide (scan_id o = inv_scan_id i)) || negb (bool_decide (capture_id o = inv_capture_id i)) ||
  negb (bool_decide (source_tree_digest o = inv_source_tree_digest i)) ||
  negb (bool_decide (cohort o = inv_cohort i)).

Definition check_inventory (i : DetectionInventory) : outcome unit :=
  forO (fun v => _text_check v "inventory identifier") [inv_scan_id i; inv_capture_id i] ⊳
  _digest (inv_source_tree_digest i) "inventory source tree" ⊳
  _digest (inv_content_digest i) "inventory digest" ⊳
  _references (inv_evidence_refs i) (sealed i) ⊳
  forO (fun v => _text_check v "sealed occurrence id") (sealed_occurrence_ids i) ⊳
  forO (fun o => raise_if (outside_scope i o) "occurrence is outside inventory scope/capture") (occurrences i) ⊳
  raise_if (has_dup (map occurrence_id (occurrences i)) || has_dup (sealed_occurrence_ids i))
    "duplicate occurrence inventory entry" ⊳
  raise_if (negb (bool_decide (list_to_set (map occurrence_id (occurrences i)) =@{gset pystr}
    list_to_set (sealed_occurrence_ids i)))) "exact occurrence inventory mismatch" ⊳
  (d ⇐ inventory_digest i;
   raise_if (negb (bool_decide (inv_content_digest i = d))) "inventory content digest mismatch").

(** ** Policies and their registry *)

Record CompatibilityProfile := mkProfile {
  p_engine : pystr;
  p_detector_id : pystr;
  p_vulnerability_class : pystr;
  p_language : pystr;
  p_rule_semantic_digest : pystr;
  p_s_version : pystr;
  p_binding : IdentityBinding;
  p_graph_namespace : pystr;
  p_slice_namespace : pystr
}.

#[export] Instance CompatibilityProfile_eq_dec : EqDecision CompatibilityProfile.
Proof. solve_decision. Defined.

Definition check_profile (p : CompatibilityProfile) : outcome unit :=
  forO (fun v => _text_check v "policy compatibility profile" ⊳ raise_if (has_star v) "policy profiles have no wildcard")
    [p_engine p; p_detector_id p; p_vulnerability_class p; p_language p; p_s_version p] ⊳
  raise_if (negb (bool_decide (p_engine p ∈ [str "ifds"; str "ide"])))
    "only deterministic-core engines can receive continuity policy" ⊳
  _digest (p_rule_semantic_digest p) "policy rule semantics" ⊳
  raise_if (negb (bool_decide (p_graph_namespace p = GRAPH_V2)) || negb (bool_decide (p_slice_namespace p = SLICE_V2)))
    "unsupported continuity namespace; explicit implementation required".

Definition POLICY_NAMESPACE : pystr := str "scanipy-continuity-policy/1".

Record PolicyDefinition := mkPolicy {
  profiles : list CompatibilityProfile;
  pol_evidence_refs : list pystr;
  review_revision_ref : pystr;
  pol_namespace : pystr
}.

Definition profile_json (p : CompatibilityProfile) : json := JObj
  [(str "engine", JStr (p_engine p)); (str "detector_id", JStr (p_detector_id p));
   (str "vulnerability_class", JStr (p_vulnerability_class p)); (str "language", JStr (p_language p));
   (str "rule_semantic_digest", JStr (p_rule_semantic_digest p)); (str "s_version", JStr (p_s_version p));
   (str "binding", binding_json (p_binding p)); (str "graph_namespace", JStr (p_graph_namespace p));
   (str "slice_namespace", JStr (p_slice_namespace p))].

(** [PolicyDefinition.digest] *)
Definition policy_digest (d : PolicyDefinition) : outcome pystr :=
  _hash POLICY_NAMESPACE (JObj
    [(str "profiles", JList (map profile_json (profiles d))); (str "evidence_refs", jstrs (pol_evidence_refs d));
     (str "review_revision_ref", JStr (review_revision_ref d)); (str "namespace", JStr (pol_namespace d))]).

Definition check_policy (d : PolicyDefinition) : outcome unit :=
  raise_if (negb (bool_decide (pol_namespace d = POLICY_NAMESPACE))) "unsupported matching policy namespace" ⊳
  raise_if (bool_decide (profiles d = [])) "policy requires nonempty immutable exact profiles" ⊳
  raise_if (negb (bool_decide (NoDup (profiles d)))) "duplicate policy profile" ⊳
  _references (pol_evidence_refs d) true ⊳
  _text_check (review_revision_ref d) "review revision reference".

Inductive PolicyState := active | revoked.

#[export] Instance PolicyState_eq_dec : EqDecision PolicyState.
Proof. solve_decision. Defined.

Record PolicyEntry := mkEntry {
  definition : PolicyDefinition;
  content_digest : pystr;
  state : PolicyState;
  activation_event_id : pystr
}.

Definition check_entry (e : PolicyEntry) : outcome unit :=
  (d ⇐ policy_digest (definition e);
   raise_if (negb (bool_decide (content_digest e = d))) "registry policy content digest mismatch") ⊳
  _text_check (activation_event_id e) "activation event id".

Record PolicyRegistrySnapshot := mkRegistry {
  revision : Z;
  entries : list PolicyEntry;
  used_activation_event_ids : list pystr
}.

Definition id_set (l : list pystr) : gset pystr := list_to_set l.

Definition check_registry (r : PolicyRegistrySnapshot) : outcome unit :=
  _revision (revision r) ⊳
  raise_if (has_dup (map content_digest (entries r))) "ambiguous duplicate registry policy" ⊳
  raise_if (has_dup (map activation_event_id (entries r)))
    "activation event id must identify one policy activation" ⊳
  forO (fun v => _text_check v "historical activation event id") (used_activation_event_ids r) ⊳
  raise_if (has_dup (used_activation_event_ids r)) "duplicate historical activation event id" ⊳
  raise_if (negb (bool_decide (id_set (map activation_event_id (entries r)) ⊆ id_set (used_activation_event_ids r))))
    "registry activation is missing from retained activation history".

(** [PolicyRegistrySnapshot.active] *)
Definition active_entry (r : PolicyRegistrySnapshot) (digest : pystr) : option PolicyEntry :=
  List.find (fun e => bool_decide (content_digest e = digest) && bool_decide (state e = active)) (entries r).

Definition PRODUCTION_POLICY_REGISTRY : PolicyRegistrySnapshot := mkRegistry 0 [] [].

(** [{entry.content_digest: entry for entry in ...}] *)
Definition by_digest (r : PolicyRegistrySnapshot) : gmap pystr PolicyEntry :=
  py_dict (map (fun e => (content_digest e, e)) (entries r)).

(** One iteration over [new.items()]: the digests of a snapshot are distinct. *)
Definition admit_entry (old : gmap pystr PolicyEntry) (old_ids : gset pystr) (introduced : gset pystr)
    (e : PolicyEntry) : outcome (gset pystr) :=
  match old !! content_digest e with
  | None =>
      if decide (activation_event_id e ∈ old_ids) then Raise (ValueError "new policy requires a fresh activation event")
      else Ok ({[activation_event_id e]} ∪ introduced)
  | Some prior =>
      if decide (state prior = revoked /\ state e = active) then
        if decide (activation_event_id e ∈ old_ids) then Raise (ValueError "reactivation requires a fresh activation event")
        else Ok ({[activation_event_id e]} ∪ introduced)
      else if decide (activation_event_id e = activation_event_id prior) then Ok introduced
      else Raise (ValueError "activation event can change only on explicit reactivation")
  end.

(** [validate_registry_transition] *)
Definition validate_registry_transition (previous current : PolicyRegistrySnapshot) : outcome unit :=
  raise_if (negb (revision current =? revision previous + 1)) "registry transition requires exactly the next revision" ⊳
  (let old := by_digest previous in
   let new := by_digest current in
   raise_if (negb (bool_decide (dom old ⊆ dom new))) "registry retains revoked policies; removal is forbidden" ⊳
   (let old_ids := id_set (used_activation_event_ids previous) in
    let new_ids := id_set (used_activation_event_ids current) in
    raise_if (negb (bool_decide (old_ids ⊆ new_ids))) "registry must retain every historical activation event id" ⊳
    (introduced ⇐ foldO (admit_entry old old_ids) ∅ (entries current);
     raise_if (negb (bool_decide (new_ids ∖ old_ids = introduced)))
       "activation history additions must match actual activation events"))).

(** ** Human decisions and entities *)

Inductive DecisionValue := unreviewed | confirmed | false_positive | suppression_active | suppression_inactive.

#[export] Instance DecisionValue_eq_dec : EqDecision DecisionValue.
Proof. solve_decision. Defined.

Definition is_verdict (v : DecisionValue) : bool :=
  match v with unreviewed | confirmed | false_positive => true | _ => false end.

Record DimensionDecision := mkDecision {
  value : DecisionValue;
  event_id : pystr;
  d_revision : Z;
  references : list pystr;
  authorized_generation : option Z
}.

#[export] Instance DimensionDecision_eq_dec : EqDecision DimensionDecision.
Proof. solve_decision. Defined.

Definition check_decision (d : DimensionDecision) : outcome unit :=
  _text_check (event_id d) "human decision event id" ⊳ _revision (d_revision d) ⊳ _references (references d) false ⊳
  match authorized_generation d with Some g => _revision g | None => Ok tt end.

Record ReferenceMetadata := mkReference {
  m_event_id : pystr;
  m_revision : Z;
  m_references : list pystr
}.

#[export] Instance ReferenceMetadata_eq_dec : EqDecision ReferenceMetadata.
Proof. solve_decision. Defined.

Definition check_reference (m : ReferenceMetadata) : outcome unit :=
  _text_check (m_event_id m) "reference metadata event id" ⊳ _revision (m_revision m) ⊳ _references (m_references m) true.

Inductive TargetScope := scope_occurrence | scope_entity.

#[export] Instance TargetScope_eq_dec : EqDecision TargetScope.
Proof. solve_decision. Defined.

Record DecisionSnapshot := mkDecisions {
  target_scope : TargetScope;
  target_id : pystr;
  dec_cohort : CohortKey;
  dec_revision : Z;
  verdict : option DimensionDecision;
  suppression : option DimensionDecision;
  metadata : option ReferenceMetadata
}.

Definition check_dimension (s : DecisionSnapshot) (want_verdict : bool) (d : option DimensionDecision) : outcome unit :=
  match d with
  | None => Ok tt
  | Some d =>
      raise_if (negb (Bool.eqb (is_verdict (value d)) want_verdict) || (dec_revision s <? d_revision d))
        "decision dimension/value/revision mismatch" ⊳
      raise_if (match target_scope s with
                | scope_entity => bool_decide (authorized_generation d = None)
                | scope_occurrence => bool_decide (is_Some (authorized_generation d))
                end) "authorization generation must match decision scope"
  end.

(** The event ids of the current decisions. *)
Definition decision_event_ids (s : DecisionSnapshot) : list pystr :=
  option_list (event_id <$> verdict s) ++ option_list (event_id <$> suppression s) ++
  option_list (m_event_id <$> metadata s).

Definition check_decisions (s : DecisionSnapshot) : outcome unit :=
  _text_check (target_id s) "decision target id" ⊳ _revision (dec_revision s) ⊳
  check_dimension s true (verdict s) ⊳ check_dimension s false (suppression s) ⊳
  raise_if (match metadata s with Some m => dec_revision s <? m_revision m | None => false end)
    "invalid reference metadata/revision" ⊳
  raise_if (has_dup (decision_event_ids s)) "decision events must have distinct event ids".

Inductive Lifecycle := entity_open | entity_resolved | entity_reappeared | entity_uncertain.

#[export] Instance Lifecycle_eq_dec : EqDecision Lifecycle.
Proof. solve_decision. Defined.

Record EntitySnapshot := mkEntity {
  entity_id : pystr;
  ent_cohort : CohortKey;
  lifecycle : Lifecycle;
  ent_revision : Z;
  decisions : DecisionSnapshot;
  lifecycle_generation : Z
}.

Definition authorized_by (generation : Z) (d : option DimensionDecision) : bool :=
  match d with
  | None => true
  | Some d => match authorized_generation d with Some g => g <=? generation | None => false end
  end.

Definition check_entity (e : EntitySnapshot) : outcome unit :=
  _text_check (entity_id e) "entity id" ⊳ _revision (ent_revision e) ⊳ _revision (lifecycle_generation e) ⊳
  raise_if (negb (bool_decide (target_scope (decisions e) = scope_entity)) ||
            negb (bool_decide (target_id (decisions e) = entity_id e)) ||
            negb (bool_decide (dec_cohort (decisions e) = ent_cohort e))) "entity decision target/scope mismatch" ⊳
  raise_if (negb (authorized_by (lifecycle_generation e) (verdict (decisions e))) ||
            negb (authorized_by (lifecycle_generation e) (suppression (decisions e))))
    "entity cannot carry future/absent authorization generation".

Inductive LifecycleAction := act_resolve | act_reappear | act_mark_uncertain | act_open_for_review.

(** [_LIFECYCLE_TARGETS] *)
Definition lifecycle_target (a : LifecycleAction) : Lifecycle :=
  match a with
  | act_resolve => entity_resolved
  | act_reappear => entity_reappeared
  | act_mark_uncertain => entity_uncertain
  | act_open_for_review => entity_open
  end.

Record EntityLifecycleEvent := mkLifecycleEvent {
  l_event_id : pystr;
  l_entity_id : pystr;
  l_cohort : CohortKey;
  l_action : LifecycleAction;
  previous_revision : Z;
  previous_generation : Z;
  l_evidence_refs : list pystr
}.

Definition check_lifecycle_event (e : EntityLifecycleEvent) : outcome unit :=
  _text_check (l_event_id e) "lifecycle event id" ⊳ _text_check (l_entity_id e) "lifecycle entity id" ⊳
  _revision (previous_revision e) ⊳ _revision (previous_generation e) ⊳ _references (l_evidence_refs e) true.

Inductive Dimension := dim_verdict | dim_suppression | dim_metadata.

#[export] Instance Dimension_eq_dec : EqDecision Dimension.
Proof. solve_decision. Defined.

(** [DimensionDecision | ReferenceMetadata] *)
Inductive HumanEvent :=
| DecisionEvent (d : DimensionDecision)
| ReferenceEvent (m : ReferenceMetadata).

#[export] Instance HumanEvent_eq_dec : EqDecision HumanEvent.
Proof. solve_decision. Defined.

Definition human_event_id (e : HumanEvent) : pystr :=
  match e with DecisionEvent d => event_id d | ReferenceEvent m => m_event_id m end.
Definition human_event_revision (e : HumanEvent) : Z :=
  match e with DecisionEvent d => d_revision d | ReferenceEvent m => m_revision m end.

Record HumanAuthorization := mkAuthorization {
  h_entity_id : pystr;
  h_cohort : CohortKey;
  dimension : Dimension;
  event : HumanEvent;
  authority_ref : pystr
}.

Definition check_authorization (h : HumanAuthorization) : outcome unit :=
  _text_check (h_entity_id h) "human authorization target" ⊳
  _text_check (authority_ref h) "trusted human authority reference" ⊳
  match dimension h, event h with
  | dim_metadata, ReferenceEvent _ => Ok tt
  | dim_metadata, DecisionEvent _ => Raise (ValueError "metadata event cannot grant dimension authorization")
  | dim, DecisionEvent d =>
      raise_if (negb (Bool.eqb (is_verdict (value d)) (bool_decide (dim = dim_verdict))) ||
                bool_decide (authorized_generation d = None))
        "entity human authorization dimension/generation mismatch"
  | _, ReferenceEvent _ => Raise (ValueError "entity human authorization dimension/generation mismatch")
  end.

(** [getattr(decisions, name)] *)
Definition dimension_of (s : DecisionSnapshot) (dim : Dimension) : option HumanEvent :=
  match dim with
  | dim_verdict => DecisionEvent <$> verdict s
  | dim_suppression => DecisionEvent <$> suppression s
  | dim_metadata => ReferenceEvent <$> metadata s
  end.

Definition exact_lifecycle_event (previous current : EntitySnapshot) (ev : option EntityLifecycleEvent) : bool :=
  match ev with
  | None => false
  | Some e =>
      bool_decide (l_entity_id e = entity_id current) && bool_decide (l_cohort e = ent_cohort current) &&
      (previous_revision e =? ent_revision previous) && (previous_generation e =? lifecycle_generation previous) &&
      bool_decide (lifecycle_target (l_action e) = lifecycle current)
  end.

(** One iteration of the loop over the dimensions. *)
Definition check_authorized_change (previous current : EntitySnapshot) (auths : list HumanAuthorization)
    (dim : Dimension) : outcome unit :=
  let old := dimension_of (decisions previous) dim in
  let new := dimension_of (decisions current) dim in
  match List.find (fun a => bool_decide (dimension a = dim)) auths with
  | None => raise_if (negb (bool_decide (new = old))) "unchanged dimension cannot be restamped without its own human event"
  | Some a =>
      match new with
      | None => Raise (ValueError "fresh human event must match exact target/dimension/new revision")
      | Some n =>
          raise_if (negb (bool_decide (h_entity_id a = entity_id current)) ||
                    negb (bool_decide (h_cohort a = ent_cohort current)) || bool_decide (new = old) ||
                    negb (bool_decide (event a = n)) || negb (human_event_revision n =? dec_revision (decisions current)))
            "fresh human event must match exact target/dimension/new revision" ⊳
          match n, old with
          | DecisionEvent d, _ =>
              raise_if (negb (bool_decide (authorized_generation d = Some (lifecycle_generation current))))
                "fresh human event must authorize the current lifecycle generation"
          | ReferenceEvent m, Some (ReferenceEvent o) =>
              raise_if (negb (bool_decide (id_set (m_references o) ⊆ id_set (m_references m))))
                "reference metadata additions must preserve previous references"
          | ReferenceEvent _, _ => Ok tt
          end
      end
  end.

(** [validate_entity_transition] *)
Definition validate_entity_transition (previous current : EntitySnapshot) (lifecycle_event : option EntityLifecycleEvent)
    (human_authorizations : list HumanAuthorization) : outcome unit :=
  raise_if (negb (bool_decide (entity_id current = entity_id previous)) ||
            negb (bool_decide (ent_cohort current = ent_cohort previous)))
    "entity transition cannot change target or scope" ⊳
  raise_if (negb (ent_revision current =? ent_revision previous + 1))
    "entity transition requires exactly the next revision" ⊳
  (let changed := negb (bool_decide (lifecycle previous = lifecycle current)) in
   raise_if (negb (lifecycle_generation current =? lifecycle_generation previous + (if changed then 1 else 0)))
     "generation must advance exactly once per lifecycle-state change" ⊳
   (if changed
    then raise_if (negb (exact_lifecycle_event previous current lifecycle_event))
           "lifecycle change requires an exact typed lifecycle event"
    else raise_if (is_some lifecycle_event)
           "lifecycle event requires an actual state change") ⊳
   raise_if (negb changed && is_nil human_authorizations)
     "entity transition has no lifecycle or human event" ⊳
   raise_if (negb (dec_revision (decisions current) =?
                   dec_revision (decisions previous) + (if is_nil human_authorizations then 0 else 1)))
     "decision revision must advance exactly once per human-event transaction" ⊳
   raise_if (negb (bool_decide (NoDup (map dimension human_authorizations))))
     "duplicate human authorization dimension in transition" ⊳
   (let event_ids := map (fun a => human_event_id (event a)) human_authorizations ++
                     option_list (l_event_id <$> lifecycle_event) in
    raise_if (has_dup event_ids || existsb (fun i => bool_decide (i ∈ decision_event_ids (decisions previous))) event_ids)
      "transition event ids must be unique and not restamp current events") ⊳
   forO (check_authorized_change previous current human_authorizations) [dim_verdict; dim_suppression; dim_metadata]).

(** ** Lineage, guards and plans *)

Record PredecessorEntity := mkPredecessor { pre_occurrence_id : pystr; entity : EntitySnapshot }.

Definition check_predecessor (p : PredecessorEntity) : outcome unit :=
  _text_check (pre_occurrence_id p) "predecessor occurrence id".

Record LineageSnapshot := mkLineage {
  lin_cohort : CohortKey;
  lin_predecessor_scan_id : pystr;
  lin_current_scan_id : pystr;
  lin_revision : Z
}.

Definition check_lineage (l : LineageSnapshot) : outcome unit :=
  _text_check (lin_predecessor_scan_id l) "predecessor scan" ⊳ _text_check (lin_current_scan_id l) "current scan" ⊳
  raise_if (bool_decide (lin_predecessor_scan_id l = lin_current_scan_id l))
    "continuity requires distinct predecessor/current scans" ⊳
  _revision (lin_revision l).

Record GuardRevisions := mkGuards {
  g_cohort : CohortKey;
  predecessor_scan_id : pystr;
  current_scan_id : pystr;
  lineage_revision : Z;
  registry_revision : Z;
  g_policy_digest : pystr;
  g_activation_event_id : pystr;
  g_entity_id : pystr;
  entity_revision : Z;
  entity_lifecycle_generation : Z;
  decision_revision : Z;
  predecessor_inventory_digest : pystr;
  current_inventory_digest : pystr
}.

#[export] Instance GuardRevisions_eq_dec : EqDecision GuardRevisions.
Proof. solve_decision. Defined.

Definition check_guards (g : GuardRevisions) : outcome unit :=
  forO _revision [lineage_revision g; registry_revision g; entity_revision g; entity_lifecycle_generation g; decision_revision g] ⊳
  forO (fun v => _text_check v "guard identifier")
    [predecessor_scan_id g; current_scan_id g; g_activation_event_id g; g_entity_id g] ⊳
  raise_if (bool_decide (predecessor_scan_id g = current_scan_id g)) "guards require distinct predecessor/current scans" ⊳
  forO (fun v => _digest v "guard digest") [g_policy_digest g; predecessor_inventory_digest g; current_inventory_digest g].

(** [guards_match] *)
Definition guards_match (expected current : GuardRevisions) : bool := bool_decide (expected = current).
