(* ===== verification/ContinuityPlan.v ===== *)
(** * Continuity planning ([services/scan/continuity.py])

    [plan_continuity] proposes, for every occurrence of the current scan, a
    link to an entity of the predecessor scan, a new identity or a block;
    [effective_decisions] resolves which human decisions an occurrence
    inherits. *)
From stdpp Require Import base tactics list gmap strings.
From Stdlib Require Import ZArith Lia.
From S2P Require Import Prelude PyData PyDict Cpg Ordering Json Identity Continuity.

Open Scope Z_scope.
Open Scope py_scope.

Record LinkProposal := mkLink {
  predecessor_occurrence_id : pystr;
  current_occurrence_id : pystr;
  link_entity_id : pystr;
  current_occurrence_digest : pystr;
  profile : CompatibilityProfile;
  slice_digest : pystr;
  predecessor_graph_digest : pystr;
  current_graph_digest : pystr;
  inherit_entity_decisions : bool;
  guards : GuardRevisions
}.

Inductive DispositionStatus := linked | new_identity | blocked.

#[export] Instance DispositionStatus_eq_dec : EqDecision DispositionStatus.
Proof. solve_decision. Defined.

Record OccurrenceDisposition := mkDisposition {
  disp_occurrence_id : pystr;
  disp_status : DispositionStatus;
  reason : pystr;
  link : option LinkProposal
}.

Record ContinuityPlan := mkPlan {
  dispositions : list OccurrenceDisposition;
  retained_predecessor_ids : list pystr;
  group_block_reason : option pystr
}.

(** [_profile] *)
Definition _profile (o : OccurrenceView) : outcome (option CompatibilityProfile) :=
  let k := cohort o in
  match binding o with
  | Some b =>
      if negb (bool_decide (origin k = CORE)) || negb (bool_decide (engine k ∈ [str "ifds"; str "ide"])) ||
         negb (strong_in GRAPH_V2 (artifact (graph o))) || negb (strong_in SLICE_V2 (artifact (sliced o))) ||
         duplicate_ambiguity o
      then Ok None
      else
        let p := mkProfile (engine k) (detector_id k) (vulnerability_class k) (language k) (rule_semantic_digest k)
                   (s_version k) b GRAPH_V2 SLICE_V2 in
        check_profile p ⊳ Ok (Some p)
  | None => Ok None
  end.

(** The loop that builds [associations]. *)
Definition associate (before : DetectionInventory) (previous_ids : gset pystr) (m : gmap pystr EntitySnapshot)
    (a : PredecessorEntity) : outcome (gmap pystr EntitySnapshot) :=
  if decide (pre_occurrence_id a ∉ previous_ids \/ ent_cohort (entity a) <> inv_cohort before \/
             is_Some (m !! pre_occurrence_id a))
  then Raise (ValueError "invalid/duplicate/cross-scope predecessor entity association")
  else Ok (<[pre_occurrence_id a := entity a]> m).

(** The loop that builds [profiles]; [None] when an item is not eligible. *)
Fixpoint eligible_profiles (entry : PolicyEntry) (m : gmap pystr CompatibilityProfile) (items : list OccurrenceView) :
    outcome (option (gmap pystr CompatibilityProfile)) :=
  match items with
  | [] => Ok (Some m)
  | o :: rest =>
      p ⇐ _profile o;
      match p with
      | Some p => if decide (p ∈ profiles (definition entry)) then eligible_profiles entry (<[occurrence_id o := p]> m) rest
                  else Ok None
      | None => Ok None
      end
  end.

Definition identity_key : Type := option CompatibilityProfile * option pystr.

(** [key(item)]; every item of the group is a key of [profiles]. *)
Definition key (ps : gmap pystr CompatibilityProfile) (o : OccurrenceView) : identity_key :=
  (ps !! occurrence_id o, a_digest (artifact (sliced o))).

(** [Counter(key(item) for item in items)[k]] *)
Definition count_key (ps : gmap pystr CompatibilityProfile) (items : list OccurrenceView) (k : identity_key) : Z :=
  len (List.filter (fun o => bool_decide (key ps o = k)) items).

(** [assert x is not None] *)
Definition assert_some {A} (o : option A) : outcome A :=
  match o with Some a => Ok a | None => Raise AssertionError end.

Section plan.
Context (before after : DetectionInventory) (policy : pystr) (registry : PolicyRegistrySnapshot)
  (lineage : LineageSnapshot).
Context (entry : PolicyEntry) (associations : gmap pystr EntitySnapshot) (ps : gmap pystr CompatibilityProfile)
  (previous current : list OccurrenceView).

(** The link proposed for [item] with the predecessor [old]. *)
Definition propose (item old : OccurrenceView) (e : EntitySnapshot) : outcome LinkProposal :=
  sd ⇐ assert_some (a_digest (artifact (sliced item)));
  gd ⇐ assert_some (a_digest (artifact (graph item)));
  pd ⇐ assert_some (a_digest (artifact (graph old)));
  let g := mkGuards (inv_cohort after) (inv_scan_id before) (inv_scan_id after) (lin_revision lineage)
             (revision registry) policy (activation_event_id entry) (entity_id e) (ent_revision e)
             (lifecycle_generation e) (dec_revision (decisions e)) (inv_content_digest before) (inv_content_digest after) in
  check_guards g ⊳
  (od ⇐ occurrence_digest item;
   p ⇐ getitem ps (occurrence_id item);
   Ok (mkLink (occurrence_id old) (occurrence_id item) (entity_id e) od p sd pd gd
         (bool_decide (lifecycle e = entity_open)) g)).

(** One iteration of the loop over [current]. *)
Definition dispose (item : OccurrenceView) : outcome OccurrenceDisposition :=
  let k := key ps item in
  if (1 <? count_key ps previous k) || (1 <? count_key ps current k)
  then Ok (mkDisposition (occurrence_id item) blocked (str "ambiguous_equal_slice") None)
  else match List.find (fun old => bool_decide (key ps old = k)) previous with
  | None => Ok (mkDisposition (occurrence_id item) new_identity (str "no_equal_eligible_predecessor") None)
  | Some old =>
      match associations !! occurrence_id old with
      | None => Ok (mkDisposition (occurrence_id item) blocked (str "predecessor_entity_unavailable") None)
      | Some e =>
          l ⇐ propose item old e;
          Ok (mkDisposition (occurrence_id item) linked (str "unique_eligible_identity") (Some l))
      end
  end.
End plan.

(** The predecessors used by the links. *)
Definition used_ids (ds : list OccurrenceDisposition) : list pystr :=
  omap (fun d => predecessor_occurrence_id <$> link d) ds.

(** [blocked(reason)] *)
Definition blocked_plan (current : list OccurrenceView) (previous_ids : gset pystr) (why : string) : ContinuityPlan :=
  mkPlan (map (fun o => mkDisposition (occurrence_id o) blocked (str why) None) current)
    (py_sorted str_leb (elements previous_ids)) (Some (str why)).

(** Some sink binding occurs twice. *)
Definition shared_sink (items : list OccurrenceView) : bool := has_dup (map scan_local_sink_binding items).

(** [plan_continuity] *)
Definition plan_continuity (before after : DetectionInventory) (policy : pystr) (registry : PolicyRegistrySnapshot)
    (lineage : LineageSnapshot) (predecessor_entities : list PredecessorEntity) : outcome ContinuityPlan :=
  _digest policy "matching policy digest" ⊳
  raise_if (negb (bool_decide (inv_cohort before = inv_cohort after)) ||
            negb (bool_decide (lin_cohort lineage = inv_cohort after)) ||
            negb (bool_decide (lin_predecessor_scan_id lineage = inv_scan_id before)) ||
            negb (bool_decide (lin_current_scan_id lineage = inv_scan_id after)))
    "comparison scope or explicit lineage mismatch" ⊳
  (let previous := py_sorted by_occurrence_id (occurrences before) in
   let current := py_sorted by_occurrence_id (occurrences after) in
   let previous_ids := id_set (map occurrence_id previous) in
   raise_if (negb (bool_decide (previous_ids ∩ id_set (map occurrence_id current) = ∅)))
     "occurrence ids must distinguish separate scans" ⊳
   (associations ⇐ foldO (associate before previous_ids) ∅ predecessor_entities;
    let duplicate_entity := has_dup (map (fun kv => entity_id kv.2) (map_to_list associations)) in
    if negb (sealed before) || negb (sealed after)
    then Ok (blocked_plan current previous_ids "unsealed_detection_inventory")
    else if negb (bool_decide (detection_state before = detection_completed)) ||
            negb (bool_decide (detection_state after = detection_completed))
    then Ok (blocked_plan current previous_ids "detection_incomplete")
    else match active_entry registry policy with
    | None => Ok (blocked_plan current previous_ids "matching_policy_inactive_or_unaccepted")
    | Some entry =>
        if duplicate_entity then Ok (blocked_plan current previous_ids "ambiguous_predecessor_entity")
        else if shared_sink previous || shared_sink current
        then Ok (blocked_plan current previous_ids "multiple_occurrences_at_one_sink")
        else
          ps ⇐ eligible_profiles entry ∅ (previous ++ current);
          match ps with
          | None => Ok (blocked_plan current previous_ids "ineligible_or_unsupported_potential_competitor")
          | Some ps =>
              ds ⇐ mapO (dispose before after policy registry lineage entry associations ps previous current) current;
              Ok (mkPlan ds (py_sorted str_leb (elements (previous_ids ∖ id_set (used_ids ds)))) None)
          end
    end)).

(** ** Effective decisions *)

Inductive DecisionSource := source_default | source_occurrence | source_entity.

Record EffectiveDimension := mkEffective {
  eff_value : DecisionValue;
  eff_source : DecisionSource;
  eff_event_id : option pystr;
  eff_references : list pystr
}.

Record EffectiveDecisions := mkEffectiveDecisions {
  eff_verdict : EffectiveDimension;
  eff_suppression : EffectiveDimension;
  inheritance_active : bool;
  inheritance_block_reason : option pystr
}.

(** [decision is not None and decision.authorized_generation == generation] *)
Definition current_generation (generation : Z) (d : option DimensionDecision) : bool :=
  match d with Some d => bool_decide (authorized_generation d = Some generation) | None => false end.

(** The [elif] chain over a link: the inherited decisions, or the reason not to
    inherit.  [digest] is [occurrence_digest(occurrence)] and [p] is
    [_profile(occurrence)]. *)
Definition inherit (o : OccurrenceView) (l : LinkProposal) (e : option EntitySnapshot) (r : PolicyRegistrySnapshot) :
    outcome (DecisionSnapshot + pystr) :=
  let entry := active_entry r (g_policy_digest (guards l)) in
  let refuse (s : string) : outcome (DecisionSnapshot + pystr) := Ok (inr (str s)) in
  let mismatched := refuse "link_occurrence_scope_or_content_mismatch" in
  if negb (bool_decide (current_occurrence_id l = occurrence_id o)) then mismatched
  else
    digest ⇐ occurrence_digest o;
    if negb (bool_decide (current_occurrence_digest l = digest)) ||
       negb (bool_decide (g_cohort (guards l) = cohort o)) ||
       negb (bool_decide (current_scan_id (guards l) = scan_id o)) ||
       negb (bool_decide (g_entity_id (guards l) = link_entity_id l))
    then mismatched
    else match entry with
    | None => refuse "policy_revoked_or_reactivation_needs_adjudication"
    | Some en =>
        if negb (bool_decide (activation_event_id en = g_activation_event_id (guards l)))
        then refuse "policy_revoked_or_reactivation_needs_adjudication"
        else if revision r <? registry_revision (guards l) then refuse "stale_registry_snapshot"
        else
          (if negb (bool_decide (profile l ∈ profiles (definition en)))
           then refuse "link_identity_policy_mismatch"
           else
             p ⇐ _profile o;
             if negb (bool_decide (p = Some (profile l))) ||
                negb (bool_decide (a_digest (artifact (sliced o)) = Some (slice_digest l))) ||
                negb (bool_decide (a_digest (artifact (graph o)) = Some (current_graph_digest l)))
             then refuse "link_identity_policy_mismatch"
             else match e with
             | None => refuse "entity_scope_or_identity_mismatch"
             | Some e =>
                 if negb (bool_decide (entity_id e = link_entity_id l)) || negb (bool_decide (ent_cohort e = cohort o))
                 then refuse "entity_scope_or_identity_mismatch"
                 else if (ent_revision e <? entity_revision (guards l)) ||
                         (dec_revision (decisions e) <? decision_revision (guards l))
                 then refuse "stale_entity_or_decision_snapshot"
                 else if negb (inherit_entity_decisions l) || negb (bool_decide (lifecycle e = entity_open))
                 then refuse "entity_requires_fresh_human_review"
                 else if negb (lifecycle_generation e =? entity_lifecycle_generation (guards l))
                 then refuse "link_requires_current_lifecycle_generation_adjudication"
                 else if negb (current_generation (lifecycle_generation e) (verdict (decisions e)) ||
                               current_generation (lifecycle_generation e) (suppression (decisions e)))
                 then refuse "no_current_generation_human_authorization"
                 else Ok (inl (decisions e))
             end)
    end.

(** [dimension(name, default)] *)
Definition effective_dimension (get : DecisionSnapshot -> option DimensionDecision) (dflt : DecisionValue)
    (direct inherited : option DecisionSnapshot) (e : option EntitySnapshot) : EffectiveDimension :=
  let inherit_or_default :=
    match inherited ≫= get, e with
    | Some d, Some e =>
        if bool_decide (authorized_generation d = Some (lifecycle_generation e))
        then mkEffective (value d) source_entity (Some (event_id d)) (references d)
        else mkEffective dflt source_default None []
    | _, _ => mkEffective dflt source_default None []
    end in
  match direct ≫= get with
  | Some d => mkEffective (value d) source_occurrence (Some (event_id d)) (references d)
  | None => inherit_or_default
  end.

(** [effective_decisions] *)
Definition effective_decisions (o : OccurrenceView) (l : option LinkProposal) (e : option EntitySnapshot)
    (r : PolicyRegistrySnapshot) (direct : option DecisionSnapshot) : outcome EffectiveDecisions :=
  raise_if (match direct with
            | Some d => negb (bool_decide (target_scope d = scope_occurrence)) ||
                        negb (bool_decide (target_id d = occurrence_id o)) || negb (bool_decide (dec_cohort d = cohort o))
            | None => false
            end) "direct decision belongs to another occurrence/scope" ⊳
  (res ⇐ (match l with Some l => inherit o l e r | None => Ok (inr (str "no_authorized_link")) end);
   let inherited := match res with inl d => Some d | inr _ => None end in
   Ok (mkEffectiveDecisions
         (effective_dimension verdict unreviewed direct inherited e)
         (effective_dimension suppression suppression_inactive direct inherited e)
         (is_some inherited)
         (match res with inl _ => None | inr why => Some why end))).
