(* ===== verification/ContinuitySpec.v ===== *)
(** * Correctness of continuity planning ([services/scan/continuity.py])

    Digests bind occurrences; plans account for every occurrence, link only
    unique strong identities and do not depend on row order; revocation is
    final; decisions are inherited only inside one lifecycle generation. *)
From stdpp Require Import base tactics list gmap strings sets relations.
From Stdlib Require Import ZArith Lia Sorted.
From S2P Require Import Prelude PyData PyDict Sha256 Cpg GraphSpec Ordering Json Identity Continuity ContinuityPlan.

Open Scope Z_scope.
Open Scope py_scope.

(** ** Digests bind occurrences *)

Lemma cons_split {A} (x y : A) l k : x :: l = y :: k -> x = y /\ l = k.
Proof. by intros [= -> ->]. Qed.

(** The distinct concrete keys of two records of one shape. *)
Ltac record_inj H :=
  apply canon_obj_inj in H; [|refine (bool_decide_unpack _ _); vm_compute; exact I|reflexivity];
  cbn [map fst snd] in H;
  repeat match type of H with _ :: _ = _ :: _ => let H1 := fresh "F" in apply cons_split in H as [H1 H] end; clear H.

Lemma jbool_inj a b : canon (JBool a) = canon (JBool b) -> a = b.
Proof. by intros [= ->]. Qed.

Lemma jopt_inj a b : canon (jopt a) = canon (jopt b) -> a = b.
Proof. destruct a, b; cbn; congruence. Qed.

Lemma jstrs_inj a b : canon (jstrs a) = canon (jstrs b) -> a = b.
Proof.
  unfold jstrs. cbn. intros [= E]. revert b E. induction a as [|x a IH]; intros [|y b]; cbn; try done.
  intros [= -> E]. f_equal. auto.
Qed.

Lemma jfields_inj (l k : list (string * pystr)) :
  map fst l = map fst k -> NoDup (map (fun nv => str nv.1) l) ->
  canon (JObj (jfields l)) = canon (JObj (jfields k)) -> map snd l = map snd k.
Proof.
  intros Hk Hnd H. apply canon_obj_inj in H.
  - unfold jfields in H. rewrite !map_map in H. cbn in H. revert k Hk H. clear. induction l as [|[n v] l IH];
      intros [|[n' v'] k]; cbn; try done. intros [= _ Hk] [= -> H]. f_equal. auto.
  - unfold jfields. rewrite map_map. done.
  - unfold jfields. rewrite !map_map. cbn. apply (f_equal (map str)) in Hk. by rewrite !map_map in Hk.
Qed.

Lemma cohort_json_inj a b : canon (cohort_json a) = canon (cohort_json b) -> a = b.
Proof.
  intros H. apply jfields_inj in H; [|done|refine (bool_decide_unpack _ _); vm_compute; exact I].
  destruct a, b. cbn in H. by simplify_eq.
Qed.

Lemma binding_json_inj a b : canon (binding_json a) = canon (binding_json b) -> a = b.
Proof.
  intros H. apply jfields_inj in H; [|done|refine (bool_decide_unpack _ _); vm_compute; exact I].
  destruct a, b. cbn in H. by simplify_eq.
Qed.

Lemma jstr_inj a b : canon (JStr a) = canon (JStr b) -> a = b.
Proof. by intros [= ->]. Qed.

(** Read the fields of two records off their equal canonical values. *)
Ltac field_inj lem :=
  repeat match goal with
  | H : canon (JStr _) = canon (JStr _) |- _ => apply jstr_inj in H
  | H : canon (JBool _) = canon (JBool _) |- _ => apply jbool_inj in H
  | H : canon (jopt _) = canon (jopt _) |- _ => apply jopt_inj in H
  | H : canon (jstrs _) = canon (jstrs _) |- _ => apply jstrs_inj in H
  | H : canon (cohort_json _) = canon (cohort_json _) |- _ => apply cohort_json_inj in H
  | H : canon _ = canon _ |- _ => lem H
  end.

Lemma artifact_json_inj a b : canon (artifact_json a) = canon (artifact_json b) -> a = b.
Proof.
  intros H. unfold artifact_json in H. record_inj H. field_inj ltac:(fun _ => fail). destruct a, b. cbn in *. by subst.
Qed.

Lemma observation_json_inj a b : canon (observation_json a) = canon (observation_json b) -> a = b.
Proof.
  intros H. unfold observation_json in H. record_inj H. field_inj ltac:(fun H => apply artifact_json_inj in H). destruct a, b. cbn in *. by subst.
Qed.

Lemma occurrence_json_inj a b : canon (occurrence_json a) = canon (occurrence_json b) -> a = b.
Proof.
  intros H. unfold occurrence_json in H. record_inj H. field_inj ltac:(fun H => apply observation_json_inj in H).
  assert (Hb : binding a = binding b).
  { destruct (binding a), (binding b); try done. f_equal. by apply binding_json_inj. }
  destruct a, b. cbn in *. congruence.
Qed.

(** The digest of an occurrence binds all of its content.  Two
    occurrences of code-point strings with one digest are equal, field by
    field, or their texts are a SHA-256 collision. *)
Theorem occurrence_digest_binds a b d :
  well_pointed (occurrence_json a) -> well_pointed (occurrence_json b) ->
  occurrence_digest a = Ok d -> occurrence_digest b = Ok d -> a = b \/ sha256_collision.
Proof.
  intros Ha Hb Da Db. destruct (hash_binds _ _ _ _ Ha Hb Da Db) as [E|E]; [left|by right].
  by apply occurrence_json_inj.
Qed.

(** ** Inversion of checks and loops *)

Lemma raise_if_Ok c msg u : raise_if c msg = Ok u <-> c = false.
Proof. unfold raise_if. destruct c, u; split; done. Qed.

Lemma forO_Ok {A} (f : A -> outcome unit) l u : forO f l = Ok u -> Forall (fun x => f x = Ok tt) l.
Proof.
  unfold forO. intros H. assert (Hg : forall s, foldO (fun _ x => f x) s l = Ok u -> Forall (fun x => f x = Ok tt) l); [|eauto].
  clear H. induction l as [|x l IH]; intros s; cbn; [constructor|].
  intros ([] & Hx & Hl)%obind_Ok. constructor; eauto.
Qed.

Lemma has_dup_false l : has_dup l = false <-> NoDup l.
Proof. unfold has_dup. rewrite negb_false_iff. apply bool_decide_eq_true. Qed.

Ltac checks_inv :=
  repeat match goal with
  | H : obind _ _ = Ok _ |- _ => apply obind_Ok in H as (? & ? & ?)
  | H : raise_if _ _ = Ok _ |- _ => apply raise_if_Ok in H
  | H : _ || _ = false |- _ => apply orb_false_iff in H as [? ?]
  | H : negb _ = false |- _ => apply negb_false_iff in H
  | H : bool_decide _ = true |- _ => apply bool_decide_eq_true in H
  | H : bool_decide _ = false |- _ => apply bool_decide_eq_false in H
  | H : has_dup _ = false |- _ => apply has_dup_false in H
  end.

(** What the constructor of an inventory guarantees. *)
Lemma inventory_Ok i u : check_inventory i = Ok u ->
  NoDup (map occurrence_id (occurrences i)) /\ Forall (fun o => cohort o = inv_cohort i) (occurrences i).
Proof.
  unfold check_inventory. intros H. checks_inv. split; [done|].
  match goal with H : forO (fun o => raise_if (outside_scope i o) _) _ = _ |- _ => apply forO_Ok in H as Hs end.
  eapply Forall_impl; [exact Hs|]. intros o Ho. cbn in Ho. unfold outside_scope in Ho. by checks_inv.
Qed.

(** ** The outcome of a plan *)

Lemma profile_Ok o p : _profile o = Ok (Some p) ->
  exists b, binding o = Some b /\ origin (cohort o) = CORE /\ engine (cohort o) ∈ [str "ifds"; str "ide"] /\
    strong_in GRAPH_V2 (artifact (graph o)) = true /\ strong_in SLICE_V2 (artifact (sliced o)) = true /\
    duplicate_ambiguity o = false /\
    p = mkProfile (engine (cohort o)) (detector_id (cohort o)) (vulnerability_class (cohort o)) (language (cohort o))
          (rule_semantic_digest (cohort o)) (s_version (cohort o)) b GRAPH_V2 SLICE_V2.
Proof.
  unfold _profile. destruct (binding o) as [b|]; [|done]. destruct (_ || _) eqn:E; [done|].
  intros (u & _ & [= <-])%obind_Ok. checks_inv. by exists b.
Qed.

Lemma eligible_Ok entry items : forall m ps, eligible_profiles entry m items = Ok (Some ps) ->
  (forall o, o ∈ items -> exists p, _profile o = Ok (Some p) /\ p ∈ profiles (definition entry)) /\
  (NoDup (map occurrence_id items) -> forall o, o ∈ items -> exists p, _profile o = Ok (Some p) /\ ps !! occurrence_id o = Some p) /\
  (forall k, k ∉ map occurrence_id items -> ps !! k = m !! k).
Proof.
  induction items as [|o items IH]; intros m ps; cbn [eligible_profiles].
  { intros [= <-]. split_and!; [by intros o ?%elem_of_nil|by intros _ o ?%elem_of_nil|done]. }
  intros (p & Hp & H)%obind_Ok. destruct p as [p|]; [|done]. destruct (decide _) as [Hin|]; [|done].
  destruct (IH _ _ H) as (H1 & H2 & H3). split_and!.
  - intros o' [->|Ho]%elem_of_cons; eauto.
  - cbn. intros [Hni Hnd]%NoDup_cons o' [->|Ho]%elem_of_cons; [|eauto].
    exists p. split; [done|]. rewrite H3 by done. apply lookup_insert_eq.
  - intros k [Hk Hk']%not_elem_of_cons. rewrite H3 by done. by apply lookup_insert_ne.
Qed.

Section plan_outcome.
Context (before after : DetectionInventory) (policy : pystr) (registry : PolicyRegistrySnapshot)
  (lineage : LineageSnapshot) (pes : list PredecessorEntity).

Notation previous := (py_sorted by_occurrence_id (occurrences before)).
Notation current := (py_sorted by_occurrence_id (occurrences after)).
Notation previous_ids := (id_set (map occurrence_id previous)).

(** The group was not blocked: every gate before matching was passed. *)
Record matched (p : ContinuityPlan) (entry : PolicyEntry) (assoc : gmap pystr EntitySnapshot)
    (ps : gmap pystr CompatibilityProfile) : Prop := {
  ma_scope : inv_cohort before = inv_cohort after;
  ma_disjoint : previous_ids ∩ id_set (map occurrence_id current) = ∅;
  ma_assoc : foldO (associate before previous_ids) ∅ pes = Ok assoc;
  ma_entities : NoDup (map (fun kv => entity_id kv.2) (map_to_list assoc));
  ma_sealed : sealed before = true /\ sealed after = true;
  ma_state : detection_state before = detection_completed /\ detection_state after = detection_completed;
  ma_entry : active_entry registry policy = Some entry;
  ma_profiles : eligible_profiles entry ∅ (previous ++ current) = Ok (Some ps);
  ma_dispositions : Forall2 (fun o d => dispose before after policy registry lineage entry assoc ps previous current o = Ok d)
                      current (dispositions p);
  ma_retained : retained_predecessor_ids p = py_sorted str_leb (elements (previous_ids ∖ id_set (used_ids (dispositions p))))
}.

Lemma plan_Ok p : plan_continuity before after policy registry lineage pes = Ok p ->
  match group_block_reason p with
  | Some why => exists why', why = str why' /\ p = blocked_plan current previous_ids why'
  | None => exists entry assoc ps, matched p entry assoc ps
  end.
Proof.
  unfold plan_continuity. intros H. checks_inv.
  match goal with H : foldO _ _ _ = Ok ?m |- _ => rename m into assoc; rename H into Hassoc end.
  match goal with H : (if _ then _ else _) = Ok p |- _ => rename H into Hp end.
  destruct (negb (sealed before) || negb (sealed after)) eqn:E1; [injection Hp as <-; by eexists|].
  destruct (negb _ || negb _) eqn:E2 in Hp; [injection Hp as <-; by eexists|].
  destruct (active_entry registry policy) as [entry|] eqn:E3; [|injection Hp as <-; by eexists].
  destruct (has_dup _) eqn:E4 in Hp; [injection Hp as <-; by eexists|].
  destruct (_ || _) eqn:E5 in Hp; [injection Hp as <-; by eexists|].
  apply obind_Ok in Hp as ([ps|] & Hps & Hp); [|injection Hp as <-; by eexists].
  apply obind_Ok in Hp as (ds & Hds & [= <-]). cbn. exists entry, assoc, ps. checks_inv.
  split; try done. by apply mapO_Forall2.
Qed.
End plan_outcome.

(** ** Counting and links *)

Lemma filter_two {A} (f : A -> bool) l : forall i j a b, l !! i = Some a -> l !! j = Some b -> i <> j ->
  f a = true -> f b = true -> (2 <= length (List.filter f l))%nat.
Proof.
  assert (one : forall k i a, k !! i = Some a -> f a = true -> (1 <= length (List.filter f k))%nat).
  { intros k i a Hi Ha. destruct (List.filter f k) eqn:E; cbn; [|lia]. exfalso.
    apply list_elem_of_lookup_2, list_elem_of_In in Hi.
    assert (H : In a (List.filter f k)) by by apply filter_In. by rewrite E in H. }
  induction l as [|x l IH]; intros [|i] [|j] a b Hi Hj Hne Ha Hb; cbn in *; try done.
  - injection Hi as ->. rewrite Ha. cbn. pose proof (one _ _ _ Hj Hb). lia.
  - injection Hj as ->. rewrite Hb. cbn. pose proof (one _ _ _ Hi Ha). lia.
  - assert (H : (2 <= length (List.filter f l))%nat) by (eapply (IH i j); eauto with lia). destruct (f x); cbn; lia.
Qed.

Lemma count_key_unique ps items k i j a b : (1 <? count_key ps items k) = false ->
  items !! i = Some a -> items !! j = Some b -> key ps a = k -> key ps b = k -> i = j.
Proof.
  unfold count_key, len. intros Hc Hi Hj Ha Hb. destruct (decide (i = j)) as [|Hne]; [done|]. exfalso.
  assert (2 <= length (List.filter (fun o => bool_decide (key ps o = k)) items))%nat; [|lia].
  eapply filter_two; [exact Hi|exact Hj|exact Hne|by apply bool_decide_eq_true..].
Qed.

Lemma omap_NoDup {A B} (f : A -> option B) l :
  (forall i j a b x, l !! i = Some a -> l !! j = Some b -> f a = Some x -> f b = Some x -> i = j) -> NoDup (omap f l).
Proof.
  induction l as [|a l IH]; intros H; [constructor|].
  assert (Hl : NoDup (omap f l)).
  { apply IH. intros i j b c x Hi Hj Hb Hc. specialize (H (S i) (S j) b c x Hi Hj Hb Hc). lia. }
  cbn. destruct (f a) as [x|] eqn:Ea; [|done]. apply NoDup_cons. split; [|done].
  intros (b & Hb & Hx)%list_elem_of_omap. apply list_elem_of_lookup in Hb as [j Hj].
  specialize (H 0%nat (S j) a b x eq_refl Hj Ea Hx). lia.
Qed.

Section links.
Context (before after : DetectionInventory) (policy : pystr) (registry : PolicyRegistrySnapshot)
  (lineage : LineageSnapshot) (entry : PolicyEntry) (assoc : gmap pystr EntitySnapshot)
  (ps : gmap pystr CompatibilityProfile) (previous current : list OccurrenceView).

Notation dispose := (dispose before after policy registry lineage entry assoc ps previous current).

(** The link of a disposition and where it comes from. *)
Record link_from (item : OccurrenceView) (l : LinkProposal) (old : OccurrenceView) (e : EntitySnapshot) : Prop := {
  lf_old : old ∈ previous;
  lf_key : key ps old = key ps item;
  lf_unique : (1 <? count_key ps previous (key ps item)) = false /\ (1 <? count_key ps current (key ps item)) = false;
  lf_assoc : assoc !! occurrence_id old = Some e;
  lf_pred : predecessor_occurrence_id l = occurrence_id old;
  lf_cur : current_occurrence_id l = occurrence_id item;
  lf_entity : link_entity_id l = entity_id e;
  lf_inherit : inherit_entity_decisions l = bool_decide (lifecycle e = entity_open);
  lf_slice : a_digest (artifact (sliced item)) = Some (slice_digest l);
  lf_digest : occurrence_digest item = Ok (current_occurrence_digest l)
}.

Lemma propose_Ok item old e l : propose before after policy registry lineage entry ps item old e = Ok l ->
  predecessor_occurrence_id l = occurrence_id old /\ current_occurrence_id l = occurrence_id item /\
  link_entity_id l = entity_id e /\ inherit_entity_decisions l = bool_decide (lifecycle e = entity_open) /\
  a_digest (artifact (sliced item)) = Some (slice_digest l) /\ occurrence_digest item = Ok (current_occurrence_digest l).
Proof.
  unfold propose. intros (sd & Hsd & H)%obind_Ok. apply obind_Ok in H as (gd & _ & H).
  apply obind_Ok in H as (pd & _ & H). cbv zeta in H. apply obind_Ok in H as (u & _ & H).
  apply obind_Ok in H as (od & Hod & H). apply obind_Ok in H as (p & _ & [= <-]). cbn. split_and!; try done.
  unfold assert_some in Hsd. destruct (a_digest _); [by injection Hsd as ->|done].
Qed.

Lemma dispose_Ok item d : dispose item = Ok d ->
  disp_occurrence_id d = occurrence_id item /\
  match link d with
  | Some l => disp_status d = linked /\ exists old e, link_from item l old e
  | None => disp_status d <> linked
  end.
Proof.
  unfold ContinuityPlan.dispose. cbv zeta. destruct (_ || _) eqn:Ec; [intros [= <-]; by cbn|].
  destruct (List.find _ previous) as [old|] eqn:Ef; [|intros [= <-]; by cbn].
  destruct (assoc !! occurrence_id old) as [e|] eqn:Ea; [|intros [= <-]; by cbn].
  intros (l & Hl & [= <-])%obind_Ok. cbn. split_and!; [done..|]. exists old, e.
  apply find_some in Ef as [Hin%list_elem_of_In Hk%bool_decide_eq_true]. apply orb_false_iff in Ec.
  apply propose_Ok in Hl as (? & ? & ? & ? & ? & ?). by split.
Qed.

Lemma same_id (l : list OccurrenceView) a b :
  NoDup (map occurrence_id l) -> a ∈ l -> b ∈ l -> occurrence_id a = occurrence_id b -> a = b.
Proof.
  intros Hnd [i Hi]%list_elem_of_lookup [j Hj]%list_elem_of_lookup E.
  assert (i = j) as ->; [|congruence].
  eapply NoDup_lookup; [exact Hnd| |]; change (map occurrence_id l) with (occurrence_id <$> l);
    rewrite list_lookup_fmap; [by rewrite Hi|by rewrite Hj; cbn; rewrite E].
Qed.

Lemma same_entity k k' e e' : NoDup (map (fun kv => entity_id kv.2) (map_to_list assoc)) ->
  assoc !! k = Some e -> assoc !! k' = Some e' -> entity_id e = entity_id e' -> k = k'.
Proof.
  intros Hnd [i Hi]%elem_of_map_to_list%list_elem_of_lookup [j Hj]%elem_of_map_to_list%list_elem_of_lookup E.
  assert (i = j) as ->; [|congruence].
  eapply NoDup_lookup; [exact Hnd| |]; change (map ?f (map_to_list assoc)) with (f <$> map_to_list assoc);
    rewrite list_lookup_fmap; [by rewrite Hi|by rewrite Hj; cbn; rewrite E].
Qed.

(** Links of the same predecessor are links of the same occurrence. *)
Lemma links_same ds i j a b la lb : NoDup (map occurrence_id previous) ->
  Forall2 (fun o d => dispose o = Ok d) current ds -> ds !! i = Some a -> ds !! j = Some b ->
  link a = Some la -> link b = Some lb -> predecessor_occurrence_id la = predecessor_occurrence_id lb -> i = j.
Proof.
  intros Hprev Hds Hi Hj La Lb E.
  destruct (Forall2_lookup_r _ _ _ _ _ Hds Hi) as (x & Hx & Ex), (Forall2_lookup_r _ _ _ _ _ Hds Hj) as (y & Hy & Ey).
  apply dispose_Ok in Ex as [_ Ex], Ey as [_ Ey]. rewrite La in Ex. rewrite Lb in Ey.
  destruct Ex as (_ & o & e & [O1 K1 [_ U] _ P1 _ _ _ _ _]), Ey as (_ & o' & e' & [O2 K2 _ _ P2 _ _ _ _ _]).
  rewrite (same_id previous o o') in K1 by (done || congruence).
  eapply (count_key_unique ps current); [exact U|exact Hx|exact Hy|done|congruence].
Qed.

Lemma links_distinct ds : NoDup (map occurrence_id previous) ->
  Forall2 (fun o d => dispose o = Ok d) current ds -> NoDup (map (fun kv => entity_id kv.2) (map_to_list assoc)) ->
  NoDup (used_ids ds) /\ NoDup (omap (fun d => link_entity_id <$> link d) ds).
Proof.
  intros Hprev Hds Hent. split; apply omap_NoDup; intros i j a b x Hi Hj Fa Fb;
    (destruct (link a) as [la|] eqn:La; [|done]); (destruct (link b) as [lb|] eqn:Lb; [|done]); cbn in Fa, Fb.
  - eapply links_same; [done..|]. congruence.
  - eapply links_same; [done..|].
    destruct (Forall2_lookup_r _ _ _ _ _ Hds Hi) as (x1 & _ & Ex), (Forall2_lookup_r _ _ _ _ _ Hds Hj) as (x2 & _ & Ey).
    apply dispose_Ok in Ex as [_ Ex], Ey as [_ Ey]. rewrite La in Ex. rewrite Lb in Ey.
    destruct Ex as (_ & o & e & [_ _ _ A1 P1 _ E1 _ _ _]), Ey as (_ & o' & e' & [_ _ _ A2 P2 _ E2 _ _ _]).
    rewrite P1, P2. eapply same_entity; [done..|]. congruence.
Qed.
End links.

(** ** Plans *)

Definition row_ids (i : DetectionInventory) : list pystr := map occurrence_id (occurrences i).

Lemma sorted_ids i : map occurrence_id (py_sorted by_occurrence_id (occurrences i)) ≡ₚ row_ids i.
Proof. apply Permutation_map, py_sorted_perm. Qed.

Lemma elem_of_id_set x l : x ∈ id_set l <-> x ∈ l.
Proof. apply elem_of_list_to_set. Qed.

Lemma blocked_links items why : used_ids (map (fun o => mkDisposition (occurrence_id o) blocked why None) items) = [] /\
  omap (fun d => link_entity_id <$> link d) (map (fun o => mkDisposition (occurrence_id o) blocked why None) items) = [].
Proof. unfold used_ids. induction items; cbn; [done|]. done. Qed.

(** A plan accounts for every occurrence.  There is one disposition per
    current occurrence, in the order of the ids; the predecessors are exactly
    the linked and the retained ones; and no predecessor occurrence and no
    entity is linked twice. *)
Theorem plan_accounts_for_occurrences before after policy registry lineage pes p :
  check_inventory before = Ok tt ->
  plan_continuity before after policy registry lineage pes = Ok p ->
  map disp_occurrence_id (dispositions p) = map occurrence_id (py_sorted by_occurrence_id (occurrences after)) /\
  (forall d, d ∈ dispositions p -> disp_status d = linked <-> is_Some (link d)) /\
  (forall x, x ∈ retained_predecessor_ids p <-> x ∈ row_ids before /\ x ∉ used_ids (dispositions p)) /\
  (forall x, x ∈ used_ids (dispositions p) -> x ∈ row_ids before) /\
  NoDup (used_ids (dispositions p)) /\ NoDup (omap (fun d => link_entity_id <$> link d) (dispositions p)).
Proof.
  intros Hwf Hp. apply inventory_Ok in Hwf as [Hnd _]. apply plan_Ok in Hp.
  destruct (group_block_reason p) as [why|].
  - destruct Hp as (why' & _ & ->). cbn. rewrite (proj1 (blocked_links _ _)), (proj2 (blocked_links _ _)). split_and!.
    + by rewrite map_map.
    + intros d (o & -> & _)%list_elem_of_fmap. cbn. split; [done|by intros [? ?]].
    + intros x. rewrite py_sorted_elem, elem_of_elements, elem_of_id_set, sorted_ids. set_solver.
    + set_solver.
    + constructor.
    + constructor.
  - destruct Hp as (entry & assoc & ps & [_ _ _ Hent _ _ _ _ Hds Hret]).
    assert (Hprev : NoDup (map occurrence_id (py_sorted by_occurrence_id (occurrences before)))) by by rewrite sorted_ids.
    destruct (links_distinct _ _ _ _ _ _ _ _ _ _ _ Hprev Hds Hent) as [N1 N2]. split_and!; [| | | |done|done].
    + revert Hds. generalize (dispositions p). intros ds. induction 1 as [|o d os ds Hd _ IH]; [done|]. cbn.
      apply dispose_Ok in Hd as [-> _]. by rewrite IH.
    + intros d [i Hi]%list_elem_of_lookup. destruct (Forall2_lookup_r _ _ _ _ _ Hds Hi) as (o & _ & Hd).
      apply dispose_Ok in Hd as [_ Hd]. destruct (link d); [split; [by eexists|by destruct Hd]|split; [done|by intros [? ?]]].
    + intros x. rewrite Hret, py_sorted_elem, elem_of_elements, elem_of_difference, !elem_of_id_set, sorted_ids. done.
    + intros x (d & [i Hi]%list_elem_of_lookup & Hx)%list_elem_of_omap.
      destruct (Forall2_lookup_r _ _ _ _ _ Hds Hi) as (o & _ & Hd). apply dispose_Ok in Hd as [_ Hd].
      destruct (link d) as [l|]; [|done]. destruct Hd as (_ & old & e & Hl). injection Hx as <-.
      rewrite (lf_pred _ _ _ _ _ _ _ _ Hl), <-sorted_ids. apply list_elem_of_fmap_2, Hl.
Qed.

(** ** When an occurrence is linked *)

Lemma associate_Ok before ids pes : forall m assoc, foldO (associate before ids) m pes = Ok assoc ->
  forall k e, assoc !! k = Some e <-> m !! k = Some e \/ exists a, a ∈ pes /\ pre_occurrence_id a = k /\ entity a = e.
Proof.
  induction pes as [|a pes IH]; intros m assoc; cbn.
  { intros [= <-] k e. split; [by left|]. intros [?|(? & ?%elem_of_nil & _)]; done. }
  intros (m' & Ha & H)%obind_Ok k e. rewrite (IH _ _ H). unfold associate in Ha.
  destruct (decide _) as [|Hok]; [done|]. injection Ha as <-.
  assert (Hn : m !! pre_occurrence_id a = None).
  { apply eq_None_not_Some. intros Hs. apply Hok. by right; right. }
  rewrite lookup_insert_Some. setoid_rewrite elem_of_cons. split.
  - intros [[[<- <-]|[_ ?]]|(a' & ? & ?)]; [right; exists a; auto|by left|right; exists a'; auto].
  - intros [Hm|(a' & [->|?] & <- & <-)]; [|left; left; auto|right; eauto].
    left. right. split; [|done]. intros <-. by rewrite Hn in Hm.
Qed.

Lemma count_key_one ps items k : NoDup items ->
  (forall a b, a ∈ items -> b ∈ items -> key ps a = k -> key ps b = k -> a = b) -> (1 <? count_key ps items k) = false.
Proof.
  intros Hnd Hu. unfold count_key, len. set (f := fun o => bool_decide (key ps o = k)).
  assert (Hf : NoDup (List.filter f items)) by (by apply NoDup_ListNoDup, List.NoDup_filter, NoDup_ListNoDup).
  assert (Hin : forall x, x ∈ List.filter f items -> x ∈ items /\ key ps x = k).
  { intros x [H1%list_elem_of_In H2%bool_decide_eq_true]%list_elem_of_In%filter_In. done. }
  destruct (List.filter f items) as [|a [|b l]]; [done..|]. exfalso.
  apply NoDup_cons in Hf as [Hab _]. apply Hab.
  destruct (Hin a) as [A1 A2]; [left|]. destruct (Hin b) as [B1 B2]; [right; left|].
  rewrite (Hu a b) by done. left.
Qed.

(** Same observed analysis binding and same slice fingerprint. *)
Definition same_identity (a b : OccurrenceView) : Prop :=
  binding a = binding b /\ a_digest (artifact (sliced a)) = a_digest (artifact (sliced b)).

(** Completed strong version-2 identities of the deterministic core. *)
Definition strong_occurrence (o : OccurrenceView) : Prop :=
  origin (cohort o) = CORE /\ strong_in GRAPH_V2 (artifact (graph o)) = true /\
  strong_in SLICE_V2 (artifact (sliced o)) = true /\ is_Some (binding o) /\ duplicate_ambiguity o = false.

Section exact.
Context (before after : DetectionInventory) (policy : pystr) (registry : PolicyRegistrySnapshot)
  (lineage : LineageSnapshot) (pes : list PredecessorEntity) (p : ContinuityPlan).
Context (entry : PolicyEntry) (assoc : gmap pystr EntitySnapshot) (ps : gmap pystr CompatibilityProfile).
Hypothesis Hbefore : check_inventory before = Ok tt.
Hypothesis Hafter : check_inventory after = Ok tt.
Hypothesis Hm : matched before after policy registry lineage pes p entry assoc ps.

Notation previous := (py_sorted by_occurrence_id (occurrences before)).
Notation current := (py_sorted by_occurrence_id (occurrences after)).

Lemma group_nodup : NoDup (map occurrence_id (previous ++ current)).
Proof.
  rewrite map_app. apply NoDup_app. split_and!.
  - rewrite sorted_ids. by apply inventory_Ok in Hbefore as [? _].
  - intros x Hx Hx'. pose proof (ma_disjoint _ _ _ _ _ _ _ _ _ _ Hm) as Hd.
    assert (x ∈ id_set (map occurrence_id previous) ∩ id_set (map occurrence_id current)); [|set_solver].
    rewrite elem_of_intersection, !elem_of_id_set. done.
  - rewrite sorted_ids. by apply inventory_Ok in Hafter as [? _].
Qed.

Lemma group_cohort o : o ∈ previous ++ current -> cohort o = inv_cohort after.
Proof.
  apply inventory_Ok in Hbefore as [_ Hb], Hafter as [_ Ha]. rewrite Forall_forall in Hb, Ha.
  intros [H|H]%elem_of_app; apply py_sorted_elem in H; [|auto].
  rewrite (Hb o H). apply Hm.
Qed.

Lemma group_eligible o : o ∈ previous ++ current -> strong_occurrence o /\ is_Some (ps !! occurrence_id o).
Proof.
  intros Ho. destruct (eligible_Ok _ _ _ _ (ma_profiles _ _ _ _ _ _ _ _ _ _ Hm)) as (_ & H & _).
  destruct (H group_nodup o Ho) as (q & Hq & E). apply profile_Ok in Hq as (b & Hb & ? & _ & ? & ? & ? & _).
  split; [|by eexists]. split_and!; try done.
Qed.

Lemma key_identity a b : a ∈ previous ++ current -> b ∈ previous ++ current ->
  key ps a = key ps b <-> same_identity a b.
Proof.
  intros Ha Hb. destruct (eligible_Ok _ _ _ _ (ma_profiles _ _ _ _ _ _ _ _ _ _ Hm)) as (_ & H & _).
  destruct (H group_nodup a Ha) as (qa & Pa & Ea), (H group_nodup b Hb) as (qb & Pb & Eb).
  apply profile_Ok in Pa as (ba & Ba & _ & _ & _ & _ & _ & ->), Pb as (bb & Bb & _ & _ & _ & _ & _ & ->).
  unfold key, same_identity. rewrite Ea, Eb, Ba, Bb, (group_cohort a Ha), (group_cohort b Hb). split.
  - intros E. injection E as E1 E2. by rewrite E1, E2.
  - intros [[= ->] ->]. done.
Qed.

Lemma rows_nodup i u : check_inventory i = Ok u -> NoDup (py_sorted by_occurrence_id (occurrences i)).
Proof. intros [H _]%inventory_Ok. apply (NoDup_fmap_1 occurrence_id). change (fmap occurrence_id) with (map occurrence_id). by rewrite sorted_ids. Qed.

Lemma linked_exact item old : item ∈ occurrences after -> old ∈ occurrences before ->
  (exists d l, d ∈ dispositions p /\ link d = Some l /\ disp_occurrence_id d = occurrence_id item /\
     predecessor_occurrence_id l = occurrence_id old) <->
  same_identity item old /\ (forall o, o ∈ occurrences before -> same_identity item o -> o = old) /\
  (forall o, o ∈ occurrences after -> same_identity item o -> o = item) /\
  (exists a, a ∈ pes /\ pre_occurrence_id a = occurrence_id old).
Proof.
  intros Hi Ho. rewrite <-(py_sorted_elem by_occurrence_id) in Hi, Ho.
  assert (Hi' : item ∈ previous ++ current) by (apply elem_of_app; by right).
  assert (Ho' : old ∈ previous ++ current) by (apply elem_of_app; by left).
  pose proof (ma_dispositions _ _ _ _ _ _ _ _ _ _ Hm) as Hds.
  pose proof (associate_Ok _ _ _ _ _ (ma_assoc _ _ _ _ _ _ _ _ _ _ Hm)) as Has. split.
  - intros (d & l & [i Hd]%list_elem_of_lookup & Hl & Hid & Hpred).
    destruct (Forall2_lookup_r _ _ _ _ _ Hds Hd) as (o & Hlo & Hdo). apply list_elem_of_lookup_2 in Hlo.
    apply dispose_Ok in Hdo as [Hid' Hdo]. rewrite Hl in Hdo. destruct Hdo as (_ & old' & e & F).
    assert (o = item) as ->.
    { apply (same_id (previous ++ current)); [apply group_nodup|apply elem_of_app; by right|done|congruence]. }
    pose proof (lf_old _ _ _ _ _ _ _ _ F) as Hold.
    assert (old' = old) as ->.
    { apply (same_id (previous ++ current)); [apply group_nodup|apply elem_of_app; by left|done|].
      by rewrite <-(lf_pred _ _ _ _ _ _ _ _ F). }
    destruct F as [_ K [U1 U2] A _ _ _ _ _ _]. split_and!.
    + apply key_identity; auto.
    + intros o. rewrite <-(py_sorted_elem by_occurrence_id). intros Hin Hs.
      assert (Hin' : o ∈ previous ++ current) by (apply elem_of_app; by left).
      apply key_identity in Hs; [|done..]. apply list_elem_of_lookup in Hin as [a Ha], Hold as [b Hb].
      rewrite (count_key_unique ps previous _ a b _ _ U1 Ha Hb) in Ha by done. congruence.
    + intros o. rewrite <-(py_sorted_elem by_occurrence_id). intros Hin Hs.
      assert (Hin' : o ∈ previous ++ current) by (apply elem_of_app; by right).
      apply key_identity in Hs; [|done..]. apply list_elem_of_lookup in Hin as [a Ha], Hi as [b Hb].
      rewrite (count_key_unique ps current _ a b _ _ U2 Ha Hb) in Ha by done. congruence.
    + apply Has in A as [A|(a & ? & ? & _)]; [by rewrite lookup_empty in A|eauto].
  - intros (Hs & U1 & U2 & a & Ha & Hpa).
    apply list_elem_of_lookup in Hi as Hi''. destruct Hi'' as [i Hlk].
    destruct (Forall2_lookup_l _ _ _ _ _ Hds Hlk) as (d & Hd & E). exists d.
    assert (Hk : key ps old = key ps item) by (symmetry; by apply key_identity).
    unfold dispose in E. cbv zeta in E. rewrite !count_key_one in E.
    2:{ by eapply rows_nodup. }
    2:{ intros x y Hx Hy Kx Ky. transitivity item; [|symmetry]; apply U2; try (by apply py_sorted_elem in Hx, Hy);
        (apply key_identity; [done|apply elem_of_app; by right|done]). }
    2:{ by eapply rows_nodup. }
    2:{ intros x y Hx Hy Kx Ky. transitivity old; [|symmetry]; apply U1; try (by apply py_sorted_elem in Hx, Hy);
        (apply key_identity; [done|apply elem_of_app; by left|done]). }
    cbn [orb] in E. destruct (List.find _ previous) as [old'|] eqn:Ef.
    2:{ pose proof (find_none _ _ Ef old) as Hn. rewrite <-list_elem_of_In in Hn. specialize (Hn Ho).
        by apply bool_decide_eq_false in Hn. }
    apply find_some in Ef as [Hin%list_elem_of_In Hk'%bool_decide_eq_true].
    assert (old' = old) as ->.
    { apply U1; [by apply py_sorted_elem in Hin|]. apply key_identity; [done|apply elem_of_app; by left|done]. }
    rewrite (proj2 (Has (occurrence_id old) (entity a))) in E by eauto.
    apply obind_Ok in E as (l & Hl & [= <-]). exists l. cbn. split_and!; [by eapply list_elem_of_lookup_2|done..|].
    by apply propose_Ok in Hl as (? & _).
Qed.
End exact.

(** [item] is linked to [old] in a plan. *)
Definition links (p : ContinuityPlan) (item old : OccurrenceView) : Prop :=
  exists d l, d ∈ dispositions p /\ link d = Some l /\ disp_occurrence_id d = occurrence_id item /\
    predecessor_occurrence_id l = occurrence_id old.

Lemma blocked_not_links items ids why item old : ~ links (blocked_plan items ids why) item old.
Proof. intros (d & l & Hd & Hl & _). cbn in Hd. apply list_elem_of_fmap in Hd as (o & -> & _). done. Qed.

(** C15: links are exact.  In a plan for two well-formed inventories, an
    occurrence is linked to a predecessor exactly when the group passed every
    gate, the two agree on the analysis binding and the slice fingerprint, no
    other occurrence on either side does, and an entity is associated with the
    predecessor.  A link is made only between sealed, completed inventories,
    under an active policy, and between completed strong version-2
    identities. *)
Theorem links_exact before after policy registry lineage pes p item old :
  check_inventory before = Ok tt -> check_inventory after = Ok tt ->
  plan_continuity before after policy registry lineage pes = Ok p ->
  item ∈ occurrences after -> old ∈ occurrences before ->
  (links p item old <->
   group_block_reason p = None /\ same_identity item old /\
   (forall o, o ∈ occurrences before -> same_identity item o -> o = old) /\
   (forall o, o ∈ occurrences after -> same_identity item o -> o = item) /\
   (exists a, a ∈ pes /\ pre_occurrence_id a = occurrence_id old)) /\
  (links p item old ->
   sealed before = true /\ sealed after = true /\ detection_state before = detection_completed /\
   detection_state after = detection_completed /\ is_Some (active_entry registry policy) /\
   strong_occurrence item /\ strong_occurrence old).
Proof.
  intros Hb Ha Hp Hi Ho. apply plan_Ok in Hp. destruct (group_block_reason p) as [why|] eqn:Eg.
  - destruct Hp as (why' & _ & ->). split; [split; [by intros ?%blocked_not_links|by intros [? _]]|by intros ?%blocked_not_links].
  - destruct Hp as (entry & assoc & ps & Hm). split.
    + unfold links. rewrite (linked_exact _ _ _ _ _ _ _ _ _ _ Hb Ha Hm item old Hi Ho). naive_solver.
    + intros _. rewrite <-(py_sorted_elem by_occurrence_id) in Hi, Ho. destruct (Hm.(ma_sealed _ _ _ _ _ _ _ _ _ _)), (Hm.(ma_state _ _ _ _ _ _ _ _ _ _)).
      split_and!; try done.
      * rewrite (ma_entry _ _ _ _ _ _ _ _ _ _ Hm). by eexists.
      * eapply (group_eligible _ _ _ _ _ _ _ _ _ _ Hb Ha Hm). apply elem_of_app. by right.
      * eapply (group_eligible _ _ _ _ _ _ _ _ _ _ Hb Ha Hm). apply elem_of_app. by left.
Qed.

(** ** Row order *)

Record same_rows (i j : DetectionInventory) : Prop := {
  sr_fields : inv_scan_id i = inv_scan_id j /\ inv_capture_id i = inv_capture_id j /\
    inv_source_tree_digest i = inv_source_tree_digest j /\ inv_cohort i = inv_cohort j /\
    detection_state i = detection_state j /\ sealed i = sealed j /\ inv_content_digest i = inv_content_digest j;
  sr_sealed : sealed_occurrence_ids i ≡ₚ sealed_occurrence_ids j;
  sr_rows : occurrences i ≡ₚ occurrences j;
  sr_refs : inv_evidence_refs i ≡ₚ inv_evidence_refs j
}.

#[local] Instance by_occurrence_id_total : TotalLe by_occurrence_id := on_key_total occurrence_id str_leb _.

Lemma sorted_rows i j : NoDup (row_ids i) -> same_rows i j ->
  py_sorted by_occurrence_id (occurrences i) = py_sorted by_occurrence_id (occurrences j).
Proof.
  intros Hnd Hs. apply py_sorted_perm_on; [apply _| |apply Hs]. intros x y Hx Hy H1 H2.
  apply (same_id (occurrences i)); [done..|]. by apply (leb_anti (leb := str_leb)).
Qed.

Lemma associate_outcome before ids pes : forall m,
  foldO (associate before ids) m pes =
  (if decide (Forall (fun a => pre_occurrence_id a ∈ ids /\ ent_cohort (entity a) = inv_cohort before /\
                               m !! pre_occurrence_id a = None) pes /\ NoDup (map pre_occurrence_id pes))
   then foldO (associate before ids) m pes
   else Raise (ValueError "invalid/duplicate/cross-scope predecessor entity association")).
Proof.
  intros m. destruct (decide _) as [|Hn]; [done|]. revert m Hn. induction pes as [|a pes IH]; intros m Hn; cbn.
  { exfalso. apply Hn. split; constructor. }
  unfold associate at 1. destruct (decide _) as [|Hok]; [done|]. cbn. apply IH. intros [HF Hnd]. apply Hn.
  assert (Hm : m !! pre_occurrence_id a = None).
  { apply eq_None_not_Some. intros Hs. apply Hok. by right; right. }
  assert (Hi : pre_occurrence_id a ∈ ids) by (destruct (decide (pre_occurrence_id a ∈ ids)); [done|]; exfalso; apply Hok; by left).
  assert (Hc : ent_cohort (entity a) = inv_cohort before)
    by (destruct (decide (ent_cohort (entity a) = inv_cohort before)); [done|]; exfalso; apply Hok; by right; left).
  split.
  - constructor; [done|]. eapply Forall_impl; [exact HF|]. cbn. intros b (? & ? & Hb). split_and!; try done.
    destruct (decide (pre_occurrence_id b = pre_occurrence_id a)) as [E|E]; [by rewrite E|].
    by rewrite lookup_insert_ne in Hb.
  - cbn. apply NoDup_cons. split; [|done]. intros (b & E & Hb)%list_elem_of_fmap. rewrite Forall_forall in HF.
    destruct (HF b Hb) as (_ & _ & H). by rewrite E, lookup_insert_eq in H.
Qed.

Lemma associate_valid before ids pes : forall m,
  Forall (fun a => pre_occurrence_id a ∈ ids /\ ent_cohort (entity a) = inv_cohort before /\ m !! pre_occurrence_id a = None) pes ->
  NoDup (map pre_occurrence_id pes) -> exists m', foldO (associate before ids) m pes = Ok m'.
Proof.
  induction pes as [|a pes IH]; intros m HF Hnd; cbn; [by eexists|].
  apply Forall_cons in HF as [(H1 & H2 & H3) HF]. cbn in Hnd. apply NoDup_cons in Hnd as [Hni Hnd].
  unfold associate at 1. rewrite decide_False.
  2:{ rewrite H3. intros [?|[?|[? ?]]]; done. }
  cbn. apply IH; [|done]. rewrite Forall_forall in *. intros b Hb. destruct (HF b Hb) as (? & ? & ?). split_and!; try done.
  rewrite lookup_insert_ne; [done|]. intros E. apply Hni. rewrite E. by apply list_elem_of_fmap_2.
Qed.

Lemma associate_perm before before' ids pes pes' : inv_cohort before = inv_cohort before' -> pes ≡ₚ pes' ->
  foldO (associate before ids) ∅ pes = foldO (associate before' ids) ∅ pes'.
Proof.
  intros Hc Hp. rewrite (associate_outcome before), (associate_outcome before').
  destruct (decide _) as [[HF Hnd]|Hn].
  - assert (HF' := HF). assert (Hnd' := Hnd). rewrite Hp in HF', Hnd'. rewrite Hc in HF'. rewrite decide_True by done.
    destruct (associate_valid before ids pes ∅ HF Hnd) as [m Em], (associate_valid before' ids pes' ∅ HF' Hnd') as [m' Em'].
    rewrite Em, Em'. f_equal. apply map_eq. intros k. apply option_eq. intros e.
    rewrite (associate_Ok _ _ _ _ _ Em), (associate_Ok _ _ _ _ _ Em'). setoid_rewrite Hp. done.
  - rewrite decide_False; [done|]. intros [HF Hnd]. apply Hn. rewrite Hp, Hc. done.
Qed.

(** Row order is irrelevant.  Adapters may return the rows, the sealed
    ids, the evidence references and the entity associations in any order: the
    inventory digest and the plan, or the exception raised, are the same. *)
Theorem row_order_irrelevant before before' after after' policy registry lineage pes pes' :
  check_inventory before = Ok tt -> check_inventory after = Ok tt ->
  same_rows before before' -> same_rows after after' -> pes ≡ₚ pes' ->
  inventory_digest before' = inventory_digest before /\
  plan_continuity before' after' policy registry lineage pes' = plan_continuity before after policy registry lineage pes.
Proof.
  intros [Hb _]%inventory_Ok [Ha _]%inventory_Ok Sb Sa Hp.
  pose proof (sorted_rows _ _ Hb Sb) as Eb. pose proof (sorted_rows _ _ Ha Sa) as Ea. split.
  - unfold inventory_digest. destruct Sb as [(-> & -> & -> & -> & -> & -> & _) Hs _ Hr]. rewrite Eb.
    by rewrite (py_sorted_perm_eq str_leb _ _ Hs), (py_sorted_perm_eq str_leb _ _ Hr).
  - assert (Has : forall ids, foldO (associate before' ids) ∅ pes' = foldO (associate before ids) ∅ pes).
    { intros ids. symmetry. apply associate_perm; [apply Sb|done]. }
    destruct Sb as [(E1 & _ & _ & E2 & E3 & E4 & E5) _ _ _], Sa as [(F1 & _ & _ & F2 & F3 & F4 & F5) _ _ _].
    unfold plan_continuity. rewrite <-Eb, <-Ea, Has, <-E1, <-E2, <-E3, <-E4, <-F1, <-F2, <-F3, <-F4.
    unfold dispose, propose. by rewrite <-E1, <-E5, <-F1, <-F2, <-F5.
Qed.
