(* ===== verification/ContinuityTrace.v ===== *)
(** * Continuity over time ([services/scan/continuity.py])

    Sequences of validated registry and entity transitions: a revoked
    activation never authorises again, and decisions are inherited only while
    the entity stays open in the generation the link was made in. *)
From stdpp Require Import base tactics list gmap strings sets relations.
From Stdlib Require Import ZArith Lia.
From S2P Require Import Prelude PyData Cpg Ordering PyDict Json Identity Continuity ContinuityPlan ContinuitySpec.

Open Scope Z_scope.
Open Scope py_scope.

(** ** Registries *)

(** A committed registry transition between constructed snapshots. *)
Definition registry_step (r r' : PolicyRegistrySnapshot) : Prop :=
  check_registry r = Ok tt /\ check_registry r' = Ok tt /\ validate_registry_transition r r' = Ok tt.

Lemma registry_Ok r u : check_registry r = Ok u -> NoDup (map content_digest (entries r)) /\
  forall e, e ∈ entries r -> activation_event_id e ∈ used_activation_event_ids r.
Proof.
  unfold check_registry. intros H. checks_inv. split; [done|]. intros e He.
  match goal with H : id_set _ ⊆ id_set _ |- _ => rename H into Hsub end.
  apply elem_of_id_set, Hsub, elem_of_id_set. by apply list_elem_of_fmap_2.
Qed.

Lemma by_digest_lookup r e : NoDup (map content_digest (entries r)) -> e ∈ entries r ->
  by_digest r !! content_digest e = Some e.
Proof.
  intros Hnd He. apply py_dict_lookup; [by rewrite <-list_fmap_compose|].
  apply list_elem_of_fmap. eauto.
Qed.

Lemma by_digest_Some r d e : by_digest r !! d = Some e -> e ∈ entries r /\ content_digest e = d.
Proof.
  unfold by_digest, py_dict. cut (forall m : gmap pystr PolicyEntry, (forall d e, m !! d = Some e -> content_digest e = d) ->
    forall e, fold_left (fun d kv => <[kv.1 := kv.2]> d) (map (fun e => (content_digest e, e)) (entries r)) m !! d = Some e ->
    (e ∈ entries r \/ m !! d = Some e) /\ content_digest e = d).
  { intros H He. destruct (H ∅ ltac:(intros ? ?; by rewrite lookup_empty) e He) as [[?|Hm] ?]; [done|by rewrite lookup_empty in Hm]. }
  induction (entries r) as [|x l IH]; cbn; intros m Hm e' He'; [split; [by right|by apply Hm]|].
  apply IH in He' as [H1 H2].
  - split; [|done]. destruct H1 as [?|H1]; [left; by right|]. apply lookup_insert_Some in H1 as [[_ ->]|[_ ?]]; [left; left|by right].
  - intros d' e''. rewrite lookup_insert_Some. intros [[<- <-]|[_ ?]]; [done|auto].
Qed.

Lemma admit_entries_Ok old old_ids es : forall acc r, foldO (admit_entry old old_ids) acc es = Ok r ->
  Forall (fun e => match old !! content_digest e with
    | None => activation_event_id e ∉ old_ids
    | Some prior => (state prior = revoked /\ state e = active /\ activation_event_id e ∉ old_ids) \/
                    (~ (state prior = revoked /\ state e = active) /\ activation_event_id e = activation_event_id prior)
    end) es.
Proof.
  induction es as [|e es IH]; intros acc r; cbn; [constructor|].
  intros (acc' & He & H)%obind_Ok. constructor; [|by eapply IH]. unfold admit_entry in He.
  destruct (old !! content_digest e) as [prior|]; repeat destruct (decide _); try done; naive_solver.
Qed.

Lemma registry_step_Ok r r' : registry_step r r' ->
  (forall x, x ∈ used_activation_event_ids r -> x ∈ used_activation_event_ids r') /\
  (forall d, is_Some (by_digest r !! d) -> is_Some (by_digest r' !! d)) /\
  (forall e, e ∈ entries r' -> match by_digest r !! content_digest e with
    | None => activation_event_id e ∉ used_activation_event_ids r
    | Some prior => (state prior = revoked /\ state e = active /\ activation_event_id e ∉ used_activation_event_ids r) \/
                    (~ (state prior = revoked /\ state e = active) /\ activation_event_id e = activation_event_id prior)
    end).
Proof.
  intros (_ & _ & H). unfold validate_registry_transition in H. checks_inv.
  match goal with H : foldO _ _ _ = Ok _ |- _ => apply admit_entries_Ok in H; rename H into Hadm end.
  match goal with H : id_set _ ⊆ id_set _ |- _ => rename H into Hids end.
  match goal with H : dom _ ⊆ dom _ |- _ => rename H into Hdom end.
  split_and!.
  - intros y. rewrite <-!elem_of_id_set. apply Hids.
  - intros d Hd. apply elem_of_dom, Hdom. by apply elem_of_dom.
  - intros e He. rewrite Forall_forall in Hadm. specialize (Hadm e He).
    destruct (by_digest r !! _); rewrite elem_of_id_set in Hadm; exact Hadm.
Qed.

(** The activation [a] of the policy [d] has ended. *)
Definition ended (d a : pystr) (r : PolicyRegistrySnapshot) : Prop :=
  a ∈ used_activation_event_ids r /\ is_Some (by_digest r !! d) /\
  forall e, e ∈ entries r -> content_digest e = d -> activation_event_id e = a -> state e = revoked.

Lemma ended_step d a r r' : registry_step r r' -> ended d a r -> ended d a r'.
Proof.
  intros Hs (Ha & Hd & Hr). destruct (registry_step_Ok _ _ Hs) as (H1 & H2 & H3). split_and!; [by apply H1|by apply H2|].
  intros e He E Ea. specialize (H3 e He). rewrite E in H3. destruct Hd as [prior Hp]. rewrite Hp in H3.
  destruct (by_digest_Some _ _ _ Hp) as [Hin Hdig]. destruct H3 as [(_ & _ & Hf)|[Hnot Heq]]; [by rewrite Ea in Hf|].
  destruct (state e) eqn:Es; [|done]. exfalso. apply Hnot. split; [|done]. apply Hr; [done|done|congruence].
Qed.

Lemma active_entry_Some r d e : active_entry r d = Some e ->
  e ∈ entries r /\ content_digest e = d /\ state e = active.
Proof.
  unfold active_entry. intros [H1%list_elem_of_In H2]%find_some. apply andb_true_iff in H2 as [?%bool_decide_eq_true ?%bool_decide_eq_true].
  done.
Qed.

(** ** Inheritance *)

(** What inheriting through a link requires. *)
Record inherits (o : OccurrenceView) (l : LinkProposal) (e : EntitySnapshot) (r : PolicyRegistrySnapshot) : Prop := {
  in_occurrence : current_occurrence_id l = occurrence_id o;
  in_digest : occurrence_digest o = Ok (current_occurrence_digest l);
  in_policy : exists en, active_entry r (g_policy_digest (guards l)) = Some en /\
    activation_event_id en = g_activation_event_id (guards l) /\ profile l ∈ profiles (definition en);
  in_profile : _profile o = Ok (Some (profile l));
  in_entity : entity_id e = link_entity_id l /\ ent_cohort e = cohort o;
  in_revisions : entity_revision (guards l) <= ent_revision e /\ decision_revision (guards l) <= dec_revision (decisions e) /\
    registry_revision (guards l) <= revision r;
  in_open : inherit_entity_decisions l = true /\ lifecycle e = entity_open;
  in_generation : lifecycle_generation e = entity_lifecycle_generation (guards l)
}.

Lemma inherit_Ok o l e r d : inherit o l e r = Ok (inl d) ->
  exists e', e = Some e' /\ d = decisions e' /\ inherits o l e' r.
Proof.
  unfold inherit. intros H. destruct (negb _) eqn:E1 in H; [done|]. apply obind_Ok in H as (dg & Hd & H).
  destruct (_ || _) eqn:E2 in H; [done|]. destruct (active_entry r _) as [en|] eqn:E3 in H; [|done].
  destruct (negb _) eqn:E4 in H; [done|]. destruct (_ <? _) eqn:E5 in H; [done|].
  destruct (negb _) eqn:E6 in H; [done|]. apply obind_Ok in H as (p & Hp & H).
  destruct (_ || _) eqn:E7 in H; [done|]. destruct e as [e|]; [|done]. exists e.
  destruct (_ || _) eqn:E8 in H; [done|]. destruct (_ || _) eqn:E9 in H; [done|].
  destruct (_ || _) eqn:E10 in H; [done|]. destruct (negb _) eqn:E11 in H; [done|].
  destruct (negb _) eqn:E12 in H; [done|]. injection H as <-. checks_inv. split_and!; [done..|].
  split; try (done || congruence || lia). eauto.
Qed.

Lemma effective_Ok o l e r direct eff : effective_decisions o l e r direct = Ok eff ->
  inheritance_active eff = true -> exists l' e', l = Some l' /\ e = Some e' /\ inherits o l' e' r /\
  eff_verdict eff = effective_dimension verdict unreviewed direct (Some (decisions e')) (Some e') /\
  eff_suppression eff = effective_dimension suppression suppression_inactive direct (Some (decisions e')) (Some e').
Proof.
  unfold effective_decisions. intros (u & _ & H)%obind_Ok Hact. apply obind_Ok in H as (res & Hr & [= <-]). cbn in Hact |- *.
  destruct res as [d|]; [|done]. destruct l as [l|]; [|done]. apply inherit_Ok in Hr as (e' & -> & -> & Hi). exists l, e'. done.
Qed.

(** Revocation is final.  Once the activation a link was made under is
    revoked, no sequence of validated registry transitions, reactivation of
    the same policy included, lets the link pass decisions on again. *)
Theorem revocation_is_final r r' a en o l e direct eff :
  rtc registry_step r r' ->
  check_registry r = Ok tt -> en ∈ entries r -> content_digest en = g_policy_digest (guards l) ->
  activation_event_id en = a -> state en = revoked -> g_activation_event_id (guards l) = a ->
  effective_decisions o (Some l) e r' direct = Ok eff -> inheritance_active eff = false.
Proof.
  intros Hr Hwf Hen Hd Ha Hst Hl Heff. destruct (registry_Ok _ _ Hwf) as [Hnd Hused].
  assert (He : ended (g_policy_digest (guards l)) a r).
  { split_and!.
    - rewrite <-Ha. auto.
    - rewrite <-Hd, by_digest_lookup by done. by eexists.
    - intros e' He' Hd' _. assert (e' = en) as ->; [|done].
      pose proof (by_digest_lookup r e' Hnd He') as E1. pose proof (by_digest_lookup r en Hnd Hen) as E2.
      rewrite Hd' in E1. rewrite Hd in E2. congruence. }
  assert (He' : ended (g_policy_digest (guards l)) a r').
  { clear -Hr He. induction Hr as [|x y z Hs _ IH]; [done|]. apply IH. by eapply ended_step. }
  destruct (inheritance_active eff) eqn:Ei; [|done]. exfalso.
  destruct (effective_Ok _ _ _ _ _ _ Heff Ei) as (l' & e' & [= <-] & -> & Hi & _).
  destruct (in_policy _ _ _ _ Hi) as (en' & Hact & Hid & _). apply active_entry_Some in Hact as (Hin & Hdig & Hstate).
  destruct He' as (_ & _ & He'). rewrite (He' en') in Hstate by (done || congruence). done.
Qed.

(** ** Entities *)

(** A committed entity transition. *)
Definition entity_step (e e' : EntitySnapshot) : Prop :=
  exists ev auths, validate_entity_transition e e' ev auths = Ok tt.

Lemma entity_step_Ok e e' : entity_step e e' ->
  lifecycle_generation e' = lifecycle_generation e + (if decide (lifecycle e = lifecycle e') then 0 else 1).
Proof.
  intros (ev & auths & H). unfold validate_entity_transition in H. checks_inv.
  match goal with H : (lifecycle_generation e' =? _) = true |- _ => apply Z.eqb_eq in H; rewrite H end.
  destruct (decide (lifecycle e = lifecycle e')) as [E|E].
  - by rewrite bool_decide_true.
  - by rewrite bool_decide_false.
Qed.

Lemma generation_grows e e' : rtc entity_step e e' ->
  lifecycle_generation e <= lifecycle_generation e' /\
  (lifecycle_generation e = lifecycle_generation e' -> lifecycle e = lifecycle e').
Proof.
  induction 1 as [|x y z Hs _ [IH1 IH2]]; [done|]. apply entity_step_Ok in Hs.
  destruct (decide (lifecycle x = lifecycle y)) as [E|E]; split; try lia. intros Hg. rewrite E. apply IH2. lia.
Qed.

Lemma propose_guards before after policy registry lineage entry ps item old e l :
  propose before after policy registry lineage entry ps item old e = Ok l ->
  entity_lifecycle_generation (guards l) = lifecycle_generation e /\
  inherit_entity_decisions l = bool_decide (lifecycle e = entity_open).
Proof.
  unfold propose. intros (sd & Hsd & H)%obind_Ok. apply obind_Ok in H as (gd & _ & H).
  apply obind_Ok in H as (pd & _ & H). cbv zeta in H. apply obind_Ok in H as (u & _ & H).
  apply obind_Ok in H as (od & Hod & H). by apply obind_Ok in H as (p & _ & [= <-]).
Qed.

(** The entity source of one dimension. *)
Lemma effective_entity get dflt direct inherited e : eff_source (effective_dimension get dflt direct inherited e) = source_entity ->
  direct ≫= get = None /\ exists d e', inherited ≫= get = Some d /\ e = Some e' /\
    authorized_generation d = Some (lifecycle_generation e') /\
    effective_dimension get dflt direct inherited e = mkEffective (value d) source_entity (Some (event_id d)) (references d).
Proof.
  unfold effective_dimension. destruct (direct ≫= get); [done|]. destruct (inherited ≫= get) as [d|]; [|done].
  destruct e as [e|]; [|done]. case_bool_decide; [|done]. intros _. split; [done|]. by exists d, e.
Qed.

(** Decisions are inherited within one lifecycle generation only.  Let a
    link be proposed for the entity snapshot [e1] and let validated transitions
    lead to [e2].  If the link passes decisions of [e2] on, then the entity has
    been open in the generation of [e1] in every snapshot in between, and an
    inherited verdict or suppression was authorised in that generation; in
    particular reopening a resolved entity revives nothing. *)
Theorem inheritance_one_generation before after policy registry lineage entry ps item old e1 e2 l o r direct eff :
  propose before after policy registry lineage entry ps item old e1 = Ok l ->
  rtc entity_step e1 e2 ->
  effective_decisions o (Some l) (Some e2) r direct = Ok eff -> inheritance_active eff = true ->
  (forall em, rtc entity_step e1 em -> rtc entity_step em e2 ->
     lifecycle em = entity_open /\ lifecycle_generation em = lifecycle_generation e1) /\
  (eff_source (eff_verdict eff) = source_entity ->
   exists d, verdict (decisions e2) = Some d /\ authorized_generation d = Some (lifecycle_generation e1)) /\
  (eff_source (eff_suppression eff) = source_entity ->
   exists d, suppression (decisions e2) = Some d /\ authorized_generation d = Some (lifecycle_generation e1)).
Proof.
  intros [Hg Ho]%propose_guards Htr Heff Ha.
  destruct (effective_Ok _ _ _ _ _ _ Heff Ha) as (l' & e' & [= <-] & [= <-] & Hi & Hv & Hsup).
  pose proof (in_generation _ _ _ _ Hi) as Hgen. rewrite Hg in Hgen. destruct (in_open _ _ _ _ Hi) as [Hin _].
  rewrite Ho in Hin. apply bool_decide_eq_true in Hin. split_and!.
  - intros em H1 H2. apply generation_grows in H1 as [L1 E1], H2 as [L2 E2].
    assert (lifecycle_generation e1 = lifecycle_generation em) as Eg by lia. by rewrite <-(E1 Eg).
  - rewrite Hv. intros (_ & d & e' & Hd & [= <-] & Hauth & _)%effective_entity. exists d. split; [done|]. by rewrite <-Hgen.
  - rewrite Hsup. intros (_ & d & e' & Hd & [= <-] & Hauth & _)%effective_entity. exists d. split; [done|]. by rewrite <-Hgen.
Qed.

(** The outcome of one dimension, from its two candidate sources. *)
Definition resolved_as (direct inherited : option DimensionDecision) (dflt : DecisionValue) (x : EffectiveDimension) : Prop :=
  match direct, inherited with
  | Some d, _ => x = mkEffective (value d) source_occurrence (Some (event_id d)) (references d)
  | None, Some d => x = mkEffective (value d) source_entity (Some (event_id d)) (references d)
  | None, None => x = mkEffective dflt source_default None []
  end.

(** The decision of an entity that its current generation authorises. *)
Definition authorised (eff : EffectiveDecisions) (e : option EntitySnapshot)
    (get : DecisionSnapshot -> option DimensionDecision) : option DimensionDecision :=
  if inheritance_active eff then
    e' ← e; d ← get (decisions e'); guard (authorized_generation d = Some (lifecycle_generation e'));; Some d
  else None.

Lemma effective_default get dflt direct e :
  resolved_as (direct ≫= get) None dflt (effective_dimension get dflt direct None e).
Proof. unfold resolved_as, effective_dimension. by destruct (direct ≫= get). Qed.

Lemma effective_resolved get dflt direct e' :
  resolved_as (direct ≫= get)
    (d ← get (decisions e'); guard (authorized_generation d = Some (lifecycle_generation e'));; Some d)
    dflt (effective_dimension get dflt direct (Some (decisions e')) (Some e')).
Proof.
  unfold resolved_as, effective_dimension. destruct (direct ≫= get); [done|]. cbn.
  destruct (get (decisions e')) as [d|]; [|done]. cbn. case_bool_decide; case_guard; cbn; done.
Qed.

(** The sources of effective decisions.  In each dimension separately, a
    direct decision of the occurrence wins, even an explicit clear; otherwise
    the entity's decision applies if inheritance is active and the decision
    was authorised in the entity's current generation; otherwise the default
    holds.  Inheritance is active only through a link whose occurrence digest,
    policy activation, profile, entity and revisions all hold. *)
Theorem effective_decision_sources o l e r direct eff :
  effective_decisions o l e r direct = Ok eff ->
  resolved_as (direct ≫= verdict) (authorised eff e verdict) unreviewed (eff_verdict eff) /\
  resolved_as (direct ≫= suppression) (authorised eff e suppression) suppression_inactive (eff_suppression eff) /\
  (inheritance_active eff = true -> exists l' e', l = Some l' /\ e = Some e' /\ inherits o l' e' r) /\
  (inheritance_active eff = true <-> inheritance_block_reason eff = None).
Proof.
  intros H. pose proof H as H'. unfold effective_decisions in H'. apply obind_Ok in H' as (u & _ & H').
  apply obind_Ok in H' as (res & Hr & [= <-]). cbn. split_and!.
  - destruct res as [d|]; cbn.
    + destruct l as [l|]; [|done]. apply inherit_Ok in Hr as (e' & -> & -> & _). apply effective_resolved.
    + unfold authorised. cbn. apply effective_default.
  - destruct res as [d|]; cbn.
    + destruct l as [l|]; [|done]. apply inherit_Ok in Hr as (e' & -> & -> & _). apply effective_resolved.
    + unfold authorised. cbn. apply effective_default.
  - intros Ha. by destruct (effective_Ok _ _ _ _ _ _ H Ha) as (l' & e' & ? & ? & ? & _); exists l', e'.
  - by destruct res.
Qed.

(** * Planning returns ([services/scan/continuity.py])

    On records that passed their constructors, with matching scopes and
    lineage, [plan_continuity] returns a plan. *)

(** ** Checks that pass *)

Definition textual (v : pystr) : bool :=
  negb (forallb is_space v || (2048 <? len v) || existsb (fun c => c <? 32) v).

Lemma text_check_Ok v f : _text_check v f = Ok tt <-> textual v = true.
Proof. unfold _text_check, textual. rewrite raise_if_Ok. by rewrite negb_true_iff. Qed.

Lemma digest_check_Ok v f : _digest v f = Ok tt <-> is_sha256_ref v = true.
Proof. unfold _digest. rewrite raise_if_Ok. by rewrite negb_false_iff. Qed.

Lemma revision_check_Ok v : _revision v = Ok tt <-> 0 <= v.
Proof. unfold _revision. rewrite raise_if_Ok. apply Z.ltb_ge. Qed.

Lemma forO_all {A} (f : A -> outcome unit) l : Forall (fun x => f x = Ok tt) l -> forO f l = Ok tt.
Proof. unfold forO. induction 1 as [|x l Hx _ IH]; [done|]. cbn. rewrite Hx. exact IH. Qed.

Lemma then_Ok (m k : outcome unit) : (m ⊳ k) = Ok tt <-> m = Ok tt /\ k = Ok tt.
Proof. destruct m as [[]|]; cbn; naive_solver. Qed.

(** ** What constructors guarantee *)

Lemma cohort_textual k : check_cohort k = Ok tt ->
  Forall (fun nv => textual nv.2 = true) (cohort_fields k) /\ is_sha256_ref (rule_semantic_digest k) = true.
Proof.
  unfold check_cohort. rewrite !then_Ok, digest_check_Ok. intros (H & Hd & _). split; [|done].
  apply forO_Ok in H. eapply Forall_impl; [exact H|]. intros nv. apply text_check_Ok.
Qed.

(** The text fields of the policy profile of a cohort have no wildcard. *)
Definition exact_scope (k : CohortKey) : bool :=
  forallb (fun v => negb (has_star v)) [detector_id k; vulnerability_class k; language k; s_version k].

Lemma profile_total o : check_cohort (cohort o) = Ok tt -> exact_scope (cohort o) = true ->
  exists q, _profile o = Ok q.
Proof.
  intros Hc Hs. unfold _profile. destruct (binding o) as [b|]; [|by eexists].
  destruct (_ || _) eqn:E; [by eexists|]. checks_inv.
  match goal with H : engine _ ∈ _ |- _ => rename H into Heng end.
  set (q := mkProfile _ _ _ _ _ _ _ _ _).
  apply cohort_textual in Hc as [Ht Hd]. unfold cohort_fields in Ht. repeat (apply Forall_cons in Ht as [? Ht]). cbn in *.
  unfold exact_scope in Hs. cbn in Hs. rewrite !andb_true_iff in Hs. destruct Hs as (S1 & S2 & S3 & S4 & _).
  assert (Hq : check_profile q = Ok tt); [|rewrite Hq; by eexists].
  assert (Hstar : has_star (engine (cohort o)) = false).
  { apply elem_of_cons in Heng as [->|[->|[]%elem_of_nil]%elem_of_cons]; vm_compute; reflexivity. }
  unfold check_profile. rewrite !then_Ok, !raise_if_Ok, digest_check_Ok. split_and!.
  - apply forO_all. apply negb_true_iff in S1, S2, S3, S4.
    repeat (apply Forall_cons; split; [rewrite then_Ok, text_check_Ok, raise_if_Ok; done|]). constructor.
  - cbn. by rewrite bool_decide_true.
  - done.
  - cbn. by rewrite !bool_decide_true.
Qed.

Lemma eligible_total entry items : forall m,
  Forall (fun o => check_cohort (cohort o) = Ok tt /\ exact_scope (cohort o) = true) items ->
  exists q, eligible_profiles entry m items = Ok q.
Proof.
  induction items as [|o items IH]; intros m; cbn; [by eexists|].
  intros [[H1 H2] H]%Forall_cons. destruct (profile_total o H1 H2) as [[p|] ->]; cbn; [|by eexists].
  destruct (decide _); [by apply IH|by eexists].
Qed.

Definition made (a : ArtifactIdentity) : Prop := exists s d k n, make_identity s d k n = Ok a.

Lemma made_digest ns a : made a -> strong_in ns a = true -> is_Some (a_digest a).
Proof.
  intros (s & d & k & n & H) Hs. unfold strong_in in Hs. apply andb_true_iff in Hs as [Hs _].
  apply andb_true_iff in Hs as [Hs%bool_decide_eq_true _].
  pose proof (make_identity_Ok _ _ _ _ _ H) as (-> & _ & -> & _ & _). rewrite Hs in H. unfold make_identity in H.
  apply obind_Ok in H as (b & _ & H). destruct b; [|done]. destruct (a_digest a) as [x|] eqn:E; [by eexists|].
  cbn [of_opt check_digest obind] in H. by rewrite bool_decide_true in H.
Qed.

(** Every record passed its constructor, and the occurrences can be encoded. *)
Record constructed (before after : DetectionInventory) (registry : PolicyRegistrySnapshot) (lineage : LineageSnapshot)
    (pes : list PredecessorEntity) : Prop := {
  cs_before : check_inventory before = Ok tt;
  cs_after : check_inventory after = Ok tt;
  cs_rows o : o ∈ occurrences before ++ occurrences after ->
    check_cohort (cohort o) = Ok tt /\ made (artifact (graph o)) /\ made (artifact (sliced o)) /\
    exists d, occurrence_digest o = Ok d;
  cs_registry : check_registry registry = Ok tt;
  cs_entries e : e ∈ entries registry -> check_entry e = Ok tt;
  cs_lineage : check_lineage lineage = Ok tt;
  cs_entities a : a ∈ pes -> check_entity (entity a) = Ok tt /\ check_decisions (decisions (entity a)) = Ok tt
}.

(** The arguments belong together. *)
Record comparable (before after : DetectionInventory) (policy : pystr) (lineage : LineageSnapshot)
    (pes : list PredecessorEntity) : Prop := {
  cm_policy : is_sha256_ref policy = true;
  cm_scope : inv_cohort before = inv_cohort after;
  cm_lineage : lin_cohort lineage = inv_cohort after;
  cm_pred : lin_predecessor_scan_id lineage = inv_scan_id before;
  cm_cur : lin_current_scan_id lineage = inv_scan_id after;
  cm_disjoint x : x ∈ row_ids before -> x ∈ row_ids after -> False;
  cm_assoc : Forall (fun a => pre_occurrence_id a ∈ row_ids before /\ ent_cohort (entity a) = inv_cohort before) pes;
  cm_unique : NoDup (map pre_occurrence_id pes);
  cm_exact : exact_scope (inv_cohort after) = true
}.

Section total.
Context (before after : DetectionInventory) (policy : pystr) (registry : PolicyRegistrySnapshot)
  (lineage : LineageSnapshot) (pes : list PredecessorEntity).
Hypothesis Hc : constructed before after registry lineage pes.
Hypothesis Hm : comparable before after policy lineage pes.

Lemma inventory_digests : is_sha256_ref (inv_content_digest before) = true /\ is_sha256_ref (inv_content_digest after) = true.
Proof.
  destruct Hc as [Hb Ha _ _ _ _ _]. unfold check_inventory in Hb, Ha.
  rewrite !then_Ok, !digest_check_Ok in Hb, Ha. by destruct Hb as (_ & _ & ? & _), Ha as (_ & _ & ? & _).
Qed.

Lemma guards_total entry e : active_entry registry policy = Some entry -> check_entity e = Ok tt ->
  check_decisions (decisions e) = Ok tt ->
  check_guards (mkGuards (inv_cohort after) (inv_scan_id before) (inv_scan_id after) (lin_revision lineage)
    (revision registry) policy (activation_event_id entry) (entity_id e) (ent_revision e) (lifecycle_generation e)
    (dec_revision (decisions e)) (inv_content_digest before) (inv_content_digest after)) = Ok tt.
Proof.
  intros He Hent Hdec. destruct inventory_digests as [Db Da].
  pose proof (cs_lineage _ _ _ _ _ Hc) as Hl. unfold check_lineage in Hl. rewrite !then_Ok, !text_check_Ok, raise_if_Ok in Hl.
  destruct Hl as (L1 & L2 & L3 & L4). rewrite (cm_pred _ _ _ _ _ Hm) in L1, L3. rewrite (cm_cur _ _ _ _ _ Hm) in L2, L3.
  pose proof (cs_registry _ _ _ _ _ Hc) as Hr. unfold check_registry in Hr. rewrite then_Ok in Hr. destruct Hr as [R1 _].
  apply find_some in He as [Hin%list_elem_of_In _]. apply (cs_entries _ _ _ _ _ Hc) in Hin. unfold check_entry in Hin.
  apply then_Ok in Hin as [_ Hin%text_check_Ok].
  unfold check_entity in Hent. rewrite !then_Ok, text_check_Ok in Hent. destruct Hent as (T1 & T2 & T3 & _).
  unfold check_decisions in Hdec. rewrite !then_Ok in Hdec. destruct Hdec as (_ & T4 & _).
  unfold check_guards. rewrite !then_Ok, raise_if_Ok.
  refine (conj (forO_all _ _ _) (conj (forO_all _ _ _) (conj L3 (forO_all _ _ _)))).
  - by repeat constructor.
  - repeat (apply Forall_cons; split; [by apply text_check_Ok|]). constructor.
  - repeat (apply Forall_cons; split; [apply digest_check_Ok; done || apply (cm_policy _ _ _ _ _ Hm)|]). constructor.
Qed.

Notation previous := (py_sorted by_occurrence_id (occurrences before)).
Notation current := (py_sorted by_occurrence_id (occurrences after)).

Lemma row_of o : o ∈ previous ++ current -> o ∈ occurrences before ++ occurrences after.
Proof. rewrite !elem_of_app, !py_sorted_elem. done. Qed.

Lemma row_cohort o : o ∈ previous ++ current -> cohort o = inv_cohort after.
Proof.
  destruct (inventory_Ok _ _ (cs_before _ _ _ _ _ Hc)) as [_ Hb], (inventory_Ok _ _ (cs_after _ _ _ _ _ Hc)) as [_ Ha].
  rewrite Forall_forall in Hb, Ha. intros [H|H]%elem_of_app; apply py_sorted_elem in H; [|auto].
  rewrite (Hb o H). apply (cm_scope _ _ _ _ _ Hm).
Qed.

Lemma dispose_total entry assoc ps item : active_entry registry policy = Some entry ->
  eligible_profiles entry ∅ (previous ++ current) = Ok (Some ps) -> NoDup (map occurrence_id (previous ++ current)) ->
  (forall k e, assoc !! k = Some e -> exists a, a ∈ pes /\ entity a = e) -> item ∈ current ->
  exists d, dispose before after policy registry lineage entry assoc ps previous current item = Ok d.
Proof.
  intros He Hps Hnd Has Hi. destruct (eligible_Ok _ _ _ _ Hps) as (_ & Hel & _). specialize (Hel Hnd).
  assert (Hrow : forall o, o ∈ previous ++ current -> exists p gd sd od, ps !! occurrence_id o = Some p /\
    a_digest (artifact (graph o)) = Some gd /\ a_digest (artifact (sliced o)) = Some sd /\ occurrence_digest o = Ok od).
  { intros o Ho. destruct (Hel o Ho) as (p & Hp & Hlk). apply profile_Ok in Hp as (b & _ & _ & _ & Hg & Hs & _ & _).
    destruct (cs_rows _ _ _ _ _ Hc o (row_of o Ho)) as (_ & Mg & Ms & od & Hod).
    destruct (made_digest _ _ Mg Hg) as [gd ?], (made_digest _ _ Ms Hs) as [sd ?]. by exists p, gd, sd, od. }
  unfold dispose. cbv zeta. destruct (_ || _); [by eexists|].
  destruct (List.find _ previous) as [old|] eqn:Ef; [|by eexists]. apply find_some in Ef as [Ho%list_elem_of_In _].
  destruct (assoc !! occurrence_id old) as [e|] eqn:Ea; [|by eexists].
  destruct (Has _ _ Ea) as (a & Ha & <-). destruct (cs_entities _ _ _ _ _ Hc a Ha) as [E1 E2].
  destruct (Hrow item) as (p & gd & sd & od & H1 & H2 & H3 & H4); [apply elem_of_app; by right|].
  destruct (Hrow old) as (_ & pd & _ & _ & _ & H5 & _); [apply elem_of_app; by left|].
  unfold propose, getitem. rewrite H3, H2, H5, H1. cbn [assert_some obind].
  rewrite (guards_total entry (entity a)) by done. cbn [obind]. rewrite H4. cbn. by eexists.
Qed.

Lemma mapO_total {A B} (f : A -> outcome B) l : (forall x, x ∈ l -> exists y, f x = Ok y) -> exists r, mapO f l = Ok r.
Proof.
  induction l as [|x l IH]; intros H; cbn; [by eexists|]. destruct (H x) as [y ->]; [left|]. cbn.
  destruct IH as [r ->]; [intros; apply H; by right|]. by eexists.
Qed.
End total.

(** Planning returns.  When every record passed its constructor, the
    arguments belong together and the scope names no wildcard,
    [plan_continuity] returns a plan; none of its assertions or inner
    constructors raises. *)
Theorem plan_continuity_total before after policy registry lineage pes :
  constructed before after registry lineage pes -> comparable before after policy lineage pes ->
  exists p, plan_continuity before after policy registry lineage pes = Ok p.
Proof.
  intros Hc Hm. destruct (inventory_Ok _ _ (cs_before _ _ _ _ _ Hc)) as [Nb _], (inventory_Ok _ _ (cs_after _ _ _ _ _ Hc)) as [Na _].
  set (previous := py_sorted by_occurrence_id (occurrences before)).
  set (current := py_sorted by_occurrence_id (occurrences after)).
  assert (Hdis : forall x, x ∈ map occurrence_id previous -> x ∉ map occurrence_id current).
  { intros x. unfold previous. rewrite sorted_ids. intros Hx. unfold current. rewrite sorted_ids.
    intros Hx'. by apply (cm_disjoint _ _ _ _ _ Hm x). }
  unfold plan_continuity. rewrite (proj2 (digest_check_Ok _ _) (cm_policy _ _ _ _ _ Hm)). cbn [obind].
  rewrite !bool_decide_true by apply Hm. cbn [negb orb raise_if obind]. fold previous current. cbv zeta.
  rewrite bool_decide_true by (apply set_eq; intros x; rewrite elem_of_intersection, !elem_of_id_set; set_solver).
  cbn [negb raise_if obind].
  destruct (associate_valid before (id_set (map occurrence_id previous)) pes ∅) as [assoc Ea].
  { eapply Forall_impl; [apply (cm_assoc _ _ _ _ _ Hm)|]. cbn. intros a [H1 H2]. rewrite lookup_empty, elem_of_id_set.
    unfold previous. by rewrite sorted_ids. }
  { apply Hm. }
  rewrite Ea. cbn [obind]. destruct (_ || _); [by eexists|]. destruct (_ || _); [by eexists|].
  destruct (active_entry registry policy) as [entry|] eqn:Ee; [|by eexists]. destruct (has_dup _); [by eexists|].
  destruct (_ || _); [by eexists|].
  destruct (eligible_total entry (previous ++ current) ∅) as [[ps|] Eps]; [|rewrite Eps; cbn [obind]..].
  { apply Forall_forall. intros o Ho. split; [by apply (cs_rows _ _ _ _ _ Hc), row_of|].
    rewrite (row_cohort _ _ _ _ _ _ Hc Hm o Ho). apply Hm. }
  2:{ by eexists. }
  destruct (mapO_total (dispose before after policy registry lineage entry assoc ps previous current) current) as [ds ->]; [|by eexists].
  intros item Hi. eapply dispose_total; try done.
  - rewrite map_app. apply NoDup_app. unfold previous, current. split_and!; [by rewrite sorted_ids|exact Hdis|by rewrite sorted_ids].
  - intros k e Hk. destruct (proj1 (associate_Ok _ _ _ _ _ Ea k e) Hk) as [H|(a & ? & _ & ?)]; [by rewrite lookup_empty in H|eauto].
Qed.
