(* ===== verification/ContinuitySamples.v ===== *)
(** * A concrete continuity scenario

    Two sealed inventories, an active policy and an open entity, and the
    theorems about [services/scan/continuity.py] applied to them. *)
From stdpp Require Import base tactics list gmap strings sets relations.
From Stdlib Require Import ZArith Lia.
From S2P Require Import Prelude PyData Cpg Ordering PyDict Json Identity Continuity ContinuityPlan ContinuitySpec ContinuityTrace.

Open Scope Z_scope.
Open Scope py_scope.

(** ** Records *)

Definition hex_of (c : string) : pystr := concat (repeat (str c) 32).
Definition ref_of (c : string) : pystr := sha_prefix ++ hex_of c.

Definition K : CohortKey := mkCohort (str "org") (str "code") (str "repo") (str "line") CORE (str "ifds") (str "sqli")
  (str "injection") (str "python") (ref_of "0a") (str "1").

Definition Bd : IdentityBinding := mkBinding (ref_of "0b") (str "model") (str "normal") (str "budget") (ref_of "0c")
  (concat (repeat (str "ab") 20)) (ref_of "0d").

Definition observed (ns digest : pystr) : IdentityObservation :=
  mkObservation (mkArtifact COMPLETED (Some digest) (Some (str "strong")) (Some ns)) [str "evidence"] None.

Definition row (oid scan sink slice : string) : OccurrenceView := mkOccurrence (str oid) (str scan) (str "capture")
  (ref_of "0e") K (ref_of "0f") (str sink) false (observed GRAPH_V2 (hex_of "aa")) (observed SLICE_V2 (hex_of slice)) (Some Bd).

Definition draft (scan : string) (rows : list OccurrenceView) (digest : pystr) : DetectionInventory :=
  mkInventory (str scan) (str "capture") (ref_of "0e") K detection_completed true (map occurrence_id rows) rows
    [str "evidence"] digest.

(** The digests are the ones [inventory_digest] and [policy_digest] compute:
    [inv1_Ok], [inv2_Ok] and [reg2_Ok] check them. *)
Definition b1 : OccurrenceView := row "b1" "scan-1" "sink" "11".
Definition b2 : OccurrenceView := row "b2" "scan-1" "other" "33".
Definition a1 : OccurrenceView := row "a1" "scan-2" "sink" "11".
Definition a2 : OccurrenceView := row "a2" "scan-2" "other" "22".
Definition digest1 : pystr := str "sha256:d47863847921c81fe2cda2aad4ab6334774e1ff59ac30a60ba311893bd5bec33".
Definition inv1 : DetectionInventory := draft "scan-1" [b2; b1] digest1.
Definition inv1' : DetectionInventory := draft "scan-1" [b1; b2] digest1.
Definition inv2 : DetectionInventory := draft "scan-2" [a1; a2]
  (str "sha256:eaf74e1ee866b8fc9307c3adb40ef10b1867ab00ad365f91907d749330e45ec9").

Definition profile1 : CompatibilityProfile := mkProfile (str "ifds") (str "sqli") (str "injection") (str "python")
  (ref_of "0a") (str "1") Bd GRAPH_V2 SLICE_V2.
Definition policy_def : PolicyDefinition := mkPolicy [profile1] [str "review"] (str "rev") POLICY_NAMESPACE.
Definition pd : pystr := str "sha256:01d764310ed63c54cd96e05c68a152b0219a48bf1ce56a07e6e0c61cbd48c61a".

Definition reg (revision : Z) (st : PolicyState) (act : string) (used : list string) : PolicyRegistrySnapshot :=
  mkRegistry revision [mkEntry policy_def pd st (str act)] (map str used).
Definition reg1 : PolicyRegistrySnapshot := reg 1 active "act-1" ["act-1"].
Definition reg2 : PolicyRegistrySnapshot := reg 2 revoked "act-1" ["act-1"].
Definition reg3 : PolicyRegistrySnapshot := reg 3 active "act-2" ["act-1"; "act-2"].

Definition line : LineageSnapshot := mkLineage K (str "scan-1") (str "scan-2") 4.

Definition decided (rev : Z) (v : DecisionValue) (event : string) : DecisionSnapshot :=
  mkDecisions scope_entity (str "entity") K rev (Some (mkDecision v (str event) rev [] (Some 0))) None None.
Definition ent (rev drev : Z) (v : DecisionValue) (event : string) : EntitySnapshot :=
  mkEntity (str "entity") K entity_open rev (decided drev v event) 0.
Definition ent1 : EntitySnapshot := ent 1 1 confirmed "event-1".
Definition ent2 : EntitySnapshot := ent 2 2 false_positive "event-2".
Definition entities : list PredecessorEntity := [mkPredecessor (str "b1") ent1].

(** ** Facts by computation *)

Lemma inv1_Ok : check_inventory inv1 = Ok tt.
Proof. vm_compute. reflexivity. Qed.
Lemma inv2_Ok : check_inventory inv2 = Ok tt.
Proof. vm_compute. reflexivity. Qed.
Lemma reg2_Ok : check_registry reg2 = Ok tt.
Proof. vm_compute. reflexivity. Qed.
Lemma reactivated : registry_step reg2 reg3.
Proof. repeat split; vm_compute; reflexivity. Qed.

Definition auth2 : HumanAuthorization := mkAuthorization (str "entity") K dim_verdict
  (DecisionEvent (mkDecision false_positive (str "event-2") 2 [] (Some 0))) (str "reviewer").
Lemma reviewed : entity_step ent1 ent2.
Proof. exists None, [auth2]. vm_compute. reflexivity. Qed.

Notation the_plan := (plan_continuity inv1 inv2 pd reg1 line entities).
(** The plan links [a1] to [b1] and gives [a2] a new identity. *)
Definition proposals (p : ContinuityPlan) : list (pystr * option pystr * DispositionStatus) :=
  map (fun d => (disp_occurrence_id d, predecessor_occurrence_id <$> link d, disp_status d)) (dispositions p).
Definition plans (o : outcome ContinuityPlan) (ds : list (pystr * option pystr * DispositionStatus)) : bool :=
  match o with Ok p => bool_decide (proposals p = ds) | Raise _ => false end.

Lemma plans_Ok o ds : plans o ds = true -> exists p, o = Ok p /\ proposals p = ds.
Proof. destruct o as [p|]; [|discriminate]. intros H%bool_decide_eq_true. by exists p. Qed.

Lemma the_plan_Ok : exists p, the_plan = Ok p /\
  proposals p = [(str "a1", Some (str "b1"), linked); (str "a2", None, new_identity)].
Proof. apply plans_Ok. vm_compute. reflexivity. Qed.

(** * Witnesses of the continuity theorems

    Each theorem about [services/scan/continuity.py], applied to the scenario
    above. *)

Lemma plan_accounts_for_occurrences_witness : exists p, the_plan = Ok p /\
  map disp_occurrence_id (dispositions p) = [str "a1"; str "a2"] /\
  (forall x, x ∈ retained_predecessor_ids p <-> x ∈ row_ids inv1 /\ x ∉ used_ids (dispositions p)).
Proof.
  destruct the_plan_Ok as (p & E & _). exists p. split; [exact E|].
  destruct (plan_accounts_for_occurrences inv1 inv2 pd reg1 line entities p inv1_Ok E) as (H1 & _ & H2 & _).
  split; [|exact H2]. rewrite H1. vm_compute. reflexivity.
Defined.

Lemma a1_row : a1 ∈ occurrences inv2.
Proof. vm_compute. left. Qed.
Lemma b1_row : b1 ∈ occurrences inv1.
Proof. vm_compute. right. left. Qed.

Lemma proposal_links p ds o o' st : proposals p = (occurrence_id o, Some (occurrence_id o'), st) :: ds -> links p o o'.
Proof.
  unfold proposals. destruct (dispositions p) as [|d rest] eqn:Ed; [discriminate|]. intros [= H1 H2 _ _].
  destruct (link d) as [l|] eqn:El; [|discriminate H2]. injection H2 as H2.
  exists d, l. rewrite Ed. split_and!; [left|exact El|exact H1|exact H2].
Qed.

Lemma links_exact_witness : exists p, the_plan = Ok p /\ links p a1 b1 /\ same_identity a1 b1 /\ strong_occurrence a1.
Proof.
  destruct the_plan_Ok as (p & E & Hp). pose proof (proposal_links p _ a1 b1 _ Hp) as Hl. exists p. split; [exact E|]. split; [exact Hl|].
  destruct (links_exact inv1 inv2 pd reg1 line entities p a1 b1 inv1_Ok inv2_Ok E a1_row b1_row) as [H1 H2].
  split; [apply H1, Hl|apply H2, Hl].
Defined.

Lemma inv1_same_digest : inv_content_digest inv1 = inv_content_digest inv1'.
Proof. reflexivity. Qed.

Lemma inv1_same_rows : same_rows inv1 inv1'.
Proof.
  split.
  2: exact (perm_swap (str "b1") (str "b2") []).
  2: exact (perm_swap b1 b2 []).
  2: exact (Permutation_refl [str "evidence"]).
  repeat (split; [vm_compute; reflexivity|]). exact inv1_same_digest.
Qed.
Lemma inv2_same_rows : same_rows inv2 inv2.
Proof. split; [repeat split|reflexivity..]. Qed.

Lemma row_order_irrelevant_witness :
  inventory_digest inv1' = inventory_digest inv1 /\ plan_continuity inv1' inv2 pd reg1 line entities = the_plan.
Proof.
  exact (row_order_irrelevant inv1 inv1' inv2 inv2 pd reg1 line entities entities inv1_Ok inv2_Ok
    inv1_same_rows inv2_same_rows (Permutation_refl entities)).
Defined.

(** The link of [a1], as the planner proposes it. *)
Notation proposed := (propose inv1 inv2 pd reg1 line (mkEntry policy_def pd active (str "act-1"))
  {[str "a1" := profile1]} a1 b1 ent1).

(** What [effective_decisions] answers for a proposed link, by entity and
    registry. *)
Definition effect_on (e : EntitySnapshot) (r : PolicyRegistrySnapshot) (l : LinkProposal) : outcome EffectiveDecisions :=
  effective_decisions a1 (Some l) (Some e) r None.

(** A link is proposed under the policy, its effect under [e] and [r] is
    defined, and inherits or not as given. *)
Definition effect_is (e : EntitySnapshot) (r : PolicyRegistrySnapshot) (inherited : bool) (l : LinkProposal) : bool :=
  match effect_on e r l with Ok eff => Bool.eqb (inheritance_active eff) inherited | Raise _ => false end.
Definition proposal_is (o : outcome LinkProposal) (f : LinkProposal -> bool) : bool :=
  match o with Ok l => f l | Raise _ => false end.
Definition scenario (l : LinkProposal) : bool :=
  bool_decide (g_policy_digest (guards l) = pd) && bool_decide (g_activation_event_id (guards l) = str "act-1") &&
  effect_is ent2 reg1 true l && effect_is ent1 reg3 false l.

Lemma effect_Ok e r inherited l : effect_is e r inherited l = true ->
  exists eff, effective_decisions a1 (Some l) (Some e) r None = Ok eff /\ inheritance_active eff = inherited.
Proof.
  unfold effect_is, effect_on. destruct (effective_decisions a1 (Some l) (Some e) r None) as [eff|]; [|discriminate].
  intros H%Bool.eqb_prop. by exists eff.
Qed.

Lemma proposal_Ok o f : proposal_is o f = true -> exists l, o = Ok l /\ f l = true.
Proof. destruct o as [l|]; [|discriminate]. by exists l. Qed.

Lemma scenario_Ok : proposal_is proposed scenario = true.
Proof. vm_compute. reflexivity. Qed.

Lemma scenario_facts : exists l, proposed = Ok l /\ g_policy_digest (guards l) = pd /\
  g_activation_event_id (guards l) = str "act-1" /\ effect_is ent2 reg1 true l = true /\ effect_is ent1 reg3 false l = true.
Proof.
  destruct (proposal_Ok _ _ scenario_Ok) as (l & El & H). exists l. split; [exact El|].
  apply andb_true_iff in H as [H H4]. apply andb_true_iff in H as [H H3]. apply andb_true_iff in H as [H1 H2].
  apply bool_decide_eq_true in H1, H2. auto.
Qed.

Lemma revoked_entry : mkEntry policy_def pd revoked (str "act-1") ∈ entries reg2.
Proof. unfold reg2, reg, entries. apply list_elem_of_singleton. reflexivity. Qed.

Lemma revocation_is_final_witness : exists l eff, proposed = Ok l /\
  effective_decisions a1 (Some l) (Some ent1) reg3 None = Ok eff /\ inheritance_active eff = false.
Proof.
  destruct scenario_facts as (l & El & Hp & Ha & _ & H). destruct (effect_Ok _ _ _ _ H) as (eff & E & _).
  exists l, eff. split; [exact El|]. split; [exact E|].
  exact (revocation_is_final reg2 reg3 (str "act-1") (mkEntry policy_def pd revoked (str "act-1")) a1 l (Some ent1) None eff
    (rtc_once _ _ reactivated) reg2_Ok revoked_entry (eq_sym Hp) eq_refl eq_refl Ha E).
Defined.

Lemma inheritance_one_generation_witness : exists l eff, proposed = Ok l /\
  effective_decisions a1 (Some l) (Some ent2) reg1 None = Ok eff /\ inheritance_active eff = true /\ lifecycle ent1 = entity_open.
Proof.
  destruct scenario_facts as (l & El & _ & _ & Hs & _). destruct (effect_Ok _ _ _ _ Hs) as (eff & E & H).
  exists l, eff. split; [exact El|]. split; [exact E|]. split; [exact H|].
  exact (proj1 (proj1 (inheritance_one_generation _ _ _ _ _ _ _ _ _ ent1 ent2 l a1 reg1 None eff El
    (rtc_once _ _ reviewed) E H) ent1 (rtc_refl _ _) (rtc_once _ _ reviewed))).
Defined.

Lemma effective_decision_sources_witness : exists l eff, proposed = Ok l /\
  effective_decisions a1 (Some l) (Some ent2) reg1 None = Ok eff /\ inherits a1 l ent2 reg1.
Proof.
  destruct scenario_facts as (l & El & _ & _ & Hs & _). destruct (effect_Ok _ _ _ _ Hs) as (eff & E & H).
  exists l, eff. split; [exact El|]. split; [exact E|].
  destruct (proj1 (proj2 (proj2 (effective_decision_sources a1 (Some l) (Some ent2) reg1 None eff E))) H)
    as (l' & e' & El' & Ee' & Hin).
  injection El' as <-. injection Ee' as <-. exact Hin.
Defined.

Lemma b1_pointed : well_pointed (occurrence_json b1).
Proof. vm_compute. repeat (split || constructor || discriminate). Qed.

Lemma occurrence_digest_binds_witness : exists d, occurrence_digest b1 = Ok d /\ (b1 = b1 \/ sha256_collision).
Proof.
  destruct (occurrence_digest b1) as [d|] eqn:E; [|vm_compute in E; discriminate E].
  exists d. split; [reflexivity|]. exact (occurrence_digest_binds b1 b1 d b1_pointed b1_pointed E E).
Defined.

Lemma made_of a : make_identity (VStr (a_status a)) (of_opt (a_digest a)) (of_opt (a_class a)) (of_opt (a_namespace a)) = Ok a ->
  made a.
Proof. intros H. by do 4 eexists. Qed.

Lemma all_constructed : constructed inv1 inv2 reg1 line entities.
Proof.
  split; [exact inv1_Ok|exact inv2_Ok| |vm_compute; reflexivity| |vm_compute; reflexivity|].
  - intros o Ho. change (o ∈ [b2; b1; a1; a2]) in Ho.
    assert (Hd : forall r, r ∈ [b2; b1; a1; a2] -> exists d, occurrence_digest r = Ok d).
    { intros r Hr. assert (H : forallb (fun r => match occurrence_digest r with Ok _ => true | _ => false end) [b2; b1; a1; a2] = true)
        by (vm_compute; reflexivity).
      rewrite forallb_forall in H. apply list_elem_of_In in Hr. specialize (H r Hr).
      destruct (occurrence_digest r) as [d|]; [by exists d|discriminate H]. }
    split_and!; [| | |by apply Hd].
    1: repeat (apply elem_of_cons in Ho as [->|Ho]; [vm_compute; reflexivity|]); by apply elem_of_nil in Ho.
    all: repeat (apply elem_of_cons in Ho as [->|Ho];
      [apply made_of; vm_compute; reflexivity|]); by apply elem_of_nil in Ho.
  - intros e He. vm_compute in He. apply list_elem_of_singleton in He as ->. vm_compute. reflexivity.
  - intros a ->%list_elem_of_singleton. split; vm_compute; reflexivity.
Qed.

Lemma all_comparable : comparable inv1 inv2 pd line entities.
Proof.
  split; try (vm_compute; reflexivity).
  - intros x Hx Hx'. change (x ∈ [str "b2"; str "b1"]) in Hx. change (x ∈ [str "a1"; str "a2"]) in Hx'.
    repeat (apply elem_of_cons in Hx as [->|Hx]; [repeat (apply elem_of_cons in Hx' as [Hx'|Hx']; [discriminate Hx'|]);
      by apply elem_of_nil in Hx'|]). by apply elem_of_nil in Hx.
  - constructor; [|constructor]. split; [|reflexivity]. right. left.
  - apply NoDup_singleton.
Qed.

Lemma plan_continuity_total_witness : exists p, the_plan = Ok p.
Proof. exact (plan_continuity_total inv1 inv2 pd reg1 line entities all_constructed all_comparable). Defined.
