(* ===== verification/JsonParse.v ===== *)
(** * Reading JSON text

    [bytes.decode("utf-8")] and [json.loads] with its hooks, as the standard
    library's scanner reads the text: [parse_int], [parse_float],
    [parse_constant] and [object_pairs_hook] are the section's variables.

    The scanner is recursive on nested values; its fuel bounds the number of
    nested calls and of items, and two units per character are enough
    ([loads_fuel]).  The interpreter's recursion limit is not modelled: the
    callers bound the nesting of the text before they parse it. *)
From stdpp Require Import base tactics list strings.
From Stdlib Require Import ZArith Lia.
From S2P Require Import Prelude PyData PyDict Sha256 Ordering Json.

Open Scope Z_scope.
Open Scope py_scope.

(** ** [bytes.decode("utf-8", errors="strict")] *)

Definition is_cont (b : Z) : bool := (128 <=? b) && (b <? 192).
Definition is_surrogate (c : Z) : bool := (55296 <=? c) && (c <? 57344).

Fixpoint utf8_decode (bs : pybytes) : option pystr :=
  match bs with
  | [] => Some []
  | a :: t =>
      if a <? 128 then cons a <$> utf8_decode t
      else match t with
      | [] => None
      | b :: t1 =>
          if (194 <=? a) && (a <? 224) && is_cont b then cons ((a - 192) * 64 + (b - 128)) <$> utf8_decode t1
          else match t1 with
          | [] => None
          | c :: t2 =>
              let x := (a - 224) * 4096 + (b - 128) * 64 + (c - 128) in
              if (224 <=? a) && (a <? 240) && is_cont b && is_cont c then
                if (x <? 2048) || is_surrogate x then None else cons x <$> utf8_decode t2
              else match t2 with
              | [] => None
              | d :: t3 =>
                  let x := (a - 240) * 262144 + (b - 128) * 4096 + (c - 128) * 64 + (d - 128) in
                  if (240 <=? a) && (a <? 248) && is_cont b && is_cont c && is_cont d then
                    if (x <? 65536) || (1114112 <=? x) then None else cons x <$> utf8_decode t3
                  else None
              end
          end
      end
  end.

(** ** Tokens *)

Definition JSONDecodeError : exc := ValueError "JSONDecodeError".

Definition is_ws (c : Z) : bool := (c =? 32) || (c =? 9) || (c =? 10) || (c =? 13).

Fixpoint skip_ws (s : pystr) : pystr :=
  match s with
  | c :: t => if is_ws c then skip_ws t else s
  | [] => []
  end.

Definition hex_value (c : Z) : option Z :=
  if is_digit c then Some (c - 48)
  else if (97 <=? c) && (c <=? 102) then Some (c - 87)
  else if (65 <=? c) && (c <=? 70) then Some (c - 55)
  else None.

(** [bytes.fromhex]: white space between the bytes is skipped. *)
Definition ascii_space (c : Z) : bool := (c =? 32) || ((9 <=? c) && (c <=? 13)).

Fixpoint fromhex (s : pystr) : outcome pybytes :=
  match s with
  | [] => Ok []
  | c :: rest =>
      if ascii_space c then fromhex rest
      else match rest with
      | [] => Raise (ValueError "non-hexadecimal number found in fromhex() arg")
      | d :: rest' =>
          match hex_value c, hex_value d with
          | Some h, Some l => bs ⇐ fromhex rest'; Ok (16 * h + l :: bs)
          | _, _ => Raise (ValueError "non-hexadecimal number found in fromhex() arg")
          end
      end
  end.

(** Four hexadecimal digits. *)
Definition hex4 (s : pystr) : option (Z * pystr) :=
  match s with
  | a :: b :: c :: d :: t =>
      match hex_value a, hex_value b, hex_value c, hex_value d with
      | Some a, Some b, Some c, Some d => Some (((a * 16 + b) * 16 + c) * 16 + d, t)
      | _, _, _, _ => None
      end
  | _ => None
  end.

Definition simple_escape (e : Z) : option Z :=
  if (e =? 34) || (e =? 92) || (e =? 47) then Some e
  else if e =? 98 then Some 8
  else if e =? 102 then Some 12
  else if e =? 110 then Some 10
  else if e =? 114 then Some 13
  else if e =? 116 then Some 9
  else None.

(** The low half after a high surrogate, if the next escape is one. *)
Definition low_half (u : Z) (s : pystr) : option (Z * pystr) :=
  if (55296 <=? u) && (u <? 56320) then
    match s with
    | b :: e :: t =>
        if (b =? 92) && (e =? 117) then
          match hex4 t with
          | Some (l, t) => if (56320 <=? l) && (l <? 57344) then Some (65536 + (u - 55296) * 1024 + (l - 56320), t) else None
          | None => None
          end
        else None
    | _ => None
    end
  else None.

(** One character of a string literal: its value and the rest. *)
Definition scan_char (s : pystr) : outcome (Z * pystr) :=
  match s with
  | [] => Raise JSONDecodeError
  | c :: t =>
      if c =? 92 then
        match t with
        | [] => Raise JSONDecodeError
        | e :: t1 =>
            if e =? 117 then
              match hex4 t1 with
              | None => Raise JSONDecodeError
              | Some (u, t2) => match low_half u t2 with Some (x, t3) => Ok (x, t3) | None => Ok (u, t2) end
              end
            else match simple_escape e with Some x => Ok (x, t1) | None => Raise JSONDecodeError end
        end
      else if c <=? 31 then Raise JSONDecodeError
      else Ok (c, t)
  end.

(** [scanstring] with [strict=True], after the opening quote. *)
Fixpoint scanstring (fuel : nat) (s : pystr) : outcome (pystr * pystr) :=
  match fuel with
  | O => Raise OutOfFuel
  | S fuel =>
      match s with
      | [] => Raise JSONDecodeError
      | c :: t =>
          if c =? 34 then Ok ([], t)
          else
            x ⇐ scan_char s;
            r ⇐ scanstring fuel x.2;
            Ok (x.1 :: r.1, r.2)
      end
  end.

Fixpoint span_digits (s : pystr) : pystr * pystr :=
  match s with
  | c :: t => if is_digit c then let '(d, r) := span_digits t in (c :: d, r) else ([], s)
  | [] => ([], [])
  end.

(** A fraction, and an exponent, or nothing. *)
Definition span_frac (s : pystr) : pystr * pystr :=
  match s with
  | c :: t => if c =? 46 then match span_digits t with ([], _) => ([], s) | (d, r) => (c :: d, r) end else ([], s)
  | [] => ([], [])
  end.

Definition span_exp (s : pystr) : pystr * pystr :=
  match s with
  | c :: t =>
      if (c =? 101) || (c =? 69) then
        let '(sign, t) := match t with g :: t' => if (g =? 43) || (g =? 45) then ([g], t') else ([], t) | [] => ([], []) end in
        match span_digits t with ([], _) => ([], s) | (d, r) => (c :: sign ++ d, r) end
      else ([], s)
  | [] => ([], [])
  end.

(** The integer part: a zero, or digits that do not start with one. *)
Definition span_int (s : pystr) : option (pystr * pystr) :=
  match s with
  | c :: t => if c =? 48 then Some ([c], t) else match span_digits s with ([], _) => None | r => Some r end
  | [] => None
  end.

Fixpoint strip (prefix s : pystr) : option pystr :=
  match prefix, s with
  | [], _ => Some s
  | p :: prefix, c :: s => if c =? p then strip prefix s else None
  | _, [] => None
  end.

Section loads.
Variables parse_int parse_float parse_constant : pystr -> outcome json.
Variable object_pairs_hook : list (pystr * json) -> outcome json.

(** A number from its sign on. *)
Definition match_number (sign s : pystr) : outcome (json * pystr) :=
  match span_int s with
  | None => Raise JSONDecodeError
  | Some (ds, t) =>
      let '(frac, t) := span_frac t in
      let '(exp, t) := span_exp t in
      v ⇐ match frac, exp with
          | [], [] => parse_int (sign ++ ds)
          | _, _ => parse_float (sign ++ ds ++ frac ++ exp)
          end;
      Ok (v, t)
  end.

(** A value that is neither a string nor a container. *)
Definition scan_atom (s : pystr) : outcome (json * pystr) :=
  match strip (str "null") s, strip (str "true") s, strip (str "false") s with
  | Some t, _, _ => Ok (JNull, t)
  | _, Some t, _ => Ok (JBool true, t)
  | _, _, Some t => Ok (JBool false, t)
  | None, None, None =>
      match strip (str "NaN") s, strip (str "Infinity") s, strip (str "-Infinity") s with
      | Some t, _, _ => v ⇐ parse_constant (str "NaN"); Ok (v, t)
      | _, Some t, _ => v ⇐ parse_constant (str "Infinity"); Ok (v, t)
      | _, _, Some t => v ⇐ parse_constant (str "-Infinity"); Ok (v, t)
      | None, None, None => match strip [45] s with Some t => match_number [45] t | None => match_number [] s end
      end
  end.

(** The three scanners of the module, after what they have already read: a
    value, the members of a non-empty object, the elements of a non-empty
    array. *)
Fixpoint scan_once (fuel : nat) (s : pystr) {struct fuel} : outcome (json * pystr) :=
  match fuel with
  | O => Raise OutOfFuel
  | S fuel' =>
      match s with
      | [] => Raise JSONDecodeError
      | c :: t =>
          if c =? 34 then r ⇐ scanstring fuel t; Ok (JStr r.1, r.2)
          else if c =? 123 then
            match strip [125] (skip_ws t) with
            | Some r => v ⇐ object_pairs_hook []; Ok (v, r)
            | None => r ⇐ scan_members fuel' (skip_ws t); v ⇐ object_pairs_hook r.1; Ok (v, r.2)
            end
          else if c =? 91 then
            match strip [93] (skip_ws t) with
            | Some r => Ok (JList [], r)
            | None => r ⇐ scan_elements fuel' (skip_ws t); Ok (JList r.1, r.2)
            end
          else scan_atom s
      end
  end
with scan_members (fuel : nat) (s : pystr) {struct fuel} : outcome (list (pystr * json) * pystr) :=
  match fuel with
  | O => Raise OutOfFuel
  | S fuel' =>
      match strip [34] s with
      | None => Raise JSONDecodeError
      | Some t =>
          k ⇐ scanstring fuel t;
          match strip [58] (skip_ws k.2) with
          | None => Raise JSONDecodeError
          | Some t =>
              v ⇐ scan_once fuel' (skip_ws t);
              match strip [125] (skip_ws v.2), strip [44] (skip_ws v.2) with
              | Some r, _ => Ok ([(k.1, v.1)], r)
              | None, Some t => r ⇐ scan_members fuel' (skip_ws t); Ok ((k.1, v.1) :: r.1, r.2)
              | None, None => Raise JSONDecodeError
              end
          end
      end
  end
with scan_elements (fuel : nat) (s : pystr) {struct fuel} : outcome (list json * pystr) :=
  match fuel with
  | O => Raise OutOfFuel
  | S fuel' =>
      v ⇐ scan_once fuel' s;
      match strip [93] (skip_ws v.2), strip [44] (skip_ws v.2) with
      | Some r, _ => Ok ([v.1], r)
      | None, Some t => r ⇐ scan_elements fuel' (skip_ws t); Ok (v.1 :: r.1, r.2)
      | None, None => Raise JSONDecodeError
      end
  end.

(** [json.loads(s)] *)
Definition loads (s : pystr) : outcome json :=
  match strip [65279] s with
  | Some _ => Raise JSONDecodeError
  | None =>
      r ⇐ scan_once (S (2 * length s)) (skip_ws s);
      match skip_ws r.2 with
      | [] => Ok r.1
      | _ => Raise JSONDecodeError
      end
  end.
End loads.
