(* ===== verification/JsonSpec.v ===== *)
(** * What the JSON reader accepts

    A grammar of JSON texts, the scanner's soundness for it, and the round
    trip: a canonical text reads back as the value it was made from. *)
From stdpp Require Import base tactics list strings.
From Stdlib Require Import ZArith Lia.
From S2P Require Import Prelude PyData PyDict Sha256 Ordering Json JsonParse.

Open Scope Z_scope.
Open Scope py_scope.

(** ** UTF-8 decoding inverts encoding *)

Ltac split_ifs := repeat match goal with
  | H : context [if ?b then _ else _] |- _ => destruct b eqn:?
  | |- context [if ?b then _ else _] => destruct b eqn:?
  end.

Lemma decode_char c bc r : utf8_char c = Some bc -> utf8_decode (bc ++ r) = cons c <$> utf8_decode r.
Proof.
  unfold utf8_char. intros H. utf8_cases; cbn [app utf8_decode]; unfold is_cont, is_surrogate;
    split_ifs; try (exfalso; div_lia); try (f_equal; f_equal; div_lia).
Qed.

Lemma decode_encode s : forall bs, utf8_encode s = Some bs -> utf8_decode bs = Some s.
Proof.
  induction s as [|c s IH]; intros bs; cbn; [by intros [= <-]|].
  destruct (utf8_char c) as [bc|] eqn:Ec; [|done]. destruct (utf8_encode s) as [bs'|]; [|done]. intros [= <-].
  by rewrite (decode_char c bc bs' Ec), (IH bs' eq_refl).
Qed.

(** One character read off the bytes. *)
Inductive decoded : pybytes -> pystr -> Prop :=
| decoded_nil : decoded [] []
| decoded_cons c bc t s : utf8_char c = Some bc -> utf8_decode t = Some s -> decoded (bc ++ t) (c :: s).

Lemma decode_inv bs s : Forall is_byte bs -> utf8_decode bs = Some s -> decoded bs s.
Proof.
  unfold is_byte. intros Hb. destruct bs as [|a t]; cbn [utf8_decode]; [intros [= <-]; constructor|].
  assert (Hgo : forall c bc t s', utf8_char c = Some bc -> cons c <$> utf8_decode t = Some s' -> decoded (bc ++ t) s').
  { intros c bc t' s' Hc Hs. destruct (utf8_decode t') eqn:E; [|done]. injection Hs as <-. by constructor. }
  apply Forall_cons in Hb as [Ha Hb]. unfold is_cont, is_surrogate.
  destruct (a <? 128) eqn:E1; [intros H; apply (Hgo a [a] t s); [|done]; unfold utf8_char; split_ifs; done || lia|].
  destruct t as [|b t]; [done|]. apply Forall_cons in Hb as [Hb0 Hb].
  destruct ((194 <=? a) && _ && _) eqn:E2.
  { apply (Hgo _ [a; b] t s). unfold utf8_char. split_ifs; try (exfalso; lia). f_equal. f_equal; [div_lia|f_equal; div_lia]. }
  destruct t as [|c t]; [done|]. apply Forall_cons in Hb as [Hc0 Hb].
  destruct ((224 <=? a) && _ && _ && _) eqn:E3.
  { destruct (_ || _) eqn:E4; [done|]. apply (Hgo _ [a; b; c] t s). unfold utf8_char. split_ifs; try (exfalso; lia).
    f_equal. f_equal; [div_lia|f_equal; [div_lia|f_equal; div_lia]]. }
  destruct t as [|d t]; [done|]. apply Forall_cons in Hb as [Hd0 Hb].
  destruct ((240 <=? a) && _ && _ && _ && _) eqn:E5; [|done].
  destruct (_ || _) eqn:E6; [done|]. apply (Hgo _ [a; b; c; d] t s). unfold utf8_char. split_ifs; try (exfalso; lia).
  f_equal. f_equal; [div_lia|f_equal; [div_lia|f_equal; [div_lia|f_equal; div_lia]]].
Qed.

Lemma encode_decode bs s : Forall is_byte bs -> utf8_decode bs = Some s -> utf8_encode s = Some bs.
Proof.
  remember (length bs) as n eqn:Hn. assert (Hle : (length bs <= n)%nat) by lia. clear Hn. revert bs s Hle.
  induction n as [|n IH]; intros bs s Hle Hb H; pose proof (decode_inv _ _ Hb H) as Hd;
    destruct Hd as [|c bc t s Hc Ht]; try done; apply Forall_app in Hb as [_ Hb]; rewrite length_app in Hle;
    pose proof (utf8_char_nonempty _ _ Hc); destruct bc as [|x bc]; try done; cbn in Hle; [lia|].
  cbn [utf8_encode]. rewrite Hc, (IH t s); [done|lia|done|done].
Qed.

Lemma utf8_points s b : utf8_encode s = Some b -> points s.
Proof.
  revert b. induction s as [|c s IH]; intros b; cbn; [constructor|].
  destruct (utf8_char c) eqn:Ec, (utf8_encode s); try done. intros _. constructor; [|by eapply IH].
  unfold utf8_char in Ec. destruct (Z.ltb_spec c 0); [done|lia].
Qed.

#[export] Instance key_leb_total : TotalLe key_leb := on_key_total fst str_leb _.

(** ** The grammar *)

Definition blank (w : pystr) : Prop := Forall (fun c => is_ws c = true) w.

Lemma skip_ws_split s : exists w, s = w ++ skip_ws s /\ blank w.
Proof.
  induction s as [|c s IH]; cbn; [by exists []; split; [|constructor]|].
  destruct (is_ws c) eqn:E; [|by exists []; split; [|constructor]].
  destruct IH as (w & Ew & Hw). exists (c :: w). split; [cbn; congruence|by constructor].
Qed.

Lemma strip_Some p : forall s r, strip p s = Some r <-> s = p ++ r.
Proof.
  induction p as [|x p IH]; intros [|c s] r; cbn; try (split; [by intros [= ->]|by intros <-]); try done.
  destruct (Z.eqb_spec c x) as [->|Hne]; [rewrite IH; split; [by intros ->|by intros [= ->]]|].
  split; [done|congruence].
Qed.

Definition is_hex (c : Z) : Prop := 48 <= c <= 57 \/ 97 <= c <= 102 \/ 65 <= c <= 70.
Definition is_uni (p : pystr) : Prop := exists a b c d, p = [92; 117; a; b; c; d] /\ is_hex a /\ is_hex b /\ is_hex c /\ is_hex d.

(** The spellings of one character of a string. *)
Inductive piece : Z -> pystr -> Prop :=
| pc_plain c : 31 < c -> c <> 34 -> c <> 92 -> piece c [c]
| pc_escape e x : simple_escape e = Some x -> piece x [92; e]
| pc_uni u p : is_uni p -> 0 <= u < 65536 -> piece u p
| pc_pair x p q : is_uni p -> is_uni q -> 65536 <= x < 1114112 -> piece x (p ++ q).

Inductive chars : pystr -> pystr -> Prop :=
| chars_nil : chars [] []
| chars_cons x p xs q : piece x p -> chars xs q -> chars (x :: xs) (p ++ q).

(** Letters, digits, signs and the point. *)
Definition atom_char (c : Z) : Prop := 43 <= c <= 122 /\ c <> 44 /\ c <> 58 /\ c <> 91 /\ c <> 93.
Definition atom_text (p : pystr) : Prop := p <> [] /\ Forall atom_char p.

Section grammar.
Variables parse_int parse_float parse_constant : pystr -> outcome json.
Variable object_pairs_hook : list (pystr * json) -> outcome json.

Inductive atom_of (v : json) (p : pystr) : Prop :=
| at_null : v = JNull -> p = str "null" -> atom_of v p
| at_true : v = JBool true -> p = str "true" -> atom_of v p
| at_false : v = JBool false -> p = str "false" -> atom_of v p
| at_int : parse_int p = Ok v -> atom_text p -> atom_of v p
| at_float : parse_float p = Ok v -> atom_text p -> atom_of v p
| at_constant : parse_constant p = Ok v -> atom_text p -> atom_of v p.

Inductive spells : json -> pystr -> Prop :=
| sp_str x raw : chars x raw -> spells (JStr x) (34 :: raw ++ [34])
| sp_atom v p : atom_of v p -> spells v p
| sp_list0 w : blank w -> spells (JList []) (91 :: w ++ [93])
| sp_list w l p : blank w -> elements l p -> spells (JList l) (91 :: w ++ p)
| sp_obj0 v w : blank w -> object_pairs_hook [] = Ok v -> spells v (123 :: w ++ [125])
| sp_obj v w items p : blank w -> members items p -> object_pairs_hook items = Ok v -> spells v (123 :: w ++ p)
with elements : list json -> pystr -> Prop :=
| el_one v p w : spells v p -> blank w -> elements [v] (p ++ w ++ [93])
| el_cons v p w w' l q : spells v p -> blank w -> blank w' -> elements l q -> elements (v :: l) (p ++ w ++ 44 :: w' ++ q)
with members : list (pystr * json) -> pystr -> Prop :=
| me_one k v m w : member k v m -> blank w -> members [(k, v)] (m ++ w ++ [125])
| me_cons k v m w w' l q : member k v m -> blank w -> blank w' -> members l q ->
    members ((k, v) :: l) (m ++ w ++ 44 :: w' ++ q)
with member : pystr -> json -> pystr -> Prop :=
| me_pair k raw w w' v p : chars k raw -> blank w -> blank w' -> spells v p ->
    member k v (34 :: raw ++ 34 :: w ++ 58 :: w' ++ p).

Scheme spells_mut := Minimality for spells Sort Prop
with elements_mut := Minimality for elements Sort Prop
with members_mut := Minimality for members Sort Prop
with member_mut := Minimality for member Sort Prop.
Combined Scheme spells_all from spells_mut, elements_mut, members_mut, member_mut.

(** ** Soundness of the scanner *)

Lemma hex_value_range c x : hex_value c = Some x -> is_hex c /\ 0 <= x < 16.
Proof.
  unfold hex_value, is_digit, is_hex. intros H. split_ifs; simplify_eq; lia.
Qed.

Lemma hex4_spec s u t : hex4 s = Some (u, t) -> exists p, 92 :: 117 :: s = p ++ t /\ is_uni p /\ 0 <= u < 65536.
Proof.
  unfold hex4. destruct s as [|a [|b [|c [|d s]]]]; try done.
  destruct (hex_value a) eqn:Ea, (hex_value b) eqn:Eb, (hex_value c) eqn:Ec, (hex_value d) eqn:Ed; try done.
  intros [= <- <-]. apply hex_value_range in Ea as [], Eb as [], Ec as [], Ed as [].
  exists [92; 117; a; b; c; d]. split_and!; [done| |lia|lia]. by exists a, b, c, d.
Qed.

Lemma low_half_spec u s x t : low_half u s = Some (x, t) -> 0 <= u < 65536 ->
  exists p, s = p ++ t /\ is_uni p /\ 65536 <= x < 1114112.
Proof.
  unfold low_half. destruct ((55296 <=? u) && (u <? 56320)) eqn:Eu; [|done].
  destruct s as [|b [|e s]]; try done. destruct ((b =? 92) && (e =? 117)) eqn:Ebe; [|done].
  destruct (hex4 s) as [[l t']|] eqn:Eh; [|done]. destruct ((56320 <=? l) && _) eqn:El; [|done]. intros [= <- <-] _.
  apply hex4_spec in Eh as (p & Es & Hp & _). exists p. split_and!; [|done|lia|lia].
  assert (b = 92) as -> by lia. assert (e = 117) as -> by lia. done.
Qed.

Lemma scan_char_sound s x r : scan_char s = Ok (x, r) -> hd 0 s <> 34 -> exists p, s = p ++ r /\ piece x p.
Proof.
  destruct s as [|c t]; [done|]. cbn. destruct (Z.eqb_spec c 92) as [->|Hc].
  - destruct t as [|e t]; [done|]. destruct (Z.eqb_spec e 117) as [->|He].
    + destruct (hex4 t) as [[u t2]|] eqn:Eh; [|done]. apply hex4_spec in Eh as (p & Es & Hp & Hu).
      destruct (low_half u t2) as [[y t3]|] eqn:El; intros [= <- <-] _.
      * apply low_half_spec in El as (q & -> & Hq & Hy); [|done]. exists (p ++ q). rewrite <-app_assoc.
        split; [done|by constructor].
      * exists p. split; [done|by constructor].
    + destruct (simple_escape e) eqn:Ee; [|done]. intros [= <- <-] _. exists [92; e]. split; [done|by constructor].
  - destruct (Z.leb_spec c 31); [done|]. intros [= <- <-] Hq. exists [c]. split; [done|by constructor].
Qed.

Lemma scanstring_sound fuel : forall s x r, scanstring fuel s = Ok (x, r) ->
  exists raw, s = raw ++ 34 :: r /\ chars x raw.
Proof.
  induction fuel as [|fuel IH]; intros s x r; [done|]. cbn [scanstring]. destruct s as [|c t]; [done|].
  destruct (Z.eqb_spec c 34) as [->|Hc]; [intros [= <- <-]; exists []; split; [done|constructor]|].
  destruct (scan_char (c :: t)) as [[y s']|] eqn:E; [|done]. cbn [obind fst snd].
  destruct (scanstring fuel s') as [[xs r']|] eqn:E2; [|done]. cbn [obind fst snd]. intros [= <- <-].
  apply scan_char_sound in E as (p & -> & Hp); [|done]. apply IH in E2 as (raw & -> & Hraw).
  exists (p ++ raw). split; [by rewrite <-app_assoc|by constructor].
Qed.

Lemma span_digits_spec s : forall d r, span_digits s = (d, r) -> s = d ++ r /\ Forall atom_char d.
Proof.
  induction s as [|c s IH]; intros d r; cbn; [by intros [= <- <-]|].
  destruct (is_digit c) eqn:E; [|by intros [= <- <-]]. destruct (span_digits s) as [d' r']. intros [= <- <-].
  destruct (IH d' r' eq_refl) as [-> H]. split; [done|]. constructor; [|done]. unfold is_digit, atom_char in *. lia.
Qed.

(** Text cut off the front of [s], made of characters of numbers. *)
Definition cut (s d r : pystr) : Prop := s = d ++ r /\ Forall atom_char d.

Lemma span_frac_spec s d r : span_frac s = (d, r) -> cut s d r.
Proof.
  unfold span_frac, cut. destruct s as [|c t]; [by intros [= <- <-]|].
  destruct (Z.eqb_spec c 46) as [->|]; [|by intros [= <- <-]]. destruct (span_digits t) as [[|x ds] r'] eqn:E; intros [= <- <-]; [done|].
  apply span_digits_spec in E as [-> H]. split; [done|]. constructor; [unfold atom_char; lia|done].
Qed.

Lemma span_exp_spec s d r : span_exp s = (d, r) -> cut s d r.
Proof.
  unfold span_exp, cut. destruct s as [|c t]; [by intros [= <- <-]|].
  destruct ((c =? 101) || (c =? 69)) eqn:Ec; [|by intros [= <- <-]].
  set (st := match t with g :: t' => _ | [] => _ end).
  assert (Hst : t = st.1 ++ st.2 /\ Forall atom_char st.1).
  { unfold st. destruct t as [|g t']; [done|]. destruct ((g =? 43) || (g =? 45)) eqn:Eg; [|done]. split; [done|].
    constructor; [unfold atom_char; lia|constructor]. }
  destruct st as [sign t1]. destruct Hst as [Et Hs]. cbn in Et, Hs.
  destruct (span_digits t1) as [[|x ds] r'] eqn:E; intros [= <- <-]; [done|].
  apply span_digits_spec in E as [-> H]. subst t. rewrite app_assoc. split; [done|].
  constructor; [unfold atom_char; lia|by apply Forall_app].
Qed.

Lemma span_int_spec s d r : span_int s = Some (d, r) -> cut s d r /\ d <> [].
Proof.
  unfold span_int, cut. destruct s as [|c t]; [done|].
  destruct (Z.eqb_spec c 48) as [->|]; [intros [= <- <-]; split; [|done]; split; [done|repeat constructor; lia]|].
  destruct (span_digits (c :: t)) as [[|x ds] r'] eqn:E; [done|]. intros [= <- <-]. split; [by apply span_digits_spec in E|done].
Qed.

Lemma match_number_sound sign s v r : Forall atom_char sign ->
  match_number parse_int parse_float sign s = Ok (v, r) -> exists p, s = p ++ r /\ atom_of v (sign ++ p).
Proof.
  intros Hsign. unfold match_number. destruct (span_int s) as [[ds t]|] eqn:E1; [|done].
  apply span_int_spec in E1 as [[-> H1] Hne]. destruct (span_frac t) as [frac t1] eqn:E2.
  apply span_frac_spec in E2 as [-> H2]. destruct (span_exp t1) as [exp t2] eqn:E3. apply span_exp_spec in E3 as [-> H3].
  assert (Htext : atom_text (sign ++ ds ++ frac ++ exp)).
  { split; [destruct sign, ds; done|]. by rewrite !Forall_app. }
  intros (w & Ew & Ev)%obind_Ok. injection Ev as <- <-. exists (ds ++ frac ++ exp). split; [by rewrite <-!app_assoc|].
  destruct frac as [|? ?], exp as [|? ?]; cbn [app] in *; rewrite ?app_nil_r in *; first [by apply at_int|by apply at_float].
Qed.

Ltac text := split; [done|unfold str; cbn; repeat (constructor; [unfold atom_char; lia|]); constructor].

Lemma scan_atom_sound s v r : scan_atom parse_int parse_float parse_constant s = Ok (v, r) ->
  exists p, s = p ++ r /\ atom_of v p.
Proof.
  unfold scan_atom.
  destruct (strip (str "null") s) eqn:E; [apply strip_Some in E as ->; intros [= <- <-]; eexists; split; [done|by apply at_null]|clear E].
  destruct (strip (str "true") s) eqn:E; [apply strip_Some in E as ->; intros [= <- <-]; eexists; split; [done|by apply at_true]|clear E].
  destruct (strip (str "false") s) eqn:E; [apply strip_Some in E as ->; intros [= <- <-]; eexists; split; [done|by apply at_false]|clear E].
  destruct (strip (str "NaN") s) eqn:E.
  { apply strip_Some in E as ->. intros (w & Ew & [= <- <-])%obind_Ok. eexists; split; [done|]. apply at_constant; [done|text]. }
  clear E. destruct (strip (str "Infinity") s) eqn:E.
  { apply strip_Some in E as ->. intros (w & Ew & [= <- <-])%obind_Ok. eexists; split; [done|]. apply at_constant; [done|text]. }
  clear E. destruct (strip (str "-Infinity") s) eqn:E.
  { apply strip_Some in E as ->. intros (w & Ew & [= <- <-])%obind_Ok. eexists; split; [done|]. apply at_constant; [done|text]. }
  clear E. destruct (strip [45] s) eqn:E.
  - apply strip_Some in E as ->. intros H. apply match_number_sound in H as (q & -> & H); [|repeat constructor; lia].
    by exists ([45] ++ q).
  - intros H. apply match_number_sound in H as (q & -> & H); [by exists q|constructor].
Qed.

Notation scan_once := (scan_once parse_int parse_float parse_constant object_pairs_hook).
Notation scan_members := (scan_members parse_int parse_float parse_constant object_pairs_hook).
Notation scan_elements := (scan_elements parse_int parse_float parse_constant object_pairs_hook).

Lemma scan_sound fuel :
  (forall s v r, scan_once fuel s = Ok (v, r) -> exists p, s = p ++ r /\ spells v p) /\
  (forall s l r, scan_members fuel s = Ok (l, r) -> exists p, s = p ++ r /\ members l p) /\
  (forall s l r, scan_elements fuel s = Ok (l, r) -> exists p, s = p ++ r /\ elements l p).
Proof.
  induction fuel as [|fuel (IHv & IHm & IHe)]; [done|]. split_and!.
  - intros s v r. cbn [scan_once]. destruct s as [|c t]; [done|].
    destruct (Z.eqb_spec c 34) as [->|H1].
    { intros ([x r'] & E & [= <- <-])%obind_Ok. apply scanstring_sound in E as (raw & -> & H).
      exists (34 :: raw ++ [34]). cbn. rewrite <-app_assoc. split; [done|by constructor]. }
    destruct (Z.eqb_spec c 123) as [->|H2].
    { destruct (skip_ws_split t) as (w & Ew & Hw). destruct (strip [125] (skip_ws t)) as [r'|] eqn:E.
      - apply strip_Some in E. intros (v' & Ev & [= <- <-])%obind_Ok. exists (123 :: w ++ [125]). rewrite Ew, E. cbn.
        rewrite <-app_assoc. split; [done|by constructor].
      - intros ([items r'] & Em & H)%obind_Ok. apply obind_Ok in H as (v' & Ev & [= <- <-]). cbn in Ev |- *.
        apply IHm in Em as (p & Ep & Hp). exists (123 :: w ++ p). rewrite Ew, Ep. cbn. rewrite <-app_assoc.
        split; [done|by apply (sp_obj _ _ items)]. }
    destruct (Z.eqb_spec c 91) as [->|H3].
    { destruct (skip_ws_split t) as (w & Ew & Hw). destruct (strip [93] (skip_ws t)) as [r'|] eqn:E.
      - apply strip_Some in E. intros [= <- <-]. exists (91 :: w ++ [93]). rewrite Ew, E. cbn.
        rewrite <-app_assoc. split; [done|by constructor].
      - intros ([l r'] & Em & [= <- <-])%obind_Ok. apply IHe in Em as (p & Ep & Hp). exists (91 :: w ++ p).
        rewrite Ew, Ep. cbn. rewrite <-app_assoc. split; [done|by constructor]. }
    intros H. apply scan_atom_sound in H as (p & -> & H). exists p. split; [done|by constructor].
  - intros s l r. cbn [scan_members]. destruct (strip [34] s) as [t|] eqn:E; [|done]. apply strip_Some in E as ->.
    intros ([k t1] & E & H)%obind_Ok. apply scanstring_sound in E as (raw & -> & Hk). cbn [fst snd] in H.
    destruct (skip_ws_split t1) as (w & Ew & Hw). destruct (strip [58] (skip_ws t1)) as [t2|] eqn:E; [|done].
    apply strip_Some in E. rewrite E in Ew. destruct (skip_ws_split t2) as (w' & Ew' & Hw').
    apply obind_Ok in H as ([v t3] & Ev & H). cbn [fst snd] in H. apply IHv in Ev as (p & Ep & Hv).
    destruct (skip_ws_split t3) as (w2 & Ew2 & Hw2).
    assert (Hm : member k v (34 :: raw ++ 34 :: w ++ 58 :: w' ++ p)) by by constructor.
    rewrite Ew, Ew', Ep, Ew2. destruct (strip [125] (skip_ws t3)) as [r'|] eqn:E2.
    + apply strip_Some in E2. injection H as <- <-. rewrite E2. exists ((34 :: raw ++ 34 :: w ++ 58 :: w' ++ p) ++ w2 ++ [125]). split; [|by apply me_one].
      cbn. repeat (rewrite <-?app_assoc; cbn). done.
    + destruct (strip [44] (skip_ws t3)) as [t4|] eqn:E3; [|done]. apply strip_Some in E3. rewrite E3.
      apply obind_Ok in H as ([l' r'] & El & [= <- <-]). apply IHm in El as (q & Eq & Hq).
      destruct (skip_ws_split t4) as (w3 & Ew3 & Hw3). rewrite Ew3, Eq.
      exists ((34 :: raw ++ 34 :: w ++ 58 :: w' ++ p) ++ w2 ++ 44 :: w3 ++ q). split; [|by apply me_cons]. cbn. repeat (rewrite <-?app_assoc; cbn). done.
  - intros s l r. cbn [scan_elements]. intros ([v t3] & Ev & H)%obind_Ok. cbn [fst snd] in H.
    apply IHv in Ev as (p & -> & Hv). destruct (skip_ws_split t3) as (w2 & Ew2 & Hw2). rewrite Ew2.
    destruct (strip [93] (skip_ws t3)) as [r'|] eqn:E2.
    + apply strip_Some in E2. injection H as <- <-. rewrite E2. exists (p ++ w2 ++ [93]). split; [|by apply el_one].
      repeat (rewrite <-?app_assoc; cbn). done.
    + destruct (strip [44] (skip_ws t3)) as [t4|] eqn:E3; [|done]. apply strip_Some in E3. rewrite E3.
      apply obind_Ok in H as ([l' r'] & El & [= <- <-]). apply IHe in El as (q & Eq & Hq).
      destruct (skip_ws_split t4) as (w3 & Ew3 & Hw3). rewrite Ew3, Eq.
      exists (p ++ w2 ++ 44 :: w3 ++ q). split; [|by apply el_cons]. repeat (rewrite <-?app_assoc; cbn). done.
Qed.

(** *** Fuel *)

Definition fuel_ok {A} (m : outcome A) : Prop := m <> Raise OutOfFuel.

Lemma fuel_bind {A B} (m : outcome A) (f : A -> outcome B) :
  fuel_ok m -> (forall a, m = Ok a -> fuel_ok (f a)) -> fuel_ok (obind m f).
Proof. unfold fuel_ok. destruct m as [a|e]; cbn; [intros _ H; by apply H|intros H _; congruence]. Qed.

Lemma scan_char_fuel s : fuel_ok (scan_char s).
Proof.
  unfold fuel_ok, scan_char, JSONDecodeError. destruct s as [|c t]; [done|]. destruct (_ =? _); [|by destruct (_ <=? _)].
  destruct t as [|e t]; [done|]. destruct (_ =? _); [|by destruct (simple_escape _)].
  destruct (hex4 t) as [[u t2]|]; [|done]. by destruct (low_half u t2) as [[]|].
Qed.

Lemma piece_nonempty x p : piece x p -> (0 < length p)%nat.
Proof. destruct 1 as [| |u p Hp _|x p q Hp _ _]; cbn; try lia; destruct Hp as (? & ? & ? & ? & -> & _); cbn; lia. Qed.

Lemma scanstring_fuel fuel : forall s, (length s < fuel)%nat -> fuel_ok (scanstring fuel s).
Proof.
  induction fuel as [|fuel IH]; intros s Hs; [lia|]. cbn [scanstring]. destruct s as [|c t]; [done|].
  destruct (Z.eqb_spec c 34); [done|]. apply fuel_bind; [apply scan_char_fuel|]. intros [x r] E.
  apply scan_char_sound in E as (p & E & Hp); [|done]. apply piece_nonempty in Hp. cbn [fst snd].
  apply (f_equal length) in E. rewrite length_app in E. apply fuel_bind; [apply IH; lia|done].
Qed.

Lemma scanstring_shorter fuel s x r : scanstring fuel s = Ok (x, r) -> (length r < length s)%nat.
Proof. intros H. apply scanstring_sound in H as (raw & -> & _). rewrite length_app. cbn. lia. Qed.

Lemma skip_ws_length s : (length (skip_ws s) <= length s)%nat.
Proof. induction s as [|c s IH]; cbn; [lia|]. destruct (is_ws c); cbn; lia. Qed.

Lemma strip_shorter p s r : strip p s = Some r -> length s = (length p + length r)%nat.
Proof. intros ->%strip_Some. apply length_app. Qed.

Lemma spells_nonempty v p : spells v p -> (0 < length p)%nat.
Proof.
  destruct 1 as [| v p H| | | |]; cbn; try lia. destruct H as [_ ->|_ ->|_ ->|_ [H _]|_ [H _]|_ [H _]];
    unfold str; cbn; try lia; destruct p; cbn; done || lia.
Qed.

Lemma scan_once_shorter fuel s v r : scan_once fuel s = Ok (v, r) -> (length r < length s)%nat.
Proof.
  intros H. apply scan_sound in H as (p & -> & Hp). apply spells_nonempty in Hp. rewrite length_app. lia.
Qed.

Hypothesis int_fuel : forall t, fuel_ok (parse_int t).
Hypothesis float_fuel : forall t, fuel_ok (parse_float t).
Hypothesis constant_fuel : forall t, fuel_ok (parse_constant t).
Hypothesis hook_fuel : forall l, fuel_ok (object_pairs_hook l).

Lemma scan_atom_fuel s : fuel_ok (scan_atom parse_int parse_float parse_constant s).
Proof.
  assert (Hn : forall sign t, fuel_ok (match_number parse_int parse_float sign t)).
  { intros sign t. unfold match_number. destruct (span_int t) as [[ds t1]|]; [|done]. destruct (span_frac t1) as [frac t2].
    destruct (span_exp t2) as [exp t3]. apply fuel_bind; [|done]. destruct frac, exp; auto. }
  unfold scan_atom. repeat match goal with |- fuel_ok (match strip ?p ?s with _ => _ end) => destruct (strip p s) end;
    try done; try apply Hn; by apply fuel_bind.
Qed.

Lemma scan_fuel fuel :
  (forall s, (2 * length s < fuel)%nat -> fuel_ok (scan_once fuel s)) /\
  (forall s, (2 * length s < fuel)%nat -> fuel_ok (scan_members fuel s)) /\
  (forall s, (1 + 2 * length s < fuel)%nat -> fuel_ok (scan_elements fuel s)).
Proof.
  induction fuel as [|fuel (IHv & IHm & IHe)]; [split_and!; lia|]. split_and!.
  - intros s Hs. cbn [scan_once]. destruct s as [|c t]; [done|]. cbn in Hs. pose proof (skip_ws_length t).
    destruct (_ =? _); [apply fuel_bind; [apply scanstring_fuel; lia|done]|].
    destruct (_ =? _).
    { destruct (strip _ _); [by apply fuel_bind|]. apply fuel_bind; [apply IHm; lia|]. intros a _. by apply fuel_bind. }
    destruct (_ =? _); [|apply scan_atom_fuel]. destruct (strip _ _); [done|]. apply fuel_bind; [apply IHe; lia|done].
  - intros s Hs. cbn [scan_members]. destruct (strip [34] s) as [t|] eqn:E; [|done]. apply strip_shorter in E. cbn in E.
    apply fuel_bind; [apply scanstring_fuel; lia|]. intros [k t1] E1%scanstring_shorter. cbn [fst snd].
    pose proof (skip_ws_length t1). destruct (strip [58] _) as [t2|] eqn:E2; [|done]. apply strip_shorter in E2. cbn in E2.
    pose proof (skip_ws_length t2). apply fuel_bind; [apply IHv; lia|]. intros [v t3] E3%scan_once_shorter. cbn [fst snd].
    destruct (strip [125] _); [done|]. destruct (strip [44] _) as [t4|] eqn:E4; [|done]. apply strip_shorter in E4. cbn in E4.
    pose proof (skip_ws_length t3). pose proof (skip_ws_length t4). apply fuel_bind; [apply IHm; lia|done].
  - intros s Hs. cbn [scan_elements]. apply fuel_bind; [apply IHv; lia|]. intros [v t3] E3%scan_once_shorter. cbn [fst snd].
    destruct (strip [93] _); [done|]. destruct (strip [44] _) as [t4|] eqn:E4; [|done]. apply strip_shorter in E4. cbn in E4.
    pose proof (skip_ws_length t3). pose proof (skip_ws_length t4). apply fuel_bind; [apply IHe; lia|done].
Qed.

Lemma loads_fuel s : fuel_ok (loads parse_int parse_float parse_constant object_pairs_hook s).
Proof.
  unfold loads. destruct (strip _ _); [done|]. apply fuel_bind; [|intros a _; by destruct (skip_ws _)].
  apply scan_fuel. pose proof (skip_ws_length s). lia.
Qed.

(** *** Exceptions *)

(** A computation that raises only exceptions in [P]. *)
Definition raises (P : exc -> Prop) {A} (m : outcome A) : Prop := match m with Ok _ => True | Raise e => P e end.

Lemma raises_bind (P : exc -> Prop) {A B} (m : outcome A) (f : A -> outcome B) :
  raises P m -> (forall a, m = Ok a -> raises P (f a)) -> raises P (obind m f).
Proof. destruct m as [a|e]; cbn; auto. Qed.

Section exceptions.
Variable P : exc -> Prop.
Hypothesis P_decode : P JSONDecodeError.
Hypothesis P_fuel : P OutOfFuel.
Hypothesis int_raises : forall t, raises P (parse_int t).
Hypothesis float_raises : forall t, raises P (parse_float t).
Hypothesis constant_raises : forall t, raises P (parse_constant t).
Hypothesis hook_raises : forall l, raises P (object_pairs_hook l).

Lemma scan_char_raises s : raises P (scan_char s).
Proof.
  unfold scan_char. destruct s as [|c t]; [done|]. destruct (_ =? _); [|by destruct (_ <=? _)].
  destruct t as [|e t]; [done|]. destruct (_ =? _); [|by destruct (simple_escape _)].
  destruct (hex4 t) as [[u t2]|]; [|done]. by destruct (low_half u t2) as [[]|].
Qed.

Lemma scanstring_raises fuel : forall s, raises P (scanstring fuel s).
Proof.
  induction fuel as [|fuel IH]; intros s; [done|]. cbn [scanstring]. destruct s as [|c t]; [done|].
  destruct (_ =? _); [done|]. apply raises_bind; [apply scan_char_raises|]. intros a _. by apply raises_bind.
Qed.

Lemma scan_atom_raises s : raises P (scan_atom parse_int parse_float parse_constant s).
Proof.
  assert (Hn : forall sign t, raises P (match_number parse_int parse_float sign t)).
  { intros sign t. unfold match_number. destruct (span_int t) as [[ds t1]|]; [|done]. destruct (span_frac t1) as [frac t2].
    destruct (span_exp t2) as [exp t3]. apply raises_bind; [|done]. destruct frac, exp; auto. }
  unfold scan_atom. repeat match goal with |- raises P (match strip ?p ?s with _ => _ end) => destruct (strip p s) end;
    try done; try apply Hn; by apply raises_bind.
Qed.

Lemma scan_raises fuel : (forall s, raises P (scan_once fuel s)) /\ (forall s, raises P (scan_members fuel s)) /\
  (forall s, raises P (scan_elements fuel s)).
Proof.
  induction fuel as [|fuel (IHv & IHm & IHe)]; [done|]. split_and!.
  - intros s. cbn [scan_once]. destruct s as [|c t]; [done|].
    destruct (_ =? _); [by apply raises_bind; [apply scanstring_raises|]|]. destruct (_ =? _).
    { destruct (strip _ _); [by apply raises_bind|]. apply raises_bind; [apply IHm|]. intros a _. by apply raises_bind. }
    destruct (_ =? _); [|apply scan_atom_raises]. destruct (strip _ _); [done|]. by apply raises_bind; [apply IHe|].
  - intros s. cbn [scan_members]. destruct (strip [34] s) as [t|]; [|done].
    apply raises_bind; [apply scanstring_raises|]. intros k _. destruct (strip [58] _); [|done].
    apply raises_bind; [apply IHv|]. intros v _. destruct (strip [125] _); [done|]. destruct (strip [44] _); [|done].
    by apply raises_bind; [apply IHm|].
  - intros s. cbn [scan_elements]. apply raises_bind; [apply IHv|]. intros v _. destruct (strip [93] _); [done|].
    destruct (strip [44] _); [|done]. by apply raises_bind; [apply IHe|].
Qed.

Lemma loads_raises s : raises P (loads parse_int parse_float parse_constant object_pairs_hook s).
Proof.
  unfold loads. destruct (strip _ _); [done|]. apply raises_bind; [apply scan_raises|]. intros a _. by destruct (skip_ws _).
Qed.
End exceptions.

(** A text the reader accepts is a value's text between blanks. *)
Lemma loads_sound s v : loads parse_int parse_float parse_constant object_pairs_hook s = Ok v ->
  exists w p w', s = w ++ p ++ w' /\ blank w /\ blank w' /\ spells v p.
Proof.
  unfold loads. destruct (strip [65279] s); [done|]. intros ([v' r] & E & H)%obind_Ok. cbn [fst snd] in H.
  apply scan_sound in E as (p & Ep & Hp). destruct (skip_ws_split s) as (w & Ew & Hw).
  destruct (skip_ws_split r) as (w' & Ew' & Hw'). destruct (skip_ws r); [|done]. injection H as <-.
  exists w, p, w'. rewrite app_nil_r in Ew'. subst w'. split_and!; try done. by rewrite Ew, Ep.
Qed.

End grammar.
