(* ===== verification/JsonRoundTrip.v ===== *)
(** * A JSON text reads back as its value

    For either printer of strings: what [json.dumps] writes of a value whose
    strings and dicts the reader's hooks accept, [json.loads] reads as that
    value. *)
From stdpp Require Import base tactics list strings.
From Stdlib Require Import ZArith Lia.
From S2P Require Import Prelude PyData PyDict Sha256 Ordering Json JsonAscii JsonParse JsonSpec.

Open Scope Z_scope.
Open Scope py_scope.

(** ** Characters *)

Lemma hex_value_digit x : 0 <= x < 16 -> hex_value (hex_digit x) = Some x.
Proof. unfold hex_value, hex_digit, is_digit. intros H. split_ifs; try (f_equal; lia); lia. Qed.

Lemma hex4_control c t : 0 <= c < 32 -> hex4 (48 :: 48 :: hex_digit (c / 16) :: hex_digit (c mod 16) :: t) = Some (c, t).
Proof.
  intros Hc. unfold hex4. rewrite !hex_value_digit by div_lia. change (hex_value 48) with (Some 0). f_equal. f_equal. div_lia.
Qed.

Lemma scan_escape c t : 0 <= c -> scan_char (escape_char c ++ t) = Ok (c, t).
Proof.
  intros Hc. unfold escape_char.
  repeat match goal with |- context [if c =? ?y then _ else _] => destruct (Z.eqb_spec c y) as [->|]; [reflexivity|] end.
  destruct (Z.ltb_spec c 32).
  - change (scan_char (92 :: 117 :: 48 :: 48 :: hex_digit (c / 16) :: hex_digit (c mod 16) :: t) = Ok (c, t)).
    unfold scan_char. cbn [Z.eqb Pos.eqb]. rewrite hex4_control by lia. unfold low_half.
    destruct (Z.leb_spec 55296 c); [lia|done].
  - cbn. destruct (Z.eqb_spec c 92); [done|]. destruct (Z.leb_spec c 31); [lia|done].
Qed.

Lemma escape_not_quote c : exists d t, escape_char c = d :: t /\ d <> 34.
Proof.
  unfold escape_char, str. repeat match goal with |- context [if ?x then _ else _] => destruct x eqn:? end; cbn;
    do 2 eexists; (split; [done|lia]).
Qed.

Lemma scan_string_back fuel s r : points s -> (length s < fuel)%nat ->
  scanstring fuel (concat (map escape_char s) ++ 34 :: r) = Ok (s, r).
Proof.
  revert fuel. induction s as [|c s IH]; intros [|fuel] Hs Hf; cbn in Hf; try lia; cbn [scanstring]; [done|].
  apply Forall_cons in Hs as [Hc Hs]. cbn [map concat]. rewrite <-app_assoc.
  destruct (escape_not_quote c) as (d & t & E & Hd). pose proof (scan_escape c (concat (map escape_char s) ++ 34 :: r) Hc) as Hsc.
  rewrite E in Hsc |- *. cbn [app] in Hsc |- *. destruct (Z.eqb_spec d 34); [done|]. rewrite Hsc. cbn [obind fst snd].
  rewrite IH by (done || lia). done.
Qed.

(** Strings of code points, no high surrogate before a low one. *)
Fixpoint unpaired (s : pystr) : Prop :=
  match s with
  | [] => True
  | c :: t => 0 <= c < 1114112 /\ match t with d :: _ => ~ (55296 <= c < 56320 /\ 56320 <= d < 57344) | [] => True end /\ unpaired t
  end.

Lemma scalars_unpaired s : scalars s -> unpaired s.
Proof.
  unfold scalars, scalar. induction 1 as [|c s Hc Hs IH]; [done|]. cbn. split; [lia|]. split; [|done]. destruct s; [done|lia].
Qed.

Lemma hex4_unicode n t : 0 <= n < 65536 ->
  hex4 (hex_digit (n / 4096) :: hex_digit (n / 256 mod 16) :: hex_digit (n / 16 mod 16) :: hex_digit (n mod 16) :: t) = Some (n, t).
Proof. intros Hn. unfold hex4. rewrite !hex_value_digit by div_lia. f_equal. f_equal. div_lia. Qed.

Lemma scan_unicode n t : 0 <= n < 65536 ->
  scan_char (unicode_escape n ++ t) = match low_half n t with Some (x, r) => Ok (x, r) | None => Ok (n, t) end.
Proof. intros Hn. unfold unicode_escape, scan_char. cbn [app Z.eqb Pos.eqb]. by rewrite hex4_unicode. Qed.

Lemma low_half_unicode u n t : 55296 <= u < 56320 -> 0 <= n < 65536 ->
  low_half u (unicode_escape n ++ t) = if (56320 <=? n) && (n <? 57344) then Some (65536 + (u - 55296) * 1024 + (n - 56320), t) else None.
Proof.
  intros Hu Hn. unfold low_half. replace ((55296 <=? u) && (u <? 56320)) with true by lia. unfold unicode_escape. cbn [app].
  change ((92 =? 92) && (117 =? 117)) with true. cbv iota. by rewrite hex4_unicode.
Qed.

Lemma low_half_high u t x : low_half u t = Some x -> 55296 <= u < 56320.
Proof. unfold low_half. destruct ((55296 <=? u) && (u <? 56320)) eqn:E; [lia|done]. Qed.

(** After a high surrogate, only the escape of a low one is read with it. *)
Lemma low_half_other u d t : 55296 <= u < 56320 -> 0 <= d < 1114112 -> ~ (56320 <= d < 57344) -> low_half u (escape_char_ascii d ++ t) = None.
Proof.
  intros Hu Hd Hn. destruct (escape_escaped d) as [e He|He|Hb|Hb].
  - unfold low_half. replace ((55296 <=? u) && (u <? 56320)) with true by lia. cbn [app].
    destruct (Z.eqb_spec e 117) as [->|]; [by apply short_escape_not_u in He|]. by rewrite andb_false_r.
  - unfold low_half. replace ((55296 <=? u) && (u <? 56320)) with true by lia. cbn [app].
    destruct (Z.eqb_spec d 92) as [->|]; [done|]. by destruct t.
  - rewrite low_half_unicode by lia. destruct (_ && _) eqn:E; [lia|done].
  - rewrite <-app_assoc, low_half_unicode by div_lia. destruct (_ && _) eqn:E; [div_lia|done].
Qed.

Lemma escape_ascii_first c : exists d t, escape_char_ascii c = d :: t /\ d <> 34.
Proof.
  destruct (escape_escaped c) as [e|H| |]; try (unfold unicode_escape; cbn [app]; do 2 eexists; split; [reflexivity|lia]).
  exists c, []. split; [done|]. by intros ->.
Qed.

(** What follows an escape decides how it is read. *)
Lemma scan_escape_ascii c s r : unpaired (c :: s) ->
  scan_char (escape_char_ascii c ++ concat (map escape_char_ascii s) ++ 34 :: r) = Ok (c, concat (map escape_char_ascii s) ++ 34 :: r).
Proof.
  intros (Hc & Hn & Hs). unfold escape_char_ascii at 1. destruct (short_escape c) as [e|] eqn:Es.
  { unfold short_escape in Es. split_ifs; simplify_eq; repeat match goal with H : (_ =? _) = true |- _ => apply Z.eqb_eq in H; subst end; reflexivity. }
  destruct ((32 <=? c) && (c <? 127)) eqn:Ep.
  { unfold short_escape in Es. destruct (Z.eqb_spec c 92) as [->|H92]; [done|]. cbn [app scan_char].
    destruct (Z.eqb_spec c 92); [done|]. destruct (Z.leb_spec c 31); [lia|done]. }
  destruct (Z.ltb_spec c 65536).
  - rewrite scan_unicode by lia. destruct (low_half c _) as [[x t]|] eqn:El; [|done]. exfalso. pose proof (low_half_high _ _ _ El) as Hh.
    destruct s as [|d s]; [revert El; unfold low_half; cbn; by repeat case_match|]. cbn [map concat] in El. rewrite <-app_assoc in El.
    destruct Hs as (Hd & _). rewrite low_half_other in El; [done|lia|lia|]. intros ?. by apply Hn.
  - rewrite <-app_assoc, scan_unicode, low_half_unicode by div_lia. pose proof (Z.mod_pos_bound (c - 65536) 1024 ltac:(lia)).
    replace ((56320 <=? _) && _) with true by lia. f_equal. f_equal. div_lia.
Qed.

Lemma scan_ascii_back fuel s r : unpaired s -> (length s < fuel)%nat ->
  scanstring fuel (concat (map escape_char_ascii s) ++ 34 :: r) = Ok (s, r).
Proof.
  revert fuel. induction s as [|c s IH]; intros [|fuel] Hs Hf; cbn [length] in Hf; try lia; cbn [scanstring]; [done|].
  pose proof (scan_escape_ascii c s r Hs) as Hsc. destruct Hs as (_ & _ & Hs). cbn [map concat]. rewrite <-app_assoc.
  destruct (escape_ascii_first c) as (d & t & E & Hd). rewrite E in Hsc |- *. cbn [app] in Hsc |- *.
  destruct (Z.eqb_spec d 34); [done|]. rewrite Hsc. cbn [obind fst snd]. by rewrite IH by (done || lia).
Qed.

(** ** Values *)

Section grammar.
Variables parse_int parse_float parse_constant : pystr -> outcome json.
Variable object_pairs_hook : list (pystr * json) -> outcome json.
Notation scan_once := (scan_once parse_int parse_float parse_constant object_pairs_hook).
Notation scan_members := (scan_members parse_int parse_float parse_constant object_pairs_hook).
Notation scan_elements := (scan_elements parse_int parse_float parse_constant object_pairs_hook).

(** What may follow a value inside a container. *)
Definition stop (r : pystr) : Prop := match r with [] => True | c :: _ => c = 44 \/ c = 93 \/ c = 125 \/ c = 10 end.

Lemma span_digits_back ds r : Forall (fun c => 48 <= c <= 57) ds -> stop r -> span_digits (ds ++ r) = (ds, r).
Proof.
  intros Hds Hr. induction Hds as [|d ds Hd _ IH]; cbn.
  - destruct r as [|c r]; [done|]. cbn in *. unfold is_digit. destruct (_ && _) eqn:E; [lia|done].
  - rewrite IH. unfold is_digit. destruct (_ && _) eqn:E; [done|lia].
Qed.

Lemma match_number_back sign ds r v : plain_digits ds -> stop r -> parse_int (sign ++ ds) = Ok v ->
  match_number parse_int parse_float sign (ds ++ r) = Ok (v, r).
Proof.
  intros [Hd Hp] Hr Hv. unfold match_number.
  assert (E : span_int (ds ++ r) = Some (ds, r)).
  { unfold span_int. destruct ds as [|d ds]; [done|]. cbn [app]. destruct (Z.eqb_spec d 48) as [->|].
    - destruct ds; [done|done].
    - change (d :: ds ++ r) with ((d :: ds) ++ r). by rewrite (span_digits_back (d :: ds) r Hd Hr). }
  rewrite E. assert (E2 : span_frac r = ([], r)).
  { unfold span_frac. destruct r as [|c r]; [done|]. cbn in Hr. destruct (Z.eqb_spec c 46); [lia|done]. }
  assert (E3 : span_exp r = ([], r)).
  { unfold span_exp. destruct r as [|c r]; [done|]. cbn in Hr. destruct (_ || _) eqn:E'; [lia|done]. }
  rewrite E2, E3, Hv. done.
Qed.

Lemma strip_head p c s t : s = c :: t -> hd 0 p <> c -> p <> [] -> strip p s = None.
Proof. intros -> Hp Hn. destruct p as [|x p]; [done|]. cbn in *. destruct (Z.eqb_spec c x); [congruence|done]. Qed.

Lemma scan_int_back z r v : stop r -> parse_int (str_of_int z) = Ok v ->
  scan_atom parse_int parse_float parse_constant (str_of_int z ++ r) = Ok (v, r).
Proof.
  intros Hr Hv. unfold scan_atom.
  assert (Hs : forall q : string, str q <> [] -> hd 0 (str q) <> 45 -> ~ (48 <= hd 0 (str q) <= 57) -> strip (str q) (str_of_int z ++ r) = None).
  { intros q H1 H2 H3. destruct (str_of_int_head z) as (c & t & E & Hc). rewrite E. apply (strip_head _ c _ (t ++ r)); [done|lia|done]. }
  assert (Hm : strip (str "-Infinity") (str_of_int z ++ r) = None).
  { change (str "-Infinity") with (45 :: 73 :: str "nfinity"). unfold str_of_int in *. destruct (Z.ltb_spec z 0).
    - destruct (decimal_head (- z)) as (c & t & -> & Hc); [lia|]. cbn [app strip Z.eqb Pos.eqb].
      destruct (Z.eqb_spec c 73); [lia|done].
    - destruct (decimal_head z) as (c & t & -> & Hc); [lia|]. cbn [app strip]. destruct (Z.eqb_spec c 45); [lia|done]. }
  rewrite !Hs, Hm by (vm_compute; intuition congruence). unfold str_of_int in *. destruct (Z.ltb_spec z 0).
  - cbn. apply match_number_back; [apply decimal_spec; lia|done|done].
  - destruct (decimal_head z) as (c & t & E & Hc); [lia|]. rewrite (strip_head [45] c _ (t ++ r)); [|by rewrite E|cbn; lia|done].
    apply match_number_back; [apply decimal_spec; lia|done|done].
Qed.

(** A printer of strings by character, and the strings that read back. *)
Variable esc : Z -> pystr.
Variable good : pystr -> Prop.
Definition quote (s : pystr) : pystr := [34] ++ concat (map esc s) ++ [34].
Hypothesis esc_first : forall c, exists d t, esc c = d :: t /\ d <> 34.
Hypothesis scan_back : forall fuel s r, good s -> (length s < fuel)%nat ->
  scanstring fuel (concat (map esc s) ++ 34 :: r) = Ok (s, r).

(** Values the hooks leave as they are. *)
Fixpoint readable (v : json) : Prop :=
  match v with
  | JInt z => parse_int (str_of_int z) = Ok v
  | JStr s => good s
  | JList l => (fix all l := match l with [] => True | x :: l => readable x /\ all l end) l
  | JObj items =>
      (fix all l := match l with [] => True | kv :: l => (good kv.1 /\ readable kv.2) /\ all l end) items /\
      object_pairs_hook items = Ok v
  | _ => True
  end.

Lemma readable_list l : readable (JList l) <-> Forall readable l.
Proof. cbn. induction l as [|x l IH]; [by rewrite Forall_nil|]. rewrite Forall_cons, <-IH. done. Qed.

Lemma readable_obj l : readable (JObj l) <->
  Forall (fun kv => good kv.1 /\ readable kv.2) l /\ object_pairs_hook l = Ok (JObj l).
Proof.
  cbn. f_equiv. induction l as [|x l IH]; [by rewrite Forall_nil|]. rewrite Forall_cons, <-IH. done.
Qed.

(** The first character of a value's text. *)
Lemma text_start v : exists c t, render_with quote v = c :: t /\ is_ws c = false /\ c <> 93 /\ c <> 125.
Proof.
  destruct v as [|[]|z|s|l|l]; try (cbn; unfold quote, str; cbn; do 2 eexists; split_and!; done).
  cbn. destruct (str_of_int_head z) as (c & t & -> & Hc). exists c, t. split_and!; try done; try lia. unfold is_ws. lia.
Qed.

Lemma skip_text v r : skip_ws (render_with quote v ++ r) = render_with quote v ++ r.
Proof. destruct (text_start v) as (c & t & -> & Hc & _). cbn. by rewrite Hc. Qed.

Lemma scan_atom_back v r : match v with JStr _ | JList _ | JObj _ => False | _ => True end -> readable v -> stop r ->
  scan_atom parse_int parse_float parse_constant (render_with quote v ++ r) = Ok (v, r).
Proof. destruct v as [|[]|z| | |]; try done. intros _ Hv Hr. by apply scan_int_back. Qed.

Definition back (v : json) : Prop := forall fuel r, (2 * length (render_with quote v) < fuel)%nat -> stop r ->
  scan_once fuel (render_with quote v ++ r) = Ok (v, r).

Lemma scan_members_eq fuel s : scan_members (S fuel) s =
  match strip [34] s with
  | None => Raise JSONDecodeError
  | Some t =>
      k ⇐ scanstring (S fuel) t;
      match strip [58] (skip_ws k.2) with
      | None => Raise JSONDecodeError
      | Some t =>
          v ⇐ scan_once fuel (skip_ws t);
          match strip [125] (skip_ws v.2), strip [44] (skip_ws v.2) with
          | Some r, _ => Ok ([(k.1, v.1)], r)
          | None, Some t => r ⇐ scan_members fuel (skip_ws t); Ok ((k.1, v.1) :: r.1, r.2)
          | None, None => Raise JSONDecodeError
          end
      end
  end.
Proof. reflexivity. Qed.

(** After a value: a comma, or the closing bracket. *)
Lemma after_comma close t : close = 93 \/ close = 125 ->
  strip [close] (skip_ws (44 :: t)) = None /\ strip [44] (skip_ws (44 :: t)) = Some t.
Proof. by intros [-> | ->]. Qed.

Lemma after_close close t : close = 93 \/ close = 125 -> strip [close] (skip_ws (close :: t)) = Some t.
Proof. by intros [-> | ->]. Qed.

Lemma skip_items {A} (f : A -> pystr) close l r : l <> [] ->
  (forall x, exists c t, f x = c :: t /\ is_ws c = false /\ c <> close) ->
  skip_ws (join_items close (map f l) ++ r) = join_items close (map f l) ++ r /\
  strip [close] (join_items close (map f l) ++ r) = None.
Proof.
  intros Hne Hf. destruct l as [|x l]; [done|]. destruct (Hf x) as (c & t & Ex & Hw & Hc).
  assert (E : exists u, join_items close (map f (x :: l)) ++ r = c :: u) by (destruct l; cbn; rewrite Ex; cbn; eauto).
  destruct E as (u & ->). split; [cbn; by rewrite Hw|]. by apply (strip_head _ c _ u).
Qed.

Lemma scan_elements_back l : forall fuel r, l <> [] -> Forall back l -> (1 + 2 * length (join_items 93 (map (render_with quote) l)) < fuel)%nat ->
  scan_elements fuel (join_items 93 (map (render_with quote) l) ++ r) = Ok (l, r).
Proof.
  induction l as [|v l IH]; intros fuel r Hne Hl Hf; [done|]. apply Forall_cons in Hl as [Hv Hl].
  destruct fuel as [|fuel]; [lia|]. cbn [scan_elements]. destruct l as [|v2 l].
  - cbn [map join_items] in *. rewrite length_app in Hf. cbn in Hf. rewrite <-app_assoc.
    rewrite Hv; [|lia|cbn; auto]. cbn [obind fst snd app]. by rewrite after_close by auto.
  - change (join_items 93 (map (render_with quote) (v :: v2 :: l))) with (render_with quote v ++ [44] ++ join_items 93 (map (render_with quote) (v2 :: l))) in *.
    rewrite !length_app in Hf. cbn [length] in Hf. rewrite <-!app_assoc. rewrite Hv; [|lia|cbn; auto].
    cbn [obind fst snd app]. destruct (after_comma 93 (join_items 93 (map (render_with quote) (v2 :: l)) ++ r) ltac:(auto)) as [-> ->].
    destruct (skip_items (render_with quote) 93 (v2 :: l) r) as [-> _]; [done| |].
    { intros x. destruct (text_start x) as (c & t & ? & ? & ? & ?). eauto. }
    rewrite IH; [done|done|done|]. lia.
Qed.

Definition item_text (kv : pystr * json) : pystr := quote kv.1 ++ [58] ++ render_with quote kv.2.

Lemma item_start (kv : pystr * json) : exists c t, item_text kv = c :: t /\ is_ws c = false /\ c <> 125.
Proof. unfold item_text, quote. cbn. do 2 eexists. split_and!; done. Qed.

Lemma key_length s : (length s <= length (concat (map esc s)))%nat.
Proof.
  induction s as [|c s IH]; cbn; [lia|]. rewrite length_app. destruct (esc_first c) as (d & t & -> & _). cbn. lia.
Qed.

Lemma scan_member_back k v fuel r : good k -> back v -> (2 * length (item_text (k, v)) < fuel)%nat -> stop r ->
  exists t t2, strip [34] (item_text (k, v) ++ r) = Some t /\ scanstring fuel t = Ok (k, t2) /\
    exists t3, strip [58] (skip_ws t2) = Some t3 /\ scan_once (pred fuel) (skip_ws t3) = Ok (v, r).
Proof.
  intros Hk Hv Hf Hr. unfold item_text in *. cbn [fst snd] in *. change (quote k) with ([34] ++ concat (map esc k) ++ [34]) in *.
  exists (concat (map esc k) ++ 34 :: 58 :: render_with quote v ++ r), (58 :: render_with quote v ++ r).
  pose proof (key_length k). rewrite !length_app in Hf. cbn [length] in Hf.
  split; [cbn; by rewrite <-!app_assoc|]. split; [apply scan_back; [done|lia]|].
  exists (render_with quote v ++ r). split; [done|]. rewrite skip_text. apply Hv; [lia|done].
Qed.

Lemma scan_members_back l : forall fuel r, l <> [] -> Forall (fun kv => good kv.1 /\ back kv.2) l ->
  (2 * length (join_items 125 (map item_text l)) < fuel)%nat ->
  scan_members fuel (join_items 125 (map item_text l) ++ r) = Ok (l, r).
Proof.
  induction l as [|[k v] l IH]; intros fuel r Hne Hl Hf; [done|]. apply Forall_cons in Hl as [[Hk Hv] Hl].
  destruct fuel as [|fuel]; [lia|]. rewrite scan_members_eq. destruct l as [|kv2 l].
  - cbn [map join_items] in *. rewrite length_app in Hf. cbn [length] in Hf. rewrite <-app_assoc.
    destruct (scan_member_back k v (S fuel) ([125] ++ r)) as (t & t2 & -> & E & t3 & E2 & E3); [done..|lia|cbn; auto|].
    cbn [fst snd pred] in *. rewrite E. cbn [obind fst snd]. rewrite E2. cbv beta iota. rewrite E3. cbn [obind fst snd app].
    by rewrite after_close by auto.
  - change (join_items 125 (map item_text ((k, v) :: kv2 :: l))) with
      (item_text (k, v) ++ [44] ++ join_items 125 (map item_text (kv2 :: l))) in *.
    rewrite !length_app in Hf. cbn [length] in Hf. rewrite <-!app_assoc.
    set (rest := [44] ++ join_items 125 (map item_text (kv2 :: l)) ++ r).
    destruct (scan_member_back k v (S fuel) rest) as (t & t2 & -> & E & t3 & E2 & E3); [done..|lia|cbn; auto|].
    cbn [fst snd pred] in *. rewrite E. cbn [obind fst snd]. rewrite E2. cbv beta iota. rewrite E3. unfold rest. cbn [obind fst snd app].
    destruct (after_comma 125 (join_items 125 (map item_text (kv2 :: l)) ++ r) ltac:(auto)) as [-> ->].
    destruct (skip_items item_text 125 (kv2 :: l) r) as [-> _]; [done|apply item_start|].
    rewrite IH; [done|done|done|]. lia.
Qed.

Lemma scan_once_open c fuel s : scan_once (S fuel) (c :: s) =
  if c =? 34 then r ⇐ scanstring (S fuel) s; Ok (JStr r.1, r.2)
  else if c =? 123 then
    match strip [125] (skip_ws s) with
    | Some r => v ⇐ object_pairs_hook []; Ok (v, r)
    | None => r ⇐ scan_members fuel (skip_ws s); v ⇐ object_pairs_hook r.1; Ok (v, r.2)
    end
  else if c =? 91 then
    match strip [93] (skip_ws s) with
    | Some r => Ok (JList [], r)
    | None => r ⇐ scan_elements fuel (skip_ws s); Ok (JList r.1, r.2)
    end
  else scan_atom parse_int parse_float parse_constant (c :: s).
Proof. reflexivity. Qed.

Lemma atom_start v : match v with JStr _ | JList _ | JObj _ => False | _ => True end ->
  exists c t, render_with quote v = c :: t /\ c <> 34 /\ c <> 123 /\ c <> 91.
Proof.
  destruct v as [|[]|z|s|l|l]; try done; intros _; try (unfold str; do 2 eexists; split_and!; done).
  cbn. destruct (str_of_int_head z) as (c & t & -> & Hc). exists c, t. split_and!; try done; lia.
Qed.

Lemma text_back n : forall v, (jsize v < n)%nat -> readable v -> back v.
Proof.
  induction n as [|n IH]; intros v Hn Hv; [lia|]. intros fuel r Hf Hr. destruct fuel as [|fuel]; [lia|].
  assert (Hatom : match v with JStr _ | JList _ | JObj _ => False | _ => True end -> scan_once (S fuel) (render_with quote v ++ r) = Ok (v, r)).
  { intros Ha. pose proof (scan_atom_back v r Ha Hv Hr) as E. destruct (atom_start v Ha) as (c & t & Ec & H1 & H2 & H3).
    rewrite Ec in *. cbn [app] in *. rewrite scan_once_open.
    destruct (Z.eqb_spec c 34), (Z.eqb_spec c 123), (Z.eqb_spec c 91); done. }
  destruct v as [|b|z|s|l|l]; [by apply Hatom..| | |].
  - change (scan_once (S fuel) (34 :: (concat (map esc s) ++ [34]) ++ r) = Ok (JStr s, r)).
    change (render_with quote (JStr s)) with (34 :: concat (map esc s) ++ [34]) in Hf. cbn [length] in Hf. rewrite length_app in Hf.
    pose proof (key_length s). rewrite scan_once_open, <-app_assoc. cbn [Z.eqb Pos.eqb app].
    rewrite scan_back; [done|done|]. lia.
  - change (render_with quote (JList l)) with (91 :: join_items 93 (map (render_with quote) l)) in *. cbn [app length] in *. rewrite scan_once_open.
    cbn [Z.eqb Pos.eqb]. destruct l as [|v l]; [done|]. destruct (skip_items (render_with quote) 93 (v :: l) r) as [-> ->]; [done| |].
    { intros x. destruct (text_start x) as (c & t & ? & ? & ? & ?). eauto. }
    rewrite scan_elements_back; [done|done| |lia]. rewrite readable_list in Hv. rewrite Forall_forall in *.
    intros x Hx. apply IH; [|by apply Hv]. cbn in Hn. pose proof (jsize_elem jsize (v :: l) x Hx) as Hs. cbn in Hs. lia.
  - change (render_with quote (JObj l)) with (123 :: join_items 125 (map item_text l)) in *. cbn [app length] in *. rewrite scan_once_open.
    rewrite readable_obj in Hv. destruct Hv as [Hv Hh]. cbn [Z.eqb Pos.eqb]. destruct l as [|kv l].
    { cbn [map join_items app skip_ws]. change (is_ws 125) with false. cbn. by rewrite Hh. }
    destruct (skip_items item_text 125 (kv :: l) r) as [-> ->]; [done|apply item_start|].
    rewrite scan_members_back; [|done| |lia]; [cbn [obind fst snd]; by rewrite Hh|]. rewrite Forall_forall in *.
    intros x Hx. destruct (Hv x Hx) as [H1 H2]. split; [done|]. apply IH; [|done]. cbn in Hn.
    pose proof (jsize_elem (fun kv => jsize kv.2) (kv :: l) x Hx) as Hs. cbn in Hs. lia.
Qed.

(** The text of a value reads back as the value, with or without a final
    newline. *)
Lemma loads_text_tail v r : readable v -> r = [] \/ r = [10] ->
  loads parse_int parse_float parse_constant object_pairs_hook (render_with quote v ++ r) = Ok v.
Proof.
  intros Hv Hr. unfold loads. destruct (text_start v) as (c & t & E & Hw & _).
  assert (Hbom : strip [65279] (render_with quote v ++ r) = None).
  { rewrite E. apply (strip_head _ c _ (t ++ r)); [done| |done]. cbn. intros <-. destruct v as [|[]|z|s|l|l]; try done.
    cbn in E. destruct (str_of_int_head z) as (c & u & E' & Hc). rewrite E' in E. injection E as -> _. lia. }
  rewrite Hbom, skip_text.
  rewrite (text_back (S (jsize v)) v ltac:(lia) Hv); [by destruct Hr as [->| ->]|rewrite length_app; lia|].
  destruct Hr as [->| ->]; cbn; auto.
Qed.

End grammar.

(** ** The two printers *)

Section printers.
Variables parse_int parse_float parse_constant : pystr -> outcome json.
Variable object_pairs_hook : list (pystr * json) -> outcome json.

Lemma render_plain v : render_with (quote escape_char) v = render v.
Proof.
  induction v as [| | | |l IH|items IH] using json_nested_ind; try done; cbn [render_with render].
  - f_equal. f_equal. apply map_ext_Forall. exact IH.
  - f_equal. f_equal. apply map_ext_Forall. eapply Forall_impl; [exact IH|]. cbn. by intros kv ->.
Qed.

Lemma loads_render_tail v r : readable parse_int object_pairs_hook points v -> r = [] \/ r = [10] ->
  loads parse_int parse_float parse_constant object_pairs_hook (render v ++ r) = Ok v.
Proof. rewrite <-render_plain. apply loads_text_tail; [apply escape_not_quote|intros; by apply scan_string_back]. Qed.

Lemma loads_render v : readable parse_int object_pairs_hook points v ->
  loads parse_int parse_float parse_constant object_pairs_hook (render v) = Ok v.
Proof. intros Hv. rewrite <-(app_nil_r (render v)) at 1. apply loads_render_tail; auto. Qed.

Lemma loads_render_ascii v : readable parse_int object_pairs_hook unpaired v ->
  loads parse_int parse_float parse_constant object_pairs_hook (render_with json_string_ascii v) = Ok v.
Proof.
  intros Hv. rewrite <-(app_nil_r (render_with _ v)) at 1.
  apply (loads_text_tail _ _ _ _ escape_char_ascii unpaired); auto; [apply escape_ascii_first|intros; by apply scan_ascii_back].
Qed.
End printers.
