(* ===== verification/BoundRules.v ===== *)
(** * Qualified rules ([analysis/ifds/bound_rules.py])

    The bounded JSON reader with its byte-level preflight, the codec of
    qualified rule keys, the closed model and rule documents, and the
    construction of a [BoundRule] from exact bytes.

    A decoded document is a [json] value whose dicts have unique keys.  Every
    failure is a [BoundRuleError] with the code of the source. *)
From stdpp Require Import base tactics list strings.
From Stdlib Require Import ZArith Lia.
From S2P Require Import Prelude PyData PyDict Sha256 Ordering Json JsonParse Dsl.

Open Scope Z_scope.
Open Scope py_scope.

Definition err {A} (code : string) : outcome A := Raise (BoundRuleError code).

(** A guard: [if bad: raise BoundRuleError(code)]. *)
Definition refuse (bad : bool) (code : string) : outcome unit := if bad then err code else Ok tt.

Definition QUALIFIED_RULE_SCHEMA : pystr := str "scanipy-qualified-rule/1".
Definition RULE_SCHEMA : pystr := str "scanipy-bound-rule-set/1".
Definition MODEL_SCHEMA : pystr := str "scanipy-operation-models/1".
Definition SCALAR_SEMANTICS : pystr := str "scanipy-scalar-ifds/1".
Definition PROJECTION_PROFILE : pystr := str "scanipy-java-python-scalar-flow/1".

(** ** [ScalarLimits] *)

Record ScalarLimits := mkLimits {
  max_files : Z;
  max_file_bytes : Z;
  max_source_bytes : Z;
  max_path_bytes : Z;
  max_path_components : Z;
  max_rule_bytes : Z;
  max_model_bytes : Z;
  max_accepted_bytes : Z;
  max_clauses : Z;
  max_models : Z;
  max_rule_json_depth : Z;
  max_rule_json_values : Z;
  max_rule_string_bytes : Z;
  max_cpg_artifact_bytes : Z;
  max_raw_export_bytes : Z;
  max_native_nodes : Z;
  max_native_edges : Z;
  max_ast_nodes : Z;
  max_ast_depth : Z;
  max_syntax_bytes : Z;
  max_procedures : Z;
  max_calls : Z;
  max_call_depth : Z;
  max_operations : Z;
  max_values : Z;
  max_relations : Z;
  max_origins : Z;
  max_facts : Z;
  max_path_states : Z;
  max_incoming : Z;
  max_summaries : Z;
  max_solver_work : Z;
  max_occurrences : Z;
  max_witness_steps : Z;
  max_total_witness_steps : Z;
  max_result_bytes : Z;
  max_associations : Z;
  max_evidence_references : Z
}.

Definition default_limits : ScalarLimits := mkLimits 
  16 262144 1048576 1024 32 262144 524288 1048576 256 128 24 50000 16384 33554432 16777216 10000
  100000 20000 128 8388608 128 2048 32 10000 16384 50000 64 131072 100000 20000 50000 2000000
  4096 4096 65536 8388608 100000 100000.

Definition limit_values (l : ScalarLimits) : list Z :=
  [max_files l; max_file_bytes l; max_source_bytes l; max_path_bytes l; max_path_components l; 
   max_rule_bytes l; max_model_bytes l; max_accepted_bytes l; max_clauses l; max_models l; 
   max_rule_json_depth l; max_rule_json_values l; max_rule_string_bytes l; max_cpg_artifact_bytes l; 
   max_raw_export_bytes l; max_native_nodes l; max_native_edges l; max_ast_nodes l; max_ast_depth l; 
   max_syntax_bytes l; max_procedures l; max_calls l; max_call_depth l; max_operations l; max_values l; 
   max_relations l; max_origins l; max_facts l; max_path_states l; max_incoming l; max_summaries l; 
   max_solver_work l; max_occurrences l; max_witness_steps l; max_total_witness_steps l; 
   max_result_bytes l; max_associations l; max_evidence_references l].

(** [__post_init__]: every field is positive and at most its default. *)
Definition checked_limits (l : ScalarLimits) : outcome ScalarLimits :=
  if forallb (fun vd => (0 <? vd.1) && (vd.1 <=? vd.2)) (zip (limit_values l) (limit_values default_limits)) then Ok l
  else err "invalid-limit".

(** ** Scalars *)

Definition _checked_string (value : json) (maximum : Z) : outcome pystr :=
  match value with
  | JStr s =>
      _ ⇐ refuse (maximum <? Z.of_nat (length s)) "string-limit";
      _ ⇐ refuse (existsb (Z.eqb 0) s) "invalid-string";
      match utf8_encode s with
      | None => err "invalid-string"
      | Some b => if maximum <? Z.of_nat (length b) then err "string-limit" else Ok s
      end
  | _ => err "invalid-string"
  end.

Definition is_letter (c : Z) : bool := ((65 <=? c) && (c <=? 90)) || ((97 <=? c) && (c <=? 122)).
Definition is_lower_hex (c : Z) : bool := is_digit c || ((97 <=? c) && (c <=? 102)).

(** [_IDENTIFIER], [_NAME] and [_DIGEST] *)
Definition identifier_char (c : Z) : bool := is_letter c || is_digit c || existsb (Z.eqb c) (str "_.:/-").
Definition is_identifier (s : pystr) : bool :=
  match s with
  | c :: t => is_letter c && (Z.of_nat (length t) <=? 127) && forallb identifier_char t
  | [] => false
  end.
Definition is_name (s : pystr) : bool :=
  match s with
  | c :: t => (is_letter c || (c =? 95)) && (Z.of_nat (length t) <=? 127) &&
      forallb (fun c => is_letter c || is_digit c || (c =? 95)) t
  | [] => false
  end.
Definition is_digest (s : pystr) : bool := (Z.of_nat (length s) =? 64) && forallb is_lower_hex s.

Definition _identifier (value : json) : outcome pystr :=
  s ⇐ _checked_string value 128;
  if is_identifier s then Ok s else err "invalid-id".

Definition _digest (value : json) : outcome pystr :=
  s ⇐ _checked_string value 64;
  if is_digest s then Ok s else err "invalid-digest".

(** [s.split(sep)] for a one-character separator *)
Fixpoint split_on (sep : Z) (s : pystr) : list pystr :=
  match s with
  | [] => [[]]
  | c :: t =>
      if c =? sep then [] :: split_on sep t
      else match split_on sep t with p :: ps => (c :: p) :: ps | [] => [[c]] end
  end.

(** One group of [_VERSION]: zero, or at most ten digits that do not start
    with one, and its bound. *)
Definition version_part (p : pystr) : bool :=
  match p with
  | [] => false
  | [c] => is_digit c
  | c :: _ => negb (c =? 48) && forallb is_digit p && (Z.of_nat (length p) <=? 10) && (digits_value p <=? 2147483647)
  end.

Definition _version (value : json) : outcome pystr :=
  s ⇐ _checked_string value 32;
  match split_on 46 s with
  | [a; b; c] => if version_part a && version_part b && version_part c then Ok s else err "invalid-version"
  | _ => err "invalid-version"
  end.

(** [str(UUID(s)) == s]: 8-4-4-4-12 lower-case hexadecimal digits. *)
Definition is_canonical_uuid (s : pystr) : bool :=
  match split_on 45 s with
  | [a; b; c; d; e] => bool_decide (map length [a; b; c; d; e] = [8; 4; 4; 4; 12]%nat) && forallb (forallb is_lower_hex) [a; b; c; d; e]
  | _ => false
  end.

Definition _uuid (value : json) : outcome pystr :=
  s ⇐ _checked_string value 36;
  if is_canonical_uuid s then Ok s else err "invalid-uuid".

(** ** [QualifiedRuleKey] *)

Record QualifiedRuleKey := mkKey {
  k_registry_id : pystr;
  k_bundle_id : pystr;
  k_scope : pystr;
  k_org_id : option pystr;
  k_S_version : pystr;
  k_accepted_content_digest : pystr;
  k_detector_id : pystr;
  k_detector_version : pystr;
  k_detector_raw_sha256 : pystr;
  k_rule_id : pystr;
  k_rule_artifact_id : pystr;
  k_rule_artifact_version : pystr;
  k_rule_raw_sha256 : pystr;
  k_model_artifact_id : pystr;
  k_model_artifact_version : pystr;
  k_model_raw_sha256 : pystr;
  k_semantic_descriptor_digest : pystr;
  k_schema : pystr
}.

#[export] Instance QualifiedRuleKey_eq_dec : EqDecision QualifiedRuleKey.
Proof. solve_decision. Defined.

(** Run the checks in order. *)
Fixpoint all_ok {A} (f : A -> outcome pystr) (l : list A) : outcome unit :=
  match l with
  | [] => Ok tt
  | x :: l => _ ⇐ f x; all_ok f l
  end.

Definition opt_json (o : option pystr) : json := match o with Some s => JStr s | None => JNull end.

(** [QualifiedRuleKey.__post_init__] *)
Definition check_key (k : QualifiedRuleKey) : outcome unit :=
  _ ⇐ refuse (negb (str_eqb (k_schema k) QUALIFIED_RULE_SCHEMA)) "unknown-key-schema";
  _ ⇐ _uuid (JStr (k_registry_id k));
  _ ⇐ _uuid (JStr (k_bundle_id k));
  _ ⇐ refuse (negb (str_eqb (k_scope k) (str "global") || str_eqb (k_scope k) (str "customer"))) "invalid-scope";
  _ ⇐ (if str_eqb (k_scope k) (str "global") then
         match k_org_id k with None => Ok [] | Some _ => err "invalid-scope" end
       else _uuid (opt_json (k_org_id k)));
  _ ⇐ all_ok (fun s => _version (JStr s))
        [k_S_version k; k_detector_version k; k_rule_artifact_version k; k_model_artifact_version k];
  _ ⇐ all_ok (fun s => _digest (JStr s))
        [k_accepted_content_digest k; k_detector_raw_sha256 k; k_rule_raw_sha256 k; k_model_raw_sha256 k;
         k_semantic_descriptor_digest k];
  all_ok (fun s => _identifier (JStr s)) [k_detector_id k; k_rule_id k; k_rule_artifact_id k; k_model_artifact_id k].

(** ** The bounded JSON reader *)

(** [_unique_object]: a dict with the pairs in order. *)
Fixpoint unique_pairs (seen : list pystr) (pairs : list (pystr * json)) : bool :=
  match pairs with
  | [] => true
  | (k, _) :: pairs => negb (bool_decide (k ∈ seen)) && unique_pairs (k :: seen) pairs
  end.
Definition _unique_object (pairs : list (pystr * json)) : outcome json :=
  if unique_pairs [] pairs then Ok (JObj pairs) else err "duplicate-key".

(** [int(value)] of the text of an integer *)
Definition int_of (value : pystr) : Z :=
  match value with
  | c :: t => if c =? 45 then - digits_value t else digits_value value
  | [] => 0
  end.

Definition _integer (value : pystr) : outcome json :=
  _ ⇐ refuse (20 <? Z.of_nat (length value)) "invalid-number";
  let result := int_of value in
  if (- 2 ^ 63 <=? result) && (result <? 2 ^ 63) then Ok (JInt result) else err "invalid-number".

Definition _invalid_number (_ : pystr) : outcome json := err "invalid-number".

(** The local variables of [_preflight_json]. *)
Record scan_state := mkScan {
  depth : Z;
  count : Z;
  extent : Z;
  quoted : bool;
  escaped : bool;
  atom : bool
}.

Section preflight.
Variables depth_limit value_limit string_limit : Z.

(** The check at the end of the loop's body. *)
Definition counted (st : scan_state) : outcome scan_state :=
  if value_limit <? count st then err "json-value-limit" else Ok st.

Definition preflight_byte (st : scan_state) (byte : Z) : outcome scan_state :=
  if quoted st then
    let extent := extent st + 1 in
    if string_limit * 6 + 1 <? extent then err "string-limit"
    else if escaped st then Ok (mkScan (depth st) (count st) extent true false (atom st))
    else if byte =? 92 then Ok (mkScan (depth st) (count st) extent true true (atom st))
    else Ok (mkScan (depth st) (count st) extent (negb (byte =? 34)) false (atom st))
  else if is_ws byte || (byte =? 44) || (byte =? 58) then
    Ok (mkScan (depth st) (count st) (extent st) false (escaped st) false)
  else if byte =? 34 then
    counted (mkScan (depth st) (count st + 1) 0 true (escaped st) false)
  else if (byte =? 91) || (byte =? 123) then
    if depth_limit <? depth st + 1 then err "json-depth-limit"
    else counted (mkScan (depth st + 1) (count st + 1) (extent st) false (escaped st) false)
  else if (byte =? 93) || (byte =? 125) then
    if depth st - 1 <? 0 then err "invalid-json"
    else counted (mkScan (depth st - 1) (count st) (extent st) false (escaped st) false)
  else if negb (atom st) then
    counted (mkScan (depth st) (count st + 1) (extent st) false (escaped st) true)
  else counted st.

Definition _preflight_json (data : pybytes) : outcome unit :=
  _ ⇐ foldO preflight_byte (mkScan 0 0 0 false false false) data;
  Ok tt.
End preflight.

(** [while pending: value = pending.pop(); ...], where the body checks the
    value and returns what it appends to the list. *)
Fixpoint pending_loop (visit : json -> outcome (list json)) (fuel : nat) (pending : list json) : outcome unit :=
  match fuel with
  | O => Raise OutOfFuel
  | S fuel =>
      match pending with
      | [] => Ok tt
      | value :: pending => added ⇐ visit value; pending_loop visit fuel (rev added ++ pending)
      end
  end.

Definition visit_strings (max_string_bytes : Z) (value : json) : outcome (list json) :=
  match value with
  | JStr _ => _ ⇐ _checked_string value max_string_bytes; Ok []
  | JList l => Ok l
  | JObj items => _ ⇐ all_ok (fun kv => _checked_string (JStr kv.1) max_string_bytes) items; Ok (map snd items)
  | _ => Ok []
  end.

(** [except (UnicodeError, ValueError, RecursionError)] around the parse *)
Definition parse_json (data : pybytes) : outcome json :=
  match utf8_decode data with
  | None => err "invalid-json"
  | Some text =>
      match loads _integer _invalid_number _invalid_number _unique_object text with
      | Raise (ValueError _) => err "invalid-json"
      | r => r
      end
  end.

Definition decode_bounded_json (data : pybytes) (max_bytes max_depth max_values max_string_bytes : Z) : outcome json :=
  _ ⇐ refuse (max_bytes <? Z.of_nat (length data)) "json-byte-limit";
  _ ⇐ _preflight_json max_depth max_values max_string_bytes data;
  result ⇐ parse_json data;
  _ ⇐ pending_loop (visit_strings max_string_bytes) (S (jsize result)) [result];
  Ok result.

Definition canonical_json (value : json) : outcome pybytes :=
  match utf8_encode (dumps value) with
  | Some encoded => Ok encoded
  | None => err "invalid-json"
  end.

(** [row[name]] *)
Fixpoint item_of (items : list (pystr * json)) (name : pystr) : outcome json :=
  match items with
  | [] => Raise KeyError
  | (k, v) :: items => if str_eqb k name then Ok v else item_of items name
  end.

(** A dict with exactly the names. *)
Definition _closed (value : json) (names : list string) : outcome (list (pystr * json)) :=
  match value with
  | JObj items =>
      if forallb (fun kv => bool_decide (kv.1 ∈ map str names)) items &&
         forallb (fun n => bool_decide (str n ∈ items.*1)) names
      then Ok items else err "invalid-fields"
  | _ => err "invalid-fields"
  end.

(** ** The key codec *)

Definition key_fields : list string :=
  ["registry_id"; "bundle_id"; "scope"; "org_id"; "S_version"; "accepted_content_digest"; "detector_id";
   "detector_version"; "detector_raw_sha256"; "rule_id"; "rule_artifact_id"; "rule_artifact_version";
   "rule_raw_sha256"; "model_artifact_id"; "model_artifact_version"; "model_raw_sha256";
   "semantic_descriptor_digest"; "schema"].

(** [asdict(key)] *)
Definition key_values (k : QualifiedRuleKey) : list json :=
  [JStr (k_registry_id k); JStr (k_bundle_id k); JStr (k_scope k); opt_json (k_org_id k); JStr (k_S_version k);
   JStr (k_accepted_content_digest k); JStr (k_detector_id k); JStr (k_detector_version k);
   JStr (k_detector_raw_sha256 k); JStr (k_rule_id k); JStr (k_rule_artifact_id k);
   JStr (k_rule_artifact_version k); JStr (k_rule_raw_sha256 k); JStr (k_model_artifact_id k);
   JStr (k_model_artifact_version k); JStr (k_model_raw_sha256 k); JStr (k_semantic_descriptor_digest k);
   JStr (k_schema k)].
Definition key_json (k : QualifiedRuleKey) : json := JObj (zip (map str key_fields) (key_values k)).

Definition encode_qualified_rule_key (k : QualifiedRuleKey) : outcome pybytes :=
  _ ⇐ check_key k;
  encoded ⇐ canonical_json (key_json k);
  if 16384 <? Z.of_nat (length encoded) then err "json-byte-limit" else Ok encoded.

Definition decode_qualified_rule_key (data : pybytes) : outcome QualifiedRuleKey :=
  value ⇐ decode_bounded_json data 16384 4 64 16384;
  row ⇐ _closed value key_fields;
  canonical ⇐ canonical_json (JObj row);
  _ ⇐ refuse (negb (bool_decide (canonical = data))) "noncanonical-key";
  let text name := v ⇐ item_of row (str name); _checked_string v 16384 in
  registry_id ⇐ text "registry_id";
  bundle_id ⇐ text "bundle_id";
  scope ⇐ text "scope";
  org ⇐ item_of row (str "org_id");
  org_id ⇐ match org with JNull => Ok None | v => s ⇐ _checked_string v 16384; Ok (Some s) end;
  S_version ⇐ text "S_version";
  accepted_content_digest ⇐ text "accepted_content_digest";
  detector_id ⇐ text "detector_id";
  detector_version ⇐ text "detector_version";
  detector_raw_sha256 ⇐ text "detector_raw_sha256";
  rule_id ⇐ text "rule_id";
  rule_artifact_id ⇐ text "rule_artifact_id";
  rule_artifact_version ⇐ text "rule_artifact_version";
  rule_raw_sha256 ⇐ text "rule_raw_sha256";
  model_artifact_id ⇐ text "model_artifact_id";
  model_artifact_version ⇐ text "model_artifact_version";
  model_raw_sha256 ⇐ text "model_raw_sha256";
  semantic_descriptor_digest ⇐ text "semantic_descriptor_digest";
  schema ⇐ text "schema";
  let key := mkKey registry_id bundle_id scope org_id S_version accepted_content_digest detector_id detector_version
    detector_raw_sha256 rule_id rule_artifact_id rule_artifact_version rule_raw_sha256 model_artifact_id
    model_artifact_version model_raw_sha256 semantic_descriptor_digest schema in
  _ ⇐ check_key key;
  Ok key.
