(* ===== verification/BoundJson.v ===== *)
(** * The bounded JSON reader accepts exactly the bounded documents

    The byte-level preflight of [decode_bounded_json] counts containers and
    tokens before the text is parsed.  On a text the parser accepts, its
    counts are the nesting and the number of values of the parsed document,
    and its bound on raw strings never refuses a document whose decoded
    strings are within the bound. *)
From stdpp Require Import base tactics list strings.
From Stdlib Require Import ZArith Lia.
From S2P Require Import Prelude PyData PyDict Sha256 Ordering Json JsonParse JsonSpec BoundRules.

Open Scope Z_scope.
Open Scope py_scope.

(** ** Measures of a document *)

(** Values and dict keys. *)
Fixpoint tokens (v : json) : Z :=
  match v with
  | JList l => 1 + foldr Z.add 0 (map tokens l)
  | JObj items => 1 + foldr Z.add 0 (map (fun kv => 1 + tokens kv.2) items)
  | _ => 1
  end.

(** Containers around the innermost value. *)
Fixpoint nesting (v : json) : Z :=
  match v with
  | JList l => 1 + foldr Z.max 0 (map nesting l)
  | JObj items => 1 + foldr Z.max 0 (map (fun kv => nesting kv.2) items)
  | _ => 0
  end.

Definition text_ok (maximum : Z) (s : pystr) : Prop := _checked_string (JStr s) maximum = Ok s.

(** Every string and key passes [_checked_string]. *)
Fixpoint strings_ok (maximum : Z) (v : json) : Prop :=
  match v with
  | JStr s => text_ok maximum s
  | JList l => (fix all l := match l with [] => True | x :: l => strings_ok maximum x /\ all l end) l
  | JObj items =>
      (fix all l := match l with [] => True | kv :: l => (text_ok maximum kv.1 /\ strings_ok maximum kv.2) /\ all l end) items
  | _ => True
  end.

Lemma strings_ok_list n l : strings_ok n (JList l) <-> Forall (strings_ok n) l.
Proof. cbn. induction l as [|x l IH]; [by rewrite Forall_nil|]. rewrite Forall_cons, <-IH. done. Qed.

Lemma strings_ok_obj n l : strings_ok n (JObj l) <-> Forall (fun kv => text_ok n kv.1 /\ strings_ok n kv.2) l.
Proof. cbn. induction l as [|x l IH]; [by rewrite Forall_nil|]. rewrite Forall_cons, <-IH. done. Qed.

Lemma checked_string_Ok v n s : _checked_string v n = Ok s <->
  v = JStr s /\ Z.of_nat (length s) <= n /\ 0 ∉ s /\ exists b, utf8_encode s = Some b /\ Z.of_nat (length b) <= n.
Proof.
  unfold _checked_string, refuse, err. destruct v as [| | |t| |]; try (split; [done|by intros [? _]]).
  destruct (Z.ltb_spec n (Z.of_nat (length t))); cbn.
  { split; [done|]. intros ([= ->] & ? & _). lia. }
  destruct (existsb (Z.eqb 0) t) eqn:E0; cbn.
  { split; [done|]. intros ([= ->] & _ & H0 & _). apply existsb_exists in E0 as (x & Hx & E0).
    apply list_elem_of_In in Hx. assert (x = 0) as -> by lia. done. }
  assert (Hz : 0 ∉ t).
  { intros H0. apply not_true_iff_false in E0. apply E0, existsb_exists. exists 0. by rewrite <-list_elem_of_In. }
  destruct (utf8_encode t) as [b|] eqn:E; [|split; [done|]; intros ([= ->] & _ & _ & ? & ? & _); congruence].
  destruct (Z.ltb_spec n (Z.of_nat (length b))).
  - split; [done|]. intros ([= ->] & _ & _ & b' & ? & ?). simplify_eq. lia.
  - split; [intros [= ->]; eauto 10|]. by intros ([= ->] & _).
Qed.

(** ** The bytes of a text *)

Definition bytes_of (s : pystr) : pybytes := concat (map (fun c => default [] (utf8_char c)) s).

Lemma bytes_of_app s t : bytes_of (s ++ t) = bytes_of s ++ bytes_of t.
Proof. unfold bytes_of. by rewrite map_app, concat_app. Qed.

Lemma encode_bytes_of s : forall b, utf8_encode s = Some b -> b = bytes_of s.
Proof.
  induction s as [|c s IH]; intros b; cbn; [by intros [= <-]|]. unfold bytes_of in *. cbn.
  destruct (utf8_char c) as [bc|]; [|done]. destruct (utf8_encode s) as [bs|]; [|done]. intros [= <-]. cbn. by rewrite (IH bs).
Qed.

Lemma encode_app s t b : utf8_encode (s ++ t) = Some b -> is_Some (utf8_encode s) /\ is_Some (utf8_encode t).
Proof.
  revert b. induction s as [|c s IH]; intros b; cbn; [intros ->; eauto|].
  destruct (utf8_char c) as [bc|]; [|done]. destruct (utf8_encode (s ++ t)) as [bs|] eqn:E; [|done].
  destruct (IH bs eq_refl) as [[b1 ->] H]. eauto.
Qed.

Lemma utf8_ascii c : 0 <= c < 128 -> utf8_char c = Some [c].
Proof. intros H. unfold utf8_char. destruct (Z.ltb_spec c 0); [lia|]. destruct (Z.ltb_spec c 128); [done|lia]. Qed.

Lemma utf8_high c bc : utf8_char c = Some bc -> 128 <= c -> Forall (fun b => 128 <= b) bc.
Proof. unfold utf8_char. intros H Hc. utf8_cases; try lia; repeat constructor; div_lia. Qed.

Lemma bytes_of_ascii s : Forall (fun c => 0 <= c < 128) s -> bytes_of s = s.
Proof. unfold bytes_of. induction 1 as [|c s Hc _ IH]; cbn; [done|]. rewrite utf8_ascii by done. cbn. by rewrite IH. Qed.

(** ** What the preflight makes of a text *)

Section run.
Variables depth_limit value_limit string_limit : Z.
Notation step := (preflight_byte depth_limit value_limit string_limit).

Definition run (st : scan_state) (s : pystr) : outcome scan_state := foldO step st (bytes_of s).

Lemma run_app st s t : run st (s ++ t) = (st' ⇐ run st s; run st' t).
Proof. unfold run. by rewrite bytes_of_app, foldO_app. Qed.

Lemma run_cons st c s : 0 <= c < 128 -> run st (c :: s) = (st' ⇐ step st c; run st' s).
Proof.
  intros Hc. change (c :: s) with ([c] ++ s). rewrite run_app. unfold run at 1, bytes_of. cbn [map concat].
  rewrite utf8_ascii by done. cbn. by destruct (step st c).
Qed.

Lemma run_nil st : run st [] = Ok st.
Proof. done. Qed.

(** Outside of strings. *)
Definition plain (st : scan_state) : Prop := quoted st = false /\ escaped st = false.
(** Outside of strings, with the given counts. *)
Definition at_counts (st : scan_state) (d c : Z) : Prop := depth st = d /\ count st = c /\ plain st.

Lemma step_sep st c d n : is_ws c || (c =? 44) || (c =? 58) = true -> at_counts st d n ->
  exists st', step st c = Ok st' /\ at_counts st' d n /\ atom st' = false.
Proof.
  intros Hc (Hd & Hn & Hq & He). unfold preflight_byte. rewrite Hq, Hc. eexists. split; [done|]. by split.
Qed.

Lemma run_blank w : blank w -> forall st d n, at_counts st d n ->
  exists st', run st w = Ok st' /\ at_counts st' d n /\ (atom st = false -> atom st' = false).
Proof.
  induction 1 as [|c w Hc _ IH]; intros st d n Hst; [by exists st|].
  rewrite run_cons by (unfold is_ws in Hc; lia).
  destruct (step_sep st c d n) as (st1 & E & H1 & H2); [by rewrite Hc|done|]. rewrite E. cbn.
  destruct (IH st1 d n H1) as (st' & E' & H3 & H4). exists st'. split_and!; auto.
Qed.

(** A run from counts [d], [n]: the counts after it, and the bound it needs. *)
Definition passes (st : scan_state) (s : pystr) (d n : Z) (bound extra : Prop) : Prop :=
  (forall st', run st s = Ok st' -> at_counts st' d n /\ bound) /\
  (bound -> extra -> exists st', run st s = Ok st').

Lemma passes_Ok st s d n bound extra : passes st s d n bound extra -> bound -> extra ->
  exists st', run st s = Ok st' /\ at_counts st' d n.
Proof. intros [H1 H2] Hb He. destruct (H2 Hb He) as (st' & E). exists st'. split; [done|]. by apply H1. Qed.

(** An opening bracket. *)
Lemma step_open st c d n : c = 91 \/ c = 123 -> at_counts st d n ->
  if decide (d + 1 <= depth_limit /\ n + 1 <= value_limit) then
    exists st', step st c = Ok st' /\ at_counts st' (d + 1) (n + 1) /\ atom st' = false
  else exists e, step st c = Raise e.
Proof.
  intros Hc (Hd & Hn & Hq & He). unfold preflight_byte, counted. rewrite Hq, Hd, Hn.
  destruct Hc as [-> | ->]; cbn; (destruct (Z.ltb_spec depth_limit (d + 1));
    [rewrite decide_False by lia; unfold err; eauto|]); (destruct (Z.ltb_spec value_limit (n + 1));
    [rewrite decide_False by lia; unfold err; eauto|rewrite decide_True by lia; eexists; split; [done|]; by split]).
Qed.

(** A closing bracket, counted before. *)
Lemma step_close st c d n : c = 93 \/ c = 125 -> at_counts st d n -> 1 <= d ->
  step st c = if decide (n <= value_limit) then Ok (mkScan (d - 1) n (extent st) false (escaped st) false) else err "json-value-limit".
Proof.
  intros Hc (Hd & Hn & Hq & He) H1. unfold preflight_byte, counted. rewrite Hq, Hd, Hn.
  destruct Hc as [-> | ->]; cbn; (destruct (Z.ltb_spec (d - 1) 0); [lia|]); cbn;
    (destruct (Z.ltb_spec value_limit n); [by rewrite decide_False by lia|by rewrite decide_True by lia]).
Qed.

(** Inside a string. *)
Definition in_string (st : scan_state) (d n e : Z) : Prop :=
  depth st = d /\ count st = n /\ extent st = e /\ quoted st = true /\ escaped st = false.

(** A run inside a string, over bytes. *)
Definition strides (bs : pybytes) : Prop := forall st d n e, in_string st d n e ->
  (forall st', foldO step st bs = Ok st' -> in_string st' d n (e + Z.of_nat (length bs))) /\
  (e + Z.of_nat (length bs) <= string_limit * 6 + 1 -> exists st', foldO step st bs = Ok st').

Lemma strides_nil : strides [].
Proof. intros st d n e Hst. replace (e + Z.of_nat (length [])) with e by (cbn; lia). split; [by intros st' [= <-]|eauto]. Qed.

Lemma strides_app bs cs : strides bs -> strides cs -> strides (bs ++ cs).
Proof.
  intros Hb Hc st d n e Hst. rewrite foldO_app, length_app, Nat2Z.inj_add, Z.add_assoc. destruct (Hb st d n e Hst) as [H1 H2]. split.
  - intros st' (st1 & E1 & E2)%obind_Ok. apply H1 in E1. by apply (Hc st1).
  - intros Hle. destruct H2 as (st1 & E1); [lia|]. rewrite E1. cbn. apply H1 in E1. apply (Hc st1 d n _ E1). lia.
Qed.

Lemma strides_one b : b <> 92 -> b <> 34 -> strides [b].
Proof.
  intros H1 H2 st d n e (Hd & Hn & Hx & Hq & He). cbn [foldO length]. unfold preflight_byte. rewrite Hq, Hx, He.
  destruct (Z.ltb_spec (string_limit * 6 + 1) (e + 1)); [split; [done|cbn; lia]|].
  destruct (Z.eqb_spec b 92), (Z.eqb_spec b 34); try done. cbn [obind negb]. split; [|eauto].
  intros st' [= <-]. by split_and!.
Qed.

Lemma strides_escape b : strides [92; b].
Proof.
  intros st d n e (Hd & Hn & Hx & Hq & He). cbn [foldO length]. unfold preflight_byte at 1 3. rewrite Hq, Hx, He.
  destruct (Z.ltb_spec (string_limit * 6 + 1) (e + 1)); [split; [done|cbn; lia]|]. cbn [obind Z.eqb Pos.eqb].
  unfold preflight_byte. cbn [quoted escaped extent depth count].
  destruct (Z.ltb_spec (string_limit * 6 + 1) (e + 1 + 1)); cbn [obind]; [split; [done|cbn; lia]|]. split; [|eauto].
  intros st' [= <-]. split_and!; try done. cbn. lia.
Qed.

Lemma strides_plain bs : Forall (fun b => b <> 92 /\ b <> 34) bs -> strides bs.
Proof.
  induction 1 as [|b bs [H1 H2] _ IH]; [apply strides_nil|]. by apply (strides_app [b]); [apply strides_one|].
Qed.

Lemma is_uni_strides p : is_uni p -> strides p /\ bytes_of p = p /\ length p = 6%nat.
Proof.
  intros (a & b & c & d & -> & Ha & Hb & Hc & Hd). unfold is_hex in *. split_and!; [| |done].
  - apply (strides_app [92; 117]); [apply strides_escape|]. apply strides_plain. repeat constructor; lia.
  - apply bytes_of_ascii. repeat constructor; lia.
Qed.

Lemma utf8_length c bc : utf8_char c = Some bc -> (1 <= length bc)%nat /\ (65536 <= c -> length bc = 4%nat).
Proof. unfold utf8_char. intros H. utf8_cases; cbn; split; try lia; done. Qed.

(** The bytes of a spelling: at most six per byte of the character. *)
Lemma piece_strides c p : piece c p ->
  strides (bytes_of p) /\ forall bc, utf8_char c = Some bc -> (length (bytes_of p) <= 6 * length bc)%nat.
Proof.
  destruct 1 as [c H1 H2 H3|e x He|u p Hu _|x p q Hu Hv Hx].
  - unfold bytes_of. cbn. rewrite app_nil_r. destruct (utf8_char c) as [bc|] eqn:Hc; cbn; [|split; [apply strides_nil|done]].
    split; [|intros ? [= <-]; lia]. destruct (Z.ltb_spec c 128).
    + rewrite utf8_ascii in Hc by lia. injection Hc as <-. by apply strides_one.
    + apply strides_plain. eapply Forall_impl; [by eapply utf8_high|]. cbn. lia.
  - assert (0 <= e < 128) by (unfold simple_escape in He; split_ifs; try done; lia).
    rewrite bytes_of_ascii by (repeat constructor; lia). split; [apply strides_escape|].
    intros bc Hc. pose proof (utf8_length _ _ Hc). cbn. lia.
  - destruct (is_uni_strides p Hu) as (Hs & -> & ->). split; [done|]. intros bc Hc. pose proof (utf8_length _ _ Hc). lia.
  - rewrite bytes_of_app. destruct (is_uni_strides p Hu) as (Hs & -> & Lp), (is_uni_strides q Hv) as (Ht & -> & Lq).
    split; [by apply strides_app|]. intros bc Hc. pose proof (utf8_length _ _ Hc) as [_ H4].
    rewrite length_app, Lp, Lq, H4 by lia. lia.
Qed.

Lemma chars_strides x raw : chars x raw -> strides (bytes_of raw) /\
  forall bs, utf8_encode x = Some bs -> (length (bytes_of raw) <= 6 * length bs)%nat.
Proof.
  induction 1 as [|c p x q Hp _ [IH1 IH2]]; [split; [apply strides_nil|cbn; lia]|]. rewrite bytes_of_app.
  apply piece_strides in Hp as [Hs Hl]. split; [by apply strides_app|]. intros bs. cbn [utf8_encode].
  destruct (utf8_char c) as [bc|] eqn:Ec; [|done]. destruct (utf8_encode x) as [bx|]; [|done]. intros [= <-].
  specialize (Hl bc eq_refl). specialize (IH2 bx eq_refl). rewrite !length_app. lia.
Qed.

(** A string literal. *)
Lemma run_string x raw st d n : chars x raw -> at_counts st d n ->
  passes st (34 :: raw ++ [34]) d (n + 1) (n + 1 <= value_limit) (text_ok string_limit x).
Proof.
  intros Hx (Hd & Hn & Hq & He). apply chars_strides in Hx as [Hs Hl]. unfold passes. rewrite run_cons by lia.
  assert (E : step st 34 = counted value_limit (mkScan d (n + 1) 0 true false false)).
  { unfold preflight_byte. rewrite Hq, Hd, Hn, He. done. }
  rewrite E. unfold counted, err. cbn [count]. destruct (Z.ltb_spec value_limit (n + 1)); [split; [done|lia]|]. cbn [obind].
  set (st1 := mkScan d (n + 1) 0 true false false). assert (H1 : in_string st1 d (n + 1) 0) by done.
  destruct (Hs st1 d (n + 1) 0 H1) as [HF HB]. rewrite run_app. unfold run at 1 3.
  assert (Hclose : forall st2, foldO step st1 (bytes_of raw) = Ok st2 ->
    run st2 [34] = if string_limit * 6 + 1 <? Z.of_nat (length (bytes_of raw)) + 1 then err "string-limit"
      else Ok (mkScan d (n + 1) (Z.of_nat (length (bytes_of raw)) + 1) false false (atom st2))).
  { intros st2 (Hd2 & Hn2 & Hx2 & Hq2 & He2)%HF. rewrite run_cons by lia. unfold preflight_byte.
    rewrite Hq2, Hd2, Hn2, He2, Hx2. cbn [Z.add]. destruct (_ <? _); done. }
  split.
  - intros st' (st2 & E2 & E3)%obind_Ok. rewrite (Hclose st2 E2) in E3. destruct (_ <? _); [done|]. injection E3 as <-.
    split; [by split|lia].
  - intros _ (_ & _ & _ & b & Eb & Hb)%checked_string_Ok. specialize (Hl b Eb). destruct HB as (st2 & E2); [lia|].
    rewrite E2. cbn [obind]. rewrite (Hclose st2 E2). destruct (Z.ltb_spec (string_limit * 6 + 1) (Z.of_nat (length (bytes_of raw)) + 1)); [lia|eauto].
Qed.

(** *** Sequencing *)

Lemma passes_seq st s t d1 n1 b1 x1 d2 n2 b2 x2 : passes st s d1 n1 b1 x1 ->
  (forall st1, run st s = Ok st1 -> at_counts st1 d1 n1 -> passes st1 t d2 n2 b2 x2) ->
  passes st (s ++ t) d2 n2 (b1 /\ b2) (x1 /\ x2).
Proof.
  intros [H1 H2] H. unfold passes. rewrite run_app. split.
  - intros st' (st1 & E1 & E2)%obind_Ok. destruct (H1 st1 E1) as [Hc Hb]. destruct (H st1 E1 Hc) as [H3 _].
    destruct (H3 st' E2). auto.
  - intros [Hb1 Hb2] [Hx1 Hx2]. destruct (H2 Hb1 Hx1) as (st1 & E1). rewrite E1. cbn.
    by apply (H st1 E1 (proj1 (H1 st1 E1))).
Qed.

Lemma passes_weaken st s d n b x d' n' b' x' : passes st s d n b x -> d = d' -> n = n' -> (b <-> b') -> (x' -> x) ->
  passes st s d' n' b' x'.
Proof. intros [H1 H2] <- <- Hb Hx. split; [intros st' E; destruct (H1 st' E); tauto|tauto]. Qed.

Lemma passes_pre st st1 s t d n b x : run st s = Ok st1 -> passes st1 t d n b x -> passes st (s ++ t) d n b x.
Proof. intros E. unfold passes. rewrite run_app, E. cbn. done. Qed.

Lemma run_sep c w st d n : is_ws c || (c =? 44) || (c =? 58) = true -> blank w -> at_counts st d n ->
  exists st1, run st (c :: w) = Ok st1 /\ at_counts st1 d n /\ atom st1 = false.
Proof.
  intros Hc Hw Hst. destruct (step_sep st c d n Hc Hst) as (st1 & E & H1 & H2).
  rewrite run_cons by (unfold is_ws in Hc; lia). rewrite E. cbn.
  destruct (run_blank w Hw st1 d n H1) as (st2 & E2 & H3 & H4). exists st2. auto.
Qed.

Lemma passes_close c w st d n : c = 93 \/ c = 125 -> blank w -> at_counts st d n -> 1 <= d ->
  passes st (w ++ [c]) (d - 1) n (n <= value_limit) True.
Proof.
  intros Hc Hw Hst Hd. destruct (run_blank w Hw st d n Hst) as (st1 & E & H1 & _). apply (passes_pre _ _ _ _ _ _ _ _ E).
  unfold passes. rewrite run_cons, (step_close st1 c d n Hc H1 Hd) by lia. destruct H1 as (_ & _ & _ & He).
  case_decide; [|split; [done|lia]]. cbn. split; [|eauto]. intros st' [= <-]. by split_and!.
Qed.

Lemma passes_open c w p st d n d' n' b x : c = 91 \/ c = 123 -> blank w -> at_counts st d n ->
  (d + 1 <= depth_limit -> n + 1 <= value_limit ->
    forall st1, at_counts st1 (d + 1) (n + 1) -> atom st1 = false -> passes st1 p d' n' b x) ->
  (b -> d + 1 <= depth_limit /\ n + 1 <= value_limit) ->
  passes st (c :: w ++ p) d' n' b x.
Proof.
  intros Hc Hw Hst Hp Hb. pose proof (step_open st c d n Hc Hst) as Hs. case_decide as Hdn.
  - destruct Hs as (st1 & E & H1 & H2). destruct (run_blank w Hw st1 _ _ H1) as (st2 & E2 & H3 & H4).
    change (c :: w ++ p) with ((c :: w) ++ p). eapply passes_pre; [|apply (Hp (proj1 Hdn) (proj2 Hdn)); [exact H3|by apply H4]].
    rewrite run_cons by lia. by rewrite E.
  - destruct Hs as (e & E). unfold passes. rewrite run_cons, E by lia. cbn. split; [done|tauto].
Qed.

Lemma run_atom_tail p st d n : Forall atom_char p -> at_counts st d n -> atom st = true -> n <= value_limit ->
  exists st', run st p = Ok st' /\ at_counts st' d n.
Proof.
  intros Hp. revert st. induction Hp as [|c p Hc _ IH]; intros st Hst Ha Hn; [by exists st|].
  unfold atom_char in Hc. rewrite run_cons by lia. assert (E : step st c = Ok st).
  { destruct Hst as (Hd & Hcn & Hq & He). unfold preflight_byte, counted, is_ws. rewrite Hq, Ha, Hcn.
    repeat match goal with |- context [c =? ?y] => destruct (Z.eqb_spec c y); [lia|] end. cbn.
    destruct (Z.ltb_spec value_limit n); [lia|done]. }
  rewrite E. cbn. by apply IH.
Qed.

Lemma run_atom p st d n : atom_text p -> at_counts st d n -> atom st = false ->
  passes st p d (n + 1) (n + 1 <= value_limit) True.
Proof.
  intros [Hne Hp] Hst Ha. destruct Hp as [|c p Hc Hp]; [done|]. unfold atom_char in Hc. unfold passes.
  rewrite run_cons by lia. set (st1 := mkScan d (n + 1) (extent st) false false true).
  assert (E : step st c = counted value_limit st1).
  { destruct Hst as (Hd & Hcn & Hq & He). unfold preflight_byte, is_ws. rewrite Hq, Ha, Hcn, Hd, He.
    repeat match goal with |- context [c =? ?y] => destruct (Z.eqb_spec c y); [lia|] end. done. }
  rewrite E. unfold counted, err. cbn [count st1]. destruct (Z.ltb_spec value_limit (n + 1)); [split; [done|lia]|]. cbn [obind].
  destruct (run_atom_tail p st1 d (n + 1) Hp) as (st2 & E2 & H2); [done|done|lia|]. fold st1. rewrite E2.
  split; [|eauto]. intros st' [= <-]. done.
Qed.

(** *** Values *)

Notation spells := (spells _integer _invalid_number _invalid_number _unique_object).
Notation elements := (elements _integer _invalid_number _invalid_number _unique_object).
Notation members := (members _integer _invalid_number _invalid_number _unique_object).
Notation member := (member _integer _invalid_number _invalid_number _unique_object).

Lemma atom_of_measures v p : atom_of _integer _invalid_number _invalid_number v p ->
  atom_text p /\ tokens v = 1 /\ nesting v = 0.
Proof.
  assert (Ht : forall q : string, q <> EmptyString -> forallb (fun c => (97 <=? c) && (c <=? 122)) (str q) = true -> atom_text (str q)).
  { intros q Hq H. split; [by destruct q|]. apply Forall_forall. intros c Hc. rewrite forallb_forall in H.
    apply list_elem_of_In, H in Hc. unfold atom_char. lia. }
  destruct 1 as [-> ->| -> ->| -> ->|E H|E H|E H]; try (split; [apply Ht; [done|vm_compute; reflexivity]|done]); try done.
  unfold _integer, refuse, err in E. destruct (_ <? _); [done|]. cbn in E. destruct (_ && _); [|done]. by injection E as <-.
Qed.

Definition sum_tokens (l : list json) : Z := foldr Z.add 0 (map tokens l).
Definition max_nesting (l : list json) : Z := foldr Z.max 0 (map nesting l).

Definition value_passes (v : json) (p : pystr) : Prop := forall st d n,
  at_counts st d n -> atom st = false -> 0 <= d <= depth_limit ->
  passes st p d (n + tokens v) (d + nesting v <= depth_limit /\ n + tokens v <= value_limit) (strings_ok string_limit v).
Definition elements_pass (l : list json) (p : pystr) : Prop := forall st d n,
  at_counts st d n -> atom st = false -> 1 <= d <= depth_limit ->
  passes st p (d - 1) (n + sum_tokens l) (d + max_nesting l <= depth_limit /\ n + sum_tokens l <= value_limit)
    (Forall (strings_ok string_limit) l).
Definition item_ok (kv : pystr * json) : Prop := text_ok string_limit kv.1 /\ strings_ok string_limit kv.2.
Definition members_pass (l : list (pystr * json)) (p : pystr) : Prop := forall st d n,
  at_counts st d n -> atom st = false -> 1 <= d <= depth_limit ->
  passes st p (d - 1) (n + (sum_tokens l.*2 + Z.of_nat (length l)))
    (d + max_nesting l.*2 <= depth_limit /\ n + (sum_tokens l.*2 + Z.of_nat (length l)) <= value_limit) (Forall item_ok l).
Definition member_passes (k : pystr) (v : json) (p : pystr) : Prop := forall st d n,
  at_counts st d n -> atom st = false -> 1 <= d <= depth_limit ->
  passes st p d (n + (1 + tokens v)) (d + nesting v <= depth_limit /\ n + (1 + tokens v) <= value_limit) (item_ok (k, v)).

Lemma sum_pos l : Forall (fun z => 0 <= z) l -> 0 <= foldr Z.add 0 l.
Proof. induction 1; cbn; lia. Qed.

Lemma tokens_pos v : 1 <= tokens v.
Proof.
  induction v as [| | | |l IH|l IH] using json_nested_ind; cbn; try lia.
  - assert (0 <= foldr Z.add 0 (map tokens l)); [|lia]. apply sum_pos, Forall_map.
    eapply Forall_impl; [exact IH|]. cbn. lia.
  - assert (0 <= foldr Z.add 0 (map (fun kv => 1 + tokens kv.2) l)); [|lia]. apply sum_pos, Forall_map.
    eapply Forall_impl; [exact IH|]. cbn. lia.
Qed.

Lemma max_nesting_pos l : 0 <= max_nesting l.
Proof. unfold max_nesting. induction l; cbn; lia. Qed.

Lemma nesting_pos v : 0 <= nesting v.
Proof.
  destruct v as [| | | |l|l]; cbn; try lia; [pose proof (max_nesting_pos l)|pose proof (max_nesting_pos l.*2) as H];
    unfold max_nesting in *; [lia|]. rewrite map_map in H. lia.
Qed.

Lemma tokens_obj l : tokens (JObj l) = 1 + (sum_tokens l.*2 + Z.of_nat (length l)).
Proof.
  cbn. f_equal. unfold sum_tokens. induction l as [|kv l IH]; cbn [map fmap list_fmap foldr length]; [done|]. rewrite IH. lia.
Qed.

Lemma nesting_obj l : nesting (JObj l) = 1 + max_nesting l.*2.
Proof. cbn. unfold max_nesting. by rewrite map_map. Qed.

Lemma sum_tokens_cons v l : sum_tokens (v :: l) = tokens v + sum_tokens l.
Proof. done. Qed.
Lemma max_nesting_cons v l : max_nesting (v :: l) = Z.max (nesting v) (max_nesting l).
Proof. done. Qed.

(** A value and what separates it from the rest. *)
Lemma passes_item st p w w' q d d2 n1 n2 b1 x1 b2 x2 : passes st p d n1 b1 x1 -> blank w -> blank w' ->
  (forall st1, at_counts st1 d n1 -> atom st1 = false -> passes st1 q d2 n2 b2 x2) ->
  passes st (p ++ w ++ 44 :: w' ++ q) d2 n2 (b1 /\ b2) (x1 /\ x2).
Proof.
  intros Hp Hw Hw' Hq. eapply passes_seq; [exact Hp|]. intros st1 _ H1.
  destruct (run_blank w Hw st1 _ _ H1) as (st2 & E2 & H2 & _). eapply passes_pre; [exact E2|].
  destruct (run_sep 44 w' st2 d n1) as (st3 & E3 & H3 & Ha); [done..|].
  change (44 :: w' ++ q) with ((44 :: w') ++ q). eapply passes_pre; [exact E3|]. by apply Hq.
Qed.

(** The measures of the cases, for [lia]. *)
Ltac measures := rewrite ?tokens_obj, ?nesting_obj, ?sum_tokens_cons, ?max_nesting_cons in *; cbn [tokens nesting] in *;
  fold sum_tokens max_nesting in *; change (sum_tokens []) with 0 in *; change (max_nesting []) with 0 in *;
  cbn [map foldr fmap list_fmap length fst snd] in *.

Lemma value_str x raw : chars x raw -> value_passes (JStr x) (34 :: raw ++ [34]).
Proof.
  intros Hx st d n Hst _ Hd. eapply passes_weaken; [by apply (run_string x raw st d n)|done|done|cbn; lia|done].
Qed.

Lemma value_atom v p : atom_of _integer _invalid_number _invalid_number v p -> value_passes v p.
Proof.
  intros Hv st d n Hst Ha Hd. apply atom_of_measures in Hv as (Hp & -> & ->).
  eapply passes_weaken; [by apply run_atom|done|done|lia|done].
Qed.

(** An empty container. *)
Lemma value_empty o c v w : o = 91 \/ o = 123 -> c = 93 \/ c = 125 -> tokens v = 1 -> nesting v = 1 -> blank w ->
  value_passes v (o :: w ++ [c]).
Proof.
  intros Ho Hc Ht Hn Hw st d n Hst Ha Hd. rewrite Ht, Hn. eapply passes_open; [done|done|exact Hst| |lia].
  intros Hd1 Hn1 st1 H1 _. change [c] with ([] ++ [c]).
  eapply passes_weaken; [apply (passes_close c [] st1 (d + 1)); [done|by apply Forall_nil|exact H1|lia]|lia|done|lia|done].
Qed.

Lemma sum_tokens_pos l : 0 <= sum_tokens l.
Proof. apply sum_pos, Forall_map, Forall_forall. intros v _. pose proof (tokens_pos v). lia. Qed.

Lemma value_list w l p : blank w -> elements_pass l p -> value_passes (JList l) (91 :: w ++ p).
Proof.
  intros Hw Hp st d n Hst Ha Hd. cbn [tokens nesting]. fold (sum_tokens l) (max_nesting l).
  pose proof (max_nesting_pos l) as Hm. pose proof (sum_tokens_pos l) as Ht.
  eapply passes_open; [by left|done|exact Hst| |lia]. intros Hd1 Hn1 st1 H1 Ha1.
  eapply passes_weaken; [apply (Hp st1 (d + 1) (n + 1)); [done|done|lia]|lia|lia|lia|by rewrite strings_ok_list].
Qed.

Lemma value_obj w items p : blank w -> members_pass items p -> value_passes (JObj items) (123 :: w ++ p).
Proof.
  intros Hw Hp st d n Hst Ha Hd. rewrite tokens_obj, nesting_obj.
  pose proof (max_nesting_pos items.*2) as Hm. pose proof (sum_tokens_pos items.*2) as Ht.
  eapply passes_open; [by right|done|exact Hst| |lia]. intros Hd1 Hn1 st1 H1 Ha1.
  eapply passes_weaken; [apply (Hp st1 (d + 1) (n + 1)); [done|done|lia]|lia|lia|lia|by rewrite strings_ok_obj].
Qed.

Lemma elements_one v p w : value_passes v p -> blank w -> elements_pass [v] (p ++ w ++ [93]).
Proof.
  intros Hp Hw st d n Hst Ha Hd. rewrite sum_tokens_cons, max_nesting_cons. change (sum_tokens []) with 0. change (max_nesting []) with 0.
  pose proof (nesting_pos v). pose proof (tokens_pos v).
  eapply passes_weaken; [eapply passes_seq; [apply (Hp st d n); [done|done|lia]|]|..].
  - intros st1 _ H1. apply (passes_close 93 w st1 d (n + tokens v)); [by left|done|done|lia].
  - lia.
  - lia.
  - lia.
  - intros H2. by apply Forall_inv in H2.
Qed.

Lemma elements_more v p w w' l q : value_passes v p -> blank w -> blank w' -> elements_pass l q ->
  elements_pass (v :: l) (p ++ w ++ 44 :: w' ++ q).
Proof.
  intros Hp Hw Hw' Hq st d n Hst Ha Hd. rewrite sum_tokens_cons, max_nesting_cons.
  pose proof (nesting_pos v). pose proof (tokens_pos v). pose proof (max_nesting_pos l). pose proof (sum_tokens_pos l).
  eapply passes_weaken; [eapply passes_item; [apply (Hp st d n); [done|done|lia]|done|done|]|..].
  - intros st1 H3 Ha1. apply (Hq st1 d (n + tokens v)); [done|done|lia].
  - lia.
  - lia.
  - lia.
  - intros H3. by apply Forall_cons in H3.
Qed.

Lemma members_one k v m w : member_passes k v m -> blank w -> members_pass [(k, v)] (m ++ w ++ [125]).
Proof.
  intros Hp Hw st d n Hst Ha Hd. cbn [fmap list_fmap snd length]. rewrite sum_tokens_cons, max_nesting_cons.
  change (sum_tokens []) with 0. change (max_nesting []) with 0. pose proof (nesting_pos v). pose proof (tokens_pos v).
  eapply passes_weaken; [eapply passes_seq; [apply (Hp st d n); [done|done|lia]|]|..].
  - intros st1 _ H1. apply (passes_close 125 w st1 d (n + (1 + tokens v))); [by right|done|done|lia].
  - lia.
  - lia.
  - lia.
  - intros H2. by apply Forall_inv in H2.
Qed.

Lemma members_more k v m w w' l q : member_passes k v m -> blank w -> blank w' -> members_pass l q ->
  members_pass ((k, v) :: l) (m ++ w ++ 44 :: w' ++ q).
Proof.
  intros Hp Hw Hw' Hq st d n Hst Ha Hd. cbn [fmap list_fmap snd length]. rewrite sum_tokens_cons, max_nesting_cons.
  pose proof (nesting_pos v). pose proof (tokens_pos v). pose proof (max_nesting_pos l.*2). pose proof (sum_tokens_pos l.*2).
  eapply passes_weaken; [eapply passes_item; [apply (Hp st d n); [done|done|lia]|done|done|]|..].
  - intros st1 H3 Ha1. apply (Hq st1 d (n + (1 + tokens v))); [done|done|lia].
  - lia.
  - lia.
  - lia.
  - intros H3. by apply Forall_cons in H3.
Qed.

Lemma member_pair k raw w w' v p : chars k raw -> blank w -> blank w' -> value_passes v p ->
  member_passes k v (34 :: raw ++ 34 :: w ++ 58 :: w' ++ p).
Proof.
  intros Hk Hw Hw' Hp st d n Hst Ha Hd. pose proof (nesting_pos v). pose proof (tokens_pos v).
  replace (34 :: raw ++ 34 :: w ++ 58 :: w' ++ p) with ((34 :: raw ++ [34]) ++ w ++ (58 :: w') ++ p)
    by (cbn; by rewrite <-!app_assoc).
  eapply passes_weaken; [eapply passes_seq; [apply (run_string k raw st d n Hk Hst)|]|..].
  - intros st1 _ H1. destruct (run_blank w Hw st1 _ _ H1) as (st2 & E2 & H2 & _). eapply passes_pre; [exact E2|].
    destruct (run_sep 58 w' st2 d (n + 1)) as (st3 & E3 & H3 & Ha3); [done..|]. eapply passes_pre; [exact E3|].
    apply (Hp st3 d (n + 1)); [done|done|lia].
  - lia.
  - lia.
  - lia.
  - done.
Qed.

Lemma spells_pass : (forall v p, spells v p -> value_passes v p) /\ (forall l p, elements l p -> elements_pass l p) /\
  (forall l p, members l p -> members_pass l p) /\ (forall k v p, member k v p -> member_passes k v p).
Proof.
  assert (Hhook : forall items v, _unique_object items = Ok v -> v = JObj items).
  { unfold _unique_object, err. intros items v. destruct (unique_pairs _ _); [by intros [= <-]|done]. }
  apply spells_all; intros.
  - by apply value_str.
  - by apply value_atom.
  - by apply value_empty; auto.
  - by apply value_list.
  - apply value_empty; auto; match goal with H : _ = Ok _ |- _ => by apply Hhook in H as -> end.
  - match goal with H : _unique_object _ = Ok _ |- _ => apply Hhook in H as -> end. by apply value_obj.
  - by apply elements_one.
  - by apply elements_more.
  - by apply members_one.
  - by apply members_more.
  - by apply member_pair.
Qed.

Lemma passes_nil st d n : at_counts st d n -> passes st [] d n True True.
Proof. intros H. split; [by intros st' [= <-]|eauto]. Qed.

(** On a text the parser accepts, the preflight passes exactly within the bounds. *)
Lemma preflight_text s v : 0 <= depth_limit -> loads _integer _invalid_number _invalid_number _unique_object s = Ok v ->
  passes (mkScan 0 0 0 false false false) s 0 (tokens v) (nesting v <= depth_limit /\ tokens v <= value_limit)
    (strings_ok string_limit v).
Proof.
  intros Hd H. apply loads_sound in H as (w & p & w' & -> & Hw & Hw' & Hp). apply spells_pass in Hp.
  set (st := mkScan 0 0 0 false false false). assert (Hst : at_counts st 0 0) by done.
  destruct (run_blank w Hw st 0 0 Hst) as (st1 & E1 & H1 & Ha). eapply passes_pre; [exact E1|].
  eapply passes_weaken; [eapply passes_seq; [apply (Hp st1 0 0 H1); [by apply Ha|lia]|]|..].
  - intros st2 _ H2. destruct (run_blank w' Hw' st2 _ _ H2) as (st3 & E3 & H3 & _). rewrite <-(app_nil_r w').
    eapply passes_pre; [exact E3|]. apply (passes_nil st3 0 (0 + tokens v) H3).
  - lia.
  - lia.
  - lia.
  - done.
Qed.
End run.

(** ** The loop over the decoded document *)

Lemma all_ok_Forall {A} (f : A -> outcome pystr) l : all_ok f l = Ok tt <-> Forall (fun x => exists s, f x = Ok s) l.
Proof.
  induction l as [|x l IH]; cbn [all_ok]; [by rewrite Forall_nil|]. rewrite obind_Ok, Forall_cons. setoid_rewrite IH. naive_solver.
Qed.

Lemma checked_key n s : (exists t, _checked_string (JStr s) n = Ok t) <-> text_ok n s.
Proof.
  split; [|by exists s]. intros (t & H). pose proof H as ([= <-] & _)%checked_string_Ok. exact H.
Qed.

Lemma visit_strings_Ok n v added : visit_strings n v = Ok added ->
  (Forall (strings_ok n) added <-> strings_ok n v) /\ (sum_list (map jsize added) < jsize v)%nat.
Proof.
  destruct v as [|b|z|s|l|l]; unfold visit_strings.
  1-3: intros [= <-]; split; [split; [done|by intros _; apply Forall_nil]|cbn; lia].
  - intros (t & Ht & [= <-])%obind_Ok. split; [|cbn; lia]. split; [|by intros _; apply Forall_nil].
    intros _. apply checked_key. by exists t.
  - intros [= <-]. split; [by rewrite strings_ok_list|cbn; lia].
  - intros ([] & Ht & [= <-])%obind_Ok. split; [|rewrite map_map; cbn; lia]. apply all_ok_Forall in Ht.
    rewrite strings_ok_obj, Forall_map. rewrite !Forall_forall in *.
    split; intros H kv Hkv; [|by apply H]. split; [apply checked_key, Ht, Hkv|apply H, Hkv].
Qed.

Lemma visit_strings_total n v : strings_ok n v -> exists added, visit_strings n v = Ok added.
Proof.
  destruct v as [|b|z|s|l|l]; unfold visit_strings; eauto.
  - cbn [strings_ok]. unfold text_ok. intros ->. cbn. eauto.
  - rewrite strings_ok_obj. intros H. destruct (all_ok _ l) as [[]|e] eqn:E; [cbn; eauto|]. exfalso.
    assert (Hok : all_ok (fun kv : pystr * json => _checked_string (JStr kv.1) n) l = Ok tt); [|congruence].
    apply all_ok_Forall. eapply Forall_impl; [exact H|]. cbn. intros kv [Hk _]. by exists kv.1.
Qed.

Lemma pending_strings n fuel : forall stack, (sum_list (map jsize stack) < fuel)%nat ->
  pending_loop (visit_strings n) fuel stack = Ok tt <-> Forall (strings_ok n) stack.
Proof.
  induction fuel as [|fuel IH]; intros stack Hf; [lia|]. cbn [pending_loop].
  destruct stack as [|v stack]; [by rewrite Forall_nil|]. rewrite Forall_cons. cbn [map sum_list_with id] in Hf.
  destruct (visit_strings n v) as [added|e] eqn:E; cbn [obind].
  - apply visit_strings_Ok in E as [H1 H2].
    assert (Hsz : sum_list (map jsize (rev added ++ stack)) = (sum_list (map jsize added) + sum_list (map jsize stack))%nat).
    { rewrite map_app, sum_list_with_app. f_equal. by rewrite <-(Permutation_rev added). }
    rewrite IH by (unfold id in *; lia). rewrite Forall_app, <-H1, <-(Permutation_rev added). done.
  - split; [done|]. intros [H _]. apply visit_strings_total in H as (added & Ha). congruence.
Qed.

Lemma decode_bounded_json_iff data max_bytes max_depth max_values max_string_bytes v :
  Forall is_byte data -> 0 <= max_depth ->
  decode_bounded_json data max_bytes max_depth max_values max_string_bytes = Ok v <->
  Z.of_nat (length data) <= max_bytes /\ parse_json data = Ok v /\
    nesting v <= max_depth /\ tokens v <= max_values /\ strings_ok max_string_bytes v.
Proof.
  intros Hb Hd. unfold decode_bounded_json, refuse. destruct (Z.ltb_spec max_bytes (Z.of_nat (length data))); cbn [obind].
  { split; [done|lia]. }
  assert (Hp : forall v', parse_json data = Ok v' ->
    passes max_depth max_values max_string_bytes (mkScan 0 0 0 false false false) (default [] (utf8_decode data)) 0 (tokens v')
      (nesting v' <= max_depth /\ tokens v' <= max_values) (strings_ok max_string_bytes v') /\
    bytes_of (default [] (utf8_decode data)) = data).
  { unfold parse_json. destruct (utf8_decode data) as [text|] eqn:Et; [|done]. intros v' Hv'.
    destruct (loads _ _ _ _ text) as [v1|[]] eqn:El; try done. injection Hv' as <-. split; [by apply preflight_text|].
    symmetry. by apply encode_bytes_of, encode_decode. }
  assert (Hloop : forall v', pending_loop (visit_strings max_string_bytes) (S (jsize v')) [v'] = Ok tt <-> strings_ok max_string_bytes v').
  { intros v'. rewrite pending_strings by (cbn; unfold id; lia). by rewrite Forall_singleton. }
  split.
  - intros ([] & Hpre & H2)%obind_Ok. apply obind_Ok in H2 as (v' & Hv' & H3). apply obind_Ok in H3 as ([] & Hl & [= <-]).
    destruct (Hp v' Hv') as [[HF _] Ebytes]. apply Hloop in Hl. apply obind_Ok in Hpre as (st & Est & _).
    unfold run in HF. rewrite Ebytes in HF. destruct (HF st Est) as [_ []]. auto 10.
  - intros (_ & Hv & Hn & Ht & Hs). destruct (Hp v Hv) as [[_ HB] Ebytes]. destruct (HB (conj Hn Ht) Hs) as (st & Est).
    unfold run in Est. rewrite Ebytes in Est. unfold _preflight_json. rewrite Est. cbn [obind]. rewrite Hv. cbn [obind].
    by rewrite (proj2 (Hloop v) Hs).
Qed.

(** C34: the reader returns a document exactly when the bytes are within their
    bound, parse as that document, and the document is within the bounds: its
    containers nest at most [max_depth] deep, its values and keys number at
    most [max_values], and every string is free of NUL and at most
    [max_string_bytes] long in UTF-8. *)
Theorem decode_bounded_json_exact data max_bytes max_depth max_values max_string_bytes v :
  Forall is_byte data -> 0 <= max_depth ->
  decode_bounded_json data max_bytes max_depth max_values max_string_bytes = Ok v <->
  Z.of_nat (length data) <= max_bytes /\ parse_json data = Ok v /\
    nesting v <= max_depth /\ tokens v <= max_values /\ strings_ok max_string_bytes v.
Proof. apply decode_bounded_json_iff. Qed.
