(* ===== verification/RuleKeySpec.v ===== *)
(** * The codec of qualified rule keys is exact

    A byte string decodes to a key exactly when it is that key's encoding. *)
From stdpp Require Import base tactics list strings.
From Stdlib Require Import ZArith Lia.
From S2P Require Import Prelude PyData PyDict Sha256 Ordering Json JsonParse JsonSpec JsonRoundTrip BoundRules BoundJson.

Open Scope Z_scope.
Open Scope py_scope.

(** ** Dicts as items *)


Lemma NoDup_key_inj {A B} (l : list (A * B)) p q : NoDup l.*1 -> p ∈ l -> q ∈ l -> p.1 = q.1 -> p = q.
Proof.
  intros Hnd [i Hi]%list_elem_of_lookup [j Hj]%list_elem_of_lookup E.
  assert (i = j) as <-; [|congruence].
  eapply NoDup_lookup; [exact Hnd| |]; rewrite list_lookup_fmap; [by rewrite Hi|by rewrite Hj, E].
Qed.

(** The order of the items of a dict does not matter to its canonical form. *)
Lemma canon_perm l k : NoDup l.*1 -> l ≡ₚ k -> canon (JObj l) = canon (JObj k).
Proof.
  intros Hnd Hp. cbn. f_equal. apply (py_sorted_perm_on key_leb); [|by rewrite Hp].
  intros x y (p & -> & Hx)%list_elem_of_fmap (q & -> & Hy)%list_elem_of_fmap H1 H2. unfold key_leb in *. cbn in *.
  assert (E : p.1 = q.1) by (by apply (leb_anti (leb := str_leb))). by rewrite (NoDup_key_inj l p q Hnd Hx Hy E).
Qed.

Lemma unique_pairs_spec seen items : unique_pairs seen items = true <-> NoDup items.*1 /\ (forall k, k ∈ items.*1 -> k ∉ seen).
Proof.
  revert seen. induction items as [|[k v] items IH]; intros seen; cbn [unique_pairs].
  { split; [intros _; split; [constructor|by intros k ?%elem_of_nil]|done]. }
  rewrite andb_true_iff, negb_true_iff, bool_decide_eq_false, IH. cbn. rewrite NoDup_cons. split.
  - intros (H1 & H2 & H3). split_and!; [intros Hk; by apply (H3 k Hk), list_elem_of_here|done|].
    intros k' [->|Hk']%elem_of_cons; [done|]. intros Hs. by apply (H3 k' Hk'), list_elem_of_further.
  - intros ((H1 & H2) & H3). split_and!; [apply H3, list_elem_of_here|done|].
    intros k' Hk' [->|Hs]%elem_of_cons; [done|]. by apply (H3 k'); [apply list_elem_of_further|].
Qed.

Lemma unique_object_Ok items v : _unique_object items = Ok v <-> v = JObj items /\ NoDup items.*1.
Proof.
  unfold _unique_object, err. destruct (unique_pairs [] items) eqn:E.
  - apply unique_pairs_spec in E as [H _]. split; [by intros [= <-]|by intros [-> _]].
  - split; [done|]. intros [_ H]. exfalso. apply not_true_iff_false in E. apply E, unique_pairs_spec. split; [done|].
    by intros k _ ?%elem_of_nil.
Qed.

Lemma item_of_Ok items name v : NoDup items.*1 -> item_of items name = Ok v <-> (name, v) ∈ items.
Proof.
  induction items as [|[k w] items IH]; cbn; [intros _; by rewrite elem_of_nil|]. intros [Hk Hnd]%NoDup_cons.
  unfold str_eqb. case_bool_decide as E.
  - subst k. rewrite elem_of_cons. split; [intros [= ->]; by left|]. intros [[= ->]|H]; [done|]. exfalso. apply Hk.
    change name with (name, v).1. by apply list_elem_of_fmap_2.
  - rewrite (IH Hnd), elem_of_cons. split; [by right|]. intros [[= -> _]|H]; [done|exact H].
Qed.

Lemma closed_Ok v names row : _closed v names = Ok row <->
  v = JObj row /\ (forall k, k ∈ row.*1 <-> k ∈ map str names).
Proof.
  unfold _closed, err. destruct v as [| | | | |items]; try (split; [done|by intros []]).
  destruct (forallb _ items && _) eqn:E.
  - apply andb_true_iff in E as [E1 E2]. rewrite forallb_forall in E1, E2. split; [intros [= <-]|by intros [[= ->] _]].
    split; [done|]. intros k. split.
    + intros (kv & -> & Hkv)%list_elem_of_fmap. apply list_elem_of_In, E1, bool_decide_eq_true in Hkv. done.
    + intros (n & -> & Hn)%list_elem_of_fmap. apply list_elem_of_In, E2, bool_decide_eq_true in Hn. done.
  - split; [done|]. intros ([= ->] & H). exfalso. apply not_true_iff_false in E. apply E, andb_true_iff.
    rewrite !forallb_forall. split; intros x Hx; apply bool_decide_eq_true.
    + apply H. apply list_elem_of_fmap_2. by apply list_elem_of_In.
    + apply H. apply list_elem_of_In in Hx. by apply (list_elem_of_fmap_2 str).
Qed.

(** A dict with exactly the given keys and values. *)
Lemma closed_perm (row : list (pystr * json)) (names : list pystr) (vals : list json) : NoDup row.*1 -> (forall k, k ∈ row.*1 <-> k ∈ names) ->
  length vals = length names -> NoDup names -> (forall p, p ∈ zip names vals -> p ∈ row) -> row ≡ₚ zip names vals.
Proof.
  intros Hr Hk Hl Hn Hz. symmetry. apply submseteq_length_Permutation.
  - apply NoDup_submseteq; [|exact Hz]. apply (NoDup_fmap_1 fst). by rewrite fst_zip by lia.
  - assert (E : row.*1 ≡ₚ names) by (by apply NoDup_Permutation).
    apply Permutation_length in E. rewrite length_fmap in E. rewrite length_zip_with, E. lia.
Qed.

(** A parsed dict has unique keys. *)
Lemma parsed_unique data row : parse_json data = Ok (JObj row) -> NoDup row.*1.
Proof.
  unfold parse_json. destruct (utf8_decode data) as [text|]; [|done].
  destruct (loads _ _ _ _ text) as [v|[]] eqn:E; try done. intros [= ->].
  apply loads_sound in E as (w & p & w' & _ & _ & _ & Hp). inversion Hp as [|v' p' Ha| | |v' w0 _ Hh|v' w0 items p' _ _ Hh]; subst.
  - destruct Ha as [H|H|H|H|H|H]; try done. unfold _integer, refuse, err in H.
    destruct (Z.ltb _ _); [done|]. cbn [obind] in H. by destruct (_ && _).
  - by apply unique_object_Ok in Hh as [[= ->] ?].
  - by apply unique_object_Ok in Hh as [[= ->] ?].
Qed.

(** ** The fields of a key *)

Lemma text_ok_le m n s : text_ok m s -> m <= n -> text_ok n s.
Proof.
  intros (_ & H1 & H2 & b & E & H3)%checked_string_Ok Hle. apply checked_string_Ok. split_and!; [done|lia|done|].
  exists b. split; [done|lia].
Qed.

(** A field that passed one of the scalar checks is a text. *)
Definition text_field (v : json) : Prop :=
  match v with JStr s => text_ok 16384 s | JNull => True | _ => False end.

Lemma checked_field (f : pystr -> outcome pystr) m v : m <= 16384 ->
  (exists t, (s ⇐ _checked_string v m; f s) = Ok t) -> text_field v.
Proof.
  intros Hm (t & (s & Hs & _)%obind_Ok). pose proof Hs as ([= ->] & _)%checked_string_Ok. by apply (text_ok_le m).
Qed.

Lemma uuid_field v : (exists t, _uuid v = Ok t) -> text_field v.
Proof. by apply checked_field. Qed.
Lemma version_field v : (exists t, _version v = Ok t) -> text_field v.
Proof. by apply checked_field. Qed.
Lemma digest_field v : (exists t, _digest v = Ok t) -> text_field v.
Proof. by apply checked_field. Qed.
Lemma identifier_field v : (exists t, _identifier v = Ok t) -> text_field v.
Proof. by apply checked_field. Qed.

#[local] Hint Resolve uuid_field version_field digest_field identifier_field : scanipy.

Lemma refuse_Ok b code : refuse b code = Ok tt <-> b = false.
Proof. unfold refuse, err. by destruct b. Qed.

Lemma all_ok_texts (f : json -> outcome pystr) l : (forall v, (exists t, f v = Ok t) -> text_field v) ->
  all_ok (fun s => f (JStr s)) l = Ok tt -> Forall (fun s => text_field (JStr s)) l.
Proof. intros Hf H%all_ok_Forall. eapply Forall_impl; [exact H|]. cbn. intros s (t & Ht). apply (Hf (JStr s)). by exists t. Qed.

Lemma check_key_texts k : check_key k = Ok tt -> Forall text_field (key_values k).
Proof.
  unfold check_key. intros ([] & H1 & H)%obind_Ok. apply obind_Ok in H as (t2 & H2 & H). apply obind_Ok in H as (t3 & H3 & H).
  apply obind_Ok in H as ([] & H4 & H). apply obind_Ok in H as (t5 & H5 & H). apply obind_Ok in H as ([] & H6 & H).
  apply obind_Ok in H as ([] & H7 & H8).
  apply all_ok_texts in H6; [|apply version_field]. apply all_ok_texts in H7; [|apply digest_field].
  apply all_ok_texts in H8; [|apply identifier_field]. rewrite !Forall_cons in H6. rewrite !Forall_cons in H7. rewrite !Forall_cons in H8.
  assert (Hscope : text_field (JStr (k_scope k))).
  { apply refuse_Ok, negb_false_iff, orb_true_iff in H4. unfold str_eqb in H4.
    destruct H4 as [->%bool_decide_eq_true| ->%bool_decide_eq_true]; vm_compute; reflexivity. }
  assert (Horg : text_field (opt_json (k_org_id k))).
  { destruct (str_eqb (k_scope k) (str "global")); [destruct (k_org_id k); [done|exact I]|]. apply uuid_field. eauto. }
  assert (Hschema : text_field (JStr (k_schema k))).
  { apply refuse_Ok, negb_false_iff in H1. unfold str_eqb in H1. apply bool_decide_eq_true in H1 as ->. vm_compute. reflexivity. }
  unfold key_values. rewrite !Forall_cons. intuition eauto with scanipy.
Qed.

Definition key_names : list pystr := map str key_fields.
Definition key_items (k : QualifiedRuleKey) : list (pystr * json) := zip key_names (key_values k).

Lemma key_names_nodup : NoDup key_names.
Proof. apply (bool_decide_eq_true (NoDup key_names)). vm_compute. reflexivity. Qed.

Lemma key_items_names k : (key_items k).*1 = key_names.
Proof. reflexivity. Qed.

Lemma key_items_nodup k : NoDup (key_items k).*1.
Proof. rewrite key_items_names. apply key_names_nodup. Qed.

(** ** A decoded key encodes to the bytes it came from *)

Lemma text_item_Ok row name s : NoDup row.*1 -> (v ⇐ item_of row (str name); _checked_string v 16384) = Ok s -> (str name, JStr s) ∈ row.
Proof. intros Hnd (v & Hv & ([= ->] & _)%checked_string_Ok)%obind_Ok. by apply item_of_Ok. Qed.

Lemma org_Ok row v o : NoDup row.*1 -> item_of row (str "org_id") = Ok v ->
  match v with JNull => Ok None | v => s ⇐ _checked_string v 16384; Ok (Some s) end = Ok o ->
  (str "org_id", opt_json o) ∈ row.
Proof.
  intros Hnd Hv H. apply item_of_Ok in Hv; [|done].
  destruct v; try (apply obind_Ok in H as (t & ([= ->] & _)%checked_string_Ok & [= <-])); [|exact Hv]. by injection H as <-.
Qed.

Lemma decode_key_row b k : decode_qualified_rule_key b = Ok k -> exists row,
  decode_bounded_json b 16384 4 64 16384 = Ok (JObj row) /\ (forall n, n ∈ row.*1 <-> n ∈ key_names) /\
  canonical_json (JObj row) = Ok b /\ check_key k = Ok tt /\ (NoDup row.*1 -> forall p, p ∈ key_items k -> p ∈ row).
Proof.
  unfold decode_qualified_rule_key. intros (v & Hv & H)%obind_Ok. apply obind_Ok in H as (row & Hrow & H).
  apply closed_Ok in Hrow as [-> Hnames]. apply obind_Ok in H as (c & Hc & H). apply obind_Ok in H as ([] & Hcb & H).
  apply refuse_Ok, negb_false_iff, bool_decide_eq_true in Hcb as ->. exists row. split; [exact Hv|]. split; [exact Hnames|]. split; [exact Hc|].
  cbv zeta in H. repeat (apply obind_Ok in H as (? & ? & H)). injection H as <-.
  match goal with H : check_key _ = Ok ?u |- _ => destruct u; split; [exact H|clear H] end.
  intros Hnd p Hp. unfold key_items, key_names, key_fields in Hp. cbn [map zip zip_with key_values] in Hp.
  repeat (apply elem_of_cons in Hp as [->|Hp]; [first [by apply text_item_Ok|by eapply org_Ok]|]). by apply elem_of_nil in Hp.
Qed.

Lemma decoded_key_encodes b k : Forall is_byte b -> decode_qualified_rule_key b = Ok k -> encode_qualified_rule_key k = Ok b.
Proof.
  intros Hb H. apply decode_key_row in H as (row & Hv & Hn & Hc & Hk & Hp).
  apply decode_bounded_json_iff in Hv as (Hl & Hparse & _); [|done|lia]. apply parsed_unique in Hparse as Hnd.
  assert (E : row ≡ₚ key_items k) by (apply closed_perm; [done|done|done|apply key_names_nodup|by apply Hp]).
  unfold encode_qualified_rule_key. rewrite Hk. cbn [obind]. unfold canonical_json, dumps in *.
  change (key_json k) with (JObj (key_items k)). rewrite <-(canon_perm row (key_items k) Hnd E). rewrite Hc. cbn [obind].
  destruct (Z.ltb_spec 16384 (Z.of_nat (length b))); [lia|done].
Qed.


(** ** An encoded key decodes to itself *)

Lemma text_points n s : text_ok n s -> points s.
Proof. intros (_ & _ & _ & b & E & _)%checked_string_Ok. by eapply utf8_points. Qed.

(** A dict of texts. *)
Definition text_row (row : list (pystr * json)) : Prop := Forall (fun kv => text_ok 16384 kv.1 /\ text_field kv.2) row.

Lemma text_row_strings row : text_row row -> strings_ok 16384 (JObj row).
Proof.
  intros H. apply strings_ok_obj. eapply Forall_impl; [exact H|]. cbn. intros [k v] [H1 H2]. split; [exact H1|]. by destruct v.
Qed.

Lemma text_row_sizes row : text_row row -> nesting (JObj row) = 1 /\ tokens (JObj row) = 1 + 2 * Z.of_nat (length row).
Proof.
  rewrite nesting_obj, tokens_obj. unfold max_nesting, sum_tokens.
  induction 1 as [|[k v] row [_ Hv] _ [IH1 IH2]]; [done|]. cbn [fmap list_fmap map foldr snd length].
  destruct v; try done; cbn [nesting tokens]; lia.
Qed.

Lemma text_row_readable row : text_row row -> NoDup row.*1 -> readable _integer _unique_object points (JObj row).
Proof.
  intros H Hnd. apply readable_obj. split; [|by apply unique_object_Ok]. eapply Forall_impl; [exact H|]. cbn.
  intros [k v] [H1 H2]. split; [by eapply text_points|]. cbn in *. destruct v; try done. by eapply text_points.
Qed.

Lemma text_row_canon row : text_row row -> canon (JObj row) = JObj (py_sorted key_leb row).
Proof.
  intros H. cbn. f_equal. f_equal. rewrite <-(map_id row) at 2. apply map_ext_Forall. eapply Forall_impl; [exact H|].
  intros [k v] [_ Hv]. cbn in *. by destruct v.
Qed.

Section encoded.
Variable k : QualifiedRuleKey.
Hypothesis key_ok : check_key k = Ok tt.
Let row := py_sorted key_leb (key_items k).

Lemma row_perm : row ≡ₚ key_items k.
Proof. apply py_sorted_perm. Qed.

Lemma row_nodup : NoDup row.*1.
Proof. rewrite row_perm. apply key_items_nodup. Qed.

Lemma key_items_texts : text_row (key_items k).
Proof.
  pose proof (check_key_texts k key_ok) as Hv. assert (Hn : Forall (text_ok 16384) key_names).
  { apply Forall_forall. intros s Hs. vm_compute in Hs.
    repeat (apply elem_of_cons in Hs as [->|Hs]; [vm_compute; reflexivity|]). by apply elem_of_nil in Hs. }
  rewrite Forall_forall in Hv. rewrite Forall_forall in Hn. apply Forall_forall. intros [n v] H.
  split; [apply Hn; by eapply elem_of_zip_l|apply Hv; by eapply elem_of_zip_r].
Qed.

Lemma row_texts : text_row row.
Proof. unfold text_row. rewrite row_perm. apply key_items_texts. Qed.

Lemma row_json : canon (key_json k) = JObj row.
Proof. change (key_json k) with (JObj (key_items k)). apply text_row_canon, key_items_texts. Qed.

Lemma row_field i n v : key_fields !! i = Some n -> key_values k !! i = Some v -> item_of row (str n) = Ok v.
Proof.
  intros Hn Hv. apply item_of_Ok; [apply row_nodup|]. rewrite row_perm. apply list_elem_of_lookup. exists i.
  unfold key_items, key_names. apply lookup_zip_with_Some. exists (str n), v. split_and!; [done| |done].
  by rewrite list_lookup_fmap, Hn.
Qed.

Lemma row_text i n s : key_fields !! i = Some n -> key_values k !! i = Some (JStr s) ->
  (v ⇐ item_of row (str n); _checked_string v 16384) = Ok s.
Proof.
  intros Hn Hv. rewrite (row_field i n _ Hn Hv). cbn [obind]. pose proof (check_key_texts k key_ok) as H.
  rewrite Forall_forall in H. apply (H (JStr s)). by eapply list_elem_of_lookup_2.
Qed.

Lemma row_org : exists v, item_of row (str "org_id") = Ok v /\
  match v with JNull => Ok None | v => s ⇐ _checked_string v 16384; Ok (Some s) end = Ok (k_org_id k).
Proof.
  exists (opt_json (k_org_id k)). split; [by apply (row_field 3)|]. destruct (k_org_id k) as [s|] eqn:E; [|done]. cbn [opt_json].
  pose proof (row_text 3 "org_id" s eq_refl) as H. rewrite (row_field 3 "org_id" (JStr s)) in H; [|done|by cbn; rewrite E].
  cbn [obind] in H. rewrite H; [done|]. cbn. by rewrite E.
Qed.

Lemma row_decodes b : utf8_encode (dumps (key_json k)) = Some b -> Z.of_nat (length b) <= 16384 ->
  decode_bounded_json b 16384 4 64 16384 = Ok (JObj row).
Proof.
  intros Hb Hl. unfold dumps in Hb. rewrite row_json in Hb. apply decode_bounded_json_iff; [by eapply utf8_encode_bytes|lia|].
  destruct (text_row_sizes row row_texts) as [Hn Ht]. rewrite Hn, Ht.
  assert (Hlen : length row = 18%nat) by (rewrite row_perm; reflexivity). rewrite Hlen.
  split_and!; [done| |lia|lia|apply text_row_strings, row_texts].
  unfold parse_json. rewrite (decode_encode _ _ Hb). rewrite loads_render; [done|].
  apply text_row_readable; [apply row_texts|apply row_nodup].
Qed.

(** The next field is the [i]-th. *)
Ltac field i := apply obind_Ok; eexists; split; [apply (row_text i); reflexivity|].

Lemma encoded_key_decodes b : encode_qualified_rule_key k = Ok b -> decode_qualified_rule_key b = Ok k.
Proof.
  unfold encode_qualified_rule_key. rewrite key_ok. cbn [obind]. intros (c & Hc & Hl)%obind_Ok.
  destruct (Z.ltb_spec 16384 (Z.of_nat (length c))); [done|]. injection Hl as ->.
  unfold canonical_json in Hc. destruct (utf8_encode (dumps (key_json k))) as [b'|] eqn:Hb; [|done]. injection Hc as ->.
  unfold decode_qualified_rule_key. rewrite (row_decodes b Hb) by done. cbn [obind].
  assert (Hclosed : _closed (JObj row) key_fields = Ok row).
  { apply closed_Ok. split; [done|]. intros n. rewrite row_perm, key_items_names. done. }
  rewrite Hclosed. cbn [obind]. assert (Hcanon : canonical_json (JObj row) = Ok b).
  { unfold canonical_json, dumps in *. rewrite (canon_perm row (key_items k) row_nodup row_perm).
    change (key_json k) with (JObj (key_items k)) in Hb. by rewrite Hb. }
  rewrite Hcanon. cbn [obind]. rewrite bool_decide_true by done. cbn [refuse negb obind].
  field 0%nat. field 1%nat. field 2%nat. destruct row_org as (v & Hv & Ho).
  apply obind_Ok. exists v. split; [exact Hv|]. apply obind_Ok. exists (k_org_id k). split; [exact Ho|].
  field 4%nat. field 5%nat. field 6%nat. field 7%nat. field 8%nat. field 9%nat. field 10%nat. field 11%nat.
  field 12%nat. field 13%nat. field 14%nat. field 15%nat. field 16%nat. field 17%nat.
  assert (E : k = mkKey (k_registry_id k) (k_bundle_id k) (k_scope k) (k_org_id k) (k_S_version k) (k_accepted_content_digest k)
    (k_detector_id k) (k_detector_version k) (k_detector_raw_sha256 k) (k_rule_id k) (k_rule_artifact_id k)
    (k_rule_artifact_version k) (k_rule_raw_sha256 k) (k_model_artifact_id k) (k_model_artifact_version k)
    (k_model_raw_sha256 k) (k_semantic_descriptor_digest k) (k_schema k)) by (by destruct k).
  rewrite <-E, key_ok. done.
Qed.
End encoded.

(** The codec is exact in both directions: bytes decode to a key exactly
    when encoding the key yields those bytes.  In particular every key that
    passes its checks and fits the size bound survives the round trip, and a
    key has one accepted spelling. *)
Theorem rule_key_codec_exact b k : Forall is_byte b ->
  decode_qualified_rule_key b = Ok k <-> encode_qualified_rule_key k = Ok b.
Proof.
  intros Hb. split; [by apply decoded_key_encodes|]. intros H. apply encoded_key_decodes; [|exact H].
  unfold encode_qualified_rule_key in H. by apply obind_Ok in H as ([] & -> & _).
Qed.

Definition sample_uuid : pystr := str "0a1b2c3d-0000-4000-8000-00000000abcd".
Definition sample_digest : pystr := concat (repeat (str "0f") 32).
Definition sample_key : QualifiedRuleKey :=
  mkKey sample_uuid sample_uuid (str "customer") (Some sample_uuid) (str "1.20.3") sample_digest (str "sqli") (str "0.1.0")
    sample_digest (str "rule/sqli") (str "rules:main") (str "2.0.0") sample_digest (str "models") (str "10.0.1") sample_digest
    sample_digest QUALIFIED_RULE_SCHEMA.
Definition sample_bytes : pybytes := match encode_qualified_rule_key sample_key with Ok b => b | Raise _ => [] end.

Lemma sample_encodes : encode_qualified_rule_key sample_key = Ok sample_bytes.
Proof. vm_compute. reflexivity. Qed.

Lemma sample_is_bytes : Forall is_byte sample_bytes.
Proof.
  assert (H : forallb (fun b => (0 <=? b) && (b <? 256)) sample_bytes = true) by (vm_compute; reflexivity).
  rewrite forallb_forall in H. apply Forall_forall. intros b Hb. apply list_elem_of_In, H in Hb. unfold is_byte. lia.
Qed.

Lemma rule_key_codec_exact_witness : decode_qualified_rule_key sample_bytes = Ok sample_key.
Proof. exact (proj2 (rule_key_codec_exact sample_bytes sample_key sample_is_bytes) sample_encodes). Defined.

Lemma decode_bounded_json_exact_witness : exists v, decode_bounded_json sample_bytes 16384 4 64 16384 = Ok v /\ nesting v <= 4.
Proof.
  pose proof (row_decodes sample_key ltac:(vm_compute; reflexivity) sample_bytes ltac:(vm_compute; reflexivity)
    ltac:(vm_compute; discriminate)) as H.
  eexists. split; [exact H|]. exact (proj1 (proj2 (proj2 (proj1
    (decode_bounded_json_exact sample_bytes 16384 4 64 16384 _ sample_is_bytes ltac:(lia)) H)))).
Defined.
