(* ===== verification/RuleDocs.v ===== *)
(** * Rule and model documents ([analysis/ifds/bound_rules.py])

    The closed vocabulary of models, the validation of a model document and of
    a rule document, and [BoundRule], which binds both to their raw bytes. *)
From stdpp Require Import base tactics list strings.
From Stdlib Require Import ZArith Lia.
From S2P Require Import Prelude PyData PyDict Sha256 Ordering Json JsonParse Dsl BoundRules.

Open Scope Z_scope.
Open Scope py_scope.

(** ** Values *)

(** A literal dict. *)
Definition obj (items : list (string * json)) : json := JObj (map (fun nv => (str nv.1, nv.2)) items).
Definition jstr (s : string) : json := JStr (str s).

(** [a == b]: dicts compare as sets of items, booleans as integers. *)
Fixpoint py_eqb (a b : json) {struct a} : bool :=
  match a, b with
  | JNull, JNull => true
  | JBool x, JBool y => Bool.eqb x y
  | JBool x, JInt z | JInt z, JBool x => Z.b2z x =? z
  | JInt x, JInt y => x =? y
  | JStr s, JStr t => str_eqb s t
  | JList l, JList k =>
      (fix eqs (l k : list json) : bool :=
        match l, k with
        | [], [] => true
        | x :: l, y :: k => py_eqb x y && eqs l k
        | _, _ => false
        end) l k
  | JObj l, JObj k =>
      (Z.of_nat (length l) =? Z.of_nat (length k)) &&
      forallb (fun kv => match item_of k kv.1 with Ok w => py_eqb kv.2 w | Raise _ => false end) l
  | _, _ => false
  end.

Definition is_str (v : json) (s : pystr) : bool := match v with JStr t => str_eqb t s | _ => false end.

Definition _array (value : json) (maximum minimum : Z) : outcome (list json) :=
  match value with
  | JList l => if (minimum <=? Z.of_nat (length l)) && (Z.of_nat (length l) <=? maximum) then Ok l else err "invalid-array"
  | _ => err "invalid-array"
  end.

Definition _enum (value : json) (choices : list pystr) : outcome pystr :=
  match value with
  | JStr s => if bool_decide (s ∈ choices) then Ok s else err "invalid-enum"
  | _ => err "invalid-enum"
  end.

Definition _position (value : json) (result : bool) : outcome json :=
  row ⇐ _closed value ["kind"; "index"];
  kind ⇐ item_of row (str "kind");
  _ ⇐ refuse (negb (is_str kind (str (if result then "result" else "argument")))) "invalid-position";
  index ⇐ item_of row (str "index");
  match index with
  | JInt i => if (0 <=? i) && (i <=? (if result then 0 else 255)) then Ok (JObj row) else err "invalid-position"
  | _ => err "invalid-position"
  end.

Definition _argument (index : Z) : json := obj [("kind", jstr "argument"); ("index", JInt index)]%string.

(** ** Models *)

Definition _PYTHON_TARGET : pystr := str "scanipy-target-cpython311-posix/1".
Definition _JAVA_TARGET : pystr := str "scanipy-target-java21-jdbc/1".
Definition _TYPE_IDS : list pystr :=
  map str ["python.exact-str"; "python.int"; "java.lang.String"; "java.sql.Statement"; "java.sql.ResultSet"].
Definition PYTHON_JAVA : list pystr := map str ["python"; "java"].
Definition CONTEXTS : list pystr := map str ["posix-shell-command"; "sql-query-text"].

Definition MODEL_IDS : list pystr :=
  map str ["python.string-concat/1"; "python.os-system/1"; "java.string-concat/1"; "java.jdbc-execute-query/1"].

(** [s.startswith(prefix)] and [s.endswith(suffix)] *)
Definition starts_with (prefix s : pystr) : bool := match strip prefix s with Some _ => true | None => false end.
Definition ends_with (suffix s : pystr) : bool := starts_with (rev suffix) (rev s).

Definition model_checks (concat python : bool) : list (string * string) :=
  if concat then
    if python then [("python-exact-str-operands/1", "checked")]%string
    else [("java-standard-string-semantics/1", "assumed"); ("java-string-operands/1", "checked")]%string
  else if python then
    [("python-direct-os-import/1", "checked"); ("python-exact-str-argument/1", "checked");
     ("python-no-external-binding-mutation/1", "assumed"); ("python-no-local-binding-mutation/1", "checked");
     ("python-standard-os-implementation/1", "assumed"); ("terminal-selected-entry-call/1", "checked")]%string
  else
    [("java-declared-statement-receiver/1", "checked"); ("java-string-argument/1", "checked");
     ("java21-jdbc-contract/1", "assumed"); ("terminal-selected-entry-call/1", "checked")]%string.

(** The row of a model, by its two properties. *)
Definition model_row (model_id : pystr) (concat python : bool) : json :=
  let string_type := jstr (if python then "python.exact-str" else "java.lang.String") in
  let result := obj [("kind", jstr "result"); ("index", JInt 0)]%string in
  obj
   [("model_id", JStr model_id);
    ("language", jstr (if python then "python" else "java"));
    ("kind", jstr (if concat then "builtin-operator" else "external-call"));
    ("target_platform_profile", JStr (if python then _PYTHON_TARGET else _JAVA_TARGET));
    ("operation", jstr (if concat then "string-concat" else "external-api"));
    ("symbol", if concat then JNull
               else obj [("owner", jstr (if python then "os" else "java.sql.Statement"));
                         ("member", jstr (if python then "system" else "executeQuery"))]);
    ("signature", obj
      [("receiver", if concat || python then JNull else jstr "java.sql.Statement");
       ("parameters", JList (if concat then [string_type; string_type] else [string_type]));
       ("result", if concat then string_type else jstr (if python then "python.int" else "java.sql.ResultSet"))]);
    ("preconditions", JList (map (fun c => obj [("id", jstr c.1); ("evidence_kind", jstr c.2)]) (model_checks concat python)));
    ("normal", obj
      [("result", jstr "defined");
       ("effects", JList (if concat then [jstr "allocation"]
          else [jstr "external-io"; jstr (if python then "external-process" else "unknown-external-effect")]))]);
    ("exceptional", obj
      [("result", jstr "absent"); ("continuation", jstr "exit-unknown-exception");
       ("effects", JList [jstr (if concat then "resource-failure" else "unknown-external-effect")])]);
    ("transfer_authorization", obj
      [("sink_inputs", JList (if concat then []
          else [obj [("position", _argument 0); ("class_id", jstr "injection");
                     ("context_id", jstr (if python then "posix-shell-command" else "sql-query-text"))]]));
       ("propagation", JList (if concat then map (fun i => obj [("from", _argument i); ("to", result)]) [0; 1] else []));
       ("sanitization", JList [])])]%string.

Definition _initial_model (model_id : pystr) : outcome json :=
  if bool_decide (model_id ∈ MODEL_IDS) then
    Ok (model_row model_id (ends_with (str "string-concat/1") model_id) (starts_with (str "python.") model_id))
  else err "unsupported-model".

(** [sorted(set(l))] *)
Definition sorted_set (l : list pystr) : list pystr := py_sorted str_leb (remove_dups l).

Definition str_ltb (s t : pystr) : bool := negb (str_leb t s).

(** The local variables of the loop over the models: the models read, the
    profiles they use, and the last id. *)
Record model_state := mkModels {
  read_models : list (pystr * json);
  used_profiles : list pystr;
  previous : option pystr
}.

Definition read_model (st : model_state) (value : json) : outcome model_state :=
  match value with
  | JObj row =>
      match item_of row (str "model_id") with
      | Raise _ => err "invalid-model"
      | Ok id =>
          model_id ⇐ _identifier id;
          _ ⇐ refuse (match previous st with Some p => negb (str_ltb p model_id) | None => false end) "invalid-model-order";
          initial ⇐ _initial_model model_id;
          _ ⇐ refuse (negb (py_eqb value initial)) "unsupported-model";
          profile ⇐ item_of row (str "target_platform_profile");
          Ok (mkModels (read_models st ++ [(model_id, value)])
                (match profile with JStr p => p :: used_profiles st | _ => used_profiles st end) (Some model_id))
      end
  | _ => err "invalid-model"
  end.

Definition _models (value : json) (limits : ScalarLimits) : outcome (json * list (pystr * json)) :=
  root ⇐ _closed value ["schema"; "target_platform_profiles"; "models"];
  schema ⇐ item_of root (str "schema");
  _ ⇐ refuse (negb (is_str schema MODEL_SCHEMA)) "unknown-model-schema";
  declared ⇐ item_of root (str "target_platform_profiles");
  array ⇐ _array declared 2 1;
  profiles ⇐ mapO (fun p => _enum p [_PYTHON_TARGET; _JAVA_TARGET]) array;
  _ ⇐ refuse (negb (bool_decide (profiles = sorted_set profiles))) "invalid-profile-order";
  rows ⇐ item_of root (str "models");
  rows ⇐ _array rows (max_models limits) 1;
  st ⇐ foldO read_model (mkModels [] [] None) rows;
  _ ⇐ refuse (negb (bool_decide (sorted_set profiles = sorted_set (used_profiles st)))) "unbound-target-profile";
  Ok (JObj root, read_models st).

(** ** Rules *)

(** [unicodedata.category(c) == "Cc"] *)
Definition is_control (c : Z) : bool := ((0 <=? c) && (c <=? 31)) || ((127 <=? c) && (c <=? 159)).

Definition source_path_ok (limits : ScalarLimits) (path : pystr) : bool :=
  let components := split_on 47 path in
  (Z.of_nat (length components) <=? max_path_components limits) &&
  forallb (fun part => negb (bool_decide (part ∈ map str [""; "."; ".."]%string))) components &&
  negb (existsb (Z.eqb 92) path) && negb (existsb is_control path).

Definition check_name (v : json) : outcome pystr :=
  s ⇐ _checked_string v 128;
  if is_name s then Ok s else err "invalid-name".

Definition is_null (v : json) : bool := match v with JNull => true | _ => false end.

Definition _source_selector (value : json) (languages : list pystr) (limits : ScalarLimits) : outcome pystr :=
  row ⇐ _closed value ["kind"; "language"; "source_file"; "declaration"; "formal_index"; "parameter_types"];
  kind ⇐ item_of row (str "kind");
  _ ⇐ refuse (negb (is_str kind (str "entry_parameter"))) "unsupported-selector";
  lang ⇐ item_of row (str "language");
  language ⇐ _enum lang PYTHON_JAVA;
  _ ⇐ refuse (negb (bool_decide (language ∈ languages))) "selector-language";
  file ⇐ item_of row (str "source_file");
  path ⇐ _checked_string file (max_path_bytes limits);
  _ ⇐ refuse (negb (source_path_ok limits path)) "invalid-source-path";
  declaration ⇐ item_of row (str "declaration");
  names ⇐ _array declaration 32 1;
  _ ⇐ all_ok check_name names;
  index ⇐ item_of row (str "formal_index");
  _ ⇐ refuse (negb match index with JInt i => (0 <=? i) && (i <=? 255) | _ => false end) "invalid-formal-index";
  types ⇐ item_of row (str "parameter_types");
  if str_eqb language (str "python") then
    _ ⇐ refuse (negb (Z.of_nat (length names) =? 1) || negb (is_null types) || negb (ends_with (str ".py") path))
          "unsupported-entry-selector";
    Ok language
  else
    parameters ⇐ _array types 256 0;
    _ ⇐ all_ok (fun p => _enum p _TYPE_IDS) parameters;
    Ok language.

(** The local variables of the loop over the clauses. *)
Record rule_state := mkRule {
  source_count : Z;
  sink_count : Z;
  contexts : list pystr
}.

Section rule.
Variables (models : list (pystr * json)) (class_id language : pystr) (languages : list pystr) (limits : ScalarLimits).

(** A propagate, sink or sanitize clause: its selector, then the transfer it
    asks for against what the model authorises. *)
Definition model_clause (st : rule_state) (primitive : pystr) (clause : list (pystr * json)) : outcome rule_state :=
  let propagate := str_eqb primitive (str "propagate") in
  _ ⇐ _closed (JObj clause)
        (["primitive"; "selector"] ++ (if propagate then ["from"; "to"] else ["position"; "context_id"]));
  sel ⇐ item_of clause (str "selector");
  selector ⇐ _closed sel ["kind"; "language"; "model_id"]%string;
  kind ⇐ item_of selector (str "kind");
  _ ⇐ refuse (negb (is_str kind (str "model"))) "unsupported-selector";
  lang ⇐ item_of selector (str "language");
  selected_language ⇐ _enum lang PYTHON_JAVA;
  id ⇐ item_of selector (str "model_id");
  model_id ⇐ _identifier id;
  match item_of models model_id with
  | Raise _ => err "missing-model"
  | Ok model =>
      fields ⇐ match model with JObj fields => Ok fields | _ => Raise TypeError end;
      model_language ⇐ item_of fields (str "language");
      _ ⇐ refuse (negb (bool_decide (selected_language ∈ languages)) || negb (is_str model_language selected_language))
            "selector-language";
      auth ⇐ item_of fields (str "transfer_authorization");
      authorization ⇐ match auth with JObj fields => Ok fields | _ => Raise TypeError end;
      if propagate then
        from ⇐ item_of clause (str "from");
        source ⇐ _position from false;
        to ⇐ item_of clause (str "to");
        target ⇐ _position to true;
        propagation ⇐ item_of authorization (str "propagation");
        allowed ⇐ _array propagation 256 0;
        _ ⇐ refuse (negb (existsb (py_eqb (obj [("from", source); ("to", target)]%string)) allowed)) "unauthorized-transfer";
        Ok st
      else
        let is_sink := str_eqb primitive (str "sink") in
        ctx ⇐ item_of clause (str "context_id");
        context ⇐ _enum ctx CONTEXTS;
        pos ⇐ item_of clause (str "position");
        position ⇐ _position pos (str_eqb primitive (str "sanitize"));
        rows ⇐ item_of authorization (str (if is_sink then "sink_inputs" else "sanitization"));
        allowed ⇐ _array rows 256 0;
        let st' :=
          if str_eqb selected_language language
          then mkRule (source_count st) (sink_count st + Z.b2z is_sink) (context :: contexts st)
          else st in
        _ ⇐ refuse (negb (existsb (py_eqb (obj
               [("position", position); ("class_id", JStr class_id); ("context_id", JStr context)]%string)) allowed))
              "unauthorized-transfer";
        Ok st'
  end.

Definition PRIMITIVES : list pystr := map str ["source"; "sink"; "propagate"; "sanitize"].

Definition read_clause (st : rule_state) (value : json) : outcome rule_state :=
  match value with
  | JObj clause =>
      primitive ⇐ _enum (match item_of clause (str "primitive") with Ok v => v | Raise _ => JNull end) PRIMITIVES;
      if str_eqb primitive (str "source") then
        _ ⇐ _closed value ["primitive"; "selector"]%string;
        selector ⇐ item_of clause (str "selector");
        selected ⇐ _source_selector selector languages limits;
        Ok (mkRule (source_count st + Z.b2z (str_eqb selected language)) (sink_count st) (contexts st))
      else model_clause st primitive clause
  | _ => err "invalid-clause"
  end.
End rule.

Definition expected_context (language : pystr) : pystr :=
  str (if str_eqb language (str "python") then "posix-shell-command" else "sql-query-text").

Definition _rule (value : json) (models : list (pystr * json)) (key : QualifiedRuleKey) (language : pystr)
    (limits : ScalarLimits) : outcome json :=
  root ⇐ _closed value ["schema"; "semantics"; "spec_id"; "class_id"; "engine"; "languages"; "projection_profile";
                        "model_artifact_digest"; "clauses"];
  schema ⇐ item_of root (str "schema");
  semantics ⇐ item_of root (str "semantics");
  _ ⇐ refuse (negb (is_str schema RULE_SCHEMA) || negb (is_str semantics SCALAR_SEMANTICS)) "unknown-rule-semantics";
  engine ⇐ item_of root (str "engine");
  profile ⇐ item_of root (str "projection_profile");
  _ ⇐ refuse (negb (is_str engine (str "ifds")) || negb (is_str profile PROJECTION_PROFILE)) "unsupported-profile";
  spec ⇐ item_of root (str "spec_id");
  spec_id ⇐ _identifier spec;
  _ ⇐ refuse (negb (str_eqb spec_id (k_rule_id key))) "rule-content-binding";
  artifact ⇐ item_of root (str "model_artifact_digest");
  digest ⇐ _digest artifact;
  _ ⇐ refuse (negb (str_eqb digest (k_model_raw_sha256 key))) "rule-content-binding";
  class ⇐ item_of root (str "class_id");
  class_id ⇐ _enum class CLASS_NAMES;
  langs ⇐ item_of root (str "languages");
  array ⇐ _array langs 2 1;
  languages ⇐ mapO (fun item => _enum item PYTHON_JAVA) array;
  _ ⇐ refuse (negb (bool_decide (NoDup languages)) || negb (bool_decide (language ∈ languages))) "invalid-languages";
  rows ⇐ item_of root (str "clauses");
  clauses ⇐ _array rows (max_clauses limits) 1;
  st ⇐ foldO (read_clause models class_id language languages limits) (mkRule 0 0 []) clauses;
  let contexts := remove_dups (contexts st) in
  _ ⇐ refuse ((source_count st =? 0) || (sink_count st =? 0) || negb (Z.of_nat (length contexts) =? 1)) "incomplete-rule";
  _ ⇐ refuse (negb (str_eqb class_id (str "injection")) || negb (bool_decide (contexts = [expected_context language])))
        "unsupported-class-context";
  Ok (JObj root).

Definition visit_booleans (item : json) : outcome (list json) :=
  match item with
  | JBool _ => err "unsupported-boolean"
  | JObj items => Ok (map snd items)
  | JList l => Ok l
  | _ => Ok []
  end.

Definition _rule_json (data : pybytes) (maximum : Z) (limits : ScalarLimits) : outcome json :=
  value ⇐ decode_bounded_json data maximum (max_rule_json_depth limits) (max_rule_json_values limits)
            (max_rule_string_bytes limits);
  _ ⇐ pending_loop visit_booleans (S (jsize value)) [value];
  Ok value.

(** ** [BoundRule] *)

Record BoundRule := mkBoundRule {
  br_key : QualifiedRuleKey;
  br_rule_bytes : pybytes;
  br_model_bytes : pybytes;
  br_language : pystr;
  br_rule_document : json;
  br_model_document : json
}.

(** [freeze_value]: a dict becomes its entries in key order; a frozen string
    must be encodable. *)
Fixpoint freeze_value (value : json) : outcome json :=
  match value with
  | JStr s => match utf8_encode s with Some _ => Ok value | None => Raise (ObservedGraphInputError "invalid-utf8") end
  | JList l =>
      l ⇐ (fix freeze (l : list json) : outcome (list json) :=
             match l with [] => Ok [] | x :: l => y ⇐ freeze_value x; k ⇐ freeze l; Ok (y :: k) end) l;
      Ok (JList l)
  | JObj items =>
      l ⇐ (fix freeze (l : list (pystr * json)) : outcome (list (pystr * json)) :=
             match l with
             | [] => Ok []
             | kv :: l =>
                 y ⇐ freeze_value kv.2;
                 k ⇐ freeze l;
                 match utf8_encode kv.1 with
                 | Some _ => Ok ((kv.1, y) :: k)
                 | None => Raise (ObservedGraphInputError "invalid-utf8")
                 end
             end) items;
      Ok (JObj (py_sorted key_leb l))
  | _ => Ok value
  end.

(** [BoundRule.__post_init__] *)
Definition decode_bound_rule (rule_bytes model_bytes : pybytes) (key : QualifiedRuleKey) (language : pystr)
    (limits : ScalarLimits) : outcome BoundRule :=
  checked ⇐ checked_limits limits;
  _ ⇐ check_key key;
  _ ⇐ _enum (JStr language) PYTHON_JAVA;
  let size b := Z.of_nat (length b) in
  _ ⇐ refuse ((max_rule_bytes checked <? size rule_bytes) || (max_model_bytes checked <? size model_bytes) ||
              (max_accepted_bytes checked <? size rule_bytes + size model_bytes)) "json-byte-limit";
  _ ⇐ refuse (negb (str_eqb (hex (sha256 rule_bytes)) (k_rule_raw_sha256 key)) ||
              negb (str_eqb (hex (sha256 model_bytes)) (k_model_raw_sha256 key))) "raw-content-binding";
  model_json ⇐ _rule_json model_bytes (max_model_bytes checked) checked;
  md ⇐ _models model_json checked;
  rule_json ⇐ _rule_json rule_bytes (max_rule_bytes checked) checked;
  rule_document ⇐ _rule rule_json md.2 key language checked;
  frozen_rule ⇐ freeze_value rule_document;
  frozen_model ⇐ freeze_value md.1;
  Ok (mkBoundRule key rule_bytes model_bytes language frozen_rule frozen_model).
