(* ===== verification/RuleDocsSpec.v ===== *)
(** * What a [BoundRule] guarantees

    Construction fails only with the closed error codes, and an accepted rule
    is bound to its bytes and asks only for transfers its models authorise. *)
From stdpp Require Import base tactics list strings.
From Stdlib Require Import ZArith Lia.
From S2P Require Import Prelude PyData PyDict Sha256 Ordering Json JsonParse JsonSpec Dsl BoundRules BoundJson RuleKeySpec RuleDocs.

Open Scope Z_scope.
Open Scope py_scope.

(** ** Documents with unique keys *)

Fixpoint unique_keys (v : json) : Prop :=
  match v with
  | JList l => (fix all l := match l with [] => True | x :: l => unique_keys x /\ all l end) l
  | JObj items =>
      NoDup items.*1 /\ (fix all l := match l with [] => True | kv :: l => unique_keys kv.2 /\ all l end) items
  | _ => True
  end.

Lemma unique_keys_list l : unique_keys (JList l) <-> Forall unique_keys l.
Proof. cbn. induction l as [|x l IH]; [by rewrite Forall_nil|]. rewrite Forall_cons, <-IH. done. Qed.

Lemma unique_keys_obj l : unique_keys (JObj l) <-> NoDup l.*1 /\ Forall (fun kv => unique_keys kv.2) l.
Proof.
  cbn. f_equiv. induction l as [|x l IH]; [by rewrite Forall_nil|]. rewrite Forall_cons, <-IH. done.
Qed.

Lemma spells_unique :
  (forall v p, spells _integer _invalid_number _invalid_number _unique_object v p -> unique_keys v) /\
  (forall l p, elements _integer _invalid_number _invalid_number _unique_object l p -> Forall unique_keys l) /\
  (forall l p, members _integer _invalid_number _invalid_number _unique_object l p -> Forall (fun kv => unique_keys kv.2) l) /\
  (forall k v p, member _integer _invalid_number _invalid_number _unique_object k v p -> unique_keys v).
Proof.
  apply spells_all; intros; try done.
  - match goal with H : atom_of _ _ _ _ _ |- _ => apply atom_of_measures in H as (_ & Ht & Hn) end.
    destruct v as [| | | |l|l]; try done; exfalso; cbn in Hn.
    + pose proof (max_nesting_pos l). unfold max_nesting in *. lia.
    + pose proof (max_nesting_pos l.*2) as H. unfold max_nesting in H. rewrite map_map in H. lia.
  - by apply unique_keys_list.
  - match goal with H : _unique_object _ = Ok _ |- _ => apply unique_object_Ok in H as [-> ?] end. by apply unique_keys_obj.
  - match goal with H : _unique_object _ = Ok _ |- _ => apply unique_object_Ok in H as [-> ?] end. by apply unique_keys_obj.
  - by constructor.
  - by constructor.
  - by constructor.
  - by constructor.
Qed.

Lemma parsed_unique_keys data v : parse_json data = Ok v -> unique_keys v.
Proof.
  unfold parse_json. destruct (utf8_decode data) as [text|]; [|done].
  destruct (loads _ _ _ _ text) as [v'|[]] eqn:E; try done. intros [= ->].
  apply loads_sound in E as (w & p & w' & _ & _ & _ & Hp). by apply spells_unique in Hp.
Qed.

Lemma item_of_present items name : name ∈ items.*1 -> exists v, item_of items name = Ok v.
Proof.
  induction items as [|[k w] items IH]; cbn; [by intros ?%elem_of_nil|]. unfold str_eqb. case_bool_decide; [eauto|].
  intros [->|H']%elem_of_cons; [done|auto].
Qed.

(** ** Errors *)

(** One of the closed failure codes. *)
Definition coded (e : exc) : Prop := exists code, e = BoundRuleError code.
Notation safe := (raises coded).

Lemma safe_err {A} code : safe (err code : outcome A).
Proof. by exists code. Qed.
Lemma safe_Ok {A} (a : A) : safe (Ok a).
Proof. done. Qed.
Lemma safe_refuse b code : safe (refuse b code).
Proof. unfold refuse. destruct b; [apply safe_err|done]. Qed.
#[local] Hint Resolve @safe_err safe_refuse @safe_Ok : coded.

(** Splits a computation into its steps. *)
Ltac step :=
  match goal with
  | |- safe (obind _ _) => apply raises_bind; [|intros ? ?]
  | |- safe (if ?b then _ else _) => destruct b eqn:?
  | |- safe (match ?x with _ => _ end) => destruct x eqn:?
  | |- _ => progress auto with coded
  end.
Ltac steps := repeat step.

Lemma safe_checked_string v n : safe (_checked_string v n).
Proof. unfold _checked_string. steps. Qed.
#[local] Hint Resolve safe_checked_string : coded.

Lemma safe_identifier v : safe (_identifier v).
Proof. unfold _identifier. steps. Qed.
Lemma safe_digest v : safe (_digest v).
Proof. unfold _digest. steps. Qed.
Lemma safe_version v : safe (_version v).
Proof. unfold _version. steps. Qed.
Lemma safe_uuid v : safe (_uuid v).
Proof. unfold _uuid. steps. Qed.
Lemma safe_array v n m : safe (_array v n m).
Proof. unfold _array. steps. Qed.
Lemma safe_enum v l : safe (_enum v l).
Proof. unfold _enum. steps. Qed.
Lemma safe_closed v l : safe (_closed v l).
Proof. unfold _closed. steps. Qed.
Lemma safe_name v : safe (check_name v).
Proof. unfold check_name. steps. Qed.
#[local] Hint Resolve safe_identifier safe_digest safe_version safe_uuid safe_array safe_enum safe_closed safe_name : coded.

Lemma safe_all_ok {A} (f : A -> outcome pystr) l : (forall x, safe (f x)) -> safe (all_ok f l).
Proof. intros Hf. induction l as [|x l IH]; cbn [all_ok]; [done|]. by apply raises_bind. Qed.
Lemma safe_mapO {A B} (f : A -> outcome B) l : (forall x, safe (f x)) -> safe (mapO f l).
Proof. intros Hf. induction l as [|x l IH]; cbn [mapO]; steps. Qed.
#[local] Hint Resolve @safe_all_ok @safe_mapO : coded.

(** A field of a closed dict. *)
Lemma safe_field v names row n : _closed v names = Ok row -> bool_decide (n ∈ names) = true -> safe (item_of row (str n)).
Proof.
  intros [-> H]%closed_Ok Hn%bool_decide_eq_true. destruct (item_of_present row (str n)) as (w & E).
  { apply H. by apply (list_elem_of_fmap_2 str). }
  by rewrite E.
Qed.
#[local] Hint Extern 1 (safe (item_of _ (str _))) => (eapply safe_field; [eassumption|reflexivity]) : coded.

Lemma safe_position v b : safe (_position v b).
Proof. unfold _position. steps. Qed.
#[local] Hint Resolve safe_position : coded.

Lemma safe_check_key k : safe (check_key k).
Proof. unfold check_key. steps. Qed.
#[local] Hint Resolve safe_check_key : coded.

Lemma safe_selector v languages limits : safe (_source_selector v languages limits).
Proof. unfold _source_selector. steps. Qed.
#[local] Hint Resolve safe_selector : coded.

(** The reader. *)
Lemma safe_preflight d n m data : safe (_preflight_json d n m data).
Proof.
  unfold _preflight_json. apply raises_bind; [|done]. generalize (mkScan 0 0 0 false false false).
  induction data as [|b data IH]; intros st; cbn [foldO]; [done|]. apply raises_bind; [|auto].
  unfold preflight_byte, counted. steps.
Qed.

Lemma safe_parse data : safe (parse_json data).
Proof.
  unfold parse_json. destruct (utf8_decode data) as [text|]; [|apply safe_err].
  pose proof (loads_fuel _integer _invalid_number _invalid_number _unique_object) as Hf.
  pose proof (loads_raises _integer _invalid_number _invalid_number _unique_object
    (fun e => e = JSONDecodeError \/ coded e \/ e = OutOfFuel)) as Hr.
  assert (Hint : forall t, safe (_integer t)) by (intros t; unfold _integer; steps).
  assert (Hhook : forall l, safe (_unique_object l)) by (intros l; unfold _unique_object; steps).
  assert (Hs : forall A (m : outcome A), safe m -> raises (fun e => e = JSONDecodeError \/ coded e \/ e = OutOfFuel) m /\ fuel_ok m).
  { intros A [a|e]; [done|]. intros (c & ->). split; [right; left; by exists c|done]. }
  specialize (Hr ltac:(by left) ltac:(by right; right)).
  assert (Hr' : raises (fun e => e = JSONDecodeError \/ coded e \/ e = OutOfFuel)
    (loads _integer _invalid_number _invalid_number _unique_object text)).
  { apply Hr; intros; apply Hs; auto; apply safe_err. }
  assert (Hf' : fuel_ok (loads _integer _invalid_number _invalid_number _unique_object text)).
  { apply Hf; intros; apply Hs; auto; apply safe_err. }
  destruct (loads _ _ _ _ text) as [v|e]; [done|]. destruct Hr' as [->|[(c & ->)| ->]]; [apply safe_err|by exists c|done].
Qed.
#[local] Hint Resolve safe_preflight safe_parse : coded.

Lemma safe_pending visit fuel : forall stack,
  (forall v, safe (visit v)) -> (forall v added, visit v = Ok added -> (sum_list (map jsize added) < jsize v)%nat) ->
  (sum_list (map jsize stack) < fuel)%nat -> safe (pending_loop visit fuel stack).
Proof.
  induction fuel as [|fuel IH]; intros stack Hs Hv Hf; [lia|]. cbn [pending_loop]. destruct stack as [|v stack]; [done|].
  cbn [map sum_list_with id] in Hf. apply raises_bind; [done|]. intros added E. apply IH; [done..|].
  apply Hv in E. rewrite map_app, sum_list_with_app. rewrite <-(Permutation_rev added). unfold id in *. lia.
Qed.

(** ** Reading and freezing *)

Lemma safe_decode data mb md mv ms : safe (decode_bounded_json data mb md mv ms).
Proof.
  unfold decode_bounded_json. steps. apply safe_pending.
  - intros v. unfold visit_strings. steps.
  - intros v added. apply visit_strings_Ok.
  - cbn. unfold id. lia.
Qed.
#[local] Hint Resolve safe_decode : coded.

Lemma visit_booleans_size v added : visit_booleans v = Ok added -> (sum_list (map jsize added) < jsize v)%nat.
Proof. destruct v; cbn; intros [= <-]; cbn; try lia. rewrite map_map. lia. Qed.

Lemma safe_rule_json data maximum limits : safe (_rule_json data maximum limits).
Proof.
  unfold _rule_json. steps. apply safe_pending; [|apply visit_booleans_size|cbn; unfold id; lia].
  intros v. unfold visit_booleans. steps.
Qed.
#[local] Hint Resolve safe_rule_json : coded.

Lemma freeze_canon n v : strings_ok n v -> freeze_value v = Ok (canon v).
Proof.
  induction v as [| | |s|l IH|l IH] using json_nested_ind; try done.
  - cbn. intros (_ & _ & _ & b & E & _)%checked_string_Ok. by rewrite E.
  - rewrite strings_ok_list. intros Hs. cbn [freeze_value canon].
    match goal with |- context [?f l] => assert (E : f l = Ok (map canon l)) end.
    { induction Hs as [|x l Hx Hs IHl]; [done|]. apply Forall_cons in IH as [IHx IH]. cbn. rewrite (IHx Hx). cbn.
      by rewrite (IHl IH). }
    by rewrite E.
  - rewrite strings_ok_obj. intros Hs. cbn [freeze_value canon].
    match goal with |- context [?f l] => assert (E : f l = Ok (map (fun kv => (kv.1, canon kv.2)) l)) end.
    { induction Hs as [|[k x] l [Hk Hx] Hs IHl]; [done|]. apply Forall_cons in IH as [IHx IH]. cbn in *. rewrite (IHx Hx). cbn.
      rewrite (IHl IH). cbn. apply checked_string_Ok in Hk as (_ & _ & _ & b & Eb & _). by rewrite Eb. }
    by rewrite E.
Qed.

(** ** Models *)

Lemma item_of_in items n v : item_of items n = Ok v -> (n, v) ∈ items.
Proof.
  induction items as [|[k w] items IH]; cbn; [done|]. unfold str_eqb. case_bool_decide as E.
  - intros [= ->]. subst. left.
  - intros H. right. auto.
Qed.

(** Equal dicts have the same fields, up to equality of the values. *)
Lemma py_eqb_fields l k n w0 : NoDup l.*1 -> py_eqb (JObj l) (JObj k) = true -> item_of k n = Ok w0 ->
  exists w, item_of l n = Ok w /\ py_eqb w w0 = true.
Proof.
  intros Hnd H Hn. cbn in H. apply andb_true_iff in H as [Hlen H]. rewrite forallb_forall in H.
  assert (Hf : forall p, p ∈ l -> exists w', item_of k p.1 = Ok w' /\ py_eqb p.2 w' = true).
  { intros p Hp%list_elem_of_In. specialize (H p Hp). destruct (item_of k p.1); [eauto|done]. }
  assert (Hp : l.*1 ≡ₚ k.*1).
  { apply submseteq_length_Permutation; [|rewrite !length_fmap; lia]. apply NoDup_submseteq; [done|].
    intros m (p & -> & Hp)%list_elem_of_fmap. destruct (Hf p Hp) as (w' & E & _). apply item_of_in in E.
    change p.1 with (p.1, w').1. by apply list_elem_of_fmap_2. }
  destruct (item_of_present l n) as (w & Ew).
  { rewrite Hp. apply item_of_in in Hn. change n with (n, w0).1. by apply list_elem_of_fmap_2. }
  exists w. split; [done|]. apply item_of_in in Ew. destruct (Hf _ Ew) as (w' & E & E'). cbn in *. congruence.
Qed.

Lemma py_eqb_dict v k : py_eqb v (JObj k) = true -> exists l, v = JObj l.
Proof. destruct v; try done. eauto. Qed.

(** A model read from the document is the built-in one of its id. *)
Definition model_ok (entry : pystr * json) : Prop :=
  unique_keys entry.2 /\ exists initial, _initial_model entry.1 = Ok initial /\ py_eqb entry.2 initial = true.

Lemma initial_row id initial : _initial_model id = Ok initial -> exists concat python, initial = model_row id concat python.
Proof. unfold _initial_model. destruct (bool_decide _); [intros [= <-]; eauto|done]. Qed.

Definition is_concat (id : pystr) : bool := ends_with (str "string-concat/1") id.
Definition is_python (id : pystr) : bool := starts_with (str "python.") id.

Lemma model_field id value n w0 : model_ok (id, value) ->
  (match model_row id (is_concat id) (is_python id) with JObj k => item_of k n | _ => Raise KeyError end) = Ok w0 ->
  exists fields w, value = JObj fields /\ item_of fields n = Ok w /\ py_eqb w w0 = true /\ unique_keys w.
Proof.
  intros (Hu & initial & Hi & E) Hw. cbn [fst snd] in *. unfold _initial_model in Hi. destruct (bool_decide _); [|done].
  injection Hi as <-. fold (is_concat id) (is_python id) in E. unfold model_row, obj in *.
  destruct (py_eqb_dict _ _ E) as (fields & ->). apply unique_keys_obj in Hu as [Hnd Hu].
  destruct (py_eqb_fields _ _ n w0 Hnd E Hw) as (w & Ew & Eq). exists fields, w. split_and!; try done.
  rewrite Forall_forall in Hu. apply item_of_in in Ew. apply (Hu _ Ew).
Qed.

Lemma read_model_spec st value : unique_keys value ->
  safe (read_model st value) /\
  forall st', read_model st value = Ok st' -> Forall model_ok (read_models st) -> Forall model_ok (read_models st').
Proof.
  intros Hu. unfold read_model. destruct value as [| | | | |row]; try (split; [apply safe_err|done]).
  destruct (item_of row (str "model_id")) as [id|e]; [|split; [apply safe_err|done]].
  assert (Hmodel : forall model_id initial, _initial_model model_id = Ok initial -> negb (py_eqb (JObj row) initial) = false ->
    model_ok (model_id, JObj row)).
  { intros model_id initial Hi He%negb_false_iff. split; [done|]. by exists initial. }
  split.
  - apply raises_bind; [apply safe_identifier|]. intros model_id _. apply raises_bind; [apply safe_refuse|]. intros [] _.
    apply raises_bind; [unfold _initial_model; steps|]. intros initial Hi. apply raises_bind; [apply safe_refuse|].
    intros [] Hm%refuse_Ok. apply raises_bind; [|done]. destruct (model_field model_id (JObj row) (str "target_platform_profile")
      (JStr (if is_python model_id then _PYTHON_TARGET else _JAVA_TARGET))) as (fields & w & [= <-] & -> & _); [by eapply Hmodel| |done].
    by destruct (is_concat model_id), (is_python model_id).
  - intros st' (model_id & _ & H)%obind_Ok. apply obind_Ok in H as ([] & _ & H). apply obind_Ok in H as (initial & Hi & H).
    apply obind_Ok in H as ([] & Hm%refuse_Ok & H). apply obind_Ok in H as (profile & _ & [= <-]). cbn. intros Hst.
    apply Forall_app. split; [done|]. constructor; [by eapply Hmodel|constructor].
Qed.

Lemma unique_field items n v : unique_keys (JObj items) -> item_of items n = Ok v -> unique_keys v.
Proof. intros [_ H]%unique_keys_obj Hv%item_of_in. rewrite Forall_forall in H. apply (H _ Hv). Qed.

Lemma array_Ok v n m l : _array v n m = Ok l -> v = JList l.
Proof. unfold _array, err. destruct v; try done. destruct (_ && _); [|done]. by intros [= ->]. Qed.

Lemma models_spec value limits : unique_keys value -> safe (_models value limits) /\
  forall root models, _models value limits = Ok (root, models) -> root = value /\ Forall model_ok models.
Proof.
  intros Hu. assert (Hfold : forall rows st, Forall unique_keys rows -> safe (foldO read_model st rows) /\
    forall st', foldO read_model st rows = Ok st' -> Forall model_ok (read_models st) -> Forall model_ok (read_models st')).
  { intros rows. induction rows as [|row rows IH]; intros st Hr; cbn [foldO]; [split; [done|by intros st' [= <-]]|].
    apply Forall_cons in Hr as [Hrow Hr]. destruct (read_model_spec st row Hrow) as [H1 H2]. split.
    - apply raises_bind; [done|]. intros st1 _. by apply IH.
    - intros st' (st1 & E1 & E2)%obind_Ok Hst. apply (proj2 (IH st1 Hr) st' E2). by apply H2. }
  assert (Hrows : forall root rows_v rows n, value = JObj root -> item_of root (str "models") = Ok rows_v ->
    _array rows_v n 1 = Ok rows -> Forall unique_keys rows).
  { intros root rows_v rows n -> Hi ->%array_Ok. apply unique_keys_list. by eapply unique_field. }
  unfold _models. split.
  - steps. apply Hfold. eapply Hrows; [|eassumption..]. by eapply closed_Ok.
  - intros root models (root' & Hc & H)%obind_Ok. pose proof Hc as [-> _]%closed_Ok.
    do 8 (apply obind_Ok in H as (? & ? & H)).
    apply obind_Ok in H as (st & Hst & H). apply obind_Ok in H as ([] & _ & [= <- <-]). split; [done|].
    eapply Hfold; [|exact Hst|by apply Forall_nil]. eapply Hrows; [done|eassumption..].
Qed.

(** ** Equality of documents *)

Lemma py_eqb_field l k n v : py_eqb (JObj l) (JObj k) = true -> item_of l n = Ok v ->
  exists w, item_of k n = Ok w /\ py_eqb v w = true.
Proof.
  cbn. intros [_ H]%andb_true_iff Hv%item_of_in%list_elem_of_In. rewrite forallb_forall in H. specialize (H _ Hv). cbn in H.
  destruct (item_of k n); [eauto|done].
Qed.

Lemma py_eqb_str v s : py_eqb v (JStr s) = true -> v = JStr s.
Proof. destruct v; cbn; try done. unfold str_eqb. by intros ->%bool_decide_eq_true. Qed.

Lemma py_eqb_int i j : py_eqb (JInt i) (JInt j) = true -> i = j.
Proof. cbn. lia. Qed.

Lemma py_eqb_list v k : py_eqb v (JList k) = true -> exists l, v = JList l /\ Forall2 (fun x y => py_eqb x y = true) l k.
Proof.
  destruct v as [| | | |l|]; try done. intros H. exists l. split; [done|]. revert k H. cbn.
  induction l as [|x l IH]; intros [|y k]; try done. intros [H1 H2]%andb_true_iff. constructor; auto.
Qed.

Lemma py_eqb_trans b : forall a c, py_eqb a b = true -> py_eqb b c = true -> py_eqb a c = true.
Proof.
  induction b as [|b|z|s|k IH|k IH] using json_nested_ind; intros a c.
  - by destruct a.
  - destruct a as [|x|x| | |], c as [|y|y| | |]; try done; destruct b; try destruct x; try destruct y; cbn [py_eqb Bool.eqb Z.b2z]; try done; lia.
  - destruct a as [|x|x| | |], c as [|y|y| | |]; try done; try destruct x; try destruct y; cbn [py_eqb Bool.eqb Z.b2z]; try done; lia.
  - intros ->%py_eqb_str. done.
  - intros (l & -> & H)%py_eqb_list. destruct c as [| | | |m|]; try done. revert m IH. cbn.
    induction H as [|x y l k Hxy H IHl]; intros [|z m] IH; try done. apply Forall_cons in IH as [IHx IH].
    intros [H1 H2]%andb_true_iff. rewrite (IHx _ _ Hxy H1). cbn. by apply IHl.
  - intros Ha. destruct (py_eqb_dict _ _ Ha) as (l & ->). destruct c as [| | | | |m]; try done. intros Hc.
    pose proof Ha as [Hl1 Hal]%andb_true_iff. pose proof Hc as [Hl2 _]%andb_true_iff.
    cbn. apply andb_true_iff. split; [lia|]. apply forallb_forall. intros kv Hkv.
    rewrite forallb_forall in Hal. specialize (Hal kv Hkv).
    destruct (item_of k kv.1) as [w|] eqn:Ew; [|done]. destruct (py_eqb_field _ _ _ _ Hc Ew) as (w' & -> & Hw').
    apply item_of_in in Ew. rewrite Forall_forall in IH. eapply (IH _ Ew); eauto.
Qed.

(** What a clause reads of a model. *)
Definition granted (id : pystr) (n : string) : list json :=
  match model_row id (is_concat id) (is_python id) with
  | JObj k =>
      match item_of k (str "transfer_authorization") with
      | Ok (JObj a) => match item_of a (str n) with Ok (JList l) => l | _ => [] end
      | _ => []
      end
  | _ => []
  end.

Definition model_language (id : pystr) : pystr := str (if is_python id then "python" else "java").

Lemma model_view id value : model_ok (id, value) ->
  exists fields auth, value = JObj fields /\ item_of fields (str "language") = Ok (JStr (model_language id)) /\
    item_of fields (str "transfer_authorization") = Ok (JObj auth) /\
    forall n, n ∈ ["sink_inputs"; "propagation"; "sanitization"]%string ->
      exists l, item_of auth (str n) = Ok (JList l) /\ Forall2 (fun x y => py_eqb x y = true) l (granted id n).
Proof.
  intros Hm.
  destruct (model_field id value (str "language") (JStr (model_language id)) Hm) as (fields & w & -> & E & ->%py_eqb_str & _).
  { unfold model_language. by destruct (is_concat id), (is_python id). }
  destruct (item_of (match model_row id (is_concat id) (is_python id) with JObj k => k | _ => [] end)
    (str "transfer_authorization")) as [w0|] eqn:E0; [|by destruct (is_concat id), (is_python id)].
  destruct (model_field id (JObj fields) (str "transfer_authorization") w0 Hm) as (? & w & [= <-] & Ea & Eq & Hu).
  { by destruct (is_concat id), (is_python id). }
  unfold granted.
  assert (exists k0, w0 = JObj k0 /\ forall n, n ∈ ["sink_inputs"; "propagation"; "sanitization"]%string ->
    item_of k0 (str n) = Ok (JList (granted id n))) as (k0 & -> & Hk).
  { unfold granted. destruct (is_concat id), (is_python id); cbn in E0; injection E0 as <-; eexists; (split; [reflexivity|]);
      intros n Hn; repeat (apply elem_of_cons in Hn as [->|Hn]; [reflexivity|]); by apply elem_of_nil in Hn. }
  destruct (py_eqb_dict _ _ Eq) as (auth & ->). exists fields, auth. split_and!; try done. intros n Hn.
  apply unique_keys_obj in Hu as [Hnd _]. destruct (py_eqb_fields _ _ (str n) _ Hnd Eq (Hk n Hn)) as (v & Ev & Hv).
  apply py_eqb_list in Hv as (l & -> & Hl). by exists l.
Qed.

(** ** Clauses and rules *)

Lemma safe_clause_field clause names row n :
  _closed (JObj clause) names = Ok row -> bool_decide (n ∈ names) = true -> safe (item_of clause (str n)).
Proof. intros H. pose proof H as [[= <-] _]%closed_Ok. by eapply safe_field. Qed.
#[local] Hint Extern 1 (safe (item_of _ (str _))) => (eapply safe_clause_field; [eassumption|reflexivity]) : coded.

Lemma safe_selected {A} models id (f : json -> outcome A) : Forall model_ok models ->
  (forall fields auth, item_of fields (str "language") = Ok (JStr (model_language id)) ->
     item_of fields (str "transfer_authorization") = Ok (JObj auth) ->
     (forall n, bool_decide (n ∈ ["sink_inputs"; "propagation"; "sanitization"]%string) = true -> safe (item_of auth (str n))) ->
     safe (f (JObj fields))) ->
  safe (match item_of models id with Ok model => f model | Raise _ => err "missing-model" end).
Proof.
  intros Hm Hf. destruct (item_of models id) as [model|] eqn:E; [|apply safe_err].
  apply item_of_in in E. rewrite Forall_forall in Hm. apply Hm in E. apply model_view in E as (fields & auth & -> & El & Ea & Hn).
  apply (Hf fields auth); [done..|]. intros n Hin%bool_decide_eq_true. by destruct (Hn n Hin) as (l & -> & _).
Qed.

Lemma safe_model_clause models class_id language languages st primitive clause :
  Forall model_ok models -> safe (model_clause models class_id language languages st primitive clause).
Proof.
  intros Hm. unfold model_clause. destruct (str_eqb primitive (str "propagate")).
  all: repeat first
    [ refine (safe_selected _ _ _ Hm _); intros fields auth El Ea Hn; cbn [obind]; rewrite El, Ea; cbn [obind] | step ].
  all: try (apply Hn; done). by destruct (str_eqb primitive (str "sink")); apply Hn.
Qed.

Lemma safe_read_clause models class_id language languages limits st value :
  Forall model_ok models -> safe (read_clause models class_id language languages limits st value).
Proof. intros Hm. unfold read_clause. pose proof safe_model_clause. steps. Qed.

Lemma safe_foldO {A B} (f : A -> B -> outcome A) l : (forall st x, safe (f st x)) -> forall st, safe (foldO f st l).
Proof. intros Hf. induction l as [|x l IH]; intros st; cbn [foldO]; [done|]. by apply raises_bind. Qed.

Lemma safe_rule value models key language limits : Forall model_ok models -> safe (_rule value models key language limits).
Proof. intros Hm. unfold _rule. steps. by apply safe_foldO; intros; apply safe_read_clause. Qed.

Lemma rule_json_Ok data maximum limits v : _rule_json data maximum limits = Ok v ->
  parse_json data = Ok v /\ strings_ok (max_rule_string_bytes limits) v.
Proof.
  unfold _rule_json, decode_bounded_json. intros (v' & H & Hb)%obind_Ok. apply obind_Ok in Hb as ([] & _ & [= ->]).
  apply obind_Ok in H as ([] & _ & H). apply obind_Ok in H as ([] & _ & H). apply obind_Ok in H as (v' & Hp & H).
  apply obind_Ok in H as ([] & Hs & [= ->]). split; [done|]. apply pending_strings in Hs; [by apply Forall_cons in Hs as [? _]|].
  cbn. unfold id. lia.
Qed.

Lemma rule_Ok value models key language limits root : _rule value models key language limits = Ok root -> root = value.
Proof.
  unfold _rule. intros (? & [-> _]%closed_Ok & H)%obind_Ok. 
  repeat (cbv zeta in H; apply obind_Ok in H as (? & _ & H)). by injection H as <-.
Qed.

(** Binding a rule is fail-closed: whatever the bytes, the key, the
    language and the limits, the only exceptions it raises are the closed
    [BoundRuleError] codes. *)
Theorem bound_rule_failures rule_bytes model_bytes key language limits :
  raises coded (decode_bound_rule rule_bytes model_bytes key language limits).
Proof.
  assert (Hunique : forall data maximum l v, _rule_json data maximum l = Ok v -> unique_keys v).
  { intros data maximum l v [H _]%rule_json_Ok. by eapply parsed_unique_keys. }
  unfold decode_bound_rule. steps.
  - unfold checked_limits. steps.
  - apply models_spec. eauto.
  - apply safe_rule. match goal with H : _models _ _ = Ok ?md |- _ => destruct md as [root models]; apply models_spec in H as [_ H] end;
      [done|eauto].
  - match goal with H : _rule _ _ _ _ _ = _ |- _ => apply rule_Ok in H as -> end.
    match goal with H : _rule_json rule_bytes _ _ = _ |- _ => apply rule_json_Ok in H as [_ H]; by rewrite (freeze_canon _ _ H) end.
  - match goal with H : _models _ _ = Ok ?md |- _ => destruct md as [root models]; apply models_spec in H as [-> _] end; [|by eauto].
    cbn [fst]. match goal with H : _rule_json model_bytes _ _ = _ |- _ => apply rule_json_Ok in H as [_ H]; by rewrite (freeze_canon _ _ H) end.
Qed.

(** ** What an accepted rule asks for *)

Definition field (v : json) (n : string) : outcome json :=
  match v with JObj items => item_of items (str n) | _ => Raise TypeError end.

(** A position record: an argument or the result, at an index. *)
Definition is_position (v : json) (kind : string) (i : Z) : Prop :=
  field v "kind" = Ok (jstr kind) /\ field v "index" = Ok (JInt i).

(** The transfers the built-in models authorise; no clause sanitizes. *)
Inductive permitted (languages : list pystr) : pystr -> pystr -> json -> Prop :=
| permitted_source clause selector language :
    field clause "selector" = Ok selector -> field selector "kind" = Ok (jstr "entry_parameter") ->
    field selector "language" = Ok (JStr language) -> language ∈ languages ->
    permitted languages (str "source") language clause
| permitted_propagate clause selector language id from to i :
    field clause "selector" = Ok selector -> field selector "kind" = Ok (jstr "model") ->
    field selector "language" = Ok (JStr language) -> field selector "model_id" = Ok (JStr id) ->
    id ∈ map str ["python.string-concat/1"; "java.string-concat/1"]%string -> language = model_language id -> language ∈ languages ->
    field clause "from" = Ok from -> is_position from "argument" i -> 0 <= i <= 1 ->
    field clause "to" = Ok to -> is_position to "result" 0 ->
    permitted languages (str "propagate") language clause
| permitted_sink clause selector language id position :
    field clause "selector" = Ok selector -> field selector "kind" = Ok (jstr "model") ->
    field selector "language" = Ok (JStr language) -> field selector "model_id" = Ok (JStr id) ->
    id ∈ map str ["python.os-system/1"; "java.jdbc-execute-query/1"]%string -> language = model_language id -> language ∈ languages ->
    field clause "position" = Ok position -> is_position position "argument" 0 ->
    field clause "context_id" = Ok (JStr (expected_context language)) ->
    permitted languages (str "sink") language clause.

Definition asks (languages : list pystr) (primitive language : pystr) (clause : json) : Prop :=
  field clause "primitive" = Ok (JStr primitive) /\ permitted languages primitive language clause.

Lemma enum_Ok v l s : _enum v l = Ok s -> v = JStr s /\ s ∈ l.
Proof. unfold _enum, err. destruct v; try done. case_bool_decide; [|done]. by intros [= ->]. Qed.

Lemma is_str_Ok v s : is_str v s = true -> v = JStr s.
Proof. destruct v; cbn; try done. unfold str_eqb. by intros ->%bool_decide_eq_true. Qed.

Lemma identifier_Ok v s : _identifier v = Ok s -> v = JStr s.
Proof.
  unfold _identifier. intros (t & (-> & _)%checked_string_Ok & H)%obind_Ok. destruct (is_identifier t); [|done]. by injection H as ->.
Qed.

Lemma position_Ok v b row : _position v b = Ok row ->
  row = v /\ exists i, is_position v (if b then "result" else "argument") i.
Proof.
  unfold _position. intros (items & [-> _]%closed_Ok & H)%obind_Ok. apply obind_Ok in H as (kind & Hk & H).
  apply obind_Ok in H as ([] & Hr%refuse_Ok & H). apply obind_Ok in H as (index & Hi & H).
  apply negb_false_iff, is_str_Ok in Hr as ->. destruct index as [| |i| | |]; try done.
  destruct ((0 <=? i) && _); [|done]. injection H as <-. split; [done|]. exists i. split; [|done].
  unfold field. rewrite Hk. by destruct b.
Qed.

(** A requested position equal to a granted one denotes it. *)
Lemma position_granted v kind i k j : is_position v kind i -> py_eqb v (obj [("kind", jstr k); ("index", JInt j)]%string) = true ->
  i = j.
Proof.
  intros [_ Hi] H. unfold field in Hi. destruct v as [| | | | |items]; try done.
  destruct (py_eqb_field _ _ _ _ H Hi) as (w & [= <-] & E). by apply py_eqb_int.
Qed.

Lemma existsb_granted v allowed l : existsb (py_eqb v) allowed = true -> Forall2 (fun x y => py_eqb x y = true) allowed l ->
  exists y, y ∈ l /\ py_eqb v y = true.
Proof.
  intros H HF. induction HF as [|x y allowed l Hxy HF IH]; [done|]. cbn in H. apply orb_true_iff in H as [H|H].
  - exists y. split; [left|]. by eapply py_eqb_trans.
  - destruct (IH H) as (z & ? & ?). exists z. split; [by right|done].
Qed.

Lemma model_id_cases id initial : _initial_model id = Ok initial ->
  (id ∈ map str ["python.string-concat/1"; "java.string-concat/1"]%string /\ is_concat id = true) \/
  (id ∈ map str ["python.os-system/1"; "java.jdbc-execute-query/1"]%string /\ is_concat id = false).
Proof.
  unfold _initial_model. case_bool_decide as H; [intros _|done]. unfold MODEL_IDS in H. cbn [map] in H.
  repeat (apply elem_of_cons in H as [->|H]; [first [left; split; [|reflexivity] | right; split; [|reflexivity]];
    apply (proj1 (bool_decide_eq_true _)); vm_compute; reflexivity|]). by apply elem_of_nil in H.
Qed.

Lemma granted_transfers id n y : y ∈ granted id n ->
  (n = "propagation"%string /\ is_concat id = true /\ exists i, 0 <= i <= 1 /\
     y = obj [("from", _argument i); ("to", obj [("kind", jstr "result"); ("index", JInt 0)])]%string) \/
  (n = "sink_inputs"%string /\ is_concat id = false /\
     y = obj [("position", _argument 0); ("class_id", jstr "injection"); ("context_id", JStr (expected_context (model_language id)))]%string) \/
  n ∉ ["propagation"; "sink_inputs"; "sanitization"]%string.
Proof.
  intros H. destruct (decide (n ∈ ["propagation"; "sink_inputs"; "sanitization"]%string)) as [Hn|]; [|by right; right].
  unfold granted, model_language in *. destruct (is_concat id), (is_python id);
    repeat (apply elem_of_cons in Hn as [->|Hn]; [cbn in H; repeat (apply elem_of_cons in H as [->|H]; [first
      [ right; left; split; [reflexivity|split; reflexivity]
      | left; split; [reflexivity|split; [reflexivity|first [exists 0; split; [lia|reflexivity] | exists 1; split; [lia|reflexivity]]]]]|]);
      by apply elem_of_nil in H|]); by apply elem_of_nil in Hn.
Qed.

(** The model a clause selects, and what it grants. *)
Lemma selected_Ok {A} models id (f : json -> outcome A) r : Forall model_ok models ->
  match item_of models id with Ok model => f model | Raise _ => err "missing-model" end = Ok r ->
  exists fields auth initial, f (JObj fields) = Ok r /\ _initial_model id = Ok initial /\
    item_of fields (str "language") = Ok (JStr (model_language id)) /\
    item_of fields (str "transfer_authorization") = Ok (JObj auth) /\
    forall n, n ∈ ["sink_inputs"; "propagation"; "sanitization"]%string ->
      exists l, item_of auth (str n) = Ok (JList l) /\ Forall2 (fun x y => py_eqb x y = true) l (granted id n).
Proof.
  intros Hm H. destruct (item_of models id) as [model|] eqn:E; [|done]. apply item_of_in in E. rewrite Forall_forall in Hm.
  apply Hm in E. pose proof E as (_ & initial & Hi & _). apply model_view in E as (fields & auth & -> & Hf).
  exists fields, auth, initial. split_and!; try done; apply Hf.
Qed.

(** A transfer refused unless some granted one equals it. *)
Lemma authorised_Ok auth id (n : string) l v :
  item_of auth (str n) = Ok l ->
  (exists l, item_of auth (str n) = Ok (JList l) /\ Forall2 (fun x y => py_eqb x y = true) l (granted id n)) ->
  forall allowed, _array l 256 0 = Ok allowed -> refuse (negb (existsb (py_eqb v) allowed)) "unauthorized-transfer" = Ok tt ->
  exists y, y ∈ granted id n /\ py_eqb v y = true.
Proof.
  intros Hl (l' & Hl' & HF) allowed ->%array_Ok Hr%refuse_Ok%negb_false_iff. rewrite Hl in Hl'. injection Hl' as ->.
  by eapply existsb_granted.
Qed.

Section clause.
Context (models : list (pystr * json)) (class_id language : pystr) (languages : list pystr) (limits : ScalarLimits).
Hypothesis models_ok : Forall model_ok models.

Lemma model_clause_Ok st primitive clause st' :
  primitive ∈ PRIMITIVES -> primitive <> str "source" -> item_of clause (str "primitive") = Ok (JStr primitive) ->
  model_clause models class_id language languages st primitive clause = Ok st' ->
  exists selected, asks languages primitive selected (JObj clause) /\ source_count st' = source_count st /\
    (sink_count st' = sink_count st \/ primitive = str "sink" /\ selected = language).
Proof.
  intros Hp Hsource Hprim. unfold model_clause. intros (row & _ & H)%obind_Ok. apply obind_Ok in H as (selv & Hsel & H).
  apply obind_Ok in H as (selector & [-> _]%closed_Ok & H). apply obind_Ok in H as (kind & Hkind & H).
  apply obind_Ok in H as ([] & Hk%refuse_Ok%negb_false_iff%is_str_Ok & H). subst kind.
  apply obind_Ok in H as (lang & Hlang & H). apply obind_Ok in H as (selected & [-> _]%enum_Ok & H).
  apply obind_Ok in H as (idv & Hid & H). apply obind_Ok in H as (id & ->%identifier_Ok & H).
  apply (selected_Ok _ _ _ _ models_ok) in H as (fields & auth & initial & H & Hi & El & Ea & Hn).
  apply model_id_cases in Hi. cbn [obind] in H. rewrite El, Ea in H. cbn [obind] in H.
  apply obind_Ok in H as ([] & [Hl1 Hl2]%refuse_Ok%orb_false_iff & H). apply negb_false_iff in Hl1, Hl2.
  apply bool_decide_eq_true in Hl1. apply is_str_Ok in Hl2. injection Hl2 as Hl2.
  exists selected. destruct (str_eqb primitive (str "propagate")) eqn:Epr.
  - unfold str_eqb in Epr. apply bool_decide_eq_true in Epr as ->.
    apply obind_Ok in H as (from & Hfrom & H). apply obind_Ok in H as (source & (-> & i & Hpi)%position_Ok & H).
    apply obind_Ok in H as (to & Hto & H). apply obind_Ok in H as (target & (-> & j & Hpj)%position_Ok & H).
    apply obind_Ok in H as (prop & Hprop & H). apply obind_Ok in H as (allowed & Hall & H).
    apply obind_Ok in H as ([] & Hr & [= <-]).
    destruct (authorised_Ok _ _ _ _ _ Hprop (Hn "propagation"%string ltac:(repeat constructor)) _ Hall Hr) as (y & Hy & Ey).
    apply granted_transfers in Hy as [(_ & Hc & k & Hk & ->)|[(? & _)|Hy]]; [|done|destruct Hy; repeat constructor].
    destruct (py_eqb_field _ _ (str "from") from Ey eq_refl) as (w1 & [= <-] & E1).
    destruct (py_eqb_field _ _ (str "to") to Ey eq_refl) as (w2 & [= <-] & E2).
    pose proof (position_granted _ _ _ _ _ Hpi E1) as ->. pose proof (position_granted _ _ _ _ _ Hpj E2) as ->.
    split; [|by split; [|left]]. split; [done|]. eapply permitted_propagate; try done.
    destruct Hi as [[? _]|[_ ?]]; [done|congruence].
  - apply obind_Ok in H as (ctx & Hctx & H). apply obind_Ok in H as (context & [-> Hcx]%enum_Ok & H).
    apply obind_Ok in H as (pos & Hpos & H). apply obind_Ok in H as (position & (-> & i & Hpi)%position_Ok & H).
    apply obind_Ok in H as (rows & Hrows & H). apply obind_Ok in H as (allowed & Hall & H).
    apply obind_Ok in H as ([] & Hr & [= <-]).
    destruct (authorised_Ok _ _ _ _ _ Hrows 
      (Hn (if str_eqb primitive (str "sink") then "sink_inputs" else "sanitization")%string ltac:(destruct (str_eqb primitive (str "sink")); repeat constructor)) _ Hall Hr) as (y & Hy & Ey).
    apply granted_transfers in Hy as [(En & _)|[(En & Hc & ->)|Hy]];
      [by destruct (str_eqb primitive (str "sink"))| |destruct Hy; destruct (str_eqb primitive (str "sink")); repeat constructor].
    destruct (str_eqb primitive (str "sink")) eqn:Es; [clear En|done]. unfold str_eqb in Es. apply bool_decide_eq_true in Es as ->.
    destruct (py_eqb_field _ _ (str "position") pos Ey eq_refl) as (w1 & [= <-] & E1).
    destruct (py_eqb_field _ _ (str "context_id") (JStr context) Ey eq_refl) as (w2 & [= <-] & E2).
    apply py_eqb_str in E2. injection E2 as ->.
    pose proof (position_granted _ _ _ _ _ Hpi E1) as ->.
    split.
    + split; [done|]. eapply permitted_sink; try done.
      * destruct Hi as [[_ ?]|[? _]]; [congruence|done].
      * by rewrite Hl2 in Hctx.
    + destruct (str_eqb selected language) eqn:E; [|by split; [|left]]. unfold str_eqb in E. apply bool_decide_eq_true in E.
      split; [done|by right].
Qed.

Lemma selector_Ok v selected : _source_selector v languages limits = Ok selected ->
  field v "kind" = Ok (jstr "entry_parameter") /\ field v "language" = Ok (JStr selected) /\ selected ∈ languages.
Proof.
  unfold _source_selector. intros (row & [-> _]%closed_Ok & H)%obind_Ok. apply obind_Ok in H as (kind & Hk & H).
  apply obind_Ok in H as ([] & E%refuse_Ok%negb_false_iff%is_str_Ok & H). subst kind.
  apply obind_Ok in H as (lang & Hl & H). apply obind_Ok in H as (language' & [-> _]%enum_Ok & H).
  apply obind_Ok in H as ([] & E%refuse_Ok%negb_false_iff & H). apply bool_decide_eq_true in E.
  assert (language' = selected) as <-; [|done].
  do 8 (apply obind_Ok in H as (? & _ & H)).
  destruct (str_eqb language' (str "python")); repeat (apply obind_Ok in H as (? & _ & H)); by injection H.
Qed.

Lemma read_clause_Ok st value st' : read_clause models class_id language languages limits st value = Ok st' ->
  exists primitive selected, asks languages primitive selected value /\
    (source_count st' = source_count st \/ primitive = str "source" /\ selected = language) /\
    (sink_count st' = sink_count st \/ primitive = str "sink" /\ selected = language).
Proof.
  unfold read_clause. destruct value as [| | | | |clause]; try done. intros (primitive & [Hprim Hp]%enum_Ok & H)%obind_Ok.
  assert (Hf : item_of clause (str "primitive") = Ok (JStr primitive)) by (destruct (item_of clause _); [congruence|done]).
  destruct (str_eqb primitive (str "source")) eqn:E.
  - unfold str_eqb in E. apply bool_decide_eq_true in E as ->. apply obind_Ok in H as (row & _ & H).
    apply obind_Ok in H as (selector & Hs & H). apply obind_Ok in H as (selected & (Hk & Hl & Hin)%selector_Ok & [= <-]).
    exists (str "source"), selected. split; [split; [done|by econstructor]|].
    destruct (str_eqb selected language) eqn:E; cbn; [|by split; [left; lia|left]]. unfold str_eqb in E. apply bool_decide_eq_true in E.
    by split; [right|left].
  - unfold str_eqb in E. apply bool_decide_eq_false in E.
    apply (model_clause_Ok _ _ _ _ Hp E Hf) in H as (selected & Ha & Hs & Hk). exists primitive, selected. auto.
Qed.

Lemma clauses_Ok clauses : forall st st', foldO (read_clause models class_id language languages limits) st clauses = Ok st' ->
  Forall (fun clause => exists primitive selected, asks languages primitive selected clause) clauses /\
  (source_count st' = source_count st \/ Exists (asks languages (str "source") language) clauses) /\
  (sink_count st' = sink_count st \/ Exists (asks languages (str "sink") language) clauses).
Proof.
  induction clauses as [|clause clauses IH]; intros st st'; cbn [foldO].
  - intros [= <-]. split_and!; [constructor|by left..].
  - intros (st1 & (primitive & selected & Ha & Hs & Hk)%read_clause_Ok & (H1 & H2 & H3)%IH)%obind_Ok. split_and!.
    + constructor; eauto.
    + destruct H2 as [H2|H2]; [|by right; right]. destruct Hs as [Hs|[-> ->]]; [left; congruence|by right; left].
    + destruct H3 as [H3|H3]; [|by right; right]. destruct Hk as [Hk|[-> ->]]; [left; congruence|by right; left].
Qed.

End clause.

Lemma rule_accepts models value key language limits root : Forall model_ok models ->
  _rule value models key language limits = Ok root ->
  exists clauses languages,
    field value "class_id" = Ok (jstr "injection") /\ field value "spec_id" = Ok (JStr (k_rule_id key)) /\
    field value "clauses" = Ok (JList clauses) /\ language ∈ languages /\
    Forall (fun clause => exists primitive selected, asks languages primitive selected clause) clauses /\
    Exists (asks languages (str "source") language) clauses /\ Exists (asks languages (str "sink") language) clauses.
Proof.
  intros Hm. unfold _rule. intros (row & [-> _]%closed_Ok & H)%obind_Ok.
  do 6 (apply obind_Ok in H as (? & _ & H)). apply obind_Ok in H as (spec & Hspec & H).
  apply obind_Ok in H as (id & ->%identifier_Ok & H). apply obind_Ok in H as ([] & Hid%refuse_Ok%negb_false_iff & H).
  do 3 (apply obind_Ok in H as (? & _ & H)). apply obind_Ok in H as (class & Hclass & H).
  apply obind_Ok in H as (class_id & [-> _]%enum_Ok & H). do 2 (apply obind_Ok in H as (? & _ & H)).
  apply obind_Ok in H as (languages & _ & H). apply obind_Ok in H as ([] & [_ Hlang]%refuse_Ok%orb_false_iff & H).
  apply obind_Ok in H as (rows & Hrows & H). apply obind_Ok in H as (clauses & ->%array_Ok & H).
  apply obind_Ok in H as (st & (H1 & H2 & H3)%(clauses_Ok _ _ _ _ _ Hm) & H).
  cbv zeta in H. apply obind_Ok in H as ([] & [[Hs Hk]%orb_false_iff _]%refuse_Ok%orb_false_iff & H).
  apply obind_Ok in H as ([] & [Hc _]%refuse_Ok%orb_false_iff & _).
  apply negb_false_iff in Hlang, Hc. apply bool_decide_eq_true in Hlang.
  unfold str_eqb in Hc, Hid. apply bool_decide_eq_true in Hc, Hid. subst class_id. rewrite <-Hid.
  cbn in H2, H3. exists clauses, languages. split_and!; try done.
  - destruct H2; [lia|done].
  - destruct H3; [lia|done].
Qed.

(** C7: an accepted rule is bound to its raw bytes (their digests are those
    the key names, its documents are what the bytes spell), is an injection
    rule, and asks only for what the built-in models authorise: each clause is
    an entry source, a propagation of a concatenation argument to its result,
    or the first argument of a command or query sink in that language's
    context.  It has a source and a sink in its own language, and no accepted
    rule sanitizes anything. *)
Theorem accepted_rule_authorised rule_bytes model_bytes key language limits r :
  decode_bound_rule rule_bytes model_bytes key language limits = Ok r ->
  hex (sha256 rule_bytes) = k_rule_raw_sha256 key /\ hex (sha256 model_bytes) = k_model_raw_sha256 key /\
  exists rule model clauses languages,
    parse_json rule_bytes = Ok rule /\ br_rule_document r = canon rule /\
    parse_json model_bytes = Ok model /\ br_model_document r = canon model /\
    field rule "class_id" = Ok (jstr "injection") /\ field rule "spec_id" = Ok (JStr (k_rule_id key)) /\
    field rule "clauses" = Ok (JList clauses) /\ language ∈ languages /\
    Forall (fun clause => exists primitive selected, asks languages primitive selected clause) clauses /\
    Exists (asks languages (str "source") language) clauses /\ Exists (asks languages (str "sink") language) clauses.
Proof.
  unfold decode_bound_rule. intros (checked & _ & H)%obind_Ok. do 3 (apply obind_Ok in H as (? & _ & H)).
  apply obind_Ok in H as ([] & [H1%negb_false_iff H2%negb_false_iff]%refuse_Ok%orb_false_iff & H).
  apply bool_decide_eq_true in H1, H2. apply obind_Ok in H as (model & [Hmp Hms]%rule_json_Ok & H).
  apply obind_Ok in H as ([mroot models] & Hmodels & H).
  apply (models_spec _ _ (parsed_unique_keys _ _ Hmp)) in Hmodels as [-> Hm].
  apply obind_Ok in H as (rule & [Hrp Hrs]%rule_json_Ok & H). apply obind_Ok in H as (root & Hrule & H).
  pose proof (rule_Ok _ _ _ _ _ _ Hrule) as ->. cbn [fst snd] in *.
  apply (rule_accepts _ _ _ _ _ _ Hm) in Hrule as (clauses & languages & Hrule).
  rewrite (freeze_canon _ _ Hrs), (freeze_canon _ _ Hms) in H. cbn in H. injection H as <-.
  split_and!; [done..|]. exists rule, model, clauses, languages. cbn. tauto.
Qed.

(** ** A rule *)

(** The bytes of a document. *)
Definition spelled (v : json) : pybytes := match canonical_json v with Ok b => b | Raise _ => [] end.

Definition shell_models : json :=
  obj [("schema", JStr MODEL_SCHEMA); ("target_platform_profiles", JList [JStr _PYTHON_TARGET]);
       ("models", JList [model_row (str "python.os-system/1") false true])]%string.

Definition shell_digest : pystr := Eval vm_compute in hex (sha256 (spelled shell_models)).

Definition shell_rule : json :=
  obj [("schema", JStr RULE_SCHEMA); ("semantics", JStr SCALAR_SEMANTICS); ("spec_id", jstr "rule/shell");
       ("class_id", jstr "injection"); ("engine", jstr "ifds"); ("languages", JList [jstr "python"]);
       ("projection_profile", JStr PROJECTION_PROFILE); ("model_artifact_digest", JStr shell_digest);
       ("clauses", JList
         [obj [("primitive", jstr "source");
               ("selector", obj [("kind", jstr "entry_parameter"); ("language", jstr "python"); ("source_file", jstr "app/main.py");
                                 ("declaration", JList [jstr "run"]); ("formal_index", JInt 0); ("parameter_types", JNull)])];
          obj [("primitive", jstr "sink");
               ("selector", obj [("kind", jstr "model"); ("language", jstr "python"); ("model_id", jstr "python.os-system/1")]);
               ("position", _argument 0); ("context_id", jstr "posix-shell-command")]])]%string.

Definition shell_rule_digest : pystr := Eval vm_compute in hex (sha256 (spelled shell_rule)).

Definition shell_key : QualifiedRuleKey :=
  mkKey sample_uuid sample_uuid (str "customer") (Some sample_uuid) (str "1.20.3") sample_digest (str "shell") (str "0.1.0")
    sample_digest (str "rule/shell") (str "rules:main") (str "2.0.0") shell_rule_digest (str "models") (str "10.0.1") shell_digest
    sample_digest QUALIFIED_RULE_SCHEMA.

Definition accepted_shell : bool :=
  match decode_bound_rule (spelled shell_rule) (spelled shell_models) shell_key (str "python") default_limits with
  | Ok _ => true
  | Raise _ => false
  end.

Lemma shell_accepted : exists r,
  decode_bound_rule (spelled shell_rule) (spelled shell_models) shell_key (str "python") default_limits = Ok r.
Proof.
  assert (H : accepted_shell = true) by (vm_compute; reflexivity). unfold accepted_shell in H.
  destruct (decode_bound_rule _ _ _ _ _); [eauto|done].
Qed.

Lemma accepted_rule_authorised_witness :
  exists rule languages clauses, parse_json (spelled shell_rule) = Ok rule /\ field rule "clauses" = Ok (JList clauses) /\
    Exists (asks languages (str "sink") (str "python")) clauses.
Proof.
  destruct shell_accepted as (r & Hr).
  destruct (accepted_rule_authorised _ _ _ _ _ _ Hr) as (_ & _ & rule & model & clauses & languages & H).
  exists rule, languages, clauses. split; [apply H|]. split; apply H.
Defined.
