(* ===== verification/Queue.v ===== *)
(** * The work queue ([services/substrate/queue.py])

    The offline queue [StandardQueue] with its dead-letter list, the
    structural interface [Queue] and the [IdempotentConsumer] that drives it.

    An operation maps a queue to its result and the queue after it; an
    operation that raises returns the queue as it stood when it raised.  A
    [Message] is one object shared by the queue and its consumer, and its
    [body] is a dict the handler receives: what a handler writes into the dict
    before it raises is redelivered.  [q_alias] is that sharing. *)
From stdpp Require Import base tactics list gmap strings.
From Stdlib Require Import ZArith Lia.
From S2P Require Import Prelude PyData Ordering.

Open Scope Z_scope.

Definition DEFAULT_MAX_RECEIVE_COUNT : Z := 3.

(** [dict[str, str]], its items in insertion order. *)
Definition Body := list (pystr * pystr).

Record Message := mkMessage {
  body : Body;
  dedup_key : pystr;
  receive_count : Z
}.

Record ReceivedMessage := mkReceived {
  receipt_handle : Z;
  message : Message
}.

(** The structural interface: results may be exceptions. *)
Class Queue (Q : Type) := {
  q_send : Body -> pystr -> Q -> outcome unit * Q;
  q_receive : Q -> outcome (option ReceivedMessage) * Q;
  q_ack : Z -> Q -> outcome unit * Q;
  q_fail : Z -> Q -> outcome unit * Q;
  (** The received message's body, changed in place by its holder. *)
  q_alias : Z -> Body -> Q -> Q
}.

(** ** [StandardQueue] *)

Record StandardQueue := mkQueue {
  name : pystr;
  max_receive_count : Z;
  ready : list Message;
  in_flight : gmap Z Message;
  dlq : list Message;
  next_receipt : Z
}.

Definition new_queue (n : pystr) (mx : Z) : StandardQueue := mkQueue n mx [] ∅ [] 0.

(** [dict(body)] is a copy: the sender's dict is not shared. *)
Definition send (b : Body) (key : pystr) (q : StandardQueue) : outcome unit * StandardQueue :=
  (Ok tt, mkQueue (name q) (max_receive_count q) (ready q ++ [mkMessage b key 0]) (in_flight q) (dlq q) (next_receipt q)).

Definition delivered (m : Message) : Message := mkMessage (body m) (dedup_key m) (receive_count m + 1).

Definition receive (q : StandardQueue) : outcome (option ReceivedMessage) * StandardQueue :=
  match ready q with
  | [] => (Ok None, q)
  | m :: rest =>
      let m := delivered m in
      let receipt := next_receipt q in
      (Ok (Some (mkReceived receipt m)),
       mkQueue (name q) (max_receive_count q) rest (<[receipt := m]> (in_flight q)) (dlq q) (receipt + 1))
  end.

Definition ack (receipt : Z) (q : StandardQueue) : outcome unit * StandardQueue :=
  match in_flight q !! receipt with
  | None => (Raise UnknownReceiptError, q)
  | Some _ =>
      (Ok tt, mkQueue (name q) (max_receive_count q) (ready q) (delete receipt (in_flight q)) (dlq q) (next_receipt q))
  end.

Definition fail (receipt : Z) (q : StandardQueue) : outcome unit * StandardQueue :=
  match in_flight q !! receipt with
  | None => (Raise UnknownReceiptError, q)
  | Some m =>
      let flying := delete receipt (in_flight q) in
      if max_receive_count q <=? receive_count m then
        (Ok tt, mkQueue (name q) (max_receive_count q) (ready q) flying (dlq q ++ [m]) (next_receipt q))
      else
        (Ok tt, mkQueue (name q) (max_receive_count q) (ready q ++ [m]) flying (dlq q) (next_receipt q))
  end.

(** The message in flight is the one its consumer holds. *)
Definition alias (receipt : Z) (b : Body) (q : StandardQueue) : StandardQueue :=
  mkQueue (name q) (max_receive_count q) (ready q)
    (alter (fun m => mkMessage b (dedup_key m) (receive_count m)) receipt (in_flight q)) (dlq q) (next_receipt q).

Definition dlq_messages (q : StandardQueue) : list Message := dlq q.
Definition ready_depth (q : StandardQueue) : Z := Z.of_nat (length (ready q)).

#[export] Instance standard_queue : Queue StandardQueue := {
  q_send := send; q_receive := receive; q_ack := ack; q_fail := fail; q_alias := alias
}.

(** ** [IdempotentConsumer] *)

(** How a handler call ends: normally, by an [Exception], or by a
    [BaseException] that [except Exception] does not catch. *)
Inductive handled := Returned | Raised | Escaped.

Record IdempotentConsumer (Q : Type) := mkConsumer {
  queue : Q;
  processed_keys : gset pystr;
  handler_invocations : Z
}.
Arguments mkConsumer {Q} _ _ _.
Arguments queue {Q} _.
Arguments processed_keys {Q} _.
Arguments handler_invocations {Q} _.

Section consumer.
Context {Q W : Type} `{!Queue Q}.

(** The handler acts on the world, and may change the dict it is given. *)
Variable handler : W -> Body -> W * Body * handled.

Definition with_queue (q : Q) (c : IdempotentConsumer Q) : IdempotentConsumer Q :=
  mkConsumer q (processed_keys c) (handler_invocations c).

(** The settling call at the end of a poll, which then answers [True]. *)
Definition settle (op : Z -> Q -> outcome unit * Q) (receipt : Z) (c : IdempotentConsumer Q) (w : W) :
    outcome bool * IdempotentConsumer Q * W :=
  let '(r, q) := op receipt (queue c) in (obind r (fun _ => Ok true), with_queue q c, w).

Definition poll_once (c : IdempotentConsumer Q) (w : W) : outcome bool * IdempotentConsumer Q * W :=
  let '(received, q) := q_receive (queue c) in
  let c := with_queue q c in
  match received with
  | Raise e => (Raise e, c, w)
  | Ok None => (Ok false, c, w)
  | Ok (Some rm) =>
      let m := message rm in
      let receipt := receipt_handle rm in
      if bool_decide (dedup_key m ∈ processed_keys c) then settle q_ack receipt c w
      else
        let '(w, b, result) := handler w (body m) in
        let c := with_queue (q_alias receipt b (queue c)) c in
        match result with
        | Escaped => (Raise BaseException, c, w)
        | Raised => settle q_fail receipt c w
        | Returned =>
            settle q_ack receipt
              (mkConsumer (queue c) ({[dedup_key m]} ∪ processed_keys c) (handler_invocations c + 1)) w
        end
  end.

Fixpoint drain_loop (n : nat) (c : IdempotentConsumer Q) (w : W) : outcome unit * IdempotentConsumer Q * W :=
  match n with
  | O => (Raise QueueError, c, w)
  | S n' =>
      let '(r, c, w) := poll_once c w in
      match r with
      | Raise e => (Raise e, c, w)
      | Ok false => (Ok tt, c, w)
      | Ok true => drain_loop n' c w
      end
  end.

(** [range(max_iterations)] is empty for a negative bound. *)
Definition drain (max_iterations : Z) (c : IdempotentConsumer Q) (w : W) : outcome unit * IdempotentConsumer Q * W :=
  drain_loop (Z.to_nat max_iterations) c w.
End consumer.
