(* ===== verification/QueueSpec.v ===== *)
(** * What the queue and its consumer promise

    Accounting of the messages of a [StandardQueue] over any sequence of
    operations, the at-most-once effect of an [IdempotentConsumer] over any
    queue, and the outcome of [drain]. *)
From stdpp Require Import base tactics list gmap strings.
From Stdlib Require Import ZArith Lia.
From S2P Require Import Prelude PyData Ordering Queue.

Open Scope Z_scope.

(** ** Accounting *)

(** The calls a queue can see, in the order they take effect. *)
Inductive op :=
| Send (b : Body) (key : pystr)
| Receive
| Ack (receipt : Z)
| Fail (receipt : Z)
| Alias (receipt : Z) (b : Body).

(** A queue with the keys sent to it and the messages acknowledged. *)
Record ledger := mkLedger {
  state : StandardQueue;
  sent : list pystr;
  acked : list Message
}.

Definition step (l : ledger) (o : op) : ledger :=
  let q := state l in
  match o with
  | Send b key => mkLedger (send b key q).2 (sent l ++ [key]) (acked l)
  | Receive => mkLedger (receive q).2 (sent l) (acked l)
  | Ack r => mkLedger (ack r q).2 (sent l) (acked l ++ option_list (in_flight q !! r))
  | Fail r => mkLedger (fail r q).2 (sent l) (acked l)
  | Alias r b => mkLedger (alias r b q) (sent l) (acked l)
  end.

Definition run (q : StandardQueue) (ops : list op) : ledger := foldl step (mkLedger q [] []) ops.

Definition flying (q : StandardQueue) : list Message := (map_to_list (in_flight q)).*2.
Definition messages (q : StandardQueue) : list Message := ready q ++ flying q ++ dlq q.

(** The deliveries after which a failed message is dead. *)
Definition cap (q : StandardQueue) : Z := Z.max 1 (max_receive_count q).

Definition total (l : list Message) : Z := foldr Z.add 0 (map receive_count l).

Record counts_ok (q : StandardQueue) : Prop := {
  ready_counts : Forall (fun m => 0 <= receive_count m < cap q) (ready q);
  flying_counts : map_Forall (fun _ m => 1 <= receive_count m <= cap q) (in_flight q);
  dlq_counts : Forall (fun m => receive_count m = cap q) (dlq q);
  receipts_below : map_Forall (fun r _ => 0 <= r < next_receipt q) (in_flight q);
  receipts_from : 0 <= next_receipt q
}.

Record accounted (l : ledger) : Prop := {
  acc_counts : counts_ok (state l);
  acc_acked : Forall (fun m => 1 <= receive_count m <= cap (state l)) (acked l);
  acc_keys : map dedup_key (messages (state l) ++ acked l) ≡ₚ sent l;
  acc_total : total (messages (state l) ++ acked l) = next_receipt (state l)
}.

Lemma total_perm l k : l ≡ₚ k -> total l = total k.
Proof. unfold total. induction 1; cbn; lia. Qed.

Lemma total_app l k : total (l ++ k) = total l + total k.
Proof. unfold total. induction l as [|x l IH]; cbn; lia. Qed.

Lemma total_bound c l : Forall (fun m => receive_count m <= c) l -> total l <= c * Z.of_nat (length l).
Proof. unfold total. induction 1; cbn [map foldr length]; lia. Qed.

(** The message a receipt names, put in front. *)
Lemma flying_delete q r m : in_flight q !! r = Some m ->
  flying q ≡ₚ m :: (map_to_list (delete r (in_flight q))).*2.
Proof. intros H. unfold flying. by rewrite <-(map_to_list_delete _ _ _ H). Qed.

Lemma flying_receive q m : map_Forall (fun r _ => 0 <= r < next_receipt q) (in_flight q) ->
  (map_to_list (<[next_receipt q := m]> (in_flight q))).*2 ≡ₚ m :: flying q.
Proof.
  intros H. unfold flying. rewrite map_to_list_insert; [reflexivity|].
  destruct (in_flight q !! next_receipt q) eqn:E; [|done]. specialize (H _ _ E). cbn in H. lia.
Qed.

Lemma flying_alias q r b m : in_flight q !! r = Some m ->
  flying (alias r b q) ≡ₚ mkMessage b (dedup_key m) (receive_count m) :: (map_to_list (delete r (in_flight q))).*2.
Proof.
  intros H. set (m' := mkMessage b (dedup_key m) (receive_count m)).
  rewrite (flying_delete (alias r b q) r m').
  - f_equiv. unfold alias. cbn [in_flight]. by rewrite delete_alter_eq.
  - unfold alias. cbn. by rewrite lookup_alter_eq, H.
Qed.

(** The effect of each operation on the messages the queue holds. *)
Lemma messages_send q b key : messages (send b key q).2 ≡ₚ mkMessage b key 0 :: messages q.
Proof. unfold messages. cbn. rewrite <-app_assoc. symmetry. apply Permutation_middle. Qed.

Lemma messages_receive q m rest : counts_ok q -> ready q = m :: rest ->
  exists k, messages q ≡ₚ m :: k /\ messages (receive q).2 ≡ₚ delivered m :: k.
Proof.
  intros Hq E. exists (rest ++ flying q ++ dlq q). unfold messages, receive. rewrite E. cbn. split; [done|].
  unfold flying at 1. cbn. rewrite (flying_receive q (delivered m)) by apply Hq. symmetry. apply Permutation_middle.
Qed.

Lemma messages_ack q r m : in_flight q !! r = Some m -> messages q ≡ₚ m :: messages (ack r q).2.
Proof.
  intros H. unfold messages, ack. rewrite H. cbn. rewrite (flying_delete q r m H). unfold flying. cbn.
  symmetry. apply Permutation_middle.
Qed.

Lemma messages_fail q r m : in_flight q !! r = Some m -> messages (fail r q).2 ≡ₚ messages q.
Proof.
  intros H. unfold messages, fail. rewrite H, (flying_delete q r m H).
  destruct (_ <=? _); cbn; unfold flying; cbn.
  - f_equiv. rewrite <-Permutation_cons_append. symmetry. apply Permutation_middle.
  - by rewrite <-app_assoc.
Qed.

Lemma messages_alias q r b m : in_flight q !! r = Some m ->
  exists k, messages q ≡ₚ m :: k /\ messages (alias r b q) ≡ₚ mkMessage b (dedup_key m) (receive_count m) :: k.
Proof.
  intros H. exists (ready q ++ (map_to_list (delete r (in_flight q))).*2 ++ dlq q). unfold messages.
  rewrite (flying_alias q r b m H), (flying_delete q r m H). cbn [ready alias dlq app].
  split; symmetry; apply Permutation_middle.
Qed.

(** A receipt that is not in flight changes nothing. *)
Lemma unknown_receipt q r : in_flight q !! r = None ->
  ack r q = (Raise UnknownReceiptError, q) /\ fail r q = (Raise UnknownReceiptError, q) /\
  forall b, alias r b q = q.
Proof.
  intros H. unfold ack, fail, alias. rewrite H. split_and!; [done..|]. intros b.
  rewrite alter_id; [by destruct q|]. intros x Hx. congruence.
Qed.

Lemma counts_new n mx : counts_ok (new_queue n mx).
Proof. split; cbn; [constructor|apply map_Forall_empty|constructor|apply map_Forall_empty|lia]. Qed.

Lemma counts_send q b key : counts_ok q -> counts_ok (send b key q).2.
Proof.
  intros [H1 H2 H3 H4 H5]. split; try done. apply Forall_app. split; [exact H1|].
  constructor; [|constructor]. cbn. unfold cap. lia.
Qed.

Lemma counts_receive q : counts_ok q -> counts_ok (receive q).2.
Proof.
  intros Hq. pose proof Hq as [H1 H2 H3 H4 H5]. unfold receive. destruct (ready q) as [|m rest] eqn:E; [exact Hq|].
  apply Forall_cons in H1 as [Hm H1]. split; cbn; [exact H1| |exact H3| |lia].
  - apply map_Forall_insert_2; [cbn; unfold cap in *; cbn in *; lia|exact H2].
  - apply map_Forall_insert_2; [lia|]. eapply map_Forall_impl; [exact H4|]. cbn. intros. lia.
Qed.

Lemma counts_ack q r : counts_ok q -> counts_ok (ack r q).2.
Proof.
  intros Hq. pose proof Hq as [H1 H2 H3 H4 H5]. unfold ack. destruct (in_flight q !! r); [|exact Hq].
  split; try done; by apply map_Forall_delete.
Qed.

Lemma counts_fail q r : counts_ok q -> counts_ok (fail r q).2.
Proof.
  intros Hq. pose proof Hq as [H1 H2 H3 H4 H5]. unfold fail. destruct (in_flight q !! r) as [m|] eqn:E; [|exact Hq].
  specialize (H2 _ _ E) as Hm. cbn in Hm.
  destruct (Z.leb_spec (max_receive_count q) (receive_count m)); split; cbn; try done;
    try (by apply map_Forall_delete); apply Forall_app; (split; [done|]); constructor; try constructor;
    unfold cap in *; cbn in *; lia.
Qed.

Lemma counts_alias q r b : counts_ok q -> counts_ok (alias r b q).
Proof.
  intros Hq. destruct (in_flight q !! r) as [m|] eqn:E; [|by rewrite (proj2 (proj2 (unknown_receipt q r E)))].
  destruct Hq as [H1 H2 H3 H4 H5].
  assert (Ha : in_flight (alias r b q) = <[r := mkMessage b (dedup_key m) (receive_count m)]> (in_flight q)).
  { cbn. apply map_eq. intros i. destruct (decide (r = i)) as [->|Hne].
    - by rewrite lookup_alter_eq, lookup_insert_eq, E.
    - by rewrite lookup_alter_ne, lookup_insert_ne. }
  split; try done; rewrite Ha; apply map_Forall_insert_2; try done; [apply (H2 _ _ E)|apply (H4 _ _ E)].
Qed.

#[local] Hint Resolve counts_send counts_receive counts_ack counts_fail counts_alias : scanipy.

(** The bound on deliveries is fixed. *)
Lemma cap_step l o : cap (state (step l o)) = cap (state l).
Proof.
  destruct o as [| |r|r|]; cbn; try done; unfold receive, ack, fail; [by destruct (ready _)|by destruct (_ !! _)|].
  destruct (_ !! _); [|done]. by destruct (_ <=? _).
Qed.

Definition all_messages (l : ledger) : list Message := messages (state l) ++ acked l.

(** What one call does to the messages the queue holds or has acknowledged. *)
Inductive change (l l' : ledger) : Prop :=
| Same : all_messages l' ≡ₚ all_messages l -> sent l' = sent l -> next_receipt (state l') = next_receipt (state l) ->
    change l l'
| Added m : all_messages l' ≡ₚ m :: all_messages l -> receive_count m = 0 -> sent l' = sent l ++ [dedup_key m] ->
    next_receipt (state l') = next_receipt (state l) -> change l l'
| Turned m m' k : all_messages l ≡ₚ m :: k -> all_messages l' ≡ₚ m' :: k -> dedup_key m' = dedup_key m ->
    sent l' = sent l ->
    next_receipt (state l') - receive_count m' = next_receipt (state l) - receive_count m -> change l l'.

Lemma step_change l o : counts_ok (state l) -> change l (step l o).
Proof.
  intros Hc. unfold step. set (q := state l) in *. destruct o as [b key| |r|r|r b].
  - apply (Added _ _ (mkMessage b key 0)); try done. unfold all_messages. cbn [state acked]. by rewrite messages_send.
  - destruct (ready q) as [|m rest] eqn:E; [apply Same; unfold receive; by rewrite E|].
    destruct (messages_receive _ _ _ Hc E) as (k & H1 & H2).
    apply (Turned _ _ m (delivered m) (k ++ acked l)); try done.
    + unfold all_messages. fold q. by rewrite H1.
    + unfold all_messages. cbn [state acked]. by rewrite H2.
    + unfold receive. rewrite E. cbn. fold q. lia.
  - destruct (in_flight q !! r) as [m|] eqn:E.
    + apply Same; [|done|unfold ack; by rewrite E]. unfold all_messages. cbn [state acked]. fold q. rewrite (messages_ack _ _ _ E).
      cbn [option_list]. rewrite app_assoc. symmetry. apply Permutation_cons_append.
    + rewrite (proj1 (unknown_receipt _ _ E)). apply Same; try done. unfold all_messages. cbn [state acked]. by rewrite app_nil_r.
  - destruct (in_flight q !! r) as [m|] eqn:E; [|rewrite (proj1 (proj2 (unknown_receipt _ _ E))); by apply Same].
    apply Same; [unfold all_messages; cbn [state acked]; by rewrite (messages_fail _ _ _ E)|done|].
    unfold fail. rewrite E. by destruct (_ <=? _).
  - destruct (in_flight q !! r) as [m|] eqn:E; [|rewrite (proj2 (proj2 (unknown_receipt _ _ E))); by apply Same].
    destruct (messages_alias _ _ b _ E) as (k & H1 & H2).
    apply (Turned _ _ m (mkMessage b (dedup_key m) (receive_count m)) (k ++ acked l)); try done.
    + unfold all_messages. fold q. by rewrite H1.
    + unfold all_messages. cbn [state acked]. by rewrite H2.
Qed.

Lemma accounted_step l o : accounted l -> accounted (step l o).
Proof.
  intros [Hc Ha Hk Ht]. pose proof (step_change l o Hc) as Hch. fold (all_messages l) in Hk, Ht. split.
  - destruct o; cbn [step state]; auto with scanipy.
  - rewrite cap_step. destruct o as [| |r| |]; try done. cbn [step acked]. apply Forall_app. split; [done|].
    destruct (in_flight (state l) !! r) as [m|] eqn:E; cbn; [|constructor].
    constructor; [apply (flying_counts _ Hc _ _ E)|constructor].
  - fold (all_messages (step l o)). destruct Hch as [H1 -> _|m H1 _ -> _|m m' k H1 H2 Hm -> _].
    + by rewrite H1.
    + rewrite H1. cbn. rewrite Hk. apply Permutation_cons_append.
    + rewrite H1 in Hk. rewrite H2. cbn in *. by rewrite Hm.
  - fold (all_messages (step l o)). destruct Hch as [H1 _ ->|m H1 Hm _ ->|m m' k H1 H2 _ _ Hn];
      rewrite (total_perm _ _ ltac:(eassumption)).
    + done.
    + unfold total in *. cbn. lia.
    + rewrite (total_perm _ _ H1) in Ht. unfold total in *. cbn in *. lia.
Qed.

Lemma accounted_run n mx ops : accounted (run (new_queue n mx) ops).
Proof.
  unfold run. assert (H : accounted (mkLedger (new_queue n mx) [] [])) by (split; [apply counts_new|done..]).
  revert H. generalize (mkLedger (new_queue n mx) [] []). induction ops as [|o ops IH]; intros l H; cbn; [exact H|].
  apply IH. by apply accounted_step.
Qed.

Lemma cap_run q ops : cap (state (run q ops)) = cap q.
Proof.
  unfold run. change (cap q) with (cap (state (mkLedger q [] []))). generalize (mkLedger q [] []).
  induction ops as [|o ops IH]; intros l; cbn; [done|]. by rewrite IH, cap_step.
Qed.

(** Over any sequence of calls on a new queue, every message sent is in
    exactly one of the ready list, the messages in flight, the dead-letter
    list and the acknowledged ones.  A message is ready after fewer failed
    deliveries than the bound, dead after exactly the bound, and never
    delivered more often; all deliveries together stay within the bound per
    message sent. *)
Theorem delivery_accounting n mx ops : let l := run (new_queue n mx) ops in let q := state l in
  map dedup_key (ready q ++ flying q ++ dlq q ++ acked l) ≡ₚ sent l /\
  Forall (fun m => 0 <= receive_count m < Z.max 1 mx) (ready q) /\
  Forall (fun m => 1 <= receive_count m <= Z.max 1 mx) (flying q ++ acked l) /\
  Forall (fun m => receive_count m = Z.max 1 mx) (dlq q) /\
  total (ready q ++ flying q ++ dlq q ++ acked l) = next_receipt q /\
  next_receipt q <= Z.max 1 mx * Z.of_nat (length (sent l)).
Proof.
  cbv zeta. set (l := run (new_queue n mx) ops). destruct (accounted_run n mx ops : accounted l) as [[H1 H2 H3 _ _] Ha Hk Ht].
  assert (Hcap : cap (state l) = Z.max 1 mx) by apply (cap_run (new_queue n mx)). rewrite Hcap in *.
  assert (Hf : Forall (fun m => 1 <= receive_count m <= Z.max 1 mx) (flying (state l))).
  { apply Forall_fmap, Forall_forall. intros [i m] Hm%elem_of_map_to_list. apply (H2 i m Hm). }
  unfold messages in *. rewrite <-!app_assoc in *. split_and!; try done; [by apply Forall_app|].
  rewrite <-Ht, <-Hk, length_map. apply total_bound. rewrite !Forall_app.
  split_and!; eapply Forall_impl; eauto; cbn; intros; lia.
Qed.

Definition sample_body : Body := [(str "scan_id", str "s")].
Example poison_message : let l := run (new_queue (str "jobs") 3) [Send sample_body (str "s"); Receive; Fail 0; Receive;
    Fail 1; Receive; Fail 2; Receive; Fail 2] in
  (ready (state l), dlq (state l), next_receipt (state l)) = ([], [mkMessage sample_body (str "s") 3], 3).
Proof. reflexivity. Qed.

(** ** At-most-once effect *)

Section consumer.
Context {Q W : Type} `{!Queue Q}.
Variable handler : W -> Body -> W * Body * handled.
Implicit Types (c : IdempotentConsumer Q) (w : W).

(** The handler, writing in a log how each of its calls ends. *)
Definition logged : W * list handled -> Body -> (W * list handled) * Body * handled :=
  fun '(w, log) b => let '(w', b', result) := handler w b in ((w', log ++ [result]), b', result).

(** The key of the message a poll will receive, if there is one. *)
Definition received_key c : option pystr :=
  match (q_receive (queue c)).1 with Ok (Some rm) => Some (dedup_key (message rm)) | _ => None end.

(** A call of the handler that was made: the key of the message it was made
    for and how it ended. *)
Definition call : Type := option pystr * handled.

(** A poll of this consumer, with the calls found in the log after it; or
    anything else that happens to the queue and to the world in between:
    sends, redeliveries, other consumers. *)
Inductive csteps : IdempotentConsumer Q * W -> list call -> IdempotentConsumer Q * W -> Prop :=
| cs_refl s : csteps s [] s
| cs_poll c w r c' w' log calls s : poll_once logged c (w, []) = (r, c', (w', log)) -> csteps (c', w') calls s ->
    csteps (c, w) (map (pair (received_key c)) log ++ calls) s
| cs_env c w q w' calls s : csteps (with_queue q c, w') calls s -> csteps (c, w) calls s.

(** The log does not change what a poll does. *)
Lemma poll_logged c w log r c' w' log' : poll_once logged c (w, log) = (r, c', (w', log')) -> poll_once handler c w = (r, c', w').
Proof.
  unfold poll_once, settle. destruct (q_receive (queue c)) as [[[rm|]|e] q]; cbn; [|by intros [= <- <- <-]..].
  case_bool_decide.
  - destruct (q_ack _ _). by intros [= <- <- <-].
  - destruct (handler w (body (message rm))) as [[w1 b] []]; [destruct (q_ack _ _)|destruct (q_fail _ _)|]; by intros [= <- <- <-].
Qed.

(** A poll calls the handler at most once, on a key not yet processed; it
    changes the processed keys and the world only through that call. *)
Lemma poll_calls c w r c' w' log : poll_once logged c (w, []) = (r, c', (w', log)) ->
  (log = [] /\ processed_keys c' = processed_keys c /\ handler_invocations c' = handler_invocations c /\ w' = w) \/
  exists k b result, received_key c = Some k /\ k ∉ processed_keys c /\ log = [result] /\ w' = (handler w b).1.1 /\
    match result with
    | Returned => processed_keys c' = {[k]} ∪ processed_keys c /\ handler_invocations c' = handler_invocations c + 1
    | _ => processed_keys c' = processed_keys c /\ handler_invocations c' = handler_invocations c
    end.
Proof.
  unfold poll_once, received_key, settle.
  destruct (q_receive (queue c)) as [[[rm|]|e] q]; cbn; [|by intros [= <- <- <- <-]; left..].
  case_bool_decide as Hk.
  - destruct (q_ack _ _) as [x q']. intros [= <- <- <- <-]. by left.
  - intros E. right. exists (dedup_key (message rm)), (body (message rm)).
    destruct (handler w (body (message rm))) as [[w1 b] result]. exists result. revert E. cbn.
    destruct result; [destruct (q_ack _ _) as [x q']|destruct (q_fail _ _) as [x q']|]; by intros [= <- <- <- <-].
Qed.

(** The keys on which the handler returned. *)
Definition effects (calls : list call) : list (option pystr) :=
  omap (fun call => match call.2 with Returned => Some call.1 | _ => None end) calls.

Lemma effects_cons k result calls :
  effects ((k, result) :: calls) = match result with Returned => [k] | _ => [] end ++ effects calls.
Proof. by destruct result. Qed.

(** A key on which the handler returned is not among the later calls. *)
Definition never_again (calls : list call) : Prop :=
  forall k before after, calls = before ++ (k, Returned) :: after -> k ∉ after.*1.

Lemma never_again_cons k result calls : (result = Returned -> k ∉ calls.*1) -> never_again calls ->
  never_again ((k, result) :: calls).
Proof. intros H Hn k' [|x before] after [= Hk E]; [by simplify_eq; apply H|by eapply Hn]. Qed.

Lemma effects_calls k calls : k ∈ effects calls -> k ∈ calls.*1.
Proof.
  intros ([k' []] & Hc & [= ->])%list_elem_of_omap. change k with (k, Returned).1. by apply list_elem_of_fmap_2.
Qed.

Lemma csteps_processed s calls s' : csteps s calls s' ->
  NoDup (effects calls) /\ never_again calls /\
  (forall o, o ∈ calls.*1 -> exists k, o = Some k /\ k ∉ processed_keys s.1) /\
  (forall k, k ∈ processed_keys s'.1 <-> k ∈ processed_keys s.1 \/ Some k ∈ effects calls) /\
  handler_invocations s'.1 = handler_invocations s.1 + Z.of_nat (length (effects calls)).
Proof.
  induction 1 as [s|c w r c' w' log calls s E _ (IH1 & IHn & IH2 & IH3 & IH4)|c w q w' calls s _ IH].
  - split_and!; [constructor|by intros k [|]|by intros ? ?%elem_of_nil| |cbn; lia]. intros k. rewrite elem_of_nil. tauto.
  - apply poll_calls in E as [(-> & E1 & E2 & _)|(k & b & result & -> & Hk & -> & _ & E)]; cbn [fst map app] in *.
    { rewrite E1 in *. by rewrite E2 in IH4. }
    rewrite effects_cons. destruct result; destruct E as [E1 E2]; rewrite E1 in *; rewrite E2 in IH4; cbn [app].
    2-3: split_and!; try done; [by apply never_again_cons|]; intros o [->|Ho]%elem_of_cons; [by exists k|by apply IH2].
    assert (Hn : Some k ∉ calls.*1) by (intros (k' & [= <-] & Hk')%IH2; set_solver).
    split_and!.
    + constructor; [|done]. by intros ?%effects_calls.
    + by apply never_again_cons.
    + intros o [->|Ho]%elem_of_cons; [by exists k|]. destruct (IH2 _ Ho) as (k' & -> & Hk'). exists k'. set_solver.
    + intros k'. rewrite IH3, elem_of_cons. set_solver.
    + cbn [length]. lia.
  - exact IH.
Qed.

(** C35: whatever the queue redelivers and whatever happens between polls, of
    the calls of the handler that a consumer makes at most one returns for a
    key, none is made for a key on which one returned, and the consumer's
    records are exactly those returns.  The calls are those the handler itself
    has logged. *)
Theorem effects_at_most_once c0 w0 calls c w :
  csteps (c0, w0) calls (c, w) -> processed_keys c0 = ∅ -> handler_invocations c0 = 0 ->
  NoDup (effects calls) /\ never_again calls /\
  (forall o, o ∈ calls.*1 -> is_Some o) /\
  (forall k, k ∈ processed_keys c <-> Some k ∈ effects calls) /\
  handler_invocations c = Z.of_nat (length (effects calls)).
Proof.
  intros H E1 E2. destruct (csteps_processed _ _ _ H) as (H1 & Hn & H0 & H2 & H3). cbn in *.
  rewrite E2 in H3. split_and!; [done|done| | |lia].
  - intros o Ho. destruct (H0 o Ho) as (k & -> & _). by exists k.
  - intros k. rewrite H2, E1. set_solver.
Qed.
End consumer.

(** ** Draining a [StandardQueue] *)

Section drain.
Context {W : Type}.
Variable handler : W -> Body -> W * Body * handled.
Hypothesis never_escapes : forall w b, (handler w b).2 <> Escaped.
Implicit Types (q : StandardQueue) (c : IdempotentConsumer StandardQueue) (w : W) (m : Message).

(** What a poll does with the head [m] of the ready list: it is settled, sent
    back, or dead. *)
Inductive polled q (m : Message) (rest : list Message) (keys : gset pystr) c : Prop :=
| Settled : ready (queue c) = rest -> dlq (queue c) = dlq q -> dedup_key m ∈ processed_keys c -> polled q m rest keys c
| Retried m' : ready (queue c) = rest ++ [m'] -> dlq (queue c) = dlq q -> dedup_key m' = dedup_key m ->
    receive_count m' = receive_count m + 1 -> polled q m rest keys c
| Dead m' : ready (queue c) = rest -> dlq (queue c) = dlq q ++ [m'] -> dedup_key m' = dedup_key m -> polled q m rest keys c.

(** [q1] is [q] with the head of its ready list in flight under [r]. *)
Record holds q (rest : list Message) (r : Z) (m1 : Message) (q1 : StandardQueue) : Prop := {
  h_ready : ready q1 = rest;
  h_dlq : dlq q1 = dlq q;
  h_max : max_receive_count q1 = max_receive_count q;
  h_held : in_flight q1 !! r = Some m1;
  h_flying : delete r (in_flight q1) = in_flight q;
  h_counts : counts_ok q1
}.

Lemma receive_head q m rest : counts_ok q -> ready q = m :: rest ->
  exists q1, receive q = (Ok (Some (mkReceived (next_receipt q) (delivered m))), q1) /\
    holds q rest (next_receipt q) (delivered m) q1.
Proof.
  intros Hq E. pose proof (counts_receive q Hq) as Hq1. unfold receive in *. rewrite E in *. eexists. split; [done|].
  split; try done; cbn; [apply lookup_insert_eq|]. apply delete_insert_id.
  destruct (in_flight q !! next_receipt q) eqn:E'; [|done]. pose proof (receipts_below _ Hq _ _ E') as H. cbn in H. lia.
Qed.

Lemma holds_alias q rest r m1 q1 b : holds q rest r m1 q1 ->
  holds q rest r (mkMessage b (dedup_key m1) (receive_count m1)) (alias r b q1).
Proof.
  intros [H1 H2 H3 H4 H5 H6]. split; try done; cbn.
  - by rewrite lookup_alter_eq, H4.
  - by rewrite delete_alter_eq.
  - by apply counts_alias.
Qed.

(** Settled, the queue is as before the delivery except for the message. *)
Record restored q (rest dead : list Message) (q2 : StandardQueue) : Prop := {
  r_ready : ready q2 = rest;
  r_dlq : dlq q2 = dlq q ++ dead;
  r_max : max_receive_count q2 = max_receive_count q;
  r_flying : in_flight q2 = in_flight q;
  r_counts : counts_ok q2
}.

Lemma ack_held q rest r m1 q1 : holds q rest r m1 q1 -> exists q2, ack r q1 = (Ok tt, q2) /\ restored q rest [] q2.
Proof.
  intros [H1 H2 H3 H4 H5 H6]. pose proof (counts_ack q1 r H6) as H. unfold ack in *. rewrite H4 in *. eexists.
  split; [done|]. split; try done. by rewrite app_nil_r.
Qed.

Lemma fail_held q rest r m1 q1 : holds q rest r m1 q1 -> exists q2, fail r q1 = (Ok tt, q2) /\
  (restored q (rest ++ [m1]) [] q2 \/ restored q rest [m1] q2).
Proof.
  intros [H1 H2 H3 H4 H5 H6]. pose proof (counts_fail q1 r H6) as H. unfold fail in *. rewrite H4 in *.
  destruct (_ <=? _); eexists; (split; [done|]); [right|left]; split; try done; cbn; congruence || by rewrite ?app_nil_r.
Qed.

Lemma poll_head c w m rest : counts_ok (queue c) -> ready (queue c) = m :: rest ->
  exists c' w', poll_once handler c w = (Ok true, c', w') /\ processed_keys c ⊆ processed_keys c' /\
    ((restored (queue c) rest [] (queue c') /\ dedup_key m ∈ processed_keys c') \/
     exists m', dedup_key m' = dedup_key m /\ receive_count m' = receive_count m + 1 /\
       (restored (queue c) (rest ++ [m']) [] (queue c') \/ restored (queue c) rest [m'] (queue c'))).
Proof.
  intros Hq E. destruct (receive_head _ _ _ Hq E) as (q1 & E1 & Hh). unfold poll_once, settle.
  cbn [q_receive q_ack q_fail q_alias standard_queue]. rewrite E1. cbn [receipt_handle message queue with_queue].
  case_bool_decide as Hk.
  - destruct (ack_held _ _ _ _ _ Hh) as (q2 & E2 & Hr). rewrite E2. do 2 eexists. split; [done|]. cbn. auto.
  - pose proof (never_escapes w (body (delivered m))) as Hn.
    destruct (handler w (body (delivered m))) as [[w1 b] result]. apply (holds_alias _ _ _ _ _ b) in Hh.
    destruct result; [| |done]; cbn [queue].
    + destruct (ack_held _ _ _ _ _ Hh) as (q2 & E2 & Hr). rewrite E2. do 2 eexists. split; [done|]. cbn. set_solver.
    + destruct (fail_held _ _ _ _ _ Hh) as (q2 & E2 & Hr). rewrite E2. do 2 eexists. split; [done|].
      split; [done|]. right. eexists. split; [|split; [|exact Hr]]; done.
Qed.

(** The deliveries left before every ready message is settled or dead. *)
Definition remaining q : Z := foldr Z.add 0 (map (fun m => cap q - receive_count m) (ready q)).

Lemma sum_app l k : foldr Z.add 0 (l ++ k) = foldr Z.add 0 l + foldr Z.add 0 k.
Proof. induction l as [|x l IH]; cbn; lia. Qed.

Lemma remaining_restored q m rest rest' dead q' : ready q = m :: rest -> receive_count m < cap q ->
  restored q rest' dead q' -> rest' = rest \/ (exists m', rest' = rest ++ [m'] /\ receive_count m' = receive_count m + 1) ->
  remaining q' <= remaining q - 1.
Proof.
  intros E Hm [H1 _ H3 _ _] H. unfold remaining, cap in *. rewrite H1, H3, E. cbn [map foldr].
  destruct H as [->|(m' & -> & Hm')]; [lia|]. rewrite map_app, sum_app. cbn. lia.
Qed.

Lemma remaining_pos q : counts_ok q -> 0 <= remaining q.
Proof. intros [H _ _ _ _]. unfold remaining. induction H; cbn; lia. Qed.

(** Every key is processed or among the dead ones, and the dead ones are keys. *)
Definition settled_all (keys : list pystr) (processed : gset pystr) (dead : list pystr) : Prop :=
  (forall k, k ∈ keys -> k ∈ processed \/ k ∈ dead) /\ (forall k, k ∈ dead -> k ∈ keys).

Lemma settled_done k ks P ds : k ∈ P -> settled_all ks P ds -> settled_all (k :: ks) P ds.
Proof.
  intros Hk [H1 H2]. split; [|intros; right; auto]. intros k' [->|Hk']%elem_of_cons; [by left|auto].
Qed.

Lemma settled_retried k ks P ds : settled_all (ks ++ [k]) P ds -> settled_all (k :: ks) P ds.
Proof.
  intros [H1 H2]. assert (Hp : k :: ks ≡ₚ ks ++ [k]) by apply Permutation_cons_append.
  split; intros k'; rewrite Hp; auto.
Qed.

Lemma settled_dead k ks P ds : settled_all ks P ds -> settled_all (k :: ks) P (k :: ds).
Proof.
  intros [H1 H2]. split; intros k'; rewrite !elem_of_cons; intros [->|Hk']; auto. destruct (H1 k' Hk'); auto.
Qed.

Lemma restored_trans q rest dead q' rest' dead' q'' :
  restored q rest dead q' -> restored q' rest' dead' q'' -> restored q rest' (dead ++ dead') q''.
Proof.
  intros [H1 H2 H3 H4 H5] [K1 K2 K3 K4 K5]. split; try congruence. by rewrite K2, H2, app_assoc.
Qed.

Lemma drain_loop_settles n : forall c w, counts_ok (queue c) -> remaining (queue c) < Z.of_nat n ->
  exists c' w' dead, drain_loop handler n c w = (Ok tt, c', w') /\ restored (queue c) [] dead (queue c') /\
    processed_keys c ⊆ processed_keys c' /\ settled_all (map dedup_key (ready (queue c))) (processed_keys c') (map dedup_key dead).
Proof.
  induction n as [|n IH]; intros c w Hq Hn; [pose proof (remaining_pos _ Hq); lia|].
  cbn [drain_loop]. destruct (ready (queue c)) as [|m rest] eqn:E.
  { unfold poll_once. cbn [q_receive standard_queue]. unfold receive. rewrite E. do 2 eexists. exists []. split; [done|].
    cbn [queue with_queue processed_keys]. split_and!; [split; try done; symmetry; apply app_nil_r|done|].
    split; by intros k ?%elem_of_nil. }
  assert (Hm : receive_count m < cap (queue c)).
  { pose proof (ready_counts _ Hq) as H. rewrite E in H. apply Forall_inv in H. lia. }
  destruct (poll_head c w m rest Hq E) as (c1 & w1 & -> & Hk1 & Hcase).
  assert (Hgo : forall rest' dead1, restored (queue c) rest' dead1 (queue c1) ->
    (rest' = rest \/ exists m', rest' = rest ++ [m'] /\ receive_count m' = receive_count m + 1) ->
    exists c' w' dead, drain_loop handler n c1 w1 = (Ok tt, c', w') /\ restored (queue c) [] (dead1 ++ dead) (queue c') /\
      processed_keys c1 ⊆ processed_keys c' /\ settled_all (map dedup_key (ready (queue c1))) (processed_keys c') (map dedup_key dead)).
  { intros rest' dead1 Hr Hrest. pose proof (remaining_restored _ _ _ _ _ _ E Hm Hr Hrest).
    destruct (IH c1 w1 (r_counts _ _ _ _ Hr) ltac:(lia)) as (c' & w' & dead & E' & Hr' & Hk & Hs).
    exists c', w', dead. split_and!; try done. by eapply restored_trans. }
  cbn [map]. destruct Hcase as [[Hr Hp]|(m' & Hkey & Hcount & [Hr|Hr])].
  - destruct (Hgo _ _ Hr ltac:(by left)) as (c' & w' & dead & E' & Hr' & Hk & Hs). exists c', w', dead.
    rewrite (r_ready _ _ _ _ Hr) in Hs. split_and!; try done; [set_solver|]. apply settled_done; [set_solver|done].
  - destruct (Hgo _ _ Hr ltac:(eauto)) as (c' & w' & dead & E' & Hr' & Hk & Hs). exists c', w', dead.
    rewrite (r_ready _ _ _ _ Hr), map_app in Hs. cbn in Hs. rewrite Hkey in Hs. split_and!; try done; [set_solver|].
    by apply settled_retried.
  - destruct (Hgo _ _ Hr ltac:(by left)) as (c' & w' & dead & E' & Hr' & Hk & Hs). exists c', w', ([m'] ++ dead).
    rewrite (r_ready _ _ _ _ Hr) in Hs. cbn [map app]. rewrite Hkey. split_and!; try done; [set_solver|].
    by apply settled_dead.
Qed.

(** C38: when no handler call escapes and the bound exceeds the deliveries
    left, [drain] returns with the ready list empty and what was in flight
    unchanged; every ready message was processed or moved to the dead-letter
    list after the maximum number of deliveries. *)
Theorem drain_settles c w max_iterations : counts_ok (queue c) -> remaining (queue c) < max_iterations ->
  exists c' w' dead, drain handler max_iterations c w = (Ok tt, c', w') /\ ready (queue c') = [] /\
    in_flight (queue c') = in_flight (queue c) /\ dlq (queue c') = dlq (queue c) ++ dead /\
    Forall (fun m => receive_count m = cap (queue c)) dead /\
    processed_keys c ⊆ processed_keys c' /\ settled_all (map dedup_key (ready (queue c))) (processed_keys c') (map dedup_key dead).
Proof.
  intros Hq Hn. pose proof (remaining_pos _ Hq).
  destruct (drain_loop_settles (Z.to_nat max_iterations) c w Hq ltac:(lia)) as (c' & w' & dead & E & Hr & Hk & Hs).
  exists c', w', dead. destruct Hr as [H1 H2 H3 H4 [_ _ H5 _ _]]. split_and!; try done.
  rewrite H2, Forall_app in H5. destruct H5 as [_ H5]. unfold cap in *. by rewrite H3 in H5.
Qed.
End drain.

(** With as many iterations as messages every message is processed, but the
    loop ends without the poll that would find the queue empty, and [drain]
    reports a redelivery loop. *)
Section exact.
Context {W : Type}.
Variable handler : W -> Body -> W * Body * handled.
Hypothesis always_returns : forall w b, (handler w b).2 = Returned.
Implicit Types (c : IdempotentConsumer StandardQueue) (w : W).

Lemma poll_returns c w m rest : counts_ok (queue c) -> ready (queue c) = m :: rest ->
  exists c' w', poll_once handler c w = (Ok true, c', w') /\ processed_keys c ⊆ processed_keys c' /\
    restored (queue c) rest [] (queue c') /\ dedup_key m ∈ processed_keys c'.
Proof.
  intros Hq E. destruct (receive_head _ _ _ Hq E) as (q1 & E1 & Hh). unfold poll_once, settle.
  cbn [q_receive q_ack q_fail q_alias standard_queue]. rewrite E1. cbn [receipt_handle message queue with_queue].
  case_bool_decide as Hk.
  - destruct (ack_held _ _ _ _ _ Hh) as (q2 & E2 & Hr). rewrite E2. do 2 eexists. split; [done|]. cbn. auto.
  - pose proof (always_returns w (body (delivered m))) as Hn.
    destruct (handler w (body (delivered m))) as [[w1 b] result]. cbn in Hn. subst result.
    apply (holds_alias _ _ _ _ _ b) in Hh. cbn [queue].
    destruct (ack_held _ _ _ _ _ Hh) as (q2 & E2 & Hr). rewrite E2. do 2 eexists. split; [done|]. cbn. set_solver.
Qed.

Lemma drain_exact_raises c w : counts_ok (queue c) ->
  exists c' w', drain handler (ready_depth (queue c)) c w = (Raise QueueError, c', w') /\ ready (queue c') = [] /\
    processed_keys c ⊆ processed_keys c' /\ (forall m, m ∈ ready (queue c) -> dedup_key m ∈ processed_keys c').
Proof.
  unfold drain, ready_depth. rewrite Nat2Z.id. remember (ready (queue c)) as l eqn:E. symmetry in E. revert c w E.
  induction l as [|m rest IH]; intros c w E Hq; cbn [length drain_loop].
  { do 2 eexists. split_and!; [done..|]. by intros m ?%elem_of_nil. }
  destruct (poll_returns c w m rest Hq E) as (c1 & w1 & -> & Hk & Hr & Hm).
  destruct (IH c1 w1 (r_ready _ _ _ _ Hr) (r_counts _ _ _ _ Hr)) as (c' & w' & E' & He & Hk' & Hall).
  exists c', w'. split_and!; [done|done|set_solver|]. intros x [->|Hx]%elem_of_cons; [by apply Hk'|by apply Hall].
Qed.
End exact.

(** ** On a small scenario *)

(** Succeeds on the body of [s], fails on any other. *)
Definition sample_handler (w : Z) (b : Body) : Z * Body * handled :=
  (w + 1, b, if bool_decide (b = sample_body) then Returned else Raised).
Definition sample_queue : StandardQueue :=
  state (run (new_queue (str "jobs") 3) [Send sample_body (str "s"); Send [] (str "t"); Send sample_body (str "s")]).
Definition sample_consumer : IdempotentConsumer StandardQueue := mkConsumer sample_queue ∅ 0.

Lemma sample_poll c w c' w' log r calls l s : poll_once (logged sample_handler) c (w, []) = (r, c', (w', log)) ->
  l = map (pair (received_key c)) log ++ calls -> csteps sample_handler (c', w') calls s ->
  csteps sample_handler (c, w) l s.
Proof. intros H -> Hs. by eapply cs_poll. Qed.

(** The key [s] is delivered twice and [t] fails once. *)
Definition sample_calls : list call := [(Some (str "s"), Returned); (Some (str "t"), Raised)].

Lemma effects_at_most_once_witness : exists c w, csteps sample_handler (sample_consumer, 0) sample_calls (c, w) /\
  handler_invocations c = 1 /\ NoDup (effects sample_calls).
Proof.
  assert (H : exists s, csteps sample_handler (sample_consumer, 0) sample_calls s).
  { eexists. eapply (sample_poll _ _ _ _ _ _ [(Some (str "t"), Raised)]); [vm_compute; reflexivity..|].
    eapply (sample_poll _ _ _ _ _ _ []); [vm_compute; reflexivity..|].
    eapply (sample_poll _ _ _ _ _ _ []); [vm_compute; reflexivity..|]. apply cs_refl. }
  destruct H as [[c w] H]. exists c, w. split; [exact H|].
  destruct (effects_at_most_once _ _ _ _ _ _ H eq_refl eq_refl) as (H1 & _ & _ & _ & H2). split; [exact H2|exact H1].
Defined.

Lemma drain_settles_witness : exists c w dead,
  drain sample_handler 10 sample_consumer 0 = (Ok tt, c, w) /\ ready (queue c) = [] /\
  map dedup_key (dlq (queue c)) = map dedup_key dead.
Proof.
  assert (Hn : forall w b, (sample_handler w b).2 <> Escaped).
  { intros w b. unfold sample_handler. cbn. by destruct (bool_decide _). }
  assert (Hq : counts_ok (queue sample_consumer)) by apply (acc_counts _ (accounted_run _ _ _)).
  destruct (drain_settles sample_handler Hn sample_consumer 0 10 Hq eq_refl) as (c & w & dead & E & H1 & _ & H2 & _).
  exists c, w, dead. split; [exact E|]. split; [exact H1|]. rewrite H2. reflexivity.
Defined.
