(* ===== verification/PyText.v ===== *)
(** * Dicts with string keys, identifiers as text, and state

    A dict whose keys are strings, in insertion order; [sep.join]; the text of
    bytes in hexadecimal and of a UUID; then the monad of stateful code that
    may raise. *)
From stdpp Require Import base tactics list strings.
From Stdlib Require Import ZArith Lia.
From S2P Require Import Prelude PyData Sha256 Ordering PyDict Json.

Open Scope Z_scope.

(** ** Dicts with string keys, in insertion order *)

Fixpoint dict_get {V} (d : list (pystr * V)) (k : pystr) : option V :=
  match d with
  | [] => None
  | (k', v) :: d => if str_eqb k' k then Some v else dict_get d k
  end.

(** [d[k] = v] keeps the place of a present key. *)
Fixpoint dict_set {V} (d : list (pystr * V)) (k : pystr) (v : V) : list (pystr * V) :=
  match d with
  | [] => [(k, v)]
  | (k', w) :: d => if str_eqb k' k then (k', v) :: d else (k', w) :: dict_set d k v
  end.

Section dict.
Context {V : Type}.
Implicit Types (d : list (pystr * V)) (k : pystr).

Lemma dict_get_set d k v k' : dict_get (dict_set d k v) k' = if str_eqb k k' then Some v else dict_get d k'.
Proof.
  unfold str_eqb. induction d as [|[k0 w] d IH]; cbn; unfold str_eqb; [by case_bool_decide|].
  destruct (bool_decide (k0 = k)) eqn:E; cbn; unfold str_eqb.
  - apply bool_decide_eq_true in E as ->. by case_bool_decide.
  - apply bool_decide_eq_false in E. destruct (bool_decide (k0 = k')) eqn:E'; [|done].
    apply bool_decide_eq_true in E' as ->. by rewrite bool_decide_false.
Qed.
End dict.

Lemma dict_get_elem {V} (d : list (pystr * V)) k v : NoDup d.*1 -> dict_get d k = Some v <-> (k, v) ∈ d.
Proof.
  induction d as [|[k' w] d IH]; intros Hnd; cbn; [by rewrite elem_of_nil|]. apply NoDup_cons in Hnd as [Hk Hnd].
  unfold str_eqb. rewrite elem_of_cons. case_bool_decide as E.
  - subst k'. split; [intros [= ->]; by left|]. intros [[= ->]|Hin]; [done|]. exfalso. apply Hk. by apply (list_elem_of_fmap_2 fst) in Hin.
  - rewrite (IH Hnd). split; [by right|]. intros [[= -> ->]|Hin]; [done|exact Hin].
Qed.

Lemma dict_get_None {V} (d : list (pystr * V)) k : dict_get d k = None <-> k ∉ d.*1.
Proof.
  induction d as [|[k' v] d IH]; cbn; [split; [intros _; apply not_elem_of_nil|done]|]. unfold str_eqb. rewrite not_elem_of_cons, <-IH. case_bool_decide; naive_solver.
Qed.

Lemma dict_get_perm {V} (d d' : list (pystr * V)) k : NoDup d.*1 -> d ≡ₚ d' -> dict_get d k = dict_get d' k.
Proof.
  intros Hnd Hp. assert (Hnd' : NoDup d'.*1) by (by rewrite <-Hp). apply option_eq. intros v.
  by rewrite !dict_get_elem, Hp.
Qed.

(** ** Text *)

(** [sep.join(l)] *)
Fixpoint join (sep : pystr) (l : list pystr) : pystr :=
  match l with [] => [] | [x] => x | x :: l => x ++ sep ++ join sep l end.

(** A [UUID], by its 128-bit value. *)
Definition UUID := Z.

(** [str(uuid)] *)
Definition uuid_str (u : UUID) : pystr :=
  let h := hex (to_bytes 16 u) in
  join [45] [take 8 h; take 4 (drop 8 h); take 4 (drop 12 h); take 4 (drop 16 h); drop 20 h].

#[global] Arguments uuid_str : simpl never.

Lemma hex_ascii bs : Forall is_byte bs -> Forall (fun c => 48 <= c < 128) (hex bs).
Proof.
  assert (Hd : forall d, 0 <= d < 16 -> 48 <= hex_digit d < 128) by (intros d Hd; unfold hex_digit; destruct (Z.ltb_spec d 10); lia).
  induction 1 as [|b bs [H1 H2] Hbs IH]; [constructor|]. unfold hex. cbn [map concat app]. repeat constructor; try apply Hd.
  all: try exact IH. all: pose proof (Z.mod_pos_bound b 16); pose proof (Z.div_pos b 16); pose proof (Z.div_lt_upper_bound b 16 16); lia.
Qed.

Lemma length_hex bs : length (hex bs) = (2 * length bs)%nat.
Proof. unfold hex. induction bs as [|b bs IH]; [done|]. cbn [map concat app length]. rewrite IH. lia. Qed.

Lemma uuid_str_inj u v : 0 <= u < 2 ^ 128 -> 0 <= v < 2 ^ 128 -> uuid_str u = uuid_str v -> u = v.
Proof.
  intros Hu Hv E. apply (to_bytes_inj 16); [done..|]. apply hex_inj; [apply to_bytes_is_byte..|].
  unfold uuid_str, join in E. set (a := hex (to_bytes 16 u)) in *. set (b := hex (to_bytes 16 v)) in *.
  assert (La : length a = 32%nat) by (unfold a; rewrite length_hex, length_to_bytes; done).
  assert (Lb : length b = 32%nat) by (unfold b; rewrite length_hex, length_to_bytes; done).
  clearbody a b. do 33 (destruct a as [|? a]; try done). do 33 (destruct b as [|? b]; try done).
  cbn in E. congruence.
Qed.

Lemma length_uuid_str u : length (uuid_str u) = 36%nat.
Proof.
  unfold uuid_str, join. pose proof (length_hex (to_bytes 16 u)) as L. rewrite length_to_bytes in L. set (a := hex _) in *. clearbody a.
  do 33 (destruct a as [|? a]; try done).
Qed.

(** * Stateful code that may raise

    A computation reads and writes a state of type [S] and returns or raises;
    the state after it is there in both cases.  Loops run a body over a list.
    [keeps f m]: whatever [m] does, the part [f] of the state is as before. *)

Definition St (S A : Type) : Type := S -> outcome A * S.

Definition sret {S A} (a : A) : St S A := fun s => (Ok a, s).
Definition sraise {S A} (e : exc) : St S A := fun s => (Raise e, s).
Definition slift {S A} (o : outcome A) : St S A := fun s => (o, s).
Definition sbind {S A B} (m : St S A) (f : A -> St S B) : St S B :=
  fun s => match m s with (Ok a, s') => f a s' | (Raise e, s') => (Raise e, s') end.
Definition sget {S A} (f : S -> A) : St S A := fun s => (Ok (f s), s).
Definition sput {S} (f : S -> S) : St S unit := fun s => (Ok tt, f s).

(** [except]: the handler takes the exception and the state the body left. *)
Definition scatch {S A} (m : St S A) (handler : exc -> St S A) : St S A :=
  fun s => match m s with (Ok a, s') => (Ok a, s') | (Raise e, s') => handler e s' end.

(** [except Exception] catches all but the other [BaseException]s. *)
Definition is_exception (e : exc) : bool := match e with BaseException => false | _ => true end.

Declare Scope st_scope.
Notation "x ⟸ m ; k" := (sbind m (fun x => k)) (at level 100, m at next level, right associativity) : st_scope.
Notation "m ⨟ k" := (sbind m (fun _ => k)) (at level 100, right associativity) : st_scope.
Open Scope st_scope.

(** [for x in l: body(x)], with an accumulator. *)
Fixpoint sfold {S A B} (body : B -> A -> St S B) (acc : B) (l : list A) : St S B :=
  match l with
  | [] => sret acc
  | x :: l => acc' ⟸ body acc x; sfold body acc' l
  end.

Fixpoint smap {S A B} (body : A -> St S B) (l : list A) : St S (list B) :=
  match l with
  | [] => sret []
  | x :: l => y ⟸ body x; ys ⟸ smap body l; sret (y :: ys)
  end.

Section rules.
Context {S A B : Type}.
Implicit Types (m : St S A) (f : A -> St S B).

Lemma sbind_Ok m f s b s' : sbind m f s = (Ok b, s') <-> exists a t, m s = (Ok a, t) /\ f a t = (Ok b, s').
Proof.
  unfold sbind. destruct (m s) as [[a|e] t]; split; [by eauto|by intros (? & ? & [= <- <-] & ?)|done|by intros (? & ? & ? & ?)].
Qed.

Lemma sbind_split m f s r s' : sbind m f s = (r, s') ->
  (exists a t, m s = (Ok a, t) /\ f a t = (r, s')) \/ (exists e, m s = (Raise e, s') /\ r = Raise e).
Proof. unfold sbind. destruct (m s) as [[a|e] t]; [left; by eexists _, _|intros [= <- <-]; right; by eexists]. Qed.

Lemma sbind_Raise m f s e s' : sbind m f s = (Raise e, s') <->
  m s = (Raise e, s') \/ exists a t, m s = (Ok a, t) /\ f a t = (Raise e, s').
Proof. unfold sbind. destruct (m s) as [[a|e'] t]; naive_solver. Qed.

Lemma slift_Ok (o : outcome A) (s s' : S) a : slift o s = (Ok a, s') <-> o = Ok a /\ s' = s.
Proof. unfold slift. naive_solver. Qed.
End rules.

Definition keeps {S A X} (part : S -> X) (m : St S A) : Prop := forall s, part (m s).2 = part s.

Lemma keeps_run {S A X} (part : S -> X) (m : St S A) s r s' : keeps part m -> m s = (r, s') -> part s' = part s.
Proof. intros H E. specialize (H s). by rewrite E in H. Qed.

Create HintDb keeps.

Section keeps.
Context {S X : Type} (part : S -> X).

Lemma keeps_ret {A} (a : A) : keeps part (sret a).
Proof. done. Qed.
Lemma keeps_raise {A} e : keeps part (@sraise S A e).
Proof. done. Qed.
Lemma keeps_lift {A} (o : outcome A) : keeps part (slift o).
Proof. done. Qed.
Lemma keeps_get {A} (f : S -> A) : keeps part (sget f).
Proof. done. Qed.
Lemma keeps_put f : (forall s, part (f s) = part s) -> keeps part (sput f).
Proof. intros H s. apply H. Qed.

Lemma keeps_bind {A B} (m : St S A) (f : A -> St S B) : keeps part m -> (forall a, keeps part (f a)) -> keeps part (sbind m f).
Proof. intros Hm Hf s. unfold sbind. specialize (Hm s). destruct (m s) as [[a|e] t]; cbn in *; [by rewrite Hf|done]. Qed.

Lemma keeps_catch {A} (m : St S A) h : keeps part m -> (forall e, keeps part (h e)) -> keeps part (scatch m h).
Proof. intros Hm Hh s. unfold scatch. specialize (Hm s). destruct (m s) as [[a|e] t]; cbn in *; [done|by rewrite Hh]. Qed.

Lemma keeps_if {A} (b : bool) (m k : St S A) : keeps part m -> keeps part k -> keeps part (if b then m else k).
Proof. by destruct b. Qed.
End keeps.

#[export] Hint Resolve keeps_ret keeps_raise keeps_lift keeps_get keeps_bind keeps_catch keeps_if : keeps.

Lemma keeps_fold {S X A B} (part : S -> X) (body : B -> A -> St S B) l : (forall b x, keeps part (body b x)) ->
  forall acc, keeps part (sfold body acc l).
Proof. intros H. induction l as [|x l IH]; intros acc; cbn [sfold]; auto with keeps. Qed.

Lemma keeps_map {S X A B} (part : S -> X) (body : A -> St S B) l : (forall x, keeps part (body x)) -> keeps part (smap body l).
Proof. intros H. induction l as [|x l IH]; cbn [smap]; auto 6 with keeps. Qed.

#[export] Hint Resolve keeps_fold keeps_map : keeps.
