(* ===== verification/Guard.v ===== *)
(** * The tenant guard ([services/control_plane/guard.py], [constants.py])

    [CPGuard] checks the tenancy headers of a request against the claims of its
    token and the role against the RBAC matrix; [OrgScopedStore] is the
    in-memory stand-in for row-level security.  Roles, resources and actions
    are the strings the code compares. *)
From stdpp Require Import base tactics list strings.
From Stdlib Require Import ZArith Lia.
From S2P Require Import Prelude PyData PyText.

Open Scope Z_scope.

(** ** [str.upper] and [str.lower]

    Exact on every code point whose image is ASCII text: the ASCII letters, the
    eleven other code points below, and no more.  The code compares the results
    with ASCII text only, which no other image equals. *)

Definition upper_special : list (Z * pystr) :=
  [(223, str "SS"); (305, str "I"); (383, str "S"); (64256, str "FF"); (64257, str "FI"); (64258, str "FL");
   (64259, str "FFI"); (64260, str "FFL"); (64261, str "ST"); (64262, str "ST")]%string.

Definition upper_char (c : Z) : pystr :=
  if (97 <=? c) && (c <=? 122) then [c - 32]
  else match list_find (fun cs => cs.1 = c) upper_special with Some (_, (_, s)) => s | None => [c] end.

Definition upper (s : pystr) : pystr := concat (map upper_char s).

Definition lower_char (c : Z) : Z :=
  if (65 <=? c) && (c <=? 90) then c + 32 else if c =? 8490 then 107 else c.

Definition lower (s : pystr) : pystr := map lower_char s.

(** ** The RBAC matrix and the error codes *)

Definition RBAC : list (pystr * list (pystr * list pystr)) :=
  let row items := map (fun ra => (str ra.1, map str ra.2)) items in
  [(str "org-admin",
     row [("scans", ["submit"; "read"]); ("snapshots", ["submit"; "read"]); ("codebases", ["create"; "read"; "update_creds"]);
          ("findings", ["read"; "patch_status"]); ("attestations", ["read"])]);
   (str "org-viewer",
     row [("scans", ["read"]); ("snapshots", ["read"]); ("codebases", ["read"]); ("findings", ["read"]);
          ("attestations", ["read"])]);
   (str "scanner",
     row [("scans", ["submit"; "read"]); ("snapshots", ["submit"; "read"]); ("codebases", []); ("findings", ["read"]);
          ("attestations", ["read"])])]%string.

Definition ERROR_HTTP_STATUS : list (pystr * Z) :=
  map (fun cs => (str cs.1, cs.2))
   [("unauthenticated", 401); ("role_denied", 403); ("org_mismatch", 403); ("tenant_isolation_violation", 403);
    ("not_found", 404); ("rate_limited", 429); ("llm_quota_exceeded", 429); ("invariant_inv2_violation", 422);
    ("kms_key_missing", 500); ("conflicting_status_transition", 409)]%string.

Definition SCANNER_USER_ID : pystr := str "scanner".

(** ** Verbs and actions *)

Definition _POST_ACTION : list (pystr * pystr) :=
  map (fun ra => (str ra.1, str ra.2))
   [("scans", "submit"); ("snapshots", "submit"); ("codebases", "create"); ("findings", "patch_status");
    ("attestations", "read")]%string.

Definition _action_for (method resource : pystr) : pystr :=
  let verb := upper method in
  if str_eqb verb (str "GET") then str "read"
  else if bool_decide (verb ∈ map str ["POST"; "PUT"]%string) then default (str "forbidden") (dict_get _POST_ACTION resource)
  else if str_eqb verb (str "PATCH") then str "patch_status"
  else str "forbidden".

(** ** Claims and envelopes *)

Record JWTClaims := mkClaims {
  c_user_id : pystr;
  c_org_id : pystr;
  c_role : pystr;
  c_issued_at : Z;
  c_expires_at : Z
}.

Record ErrorEnvelope := mkEnvelope {
  e_error_code : pystr;
  e_message : pystr;
  e_trace_id : pystr;
  e_details : option (list (pystr * pystr))
}.

(** [ErrorEnvelope.http_status] *)
Definition http_status (e : ErrorEnvelope) : outcome Z :=
  match dict_get ERROR_HTTP_STATUS (e_error_code e) with Some s => Ok s | None => Raise KeyError end.

(** ** [OrgScopedStore] *)

Section store.
Context {Row : Type}.

Record OrgRow := mkRow {
  r_org_id : pystr;
  r_payload : Row
}.

Record OrgScopedStore := mkStore {
  st_rows : list (pystr * OrgRow);
  st_session : option pystr
}.

Definition empty_store : OrgScopedStore := mkStore [] None.

Definition seed (row_id org : pystr) (payload : Row) (st : OrgScopedStore) : OrgScopedStore :=
  mkStore (dict_set (st_rows st) row_id (mkRow org payload)) (st_session st).

Definition set_session (org : pystr) (st : OrgScopedStore) : OrgScopedStore := mkStore (st_rows st) (Some org).
Definition clear_session (st : OrgScopedStore) : OrgScopedStore := mkStore (st_rows st) None.

Definition _require_session (st : OrgScopedStore) : outcome pystr :=
  match st_session st with Some org => Ok org | None => Raise TenantIsolationError end.

Definition query (st : OrgScopedStore) : outcome (list Row) :=
  obind (_require_session st) (fun org =>
  Ok (map (fun kr => r_payload kr.2) (List.filter (fun kr => str_eqb (r_org_id kr.2) org) (st_rows st)))).

Definition query_one (row_id : pystr) (st : OrgScopedStore) : outcome (option Row) :=
  obind (_require_session st) (fun org =>
  Ok match dict_get (st_rows st) row_id with
     | None => None
     | Some row => if str_eqb (r_org_id row) org then Some (r_payload row) else None
     end).
End store.
Arguments OrgRow : clear implicits.
Arguments OrgScopedStore : clear implicits.
Arguments mkStore {Row} _ _.
Arguments mkRow {Row} _ _.

(** ** [CPGuard] *)

(** [_ci_get]: the first header whose name matches. *)
Fixpoint _ci_get (headers : list (pystr * pystr)) (name : pystr) : option pystr :=
  match headers with
  | [] => None
  | (key, value) :: headers => if str_eqb (lower key) (lower name) then Some value else _ci_get headers name
  end.

Definition HEADER_ORG_ID : pystr := str "X-Scanipy-Org-Id".
Definition HEADER_USER_ID : pystr := str "X-Scanipy-User-Id".

Definition expected_user (claims : JWTClaims) : pystr :=
  if str_eqb (c_role claims) (str "scanner") then SCANNER_USER_ID else c_user_id claims.

Definition check_tenancy_header (claims : JWTClaims) (headers : list (pystr * pystr)) (route trace_id : pystr) :
    option ErrorEnvelope :=
  match _ci_get headers HEADER_ORG_ID, _ci_get headers HEADER_USER_ID with
  | Some header_org, Some header_user =>
      if negb (str_eqb header_org (c_org_id claims)) then
        Some (mkEnvelope (str "org_mismatch") (str "tenancy header does not match authenticated org") trace_id
          (Some [(str "header_org_id", header_org); (str "jwt_org_id", c_org_id claims);
                 (str "user_id", c_user_id claims); (str "route", route)]))
      else if negb (str_eqb header_user (expected_user claims)) then
        Some (mkEnvelope (str "org_mismatch") (str "tenancy user header does not match authenticated user") trace_id
          (Some [(str "route", route); (str "user_id", c_user_id claims)]))
      else None
  | _, _ => Some (mkEnvelope (str "unauthenticated") (str "missing tenancy header") trace_id None)
  end.

(** [RBAC.get(role, {}).get(resource, frozenset())] *)
Definition granted_actions (role resource : pystr) : list pystr :=
  default [] (dict_get (default [] (dict_get RBAC role)) resource).

Definition check_rbac (claims : JWTClaims) (method resource trace_id : pystr) : option ErrorEnvelope :=
  let required := _action_for method resource in
  if bool_decide (required ∈ granted_actions (c_role claims) resource) then None
  else Some (mkEnvelope (str "role_denied") (str "role lacks permission for this endpoint") trace_id
    (Some [(str "role", c_role claims); (str "resource", resource); (str "required_action", required)])).

Definition authorize_request (claims : JWTClaims) (headers : list (pystr * pystr)) (method resource route trace_id : pystr) :
    option ErrorEnvelope :=
  match check_tenancy_header claims headers route trace_id with
  | Some tenancy => Some tenancy
  | None => check_rbac claims method resource trace_id
  end.

Definition isolation_error_envelope (trace_id : pystr) : ErrorEnvelope :=
  mkEnvelope (str "tenant_isolation_violation") (str "query reached the data layer without a bound tenant") trace_id None.

Definition not_found_envelope (trace_id : pystr) : ErrorEnvelope :=
  mkEnvelope (str "not_found") (str "resource not found") trace_id None.

(** ** The request seam ([db/session.py]) *)

(** [authorize_request_for_binding] delegates to the guard. *)
Definition authorize_request_for_binding := authorize_request.

(** [request_binding_args] *)
Definition request_binding_args (claims : JWTClaims) : list (pystr * pystr) :=
  [(str "org_id", c_org_id claims); (str "user_id", expected_user claims); (str "role", c_role claims)].

(** * What the tenant guard enforces

    A request passes exactly when its headers agree with its claims and the
    role holds the verb's capability; the store shows a tenant its own rows. *)

(** ** Roles *)

(** The capabilities of the API documentation: role, resource, upper-cased verb. *)
Definition ALLOWED : list (string * string * string) :=
  let all := ["org-admin"; "org-viewer"; "scanner"] in
  let every roles resource verbs := flat_map (fun role => map (fun verb => (role, resource, verb)) verbs) roles in
  every all "scans" ["GET"] ++ every all "snapshots" ["GET"] ++ every ["org-admin"; "org-viewer"] "codebases" ["GET"] ++
  every all "findings" ["GET"] ++ every all "attestations" ["GET"; "POST"; "PUT"] ++
  every ["org-admin"; "scanner"] "scans" ["POST"; "PUT"] ++ every ["org-admin"; "scanner"] "snapshots" ["POST"; "PUT"] ++
  every ["org-admin"] "codebases" ["POST"; "PUT"] ++ every ["org-admin"] "findings" ["POST"; "PUT"; "PATCH"].

Definition allowed (role resource verb : pystr) : Prop :=
  (role, resource, verb) ∈ map (fun t => (str t.1.1, str t.1.2, str t.2)) ALLOWED.

#[export] Instance allowed_dec role resource verb : Decision (allowed role resource verb).
Proof. unfold allowed. apply _. Defined.

Definition ROLES : list pystr := map str ["org-admin"; "org-viewer"; "scanner"]%string.
Definition RESOURCES : list pystr := map str ["scans"; "snapshots"; "codebases"; "findings"; "attestations"]%string.
Definition VERBS : list pystr := map str ["GET"; "POST"; "PUT"; "PATCH"]%string.

Definition action_of (verb resource : pystr) : pystr :=
  if str_eqb verb (str "GET") then str "read"
  else if bool_decide (verb ∈ map str ["POST"; "PUT"]%string) then default (str "forbidden") (dict_get _POST_ACTION resource)
  else if str_eqb verb (str "PATCH") then str "patch_status"
  else str "forbidden".

Definition agree (role resource verb : pystr) : bool :=
  Bool.eqb (bool_decide (action_of verb resource ∈ granted_actions role resource)) (bool_decide (allowed role resource verb)).

Lemma listed_agree : forallb (fun role => forallb (fun resource => forallb (agree role resource)
  (str "DELETE" :: VERBS)) RESOURCES) ROLES = true.
Proof. vm_compute. reflexivity. Qed.

Lemma dict_get_none {V} (d : list (pystr * V)) k : k ∉ d.*1 -> dict_get d k = None.
Proof.
  induction d as [|[k' v] d IH]; [done|]. cbn. intros [H1 H2]%not_elem_of_cons. unfold str_eqb.
  rewrite bool_decide_false by done. auto.
Qed.

Lemma not_forbidden role resource : str "forbidden" ∉ granted_actions role resource.
Proof.
  unfold granted_actions. intros H.
  assert (Hf : forallb (fun rr : pystr * list (pystr * list pystr) => forallb (fun ra : pystr * list pystr =>
    bool_decide (str "forbidden" ∉ ra.2)) rr.2) RBAC = true) by (vm_compute; reflexivity).
  assert (Hin : forall V (d : list (pystr * V)) k v, dict_get d k = Some v -> (k, v) ∈ d).
  { intros V d k v. induction d as [|[k' w] d IH]; cbn; [done|]. unfold str_eqb. case_bool_decide as E; [|by right; auto].
    intros [= ->]. subst. by left. }
  destruct (dict_get RBAC role) as [rr|] eqn:E1; [|by apply elem_of_nil in H]. apply Hin in E1. cbn in H.
  destruct (dict_get rr resource) as [actions|] eqn:E2; [|by apply elem_of_nil in H]. apply Hin in E2.
  rewrite forallb_forall in Hf. apply list_elem_of_In in E1. specialize (Hf _ E1). cbn in Hf.
  rewrite forallb_forall in Hf. apply list_elem_of_In in E2. specialize (Hf _ E2). cbn in Hf.
  by apply bool_decide_eq_true in Hf.
Qed.

Lemma allowed_listed role resource verb : allowed role resource verb -> role ∈ ROLES /\ resource ∈ RESOURCES /\ verb ∈ VERBS.
Proof.
  intros H. assert (Hl : forallb (fun t : string * string * string => bool_decide (str t.1.1 ∈ ROLES) &&
    bool_decide (str t.1.2 ∈ RESOURCES) && bool_decide (str t.2 ∈ VERBS)) ALLOWED = true) by (vm_compute; reflexivity).
  apply list_elem_of_fmap in H as (t & [= -> -> ->] & Ht%list_elem_of_In). rewrite forallb_forall in Hl.
  apply Hl in Ht. rewrite !andb_true_iff, !bool_decide_eq_true in Ht. tauto.
Qed.

Lemma capability_exact role resource verb :
  action_of verb resource ∈ granted_actions role resource <-> allowed role resource verb.
Proof.
  destruct (decide (role ∈ ROLES /\ resource ∈ RESOURCES /\ verb ∈ VERBS)) as [(H1 & H2 & H3)|Hn].
  - pose proof listed_agree as H. rewrite forallb_forall in H. apply list_elem_of_In in H1, H2, H3.
    specialize (H _ H1). rewrite forallb_forall in H. specialize (H _ H2). rewrite forallb_forall in H.
    specialize (H verb (or_intror H3)). unfold agree in H. apply eqb_prop in H.
    rewrite <-(bool_decide_eq_true (action_of _ _ ∈ _)), H. apply bool_decide_eq_true.
  - split; [|by intros ?%allowed_listed]. intros H. exfalso. apply Hn. clear Hn.
    assert (Hrole : role ∈ ROLES).
    { destruct (decide (role ∈ ROLES)); [done|]. unfold granted_actions in H. rewrite (dict_get_none RBAC) in H; [|done].
      by apply elem_of_nil in H. }
    assert (Hresource : resource ∈ RESOURCES).
    { destruct (decide (resource ∈ RESOURCES)); [done|]. exfalso. unfold granted_actions in H.
      assert (E : dict_get (default [] (dict_get RBAC role)) resource = None); [|by rewrite E in H; apply elem_of_nil in H].
      unfold ROLES in Hrole. cbn [map] in Hrole.
      repeat (apply elem_of_cons in Hrole as [->|Hrole]; [by apply dict_get_none|]). by apply elem_of_nil in Hrole. }
    split_and!; [done..|]. destruct (decide (verb ∈ VERBS)) as [|Hv]; [done|]. exfalso.
    apply (not_forbidden role resource). unfold action_of, str_eqb in H. unfold VERBS in Hv. cbn [map] in *.
    rewrite !not_elem_of_cons in Hv. rewrite !bool_decide_false in H; [done|tauto| |tauto].
    rewrite !not_elem_of_cons. split_and!; [tauto..|apply not_elem_of_nil].
Qed.

Definition headers_agree (claims : JWTClaims) (headers : list (pystr * pystr)) : Prop :=
  _ci_get headers HEADER_ORG_ID = Some (c_org_id claims) /\ _ci_get headers HEADER_USER_ID = Some (expected_user claims).

(** C16: a request passes exactly when both tenancy headers are present and
    agree with the claims and the role holds the verb's capability on the
    resource; a denial carries the trace id and the first failing check, as
    401 for a missing header and 403 otherwise. *)
Theorem authorize_exact claims headers method resource route trace_id :
  match authorize_request claims headers method resource route trace_id with
  | None => headers_agree claims headers /\ allowed (c_role claims) resource (upper method)
  | Some e =>
      e_trace_id e = trace_id /\
      ((e_error_code e = str "unauthenticated" /\ http_status e = Ok 401 /\
        (_ci_get headers HEADER_ORG_ID = None \/ _ci_get headers HEADER_USER_ID = None)) \/
       (e_error_code e = str "org_mismatch" /\ http_status e = Ok 403 /\ ~ headers_agree claims headers /\
        exists o u, _ci_get headers HEADER_ORG_ID = Some o /\ _ci_get headers HEADER_USER_ID = Some u) \/
       (e_error_code e = str "role_denied" /\ http_status e = Ok 403 /\ headers_agree claims headers /\
        ~ allowed (c_role claims) resource (upper method)))
  end.
Proof.
  unfold authorize_request, check_tenancy_header, headers_agree.
  destruct (_ci_get headers HEADER_ORG_ID) as [o|]; [|by cbn; auto 10].
  destruct (_ci_get headers HEADER_USER_ID) as [u|]; [|by cbn; auto 10].
  unfold str_eqb. destruct (bool_decide (o = c_org_id claims)) eqn:Eo; cbn [negb].
  2:{ apply bool_decide_eq_false in Eo. cbn. split; [done|]. right; left. split_and!; [done..| |eauto]. intros [[= ?] _]. congruence. }
  destruct (bool_decide (u = expected_user claims)) eqn:Eu; cbn [negb].
  2:{ apply bool_decide_eq_false in Eu. cbn. split; [done|]. right; left. split_and!; [done..| |eauto]. intros [_ [= ?]]. congruence. }
  apply bool_decide_eq_true in Eo as ->. apply bool_decide_eq_true in Eu as ->.
  unfold check_rbac. change (_action_for method resource) with (action_of (upper method) resource).
  case_bool_decide as E; [by rewrite <-capability_exact|]. cbn. split; [done|]. right; right. by rewrite <-capability_exact.
Qed.


(** Verbs are case-insensitive, ligatures included. *)
Example ligature_is_post : upper (str "po" ++ [64262]) = str "POST".
Proof. reflexivity. Qed.

(** ** The store *)

Section store.
Context {Row : Type}.
Implicit Types st : OrgScopedStore Row.

(** What the row-level policy lets [org] see under [row_id]. *)
Definition visible (org : pystr) st (row_id : pystr) : option Row :=
  match dict_get (st_rows st) row_id with
  | Some row => if str_eqb (r_org_id row) org then Some (r_payload row) else None
  | None => None
  end.

Lemma query_one_visible org st row_id : query_one row_id (set_session org st) = Ok (visible org st row_id).
Proof. done. Qed.

Lemma visible_seed org st row_id owner payload id :
  visible org (seed row_id owner payload st) id =
  if str_eqb row_id id then if str_eqb owner org then Some payload else None else visible org st id.
Proof. unfold visible, seed. cbn. rewrite dict_get_set. by destruct (str_eqb row_id id). Qed.

(** No session, no rows. *)
Lemma no_session row_id st : st_session st = None -> query st = Raise TenantIsolationError /\ query_one row_id st = Raise TenantIsolationError.
Proof. unfold query, query_one, _require_session. by intros ->. Qed.
End store.
