(* ===== verification/ScanApi.v ===== *)
(** * The scan API ([services/scan/api.py])

    The handlers that submit and read scans and the worker's status callback,
    with the stores the source supplies for them.  A handler maps a world to
    its result and the world after it, also when it raises.

    The collaborators the source takes as ports ([SnapshotPort],
    [SpecRegistryPort], [HmacKeyIssuer], [ScanStore], [JobStateStore], the
    queue) are type classes over their own states, and may raise.  [uuid4] is
    an arbitrary stream of identifiers, and the text of
    [repr(sorted(policy_overrides.items()))] is a function of the overrides,
    which are arbitrary objects. *)
From stdpp Require Import base tactics list gmap strings.
From Stdlib Require Import ZArith Lia.
From S2P Require Import Prelude PyData Sha256 Ordering PyText Guard Queue.

Open Scope Z_scope.

(** ** Text *)

(** [re.match] of a pattern [^...$]: the dollar also matches before a final newline. *)
Definition dollar (whole : pystr -> bool) (s : pystr) : bool :=
  whole s || match rev s with 10 :: r => whole (rev r) | _ => false end.

Definition lower_hex (c : Z) : bool := is_digit c || ((97 <=? c) && (c <=? 102)).

Definition _COMMIT_SHA_RE (s : pystr) : bool :=
  dollar (fun t => (Z.of_nat (length t) =? 40) && forallb lower_hex t) s.

Definition _ENV_DIGEST_RE (s : pystr) : bool :=
  dollar (fun t => str_eqb (take 7 t) (str "sha256:") && (Z.of_nat (length t) =? 71) && forallb lower_hex (drop 7 t)) s.

(** The zeros of the decimal digits (category Nd) of Unicode 14, each followed
    by its other nine digits. *)
Definition decimal_zeros : list Z :=
  [48; 1632; 1776; 1984; 2406; 2534; 2662; 2790; 2918; 3046; 3174; 3302; 3430; 3558; 3664; 3792; 3872; 4160; 4240; 6112;
   6160; 6470; 6608; 6784; 6800; 6992; 7088; 7232; 7248; 42528; 43216; 43264; 43472; 43504; 43600; 44016; 65296; 66720;
   68912; 69734; 69872; 69942; 70096; 70384; 70736; 70864; 71248; 71360; 71472; 71904; 72016; 72784; 73040; 73120; 92768;
   92864; 93008; 120782; 120792; 120802; 120812; 120822; 123200; 123632; 125264; 130032].
Definition unicode_digit (c : Z) : bool := existsb (fun z => (z <=? c) && (c <=? z + 9)) decimal_zeros.

(** The longest prefix of digits, and the rest. *)
Fixpoint span_nd (s : pystr) : pystr * pystr :=
  match s with
  | c :: t => if unicode_digit c then ((c :: (span_nd t).1), (span_nd t).2) else ([], s)
  | [] => ([], [])
  end.

(** One group of digits, then the rest of the pattern. *)
Definition digits_then (k : pystr -> bool) (s : pystr) : bool :=
  match span_nd s with ([], _) => false | (_, r) => k r end.
Definition dot_then (k : pystr -> bool) (s : pystr) : bool :=
  match s with c :: t => (c =? 46) && k t | [] => false end.
Definition prerelease (s : pystr) : bool :=
  match s with
  | [] => true
  | c :: t => (c =? 45) && negb (bool_decide (t = [])) &&
      forallb (fun c => is_digit c || ((65 <=? c) && (c <=? 90)) || ((97 <=? c) && (c <=? 122)) || (c =? 46) || (c =? 45)) t
  end.
Definition _SEMVER_RE (s : pystr) : bool :=
  dollar (digits_then (dot_then (digits_then (dot_then (digits_then prerelease))))) s.

(** [str.isspace] of a character, and [str.strip] *)
Definition spaces : list Z :=
  [9; 10; 11; 12; 13; 28; 29; 30; 31; 32; 133; 160; 5760; 8192; 8193; 8194; 8195; 8196; 8197; 8198; 8199; 8200; 8201; 8202;
   8232; 8233; 8239; 8287; 12288].
Fixpoint lstrip (s : pystr) : pystr :=
  match s with c :: t => if bool_decide (c ∈ spaces) then lstrip t else s | [] => [] end.
Definition strip_spaces (s : pystr) : pystr := rev (lstrip (rev (lstrip s))).

(** [s.partition(":")]: the text before the first separator and, if there is
    one, the text after it. *)
Fixpoint partition (sep : Z) (s : pystr) : pystr * option pystr :=
  match s with
  | [] => ([], None)
  | c :: t => if c =? sep then ([], Some t) else (c :: (partition sep t).1, (partition sep t).2)
  end.

(** ** Identifiers *)

(** [_CALLBACK_PATH_TEMPLATE.format(job_id=job_id)] *)
Definition callback_path_of (job_id : UUID) : pystr := str "/api/v1/jobs/" ++ uuid_str job_id ++ str "/status".

(** ** Records *)

Record ScanRequest (Overrides : Type) := mkRequest {
  rq_codebase_id : UUID;
  rq_commit_sha : pystr;
  rq_detector_ids : list pystr;
  rq_S_version : option pystr;
  rq_policy_overrides : Overrides
}.
Arguments mkRequest {Overrides} _ _ _ _ _.
Arguments rq_codebase_id {Overrides} _.
Arguments rq_commit_sha {Overrides} _.
Arguments rq_detector_ids {Overrides} _.
Arguments rq_S_version {Overrides} _.
Arguments rq_policy_overrides {Overrides} _.

Record ScanCreated := mkCreated {
  cr_scan_id : UUID;
  cr_snapshot_id : UUID;
  cr_status : pystr;
  cr_S_version : pystr;
  cr_env_digest : pystr;
  cr_job_ids : list UUID
}.

Record ScanRecord := mkScan {
  sr_scan_id : UUID;
  sr_org_id : pystr;
  sr_codebase_id : UUID;
  sr_snapshot_id : UUID;
  sr_commit_sha : pystr;
  sr_S_version : pystr;
  sr_env_digest : pystr;
  sr_detector_ids : list pystr;
  sr_status : pystr;
  sr_idempotency_key : UUID;
  sr_idempotency_body_hash : pystr
}.

Record SnapshotResolution := mkResolution {
  sn_snapshot_id : UUID;
  sn_env_digest : pystr
}.

Inductive JobStatus := Running | Done | Failed.
Inductive TransitionOutcome := Applied | Duplicate | Conflict.

#[export] Instance JobStatus_eq_dec : EqDecision JobStatus.
Proof. solve_decision. Defined.

(** The callback body; the counts and the URIs are carried, not read. *)
Record JobStatusReport := mkReport {
  jr_job_id : UUID;
  jr_scan_id : UUID;
  jr_status : JobStatus;
  jr_S_version : pystr;
  jr_env_digest : pystr;
  jr_findings_count : Z;
  jr_core_partition_count : Z;
  jr_oracle_partition_count : Z;
  jr_result_uri : option pystr;
  jr_witness_uri : option pystr;
  jr_error : option (list (pystr * pystr))
}.

(** [services/scan/worker.py]: the job message. *)
Record WorkerJob (Overrides : Type) := mkJob {
  wj_job_id : UUID;
  wj_scan_id : UUID;
  wj_snapshot_id : UUID;
  wj_codebase_id : UUID;
  wj_commit_sha : pystr;
  wj_detector_id : pystr;
  wj_S_version : pystr;
  wj_env_digest : pystr;
  wj_precondition_status : pystr;
  wj_hmac_key_id : pystr;
  wj_callback_path : pystr;
  wj_policy_overrides : Overrides
}.
Arguments mkJob {Overrides} _ _ _ _ _ _ _ _ _ _ _ _.
Arguments wj_job_id {Overrides} _.
Arguments wj_scan_id {Overrides} _.
Arguments wj_snapshot_id {Overrides} _.
Arguments wj_codebase_id {Overrides} _.
Arguments wj_commit_sha {Overrides} _.
Arguments wj_detector_id {Overrides} _.
Arguments wj_S_version {Overrides} _.
Arguments wj_env_digest {Overrides} _.
Arguments wj_hmac_key_id {Overrides} _.
Arguments wj_callback_path {Overrides} _.

(** ** Errors *)

Inductive ScanApiError :=
| InvalidHmacError
| InvalidInputError
| DetectorUnknownError (detector_id : pystr)
| InvariantInv2Error
| ScanNotFoundError
| IdempotencyConflictError
| JobStatusConflictError
| AuthorizationError (envelope : ErrorEnvelope).

(** [(error_code, http_status)] *)
Definition error_response (e : ScanApiError) : outcome (pystr * Z) :=
  match e with
  | InvalidHmacError => Ok (str "invalid_hmac", 401)
  | InvalidInputError => Ok (str "invalid_input", 400)
  | DetectorUnknownError _ => Ok (str "not_found", 409)
  | InvariantInv2Error => Ok (str "invariant_inv2_violation", 422)
  | ScanNotFoundError => Ok (str "not_found", 404)
  | IdempotencyConflictError => Ok (str "idempotency_conflict", 409)
  | JobStatusConflictError => Ok (str "conflicting_status_transition", 409)
  | AuthorizationError envelope => obind (http_status envelope) (fun s => Ok (e_error_code envelope, s))
  end.

(** What a handler raises: one of its own errors, or another exception. *)
Inductive failure :=
| Api (e : ScanApiError)
| Other (e : exc).

(** ** Ports *)

Class SnapshotPort (P : Type) := {
  resolve_or_create : pystr -> UUID -> pystr -> P -> outcome SnapshotResolution * P
}.

Class SpecRegistryPort (R : Type) := {
  resolve_latest : R -> outcome (option pystr) * R;
  is_registered : pystr -> R -> outcome bool * R
}.

Class HmacKeyIssuer (K : Type) := {
  issue : UUID -> UUID -> K -> outcome (pystr * pybytes) * K;
  lookup_secret : UUID -> pystr -> K -> outcome (option pybytes) * K
}.

Class ScanStore (S : Type) := {
  put_scan : ScanRecord -> S -> outcome unit * S;
  load_scan : UUID -> pystr -> S -> outcome (option ScanRecord) * S;
  find_by_idempotency : pystr -> UUID -> S -> outcome (option ScanRecord) * S
}.

Class JobStateStore (J : Type) := {
  transition : UUID -> JobStatus -> pystr -> J -> outcome TransitionOutcome * J
}.

(** The production defaults raise. *)
Definition fail_closed_snapshot_port : SnapshotPort unit := {|
  resolve_or_create _ _ _ p := (Raise NotImplementedError, p)
|}.
Definition fail_closed_spec_registry : SpecRegistryPort unit := {|
  resolve_latest r := (Raise NotImplementedError, r);
  is_registered _ r := (Raise NotImplementedError, r)
|}.
Definition fail_closed_hmac_key_issuer : HmacKeyIssuer unit := {|
  issue _ _ k := (Raise NotImplementedError, k);
  lookup_secret _ _ k := (Raise NotImplementedError, k)
|}.

(** ** Signatures *)

(** [hmac.new(key, message, hashlib.sha256).hexdigest()] *)
Definition hmac_sha256 (key message : pybytes) : pybytes :=
  let key := if 64 <? Z.of_nat (length key) then sha256 key else key in
  let block := key ++ repeat 0 (64 - length key) in
  sha256 (map (Z.lxor 92) block ++ sha256 (map (Z.lxor 54) block ++ message)).

Definition canonical_text (method path worker_id : pystr) (body_bytes : pybytes) (timestamp : Z) : pystr :=
  join [10] [method; path; worker_id; hex (sha256 body_bytes); str_of_int timestamp].

Definition canonical_request (method path worker_id : pystr) (body_bytes : pybytes) (timestamp : Z) : outcome pybytes :=
  match utf8_encode (canonical_text method path worker_id body_bytes timestamp) with
  | Some b => Ok b
  | None => Raise UnicodeEncodeError
  end.

(** [_parse_hmac_header]; [None] is [InvalidHmacError]. *)
Definition _parse_hmac_header (header : pystr) : option (pystr * pystr) :=
  if str_eqb (take 5 header) (str "HMAC ") then
    match partition 58 (strip_spaces (drop 5 header)) with
    | (key_id, Some digest) =>
        if bool_decide (key_id = []) || bool_decide (digest = []) then None else Some (key_id, digest)
    | (_, None) => None
    end
  else None.

(** [hmac.compare_digest] of two strings refuses text that is not ASCII. *)
Definition compare_digest (a b : pystr) : outcome bool :=
  if forallb (fun c => c <? 128) a && forallb (fun c => c <? 128) b then Ok (str_eqb a b) else Raise TypeError.

Definition HMAC_SKEW_WINDOW_SECONDS : Z := 300.

(** ** The handlers *)

Section api.
Context {Overrides S Q K R P J : Type}.
Context `{!ScanStore S, !Queue Q, !HmacKeyIssuer K, !SpecRegistryPort R, !SnapshotPort P, !JobStateStore J}.

(** The collaborators a request shares, the identifiers drawn so far, and the
    count the metrics record. *)
Record World := mkWorld {
  w_scans : S;
  w_queue : Q;
  w_issuer : K;
  w_specs : R;
  w_snapshots : P;
  w_jobs : J;
  w_drawn : nat;
  w_rejects : Z
}.

Definition Handler (A : Type) : Type := World -> (A + failure) * World.
Definition ret {A} (a : A) : Handler A := fun w => (inl a, w).
Definition raise {A} (e : ScanApiError) : Handler A := fun w => (inr (Api e), w).
Definition bind {A B} (m : Handler A) (f : A -> Handler B) : Handler B :=
  fun w => match m w with (inl a, w') => f a w' | (inr e, w') => (inr e, w') end.

Definition result {A} (o : outcome A) : A + failure := match o with Ok a => inl a | Raise e => inr (Other e) end.
Definition lift {A} (o : outcome A) : Handler A := fun w => (result o, w).

(** A call of a collaborator. *)
Definition scans {A} (f : S -> outcome A * S) : Handler A := fun w =>
  let '(o, s) := f (w_scans w) in
  (result o, mkWorld s (w_queue w) (w_issuer w) (w_specs w) (w_snapshots w) (w_jobs w) (w_drawn w) (w_rejects w)).
Definition queued {A} (f : Q -> outcome A * Q) : Handler A := fun w =>
  let '(o, q) := f (w_queue w) in
  (result o, mkWorld (w_scans w) q (w_issuer w) (w_specs w) (w_snapshots w) (w_jobs w) (w_drawn w) (w_rejects w)).
Definition keys {A} (f : K -> outcome A * K) : Handler A := fun w =>
  let '(o, k) := f (w_issuer w) in
  (result o, mkWorld (w_scans w) (w_queue w) k (w_specs w) (w_snapshots w) (w_jobs w) (w_drawn w) (w_rejects w)).
Definition specs {A} (f : R -> outcome A * R) : Handler A := fun w =>
  let '(o, r) := f (w_specs w) in
  (result o, mkWorld (w_scans w) (w_queue w) (w_issuer w) r (w_snapshots w) (w_jobs w) (w_drawn w) (w_rejects w)).
Definition snapshots {A} (f : P -> outcome A * P) : Handler A := fun w =>
  let '(o, p) := f (w_snapshots w) in
  (result o, mkWorld (w_scans w) (w_queue w) (w_issuer w) (w_specs w) p (w_jobs w) (w_drawn w) (w_rejects w)).
Definition jobs {A} (f : J -> outcome A * J) : Handler A := fun w =>
  let '(o, j) := f (w_jobs w) in
  (result o, mkWorld (w_scans w) (w_queue w) (w_issuer w) (w_specs w) (w_snapshots w) j (w_drawn w) (w_rejects w)).

(** [record_counter("callback.hmac_reject_count", ...)] *)
Definition count_reject : Handler unit := fun w =>
  (inl tt, mkWorld (w_scans w) (w_queue w) (w_issuer w) (w_specs w) (w_snapshots w) (w_jobs w) (w_drawn w) (w_rejects w + 1)).

Variable uuid4 : nat -> UUID.
Definition draw : Handler UUID := fun w =>
  (inl (uuid4 (w_drawn w)),
   mkWorld (w_scans w) (w_queue w) (w_issuer w) (w_specs w) (w_snapshots w) (w_jobs w) (Datatypes.S (w_drawn w)) (w_rejects w)).

Declare Scope api_scope.
Notation "x ⟵ m ; k" := (bind m (fun x => k)) (at level 100, m at next level, right associativity) : api_scope.
Open Scope api_scope.

Definition guarded (bad : bool) (e : ScanApiError) : Handler unit := if bad then raise e else ret tt.

(** The guard's verdict, first in every handler. *)
Definition authorize (claims : JWTClaims) (headers : list (pystr * pystr)) (method resource route trace_id : pystr) : Handler unit :=
  match authorize_request claims headers method resource route trace_id with
  | Some envelope => raise (AuthorizationError envelope)
  | None => ret tt
  end.

Variable repr_overrides : Overrides -> outcome pystr.

Definition idempotency_fingerprint (req : ScanRequest Overrides) : outcome pystr :=
  obind (repr_overrides (rq_policy_overrides req)) (fun overrides =>
  match utf8_encode (join [10]
    [uuid_str (rq_codebase_id req); rq_commit_sha req; join [44] (py_sorted str_leb (rq_detector_ids req));
     default [] (rq_S_version req); overrides]) with
  | Some payload => Ok (hex (sha256 payload))
  | None => Raise UnicodeEncodeError
  end).

Definition _validate_scan_request (req : ScanRequest Overrides) : Handler unit :=
  _ ⟵ guarded (negb (_COMMIT_SHA_RE (rq_commit_sha req))) InvalidInputError;
  guarded (bool_decide (rq_detector_ids req = [])) InvalidInputError.

Definition _resolve_s_version (req : ScanRequest Overrides) : Handler pystr :=
  match rq_S_version req with
  | None =>
      resolved ⟵ specs resolve_latest;
      match resolved with Some v => ret v | None => raise InvariantInv2Error end
  | Some v =>
      _ ⟵ guarded (negb (_SEMVER_RE v)) InvalidInputError;
      registered ⟵ specs (is_registered v);
      _ ⟵ guarded (negb registered) InvariantInv2Error;
      ret v
  end.

(** The registry is frozen after start: [by_id] is membership. *)
Fixpoint _validate_detectors (registry : list pystr) (ids : list pystr) : Handler unit :=
  match ids with
  | [] => ret tt
  | detector_id :: ids =>
      if bool_decide (detector_id ∈ registry) then _validate_detectors registry ids
      else raise (DetectorUnknownError detector_id)
  end.

Definition _job_to_queue_body (job : WorkerJob Overrides) : Body :=
  [(str "job_id", uuid_str (wj_job_id job)); (str "scan_id", uuid_str (wj_scan_id job));
   (str "snapshot_id", uuid_str (wj_snapshot_id job)); (str "codebase_id", uuid_str (wj_codebase_id job));
   (str "commit_sha", wj_commit_sha job); (str "detector_id", wj_detector_id job); (str "S_version", wj_S_version job);
   (str "env_digest", wj_env_digest job); (str "hmac_key_id", wj_hmac_key_id job);
   (str "callback_path", wj_callback_path job)]%string.

(** Step 7: one job per detector. *)
Definition fan_one (req : ScanRequest Overrides) (scan_id : UUID) (s_version : pystr) (snapshot : SnapshotResolution)
    (detector_id : pystr) : Handler UUID :=
  job_id ⟵ draw;
  key ⟵ keys (issue job_id scan_id);
  let job := mkJob job_id scan_id (sn_snapshot_id snapshot) (rq_codebase_id req) (rq_commit_sha req) detector_id
    s_version (sn_env_digest snapshot) (str "closed-world") key.1 (callback_path_of job_id) (rq_policy_overrides req) in
  _ ⟵ queued (q_send (_job_to_queue_body job) (uuid_str job_id));
  ret job_id.

Fixpoint fan_out (req : ScanRequest Overrides) (scan_id : UUID) (s_version : pystr) (snapshot : SnapshotResolution)
    (ids : list pystr) : Handler (list UUID) :=
  match ids with
  | [] => ret []
  | detector_id :: ids =>
      job_id ⟵ fan_one req scan_id s_version snapshot detector_id;
      job_ids ⟵ fan_out req scan_id s_version snapshot ids;
      ret (job_id :: job_ids)
  end.

(** Steps 3 to 7: a new scan. *)
Definition submit (req : ScanRequest Overrides) (org_id : pystr) (idempotency_key : UUID) (registry : list pystr)
    (body_hash : pystr) : Handler ScanCreated :=
  s_version ⟵ _resolve_s_version req;
  _ ⟵ _validate_detectors registry (rq_detector_ids req);
  snapshot ⟵ snapshots (resolve_or_create org_id (rq_codebase_id req) (rq_commit_sha req));
  _ ⟵ guarded (negb (_ENV_DIGEST_RE (sn_env_digest snapshot))) InvariantInv2Error;
  scan_id ⟵ draw;
  _ ⟵ scans (put_scan (mkScan scan_id org_id (rq_codebase_id req) (sn_snapshot_id snapshot) (rq_commit_sha req) s_version
        (sn_env_digest snapshot) (rq_detector_ids req) (str "queued") idempotency_key body_hash));
  job_ids ⟵ fan_out req scan_id s_version snapshot (rq_detector_ids req);
  ret (mkCreated scan_id (sn_snapshot_id snapshot) (str "queued") s_version (sn_env_digest snapshot) job_ids).

Definition post_scans (req : ScanRequest Overrides) (claims : JWTClaims) (headers : list (pystr * pystr))
    (idempotency_key : UUID) (trace_id : pystr) (registry : list pystr) : Handler ScanCreated :=
  _ ⟵ authorize claims headers (str "POST") (str "scans") (str "/api/v1/scans") trace_id;
  _ ⟵ _validate_scan_request req;
  body_hash ⟵ lift (idempotency_fingerprint req);
  existing ⟵ scans (find_by_idempotency (c_org_id claims) idempotency_key);
  match existing with
  | Some record =>
      _ ⟵ guarded (negb (str_eqb (sr_idempotency_body_hash record) body_hash)) IdempotencyConflictError;
      ret (mkCreated (sr_scan_id record) (sr_snapshot_id record) (str "queued") (sr_S_version record) (sr_env_digest record) [])
  | None => submit req (c_org_id claims) idempotency_key registry body_hash
  end.

(** [get_scan] and [get_scan_findings] differ in the resource and the route. *)
Definition read_scan (resource route : pystr) (scan_id : UUID) (claims : JWTClaims) (headers : list (pystr * pystr))
    (trace_id : pystr) : Handler ScanRecord :=
  _ ⟵ authorize claims headers (str "GET") resource route trace_id;
  record ⟵ scans (load_scan scan_id (c_org_id claims));
  match record with Some r => ret r | None => raise ScanNotFoundError end.

Definition get_scan := read_scan (str "scans") (str "/api/v1/scans/{scan_id}").
Definition get_scan_findings := read_scan (str "findings") (str "/api/v1/scans/{scan_id}/findings").

(** [verify_worker_callback_hmac], with the time [now()] read last. *)
Definition verify_worker_callback_hmac (hmac_header worker_id : pystr) (timestamp : Z) (job_id : UUID)
    (body_bytes : pybytes) (now : Z) : Handler unit :=
  match _parse_hmac_header hmac_header with
  | None => raise InvalidHmacError
  | Some (key_id, provided_digest) =>
      secret ⟵ keys (lookup_secret job_id key_id);
      match secret with
      | None => raise InvalidHmacError
      | Some secret =>
          message ⟵ lift (canonical_request (str "POST") (callback_path_of job_id) worker_id body_bytes timestamp);
          equal ⟵ lift (compare_digest provided_digest (hex (hmac_sha256 secret message)));
          _ ⟵ guarded (negb equal) InvalidHmacError;
          guarded (HMAC_SKEW_WINDOW_SECONDS <? Z.abs (now - timestamp)) InvalidHmacError
      end
  end.

(** [try: m; except InvalidHmacError: record; raise] *)
Definition counting_rejects (m : Handler unit) : Handler unit := fun w =>
  match m w with
  | (inr (Api InvalidHmacError), w') => (inr (Api InvalidHmacError), (count_reject w').2)
  | r => r
  end.

Definition post_job_status (job_id : UUID) (body : JobStatusReport) (body_bytes : pybytes) (hmac_header worker_id_header : pystr)
    (timestamp_header : Z) (durable : bool) (now : Z) : Handler unit :=
  _ ⟵ guarded (negb (jr_job_id body =? job_id)) InvalidHmacError;
  _ ⟵ counting_rejects (verify_worker_callback_hmac hmac_header worker_id_header timestamp_header job_id body_bytes now);
  _ ⟵ guarded (bool_decide (jr_S_version body = []) || negb (_ENV_DIGEST_RE (jr_env_digest body))) InvalidInputError;
  if durable then
    out ⟵ jobs (transition job_id (jr_status body) (hex (sha256 body_bytes)));
    match out with Conflict => raise JobStatusConflictError | _ => ret tt end
  else ret tt.
End api.
Arguments World : clear implicits.
Arguments mkWorld {S Q K R P J} _ _ _ _ _ _ _ _.
Arguments w_scans {S Q K R P J} _.
Arguments w_queue {S Q K R P J} _.
Arguments w_issuer {S Q K R P J} _.
Arguments w_specs {S Q K R P J} _.
Arguments w_snapshots {S Q K R P J} _.
Arguments w_jobs {S Q K R P J} _.
Arguments w_drawn {S Q K R P J} _.
Arguments w_rejects {S Q K R P J} _.

(** ** [InMemoryJobStateStore] *)

Definition InMemoryJobStateStore := gmap UUID (JobStatus * pystr).

Definition memory_transition (job_id : UUID) (status : JobStatus) (body_sha256 : pystr) (states : InMemoryJobStateStore) :
    outcome TransitionOutcome * InMemoryJobStateStore :=
  match states !! job_id with
  | None => (Ok Applied, <[job_id := (status, body_sha256)]> states)
  | Some (prior, _) =>
      if bool_decide (prior = status) then (Ok Duplicate, states)
      else match prior, status with
           | Running, (Done | Failed) => (Ok Applied, <[job_id := (status, body_sha256)]> states)
           | _, _ => (Ok Conflict, states)
           end
  end.

#[export] Instance memory_jobs : JobStateStore InMemoryJobStateStore := {| transition := memory_transition |}.

(** ** [OrgScopedScanStore] *)

Record OrgScopedScanStore := mkScanStore {
  os_store : OrgScopedStore ScanRecord;
  os_idempotency : gmap (pystr * UUID) UUID
}.

Definition put (record : ScanRecord) (s : OrgScopedScanStore) : outcome unit * OrgScopedScanStore :=
  (Ok tt, mkScanStore (seed (uuid_str (sr_scan_id record)) (sr_org_id record) record (os_store s))
            (<[(sr_org_id record, sr_idempotency_key record) := sr_scan_id record]> (os_idempotency s))).

(** The session is bound for one read and cleared after it. *)
Definition get (scan_id : UUID) (org_id : pystr) (s : OrgScopedScanStore) :
    outcome (option ScanRecord) * OrgScopedScanStore :=
  let bound := set_session org_id (os_store s) in
  (query_one (uuid_str scan_id) bound, mkScanStore (clear_session bound) (os_idempotency s)).

Definition find_scan (org_id : pystr) (idempotency_key : UUID) (s : OrgScopedScanStore) :
    outcome (option ScanRecord) * OrgScopedScanStore :=
  match os_idempotency s !! (org_id, idempotency_key) with
  | None => (Ok None, s)
  | Some scan_id => get scan_id org_id s
  end.

#[export] Instance org_scoped_scans : ScanStore OrgScopedScanStore := {|
  put_scan := put; load_scan := get; find_by_idempotency := find_scan
|}.
