(* ===== verification/ScanApiSpec.v ===== *)
(** * What the scan API promises ([services/scan/api.py])

    Callbacks change job state only under a valid signature; job states follow
    the state machine; a submission has exactly one job per detector; tenants
    read their own scans and nothing else. *)
From stdpp Require Import base tactics list gmap strings.
From Stdlib Require Import ZArith Lia.
From S2P Require Import Prelude PyData Sha256 Ordering Json PyText Guard Queue ScanApi.

Open Scope Z_scope.

(** ** Job states *)

Definition Report : Type := UUID * JobStatus * pystr.

(** Reports in the order the store receives them. *)
Definition report_step (states : InMemoryJobStateStore) (r : Report) : InMemoryJobStateStore :=
  (memory_transition r.1.1 r.1.2 r.2 states).2.
Definition after_reports (reports : list Report) : InMemoryJobStateStore := fold_left report_step reports ∅.

(** The reference: the first report counts, and after [Running] the first
    terminal one. *)
Definition is_terminal (status : JobStatus) : bool := match status with Running => false | _ => true end.

Definition settled (reports : list (JobStatus * pystr)) : option (JobStatus * pystr) :=
  match reports with
  | [] => None
  | (Running, sha) :: rest =>
      match List.find (fun r => is_terminal r.1) rest with Some r => Some r | None => Some (Running, sha) end
  | first :: _ => Some first
  end.

Definition reports_of (job_id : UUID) (reports : list Report) : list (JobStatus * pystr) :=
  map (fun r => (r.1.2, r.2)) (List.filter (fun r => r.1.1 =? job_id) reports).

(** What the next report of a job is answered. *)
Definition answer (recorded : option (JobStatus * pystr)) (status : JobStatus) : TransitionOutcome :=
  match recorded, status with
  | None, _ => Applied
  | Some (Running, _), Running | Some (Done, _), Done | Some (Failed, _), Failed => Duplicate
  | Some (Running, _), _ => Applied
  | _, _ => Conflict
  end.

Lemma find_snoc {A} (f : A -> bool) l x :
  List.find f (l ++ [x]) = match List.find f l with Some y => Some y | None => if f x then Some x else None end.
Proof. induction l as [|y l IH]; cbn; [done|]. by destruct (f y). Qed.

Lemma settled_snoc reports status sha :
  settled (reports ++ [(status, sha)]) =
  match answer (settled reports) status with Applied => Some (status, sha) | _ => settled reports end.
Proof.
  destruct reports as [|[first sha1] rest]; [by destruct status|]. destruct first; cbn [settled app]; try by destruct status.
  rewrite find_snoc. destruct (List.find _ rest) as [[s2 sha2]|] eqn:E.
  - apply find_some in E as [_ E]. cbn in E. by destruct s2, status.
  - by destruct status.
Qed.

Lemma reports_of_snoc job_id reports r :
  reports_of job_id (reports ++ [r]) = if r.1.1 =? job_id then reports_of job_id reports ++ [(r.1.2, r.2)] else reports_of job_id reports.
Proof.
  destruct r as [[j s] h]. unfold reports_of. rewrite List.filter_app, map_app. cbn. destruct (j =? job_id); cbn; [done|apply app_nil_r].
Qed.

Lemma transition_answer job_id status sha (states : InMemoryJobStateStore) :
  memory_transition job_id status sha states =
  (Ok (answer (states !! job_id) status),
   match answer (states !! job_id) status with Applied => <[job_id := (status, sha)]> states | _ => states end).
Proof. unfold memory_transition. destruct (states !! job_id) as [[[] ?]|], status; done. Qed.

(** C39: after any sequence of reports each job's recorded state is its first
    report or, when that was "running", its first terminal report, and the
    next report is answered accordingly; a terminal state is never
    overwritten. *)
Theorem job_state_machine reports job_id status sha :
  after_reports reports !! job_id = settled (reports_of job_id reports) /\
  (memory_transition job_id status sha (after_reports reports)).1 = Ok (answer (settled (reports_of job_id reports)) status) /\
  (forall later s h, settled (reports_of job_id reports) = Some (s, h) -> is_terminal s = true ->
     after_reports (reports ++ later) !! job_id = Some (s, h)).
Proof.
  assert (Hr : forall rs, after_reports rs !! job_id = settled (reports_of job_id rs)).
  { intros rs. unfold after_reports. induction rs as [|[[j s] h] rs IH] using rev_ind; [apply lookup_empty|].
    rewrite fold_left_app, reports_of_snoc. cbn [fold_left fst snd]. unfold report_step at 1. cbn [fst snd].
    rewrite transition_answer. cbn [snd]. destruct (Z.eqb_spec j job_id) as [->|Hj].
    - rewrite settled_snoc, <-IH. destruct (answer _ s); [apply (lookup_insert_eq (M := gmap UUID))|done..].
    - rewrite <-IH. destruct (answer _ s); [by apply (lookup_insert_ne (M := gmap UUID))|done..]. }
  split; [apply Hr|]. split.
  - by rewrite transition_answer, Hr.
  - intros later s h E Hs. rewrite Hr. induction later as [|[[j s'] h'] later IH] using rev_ind; [by rewrite app_nil_r|].
    rewrite app_assoc, reports_of_snoc. cbn [fst snd]. destruct (j =? job_id); [|done]. rewrite settled_snoc, IH.
    by destruct s, s'.
Qed.

(** ** Tenants *)

Definition empty_scans : OrgScopedScanStore := mkScanStore empty_store ∅.

(** The store after the puts of every tenant, in order. *)
Definition history (puts : list ScanRecord) : OrgScopedScanStore := fold_left (fun s r => (put r s).2) puts empty_scans.

(** Two stores one organisation cannot tell apart. *)
Definition same_view (org : pystr) (s1 s2 : OrgScopedScanStore) : Prop :=
  (forall row_id, visible org (os_store s1) row_id = visible org (os_store s2) row_id) /\
  (forall key, os_idempotency s1 !! (org, key) = os_idempotency s2 !! (org, key)).

#[export] Instance same_view_equivalence org : Equivalence (same_view org).
Proof.
  split.
  - by intros s.
  - intros s1 s2 [H1 H2]. split; intros; [by rewrite H1|by rewrite H2].
  - intros s1 s2 s3 [H1 H2] [H3 H4]. split; intros; [by rewrite H1|by rewrite H2].
Qed.

(** The reads are functions of the view. *)
Lemma get_view org id s : (get id org s).1 = Ok (visible org (os_store s) (uuid_str id)).
Proof. done. Qed.

#[export] Instance get_proper org id : Proper (same_view org ==> eq) (fun s => (get id org s).1).
Proof. intros s1 s2 [H _]. by rewrite !get_view, H. Qed.

#[export] Instance find_proper org key : Proper (same_view org ==> eq) (fun s => (find_scan org key s).1).
Proof.
  intros s1 s2 H. unfold find_scan. rewrite (proj2 H key). destruct (os_idempotency s2 !! _); [|done].
  exact (get_proper org _ s1 s2 H).
Qed.

(** Puts of the organisation keep two views the same. *)
Lemma put_own org r s1 s2 : same_view org s1 s2 -> same_view org (put r s1).2 (put r s2).2.
Proof.
  intros [H1 H2]. split; intros k; cbn [put snd os_store os_idempotency].
  - by rewrite !visible_seed, H1.
  - destruct (decide ((sr_org_id r, sr_idempotency_key r) = (org, k))) as [->|Hne]; [by rewrite !lookup_insert_eq|].
    rewrite !lookup_insert_ne by done. apply H2.
Qed.

(** Another tenant's put under an identifier the organisation does not use is invisible. *)
Lemma put_foreign org r s : sr_org_id r <> org -> visible org (os_store s) (uuid_str (sr_scan_id r)) = None ->
  same_view org (put r s).2 s.
Proof.
  intros Ho Hv. split; intros k; cbn [put snd os_store os_idempotency].
  - rewrite visible_seed. unfold str_eqb. case_bool_decide as E; [|done]. rewrite bool_decide_false by done. by subst.
  - rewrite lookup_insert_ne; [done|]. congruence.
Qed.

Lemma visible_history org puts id r : visible org (os_store (history puts)) id = Some r ->
  r ∈ puts /\ uuid_str (sr_scan_id r) = id /\ sr_org_id r = org.
Proof.
  unfold history. induction puts as [|p puts IH] using rev_ind; [done|]. rewrite fold_left_app. cbn [fold_left put snd os_store].
  rewrite visible_seed. unfold str_eqb. case_bool_decide as E; [case_bool_decide as E'; [|done]|].
  - intros [= <-]. split; [|done]. apply elem_of_app. right. by left.
  - intros H. destruct (IH H) as (H1 & H2). split; [|done]. apply elem_of_app. by left.
Qed.

(** No identifier is shared between tenants, as for records numbered by [uuid4]. *)
Definition unshared (puts : list ScanRecord) : Prop :=
  forall r1 r2, r1 ∈ puts -> r2 ∈ puts -> uuid_str (sr_scan_id r1) = uuid_str (sr_scan_id r2) -> sr_org_id r1 = sr_org_id r2.

Definition owned (org : pystr) (r : ScanRecord) : bool := str_eqb (sr_org_id r) org.

Lemma history_view org puts : unshared puts -> same_view org (history puts) (history (List.filter (owned org) puts)).
Proof.
  unfold history. induction puts as [|p puts IH] using rev_ind; intros Hu; [done|].
  assert (Hu' : unshared puts) by (intros r1 r2 H1 H2; apply Hu; apply elem_of_app; by left).
  rewrite List.filter_app, !fold_left_app. cbn [List.filter fold_left].
  destruct (owned org p) eqn:E; cbn [fold_left]; [by apply put_own, IH|].
  unfold owned, str_eqb in E. apply bool_decide_eq_false in E.
  rewrite <-(IH Hu'). apply put_foreign; [done|].
  destruct (visible _ _ _) as [r|] eqn:Hv; [|done]. apply visible_history in Hv as (H1 & H2 & <-). exfalso. apply E.
  apply Hu; [apply elem_of_app; right; by left|apply elem_of_app; by left|done].
Qed.

Section handlers.
Context {Overrides Q K R P J : Type}.
Context `{!Queue Q, !HmacKeyIssuer K, !SpecRegistryPort R, !SnapshotPort P, !JobStateStore J}.
Notation World := (World OrgScopedScanStore Q K R P J).
Implicit Types w : World.

Definition with_scans (s : OrgScopedScanStore) (w : World) : World :=
  mkWorld s (w_queue w) (w_issuer w) (w_specs w) (w_snapshots w) (w_jobs w) (w_drawn w) (w_rejects w).

(** C6: a scan read is answered from the caller's own records: it is what it
    would be had no other tenant ever stored a scan, and a record it returns
    was stored by the caller's organisation under that identifier.  The same
    holds for the lookup of an idempotency key. *)
Theorem scan_reads_isolated resource route scan_id claims headers trace_id key puts w :
  unshared puts -> w_scans w = history puts ->
  let mine := List.filter (owned (c_org_id claims)) puts in
  (read_scan resource route scan_id claims headers trace_id w).1 =
    (read_scan resource route scan_id claims headers trace_id (with_scans (history mine) w)).1 /\
  (find_scan (c_org_id claims) key (history puts)).1 = (find_scan (c_org_id claims) key (history mine)).1 /\
  forall r, (read_scan resource route scan_id claims headers trace_id w).1 = inl r ->
    r ∈ puts /\ sr_org_id r = c_org_id claims /\ uuid_str (sr_scan_id r) = uuid_str scan_id.
Proof.
  intros Hu Hw mine. pose proof (history_view (c_org_id claims) puts Hu) as Hv. fold mine in Hv.
  assert (Hread : forall w' : World, (read_scan resource route scan_id claims headers trace_id w').1 =
    match authorize_request claims headers (str "GET") resource route trace_id with
    | Some e => inr (Api (AuthorizationError e))
    | None => match visible (c_org_id claims) (os_store (w_scans w')) (uuid_str scan_id) with
              | Some r => inl r | None => inr (Api ScanNotFoundError) end
    end).
  { intros w'. unfold read_scan, authorize, bind, scans. destruct (authorize_request _ _ _ _ _ _); [done|]. cbn.
    unfold visible. by destruct (dict_get _ _) as [[o r]|]; cbn; [destruct (str_eqb o _)|]. }
  split; [|split].
  - rewrite !Hread, Hw. cbn [w_scans with_scans]. by rewrite (proj1 Hv).
  - by apply find_proper.
  - intros r. rewrite Hread, Hw. destruct (authorize_request _ _ _ _ _ _); [done|].
    destruct (visible _ _ _) as [r'|] eqn:E; [|done]. intros [= ->]. apply visible_history in E. tauto.
Qed.
End handlers.

(** ** Signatures *)

Lemma last_separator c (x x' t t' : pystr) : c ∉ t -> c ∉ t' -> x ++ c :: t = x' ++ c :: t' -> x = x' /\ t = t'.
Proof.
  revert x'. induction x as [|a x IH]; intros [|a' x'] Ht Ht' E; cbn in E.
  - by injection E as ->.
  - injection E as -> ->. destruct Ht. apply elem_of_app. right. by left.
  - injection E as -> <-. destruct Ht'. apply elem_of_app. right. by left.
  - injection E as -> E. by destruct (IH x' Ht Ht' E) as [-> ->].
Qed.

Lemma str_of_int_no_newline t : 10 ∉ str_of_int t.
Proof.
  assert (H : forall n, 0 <= n -> 10 ∉ decimal n).
  { intros n Hn Hin. destruct (decimal_spec n Hn) as ((Hd & _) & _). rewrite Forall_forall in Hd. specialize (Hd _ Hin). lia. }
  unfold str_of_int. destruct (Z.ltb_spec t 0); [|by apply H]. intros [?|Hin]%elem_of_cons; [done|]. by apply (H (- t)) in Hin; [|lia].
Qed.

Lemma str_of_int_inj m n : str_of_int m = str_of_int n -> m = n.
Proof. intros E. apply (str_of_int_prefix m n [] []); [done..|by rewrite !app_nil_r]. Qed.

(** The signed bytes determine the job, the worker, the timestamp and,
    up to a SHA-256 collision, the body: no two callbacks share a signed
    text, newlines in the worker id notwithstanding. *)
Theorem signature_binds j1 j2 w1 w2 b1 b2 t1 t2 m :
  0 <= j1 < 2 ^ 128 -> 0 <= j2 < 2 ^ 128 ->
  canonical_request (str "POST") (callback_path_of j1) w1 b1 t1 = Ok m ->
  canonical_request (str "POST") (callback_path_of j2) w2 b2 t2 = Ok m ->
  j1 = j2 /\ w1 = w2 /\ t1 = t2 /\ (b1 = b2 \/ sha256_collision).
Proof.
  intros Hj1 Hj2. unfold canonical_request.
  destruct (utf8_encode (canonical_text _ _ w1 b1 t1)) as [e1|] eqn:E1; [|done]. intros [= ->].
  destruct (utf8_encode (canonical_text _ _ w2 b2 t2)) as [e2|] eqn:E2; [|done]. intros [= ->].
  pose proof (utf8_encode_inj _ _ _ E1 E2) as E. clear E1 E2. unfold canonical_text, join, callback_path_of in E.
  rewrite <-!app_assoc in E. apply app_inj_1 in E as [_ E]; [|done]. apply app_inj_1 in E as [_ E]; [|done].
  apply app_inj_1 in E as [_ E]; [|done]. apply app_inj_1 in E as [Ej E]; [|by rewrite !length_uuid_str].
  apply uuid_str_inj in Ej as ->; [|done..]. apply app_inj_1 in E as [_ E]; [|done]. apply app_inj_1 in E as [_ E]; [|done].
  assert (E' : (w1 ++ 10 :: hex (sha256 b1)) ++ 10 :: str_of_int t1 = (w2 ++ 10 :: hex (sha256 b2)) ++ 10 :: str_of_int t2)
    by (rewrite <-!app_assoc; exact E).
  apply last_separator in E' as [E' Et]; [|apply str_of_int_no_newline..]. apply str_of_int_inj in Et as ->.
  apply app_inj_2 in E' as [-> Eh]; [|by cbn; rewrite !length_hex, !Sha.length_sha256]. injection Eh as Eh.
  split_and!; try done. destruct (decide (b1 = b2)) as [|Hne]; [by left|right]. exists b1, b2. split; [done|].
  apply hex_inj; [apply sha256_bytes..|done].
Qed.

(** ** Callbacks *)

Section callback.
Context {S Q K R P J : Type}.
Context `{!ScanStore S, !Queue Q, !HmacKeyIssuer K, !SpecRegistryPort R, !SnapshotPort P, !JobStateStore J}.
Notation World := (World S Q K R P J).
Context (job_id : UUID) (body : JobStatusReport) (body_bytes : pybytes) (hmac_header worker_id : pystr) (timestamp now : Z).
Implicit Types w : World.

(** The callback is for the job its body names and is signed, now, with the
    secret the issuer holds for the job and the key the header names. *)
Definition authentic (w : World) : Prop :=
  jr_job_id body = job_id /\
  exists key_id digest secret message,
    _parse_hmac_header hmac_header = Some (key_id, digest) /\
    (lookup_secret job_id key_id (w_issuer w)).1 = Ok (Some secret) /\
    canonical_request (str "POST") (callback_path_of job_id) worker_id body_bytes timestamp = Ok message /\
    digest = hex (hmac_sha256 secret message) /\ Z.abs (now - timestamp) <= HMAC_SKEW_WINDOW_SECONDS.

Definition fenced : Prop := jr_S_version body <> [] /\ _ENV_DIGEST_RE (jr_env_digest body) = true.

Lemma digest_ascii secret message : forallb (fun c => c <? 128) (hex (hmac_sha256 secret message)) = true.
Proof.
  apply forallb_forall. intros c Hc%list_elem_of_In. unfold hmac_sha256 in Hc. cbv zeta in Hc.
  pose proof (hex_ascii _ (sha256_bytes (map (Z.lxor 92) ((if 64 <? Z.of_nat (length secret) then sha256 secret else secret) ++
    repeat 0 (64 - length (if 64 <? Z.of_nat (length secret) then sha256 secret else secret))) ++
    sha256 (map (Z.lxor 54) ((if 64 <? Z.of_nat (length secret) then sha256 secret else secret) ++
    repeat 0 (64 - length (if 64 <? Z.of_nat (length secret) then sha256 secret else secret))) ++ message)))) as H.
  rewrite Forall_forall in H. apply H in Hc. lia.
Qed.

Lemma compare_digest_Ok a b : forallb (fun c => c <? 128) b = true ->
  compare_digest a b = Ok true <-> a = b.
Proof.
  intros Hb. unfold compare_digest. rewrite Hb, andb_true_r. destruct (forallb _ a) eqn:Ha.
  - unfold str_eqb. split; [by intros [= ?%bool_decide_eq_true]|]. intros ->. by rewrite bool_decide_true.
  - split; [done|]. intros ->. congruence.
Qed.

(** Verification touches the key issuer only. *)
Lemma verify_spec w :
  let r := verify_worker_callback_hmac hmac_header worker_id timestamp job_id body_bytes now w in
  w_scans r.2 = w_scans w /\ w_queue r.2 = w_queue w /\ w_specs r.2 = w_specs w /\ w_snapshots r.2 = w_snapshots w /\
  w_jobs r.2 = w_jobs w /\ (jr_job_id body = job_id -> r.1 = inl tt <-> authentic w).
Proof.
  unfold authentic, verify_worker_callback_hmac. destruct (_parse_hmac_header hmac_header) as [[key_id digest]|] eqn:Hp.
  2:{ cbn. split_and!; try done. intros Hj. split; [done|]. intros (_ & ? & ? & ? & ? & [=] & _). }
  unfold bind, keys. destruct (lookup_secret job_id key_id (w_issuer w)) as [[[secret|]|e] k] eqn:El; cbn [result].
  2,3: cbn; split_and!; try done; intros Hj; split; [done|];
    intros (_ & k' & d & s & m & [= <- <-] & Hl & _); rewrite El in Hl; done.
  unfold lift. destruct (canonical_request _ _ _ _ _) as [message|e] eqn:Em; cbn [result].
  2:{ cbn. split_and!; try done. intros Hj. split; [done|]. intros (_ & ? & ? & ? & ? & _ & _ & [=] & _). }
  pose proof (compare_digest_Ok digest _ (digest_ascii secret message)) as Hc.
  destruct (compare_digest digest _) as [[]|e] eqn:Ed; cbn [result].
  - destruct Hc as [Hc _]. specialize (Hc eq_refl) as ->. unfold guarded, ret, raise. cbn [negb].
    destruct (Z.ltb_spec HMAC_SKEW_WINDOW_SECONDS (Z.abs (now - timestamp))) as [Hlt|Hle]; cbn; split_and!; try done; intros Hj.
    + split; [done|]. intros (_ & ? & ? & ? & ? & _ & _ & _ & _ & ?). lia.
    + split; [|done]. intros _. split; [done|]. exists key_id, (hex (hmac_sha256 secret message)), secret, message.
      rewrite El. by split_and!.
  - unfold guarded, ret, raise. cbn. split_and!; try done. intros Hj. split; [done|].
    intros (_ & k' & d & s & m & [= <- <-] & Hl & [= <-] & -> & _). rewrite El in Hl. injection Hl as <-. by destruct Hc as [_ Hc]; specialize (Hc eq_refl).
  - cbn. split_and!; try done. intros Hj. split; [done|].
    intros (_ & k' & d & s & m & [= <- <-] & Hl & [= <-] & -> & _). rewrite El in Hl. injection Hl as <-. by destruct Hc as [_ Hc]; specialize (Hc eq_refl).
Qed.

Lemma post_job_status_eq durable w : jr_job_id body = job_id ->
  post_job_status job_id body body_bytes hmac_header worker_id timestamp durable now w =
  match verify_worker_callback_hmac hmac_header worker_id timestamp job_id body_bytes now w with
  | (inr e, w1) => (inr e, match e with Api InvalidHmacError => (count_reject w1).2 | _ => w1 end)
  | (inl _, w1) =>
      if bool_decide (jr_S_version body = []) || negb (_ENV_DIGEST_RE (jr_env_digest body)) then (inr (Api InvalidInputError), w1)
      else if durable then
        let '(o, j) := transition job_id (jr_status body) (hex (sha256 body_bytes)) (w_jobs w1) in
        (match o with Ok Conflict => inr (Api JobStatusConflictError) | Ok _ => inl tt | Raise e => inr (Other e) end,
         mkWorld (w_scans w1) (w_queue w1) (w_issuer w1) (w_specs w1) (w_snapshots w1) j (w_drawn w1) (w_rejects w1))
      else (inl tt, w1)
  end.
Proof.
  intros Hj. unfold post_job_status, bind, guarded, counting_rejects. rewrite Hj, Z.eqb_refl. cbn [negb ret].
  destruct (verify_worker_callback_hmac _ _ _ _ _ _ w) as [[[]|[[]|]] w1]; try done.
  destruct (_ || _); [done|]. destruct durable; [|done]. unfold jobs. cbn.
  by destruct (transition _ _ _ _) as [[[]|] j].
Qed.

(** C5: a callback takes effect exactly when it is authentic and carries both
    versioned parameters: then its outcome is the store's transition of the
    reported status under the digest of the signed bytes; otherwise it fails
    and leaves the job states as they were.  It never touches scans, the
    queue, specifications or snapshots. *)
Theorem callback_authenticated durable w :
  let r := post_job_status job_id body body_bytes hmac_header worker_id timestamp durable now w in
  w_scans r.2 = w_scans w /\ w_queue r.2 = w_queue w /\ w_specs r.2 = w_specs w /\ w_snapshots r.2 = w_snapshots w /\
  (authentic w /\ fenced ->
     if durable then
       let t := transition job_id (jr_status body) (hex (sha256 body_bytes)) (w_jobs w) in
       w_jobs r.2 = t.2 /\
       r.1 = match t.1 with Ok Conflict => inr (Api JobStatusConflictError) | Ok _ => inl tt | Raise e => inr (Other e) end
     else w_jobs r.2 = w_jobs w /\ r.1 = inl tt) /\
  (~ (authentic w /\ fenced) -> w_jobs r.2 = w_jobs w /\ r.1 <> inl tt).
Proof.
  cbv zeta. unfold fenced. destruct (decide (jr_job_id body = job_id)) as [Hj|Hj].
  2:{ unfold post_job_status, bind, guarded. destruct (Z.eqb_spec (jr_job_id body) job_id); [done|]. cbn.
      split_and!; try done. by intros [[? _] _]. }
  rewrite post_job_status_eq by done. destruct (verify_spec w) as (H1 & H2 & H3 & H4 & H5 & H6). specialize (H6 Hj).
  destruct (verify_worker_callback_hmac _ _ _ _ _ _ w) as [[[]|e] w1]; cbn [fst snd] in *.
  2:{ assert (Hn : ~ authentic w) by (intros Ha%H6; done).
      destruct e as [[]|]; cbn; (split_and!; [done..|by intros [? _]|by split]). }
  assert (Ha : authentic w) by (by apply H6).
  destruct (bool_decide (jr_S_version body = []) || negb (_ENV_DIGEST_RE (jr_env_digest body))) eqn:Ef.
  - cbn. split_and!; try done. intros [_ [Hs He]]. apply orb_true_iff in Ef as [Ef|Ef].
    + by apply bool_decide_eq_true in Ef.
    + by rewrite He in Ef.
  - apply orb_false_iff in Ef as [Hs%bool_decide_eq_false He%negb_false_iff]. destruct durable.
    + rewrite H5. destruct (transition _ _ _ _) as [o j]. cbn. split_and!; try done. by intros [].
    + cbn. split_and!; try done. by intros [].
Qed.
End callback.

(** ** Submissions *)

Section submission.
Context {Overrides K R P J : Type}.
Context `{!HmacKeyIssuer K, !SpecRegistryPort R, !SnapshotPort P, !JobStateStore J}.
Notation World := (World OrgScopedScanStore StandardQueue K R P J).
Context (uuid4 : nat -> UUID) (repr_overrides : Overrides -> outcome pystr).
Implicit Types w : World.

(** The queue after more sends. *)
Definition sent (messages : list Message) (q : StandardQueue) : StandardQueue :=
  mkQueue (name q) (max_receive_count q) (ready q ++ messages) (in_flight q) (dlq q) (next_receipt q).

Lemma sent_sent a b q : sent b (sent a q) = sent (a ++ b) q.
Proof. unfold sent. cbn. by rewrite <-app_assoc. Qed.

(** The job message of one detector: identifiers and versions as bound at submission. *)
Definition job_message (req : ScanRequest Overrides) (scan_id : UUID) (s_version : pystr) (snapshot : SnapshotResolution)
    (detector_id : pystr) (job_id : UUID) (key_id : pystr) : Message :=
  mkMessage
    [(str "job_id", uuid_str job_id); (str "scan_id", uuid_str scan_id); (str "snapshot_id", uuid_str (sn_snapshot_id snapshot));
     (str "codebase_id", uuid_str (rq_codebase_id req)); (str "commit_sha", rq_commit_sha req); (str "detector_id", detector_id);
     (str "S_version", s_version); (str "env_digest", sn_env_digest snapshot); (str "hmac_key_id", key_id);
     (str "callback_path", callback_path_of job_id)]%string (uuid_str job_id) 0.

(** The messages of the first detectors, given the key ids the issuer returned. *)
Fixpoint job_messages req scan_id s_version snapshot (n : nat) (ids keys : list pystr) : list Message :=
  match ids, keys with
  | d :: ids, k :: keys => job_message req scan_id s_version snapshot d (uuid4 n) k :: job_messages req scan_id s_version snapshot (S n) ids keys
  | _, _ => []
  end.

Lemma fan_out_cons req scan_id s_version snapshot d ids w :
  fan_out uuid4 req scan_id s_version snapshot (d :: ids) w =
  let job_id := uuid4 (w_drawn w) in
  match issue job_id scan_id (w_issuer w) with
  | (Raise e, k) =>
      (inr (Other e), mkWorld (w_scans w) (w_queue w) k (w_specs w) (w_snapshots w) (w_jobs w) (S (w_drawn w)) (w_rejects w))
  | (Ok key, k) =>
      let r := fan_out uuid4 req scan_id s_version snapshot ids
        (mkWorld (w_scans w) (sent [job_message req scan_id s_version snapshot d job_id key.1] (w_queue w)) k (w_specs w)
           (w_snapshots w) (w_jobs w) (S (w_drawn w)) (w_rejects w)) in
      (match r.1 with inl l => inl (job_id :: l) | inr e => inr e end, r.2)
  end.
Proof.
  cbn [fan_out]. unfold bind, fan_one, bind, draw, ScanApi.keys. cbn [w_issuer w_drawn].
  destruct (issue (uuid4 (w_drawn w)) scan_id (w_issuer w)) as [[[key_id secret]|e] k]; cbn [result]; [|done].
  cbv zeta. unfold ret, queued. cbn.
  match goal with |- (let (_, _) := ?m in _) = (match ?n.1 with _ => _ end, _) => change n with m; by destruct m as [[]] end.
Qed.

(** The fan-out sends the jobs of a prefix of the detectors: of all of them
    when it returns, and otherwise of those before the one whose key the
    issuer refused. *)
Lemma fan_out_spec req scan_id s_version snapshot ids : forall w r w',
  fan_out uuid4 req scan_id s_version snapshot ids w = (r, w') ->
  exists keys,
    w_scans w' = w_scans w /\
    w_queue w' = sent (job_messages req scan_id s_version snapshot (w_drawn w) ids keys) (w_queue w) /\
    match r with
    | inl job_ids => length keys = length ids /\ job_ids = map uuid4 (seq (w_drawn w) (length ids))
    | inr e => (length keys < length ids)%nat /\ exists e', e = Other e'
    end.
Proof.
  induction ids as [|d ids IH]; intros w r w'.
  { intros [= <- <-]. exists []. split_and!; try done. unfold sent. rewrite app_nil_r. by destruct (w_queue w). }
  rewrite fan_out_cons. cbv zeta. destruct (issue _ scan_id (w_issuer w)) as [[key|e] k].
  2:{ intros [= <- <-]. exists []. split_and!; [done| |cbn; lia|eauto]. unfold sent. cbn. rewrite app_nil_r. by destruct (w_queue w). }
  destruct (fan_out _ _ _ _ _ ids _) as [r2 w2] eqn:E. cbn [fst snd]. intros [= <- <-].
  apply IH in E as (keys & H1 & H2 & H3). exists (key.1 :: keys). split_and!; [done|by rewrite H2; cbn [w_queue]; rewrite sent_sent|].
  destruct r2 as [job_ids|e]; cbn [length]; [|split; [lia|tauto]]. destruct H3 as [-> ->]. by split.
Qed.

(** A computation that leaves scans, queue and identifiers alone. *)
Definition outside {A} (m : Handler A) : Prop :=
  forall w r w', m w = (r, w') -> w_scans w' = w_scans w /\ w_queue w' = w_queue w /\ w_drawn w' = w_drawn w.

Lemma bind_inv {A B} (m : Handler A) (f : A -> Handler B) w r w' : bind m f w = (r, w') ->
  (exists a w1, m w = (inl a, w1) /\ f a w1 = (r, w')) \/ (exists e, m w = (inr e, w') /\ r = inr e).
Proof. unfold bind. destruct (m w) as [[a|e] w1]; [eauto|]. intros [= <- <-]. right. eauto. Qed.

Lemma outside_ret {A} (a : A) : outside (ret a).
Proof. by intros w r w' [= <- <-]. Qed.
Lemma outside_raise {A} e : outside (raise e : Handler A).
Proof. by intros w r w' [= <- <-]. Qed.
Lemma outside_lift {A} (o : outcome A) : outside (lift o).
Proof. by intros w r w' [= <- <-]. Qed.
Lemma outside_bind {A B} (m : Handler A) (f : A -> Handler B) : outside m -> (forall a, outside (f a)) -> outside (bind m f).
Proof.
  intros Hm Hf w r w' [(a & w1 & E1 & E2)|(e & E & ->)]%bind_inv; [|by eapply Hm].
  apply Hm in E1 as (<- & <- & <-). by eapply Hf.
Qed.
Lemma outside_guarded bad e : outside (guarded bad e).
Proof. unfold guarded. destruct bad; [apply outside_raise|apply outside_ret]. Qed.
Lemma outside_specs {A} (f : R -> outcome A * R) : outside (specs f).
Proof. intros w r w'. unfold specs. destruct (f _). by intros [= <- <-]. Qed.
Lemma outside_snapshots {A} (f : P -> outcome A * P) : outside (snapshots f).
Proof. intros w r w'. unfold snapshots. destruct (f _). by intros [= <- <-]. Qed.
#[local] Hint Resolve @outside_ret @outside_raise @outside_lift @outside_bind outside_guarded @outside_specs @outside_snapshots : outside.

Lemma outside_version (req : ScanRequest Overrides) : outside (_resolve_s_version req).
Proof.
  unfold _resolve_s_version. destruct (rq_S_version req); auto 8 with outside.
  apply outside_bind; [auto with outside|]. intros []; auto with outside.
Qed.

Lemma outside_authorize claims headers method resource route trace_id :
  outside (authorize claims headers method resource route trace_id).
Proof. unfold authorize. destruct (authorize_request _ _ _ _ _ _); auto with outside. Qed.

Lemma detectors_inv registry ids w r w' : _validate_detectors registry ids w = (r, w') ->
  w' = w /\ (r = inl tt -> ids ⊆ registry).
Proof.
  induction ids as [|d ids IH]; cbn [_validate_detectors]; [intros [= <- <-]; split; [done|intros _ x []%elem_of_nil]|].
  case_bool_decide as Hd; [|by intros [= <- <-]]. intros [-> Hs]%IH. split; [done|]. intros E x [->|Hx]%elem_of_cons; [done|by apply Hs].
Qed.

Lemma guarded_inv bad e w r w' : guarded bad e w = (r, w') -> w' = w /\ (r = inl tt <-> bad = false).
Proof. unfold guarded, ret, raise. destruct bad; intros [= <- <-]; by split. Qed.

(** The same rows and keys, whatever the bound session. *)
Definition same_scans (s1 s2 : OrgScopedScanStore) : Prop :=
  st_rows (os_store s1) = st_rows (os_store s2) /\ os_idempotency s1 = os_idempotency s2.

Lemma find_same_scans org key s : same_scans (find_scan org key s).2 s.
Proof. unfold find_scan. by destruct (os_idempotency s !! _). Qed.

Section request.
Context (req : ScanRequest Overrides) (claims : JWTClaims) (headers : list (pystr * pystr)) (idempotency_key : UUID)
  (trace_id : pystr) (registry : list pystr).

Definition record_of (scan_id : UUID) (s_version : pystr) (snapshot : SnapshotResolution) (body_hash : pystr) : ScanRecord :=
  mkScan scan_id (c_org_id claims) (rq_codebase_id req) (sn_snapshot_id snapshot) (rq_commit_sha req) s_version
    (sn_env_digest snapshot) (rq_detector_ids req) (str "queued") idempotency_key body_hash.

(** What a submission may have done when it ends. *)
Inductive submitted (w : World) : ScanCreated + failure -> World -> Prop :=
| refused e w' : w_queue w' = w_queue w -> same_scans (w_scans w') (w_scans w) -> submitted w (inr e) w'
| replayed record w' :
    (find_scan (c_org_id claims) idempotency_key (w_scans w)).1 = Ok (Some record) ->
    idempotency_fingerprint repr_overrides req = Ok (sr_idempotency_body_hash record) ->
    w_queue w' = w_queue w -> same_scans (w_scans w') (w_scans w) ->
    submitted w (inl (mkCreated (sr_scan_id record) (sr_snapshot_id record) (str "queued") (sr_S_version record)
      (sr_env_digest record) [])) w'
| created s_version snapshot body_hash keys (r : ScanCreated + failure) w' scans0 :
    let scan_id := uuid4 (w_drawn w) in
    let ids := rq_detector_ids req in
    (find_scan (c_org_id claims) idempotency_key (w_scans w)).1 = Ok None ->
    idempotency_fingerprint repr_overrides req = Ok body_hash ->
    ids ⊆ registry -> _ENV_DIGEST_RE (sn_env_digest snapshot) = true ->
    same_scans scans0 (w_scans w) ->
    w_scans w' = (put (record_of scan_id s_version snapshot body_hash) scans0).2 ->
    w_queue w' = sent (job_messages req scan_id s_version snapshot (S (w_drawn w)) ids keys) (w_queue w) ->
    match r with
    | inl cr => length keys = length ids /\
        cr = mkCreated scan_id (sn_snapshot_id snapshot) (str "queued") s_version (sn_env_digest snapshot)
               (map uuid4 (seq (S (w_drawn w)) (length ids)))
    | inr e => (length keys < length ids)%nat /\ exists e', e = Other e'
    end ->
    submitted w r w'.

Lemma submit_effects body_hash w1 r w' (w : World) :
  submit uuid4 req (c_org_id claims) idempotency_key registry body_hash w1 = (r, w') ->
  (find_scan (c_org_id claims) idempotency_key (w_scans w)).1 = Ok None ->
  idempotency_fingerprint repr_overrides req = Ok body_hash ->
  same_scans (w_scans w1) (w_scans w) -> w_queue w1 = w_queue w -> w_drawn w1 = w_drawn w -> submitted w r w'.
Proof.
  intros H Hfind Hhash Hs Hq Hd. unfold submit in H.
  apply bind_inv in H as [(s_version & w2 & E & H)|(e & E & ->)].
  2:{ apply outside_version in E as (E1 & E2 & _). apply refused; [congruence|by rewrite E1]. }
  apply outside_version in E as (E1 & E2 & E3).
  apply bind_inv in H as [([] & w3 & [-> Hreg]%detectors_inv & H)|(e & [-> _]%detectors_inv & ->)].
  2:{ apply refused; [congruence|by rewrite E1]. }
  apply bind_inv in H as [(snapshot & w4 & E & H)|(e & E & ->)].
  2:{ apply outside_snapshots in E as (E4 & E5 & _). apply refused; [congruence|by rewrite E4, E1]. }
  apply outside_snapshots in E as (E4 & E5 & E6).
  apply bind_inv in H as [([] & w5 & [-> Henv]%guarded_inv & H)|(e & [-> _]%guarded_inv & ->)].
  2:{ apply refused; [congruence|by rewrite E4, E1]. }
  destruct Henv as [Henv _]. specialize (Henv eq_refl). apply negb_false_iff in Henv.
  assert (Hd4 : w_drawn w4 = w_drawn w) by congruence.
  unfold bind at 1, draw in H. unfold bind at 1, scans in H. cbn [w_scans put_scan org_scoped_scans put result] in H.
  apply bind_inv in H as [(job_ids & w6 & E & H)|(e & E & ->)]; apply fan_out_spec in E as (keys & K1 & K2 & K3);
    cbn [w_scans w_queue w_drawn] in K1, K2, K3; rewrite Hd4 in *.
  - injection H as <- <-. destruct K3 as [K3 ->].
    eapply (created _ s_version snapshot body_hash keys _ _ (w_scans w4)); try done.
    + by apply Hreg.
    + by rewrite E4, E1.
    + rewrite K2. congruence.
  - eapply (created _ s_version snapshot body_hash keys _ _ (w_scans w4)); try done.
    + by apply Hreg.
    + by rewrite E4, E1.
    + rewrite K2. congruence.
Qed.

(** C14: a submission ends in one of three ways.  It is refused, and no scan
    and no job exists that did not before; it replays the scan stored under
    the caller's key for the same body, enqueueing nothing; or it stores one
    scan of the caller's organisation and enqueues one job per detector, in
    order, each carrying the versions bound at submission, all of them unless
    the key issuer raises in between.  It passes the guard first. *)
Theorem post_scans_effects w r w' :
  post_scans uuid4 repr_overrides req claims headers idempotency_key trace_id registry w = (r, w') ->
  submitted w r w' /\
  (forall cr, r = inl cr ->
     authorize_request claims headers (str "POST") (str "scans") (str "/api/v1/scans") trace_id = None /\
     _COMMIT_SHA_RE (rq_commit_sha req) = true /\ rq_detector_ids req <> []).
Proof.
  unfold post_scans. intros [([] & w1 & E & H)|(e & E & ->)]%bind_inv.
  2:{ apply outside_authorize in E as (E1 & E2 & _). split; [|done]. apply refused; [done|by rewrite E1]. }
  assert (Hauth : authorize_request claims headers (str "POST") (str "scans") (str "/api/v1/scans") trace_id = None /\ w1 = w)
    by (unfold authorize in E; destruct (authorize_request _ _ _ _ _ _); [done|by injection E as <-]).
  destruct Hauth as [Hauth ->]. clear E.
  apply bind_inv in H as [([] & w2 & E & H)|(e & E & ->)].
  2:{ split; [|done]. unfold _validate_scan_request in E. apply bind_inv in E as [([] & w1 & [-> _]%guarded_inv & [-> _]%guarded_inv)|(? & [-> _]%guarded_inv & _)];
      by apply refused. }
  unfold _validate_scan_request in E. apply bind_inv in E as [([] & w3 & [-> [Hc _]]%guarded_inv & [-> [Hne _]]%guarded_inv)|(? & _ & [=])].
  specialize (Hc eq_refl). apply negb_false_iff in Hc. specialize (Hne eq_refl). apply bool_decide_eq_false in Hne.
  split; [|by intros cr _]. apply bind_inv in H as [(body_hash & w3 & E & H)|(e & E & ->)]; unfold lift in E.
  2:{ injection E as _ <-. by apply refused. }
  destruct (idempotency_fingerprint repr_overrides req) as [hash|] eqn:Eh; [|done]. injection E as <- <-.
  unfold bind at 1, scans in H. cbn [find_by_idempotency org_scoped_scans] in H.
  pose proof (find_same_scans (c_org_id claims) idempotency_key (w_scans w)) as Hfs.
  destruct (find_scan _ _ (w_scans w)) as [[[record|]|e] s'] eqn:Ef; cbn [result fst snd] in *.
  - apply bind_inv in H as [([] & w3 & [-> [Hsame _]]%guarded_inv & [= <- <-])|(e & [-> _]%guarded_inv & ->)].
    + specialize (Hsame eq_refl). apply negb_false_iff, bool_decide_eq_true in Hsame. apply replayed; cbn; try done.
      * by rewrite Ef.
      * congruence.
    + by apply refused.
  - eapply submit_effects; [exact H|by rewrite Ef|done..].
  - injection H as <- <-. by apply refused.
Qed.
End request.
End submission.
