(* ===== verification/ScanApiSamples.v ===== *)
(** * The scan API on a concrete scenario

    One organisation, two detectors and an issuer that numbers its keys; the
    theorems about [services/scan/api.py] applied to it, and three behaviours
    the source does not announce. *)
From stdpp Require Import base tactics list gmap strings.
From Stdlib Require Import ZArith Lia.
From S2P Require Import Prelude PyData Sha256 Ordering Json PyText Guard Queue ScanApi ScanApiSpec.

Open Scope Z_scope.

(** The issuer counts its calls and refuses the one numbered [refuse_at]. *)
Record Issuer := mkIssuer { issued : Z; refuse_at : Z }.

Definition sample_secret : pybytes := str "secret".

#[export] Instance sample_issuer : HmacKeyIssuer Issuer := {|
  issue _ _ k :=
    (if issued k =? refuse_at k then Raise QueueError else Ok (str "key" ++ decimal (issued k), sample_secret),
     mkIssuer (issued k + 1) (refuse_at k));
  lookup_secret _ key_id k := (Ok (if str_eqb key_id (str "key0") then Some sample_secret else None), k)
|}.

#[export] Instance sample_specs : SpecRegistryPort unit := {|
  resolve_latest r := (Ok (Some (str "1.2.3")), r);
  is_registered _ r := (Ok true, r)
|}.

#[export] Instance sample_snapshots : SnapshotPort unit := {|
  resolve_or_create _ _ _ p := (Ok (mkResolution 7 (str "sha256:" ++ concat (repeat (str "0f") 32))), p)
|}.

Notation SampleWorld := (World OrgScopedScanStore StandardQueue Issuer unit unit InMemoryJobStateStore).

Definition sample_world (refuse_at : Z) : SampleWorld :=
  mkWorld empty_scans (new_queue (str "jobs") 3) (mkIssuer 0 refuse_at) tt tt ∅ 0 0.

Definition sample_uuid4 (n : nat) : UUID := 2 ^ 100 + Z.of_nat n.
Definition no_overrides (_ : unit) : outcome pystr := Ok (str "[]").

Definition sample_claims : JWTClaims := mkClaims (str "alice") (str "org-a") (str "org-admin") 0 100.
Definition sample_headers : list (pystr * pystr) :=
  [(str "x-scanipy-org-id", str "org-a"); (str "x-scanipy-user-id", str "alice")].

Definition sample_commit : pystr := concat (repeat (str "0123456789") 4).
Definition sample_request (ids : list pystr) : ScanRequest unit := mkRequest 11 sample_commit ids None tt.
Definition two_detectors : list pystr := map str ["sqli"; "xss"]%string.

Definition submit_sample (ids : list pystr) (w : SampleWorld) : (ScanCreated + failure) * SampleWorld :=
  post_scans sample_uuid4 no_overrides (sample_request ids) sample_claims sample_headers 5 (str "t") two_detectors w.

Lemma sample_created : exists w', submit_sample two_detectors (sample_world 9) =
  (inl (mkCreated (2 ^ 100) 7 (str "queued") (str "1.2.3") (str "sha256:" ++ concat (repeat (str "0f") 32))
    [2 ^ 100 + 1; 2 ^ 100 + 2]), w').
Proof. eexists. vm_compute. reflexivity. Qed.

Lemma post_scans_effects_witness : exists cr w',
  submitted sample_uuid4 no_overrides (sample_request two_detectors) sample_claims 5 two_detectors (sample_world 9) (inl cr) w' /\
  length (cr_job_ids cr) = 2%nat.
Proof.
  destruct sample_created as (w' & E).
  destruct (post_scans_effects sample_uuid4 no_overrides (sample_request two_detectors) sample_claims sample_headers 5 (str "t")
    two_detectors _ _ _ E) as [H _].
  eexists _, w'. split; [exact H|reflexivity].
Defined.

(** ** Reads *)

Definition sample_record (id : UUID) (org : pystr) : ScanRecord :=
  mkScan id org 11 7 sample_commit (str "1.2.3") (str "sha256:") two_detectors (str "queued") 5 [].
Definition sample_puts : list ScanRecord := [sample_record 1 (str "org-a"); sample_record 2 (str "org-b")].

Lemma sample_unshared : unshared sample_puts.
Proof.
  intros r1 r2 H1 H2. unfold sample_puts in *. apply elem_of_cons in H1 as [->|H1]; apply elem_of_cons in H2 as [->|H2];
    try apply list_elem_of_singleton in H1 as ->; try apply list_elem_of_singleton in H2 as ->; try done.
  all: intros E; vm_compute in E; discriminate.
Qed.

Definition sample_store_world : SampleWorld :=
  with_scans (history sample_puts) (sample_world 9).

(** The other tenant's scan reads as missing. *)
Lemma scan_reads_isolated_witness :
  (get_scan 2 sample_claims sample_headers (str "t") sample_store_world).1 = inr (Api ScanNotFoundError) /\
  (get_scan 2 sample_claims sample_headers (str "t") sample_store_world).1 =
  (get_scan 2 sample_claims sample_headers (str "t")
    (with_scans (history (List.filter (owned (str "org-a")) sample_puts)) sample_store_world)).1.
Proof.
  split; [vm_compute; reflexivity|].
  exact (proj1 (scan_reads_isolated (str "scans") (str "/api/v1/scans/{scan_id}") 2 sample_claims sample_headers (str "t") 5
    sample_puts sample_store_world sample_unshared eq_refl)).
Defined.

(** ** Callbacks *)

Definition sample_job : UUID := 2 ^ 100 + 1.
Definition sample_body : JobStatusReport :=
  mkReport sample_job 3 Done (str "1.2.3") (str "sha256:" ++ concat (repeat (str "0f") 32)) 0 0 0 None None None.

Definition sample_message : pybytes :=
  match canonical_request (str "POST") (callback_path_of sample_job) (str "w1") (str "{}") 1000 with Ok m => m | Raise _ => [] end.
Definition sample_header : pystr := str "HMAC key0:" ++ hex (hmac_sha256 sample_secret sample_message).

Lemma sample_authentic : authentic sample_job sample_body (str "{}") sample_header (str "w1") 1000 1300 (sample_world 9).
Proof.
  split; [reflexivity|]. exists (str "key0"), (hex (hmac_sha256 sample_secret sample_message)), sample_secret, sample_message.
  split_and!; vm_compute; first [reflexivity|discriminate].
Qed.

Lemma callback_authenticated_witness :
  (post_job_status sample_job sample_body (str "{}") sample_header (str "w1") 1000 true 1300 (sample_world 9)).1 = inl tt.
Proof.
  destruct (callback_authenticated sample_job sample_body (str "{}") sample_header (str "w1") 1000 1300 true (sample_world 9))
    as (_ & _ & _ & _ & H & _).
  destruct H as [_ ->]; [|reflexivity]. split; [exact sample_authentic|split; [discriminate|reflexivity]].
Defined.

Lemma signature_binds_witness : sample_job = sample_job /\ str "w1" = str "w1".
Proof.
  destruct (signature_binds sample_job sample_job (str "w1") (str "w1") (str "{}") (str "{}") 1000 1000 sample_message
    ltac:(unfold sample_job; lia) ltac:(unfold sample_job; lia) ltac:(vm_compute; reflexivity) ltac:(vm_compute; reflexivity))
    as (H1 & H2 & _). exact (conj H1 H2).
Defined.

(** A report after a terminal one changes nothing. *)
Lemma job_state_machine_witness :
  after_reports ([(sample_job, Running, []); (sample_job, Done, str "a")] ++ [(sample_job, Failed, str "b")]) !! sample_job =
  Some (Done, str "a").
Proof.
  destruct (job_state_machine [(sample_job, Running, []); (sample_job, Done, str "a")] sample_job Failed (str "b")) as (_ & _ & H).
  exact (H [(sample_job, Failed, str "b")] Done (str "a") eq_refl eq_refl).
Defined.

(** ** Behaviours the source does not announce *)

(** When the issuer refuses the second key, the scan is stored with one of its
    two jobs, and the retry replays it: the missing job is never enqueued. *)
Theorem interrupted_jobs_lost :
  let w1 := (submit_sample two_detectors (sample_world 1)).2 in
  let r := submit_sample two_detectors w1 in
  (submit_sample two_detectors (sample_world 1)).1 = inr (Other QueueError) /\
  match r.1 with inl cr => cr_job_ids cr = [] | inr _ => False end /\ length (ready (w_queue r.2)) = 1%nat.
Proof. vm_compute. repeat split. Qed.

(** Two different bodies with one fingerprint: the detector lists are joined
    with a comma, and an absent version is spelled as the empty one. *)
Theorem fingerprint_ambiguous :
  idempotency_fingerprint no_overrides (sample_request [str "a,b"]) =
  idempotency_fingerprint no_overrides (mkRequest 11 sample_commit (map str ["a"; "b"]%string) (Some []) tt).
Proof. vm_compute. reflexivity. Qed.

(** A signature that is not ASCII text raises [TypeError], not the refusal. *)
Theorem non_ascii_digest_raises :
  (post_job_status sample_job sample_body (str "{}") (str "HMAC key0:" ++ [233]) (str "w1") 1000 true 1300 (sample_world 9)).1 =
  inr (Other TypeError).
Proof. vm_compute. reflexivity. Qed.

(** A commit hash may end with a newline. *)
Theorem commit_sha_newline : _COMMIT_SHA_RE (sample_commit ++ [10]) = true.
Proof. vm_compute. reflexivity. Qed.
