(* ===== verification/Sarif.v ===== *)
(** * Canonical SARIF emission ([analysis/sarif/canonical_emit.py])

    The projection of worker findings on a two-run SARIF log, its canonical
    bytes, and the two checks the emitter runs on the bytes it has made.

    A [WorkerFinding] is the record of the attributes the emitter reads.  The
    attributes it validates itself are [pyval]s; the texts it does not are
    typed as the protocol declares them; an attribute read by [getattr] with a
    default may be absent.  A JSON document is the Python value [json.loads]
    returns.  The errors of the shape validators are the place and the check,
    without the rest of the message. *)
From stdpp Require Import base tactics list gmap strings.
From Stdlib Require Import ZArith Lia.
From S2P Require Import Prelude PyData PyDict Sha256 Ordering Json PyText Identity JsonParse BoundRules.

Open Scope Z_scope.
Open Scope py_scope.

(** What the emitter could meet of the standard library on documents and
    values it never makes itself: the text of bytes and of containers, [int]
    of a text, the UTF-16 and UTF-32 decoders, and the numbers of a JSON text
    that are not integers. *)
Class PyRuntime := {
  str_of_container : pyval -> pystr;
  int_of_text : pyval -> outcome Z;
  decode_wide : pybytes -> outcome pystr;
  parse_float : pystr -> outcome json;
  parse_constant : pystr -> outcome json
}.

(** ** Constants *)

Definition SARIF_SCHEMA_URI : pystr := str "https://json.schemastore.org/sarif-2.1.0.json".
Definition SARIF_VERSION : pystr := str "2.1.0".
Definition TOOL_NAME : pystr := str "scanipy".
Definition TOOL_VERSION : pystr := str "3.2.0".
Definition TOOL_INFORMATION_URI : pystr := str "https://scanipy.io".

Definition CORE_ORIGIN : pystr := str "deterministic-core".
Definition ORACLE_ORIGIN : pystr := str "oracle-passthrough".
Definition _ORIGINS : list pystr := [CORE_ORIGIN; ORACLE_ORIGIN].
Definition _ENGINES : list pystr := map str ["ifds"; "ide"; "semgrep"; "cpg-query"; "external"]%string.
Definition _FP_CLASSES : list pystr := map str ["strong"; "weak"]%string.
Definition _SEVERITIES : list pystr := map str ["info"; "low"; "medium"; "high"; "critical"]%string.
Definition _STATUSES : list pystr := map str ["open"; "suppressed"; "fixed"]%string.
Definition _PRECONDITIONS : list pystr := map str ["closed-world"; "degraded"; "full-reparse"]%string.

Definition _SEVERITY_TO_LEVEL : list (pystr * pystr) :=
  [(str "info", str "note"); (str "low", str "note"); (str "medium", str "warning"); (str "high", str "error");
   (str "critical", str "error")].

Definition INV1 : exc := InvariantViolation "invariant_inv1_violation".
Definition INV2 : exc := InvariantViolation "invariant_inv2_violation".
Definition INV5 : exc := InvariantViolation "invariant_inv5_violation".

(** ** Data *)

Record WorkerFinding := mkWorkerFinding {
  w_origin : pyval;
  w_determinism_partition : pyval;
  w_engine : pyval;
  w_S_version : pyval;
  w_env_digest : pyval;
  w_fingerprint_class : pyval;
  w_cpg_order_hash : pyval;
  w_slice_fingerprint : pyval;
  w_precondition_status : pyval;
  w_rule_id : pyval;
  w_message : pystr;
  w_uri : pystr;
  w_start_line : pyval;
  w_start_col : pyval;
  w_end_line : pyval;
  w_end_col : pyval;
  w_severity : pyval;
  w_class_ : pyval;
  w_status : pyval;
  w_witness_blob_uri : option pystr;
  w_spec_provenance : option pystr;
  w_oracle_fingerprint : option pystr;
  w_identity_schema_version : option pyval;
  w_cpg_order_class : option pyval;
  w_slice_fingerprint_class : option pyval;
  w_cpg_order_status : option pyval;
  w_slice_status : option pyval;
  w_cpg_order_namespace : option pyval;
  w_slice_namespace : option pyval
}.

Definition put_attr (name : string) (o : option pyval) (f : finding) : finding :=
  match o with Some v => <[str name := v]> f | None => f end.

(** The finding as the identity reader sees it. *)
Definition attrs (f : WorkerFinding) : finding :=
  put_attr "identity_schema_version" (w_identity_schema_version f)
  (put_attr "cpg_order_hash" (Some (w_cpg_order_hash f))
  (put_attr "slice_fingerprint" (Some (w_slice_fingerprint f))
  (put_attr "cpg_order_class" (w_cpg_order_class f)
  (put_attr "slice_fingerprint_class" (w_slice_fingerprint_class f)
  (put_attr "cpg_order_status" (w_cpg_order_status f)
  (put_attr "slice_status" (w_slice_status f)
  (put_attr "cpg_order_namespace" (w_cpg_order_namespace f)
  (put_attr "slice_namespace" (w_slice_namespace f) ∅)))))))).

Record SARIFRun := mkRun {
  run_partition : pystr;
  run_bytes : pybytes;
  run_hash : pystr;
  result_count : nat
}.

Record SARIFLog := mkLog {
  log_runs : SARIFRun * SARIFRun;
  log_bytes : pybytes;
  log_hash : pystr
}.

(** The keyword parameters of [normalize]. *)
Record RunParams := mkParams {
  p_scan_id : UUID;
  p_snapshot_id : UUID;
  p_codebase_id : UUID;
  p_commit_sha : pystr;
  p_S_version : pystr;
  p_env_digest : pystr;
  p_precondition_status : option pystr;
  p_llm_triage_flag : bool
}.

(** ** Python values and JSON *)

(** What [json.dumps] makes of a value: bytes are not serialisable. *)
Fixpoint to_json (v : pyval) : outcome json :=
  match v with
  | VNone => Ok JNull
  | VBool b => Ok (JBool b)
  | VInt z => Ok (JInt z)
  | VStr s => Ok (JStr s)
  | VBytes _ => Raise TypeError
  | VList l =>
      js ⇐ (fix all l := match l with [] => Ok [] | x :: l => j ⇐ to_json x; js ⇐ all l; Ok (j :: js) end) l;
      Ok (JList js)
  | VDict d =>
      js ⇐ (fix all l := match l with [] => Ok [] | kv :: l => j ⇐ to_json kv.2; js ⇐ all l; Ok ((kv.1, j) :: js) end) d;
      Ok (JObj js)
  end.

Fixpoint of_json (v : json) : pyval :=
  match v with
  | JNull => VNone
  | JBool b => VBool b
  | JInt z => VInt z
  | JStr s => VStr s
  | JList l => VList (map of_json l)
  | JObj items => VDict (map (fun kv => (kv.1, of_json kv.2)) items)
  end.

Definition _canonical_serialize (obj : pyval) : outcome pybytes :=
  j ⇐ to_json obj;
  match utf8_encode (dumps j) with Some b => Ok b | None => Raise UnicodeEncodeError end.

(** [bytes.decode("utf-8", "surrogatepass")] *)
Fixpoint utf8_decode_pass (bs : pybytes) : option pystr :=
  match bs with
  | [] => Some []
  | a :: t =>
      if a <? 128 then cons a <$> utf8_decode_pass t
      else match t with
      | [] => None
      | b :: t1 =>
          if (194 <=? a) && (a <? 224) && is_cont b then cons ((a - 192) * 64 + (b - 128)) <$> utf8_decode_pass t1
          else match t1 with
          | [] => None
          | c :: t2 =>
              let x := (a - 224) * 4096 + (b - 128) * 64 + (c - 128) in
              if (224 <=? a) && (a <? 240) && is_cont b && is_cont c then
                if x <? 2048 then None else cons x <$> utf8_decode_pass t2
              else match t2 with
              | [] => None
              | d :: t3 =>
                  let x := (a - 240) * 262144 + (b - 128) * 4096 + (c - 128) * 64 + (d - 128) in
                  if (240 <=? a) && (a <? 248) && is_cont b && is_cont c && is_cont d then
                    if (x <? 65536) || (1114112 <=? x) then None else cons x <$> utf8_decode_pass t3
                  else None
              end
          end
      end
  end.

Inductive json_encoding := UTF8 | UTF8_SIG | WIDE.

(** [json.detect_encoding] *)
Definition detect_encoding (b : pybytes) : json_encoding :=
  match b with
  | 0 :: 0 :: 254 :: 255 :: _ | 255 :: 254 :: _ | 254 :: 255 :: _ => WIDE
  | 239 :: 187 :: 191 :: _ => UTF8_SIG
  | [0; _] | [_; 0] => WIDE
  | 0 :: _ :: _ :: _ :: _ | _ :: 0 :: _ :: _ :: _ => WIDE
  | _ => UTF8
  end.

Section emitter.
Context `{PyRuntime}.

Definition UnicodeDecodeError : exc := ValueError "UnicodeDecodeError".

Definition decode_document (b : pybytes) : outcome pystr :=
  match detect_encoding b with
  | WIDE => decode_wide b
  | UTF8 => match utf8_decode_pass b with Some s => Ok s | None => Raise UnicodeDecodeError end
  | UTF8_SIG => match utf8_decode_pass (drop 3 b) with Some s => Ok s | None => Raise UnicodeDecodeError end
  end.

(** The items of a JSON object as a dict: the last of equal keys wins. *)
Definition dict_of_pairs (items : list (pystr * json)) : outcome json :=
  Ok (JObj (fold_left (fun d kv => dict_set d kv.1 kv.2) items [])).

(** [except (json.JSONDecodeError, UnicodeDecodeError)] *)
Definition is_decode_error (e : exc) : bool :=
  match e with
  | ValueError m => String.eqb m "JSONDecodeError" || String.eqb m "UnicodeDecodeError"
  | _ => false
  end.

(** [json.loads] of bytes *)
Definition json_loads (b : pybytes) : outcome pyval :=
  text ⇐ decode_document b;
  v ⇐ loads (fun s => Ok (JInt (int_of s))) parse_float parse_constant dict_of_pairs text;
  Ok (of_json v).

(** ** Access to dynamic values *)

(** [v.get(key, default)] *)
Definition get_or (v : pyval) (key : string) (dflt : pyval) : outcome pyval :=
  match v with VDict d => Ok (default dflt (dict_get d (str key))) | _ => Raise AttributeError end.
Definition get_key (v : pyval) (key : string) : outcome pyval := get_or v key VNone.

(** [v[key]] *)
Definition subscript (v : pyval) (key : string) : outcome pyval :=
  match v with
  | VDict d => match dict_get d (str key) with Some x => Ok x | None => Raise KeyError end
  | _ => Raise TypeError
  end.

(** [for x in v] *)
Definition iterate (v : pyval) : outcome (list pyval) :=
  match v with
  | VList l => Ok l
  | VDict d => Ok (map (fun kv => VStr kv.1) d)
  | VStr s => Ok (map (fun c => VStr [c]) s)
  | VBytes b => Ok (map VInt b)
  | _ => Raise TypeError
  end.

Definition is_dict (v : pyval) : bool := match v with VDict _ => true | _ => false end.
Definition is_text (v : pyval) : bool := match v with VStr _ => true | _ => false end.
Definition is_boolean (v : pyval) : bool := match v with VBool _ => true | _ => false end.
(** [isinstance(v, int) and not isinstance(v, bool)] *)
Definition is_integer (v : pyval) : bool := match v with VInt _ => true | _ => false end.
(** [isinstance(v, str) and v != ""] *)
Definition is_nonempty_text (v : pyval) : bool := match v with VStr (_ :: _) => true | _ => false end.
(** [v == s] for a string [s] *)
Definition equals_text (v : pyval) (s : pystr) : bool := match v with VStr t => str_eqb t s | _ => false end.
(** [v == o] for a string or [None] *)
Definition equals_opt (v : pyval) (o : option pystr) : bool :=
  match v, o with VNone, None => true | VStr s, Some t => str_eqb s t | _, _ => false end.

(** The key of a value in a set; lists and dicts have none. *)
Definition hashable (v : pyval) : outcome pyval :=
  match v with
  | VList _ | VDict _ => Raise TypeError
  | VBool b => Ok (VInt (Z.b2z b))
  | _ => Ok v
  end.
Definition scalar_eqb (v w : pyval) : bool :=
  match v, w with
  | VNone, VNone => true
  | VInt a, VInt b => a =? b
  | VStr s, VStr t => str_eqb s t
  | VBytes s, VBytes t => str_eqb s t
  | _, _ => false
  end.

(** [str(v)] and [int(v)] *)
Definition py_str (v : pyval) : pystr :=
  match v with
  | VStr s => s
  | VNone => str "None"
  | VBool b => if b then str "True" else str "False"
  | VInt z => str_of_int z
  | _ => str_of_container v
  end.
Definition py_int (v : pyval) : outcome Z :=
  match v with
  | VInt z => Ok z
  | VBool b => Ok (Z.b2z b)
  | VStr _ | VBytes _ => int_of_text v
  | _ => Raise TypeError
  end.

(** ** Validation of a finding *)

Definition _require_nonempty_str (value : pyval) (code : exc) : outcome pystr :=
  match value with VStr (c :: s) => Ok (c :: s) | _ => Raise code end.

(** A required string of a closed domain. *)
Definition require_in (value : pyval) (domain : list pystr) (code : exc) : outcome pystr :=
  s ⇐ _require_nonempty_str value code;
  if bool_decide (s ∈ domain) then Ok s else Raise code.

Definition require_int (value : pyval) : outcome unit := if is_integer value then Ok tt else Raise INV1.

Definition schema_version (f : WorkerFinding) : pyval := default (VInt 1) (w_identity_schema_version f).

Definition completed (a : ArtifactIdentity) : bool := str_eqb (a_status a) COMPLETED.

(** The body of the [try] of schema version 2. *)
Definition check_identities (f : WorkerFinding) (origin : pystr) : outcome unit :=
  ids ⇐ identities_from_finding (attrs f);
  if str_eqb origin CORE_ORIGIN && negb (completed ids.1 && completed ids.2)
  then Raise (ValueError "core findings require computed graph and slice evidence")
  else Ok tt.

Definition check_v1 (f : WorkerFinding) : outcome unit :=
  _ ⇐ _require_nonempty_str (w_cpg_order_hash f) INV5;
  _ ⇐ require_in (w_fingerprint_class f) _FP_CLASSES INV5;
  _ ⇐ _require_nonempty_str (w_slice_fingerprint f) INV5;
  Ok tt.

Definition check_v2 (f : WorkerFinding) (origin : pystr) : outcome unit :=
  match check_identities f origin with
  | Raise (ValueError _) | Raise TypeError => Raise INV5
  | r => r
  end.

Definition check_precondition (f : WorkerFinding) (version : Z) (origin : pystr) : outcome unit :=
  let pc := w_precondition_status f in
  known ⇐ in_strings pc _PRECONDITIONS;
  if known || ((version =? 2) && str_eqb origin ORACLE_ORIGIN && negb (truthy pc)) then Ok tt else Raise INV1.

Definition _validate_finding (f : WorkerFinding) : outcome unit :=
  origin ⇐ require_in (w_origin f) _ORIGINS INV1;
  _ ⇐ require_in (w_determinism_partition f) _ORIGINS INV1;
  _ ⇐ require_in (w_engine f) _ENGINES INV1;
  _ ⇐ _require_nonempty_str (w_S_version f) INV2;
  _ ⇐ _require_nonempty_str (w_env_digest f) INV2;
  version ⇐ match schema_version f with
            | VInt v => if (v =? 1) || (v =? 2) then Ok v else Raise INV5
            | _ => Raise INV5
            end;
  _ ⇐ (if version =? 1 then check_v1 f else check_v2 f origin);
  _ ⇐ _require_nonempty_str (w_rule_id f) INV1;
  _ ⇐ require_in (w_severity f) _SEVERITIES INV1;
  _ ⇐ _require_nonempty_str (w_class_ f) INV1;
  _ ⇐ require_in (w_status f) _STATUSES INV1;
  _ ⇐ check_precondition f version origin;
  _ ⇐ require_int (w_start_line f);
  _ ⇐ require_int (w_start_col f);
  _ ⇐ require_int (w_end_line f);
  require_int (w_end_col f).

(** ** Projection of a finding *)

Definition base_properties (f : WorkerFinding) : list (pystr * pyval) :=
  [(str "scanipy.origin", w_origin f);
   (str "scanipy.S_version", w_S_version f);
   (str "scanipy.env_digest", w_env_digest f);
   (str "scanipy.cpg_order_hash", w_cpg_order_hash f);
   (str "scanipy.cpg_order_hash_annotation", VStr CPG_ORDER_HASH_ANNOTATION);
   (str "scanipy.fingerprint_class", w_fingerprint_class f);
   (str "scanipy.slice_fingerprint", w_slice_fingerprint f);
   (str "scanipy.determinism_partition", w_determinism_partition f);
   (str "scanipy.engine", w_engine f);
   (str "scanipy.precondition_status", w_precondition_status f);
   (str "scanipy.class", w_class_ f);
   (str "scanipy.severity", w_severity f);
   (str "scanipy.status", w_status f)].

Definition oracle_native_identity (fingerprint : pystr) : pyval :=
  VDict [(str "digest", VStr fingerprint); (str "namespace", VStr (str "scanipy-oracle-content/1"));
         (str "scope", VStr (str "same-source-only"))].

(** [if text: properties[key] = make(text)] *)
Definition set_if (o : option pystr) (key : string) (make : pystr -> pyval) (d : list (pystr * pyval)) :=
  match o with Some (c :: s) => dict_set d (str key) (make (c :: s)) | _ => d end.

(** [d.pop(key)] *)
Definition dict_pop (d : list (pystr * pyval)) (key : string) : outcome (list (pystr * pyval)) :=
  match dict_get d (str key) with
  | Some _ => Ok (List.filter (fun kv => negb (str_eqb kv.1 (str key))) d)
  | None => Raise KeyError
  end.

(** [d.update(items)] *)
Definition dict_update (d items : list (pystr * pyval)) : list (pystr * pyval) :=
  fold_left (fun d kv => dict_set d kv.1 kv.2) items d.

Definition v2_properties (f : WorkerFinding) (identity : pyval) (graph sliced : ArtifactIdentity) : list (pystr * pyval) :=
  let pc := w_precondition_status f in
  [(str "scanipy.identity", identity);
   (str "scanipy.cpg_order_hash", of_opt (a_digest graph));
   (str "scanipy.cpg_order_class", of_opt (a_class graph));
   (str "scanipy.slice_fingerprint", of_opt (a_digest sliced));
   (str "scanipy.slice_fingerprint_class", of_opt (a_class sliced));
   (str "scanipy.precondition_status", if truthy pc then pc else VNone);
   (str "scanipy.precondition_applicability", VStr (str (if truthy pc then "computed" else "not-applicable")))].

Definition v2_result (f : WorkerFinding) (properties : list (pystr * pyval)) :
    outcome (list (pystr * pyval) * list (pystr * pyval)) :=
  ids ⇐ identities_from_finding (attrs f);
  properties ⇐ dict_pop properties "scanipy.fingerprint_class";
  properties ⇐ dict_pop properties "scanipy.cpg_order_hash_annotation";
  identity ⇐ identity_metadata (attrs f);
  Ok (dict_update properties (v2_properties f identity ids.1 ids.2),
      if has_strong_v2_artifact_identities (attrs f) then
        [(str "scanipy.cpg_order_hash/v2", of_opt (a_digest ids.1));
         (str "scanipy.slice_fingerprint/v2", of_opt (a_digest ids.2))]
      else []).

(** [_SEVERITY_TO_LEVEL[severity]] *)
Definition level_of (severity : pyval) : outcome pystr :=
  match severity with
  | VStr s => match dict_get _SEVERITY_TO_LEVEL s with Some l => Ok l | None => Raise KeyError end
  | VList _ | VDict _ => Raise TypeError
  | _ => Raise KeyError
  end.

Definition location_of (f : WorkerFinding) : pyval :=
  VDict [(str "physicalLocation",
    VDict [(str "artifactLocation", VDict [(str "uri", VStr (w_uri f))]);
           (str "region", VDict [(str "startLine", w_start_line f); (str "startColumn", w_start_col f);
                                 (str "endLine", w_end_line f); (str "endColumn", w_end_col f)])])].

Definition _to_result (f : WorkerFinding) : outcome pyval :=
  let properties := set_if (w_oracle_fingerprint f) "scanipy.oracle_native_identity" oracle_native_identity
    (set_if (w_witness_blob_uri f) "scanipy.witness_blob_uri" VStr
    (set_if (w_spec_provenance f) "scanipy.spec_provenance" VStr (base_properties f))) in
  let fingerprints := [(str "scanipy.cpg_order_hash/v1", w_cpg_order_hash f);
                       (str "scanipy.slice_fingerprint/v1", w_slice_fingerprint f)] in
  pf ⇐ match schema_version f with
       | VInt 2 => v2_result f properties
       | _ => Ok (properties, fingerprints)
       end;
  level ⇐ level_of (w_severity f);
  Ok (VDict
    [(str "ruleId", w_rule_id f);
     (str "level", VStr level);
     (str "message", VDict [(str "text", VStr (w_message f))]);
     (str "locations", VList [location_of f]);
     (str "fingerprints", VDict pf.2);
     (str "properties", VDict pf.1)]).

(** ** Order of the results *)

Definition sort_key : Type := pystr * pystr * pystr * Z * pystr * pybytes.

Definition sort_key_leb : sort_key -> sort_key -> bool :=
  pair_leb (pair_leb (pair_leb (pair_leb (pair_leb str_leb str_leb) str_leb) Z.leb) str_leb) bytes_leb.

Definition _result_sort_key (result : pyval) : outcome sort_key :=
  properties ⇐ subscript result "properties";
  _ ⇐ (if is_dict properties then Ok tt else Raise AssertionError);
  locations ⇐ subscript result "locations";
  first ⇐ match locations with
          | VList (l :: _) => Ok l
          | VList [] => Raise IndexError
          | _ => Raise AssertionError
          end;
  physical ⇐ subscript first "physicalLocation";
  region ⇐ subscript physical "region";
  h ⇐ subscript properties "scanipy.cpg_order_hash";
  rule ⇐ subscript result "ruleId";
  physical ⇐ subscript first "physicalLocation";
  artifact ⇐ subscript physical "artifactLocation";
  uri ⇐ subscript artifact "uri";
  line ⇐ subscript region "startLine";
  n ⇐ py_int line;
  sl ⇐ subscript properties "scanipy.slice_fingerprint";
  bytes ⇐ _canonical_serialize result;
  Ok (py_str h, py_str rule, py_str uri, n, py_str sl, bytes).

(** [results.sort(key=_result_sort_key)]: the keys are computed first. *)
Definition with_key (r : pyval) : outcome (sort_key * pyval) := k ⇐ _result_sort_key r; Ok (k, r).
Definition by_key (p q : sort_key * pyval) : bool := sort_key_leb p.1 q.1.
Definition sort_results (results : list pyval) : outcome (list pyval) :=
  keyed ⇐ mapO with_key results;
  Ok (map snd (py_sorted by_key keyed)).

Definition _sorted_results (findings : list WorkerFinding) (origin : pystr) : outcome (list pyval) :=
  let selected := List.filter (fun f => equals_text (w_origin f) origin) findings in
  _ ⇐ mapO _validate_finding selected;
  results ⇐ mapO _to_result selected;
  sort_results results.

(** ** A run *)

Definition rule_text (r : pyval) : outcome pystr := v ⇐ subscript r "ruleId"; Ok (py_str v).
Definition rule_definition (id : pystr) : pyval := VDict [(str "id", VStr id); (str "name", VStr id)].

Definition run_properties (partition : pystr) (p : RunParams) : list (pystr * pyval) :=
  let properties :=
    [(str "scanipy.partition", VStr partition);
     (str "scanipy.scan_id", VStr (uuid_str (p_scan_id p)));
     (str "scanipy.snapshot_id", VStr (uuid_str (p_snapshot_id p)));
     (str "scanipy.codebase_id", VStr (uuid_str (p_codebase_id p)));
     (str "scanipy.commit_sha", VStr (p_commit_sha p));
     (str "scanipy.S_version", VStr (p_S_version p));
     (str "scanipy.env_digest", VStr (p_env_digest p));
     (str "scanipy.precondition_status", of_opt (p_precondition_status p));
     (str "scanipy.llm_triage_flag", VBool (p_llm_triage_flag p))] in
  match p_precondition_status p with
  | None => dict_set properties (str "scanipy.precondition_applicability") (VStr (str "not-applicable"))
  | Some _ => properties
  end.

Definition run_object (partition : pystr) (p : RunParams) (rule_ids : list pystr) (results : list pyval) : pyval :=
  VDict
    [(str "tool", VDict [(str "driver", VDict
        [(str "name", VStr TOOL_NAME); (str "version", VStr TOOL_VERSION);
         (str "informationUri", VStr TOOL_INFORMATION_URI); (str "rules", VList (map rule_definition rule_ids))])]);
     (str "properties", VDict (run_properties partition p));
     (str "results", VList results)].

Definition _build_run (partition : pystr) (results : list pyval) (p : RunParams) : outcome pyval :=
  ids ⇐ mapO rule_text results;
  Ok (run_object partition p (py_sorted str_leb (remove_dups ids)) results).

(** ** The shape validators *)

Inductive place := at_document | at_run (run : nat) | at_result (run result : nat).
Definition shape_error : Type := place * string.

Definition expect (ok : bool) (where_ : place) (what : string) : list shape_error := if ok then [] else [(where_, what)].

Definition LEVELS : list pystr := map str ["none"; "note"; "warning"; "error"]%string.
Definition REGION_KEYS : list string := ["startLine"; "startColumn"; "endLine"; "endColumn"]%string.

Definition required_v1 : list string :=
  ["scanipy.origin"; "scanipy.S_version"; "scanipy.env_digest"; "scanipy.cpg_order_hash";
   "scanipy.cpg_order_hash_annotation"; "scanipy.fingerprint_class"; "scanipy.slice_fingerprint";
   "scanipy.determinism_partition"; "scanipy.engine"; "scanipy.precondition_status"; "scanipy.class";
   "scanipy.severity"; "scanipy.status"]%string.
Definition dropped_v2 : list string :=
  ["scanipy.cpg_order_hash"; "scanipy.cpg_order_hash_annotation"; "scanipy.fingerprint_class";
   "scanipy.slice_fingerprint"; "scanipy.precondition_status"]%string.
Definition required_keys (v2 : bool) : list string :=
  if v2 then List.filter (fun k => negb (bool_decide (k ∈ dropped_v2))) required_v1 else required_v1.

Definition location_errors (w : place) (locations : list pyval) : outcome (list shape_error) :=
  match locations with
  | [] => Ok [(w, "locations: missing or empty"%string)]
  | first :: _ =>
      let part name := if is_dict first then p ⇐ get_or first "physicalLocation" (VDict []); get_or p name (VDict []) else Ok (VDict []) in
      region ⇐ part "region"%string;
      es ⇐ mapO (fun key => v ⇐ get_key region key; Ok (expect (is_integer v) w key)) REGION_KEYS;
      artifact ⇐ part "artifactLocation"%string;
      uri ⇐ get_key artifact "uri";
      Ok (concat es ++ expect (is_nonempty_text uri) w "artifactLocation.uri")
  end.

(** [properties.get(key)] of a dict *)
Definition prop (properties : list (pystr * pyval)) (key : string) : pyval := default VNone (dict_get properties (str key)).

Definition descriptor_errors (w : place) (properties : list (pystr * pyval)) (graph sliced : ArtifactIdentity) : list shape_error :=
  concat (map (fun ke => expect match dict_get properties (str ke.1) with Some v => equals_opt v ke.2 | None => false end w ke.1)
    [("scanipy.cpg_order_hash", a_digest graph); ("scanipy.cpg_order_class", a_class graph);
     ("scanipy.slice_fingerprint", a_digest sliced); ("scanipy.slice_fingerprint_class", a_class sliced)]%string) ++
  expect (negb (bool_decide (is_Some (dict_get properties (str "scanipy.fingerprint_class"))))) w "ambiguous shared class".

Definition native_fingerprints (graph sliced : ArtifactIdentity) : option (list (pystr * option pystr)) :=
  if bool_decide (a_class graph = a_class sliced) && bool_decide (a_class sliced = Some (str "strong")) &&
     bool_decide (a_namespace graph = Some GRAPH_V2) && bool_decide (a_namespace sliced = Some SLICE_V2)
  then Some [(str "scanipy.cpg_order_hash/v2", a_digest graph); (str "scanipy.slice_fingerprint/v2", a_digest sliced)]
  else None.

(** [fingerprints != expected_fingerprints] *)
Definition equals_fingerprints (v : pyval) (d : list (pystr * option pystr)) : bool :=
  match v with
  | VDict items => (Z.of_nat (length items) =? Z.of_nat (length d)) &&
      forallb (fun kv => match dict_get items kv.1 with Some x => equals_opt x kv.2 | None => false end) d
  | _ => false
  end.

Definition precondition_errors (w : place) (properties : list (pystr * pyval)) : outcome (list shape_error) :=
  let pc := prop properties "scanipy.precondition_status" in
  let applicability := prop properties "scanipy.precondition_applicability" in
  match pc with
  | VNone => Ok (expect (equals_text (prop properties "scanipy.origin") ORACLE_ORIGIN && equals_text applicability (str "not-applicable"))
                       w "absent precondition requires explicit oracle applicability")
  | _ => known ⇐ in_strings pc _PRECONDITIONS;
         Ok (expect (known && equals_text applicability (str "computed")) w "invalid computed precondition")
  end.

(** The [try] block on [scanipy.identity]: errors collected before an
    exception stay. *)
Definition identity_errors (w : place) (properties : list (pystr * pyval)) (fingerprints : pyval) : outcome (list shape_error) :=
  let caught e := match e with ValueError _ | TypeError => true | _ => false end in
  match validate_identity_metadata (prop properties "scanipy.identity") with
  | Raise e => if caught e then Ok [(w, "identity"%string)] else Raise e
  | Ok (graph, sliced) =>
      let before := descriptor_errors w properties graph sliced ++
        expect (equals_fingerprints fingerprints (default [] (native_fingerprints graph sliced))) w
              "invalid native identity namespace or strength" in
      match precondition_errors w properties with
      | Raise e => if caught e then Ok (before ++ [(w, "identity"%string)]) else Raise e
      | Ok es => Ok (before ++ es ++
          expect (negb (equals_text (prop properties "scanipy.origin") CORE_ORIGIN && negb (completed graph && completed sliced)))
                w "core result is missing computed artifact evidence")
      end
  end.

Definition property_errors (w : place) (fingerprints : pyval) (properties : list (pystr * pyval)) : outcome (list shape_error) :=
  let v2 := bool_decide (is_Some (dict_get properties (str "scanipy.identity"))) in
  ids ⇐ (if v2 then identity_errors w properties fingerprints else Ok []);
  let missing := concat (map (fun key => expect (is_nonempty_text (prop properties key)) w key) (required_keys v2)) in
  let annotation := if v2 then [] else
    expect (equals_text (prop properties "scanipy.cpg_order_hash_annotation") CPG_ORDER_HASH_ANNOTATION) w "not the literal" in
  known ⇐ in_strings (prop properties "scanipy.origin") _ORIGINS;
  Ok (ids ++ missing ++ annotation ++ expect known w "not a valid partition").

Definition fingerprint_errors (w : place) (v2 : bool) (fingerprints : pyval) : list shape_error :=
  match fingerprints with
  | VDict d => if v2 then [] else
      concat (map (fun key => expect (is_nonempty_text (prop d key)) w key)
        ["scanipy.cpg_order_hash/v1"; "scanipy.slice_fingerprint/v1"]%string)
  | _ => [(w, "fingerprints: missing"%string)]
  end.

Definition _validate_result_shape (result : pyval) (run_idx res_idx : nat) : outcome (list shape_error) :=
  let w := at_result run_idx res_idx in
  match result with
  | VDict d =>
      let rule := expect (is_nonempty_text (prop d "ruleId")) w "ruleId" in
      known ⇐ in_strings (prop d "level") LEVELS;
      let level := expect known w "level" in
      let message := expect match prop d "message" with VDict m => is_text (prop m "text") | _ => false end w "message.text" in
      locations ⇐ match prop d "locations" with
                  | VList l => location_errors w l
                  | _ => Ok [(w, "locations: missing or empty"%string)]
                  end;
      let v2 := match prop d "properties" with
                | VDict p => bool_decide (is_Some (dict_get p (str "scanipy.identity")))
                | _ => false
                end in
      let fps := fingerprint_errors w v2 (prop d "fingerprints") in
      rest ⇐ match prop d "properties" with
             | VDict p => property_errors w (prop d "fingerprints") p
             | _ => Ok [(w, "properties: missing"%string)]
             end;
      Ok (rule ++ level ++ message ++ locations ++ fps ++ rest)
  | _ => Ok [(w, "result is not an object"%string)]
  end.

Definition RUN_KEYS : list string :=
  ["scanipy.scan_id"; "scanipy.snapshot_id"; "scanipy.codebase_id"; "scanipy.commit_sha"; "scanipy.S_version";
   "scanipy.env_digest"; "scanipy.precondition_status"]%string.

Definition run_key_errors (w : place) (p : list (pystr * pyval)) (key : string) : list shape_error :=
  if bool_decide (key = "scanipy.precondition_status"%string) && match prop p key with VNone => true | _ => false end &&
     equals_text (prop p "scanipy.precondition_applicability") (str "not-applicable")
  then [] else expect (is_nonempty_text (prop p key)) w key.

Definition run_property_errors (w : place) (properties : pyval) (expected_partition : pystr) : list shape_error :=
  match properties with
  | VDict p =>
      expect (equals_text (prop p "scanipy.partition") expected_partition) w "scanipy.partition" ++
      concat (map (run_key_errors w p) RUN_KEYS) ++
      expect (is_boolean (prop p "scanipy.llm_triage_flag")) w "scanipy.llm_triage_flag"
  | _ => [(w, "properties: missing"%string)]
  end.

(** [{r.get("id") for r in rules if isinstance(r, dict)}] *)
Definition rule_id_set (rules : pyval) : outcome (list pyval) :=
  match rules with
  | VList l => mapO (fun r => id ⇐ get_key r "id"; hashable id) (List.filter is_dict l)
  | _ => Ok []
  end.

(** The checks of one result and of its rule. *)
Definition result_errors (run_idx : nat) (rule_ids : list pyval) (ir : nat * pyval) : outcome (list shape_error) :=
  es ⇐ _validate_result_shape ir.2 run_idx ir.1;
  match ir.2 with
  | VDict d => id ⇐ hashable (prop d "ruleId");
               Ok (es ++ expect (existsb (scalar_eqb id) rule_ids) (at_result run_idx ir.1) "no matching rule")
  | _ => Ok es
  end.

Definition _validate_run_shape (run : pyval) (run_idx : nat) (expected_partition : pystr) : outcome (list shape_error) :=
  let w := at_run run_idx in
  match run with
  | VDict d =>
      driver ⇐ (if is_dict (prop d "tool") then get_or (prop d "tool") "driver" (VDict []) else Ok (VDict []));
      let name_ok := match driver with VDict v => equals_text (prop v "name") TOOL_NAME | _ => false end in
      ids ⇐ rule_id_set match driver with VDict v => prop v "rules" | _ => VNone end;
      let before := expect name_ok w "tool.driver.name" ++ run_property_errors w (prop d "properties") expected_partition in
      match prop d "results" with
      | VList results =>
          es ⇐ mapO (result_errors run_idx ids) (zip (seq 0 (length results)) results);
          Ok (before ++ concat es)
      | _ => Ok (before ++ [(w, "results: missing or not an array"%string)])
      end
  | _ => Ok [(w, "run is not an object"%string)]
  end.

Definition validate_sarif_210 (canonical_bytes : pybytes) : outcome (list shape_error) :=
  match json_loads canonical_bytes with
  | Raise e => if is_decode_error e then Ok [(at_document, "document is not valid JSON"%string)] else Raise e
  | Ok (VDict doc) =>
      let before := expect (equals_text (prop doc "$schema") SARIF_SCHEMA_URI) at_document "$schema" ++
                    expect (equals_text (prop doc "version") SARIF_VERSION) at_document "version" in
      match prop doc "runs" with
      | VList [core; oracle] =>
          e0 ⇐ _validate_run_shape core 0 (str "core");
          e1 ⇐ _validate_run_shape oracle 1 (str "oracle");
          Ok (before ++ e0 ++ e1)
      | _ => Ok (before ++ [(at_document, "runs"%string)])
      end
  | Ok _ => Ok [(at_document, "top-level SARIF log is not an object"%string)]
  end.

(** ** The order check *)

Definition check_run_order (run : pyval) : outcome unit :=
  results ⇐ subscript run "results";
  rs ⇐ iterate results;
  keys ⇐ mapO _result_sort_key rs;
  if bool_decide (keys = py_sorted sort_key_leb keys) then Ok tt
  else
    properties ⇐ subscript run "properties";
    _ ⇐ subscript properties "scanipy.partition";
    Raise CanonicalEmissionFailure.

Definition _assert_canonical_order (canonical_bytes : pybytes) : outcome unit :=
  doc ⇐ json_loads canonical_bytes;
  runs ⇐ subscript doc "runs";
  rs ⇐ iterate runs;
  _ ⇐ mapO check_run_order rs;
  Ok tt.

(** ** Entry points *)

Definition document (runs : list pyval) : pyval :=
  VDict [(str "$schema", VStr SARIF_SCHEMA_URI); (str "version", VStr SARIF_VERSION); (str "runs", VList runs)].

Definition hexdigest (b : pybytes) : pystr := hex (sha256 b).

Definition normalize (findings : list WorkerFinding) (p : RunParams) : outcome SARIFLog :=
  _ ⇐ _require_nonempty_str (VStr (p_commit_sha p)) INV2;
  _ ⇐ _require_nonempty_str (VStr (p_S_version p)) INV2;
  _ ⇐ _require_nonempty_str (VStr (p_env_digest p)) INV2;
  core_results ⇐ _sorted_results findings CORE_ORIGIN;
  oracle_results ⇐ _sorted_results findings ORACLE_ORIGIN;
  core_run_obj ⇐ _build_run (str "core") core_results p;
  oracle_run_obj ⇐ _build_run (str "oracle") oracle_results p;
  log ⇐ _canonical_serialize (document [core_run_obj; oracle_run_obj]);
  let log_bytes := log ++ [10] in
  schema_errors ⇐ validate_sarif_210 log_bytes;
  _ ⇐ match schema_errors with [] => Ok tt | _ => Raise SARIFSchemaViolation end;
  _ ⇐ _assert_canonical_order log_bytes;
  core_bytes ⇐ _canonical_serialize core_run_obj;
  oracle_bytes ⇐ _canonical_serialize oracle_run_obj;
  Ok (mkLog (mkRun (str "core") core_bytes (hexdigest core_bytes) (length core_results),
             mkRun (str "oracle") oracle_bytes (hexdigest oracle_bytes) (length oracle_results))
            log_bytes (hexdigest log_bytes)).

Definition _one_file (findings : list WorkerFinding) (p : RunParams) (partition origin expected : pystr) : outcome SARIFRun :=
  results ⇐ _sorted_results findings origin;
  run_obj ⇐ _build_run partition results p;
  file ⇐ _canonical_serialize (document [run_obj]);
  let file_bytes := file ++ [10] in
  _ ⇐ _assert_canonical_order file_bytes;
  run_errors ⇐ _validate_run_shape run_obj 0 expected;
  _ ⇐ match run_errors with [] => Ok tt | _ => Raise SARIFSchemaViolation end;
  Ok (mkRun partition file_bytes (hexdigest file_bytes) (length results)).

Definition normalize_split (findings : list WorkerFinding) (p : RunParams) : outcome (SARIFRun * SARIFRun) :=
  core ⇐ _one_file findings p (str "core") CORE_ORIGIN (str "core");
  oracle ⇐ _one_file findings p (str "oracle") ORACLE_ORIGIN (str "oracle");
  Ok (core, oracle).
End emitter.
