(* ===== verification/SarifJson.v ===== *)
(** * Emitted documents as JSON texts

    Which documents have a UTF-8 text, and what [json.loads] makes of the text
    [_canonical_serialize] wrote: the same document with every dict sorted. *)
From stdpp Require Import base tactics list gmap strings.
From Stdlib Require Import ZArith Lia.
From S2P Require Import Prelude PyData Sha256 Ordering PyDict Json PyText Identity JsonParse JsonSpec JsonRoundTrip BoundRules Sarif.

Open Scope Z_scope.
Open Scope py_scope.

(** ** Texts with an encoding *)

Definition encodes (s : pystr) : Prop := is_Some (utf8_encode s).

Lemma encodes_nil : encodes [].
Proof. by eexists. Qed.

Lemma encodes_cons c s : encodes (c :: s) <-> is_Some (utf8_char c) /\ encodes s.
Proof.
  unfold encodes. cbn. destruct (utf8_char c), (utf8_encode s); split; try (intros [? [=]]; fail); try (intros [[? [=]] [? [=]]]; fail);
    intros; try split; by eexists.
Qed.

Lemma encodes_app s t : encodes (s ++ t) <-> encodes s /\ encodes t.
Proof.
  induction s as [|c s IH]; [split; [split; [apply encodes_nil|done]|by intros [_ ?]]|].
  cbn [app]. rewrite !encodes_cons, IH. tauto.
Qed.

Lemma encodes_concat l : encodes (concat l) <-> Forall encodes l.
Proof.
  induction l as [|s l IH]; [split; [constructor|intros _; apply encodes_nil]|].
  cbn [concat]. by rewrite encodes_app, Forall_cons, IH.
Qed.

Lemma utf8_char_ascii c : 0 <= c < 128 -> utf8_char c = Some [c].
Proof. intros H. unfold utf8_char. destruct (Z.ltb_spec c 0), (Z.ltb_spec c 128); try done; lia. Qed.

Lemma encodes_ascii s : Forall (fun c => 0 <= c < 128) s -> encodes s.
Proof.
  induction 1 as [|c s Hc Hs IH]; [apply encodes_nil|]. rewrite encodes_cons, utf8_char_ascii by done. split; [by eexists|done].
Qed.

Lemma encode_append s t bs : utf8_encode s = Some bs -> Forall (fun c => 0 <= c < 128) t -> utf8_encode (s ++ t) = Some (bs ++ t).
Proof.
  intros Hs Ht. revert bs Hs. induction s as [|c s IH]; intros bs; cbn.
  - intros [= <-]. cbn. induction Ht as [|c t Hc Ht IH]; [done|]. cbn. by rewrite utf8_char_ascii, IH.
  - destruct (utf8_char c) as [bc|], (utf8_encode s) as [bs'|]; try done. intros [= <-]. rewrite (IH bs' eq_refl). by rewrite app_assoc.
Qed.

(** A decidable form, for texts of the source. *)
Definition asciib (s : pystr) : bool := forallb (fun c => (0 <=? c) && (c <? 128)) s.

Lemma asciib_encodes s : asciib s = true -> encodes s.
Proof.
  unfold asciib. rewrite forallb_forall. intros H. apply encodes_ascii, Forall_forall. intros c Hc.
  apply list_elem_of_In, H in Hc. lia.
Qed.

Lemma encodes_escape c : is_Some (utf8_char c) -> encodes (escape_char c).
Proof.
  intros Hc. assert (H0 : 0 <= c) by (destruct Hc as [b Hb]; unfold utf8_char in Hb; destruct (Z.ltb_spec c 0); [done|lia]).
  unfold escape_char, str. cbn.
  repeat match goal with
  | |- context [if ?x =? ?y then _ else _] => destruct (Z.eqb_spec x y); [by eexists|]
  | |- context [if ?x <? ?y then _ else _] => destruct (Z.ltb_spec x y)
  end.
  - assert (Ha : forall d, 0 <= d < 16 -> 0 <= hex_digit d < 128) by (intros d Hd; unfold hex_digit; destruct (Z.ltb_spec d 10); lia).
    apply encodes_ascii. repeat constructor; try lia; apply Ha; div_lia.
  - rewrite encodes_cons. split; [done|apply encodes_nil].
Qed.

Lemma encodes_json_string s : encodes s -> encodes (json_string s).
Proof.
  intros Hs. unfold json_string. rewrite !encodes_app, encodes_concat. split_and!; [by eexists| |by eexists].
  induction s as [|c s IH]; [constructor|]. apply encodes_cons in Hs as [Hc Hs]. constructor; [by apply encodes_escape|by apply IH].
Qed.

Lemma encodes_int z : encodes (str_of_int z).
Proof.
  apply encodes_ascii. unfold str_of_int. assert (Hd : forall n, 0 <= n -> Forall (fun c => 0 <= c < 128) (decimal n)).
  { intros n Hn. destruct (decimal_spec n Hn) as [[H _] _]. eapply Forall_impl; [exact H|]. cbn. lia. }
  destruct (Z.ltb_spec z 0); [constructor; [lia|]|]; apply Hd; lia.
Qed.

(** Every string and key of a document. *)
Fixpoint texts (v : json) : list pystr :=
  match v with
  | JStr s => [s]
  | JList l => concat (map texts l)
  | JObj items => concat (map (fun kv => kv.1 :: texts kv.2) items)
  | _ => []
  end.

Lemma encodes_items close l : 0 <= close < 128 -> Forall encodes l -> encodes (join_items close l).
Proof.
  intros Hc H. assert (He : encodes [close]) by (rewrite encodes_cons, utf8_char_ascii by done; split; [by eexists|apply encodes_nil]).
  induction H as [|s l Hs Hl IH]; [done|]. destruct l as [|t l]; cbn [join_items]; rewrite !encodes_app; [done|].
  split_and!; [done|by eexists|done].
Qed.

Lemma encodes_render v : Forall encodes (texts v) -> encodes (render v).
Proof.
  induction v as [|[]| | |l IH|items IH] using json_nested_ind; intros H; cbn [texts] in H; try (by eexists); cbn [render].
  - apply encodes_int.
  - apply encodes_json_string. exact (Forall_inv H).
  - apply encodes_cons. split; [by eexists|]. apply encodes_items; [lia|]. rewrite Forall_concat, Forall_fmap in H.
    apply Forall_fmap. induction IH as [|x l Hx Hl IH']; [constructor|]. apply Forall_cons in H as [H1 H2].
    constructor; [by apply Hx|by apply IH'].
  - apply encodes_cons. split; [by eexists|]. apply encodes_items; [lia|]. rewrite Forall_concat, Forall_fmap in H.
    apply Forall_fmap. induction IH as [|[k x] l Hx Hl IH']; [constructor|].
    apply Forall_cons in H as [[H1 H3]%Forall_cons H2]. cbn in *.
    constructor; [|by apply IH']. cbn. apply encodes_app. split; [by apply encodes_json_string|].
    apply encodes_cons. split; [by eexists|by apply Hx].
Qed.

Lemma texts_canon v : texts (canon v) ≡ₚ texts v.
Proof.
  induction v as [| | | |l IH|items IH] using json_nested_ind; try done; cbn [canon texts].
  - induction IH as [|x l Hx Hl IH']; [done|]. cbn. by rewrite Hx, IH'.
  - rewrite py_sorted_perm. induction IH as [|[k x] l Hx Hl IH']; [done|]. cbn in *. by rewrite Hx, IH'.
Qed.

Lemma encodes_dumps v : Forall encodes (texts v) -> encodes (dumps v).
Proof. intros H. apply encodes_render. by rewrite texts_canon. Qed.

(** ** Documents with unique keys *)

Fixpoint uniq (v : json) : Prop :=
  match v with
  | JList l => (fix all l := match l with [] => True | x :: l => uniq x /\ all l end) l
  | JObj items => NoDup items.*1 /\ (fix all l := match l with [] => True | kv :: l => uniq kv.2 /\ all l end) items
  | _ => True
  end.

Lemma uniq_list l : uniq (JList l) <-> Forall uniq l.
Proof. cbn. induction l as [|x l IH]; [by rewrite Forall_nil|]. rewrite Forall_cons, <-IH. done. Qed.

Lemma uniq_obj items : uniq (JObj items) <-> NoDup items.*1 /\ Forall (fun kv => uniq kv.2) items.
Proof. cbn. f_equiv. induction items as [|x l IH]; [by rewrite Forall_nil|]. rewrite Forall_cons, <-IH. done. Qed.

Lemma canon_keys items : (py_sorted key_leb (map (fun kv => (kv.1, canon kv.2)) items)).*1 ≡ₚ items.*1.
Proof. rewrite py_sorted_perm, <-list_fmap_compose. done. Qed.

Lemma fold_dict_set (items d : list (pystr * json)) : NoDup (d ++ items).*1 ->
  fold_left (fun d kv => dict_set d kv.1 kv.2) items d = d ++ items.
Proof.
  revert d. induction items as [|[k v] items IH]; intros d Hnd; cbn; [by rewrite app_nil_r|].
  assert (E : dict_set d k v = d ++ [(k, v)]).
  { rewrite fmap_app in Hnd. apply NoDup_app in Hnd as (_ & Hd & _). assert (Hk : k ∉ d.*1) by (intros Hk; by apply (Hd k Hk); left).
    clear -Hk. induction d as [|[k' w] d IH]; [done|]. cbn in *. apply not_elem_of_cons in Hk as [H1 H2].
    unfold str_eqb. rewrite bool_decide_false by congruence. by rewrite IH. }
  rewrite E, IH by (by rewrite <-app_assoc). by rewrite <-app_assoc.
Qed.

Lemma int_of_str z : int_of (str_of_int z) = z.
Proof.
  unfold str_of_int, int_of. destruct (Z.ltb_spec z 0).
  - destruct (decimal_spec (- z)) as [_ Hv]; [lia|]. cbn. lia.
  - destruct (decimal_spec z) as [_ Hv]; [lia|]. destruct (decimal_head z) as (c & t & E & Hc); [lia|].
    rewrite E in *. destruct (Z.eqb_spec c 45); [lia|done].
Qed.

Section documents.
Context `{PyRuntime}.

Definition default_int (s : pystr) : outcome json := Ok (JInt (int_of s)).

Lemma readable_canon_in good v : strings_in good v -> uniq v -> readable default_int dict_of_pairs good (canon v).
Proof.
  induction v as [| | |s|l IH|items IH] using json_nested_ind; intros Hs Hu; try done; cbn [canon].
  - cbn. unfold default_int. by rewrite int_of_str.
  - apply readable_list, Forall_fmap. rewrite uniq_list in Hu. rewrite strings_in_list in Hs.
    rewrite Forall_forall in *. intros x Hx. cbn. by apply IH; [|apply Hs|apply Hu].
  - apply readable_obj. rewrite uniq_obj in Hu. destruct Hu as [Hnd Hu]. rewrite strings_in_obj in Hs. split.
    + rewrite Forall_forall in *. intros x Hx%py_sorted_elem. apply list_elem_of_fmap in Hx as (kv & -> & Hx). cbn.
      destruct (Hs kv Hx) as [H1 H2]. split; [done|]. by apply IH; [|done|apply Hu].
    + unfold dict_of_pairs. rewrite fold_dict_set; [done|]. cbn. by rewrite canon_keys.
Qed.

Lemma texts_strings P v : Forall P (texts v) -> strings_in P v.
Proof.
  induction v as [| | |s|l IH|items IH] using json_nested_ind; intros Hp; try done; cbn [texts] in Hp.
  - exact (Forall_inv Hp).
  - apply strings_in_list. rewrite Forall_concat, Forall_fmap in Hp. rewrite Forall_forall in *. intros x Hx. by apply IH, Hp.
  - apply strings_in_obj. rewrite Forall_concat, Forall_fmap in Hp. rewrite Forall_forall in *. intros x Hx.
    specialize (Hp x Hx). cbn in Hp. apply Forall_cons in Hp as [H1 H2]. split; [done|]. by apply IH.
Qed.

Lemma readable_canon v : Forall encodes (texts v) -> uniq v -> readable default_int dict_of_pairs points (canon v).
Proof.
  intros He. apply readable_canon_in, texts_strings. eapply Forall_impl; [exact He|]. intros s [b Hb]. by eapply utf8_points.
Qed.
End documents.

(** ** Reading back *)

Lemma decode_pass n : forall bs s, (length bs <= n)%nat -> utf8_decode bs = Some s -> utf8_decode_pass bs = Some s.
Proof.
  induction n as [|n IH]; intros bs s Hn; [by destruct bs; [intros [= <-]|cbn in Hn; lia]|].
  assert (Hgo : forall c t, (length t <= n)%nat -> cons c <$> utf8_decode t = Some s -> cons c <$> utf8_decode_pass t = Some s).
  { intros c t Ht E. destruct (utf8_decode t) as [x|] eqn:Ex; [|done]. by rewrite (IH t x Ht Ex). }
  destruct bs as [|a t]; [done|]. cbn in Hn. cbn [utf8_decode utf8_decode_pass].
  destruct (a <? 128); [apply Hgo; lia|]. destruct t as [|b t]; [done|]. cbn in Hn.
  destruct (_ && _ && _); [apply Hgo; lia|]. destruct t as [|c t]; [done|]. cbn in Hn.
  destruct (_ && _ && _ && _).
  { destruct (_ <? 2048); [done|]. cbn [orb]. destruct (is_surrogate _); [done|]. apply Hgo; lia. }
  destruct t as [|d t]; [done|]. cbn in Hn. destruct (_ && _ && _ && _ && _); [|done].
  destruct (_ || _); [done|]. apply Hgo; lia.
Qed.

(** The bytes of an object start with a brace and a quote. *)
Lemma object_bytes items bs : items <> [] -> utf8_encode (dumps (JObj items)) = Some bs -> exists r, bs = 123 :: 34 :: r.
Proof.
  intros Hne. unfold dumps. cbn [canon render]. set (l := py_sorted _ _).
  destruct l as [|[k v] l'] eqn:E.
  { apply (f_equal length) in E. unfold l in E. rewrite length_py_sorted, length_map in E. by destruct items. }
  assert (Hr : exists r, [123] ++ join_items 125 (map (fun kv => json_string kv.1 ++ [58] ++ render kv.2) ((k, v) :: l')) = 123 :: 34 :: r).
  { destruct l' as [|[k' v'] l']; cbn; eauto. }
  destruct Hr as [r ->]. cbn. destruct (utf8_encode r) as [b|]; [|done]. intros [= <-]. by exists b.
Qed.

Section reading.
Context `{PyRuntime}.

Lemma json_loads_dumps items bs : items <> [] -> uniq (JObj items) -> Forall encodes (texts (JObj items)) ->
  utf8_encode (dumps (JObj items)) = Some bs -> json_loads (bs ++ [10]) = Ok (of_json (canon (JObj items))).
Proof.
  intros Hne Hu Ht E. assert (E' : utf8_encode (dumps (JObj items) ++ [10]) = Some (bs ++ [10])) by (apply encode_append; [done|by repeat constructor]).
  apply decode_encode, (decode_pass (length (bs ++ [10]))) in E'; [|done].
  destruct (object_bytes items bs Hne E) as [r ->]. unfold json_loads, decode_document.
  assert (Hd : detect_encoding ((123 :: 34 :: r) ++ [10]) = UTF8) by (destruct r; reflexivity).
  rewrite Hd, E'. cbn [obind]. unfold dumps.
  rewrite (loads_render_tail default_int parse_float parse_constant dict_of_pairs); [done| |by right].
  by apply readable_canon.
Qed.
End reading.

(** ** Values up to the order of their dicts *)

Definition value_key_leb (p q : pystr * pyval) : bool := str_leb p.1 q.1.

(** What a value reads back as. *)
Fixpoint norm (v : pyval) : pyval :=
  match v with
  | VList l => VList (map norm l)
  | VDict d => VDict (py_sorted value_key_leb (map (fun kv => (kv.1, norm kv.2)) d))
  | _ => v
  end.

Lemma of_json_canon j : of_json (canon j) = norm (of_json j).
Proof.
  induction j as [| | | |l IH|items IH] using json_nested_ind; try done; cbn [canon of_json norm].
  - f_equal. rewrite !map_map. by apply map_ext_Forall.
  - f_equal. rewrite <-(py_sorted_map key_leb value_key_leb) by done. f_equal. rewrite !map_map. apply map_ext_Forall.
    eapply Forall_impl; [exact IH|]. intros [k v] E. cbn in *. by rewrite E.
Qed.

(** A value that is a JSON document with unique keys and encodable texts. *)
Definition good (j : json) : Prop := uniq j /\ Forall encodes (texts j).
Definition plain (v : pyval) : Prop := exists j, v = of_json j /\ good j.

Lemma good_list l : good (JList l) <-> Forall good l.
Proof.
  unfold good. rewrite uniq_list. cbn [texts]. rewrite Forall_concat, Forall_fmap. rewrite !Forall_forall. unfold compose. naive_solver.
Qed.

Lemma good_obj items : good (JObj items) <-> NoDup items.*1 /\ Forall (fun kv => encodes kv.1 /\ good kv.2) items.
Proof.
  unfold good. rewrite uniq_obj. cbn [texts]. rewrite Forall_concat, Forall_fmap. rewrite !Forall_forall. unfold compose.
  setoid_rewrite Forall_cons. naive_solver.
Qed.

Lemma plain_list l : plain (VList l) <-> Forall plain l.
Proof.
  split.
  - intros ([| | | |js|] & [= ->] & Hu). rewrite good_list in Hu. apply Forall_fmap. eapply Forall_impl; [exact Hu|]. intros j Hj. by exists j.
  - intros Hl. cut (exists js, l = map of_json js /\ Forall good js).
    { intros (js & -> & Hu). exists (JList js). by rewrite good_list. }
    induction Hl as [|v l (j & -> & Hj) _ (js & -> & Hu)]; [by exists []|]. exists (j :: js). by split; [|constructor].
Qed.

Lemma plain_dict d : plain (VDict d) <-> NoDup d.*1 /\ Forall (fun kv => encodes kv.1 /\ plain kv.2) d.
Proof.
  split.
  - intros ([| | | | |js] & [= ->] & Hu). rewrite good_obj in Hu. destruct Hu as [Hn Hu].
    split; [by rewrite <-list_fmap_compose|]. apply Forall_fmap. eapply Forall_impl; [exact Hu|]. intros [k j] [Hk Hj]. split; [done|by exists j].
  - intros [Hn Hl]. cut (exists js, d = map (fun kv => (kv.1, of_json kv.2)) js /\ Forall (fun kv => encodes kv.1 /\ good kv.2) js).
    { intros (js & -> & Hu). exists (JObj js). rewrite good_obj. split; [done|]. split; [|done]. by rewrite <-list_fmap_compose in Hn. }
    clear Hn. induction Hl as [|[k v] l [Hk (j & Ej & Hj)] _ (js & -> & Hu)]; [by exists []|]. cbn in Ej. subst v.
    exists ((k, j) :: js). by split; [|constructor].
Qed.

Lemma plain_text s : plain (VStr s) <-> encodes s.
Proof.
  split; [intros ([| | |t| |] & [= ->] & _ & H); exact (Forall_inv H)|]. intros H. exists (JStr s). split; [done|]. split; [done|by constructor].
Qed.

Lemma plain_atom v : match v with VNone | VBool _ | VInt _ => True | _ => False end -> plain v.
Proof. destruct v; try done; intros _; [exists JNull|exists (JBool b)|exists (JInt z)]; (split; [done|split; [done|constructor]]). Qed.

(** ** Lookups *)

Lemma dict_get_map {V W} (f : V -> W) (d : list (pystr * V)) k :
  dict_get (map (fun kv => (kv.1, f kv.2)) d) k = f <$> dict_get d k.
Proof. induction d as [|[k' v] d IH]; [done|]. cbn. by destruct (str_eqb k' k). Qed.

Lemma dict_get_norm d k : NoDup d.*1 ->
  dict_get (py_sorted value_key_leb (map (fun kv => (kv.1, norm kv.2)) d)) k = norm <$> dict_get d k.
Proof.
  intros Hnd. rewrite <-dict_get_map. symmetry. apply dict_get_perm; [|by rewrite py_sorted_perm].
  by rewrite <-list_fmap_compose.
Qed.

(** [v'] is the value [v] or what it reads back as. *)
Definition like (v v' : pyval) : Prop := plain v /\ (v' = v \/ v' = norm v).

Lemma like_refl v : plain v -> like v v.
Proof. intros H. by split; [|left]. Qed.

Lemma like_norm v : plain v -> like v (norm v).
Proof. intros H. by split; [|right]. Qed.

Lemma like_atom v v' : like v v' -> match v with VList _ | VDict _ => False | _ => True end -> v' = v.
Proof. intros [_ [E|E]] Ha; [done|]. by destruct v. Qed.

Lemma like_list l v' : like (VList l) v' -> exists l', v' = VList l' /\ Forall2 like l l'.
Proof.
  intros [Hp Hv]. apply plain_list in Hp. destruct Hv as [->| ->].
  - exists l. split; [done|]. induction Hp; constructor; [by apply like_refl|done].
  - cbn. eexists. split; [done|]. induction Hp; constructor; [by apply like_norm|done].
Qed.

Lemma like_dict d v' : like (VDict d) v' -> exists d', v' = VDict d' /\ NoDup d'.*1 /\ d'.*1 ≡ₚ d.*1 /\
  forall k, option_Forall2 like (dict_get d k) (dict_get d' k).
Proof.
  intros [Hp Hv]. apply plain_dict in Hp as [Hnd Hp].
  assert (Hin : forall k v, dict_get d k = Some v -> plain v).
  { intros k v Hk. apply dict_get_elem in Hk; [|done]. rewrite Forall_forall in Hp. by apply (Hp _ Hk). }
  destruct Hv as [->| ->].
  - exists d. split_and!; [done..|]. intros k. destruct (dict_get d k) as [v|] eqn:E; constructor. by apply like_refl, (Hin k).
  - cbn. eexists. assert (Hk : (py_sorted value_key_leb (map (fun kv => (kv.1, norm kv.2)) d)).*1 ≡ₚ d.*1)
      by (rewrite py_sorted_perm, <-list_fmap_compose; done).
    split_and!; [done|by rewrite Hk|done|]. intros k. rewrite dict_get_norm by done.
    destruct (dict_get d k) as [v|] eqn:E; constructor. by apply like_norm, (Hin k).
Qed.

Lemma good_canon j : good j -> good (canon j).
Proof.
  intros [Hu Ht]. split; [|by rewrite texts_canon]. clear Ht. revert Hu.
  induction j as [| | | |l IH|items IH] using json_nested_ind; try done; cbn [canon].
  - rewrite !uniq_list, Forall_fmap. intros Hu. rewrite Forall_forall in *. intros x Hx. cbn. by apply IH; [|apply Hu].
  - rewrite !uniq_obj. intros [Hnd Hu]. split; [by rewrite canon_keys|]. rewrite py_sorted_perm, Forall_fmap.
    rewrite Forall_forall in *. intros x Hx. cbn. by apply IH; [|apply Hu].
Qed.

Lemma like_plain v v' : like v v' -> plain v'.
Proof.
  intros [Hp [->| ->]]; [done|]. destruct Hp as (j & -> & Hg). exists (canon j). split; [by rewrite of_json_canon|by apply good_canon].
Qed.

(** ** Serialisation of such values *)

Lemma to_json_list l : to_json (VList l) = (js ⇐ mapO to_json l; Ok (JList js)).
Proof.
  cbn [to_json]. f_equal. induction l as [|v l IH]; [done|]. cbn [mapO]. destruct (to_json v); cbn [obind]; [|done]. by rewrite IH.
Qed.

Definition item_json (kv : pystr * pyval) : outcome (pystr * json) := j ⇐ to_json kv.2; Ok (kv.1, j).

Lemma to_json_dict d : to_json (VDict d) = (js ⇐ mapO item_json d; Ok (JObj js)).
Proof.
  cbn [to_json]. f_equal. induction d as [|[k v] d IH]; [done|]. cbn [mapO]. unfold item_json at 1. cbn [fst snd].
  destruct (to_json v); cbn [obind]; [|done]. by rewrite IH.
Qed.

Lemma to_of_json j : to_json (of_json j) = Ok j.
Proof.
  induction j as [| | | |l IH|items IH] using json_nested_ind; try done; cbn [of_json].
  - rewrite to_json_list. replace (mapO to_json (map of_json l)) with (Ok l); [done|].
    induction IH as [|x l Hx Hl IH']; [done|]. cbn [map mapO]. by rewrite Hx, <-IH'.
  - rewrite to_json_dict. replace (mapO item_json (map (fun kv => (kv.1, of_json kv.2)) items)) with (Ok items); [done|].
    induction IH as [|[k x] l Hx Hl IH']; [done|]. cbn [map mapO]. unfold item_json at 1. cbn in *. by rewrite Hx, <-IH'.
Qed.

Lemma serialize_plain v : plain v -> exists j bs, v = of_json j /\ good j /\ utf8_encode (dumps j) = Some bs /\ _canonical_serialize v = Ok bs.
Proof.
  intros (j & -> & Hu & Ht). destruct (encodes_dumps j Ht) as [bs E]. exists j, bs. split_and!; try done.
  unfold _canonical_serialize. rewrite to_of_json. cbn. by rewrite E.
Qed.

(** A value and what it reads back as have one text. *)
Lemma serialize_like v v' : like v v' -> _canonical_serialize v' = _canonical_serialize v.
Proof.
  intros [(j & -> & Hg) [->| ->]]; [done|]. rewrite <-of_json_canon. unfold _canonical_serialize. rewrite !to_of_json. cbn [obind].
  assert (E : dumps (canon j) = dumps j); [|by rewrite E].
  unfold dumps. f_equal. clear Hg. induction j as [| | | |l IH|items IH] using json_nested_ind; try done; cbn [canon].
  - f_equal. rewrite map_map. by apply map_ext_Forall.
  - f_equal. rewrite <-(py_sorted_map key_leb key_leb (fun kv => (kv.1, canon kv.2))) by done.
    rewrite py_sorted_id by (apply py_sorted_sorted; apply _). f_equal. rewrite map_map. apply map_ext_Forall.
    eapply Forall_impl; [exact IH|]. intros [k v] E. cbn in *. by rewrite E.
Qed.

(** A document's bytes, with the final newline, read back. *)
Lemma json_loads_plain `{PyRuntime} d bs : d <> [] -> plain (VDict d) -> _canonical_serialize (VDict d) = Ok bs ->
  json_loads (bs ++ [10]) = Ok (norm (VDict d)).
Proof.
  intros Hd Hp Hs. destruct (serialize_plain _ Hp) as (j & bs' & Ej & [Hu Ht] & E & Hs'). rewrite Hs in Hs'. injection Hs' as <-.
  rewrite Ej, <-of_json_canon. destruct j; try done. injection Ej as ->. apply json_loads_dumps; try done. by intros ->.
Qed.

(** * The emitted bytes do not depend on the order of the findings

    The findings come as a [frozenset], whose iteration order is arbitrary.
    Results whose sort keys are equal have equal texts, so the sorted results
    of two orders differ at most in the representation of equal texts: the
    equivalence [same_text], which the document constructors respect. *)

(** ** Values with one text *)

Definition text_of (v : pyval) : outcome pystr := j ⇐ to_json v; Ok (dumps j).

Definition same_text (v w : pyval) : Prop := text_of v = text_of w.

#[export] Instance same_text_equiv : Equivalence same_text.
Proof. split; repeat intro; unfold same_text in *; congruence. Qed.

Lemma serialize_text v : _canonical_serialize v =
  (t ⇐ text_of v; match utf8_encode t with Some b => Ok b | None => Raise UnicodeEncodeError end).
Proof. unfold _canonical_serialize, text_of. by destruct (to_json v). Qed.

#[export] Instance serialize_proper : Proper (same_text ==> eq) _canonical_serialize.
Proof. intros v w E. rewrite !serialize_text. by rewrite E. Qed.

(** Texts of the items of two dicts. *)
Definition same_items : list (pystr * pyval) -> list (pystr * pyval) -> Prop :=
  Forall2 (fun p q => p.1 = q.1 /\ same_text p.2 q.2).

Lemma mapO_same {A B C} (f : A -> outcome B) (g : B -> C) l l' :
  Forall2 (fun x y => (z ⇐ f x; Ok (g z)) = (z ⇐ f y; Ok (g z))) l l' ->
  (zs ⇐ mapO f l; Ok (map g zs)) = (zs ⇐ mapO f l'; Ok (map g zs)).
Proof.
  induction 1 as [|x y l l' E _ IH]; [done|]. cbn [mapO].
  destruct (f x) as [a|], (f y) as [b|]; cbn [obind] in *; try congruence.
  injection E as E. destruct (mapO f l) as [zs|], (mapO f l') as [zs'|]; cbn [obind map] in *; try congruence.
Qed.

#[export] Instance list_same : Proper (Forall2 same_text ==> same_text) VList.
Proof.
  intros l l' Hl. apply (mapO_same to_json dumps) in Hl. unfold same_text, text_of. rewrite !to_json_list.
  destruct (mapO to_json l) as [js|], (mapO to_json l') as [js'|]; cbn [obind] in *; try congruence.
  injection Hl as E. f_equal. unfold dumps. cbn [canon render]. do 2 f_equal. rewrite !map_map. exact E.
Qed.

(** Sorting items by their keys, with one text per item. *)
Lemma sorted_items_same (js js' : list (pystr * json)) :
  map (fun kv => (kv.1, dumps kv.2)) js = map (fun kv => (kv.1, dumps kv.2)) js' -> dumps (JObj js) = dumps (JObj js').
Proof.
  intros E. unfold dumps. cbn [canon render]. do 2 f_equal.
  set (leb := fun p q : pystr * pystr => str_leb p.1 q.1).
  assert (Hs : forall l, map (fun kv : pystr * json => json_string kv.1 ++ [58] ++ render kv.2) (py_sorted key_leb (map (fun kv => (kv.1, canon kv.2)) l)) =
    map (fun kv => json_string kv.1 ++ [58] ++ kv.2) (py_sorted leb (map (fun kv => (kv.1, dumps kv.2)) l))).
  { intros l. replace (map (fun kv => (kv.1, dumps kv.2)) l) with (map (fun kv => (kv.1, render kv.2)) (map (fun kv => (kv.1, canon kv.2)) l))
      by (rewrite map_map; done).
    rewrite (py_sorted_map key_leb leb (fun kv => (kv.1, render kv.2))) by done. by rewrite map_map. }
  by rewrite !Hs, E.
Qed.

#[export] Instance dict_same : Proper (same_items ==> same_text) VDict.
Proof.
  intros d d' Hd.
  assert (E : (zs ⇐ mapO item_json d; Ok (map (fun kv => (kv.1, dumps kv.2)) zs)) = (zs ⇐ mapO item_json d'; Ok (map (fun kv => (kv.1, dumps kv.2)) zs))).
  { apply (mapO_same item_json). eapply Forall2_impl; [exact Hd|]. intros [k v] [k' w] [Hk Hv]. cbn in *. subst k'.
    unfold item_json, same_text, text_of in *. cbn [fst snd].
    destruct (to_json v), (to_json w); cbn [obind fst snd] in *; congruence. }
  unfold same_text, text_of. rewrite !to_json_dict.
  destruct (mapO item_json d) as [js|], (mapO item_json d') as [js'|]; cbn [obind] in *; try congruence.
  injection E as E. f_equal. by apply sorted_items_same.
Qed.

#[export] Instance run_object_same partition p ids : Proper (Forall2 same_text ==> same_text) (run_object partition p ids).
Proof. intros l l' Hl. apply dict_same. repeat constructor. cbn. by rewrite Hl. Qed.

#[export] Instance document_same : Proper (Forall2 same_text ==> same_text) document.
Proof. intros l l' Hl. apply dict_same. repeat constructor. cbn. by rewrite Hl. Qed.

(** ** Sorted results *)

#[export] Instance sort_key_leb_total : TotalLe sort_key_leb.
Proof. unfold sort_key_leb. apply _. Qed.
#[export] Instance sort_key_leb_anti : AntiLe sort_key_leb.
Proof. unfold sort_key_leb. apply _. Qed.

Section order.
Context `{PyRuntime}.

(** The rule named in a sort key. *)
Definition key_rule (k : sort_key) : pystr := k.1.1.1.1.2.

Lemma sort_key_spec r k : _result_sort_key r = Ok k -> _canonical_serialize r = Ok k.2 /\ rule_text r = Ok (key_rule k).
Proof.
  unfold _result_sort_key, rule_text, key_rule. intros E.
  repeat match goal with
  | E : obind _ _ = Ok _ |- _ => apply obind_Ok in E as (? & ? & E)
  end. injection E as <-. cbn. split; [done|].
  match goal with E : subscript r "ruleId" = Ok _ |- _ => by rewrite E end.
Qed.

Lemma same_key_same_text r r' k : _result_sort_key r = Ok k -> _result_sort_key r' = Ok k -> same_text r r'.
Proof.
  intros [E _]%sort_key_spec [E' _]%sort_key_spec. rewrite serialize_text in E, E'. unfold same_text.
  destruct (text_of r) as [t|], (text_of r') as [t'|]; cbn [obind] in *; try done.
  destruct (utf8_encode t) as [b|] eqn:Eb, (utf8_encode t') as [b'|] eqn:Eb'; try done.
  assert (b = b') as <- by congruence. f_equal. by eapply utf8_encode_inj.
Qed.

Lemma with_key_Ok r p : with_key r = Ok p <-> p.2 = r /\ _result_sort_key r = Ok p.1.
Proof.
  unfold with_key. rewrite obind_Ok. destruct p as [k r']. cbn. split; [intros (? & ? & [= <- <-]); done|intros [-> E]; eauto].
Qed.

(** The results of a sorted list: their keys, in order. *)
Definition keyed (rs : list pyval) (ks : list sort_key) : Prop := Forall2 (fun r k => _result_sort_key r = Ok k) rs ks.

Lemma sort_results_spec l rs : sort_results l = Ok rs ->
  rs ≡ₚ l /\ exists ks, keyed rs (py_sorted sort_key_leb ks) /\ mapO _result_sort_key l = Ok ks.
Proof.
  unfold sort_results. intros (ps & Hps & [= <-])%obind_Ok. apply mapO_Forall2 in Hps.
  assert (El : l = map snd ps /\ Forall (fun p => _result_sort_key p.2 = Ok p.1) ps).
  { induction Hps as [|r p l ps Hp _ [-> IH]]; [done|]. apply with_key_Ok in Hp as [<- Hp]. split; [done|by constructor]. }
  destruct El as [-> Hall]. split; [by rewrite py_sorted_perm|]. exists (map fst ps). split.
  - rewrite (py_sorted_map by_key sort_key_leb) by done.
    assert (Hs : Forall (fun p => _result_sort_key p.2 = Ok p.1) (py_sorted by_key ps)) by (by rewrite py_sorted_perm).
    unfold keyed. induction Hs; constructor; done.
  - apply mapO_Forall2. clear Hps. induction Hall; constructor; done.
Qed.

Lemma sort_results_total l ks : mapO _result_sort_key l = Ok ks -> exists rs, sort_results l = Ok rs.
Proof.
  intros Hk. unfold sort_results. assert (Hm : exists ps, mapO with_key l = Ok ps); [|destruct Hm as [ps ->]; by eexists].
  apply mapO_Forall2 in Hk. induction Hk as [|r k l ks Hr _ [ps IH]]; [by exists []|]. exists ((k, r) :: ps).
  cbn [mapO]. unfold with_key at 1. by rewrite Hr, IH.
Qed.

Lemma keyed_same rs rs' ks : keyed rs ks -> keyed rs' ks -> Forall2 same_text rs rs' /\ mapO rule_text rs = mapO rule_text rs'.
Proof.
  intros Hrs. revert rs'. induction Hrs as [|r k rs ks Hk _ IH]; intros rs' H'; inversion H' as [|r' ? rs0 ? Hk' H0]; subst; [done|].
  destruct (IH _ H0) as [H1 H2]. split; [constructor; [by eapply same_key_same_text|done]|].
  cbn [mapO]. by rewrite (proj2 (sort_key_spec _ _ Hk)), (proj2 (sort_key_spec _ _ Hk')), H2.
Qed.

Lemma sorted_results_perm fs fs' origin rs : fs ≡ₚ fs' -> _sorted_results fs origin = Ok rs ->
  exists rs', _sorted_results fs' origin = Ok rs' /\ Forall2 same_text rs rs' /\ mapO rule_text rs = mapO rule_text rs'.
Proof.
  unfold _sorted_results. intros Hp (us & Hv & (l & Hl & Hs)%obind_Ok)%obind_Ok.
  apply (filter_perm (fun f => equals_text (w_origin f) origin)) in Hp.
  destruct (mapO_perm _ _ _ _ Hp Hv) as (us' & -> & _). destruct (mapO_perm _ _ _ _ Hp Hl) as (l' & -> & Hll). cbn [obind].
  apply sort_results_spec in Hs as (_ & ks & Hk & Hm). destruct (mapO_perm _ _ _ _ Hll Hm) as (ks' & Hm' & Hks).
  destruct (sort_results_total l' ks' Hm') as [rs' Hs']. exists rs'. split; [done|].
  apply sort_results_spec in Hs' as (_ & ks0 & Hk' & Hm0). rewrite Hm' in Hm0. injection Hm0 as <-.
  rewrite (py_sorted_perm_eq sort_key_leb ks ks' Hks) in Hk. by eapply keyed_same.
Qed.

Lemma build_run_perm partition p rs rs' obj : Forall2 same_text rs rs' -> mapO rule_text rs = mapO rule_text rs' ->
  _build_run partition rs p = Ok obj -> exists obj', _build_run partition rs' p = Ok obj' /\ same_text obj obj'.
Proof.
  unfold _build_run. intros Hrs <- (ids & -> & [= <-])%obind_Ok. cbn. eexists. split; [done|]. by rewrite Hrs.
Qed.

Lemma normalize_perm fs fs' p log : fs ≡ₚ fs' -> normalize fs p = Ok log -> normalize fs' p = Ok log.
Proof.
  intros Hp. unfold normalize. intros E.
  do 3 (apply obind_Ok in E as (? & -> & E); cbn [obind]).
  apply obind_Ok in E as (core & Hc & E). apply obind_Ok in E as (oracle & Ho & E).
  apply obind_Ok in E as (obj0 & H0 & E). apply obind_Ok in E as (obj1 & H1 & E).
  destruct (sorted_results_perm _ _ _ _ Hp Hc) as (core' & -> & Sc & Rc).
  destruct (sorted_results_perm _ _ _ _ Hp Ho) as (oracle' & -> & So & Ro). cbn [obind].
  destruct (build_run_perm _ _ _ _ _ Sc Rc H0) as (obj0' & -> & T0).
  destruct (build_run_perm _ _ _ _ _ So Ro H1) as (obj1' & -> & T1). cbn [obind].
  assert (Td : same_text (document [obj0; obj1]) (document [obj0'; obj1'])) by (apply document_same; by repeat constructor).
  by rewrite <-(serialize_proper _ _ T0), <-(serialize_proper _ _ T1), <-(serialize_proper _ _ Td),
    <-(Forall2_length _ _ _ Sc), <-(Forall2_length _ _ _ So).
Qed.

(** C36: the emitted log is a function of the set of findings: whatever the
    order in which the set is iterated, [normalize] emits the same bytes, or
    none in both orders. *)
Theorem normalize_order_independent fs fs' p log : fs ≡ₚ fs' -> normalize fs p = Ok log <-> normalize fs' p = Ok log.
Proof. intros Hp. split; apply normalize_perm; [done|by symmetry]. Qed.
End order.
