(* ===== verification/SarifSpec.v ===== *)
(** * What the SARIF emitter accepts and what it emits

    The validation of a finding is exact; a log of validated findings passes
    the emitter's own shape and order checks; read back, it holds the
    projections of the findings of each partition in canonical order. *)
From stdpp Require Import base tactics list gmap strings.
From Stdlib Require Import ZArith Lia.
From S2P Require Import Prelude PyData Sha256 Ordering PyDict Json PyText Identity JsonParse JsonSpec BoundRules Sarif SarifJson.

Open Scope Z_scope.
Open Scope py_scope.

(** ** Validated findings *)

Definition text_in (domain : list pystr) (v : pyval) : Prop := exists s, v = VStr s /\ s ∈ domain.
Definition some_text (v : pyval) : Prop := exists s, v = VStr s /\ s <> [].

Definition identified (f : WorkerFinding) : Prop :=
  schema_version f = VInt 1 /\ some_text (w_cpg_order_hash f) /\ text_in _FP_CLASSES (w_fingerprint_class f) /\
    some_text (w_slice_fingerprint f) \/
  schema_version f = VInt 2 /\ exists graph sliced, identities_from_finding (attrs f) = Ok (graph, sliced) /\
    (w_origin f = VStr CORE_ORIGIN -> a_status graph = COMPLETED /\ a_status sliced = COMPLETED).

(** A precondition may be absent from an oracle finding of version 2 only. *)
Definition preconditioned (f : WorkerFinding) : Prop :=
  text_in _PRECONDITIONS (w_precondition_status f) \/
  schema_version f = VInt 2 /\ w_origin f = VStr ORACLE_ORIGIN /\ truthy (w_precondition_status f) = false /\
    match w_precondition_status f with VList _ | VDict _ => False | _ => True end.

Record checked (f : WorkerFinding) : Prop := {
  ck_origin : text_in _ORIGINS (w_origin f);
  ck_partition : text_in _ORIGINS (w_determinism_partition f);
  ck_engine : text_in _ENGINES (w_engine f);
  ck_S_version : some_text (w_S_version f);
  ck_env_digest : some_text (w_env_digest f);
  ck_identity : identified f;
  ck_rule_id : some_text (w_rule_id f);
  ck_severity : text_in _SEVERITIES (w_severity f);
  ck_class : some_text (w_class_ f);
  ck_status : text_in _STATUSES (w_status f);
  ck_precondition : preconditioned f;
  ck_region : Forall (fun v => is_integer v = true) [w_start_line f; w_start_col f; w_end_line f; w_end_col f]
}.

Lemma require_nonempty_Ok v e s : _require_nonempty_str v e = Ok s <-> v = VStr s /\ s <> [].
Proof.
  split.
  - destruct v as [| | |[|c t]| | |]; cbn; try done. by intros [= <-].
  - intros [-> Hs]. by destruct s.
Qed.

Lemma require_in_Ok v domain e s : [] ∉ domain -> require_in v domain e = Ok s <-> v = VStr s /\ s ∈ domain.
Proof.
  intros Hd. unfold require_in. rewrite obind_Ok. split.
  - intros (t & [-> _]%require_nonempty_Ok & E). case_bool_decide; [|done]. by injection E as <-.
  - intros [-> Hs]. exists s. split; [apply require_nonempty_Ok; split; [done|by intros ->]|]. by rewrite bool_decide_true.
Qed.

Lemma require_int_Ok v : require_int v = Ok tt <-> is_integer v = true.
Proof. unfold require_int. by destruct (is_integer v). Qed.

Lemma strings_nonempty : [] ∉ _ORIGINS /\ [] ∉ _ENGINES /\ [] ∉ _FP_CLASSES /\ [] ∉ _SEVERITIES /\ [] ∉ _STATUSES.
Proof. split_and!; apply (bool_decide_unpack _); vm_compute; exact I. Qed.

Lemma require_bind {A} v e (k : outcome A) r : (_ ⇐ _require_nonempty_str v e; k) = Ok r <-> some_text v /\ k = Ok r.
Proof.
  rewrite obind_Ok. unfold some_text. setoid_rewrite require_nonempty_Ok. naive_solver.
Qed.

Lemma require_in_bind {A} v domain e (k : outcome A) r : [] ∉ domain ->
  (_ ⇐ require_in v domain e; k) = Ok r <-> text_in domain v /\ k = Ok r.
Proof. intros Hd. rewrite obind_Ok. unfold text_in. setoid_rewrite (require_in_Ok v domain e); [|done]. naive_solver. Qed.

Lemma require_int_bind {A} v (k : outcome A) r : (_ ⇐ require_int v; k) = Ok r <-> is_integer v = true /\ k = Ok r.
Proof.
  rewrite obind_Ok. rewrite <-require_int_Ok. split; [intros ([] & ? & ?); done|intros [? ?]; by exists tt].
Qed.

Lemma check_v1_Ok f : check_v1 f = Ok tt <->
  some_text (w_cpg_order_hash f) /\ text_in _FP_CLASSES (w_fingerprint_class f) /\ some_text (w_slice_fingerprint f).
Proof.
  unfold check_v1. rewrite require_bind, require_in_bind by apply strings_nonempty. rewrite require_bind. tauto.
Qed.

Lemma completed_iff a : completed a = true <-> a_status a = COMPLETED.
Proof. unfold completed, str_eqb. apply bool_decide_eq_true. Qed.

Lemma check_v2_Ok f origin : w_origin f = VStr origin -> check_v2 f origin = Ok tt <->
  exists graph sliced, identities_from_finding (attrs f) = Ok (graph, sliced) /\
    (w_origin f = VStr CORE_ORIGIN -> a_status graph = COMPLETED /\ a_status sliced = COMPLETED).
Proof.
  intros Ho. unfold check_v2. assert (E : check_identities f origin = Ok tt <-> exists graph sliced,
    identities_from_finding (attrs f) = Ok (graph, sliced) /\ (w_origin f = VStr CORE_ORIGIN -> a_status graph = COMPLETED /\ a_status sliced = COMPLETED)).
  { unfold check_identities. rewrite obind_Ok, Ho. split.
    - intros ([g s] & E & H). exists g, s. split; [done|]. intros [= ->]. unfold str_eqb in H. rewrite bool_decide_true in H by done.
      cbn [fst snd] in H. destruct (completed g) eqn:Eg, (completed s) eqn:Es; try done. by rewrite <-!completed_iff.
    - intros (g & s & E & H). exists (g, s). split; [done|]. unfold str_eqb. case_bool_decide as Hc; [|done]. subst origin.
      destruct (H eq_refl) as [Eg%completed_iff Es%completed_iff]. cbn [fst snd]. by rewrite Eg, Es. }
  rewrite <-E. destruct (check_identities f origin) as [[]|[]]; done.
Qed.

Lemma schema_bind {A} (f : WorkerFinding) (k : Z -> outcome A) r :
  (version ⇐ match schema_version f with VInt v => if (v =? 1) || (v =? 2) then Ok v else Raise INV5 | _ => Raise INV5 end; k version) = Ok r <->
  schema_version f = VInt 1 /\ k 1 = Ok r \/ schema_version f = VInt 2 /\ k 2 = Ok r.
Proof.
  destruct (schema_version f) as [| |v| | | |]; cbn; try naive_solver.
  destruct (Z.eqb_spec v 1) as [->|]; cbn; [naive_solver|]. destruct (Z.eqb_spec v 2) as [->|]; cbn; naive_solver.
Qed.

Lemma check_precondition_Ok f v origin : w_origin f = VStr origin -> check_precondition f v origin = Ok tt <->
  text_in _PRECONDITIONS (w_precondition_status f) \/
  v = 2 /\ w_origin f = VStr ORACLE_ORIGIN /\ truthy (w_precondition_status f) = false /\
    match w_precondition_status f with VList _ | VDict _ => False | _ => True end.
Proof.
  intros Ho. unfold check_precondition, text_in. rewrite Ho. set (pc := w_precondition_status f). clearbody pc.
  assert (Hc : forall t, (if (v =? 2) && str_eqb origin ORACLE_ORIGIN && negb t then Ok tt else Raise INV1) = Ok tt <->
    v = 2 /\ VStr origin = VStr ORACLE_ORIGIN /\ t = false).
  { intros t. destruct (Z.eqb_spec v 2), t; cbn; rewrite ?andb_false_r; try naive_solver. unfold str_eqb. case_bool_decide; naive_solver. }
  destruct pc as [|b|z|s|b|l|l]; cbn [in_strings obind orb]; rewrite ?Hc;
    try (split; [by intros (? & ? & ?); right|intros [(? & [=] & _)|(? & ? & ? & ?)]; done]);
    try (split; [done|by intros [(? & [=] & _)|(_ & _ & _ & [])]]).
  case_bool_decide as Hs; cbn [orb]; [split; [left; by exists s|done]|]. rewrite Hc.
  split; [by intros (? & ? & ?); right|intros [(? & [= <-] & ?)|(? & ? & ? & ?)]; done].
Qed.

(** The validation is exact. *)
Lemma finding_validates f : _validate_finding f = Ok tt <-> checked f.
Proof.
  destruct strings_nonempty as (N1 & N2 & N3 & N4 & N5). unfold _validate_finding. rewrite obind_Ok.
  setoid_rewrite (require_in_Ok (w_origin f)); [|done].
  do 2 (setoid_rewrite require_in_bind; [|done]). do 2 setoid_rewrite require_bind. setoid_rewrite schema_bind.
  cbn [Z.eqb Pos.eqb]. split.
  - intros (o & [Ho Hin] & H2 & H3 & H4 & H5 & H6).
    assert (Hv : identified f /\ some_text (w_rule_id f) /\ text_in _SEVERITIES (w_severity f) /\ some_text (w_class_ f) /\
      text_in _STATUSES (w_status f) /\ preconditioned f /\ Forall (fun v => is_integer v = true) [w_start_line f; w_start_col f; w_end_line f; w_end_col f]).
    { unfold identified, preconditioned. destruct H6 as [[Hs H6]|[Hs H6]]; apply obind_Ok in H6 as ([] & Hi & H6);
        rewrite !require_bind, !require_in_bind, !require_bind, require_in_bind in H6 by done;
        destruct H6 as (R & S & C & T & ([] & P & Q)%obind_Ok);
        rewrite !require_int_bind, require_int_Ok in Q; apply check_precondition_Ok in P; try done;
        (split_and!; [|done..| |repeat constructor; tauto]).
      1,3: rewrite ?check_v1_Ok, ?(check_v2_Ok _ _ Ho) in Hi; tauto. all: destruct P as [P|P]; naive_solver. }
    destruct Hv as (? & ? & ? & ? & ? & ? & ?). constructor; try done. by exists o.
  - intros [(o & Ho & Hin) ? ? ? ? I ? ? ? ? P R]. exists o. split; [done|]. do 4 (split; [done|]).
    do 3 (apply Forall_cons in R as [? R]). apply Forall_cons in R as [? _].
    assert (Hrest : forall v, schema_version f = VInt v -> (_ ⇐ _require_nonempty_str (w_rule_id f) INV1;
      _ ⇐ require_in (w_severity f) _SEVERITIES INV1; _ ⇐ _require_nonempty_str (w_class_ f) INV1;
      _ ⇐ require_in (w_status f) _STATUSES INV1; _ ⇐ check_precondition f v o; _ ⇐ require_int (w_start_line f);
      _ ⇐ require_int (w_start_col f); _ ⇐ require_int (w_end_line f); require_int (w_end_col f)) = Ok tt).
    { intros v Hv. rewrite require_bind, require_in_bind, require_bind, require_in_bind by done. do 4 (split; [done|]).
      apply obind_Ok. exists tt. split; [|by rewrite !require_int_bind, require_int_Ok].
      apply check_precondition_Ok; [done|]. destruct P as [P|(E & P)]; [by left|right]. rewrite Hv in E. by injection E as ->. }
    destruct I as [(Hs & I)|(Hs & I)]; [left|right]; (split; [done|]); apply obind_Ok; exists tt; (split; [|by apply Hrest]).
    + by apply check_v1_Ok.
    + by apply check_v2_Ok.
Qed.

(** A finding passes the pre-emit validation exactly when every
    provenance field is a non-empty text of its domain, its identity is
    complete for its schema version (computed evidence for a core finding),
    its precondition is known or absent from an oracle finding of version 2,
    and its region is made of integers. *)
Theorem validate_finding_exact f : _validate_finding f = Ok tt <-> checked f.
Proof. apply finding_validates. Qed.

(** * The shape of an emitted result

    What [_to_result] makes of a validated finding, what survives writing and
    reading it back, and that the emitter's own shape validator accepts it. *)

(** ** Reading like values *)

Section like_get.
Context {d d' : list (pystr * pyval)}.
Hypothesis Hget : forall k, option_Forall2 like (dict_get d k) (dict_get d' k).

Lemma like_get_some k v : dict_get d k = Some v -> exists v', dict_get d' k = Some v' /\ like v v'.
Proof. intros E. specialize (Hget k). rewrite E in Hget. inversion Hget; subst. eauto. Qed.

Lemma like_get_none k : dict_get d k = None -> dict_get d' k = None.
Proof. intros E. specialize (Hget k). rewrite E in Hget. by inversion Hget. Qed.

Lemma like_get_atom k v : dict_get d k = Some v -> match v with VList _ | VDict _ => False | _ => True end -> dict_get d' k = Some v.
Proof. intros E Ha. destruct (like_get_some k v E) as (v' & -> & Hl). f_equal. by apply like_atom. Qed.

Lemma like_get_dict k l : dict_get d k = Some (VDict l) -> exists l', dict_get d' k = Some (VDict l') /\ like (VDict l) (VDict l').
Proof. intros E. destruct (like_get_some k _ E) as (v' & -> & Hl). pose proof Hl as (l' & -> & _)%like_dict. eauto. Qed.

Lemma like_item k : like (item d k) (item d' k) \/ item d k = VNone /\ item d' k = VNone.
Proof.
  assert (E : forall e, item e k = default VNone (dict_get e (str k))).
  { intros e. unfold item. induction e as [|[k' v] e IH]; [done|]. cbn. unfold str_eqb. by case_bool_decide. }
  rewrite !E. destruct (Hget (str k)); cbn; auto.
Qed.
End like_get.

Definition container (v : pyval) : Prop := match v with VList _ | VDict _ => True | _ => False end.

Lemma like_cases v v' : like v v' -> v' = v \/ container v /\ container v'.
Proof.
  intros H. destruct v; try (left; by apply (like_atom _ _ H I)); right.
  - apply like_list in H as (? & -> & _). done.
  - apply like_dict in H as (? & -> & _). done.
Qed.

Lemma keys_are_perm d d' names : d'.*1 ≡ₚ d.*1 -> keys_are d' names = keys_are d names.
Proof. intros Hp. unfold keys_are. apply bool_decide_ext. by rewrite (list_to_set_perm_L (C := gset pystr) _ _ Hp). Qed.

Lemma from_dict_like v v' : like v v' -> from_dict v' = from_dict v.
Proof.
  intros H. destruct v as [| | | | | |d]; try (by rewrite (like_atom _ _ H I)); [by apply like_list in H as (? & -> & _)|].
  apply like_dict in H as (d' & -> & _ & Hk & Hget). cbn [from_dict]. rewrite (keys_are_perm _ _ _ Hk).
  destruct (negb _); [done|].
  assert (Hi : forall k, item d' k = item d k \/ container (item d k) /\ container (item d' k)).
  { intros k. destruct (like_item Hget k) as [Hl|[-> ->]]; [by apply like_cases|by left]. }
  destruct (Hi "annotation") as [->|[H1 H2]]; [|by destruct (item d "annotation"), (item d' "annotation")].
  destruct (item d "annotation"); try done. destruct (negb _); [done|].
  assert (Hs : forall k, str_or_null (item d' k) = str_or_null (item d k)).
  { intros k. destruct (Hi k) as [->|[H1 H2]]; [done|]. by destruct (item d k), (item d' k). }
  cbn [forallb]. rewrite !Hs. destruct (str_or_null (item d "status")) eqn:E1; [|done].
  assert (Ha : forall k, str_or_null (item d k) = true -> item d' k = item d k).
  { intros k E. destruct (Hi k) as [->|[H1 H2]]; [done|]. by destruct (item d k). }
  rewrite (Ha "status") by done.
  destruct (str_or_null (item d "digest")) eqn:E2; [|done]. rewrite (Ha "digest") by done.
  destruct (str_or_null (item d "fingerprint_class")) eqn:E3; [|done]. rewrite (Ha "fingerprint_class") by done.
  destruct (str_or_null (item d "namespace")) eqn:E4; [|done]. by rewrite (Ha "namespace").
Qed.

Lemma validate_identity_like v v' : like v v' -> validate_identity_metadata v' = validate_identity_metadata v.
Proof.
  intros H. destruct v as [| | | | | |d]; try (by rewrite (like_atom _ _ H I)); [by apply like_list in H as (? & -> & _)|].
  apply like_dict in H as (d' & -> & _ & Hk & Hget). cbn [validate_identity_metadata]. rewrite (keys_are_perm _ _ _ Hk).
  destruct (negb _); [done|].
  assert (Hi : forall k, item d' k = item d k \/ container (item d k) /\ container (item d' k)).
  { intros k. destruct (like_item Hget k) as [Hl|[-> ->]]; [by apply like_cases|by left]. }
  assert (Hf : forall k, from_dict (item d' k) = from_dict (item d k)).
  { intros k. destruct (like_item Hget k) as [Hl|[-> ->]]; [by apply from_dict_like|done]. }
  rewrite !Hf. destruct (Hi "schema_version") as [->|[H1 H2]]; [done|].
  by destruct (item d "schema_version"), (item d' "schema_version").
Qed.

(** ** Dict updates *)

Section updates.
Implicit Types (d items : list (pystr * pyval)) (k : pystr).

Lemma dict_get_set_if o key make d k : str key <> k -> dict_get (set_if o key make d) k = dict_get d k.
Proof. intros Hk. destruct o as [[|c s]|]; try done. cbn. rewrite dict_get_set. unfold str_eqb. by rewrite bool_decide_false. Qed.

Lemma dict_get_pop d key d' k : dict_pop d key = Ok d' -> dict_get d' k = if str_eqb (str key) k then None else dict_get d k.
Proof.
  unfold dict_pop. destruct (dict_get d (str key)); [|done]. intros [= <-].
  induction d as [|[k' v] d IH]; cbn; [by destruct (str_eqb _ _)|]. unfold str_eqb in *.
  destruct (decide (k' = str key)) as [->|Hne].
  - rewrite bool_decide_true by done. cbn [negb]. rewrite IH. case_bool_decide; done.
  - rewrite (bool_decide_false (k' = str key)) by done. cbn. unfold str_eqb. rewrite IH.
    destruct (decide (k' = k)) as [->|]; [rewrite !bool_decide_true by done|by rewrite (bool_decide_false (k' = k))].
    by rewrite bool_decide_false.
Qed.

Lemma dict_get_update d items k : NoDup items.*1 ->
  dict_get (dict_update d items) k = match dict_get items k with Some v => Some v | None => dict_get d k end.
Proof.
  unfold dict_update. revert d. induction items as [|[k' v] items IH]; intros d Hnd; [done|]. cbn in Hnd. apply NoDup_cons in Hnd as [Hk Hnd].
  cbn [fold_left fst snd dict_get]. rewrite IH, dict_get_set by done. unfold str_eqb. case_bool_decide as E; [|done]. subst k'.
  destruct (dict_get items k) as [w|] eqn:Ei; [|done]. apply dict_get_elem in Ei; [|done].
  by apply (list_elem_of_fmap_2 fst) in Ei.
Qed.

(** Unique encodable keys, and plain values outside [K]. *)
Definition okd (K : list pystr) d : Prop := NoDup d.*1 /\ Forall (fun kv => encodes kv.1 /\ (kv.1 ∉ K -> plain kv.2)) d.

Lemma okd_mono K K' d : okd K d -> K ⊆ K' -> okd K' d.
Proof.
  intros [Hn Hf] Hk. split; [done|]. eapply Forall_impl; [exact Hf|]. cbn. intros kv [H1 H2]. split; [done|]. intros H. apply H2.
  intros H3. by apply H, Hk.
Qed.

Lemma okd_set K d k v : okd (k :: K) d -> encodes k -> plain v -> okd K (dict_set d k v).
Proof.
  intros [Hn Hf] Hk Hv. induction d as [|[k' w] d IH]; cbn.
  { split; [apply NoDup_singleton|]. by constructor. }
  cbn in Hn. apply NoDup_cons in Hn as [Hn1 Hn2]. apply Forall_cons in Hf as [[Hf0 Hf1] Hf2]. unfold str_eqb. case_bool_decide as E.
  - subst k'. split; [by constructor|]. constructor; [done|]. rewrite Forall_forall in *. intros [k0 w0] Hin.
    destruct (Hf2 _ Hin) as [H1 H2]. split; [done|]. intros H3. apply H2, not_elem_of_cons. split; [|done]. cbn. intros ->.
    apply Hn1. by apply (list_elem_of_fmap_2 fst) in Hin.
  - destruct (IH Hn2 Hf2) as [H1 H2]. split.
    + cbn. apply NoDup_cons. split; [|done]. intros (q & Ep & Hq)%list_elem_of_fmap. apply Hn1.
      clear -Ep Hq E. subst k'. induction d as [|[k1 w1] d IH]; cbn in *.
      * apply list_elem_of_singleton in Hq as ->. done.
      * revert Hq. unfold str_eqb. case_bool_decide as E1; intros [->|Hq]%elem_of_cons; cbn in *.
        -- done.
        -- right. by apply (list_elem_of_fmap_2 fst) in Hq.
        -- left.
        -- right. by apply IH.
    + constructor; [|done]. cbn. split; [done|]. intros H3. apply Hf1. cbn. apply not_elem_of_cons. done.
Qed.

Lemma okd_set_if K o key make d : okd K d -> asciib (str key) = true -> (forall s, o = Some s -> plain (make s)) -> okd K (set_if o key make d).
Proof.
  intros Hd Hk Hm. destruct o as [[|c s]|]; try done. cbn. apply okd_set; [|by apply asciib_encodes|by apply Hm].
  eapply okd_mono; [done|]. set_solver.
Qed.

Lemma okd_pop K d key d' : okd (str key :: K) d -> dict_pop d key = Ok d' -> okd K d'.
Proof.
  intros [Hn Hf] Hp. unfold dict_pop in Hp. destruct (dict_get d (str key)); [|done]. injection Hp as <-.
  induction d as [|[k w] d IH]; cbn in *; [split; constructor|].
  apply NoDup_cons in Hn as [Hn1 Hn2]. apply Forall_cons in Hf as [[Hf0 Hf1] Hf2]. destruct (IH Hn2 Hf2) as [H1 H2].
  unfold str_eqb at 1. case_bool_decide as E; [done|]. cbn [negb]. split.
  - cbn. apply NoDup_cons. split; [|done]. intros (q & Ep & Hq)%list_elem_of_fmap. apply Hn1. subst k.
    apply list_elem_of_fmap_2. apply list_elem_of_In in Hq. apply filter_In in Hq as [Hq _]. by apply list_elem_of_In.
  - constructor; [|done]. split; [done|]. cbn in *. intros H. apply Hf1. by apply not_elem_of_cons.
Qed.

Lemma okd_plain d : okd [] d <-> plain (VDict d).
Proof.
  rewrite plain_dict. unfold okd. f_equiv. rewrite !Forall_forall. split; intros H kv Hkv; destruct (H kv Hkv) as [H1 H2]; split; try done.
  apply H2, not_elem_of_nil.
Qed.
End updates.
