(* ===== verification/SarifEmit.v ===== *)
(** * Emitted results pass the emitter's checks

    The lookups of a projected finding, their survival when the log is read
    back, and the verdict of the shape validator on them. *)
From stdpp Require Import base tactics list gmap strings.
From Stdlib Require Import ZArith Lia.
From S2P Require Import Prelude PyData PyDict Sha256 Ordering Json PyText Identity JsonParse JsonSpec BoundRules Sarif SarifJson SarifSpec.

Open Scope Z_scope.
Open Scope py_scope.

(** ** Findings whose texts have an encoding *)

Definition opt_text (o : option pystr) : pystr := default [] o.

(** Texts without lone surrogates, in every attribute. *)
Definition encodable (f : WorkerFinding) : Prop :=
  Forall (fun v => match v with VStr s => encodes s | _ => True end)
    [w_origin f; w_determinism_partition f; w_engine f; w_S_version f; w_env_digest f; w_fingerprint_class f;
     w_cpg_order_hash f; w_slice_fingerprint f; w_precondition_status f; w_rule_id f; w_severity f; w_class_ f; w_status f;
     default VNone (w_cpg_order_namespace f); default VNone (w_slice_namespace f)] /\
  Forall encodes [w_message f; w_uri f; opt_text (w_witness_blob_uri f); opt_text (w_spec_provenance f);
                  opt_text (w_oracle_fingerprint f)].

(** ** What a result shows of its finding *)

Definition shows (d : list (pystr * pyval)) (key : string) (v : pyval) : Prop := dict_get d (str key) = Some v.

(** The properties and fingerprints of schema version 1. *)
Record projected_v1 (f : WorkerFinding) (props fps : list (pystr * pyval)) : Prop := {
  v1_identity : dict_get props (str "scanipy.identity") = None;
  v1_hash : shows props "scanipy.cpg_order_hash" (w_cpg_order_hash f);
  v1_annotation : shows props "scanipy.cpg_order_hash_annotation" (VStr CPG_ORDER_HASH_ANNOTATION);
  v1_class : shows props "scanipy.fingerprint_class" (w_fingerprint_class f);
  v1_slice : shows props "scanipy.slice_fingerprint" (w_slice_fingerprint f);
  v1_precondition : shows props "scanipy.precondition_status" (w_precondition_status f);
  v1_native_hash : shows fps "scanipy.cpg_order_hash/v1" (w_cpg_order_hash f);
  v1_native_slice : shows fps "scanipy.slice_fingerprint/v1" (w_slice_fingerprint f)
}.

(** Those of schema version 2, for the descriptors of the finding. *)
Record projected_v2 (f : WorkerFinding) (graph sliced : ArtifactIdentity) (props fps : list (pystr * pyval)) : Prop := {
  v2_identity : exists v, shows props "scanipy.identity" v /\ validate_identity_metadata v = Ok (graph, sliced);
  v2_hash : shows props "scanipy.cpg_order_hash" (of_opt (a_digest graph));
  v2_hash_class : shows props "scanipy.cpg_order_class" (of_opt (a_class graph));
  v2_slice : shows props "scanipy.slice_fingerprint" (of_opt (a_digest sliced));
  v2_slice_class : shows props "scanipy.slice_fingerprint_class" (of_opt (a_class sliced));
  v2_shared_class : dict_get props (str "scanipy.fingerprint_class") = None;
  v2_precondition : shows props "scanipy.precondition_status" (if truthy (w_precondition_status f) then w_precondition_status f else VNone);
  v2_applicability : shows props "scanipy.precondition_applicability"
    (VStr (str (if truthy (w_precondition_status f) then "computed" else "not-applicable")));
  v2_native : equals_fingerprints (VDict fps) (default [] (native_fingerprints graph sliced)) = true
}.

Record projected (f : WorkerFinding) (props fps : list (pystr * pyval)) : Prop := {
  pj_origin : shows props "scanipy.origin" (w_origin f);
  pj_S_version : shows props "scanipy.S_version" (w_S_version f);
  pj_env_digest : shows props "scanipy.env_digest" (w_env_digest f);
  pj_partition : shows props "scanipy.determinism_partition" (w_determinism_partition f);
  pj_engine : shows props "scanipy.engine" (w_engine f);
  pj_class : shows props "scanipy.class" (w_class_ f);
  pj_severity : shows props "scanipy.severity" (w_severity f);
  pj_status : shows props "scanipy.status" (w_status f);
  pj_identity : schema_version f = VInt 1 /\ projected_v1 f props fps \/
    schema_version f = VInt 2 /\ exists graph sliced, identities_from_finding (attrs f) = Ok (graph, sliced) /\
      projected_v2 f graph sliced props fps
}.

Record located (f : WorkerFinding) (loc : list (pystr * pyval)) : Prop := {
  lc_physical : exists physical artifact region, shows loc "physicalLocation" (VDict physical) /\
    shows physical "artifactLocation" (VDict artifact) /\ shows artifact "uri" (VStr (w_uri f)) /\
    shows physical "region" (VDict region) /\ shows region "startLine" (w_start_line f) /\
    shows region "startColumn" (w_start_col f) /\ shows region "endLine" (w_end_line f) /\ shows region "endColumn" (w_end_col f)
}.

Definition shaped (f : WorkerFinding) (r : pyval) : Prop :=
  exists d level message loc fps props, r = VDict d /\ shows d "ruleId" (w_rule_id f) /\
    shows d "level" (VStr level) /\ level ∈ LEVELS /\ shows d "message" (VDict message) /\
    shows message "text" (VStr (w_message f)) /\ shows d "locations" (VList [VDict loc]) /\ located f loc /\
    shows d "fingerprints" (VDict fps) /\ shows d "properties" (VDict props) /\ projected f props fps.

(** ** Reading back keeps what is shown *)

Section like_shows.
Context {d d' : list (pystr * pyval)}.
Hypothesis Hget : forall k, option_Forall2 like (dict_get d k) (dict_get d' k).

Lemma shows_atom key v : ~ container v -> shows d key v -> shows d' key v.
Proof. intros Hc E. apply (like_get_atom Hget _ _ E). destruct v; try done; by apply Hc. Qed.

Lemma shows_dict key l : shows d key (VDict l) -> exists l', shows d' key (VDict l') /\
  forall k, option_Forall2 like (dict_get l k) (dict_get l' k).
Proof.
  intros E. destruct (like_get_dict Hget _ _ E) as (l' & E' & Hl). exists l'. split; [exact E'|].
  by apply like_dict in Hl as (? & [= <-] & _ & _ & ?).
Qed.
End like_shows.

Lemma of_opt_atom o : ~ container (of_opt o).
Proof. intros H. by destruct o. Qed.

Lemma equals_fingerprints_like fps fps' d : like (VDict fps) (VDict fps') ->
  equals_fingerprints (VDict fps) d = true -> equals_fingerprints (VDict fps') d = true.
Proof.
  intros (? & [= <-] & _ & Hk & Hget)%like_dict. cbn. rewrite !andb_true_iff. intros [Hl Hf]. split.
  - apply Permutation_length in Hk. rewrite !length_fmap in Hk. by rewrite Hk.
  - rewrite forallb_forall in *. intros kv Hin. specialize (Hf kv Hin). destruct (dict_get fps kv.1) as [x|] eqn:E; [|done].
    rewrite (like_get_atom Hget _ _ E); [done|]. by destruct x.
Qed.

(** Attributes the validation has checked are not containers. *)
Lemma text_atom v : some_text v -> ~ container v.
Proof. intros (s & -> & _) H. done. Qed.
Lemma domain_atom D v : text_in D v -> ~ container v.
Proof. intros (s & -> & _) H. done. Qed.
Lemma integer_atom v : is_integer v = true -> ~ container v.
Proof. intros H Hc. by destruct v. Qed.

Lemma str_atom s : ~ container (VStr s).
Proof. intros []. Qed.

Lemma precondition_atom f : preconditioned f -> ~ container (w_precondition_status f).
Proof. intros [?|(_ & _ & _ & ?)]; [by eapply domain_atom|]. intros Hc. by destruct (w_precondition_status f). Qed.

#[export] Hint Resolve text_atom domain_atom integer_atom precondition_atom of_opt_atom str_atom : scanipy.

Lemma projected_like f props props' fps fps' : checked f -> like (VDict props) (VDict props') -> like (VDict fps) (VDict fps') ->
  projected f props fps -> projected f props' fps'.
Proof.
  intros Hc Hp Hf [P1 P2 P3 P4 P5 P6 P7 P8 P9].
  pose proof Hp as (? & [= <-] & _ & _ & Gp)%like_dict. pose proof Hf as (? & [= <-] & _ & _ & Gf)%like_dict.
  destruct Hc as [C1 C2 C3 C4 C5 C6 C7 C8 C9 C10 C11 C12].
  constructor; try (eapply (shows_atom Gp); [|eassumption]; eauto with scanipy; fail).
  destruct P9 as [[Hv [V1 V2 V3 V4 V5 V6 V7 V8]]|[Hv (g & s & Hi & [[v [V1 V1']] V2 V3 V4 V5 V6 V7 V8 V9])]].
  - left. split; [done|]. destruct C6 as [(_ & I1 & I2 & I3)|[Hv' _]]; [|congruence].
    constructor; try (by apply (like_get_none Gp)); try (eapply (shows_atom Gp); [|eassumption]; eauto with scanipy; fail);
      try (eapply (shows_atom Gf); [|eassumption]; eauto with scanipy; fail).
  - right. split; [done|]. exists g, s. split; [done|].
    constructor; try (by apply (like_get_none Gp)); try (eapply (shows_atom Gp); [|eassumption]; eauto with scanipy; fail).
    + destruct (like_get_some Gp _ _ V1) as (v' & E & Hl). exists v'. split; [exact E|]. by rewrite (validate_identity_like _ _ Hl).
    + eapply (shows_atom Gp); [|eassumption]. destruct (truthy _); [by apply precondition_atom|intros []].
    + by eapply equals_fingerprints_like.
Qed.

Lemma located_like f loc loc' : checked f -> like (VDict loc) (VDict loc') -> located f loc -> located f loc'.
Proof.
  intros Hc (? & [= <-] & _ & _ & G)%like_dict [(ph & art & reg & L1 & L2 & L3 & L4 & L5 & L6 & L7 & L8)].
  pose proof (ck_region f Hc) as R. rewrite !Forall_cons in R. destruct R as (R1 & R2 & R3 & R4 & _).
  destruct (shows_dict G _ _ L1) as (ph' & M1 & G1). destruct (shows_dict G1 _ _ L2) as (art' & M2 & G2).
  destruct (shows_dict G1 _ _ L4) as (reg' & M4 & G4). constructor. exists ph', art', reg'.
  split_and!; try done; [eapply (shows_atom G2); eauto with scanipy|..]; eapply (shows_atom G4); eauto with scanipy.
Qed.

Lemma shaped_like f r r' : checked f -> shaped f r -> like r r' -> shaped f r'.
Proof.
  intros Hc (d & lv & m & loc & fps & props & -> & S1 & S2 & S3 & S4 & S5 & S6 & S7 & S8 & S9 & S10) (d' & -> & _ & _ & G)%like_dict.
  destruct (shows_dict G _ _ S4) as (m' & M4 & G4). destruct (like_get_dict G _ _ S8) as (fps' & M8 & L8).
  destruct (like_get_dict G _ _ S9) as (props' & M9 & L9).
  destruct (like_get_some G _ _ S6) as (v & M6 & (l' & -> & L6)%like_list).
  inversion L6 as [|? w ? k Hw Hk]; subst. inversion Hk; subst. pose proof Hw as (loc' & -> & _)%like_dict.
  exists d', lv, m', loc', fps', props'. split_and!; try done.
  - apply (shows_atom G); [|done]. by apply text_atom, ck_rule_id.
  - eapply (shows_atom G); eauto with scanipy.
  - eapply (shows_atom G4); eauto with scanipy.
  - by eapply located_like.
  - by eapply projected_like.
Qed.

(** ** Plain values *)

Lemma plain_none : plain VNone.
Proof. by apply plain_atom. Qed.

Lemma plain_opt o : encodes (opt_text o) -> plain (of_opt o).
Proof. destruct o; cbn; intros H; [by apply plain_text|apply plain_none]. Qed.

Lemma plain_integer v : is_integer v = true -> plain v.
Proof. destruct v; try done. intros _. by apply plain_atom. Qed.

Lemma text_encodes v s : v = VStr s -> match v with VStr s => encodes s | _ => True end -> plain v.
Proof. intros -> H. by apply plain_text. Qed.

Lemma some_text_plain v : some_text v -> match v with VStr s => encodes s | _ => True end -> plain v.
Proof. intros (s & E & _). by eapply text_encodes. Qed.
Lemma domain_plain D v : text_in D v -> match v with VStr s => encodes s | _ => True end -> plain v.
Proof. intros (s & E & _). by eapply text_encodes. Qed.

(** A dict literal: its keys evaluate, its values are left as goals. *)
Ltac ascii := apply asciib_encodes; vm_compute; reflexivity.
Ltac plain_literal :=
  apply plain_dict; split; [apply (bool_decide_unpack _); vm_compute; exact I|];
  repeat (apply Forall_cons; split; [cbn [fst snd]; split; [ascii|]|]); try apply Forall_nil; try exact I.

#[export] Hint Resolve plain_none plain_opt plain_integer some_text_plain domain_plain : scanipy.

(** ** Descriptors *)

Lemma lookup_put_eq name o f : put_attr name o f !! str name = match o with Some v => Some v | None => f !! str name end.
Proof. unfold put_attr. destruct o; [apply (lookup_insert_eq (M := gmap pystr))|done]. Qed.

Lemma lookup_put_ne name o f k : str name <> str k -> put_attr name o f !! str k = f !! str k.
Proof. intros Hne. unfold put_attr. destruct o; [by apply (lookup_insert_ne (M := gmap pystr))|done]. Qed.

Lemma attr_attrs f : attr (attrs f) "identity_schema_version" (VInt 1) = schema_version f /\
  attr (attrs f) "cpg_order_namespace" VNone = default VNone (w_cpg_order_namespace f) /\
  attr (attrs f) "slice_namespace" VNone = default VNone (w_slice_namespace f).
Proof.
  unfold attr, attrs, schema_version. split_and!;
    repeat (rewrite lookup_put_ne by (vm_compute; discriminate)); rewrite lookup_put_eq;
    repeat (rewrite lookup_put_ne by (vm_compute; discriminate));
    [by destruct (w_identity_schema_version f)|by destruct (w_cpg_order_namespace f)|by destruct (w_slice_namespace f)].
Qed.

Definition descriptor_encodes (a : ArtifactIdentity) : Prop :=
  encodes (a_status a) /\ encodes (opt_text (a_digest a)) /\ encodes (opt_text (a_class a)) /\ encodes (opt_text (a_namespace a)).

Lemma hex64_encodes s : hex64 s = true -> encodes s.
Proof.
  unfold hex64. intros [_ H]%andb_true_iff. apply encodes_ascii, Forall_forall. intros c Hc. rewrite forallb_forall in H.
  apply list_elem_of_In, H in Hc. unfold Identity.is_lower_hex in Hc. lia.
Qed.

Lemma all_encode l : forallb asciib l = true -> forall s, s ∈ l -> encodes s.
Proof. intros H s Hs. rewrite forallb_forall in H. by apply asciib_encodes, H, list_elem_of_In. Qed.

(** A class is asserted of computed artifacts only. *)
Lemma make_identity_class status digest klass ns a : make_identity status digest klass ns = Ok a ->
  match a_class a with Some c => a_status a = COMPLETED /\ c ∈ CLASSES | None => True end /\
  match a_digest a with Some d => hex64 d = true | None => True end.
Proof.
  unfold make_identity. intros (known & _ & H)%obind_Ok. destruct known; [|done]. destruct status; try done.
  apply obind_Ok in H as (d & Hd & H).
  assert (Hx : match d with Some d => hex64 d = true | None => True end).
  { destruct digest; cbn in Hd; try done; [by injection Hd as <-|]. destruct (hex64 s0) eqn:E; [by injection Hd as <-|done]. }
  case_bool_decide as Hc.
  - unfold check_completed in H. destruct d as [d|]; [|done]. apply obind_Ok in H as (ok & Hok & H). destruct ok; [|done].
    destruct klass; try done. destruct ns as [| | |[|c n]| | |]; try done. injection H as <-. cbn in *.
    injection Hok as Hok%bool_decide_eq_true. done.
  - unfold check_uncomputed in H. destruct klass; try done. destruct ns; try done. destruct (_ && _); [done|]. by injection H as <-.
Qed.

Lemma make_identity_encodes status digest klass ns a : make_identity status digest klass ns = Ok a ->
  match ns with VStr s => encodes s | _ => True end -> descriptor_encodes a.
Proof.
  intros H Hns. pose proof (make_identity_class _ _ _ _ _ H) as [Hc Hd]. apply make_identity_Ok in H as (_ & Hs & _ & _ & En).
  split_and!.
  - revert Hs. apply all_encode. vm_compute. reflexivity.
  - destruct (a_digest a); [by apply hex64_encodes|apply encodes_nil].
  - destruct (a_class a) as [c|]; [|apply encodes_nil]. destruct Hc as [_ Hc]. revert Hc. apply all_encode. vm_compute. reflexivity.
  - subst ns. destruct (a_namespace a); [done|apply encodes_nil].
Qed.

Lemma native_Some g s : is_Some (native_fingerprints g s) <->
  a_class g = Some (str "strong") /\ a_class s = Some (str "strong") /\
  a_namespace g = Some GRAPH_V2 /\ a_namespace s = Some SLICE_V2.
Proof.
  unfold native_fingerprints. destruct (_ && _) eqn:E.
  - rewrite !andb_true_iff, !bool_decide_eq_true in E. destruct E as [[[A B] C] D]. split; [intros _; by rewrite A|by eexists].
  - split; [by intros [? ?]|]. intros (A & B & C & D). by rewrite A, B, C, D, !bool_decide_true in E.
Qed.

(** Both descriptors of a finding of version 2. *)
Lemma identities_v2 f g s : schema_version f = VInt 2 -> identities_from_finding (attrs f) = Ok (g, s) ->
  encodable f -> descriptor_encodes g /\ descriptor_encodes s /\
  has_strong_v2_artifact_identities (attrs f) = bool_decide (is_Some (native_fingerprints g s)).
Proof.
  intros Hv Hi [He _]. destruct (attr_attrs f) as (E1 & E2 & E3). unfold has_strong_v2_artifact_identities. rewrite Hi.
  unfold identities_from_finding in Hi. rewrite E1, Hv in Hi. cbn [Z.eqb Pos.eqb orb] in Hi.
  apply obind_Ok in Hi as (g' & Hg & Hi). apply obind_Ok in Hi as (s' & Hs & [= -> ->]).
  unfold one_identity in Hg, Hs. cbn [Z.eqb Pos.eqb] in Hg, Hs. rewrite E2 in Hg. rewrite E3 in Hs.
  rewrite !Forall_cons in He. destruct He as (_ & _ & _ & _ & _ & _ & _ & _ & _ & _ & _ & _ & _ & N1 & N2 & _).
  split_and!; [by eapply make_identity_encodes|by eapply make_identity_encodes|].
  pose proof (make_identity_class _ _ _ _ _ Hg) as [C1 _]. pose proof (make_identity_class _ _ _ _ _ Hs) as [C2 _].
  apply eq_true_iff_eq. rewrite bool_decide_eq_true, native_Some, andb_true_iff. unfold strong_in.
  rewrite !andb_true_iff, !bool_decide_eq_true. split; [tauto|]. intros (A & B & C & D). rewrite A in C1. rewrite B in C2. tauto.
Qed.

(** ** Projection *)

Lemma level_of_known v : text_in _SEVERITIES v -> exists l, level_of v = Ok l /\ l ∈ LEVELS.
Proof.
  intros (s & -> & Hs). cbn [level_of].
  assert (H : Forall (fun s => match dict_get _SEVERITY_TO_LEVEL s with Some l => l ∈ LEVELS | None => False end) _SEVERITIES).
  { repeat (apply Forall_cons; split; [cbn; apply (bool_decide_unpack _); vm_compute; exact I|]). apply Forall_nil. exact I. }
  rewrite Forall_forall in H. specialize (H s Hs). destruct (dict_get _SEVERITY_TO_LEVEL s) as [l|]; [by exists l|done].
Qed.

(** The properties before the fields of version 2. *)
Definition properties_of (f : WorkerFinding) : list (pystr * pyval) :=
  set_if (w_oracle_fingerprint f) "scanipy.oracle_native_identity" oracle_native_identity
    (set_if (w_witness_blob_uri f) "scanipy.witness_blob_uri" VStr
    (set_if (w_spec_provenance f) "scanipy.spec_provenance" VStr (base_properties f))).

Definition optional_keys : list pystr :=
  map str ["scanipy.oracle_native_identity"; "scanipy.witness_blob_uri"; "scanipy.spec_provenance"]%string.

Lemma properties_get f k : k ∉ optional_keys -> dict_get (properties_of f) k = dict_get (base_properties f) k.
Proof.
  intros Hk. unfold optional_keys in Hk. cbn in Hk. rewrite !not_elem_of_cons in Hk. destruct Hk as (H1 & H2 & H3 & _).
  unfold properties_of. by rewrite !dict_get_set_if by congruence.
Qed.

(** The attributes version 2 does not publish as they are. *)
Definition replaced_keys : list pystr :=
  map str ["scanipy.fingerprint_class"; "scanipy.cpg_order_hash_annotation"; "scanipy.cpg_order_hash";
           "scanipy.slice_fingerprint"; "scanipy.precondition_status"]%string.

Lemma okd_cons K d k v : k ∉ d.*1 -> encodes k -> (k ∉ K -> plain v) -> okd K d -> okd K ((k, v) :: d).
Proof. intros Hk He Hv [Hn Hf]. split; [by constructor|by constructor]. Qed.

Ltac fresh_key := apply (bool_decide_unpack _); vm_compute; exact I.
Ltac okd_literal := repeat (apply okd_cons; [fresh_key|ascii|intros Hkey|]); [..|split; [apply NoDup_nil_2|apply Forall_nil_2]].

Lemma base_okd f K : checked f -> encodable f ->
  (K = replaced_keys \/ K = [] /\ text_in _PRECONDITIONS (w_precondition_status f) /\ some_text (w_cpg_order_hash f) /\
    text_in _FP_CLASSES (w_fingerprint_class f) /\ some_text (w_slice_fingerprint f)) -> okd K (base_properties f).
Proof.
  intros [C1 C2 C3 C4 C5 _ _ C8 C9 C10 _ _] [He _] HK. rewrite !Forall_cons in He.
  destruct He as (E1 & E2 & E3 & E4 & E5 & E6 & E7 & E8 & E9 & _ & E11 & E12 & E13 & _).
  assert (Hr : forall k, k ∈ replaced_keys -> k ∉ K -> text_in _PRECONDITIONS (w_precondition_status f) /\ some_text (w_cpg_order_hash f) /\
    text_in _FP_CLASSES (w_fingerprint_class f) /\ some_text (w_slice_fingerprint f)).
  { intros k Hk Hn. by destruct HK as [->|[_ H]]. }
  unfold base_properties. okd_literal; eauto with scanipy; try (apply plain_text; ascii).
  all: match type of Hkey with ?k ∉ _ => destruct (Hr k ltac:(fresh_key) Hkey) as (R1 & R2 & R3 & R4) end; eauto with scanipy.
Qed.

Lemma native_identity_plain s : encodes s -> plain (oracle_native_identity s).
Proof. intros H. plain_literal; apply plain_text; [done|ascii..]. Qed.

Lemma properties_okd f K : encodable f -> okd K (base_properties f) -> okd K (properties_of f).
Proof.
  intros [_ He] Hb. rewrite !Forall_cons in He. destruct He as (_ & _ & E1 & E2 & E3 & _). unfold opt_text in *. unfold properties_of.
  repeat apply okd_set_if; try done; intros s Es; rewrite Es in *; first [by apply plain_text|by apply native_identity_plain].
Qed.

Lemma location_plain f : checked f -> encodable f -> plain (location_of f).
Proof.
  intros Hc [_ He]. rewrite !Forall_cons in He. destruct He as (_ & Hu & _). pose proof (ck_region f Hc) as R. rewrite !Forall_cons in R.
  unfold location_of. plain_literal. plain_literal; [plain_literal|]; [by apply plain_text|].
  plain_literal; apply plain_integer; tauto.
Qed.

Lemma located_of f : exists loc, location_of f = VDict loc /\ located f loc.
Proof.
  eexists. split; [reflexivity|]. constructor. eexists _, _, _. unfold shows. split_and!; vm_compute; reflexivity.
Qed.

Lemma okd_change K K' d k v : okd K d -> (forall x, x ∈ K -> x = k \/ x ∈ K') -> encodes k -> plain v -> okd K' (dict_set d k v).
Proof.
  intros Hd Hk He Hv. apply okd_set; [|done..]. eapply okd_mono; [done|]. intros x Hx. apply elem_of_cons. auto.
Qed.

(** The properties of version 2. *)
Lemma v2_props_okd f d1 d2 idv g s : okd replaced_keys (properties_of f) ->
  dict_pop (properties_of f) "scanipy.fingerprint_class" = Ok d1 -> dict_pop d1 "scanipy.cpg_order_hash_annotation" = Ok d2 ->
  plain idv -> descriptor_encodes g -> descriptor_encodes s -> preconditioned f ->
  match w_precondition_status f with VStr s => encodes s | _ => True end ->
  okd [] (dict_update d2 (v2_properties f idv g s)).
Proof.
  intros H0 P1 P2 Hid (_ & G1 & G2 & _) (_ & S1 & S2 & _) Hpc Epc. unfold replaced_keys in H0. cbn [map] in H0.
  pose proof (okd_pop _ _ _ _ H0 P1) as H1. pose proof (okd_pop _ _ _ _ H1 P2) as H2. clear H0 H1.
  assert (Hpv : plain (if truthy (w_precondition_status f) then w_precondition_status f else VNone)).
  { destruct (truthy _) eqn:Et; [|apply plain_none]. destruct Hpc as [Hpc|(_ & _ & Hf & _)]; [by eapply domain_plain|congruence]. }
  unfold dict_update, v2_properties. cbn [fold_left fst snd].
  apply (okd_change []); [|by intros x Hx%elem_of_nil|ascii|apply plain_text; destruct (truthy _); ascii].
  apply okd_set; [|ascii|done]. set (K1 := [str "scanipy.precondition_status"]).
  apply (okd_change K1); [|by auto|ascii|by apply plain_opt].
  apply okd_set; [|ascii|by apply plain_opt]. set (K2 := _ :: K1).
  apply (okd_change K2); [|by auto|ascii|by apply plain_opt].
  apply okd_set; [|ascii|by apply plain_opt].
  apply (okd_change (str "scanipy.cpg_order_hash" :: K2)); [exact H2|by auto|ascii|done].
Qed.

Lemma equals_opt_refl o : equals_opt (of_opt o) o = true.
Proof. destruct o; cbn; [|done]. unfold str_eqb. by rewrite bool_decide_true. Qed.

(** The native fingerprints of version 2, as the emitter writes them. *)
Definition native_dict (g s : ArtifactIdentity) : list (pystr * pyval) :=
  if bool_decide (is_Some (native_fingerprints g s)) then
    [(str "scanipy.cpg_order_hash/v2", of_opt (a_digest g)); (str "scanipy.slice_fingerprint/v2", of_opt (a_digest s))]
  else [].

Lemma native_dict_equals g s : equals_fingerprints (VDict (native_dict g s)) (default [] (native_fingerprints g s)) = true.
Proof.
  unfold native_dict. case_bool_decide as H.
  - unfold native_fingerprints in *. destruct (_ && _); [|by destruct H]. cbn [default equals_fingerprints].
    set (d := [(str "scanipy.cpg_order_hash/v2", of_opt (a_digest g)); (str "scanipy.slice_fingerprint/v2", of_opt (a_digest s))]).
    assert (E1 : dict_get d (str "scanipy.cpg_order_hash/v2") = Some (of_opt (a_digest g))) by (vm_compute; reflexivity).
    assert (E2 : dict_get d (str "scanipy.slice_fingerprint/v2") = Some (of_opt (a_digest s))) by (vm_compute; reflexivity).
    cbn [id length forallb fst snd]. by rewrite E1, E2, !equals_opt_refl.
  - destruct (native_fingerprints g s); [|done]. exfalso. apply H. by eexists.
Qed.

Lemma native_dict_plain g s : descriptor_encodes g -> descriptor_encodes s -> plain (VDict (native_dict g s)).
Proof.
  intros (_ & G & _) (_ & S & _). unfold native_dict. case_bool_decide; plain_literal; by apply plain_opt.
Qed.

Lemma to_dict_plain a : descriptor_encodes a -> plain (to_dict a).
Proof.
  intros (H1 & H2 & H3 & H4). unfold to_dict. plain_literal; [by apply plain_text|by apply plain_opt..|apply plain_text; ascii].
Qed.

Definition metadata (g s : ArtifactIdentity) : pyval :=
  VDict [(str "schema_version", VInt 2); (str "cpg_order", to_dict g); (str "slice", to_dict s)].

Lemma metadata_plain g s : descriptor_encodes g -> descriptor_encodes s -> plain (metadata g s).
Proof. intros Hg Hs. unfold metadata. plain_literal; [by apply plain_atom|by apply to_dict_plain..]. Qed.

Lemma metadata_validates f g s : identities_from_finding (attrs f) = Ok (g, s) ->
  identity_metadata (attrs f) = Ok (metadata g s) /\ validate_identity_metadata (metadata g s) = Ok (g, s).
Proof.
  intros Hi. assert (E : identity_metadata (attrs f) = Ok (metadata g s)) by (unfold identity_metadata; by rewrite Hi).
  split; [exact E|]. rewrite <-Hi. by apply validate_metadata.
Qed.

Definition final_v2 (f : WorkerFinding) (g s : ArtifactIdentity) (d : list (pystr * pyval)) : list (pystr * pyval) :=
  dict_update d (v2_properties f (metadata g s) g s).

Lemma projected_first f : schema_version f = VInt 1 -> projected f (properties_of f)
  [(str "scanipy.cpg_order_hash/v1", w_cpg_order_hash f); (str "scanipy.slice_fingerprint/v1", w_slice_fingerprint f)].
Proof.
  intros Hv. constructor; try (unfold shows; rewrite properties_get by fresh_key; vm_compute; reflexivity).
  left. split; [done|]. constructor; unfold shows; rewrite ?properties_get by fresh_key; vm_compute; reflexivity.
Qed.

Lemma projected_second f g s d1 d2 : schema_version f = VInt 2 -> identities_from_finding (attrs f) = Ok (g, s) ->
  dict_pop (properties_of f) "scanipy.fingerprint_class" = Ok d1 -> dict_pop d1 "scanipy.cpg_order_hash_annotation" = Ok d2 ->
  projected f (final_v2 f g s d2) (native_dict g s).
Proof.
  intros Hv Hi P1 P2.
  assert (Hget : forall k, k ∉ optional_keys -> dict_get (final_v2 f g s d2) k =
    match dict_get (v2_properties f (metadata g s) g s) k with
    | Some v => Some v
    | None => if str_eqb (str "scanipy.cpg_order_hash_annotation") k then None
              else if str_eqb (str "scanipy.fingerprint_class") k then None else dict_get (base_properties f) k
    end).
  { intros k Hk. unfold final_v2. rewrite dict_get_update by fresh_key.
    by rewrite (dict_get_pop _ _ _ _ P2), (dict_get_pop _ _ _ _ P1), properties_get. }
  assert (Hshow : forall key v, str key ∉ optional_keys ->
    match dict_get (v2_properties f (metadata g s) g s) (str key) with
    | Some v => Some v
    | None => if str_eqb (str "scanipy.cpg_order_hash_annotation") (str key) then None
              else if str_eqb (str "scanipy.fingerprint_class") (str key) then None else dict_get (base_properties f) (str key)
    end = Some v -> shows (final_v2 f g s d2) key v) by (intros key v Hk E; unfold shows; by rewrite Hget).
  constructor; [apply Hshow; [fresh_key|vm_compute; reflexivity]..|].
  right. split; [done|]. exists g, s. split; [done|].
  constructor; [|apply Hshow; [fresh_key|vm_compute; reflexivity]..| | | |].
  - exists (metadata g s). split; [|by apply (metadata_validates f)]. apply Hshow; [fresh_key|vm_compute; reflexivity].
  - rewrite Hget by fresh_key. vm_compute. reflexivity.
  - apply Hshow; [fresh_key|vm_compute; reflexivity].
  - apply Hshow; [fresh_key|vm_compute; reflexivity].
  - apply native_dict_equals.
Qed.

Lemma pops f : exists d1 d2, dict_pop (properties_of f) "scanipy.fingerprint_class" = Ok d1 /\
  dict_pop d1 "scanipy.cpg_order_hash_annotation" = Ok d2.
Proof.
  assert (E1 : dict_get (properties_of f) (str "scanipy.fingerprint_class") = Some (w_fingerprint_class f)) by (rewrite properties_get by fresh_key; vm_compute; reflexivity).
  assert (P1 : exists d1, dict_pop (properties_of f) "scanipy.fingerprint_class" = Ok d1) by (unfold dict_pop; rewrite E1; by eexists).
  destruct P1 as [d1 P1]. exists d1.
  assert (E2 : dict_get d1 (str "scanipy.cpg_order_hash_annotation") = Some (VStr CPG_ORDER_HASH_ANNOTATION)).
  { rewrite (dict_get_pop _ _ _ _ P1), properties_get by fresh_key. vm_compute. reflexivity. }
  eexists. split; [done|]. unfold dict_pop. by rewrite E2.
Qed.

Lemma result_assembled f props fps level : checked f -> encodable f -> plain (VDict props) -> plain (VDict fps) ->
  projected f props fps -> level ∈ LEVELS ->
  let r := VDict [(str "ruleId", w_rule_id f); (str "level", VStr level); (str "message", VDict [(str "text", VStr (w_message f))]);
                  (str "locations", VList [location_of f]); (str "fingerprints", VDict fps); (str "properties", VDict props)] in
  plain r /\ shaped f r.
Proof.
  intros Hc He Hp Hf Hpj Hl. pose proof He as [E1 E2]. rewrite !Forall_cons in E1. rewrite !Forall_cons in E2. split.
  - plain_literal; try done.
    + apply some_text_plain; [by apply ck_rule_id|tauto].
    + apply plain_text. revert Hl. apply all_encode. vm_compute. reflexivity.
    + plain_literal. apply plain_text. tauto.
    + apply plain_list. repeat constructor. by apply location_plain.
  - destruct (located_of f) as (loc & El & Hloc). rewrite El. eexists _, level, _, loc, fps, props.
    split_and!; try reflexivity; try done; try (vm_compute; reflexivity).
Qed.

Lemma to_result_shaped f : checked f -> encodable f -> exists r, _to_result f = Ok r /\ plain r /\ shaped f r.
Proof.
  intros Hc He. destruct (level_of_known _ (ck_severity f Hc)) as (level & El & Hl). unfold _to_result.
  pose proof He as [E1 _]. rewrite !Forall_cons in E1. destruct E1 as (_ & _ & _ & _ & _ & _ & Eh & Es & Ep & _).
  fold (properties_of f). rewrite El. destruct (ck_identity f Hc) as [(Hv & I1 & I2 & I3)|(Hv & g & s & Hi & Hcore)]; rewrite Hv; cbn [obind fst snd].
  - eexists. split; [reflexivity|]. apply result_assembled; try done; [| |by apply projected_first].
    + apply okd_plain, properties_okd; [done|]. apply base_okd; try done. right. split_and!; try done.
      destruct (ck_precondition f Hc) as [?|(Hv' & _)]; [done|congruence].
    + plain_literal; by apply some_text_plain.
  - destruct (pops f) as (d1 & d2 & P1 & P2). destruct (identities_v2 f g s Hv Hi He) as (Dg & Ds & Hst).
    destruct (metadata_validates f g s Hi) as [Hm _]. unfold v2_result. rewrite Hi. cbn [obind fst snd]. rewrite P1. cbn [obind].
    rewrite P2. cbn [obind]. rewrite Hm. cbn [obind]. rewrite Hst. fold (native_dict g s). fold (final_v2 f g s d2).
    eexists. split; [reflexivity|]. apply result_assembled; try done.
    + apply okd_plain, (v2_props_okd f d1 d2); try done; [|by apply metadata_plain|by apply ck_precondition].
      apply properties_okd; [done|]. apply base_okd; auto.
    + by apply native_dict_plain.
    + by eapply projected_second.
Qed.
