(* ===== verification/SarifLog.v ===== *)
(** * The emitter's checks on its own log

    The shape validator finds in an emitted result nothing but an empty [uri],
    and the order check never fails: the two checks of [normalize] decide what
    [_validate_finding] leaves open and no more. *)
From stdpp Require Import base tactics list gmap strings sorting.
From Stdlib Require Import ZArith Lia.
From S2P Require Import Prelude PyData Sha256 Ordering PyDict Json PyText Identity JsonParse JsonSpec BoundRules Sarif SarifJson SarifSpec SarifEmit.

Open Scope Z_scope.
Open Scope py_scope.

(** ** Results *)

Lemma prop_shows d key v : shows d key v -> prop d key = v.
Proof. unfold shows, prop. by intros ->. Qed.

Lemma get_or_shows d key v dflt : shows d key v -> get_or (VDict d) key dflt = Ok v.
Proof. unfold shows, get_or. by intros ->. Qed.

Lemma subscript_shows d key v : shows d key v -> subscript (VDict d) key = Ok v.
Proof. unfold shows, subscript. by intros ->. Qed.

Lemma some_text_nonempty v : some_text v -> is_nonempty_text v = true.
Proof. by intros ([|c s] & -> & Hs). Qed.

Lemma domain_nonempty D v : [] ∉ D -> text_in D v -> is_nonempty_text v = true.
Proof. intros Hn (s & -> & Hs). apply some_text_nonempty. exists s. split; [done|by intros ->]. Qed.

Lemma domain_known D v : text_in D v -> in_strings v D = Ok true.
Proof. intros (s & -> & Hs). cbn. by rewrite bool_decide_true. Qed.

Lemma equals_text_refl s : equals_text (VStr s) s = true.
Proof. cbn. unfold str_eqb. by rewrite bool_decide_true. Qed.

Lemma preconditions_nonempty : [] ∉ _PRECONDITIONS.
Proof. fresh_key. Qed.

(** The uri check, the only one a validated finding can fail. *)
Definition uri_errors (w : place) (f : WorkerFinding) : list shape_error :=
  expect (is_nonempty_text (VStr (w_uri f))) w "artifactLocation.uri".

Lemma location_verdict f loc w : checked f -> located f loc -> location_errors w [VDict loc] = Ok (uri_errors w f).
Proof.
  intros Hc [(ph & art & reg & L1 & L2 & L3 & L4 & L5 & L6 & L7 & L8)]. pose proof (ck_region f Hc) as R. rewrite !Forall_cons in R.
  destruct R as (R1 & R2 & R3 & R4 & _). unfold location_errors. cbn [is_dict].
  rewrite (get_or_shows _ _ _ _ L1). cbn [obind]. rewrite (get_or_shows _ _ _ _ L4), (get_or_shows _ _ _ _ L2). cbn [obind].
  unfold REGION_KEYS, get_key. cbn [mapO].
  rewrite (get_or_shows _ _ _ _ L5), (get_or_shows _ _ _ _ L6), (get_or_shows _ _ _ _ L7), (get_or_shows _ _ _ _ L8),
    (get_or_shows _ _ _ _ L3). cbn [obind]. by rewrite R1, R2, R3, R4.
Qed.

Lemma fingerprint_verdict f props fps w : checked f -> projected f props fps ->
  fingerprint_errors w (bool_decide (is_Some (dict_get props (str "scanipy.identity")))) (VDict fps) = [].
Proof.
  intros Hc Hp. unfold fingerprint_errors. case_bool_decide as Hv; [done|].
  destruct (pj_identity _ _ _ Hp) as [[_ V]|(_ & g & s & _ & V)].
  - cbn [map]. rewrite (prop_shows _ _ _ (v1_native_hash _ _ _ V)), (prop_shows _ _ _ (v1_native_slice _ _ _ V)).
    destruct (ck_identity f Hc) as [(_ & I1 & _ & I3)|(Hv2 & _)]; [by rewrite !some_text_nonempty|].
    destruct (pj_identity _ _ _ Hp) as [[Hv1 _]|(_ & ? & ? & _ & V')]; [congruence|].
    destruct (v2_identity _ _ _ _ _ V') as (v & E & _). unfold shows in E. rewrite E in Hv. destruct Hv. by eexists.
  - destruct (v2_identity _ _ _ _ _ V) as (v & E & _). unfold shows in E. rewrite E in Hv. destruct Hv. by eexists.
Qed.

(** The required properties the versions share. *)
Lemma shared_required f props fps key : checked f -> projected f props fps ->
  key ∈ required_keys true -> is_nonempty_text (prop props key) = true.
Proof.
  intros Hc [P1 P2 P3 P4 P5 P6 P7 P8 _]. destruct strings_nonempty as (N1 & N2 & N3 & N4 & N5).
  assert (E : required_keys true = ["scanipy.origin"; "scanipy.S_version"; "scanipy.env_digest"; "scanipy.determinism_partition";
    "scanipy.engine"; "scanipy.class"; "scanipy.severity"; "scanipy.status"]%string) by (vm_compute; reflexivity).
  rewrite E, !elem_of_cons. clear E.
  destruct Hc as [C1 C2 C3 C4 C5 _ _ C8 C9 C10 _ _].
  intros [->|[->|[->|[->|[->|[->|[->|[->|H]]]]]]]]; [..|by apply elem_of_nil in H]; erewrite prop_shows by eassumption;
    first [by apply some_text_nonempty|eapply domain_nonempty; [|eassumption]; done].
Qed.

Lemma checks_pass w (ok : string -> bool) keys : (forall key, key ∈ keys -> ok key = true) ->
  concat (map (fun key => expect (ok key) w key) keys) = [].
Proof.
  induction keys as [|key keys IH]; intros H; [done|]. cbn. rewrite (H key) by left. apply IH. intros k Hk. apply H. by right.
Qed.

Lemma origin_known f props fps : checked f -> projected f props fps -> in_strings (prop props "scanipy.origin") _ORIGINS = Ok true.
Proof. intros Hc Hp. rewrite (prop_shows _ _ _ (pj_origin _ _ _ Hp)). by apply domain_known, ck_origin. Qed.

Lemma property_verdict_v1 f props fps w : checked f -> schema_version f = VInt 1 -> projected f props fps ->
  property_errors w (VDict fps) props = Ok [].
Proof.
  intros Hc Hv Hp. destruct (pj_identity _ _ _ Hp) as [[_ V]|(Hv2 & _)]; [|congruence].
  destruct (ck_identity f Hc) as [(_ & I1 & I2 & I3)|(Hv2 & _)]; [|congruence].
  assert (Hpc : text_in _PRECONDITIONS (w_precondition_status f)) by (destruct (ck_precondition f Hc) as [?|(? & _)]; [done|congruence]).
  unfold property_errors. rewrite (v1_identity _ _ _ V). rewrite bool_decide_false by (by intros [? ?]). cbn [obind].
  rewrite (origin_known f props fps) by done. cbn [obind]. rewrite checks_pass.
  - rewrite (prop_shows _ _ _ (v1_annotation _ _ _ V)), equals_text_refl. done.
  - intros key Hk. destruct (decide (key ∈ required_keys true)) as [Hs|Hs]; [by eapply shared_required|].
    assert (E : key ∈ dropped_v2).
    { destruct (decide (key ∈ dropped_v2)) as [|Hd]; [done|]. exfalso. apply Hs. unfold required_keys in *. apply list_elem_of_In, filter_In.
      split; [by apply list_elem_of_In|]. by rewrite bool_decide_false. }
    unfold dropped_v2 in E. rewrite !elem_of_cons in E. destruct strings_nonempty as (_ & _ & N3 & _).
    destruct E as [->|[->|[->|[->|[->|H]]]]]; [..|by apply elem_of_nil in H].
    + rewrite (prop_shows _ _ _ (v1_hash _ _ _ V)). by apply some_text_nonempty.
    + by rewrite (prop_shows _ _ _ (v1_annotation _ _ _ V)).
    + rewrite (prop_shows _ _ _ (v1_class _ _ _ V)). eapply domain_nonempty; [|exact I2]. done.
    + rewrite (prop_shows _ _ _ (v1_slice _ _ _ V)). by apply some_text_nonempty.
    + rewrite (prop_shows _ _ _ (v1_precondition _ _ _ V)). eapply domain_nonempty; [|exact Hpc]. apply preconditions_nonempty.
Qed.

Lemma descriptor_verdict f g s props fps w : projected_v2 f g s props fps -> descriptor_errors w props g s = [].
Proof.
  intros [_ V2 V3 V4 V5 V6 _ _ _]. unfold descriptor_errors, shows in *. cbn [map concat fst snd].
  by rewrite V2, V3, V4, V5, V6, !equals_opt_refl.
Qed.

Lemma precondition_verdict f g s props fps w : checked f -> shows props "scanipy.origin" (w_origin f) ->
  projected_v2 f g s props fps -> precondition_errors w props = Ok [].
Proof.
  intros Hc Ho V. unfold precondition_errors. rewrite (prop_shows _ _ _ (v2_precondition _ _ _ _ _ V)),
    (prop_shows _ _ _ (v2_applicability _ _ _ _ _ V)), (prop_shows _ _ _ Ho).
  destruct (ck_precondition f Hc) as [(pc & Epc & Hpc)|(_ & Eo & Ht & _)].
  - rewrite Epc. assert (Hne : truthy (VStr pc) = true).
    { cbn. rewrite bool_decide_false; [done|]. intros ->. by apply preconditions_nonempty. }
    rewrite Hne. cbn [in_strings obind]. rewrite bool_decide_true by done. by rewrite equals_text_refl.
  - by rewrite Ht, Eo, !equals_text_refl.
Qed.

Lemma property_verdict_v2 f props fps w : checked f -> schema_version f = VInt 2 -> projected f props fps ->
  property_errors w (VDict fps) props = Ok [].
Proof.
  intros Hc Hv Hp. destruct (pj_identity _ _ _ Hp) as [[Hv1 _]|(_ & g & s & Hi & V)]; [congruence|].
  destruct (v2_identity _ _ _ _ _ V) as (v & Ev & Hval). unfold property_errors. pose proof Ev as Ev'. unfold shows in Ev'.
  rewrite Ev'. rewrite bool_decide_true by (by eexists). unfold identity_errors. rewrite (prop_shows _ _ _ Ev), Hval.
  rewrite (descriptor_verdict f g s props fps), (v2_native _ _ _ _ _ V) by done.
  rewrite (precondition_verdict f g s props fps) by (done || by apply (pj_origin _ _ _ Hp)).
  rewrite (prop_shows _ _ _ (pj_origin _ _ _ Hp)).
  assert (Hcore : equals_text (w_origin f) CORE_ORIGIN && negb (completed g && completed s) = false).
  { destruct (ck_identity f Hc) as [(Hv1 & _)|(_ & g' & s' & Hi' & Hcore)]; [congruence|]. rewrite Hi in Hi'. injection Hi' as <- <-.
    destruct (ck_origin f Hc) as (o & Eo & _). rewrite Eo in *. cbn. unfold str_eqb. case_bool_decide as E; [|done]. subst o.
    destruct (Hcore eq_refl) as [E1%completed_iff E2%completed_iff]. by rewrite E1, E2. }
  rewrite Hcore. cbn [obind expect app negb]. rewrite checks_pass by (intros; by eapply shared_required).
  destruct (ck_origin f Hc) as (o & Eo & Ho). rewrite Eo. cbn [in_strings obind]. by rewrite bool_decide_true.
Qed.

Lemma result_verdict f r i j : checked f -> shaped f r -> _validate_result_shape r i j = Ok (uri_errors (at_result i j) f).
Proof.
  intros Hc (d & lv & m & loc & fps & props & -> & S1 & S2 & S3 & S4 & S5 & S6 & S7 & S8 & S9 & S10).
  unfold _validate_result_shape. rewrite (prop_shows _ _ _ S1), (prop_shows _ _ _ S2), (prop_shows _ _ _ S4), (prop_shows _ _ _ S5),
    (prop_shows _ _ _ S6), (prop_shows _ _ _ S8), (prop_shows _ _ _ S9).
  rewrite (some_text_nonempty _ (ck_rule_id f Hc)). cbn [in_strings obind]. rewrite bool_decide_true by done.
  rewrite (location_verdict f) by done. cbn [obind]. rewrite (fingerprint_verdict f) by done.
  assert (E : property_errors (at_result i j) (VDict fps) props = Ok []).
  { destruct (ck_identity f Hc) as [(Hv & _)|(Hv & _)]; [by apply (property_verdict_v1 f)|by apply (property_verdict_v2 f)]. }
  rewrite E. cbn. by rewrite !app_nil_r.
Qed.

(** ** Sort keys *)

(** What the result of a finding publishes as its two digests. *)
Definition digests_of (f : WorkerFinding) : pyval * pyval :=
  match schema_version f, identities_from_finding (attrs f) with
  | VInt 2, Ok (graph, sliced) => (of_opt (a_digest graph), of_opt (a_digest sliced))
  | _, _ => (w_cpg_order_hash f, w_slice_fingerprint f)
  end.

Lemma digests_shown f props fps : projected f props fps ->
  shows props "scanipy.cpg_order_hash" (digests_of f).1 /\ shows props "scanipy.slice_fingerprint" (digests_of f).2.
Proof.
  intros Hp. unfold digests_of. destruct (pj_identity _ _ _ Hp) as [[-> V]|(-> & g & s & -> & V)]; by destruct V.
Qed.

Section keys.
Context `{PyRuntime}.

Definition key_of (f : WorkerFinding) (line : Z) (bytes : pybytes) : sort_key :=
  (py_str (digests_of f).1, py_str (w_rule_id f), w_uri f, line, py_str (digests_of f).2, bytes).

Lemma sort_key_shaped f r : checked f -> shaped f r -> exists line, forall r' b, shaped f r' ->
  _canonical_serialize r' = Ok b -> _result_sort_key r' = Ok (key_of f line b).
Proof.
  intros Hc _. pose proof (ck_region f Hc) as R. rewrite !Forall_cons in R. destruct R as (R1 & _).
  destruct (w_start_line f) as [| |line| | | |] eqn:El; try done. exists line. intros r' b Hs Hb.
  destruct Hs as (d & lv & m & loc & fps & props & -> & S1 & _ & _ & _ & _ & S6 & [(ph & art & reg & L1 & L2 & L3 & L4 & L5 & _)] & _ & S9 & S10).
  destruct (digests_shown f props fps S10) as [D1 D2]. unfold _result_sort_key.
  rewrite (subscript_shows _ _ _ S9). cbn [obind is_dict]. rewrite (subscript_shows _ _ _ S6). cbn [obind].
  rewrite (subscript_shows _ _ _ L1). cbn [obind]. rewrite (subscript_shows _ _ _ L4). cbn [obind].
  rewrite (subscript_shows _ _ _ D1). cbn [obind]. rewrite (subscript_shows _ _ _ S1). cbn [obind].
  rewrite (subscript_shows _ _ _ L2). cbn [obind].
  rewrite (subscript_shows _ _ _ L3). cbn [obind]. rewrite (subscript_shows _ _ _ L5), El. cbn [obind py_int].
  rewrite (subscript_shows _ _ _ D2). cbn [obind]. by rewrite Hb.
Qed.

(** A result the emitter made of a finding of the set. *)
Definition emitted (fs : list WorkerFinding) (r : pyval) : Prop :=
  exists f, f ∈ fs /\ _to_result f = Ok r /\ checked f /\ plain r /\ shaped f r.

Lemma emitted_key fs r : emitted fs r -> exists k, forall r', like r r' -> _result_sort_key r' = Ok k.
Proof.
  intros (f & _ & _ & Hc & Hp & Hs). destruct (sort_key_shaped f r Hc Hs) as [line Hk].
  destruct (serialize_plain r Hp) as (j & b & _ & _ & _ & Hb). exists (key_of f line b). intros r' Hl.
  apply Hk; [by eapply shaped_like|]. by rewrite (serialize_like _ _ Hl).
Qed.

Lemma emitted_keys fs rs : Forall (emitted fs) rs -> exists ks, forall rs', Forall2 like rs rs' -> mapO _result_sort_key rs' = Ok ks.
Proof.
  induction 1 as [|r rs Hr _ [ks IH]]; [exists []; intros rs' H'; by inversion H'|].
  destruct (emitted_key fs r Hr) as [k Hk]. exists (k :: ks). intros rs' H'. inversion H' as [|? r' ? rs0 Hr' H0]; subst.
  cbn [mapO]. by rewrite (Hk _ Hr'), (IH _ H0).
Qed.

Lemma emitted_like fs rs : Forall (emitted fs) rs -> Forall2 like rs rs.
Proof. induction 1 as [|r rs (f & _ & _ & _ & Hp & _) _ IH]; constructor; [by apply like_refl|done]. Qed.

(** The results of a partition of validated findings. *)
Definition select (fs : list WorkerFinding) (origin : pystr) : list WorkerFinding :=
  List.filter (fun f => equals_text (w_origin f) origin) fs.

Definition sorted_keys (rs : list pyval) : Prop := exists ks, keyed rs (py_sorted sort_key_leb ks).

Lemma project_all fs : Forall checked fs -> Forall encodable fs ->
  exists l, mapO _to_result fs = Ok l /\ Forall (emitted fs) l.
Proof.
  intros Hc He. assert (H' : forall gs, Forall checked gs -> Forall encodable gs -> (forall f, f ∈ gs -> f ∈ fs) ->
    exists l, mapO _to_result gs = Ok l /\ Forall (emitted fs) l).
  { clear Hc He. induction gs as [|f gs IH]; intros Hc He Hin; [by exists []|].
    apply Forall_cons in Hc as [C1 C2], He as [E1 E2]. destruct (to_result_shaped f C1 E1) as (r & Er & Hp & Hs).
    destruct IH as (l & El & Hl); [done..|intros g Hg; apply Hin; by right|]. exists (r :: l). cbn [mapO]. rewrite Er, El.
    split; [done|]. constructor; [|done]. exists f. split_and!; try done. apply Hin. by left. }
  by apply H'.
Qed.

Lemma validated_all fs : mapO _validate_finding fs = Ok (map (fun _ => tt) fs) <-> Forall checked fs.
Proof.
  rewrite Forall_forall. split.
  - intros E f Hf. apply finding_validates. apply mapO_Forall2 in E. clear -E Hf. remember (map _ fs) as us eqn:Eu. clear Eu.
    induction E as [|g u fs us Hg _ IH]; [by apply elem_of_nil in Hf|]. apply elem_of_cons in Hf as [->|Hf]; [by destruct u|by apply IH].
  - intros Hall. apply mapO_pure. intros f Hf. by apply finding_validates, Hall.
Qed.

Lemma validated_some fs us : mapO _validate_finding fs = Ok us -> Forall checked fs.
Proof.
  intros E. apply mapO_Forall2 in E. induction E as [|g u fs us Hg _ IH]; [constructor|]. constructor; [|done].
  destruct u. by apply finding_validates.
Qed.

Lemma sorted_results_spec fs origin : Forall checked (select fs origin) -> Forall encodable (select fs origin) ->
  exists l rs, _sorted_results fs origin = Ok rs /\ mapO _to_result (select fs origin) = Ok l /\ rs ≡ₚ l /\
    Forall (emitted (select fs origin)) rs /\ sorted_keys rs.
Proof.
  intros Hc He. destruct (project_all _ Hc He) as (l & El & Hl).
  destruct (emitted_keys _ _ Hl) as [ks Hks]. specialize (Hks l (emitted_like _ _ Hl)).
  destruct (sort_results_total l ks Hks) as [rs Hrs]. exists l, rs.
  destruct (sort_results_spec l rs Hrs) as (Hp & ks' & Hk & _).
  unfold _sorted_results. fold (select fs origin). rewrite (proj2 (validated_all _) Hc). cbn [obind]. rewrite El. cbn [obind].
  split_and!; try done; [by rewrite Hp|by exists ks'].
Qed.

(** The order check passes on the results as they read back. *)
Lemma order_verdict fs rs rs' : Forall (emitted fs) rs -> sorted_keys rs -> Forall2 like rs rs' ->
  exists ks, mapO _result_sort_key rs' = Ok ks /\ bool_decide (ks = py_sorted sort_key_leb ks) = true.
Proof.
  intros Hrs [ks Hk] Hl. destruct (emitted_keys _ _ Hrs) as [ks' Hks]. exists ks'. split; [by apply Hks|].
  specialize (Hks rs (emitted_like _ _ Hrs)). apply bool_decide_eq_true. assert (ks' = py_sorted sort_key_leb ks) as ->.
  { apply mapO_Forall2 in Hk. congruence. }
  rewrite (py_sorted_id sort_key_leb (py_sorted sort_key_leb ks)); [done|]. apply py_sorted_sorted. apply _.
Qed.
End keys.

(** * Runs and logs of emitted results

    The shape validator on a run of emitted results and its rules, the log as
    it reads back, and the theorems about [normalize]. *)

(** ** The parts of a run *)

Lemma shows_plain d key v : plain (VDict d) -> shows d key v -> plain v.
Proof.
  intros [Hn Hf]%plain_dict Hs. unfold shows in Hs. apply dict_get_elem in Hs; [|done]. rewrite Forall_forall in Hf. by apply (Hf _ Hs).
Qed.

Definition params_encode (p : RunParams) : Prop :=
  encodes (p_commit_sha p) /\ encodes (p_S_version p) /\ encodes (p_env_digest p) /\ encodes (opt_text (p_precondition_status p)).

Lemma uuid_encodes u : encodes (uuid_str u).
Proof.
  unfold uuid_str, join. assert (H : Forall (fun c => 0 <= c < 128) (hex (to_bytes 16 u))).
  { eapply Forall_impl; [apply hex_ascii, to_bytes_is_byte|]. cbn. lia. }
  assert (Hd : Forall (fun c => 0 <= c < 128) [45]) by (repeat constructor; lia).
  apply encodes_ascii. rewrite !Forall_app. split_and!; try done; repeat first [apply Forall_take|apply Forall_drop]; done.
Qed.

Lemma uuid_nonempty u : is_nonempty_text (VStr (uuid_str u)) = true.
Proof. pose proof (length_uuid_str u) as L. by destruct (uuid_str u). Qed.

Lemma rule_definition_plain id : encodes id -> plain (rule_definition id).
Proof. intros H. unfold rule_definition. plain_literal; by apply plain_text. Qed.

Lemma run_properties_plain partition p : encodes partition -> params_encode p -> plain (VDict (run_properties partition p)).
Proof.
  intros Hp (E1 & E2 & E3 & E4). unfold run_properties. destruct (p_precondition_status p); plain_literal;
    first [apply plain_text; apply uuid_encodes|by apply plain_text|by apply plain_atom|apply plain_text; ascii].
Qed.

Lemma run_plain partition p ids rs : encodes partition -> params_encode p -> Forall encodes ids -> Forall plain rs ->
  plain (run_object partition p ids rs).
Proof.
  intros Hp He Hi Hr. unfold run_object. plain_literal; [|by apply run_properties_plain|by apply plain_list].
  plain_literal. plain_literal; try (apply plain_text; ascii). apply plain_list, Forall_fmap. eapply Forall_impl; [exact Hi|].
  intros id. apply rule_definition_plain.
Qed.

(** ** The validator on a run *)

Lemma run_property_shown partition p : exists d, run_properties partition p = d /\
  shows d "scanipy.partition" (VStr partition) /\ shows d "scanipy.scan_id" (VStr (uuid_str (p_scan_id p))) /\
  shows d "scanipy.snapshot_id" (VStr (uuid_str (p_snapshot_id p))) /\ shows d "scanipy.codebase_id" (VStr (uuid_str (p_codebase_id p))) /\
  shows d "scanipy.commit_sha" (VStr (p_commit_sha p)) /\ shows d "scanipy.S_version" (VStr (p_S_version p)) /\
  shows d "scanipy.env_digest" (VStr (p_env_digest p)) /\ shows d "scanipy.precondition_status" (of_opt (p_precondition_status p)) /\
  shows d "scanipy.llm_triage_flag" (VBool (p_llm_triage_flag p)) /\
  (p_precondition_status p = None -> shows d "scanipy.precondition_applicability" (VStr (str "not-applicable"))).
Proof.
  eexists. split; [reflexivity|]. unfold shows, run_properties. destruct (p_precondition_status p); split_and!; try done; vm_compute; reflexivity.
Qed.

Definition precondition_given (p : RunParams) : Prop := p_precondition_status p <> Some [].

Definition required_params (p : RunParams) : Prop := p_commit_sha p <> [] /\ p_S_version p <> [] /\ p_env_digest p <> [].

Lemma nonempty_iff s : is_nonempty_text (VStr s) = true <-> s <> [].
Proof. destruct s; cbn; split; done. Qed.

Lemma bool_atom b : ~ container (VBool b).
Proof. intros []. Qed.

Lemma run_property_verdict partition p v' w : required_params p -> like (VDict (run_properties partition p)) v' ->
  run_property_errors w v' partition = [] <-> precondition_given p.
Proof.
  intros (R1 & R2 & R3) Hl. destruct (run_property_shown partition p) as (d & Ed & S).
  rewrite Ed in Hl. apply like_dict in Hl as (d' & -> & _ & _ & G). destruct S as (S1 & S2 & S3 & S4 & S5 & S6 & S7 & S8 & S9 & S10).
  assert (Ha : forall key v, ~ container v -> shows d key v -> prop d' key = v) by (intros; apply prop_shows; by eapply (shows_atom G)).
  assert (Hs : forall key s, shows d key (VStr s) -> prop d' key = VStr s) by (intros; apply Ha; auto with scanipy).
  unfold run_property_errors. rewrite (Hs _ _ S1), equals_text_refl, (Ha _ _ (bool_atom _) S9). cbn [expect is_boolean app].
  unfold RUN_KEYS, run_key_errors. cbn [map concat].
  rewrite !(bool_decide_false (_ = "scanipy.precondition_status"%string)) by done. rewrite bool_decide_true by done. cbn [andb].
  rewrite (Hs _ _ S2), (Hs _ _ S3), (Hs _ _ S4), (Hs _ _ S5), (Hs _ _ S6), (Hs _ _ S7), (Ha _ _ (of_opt_atom _) S8).
  rewrite !uuid_nonempty, !(proj2 (nonempty_iff _)) by done. cbn [expect app].
  unfold precondition_given. destruct (p_precondition_status p) as [s|]; cbn [of_opt].
  - cbn [andb]. rewrite !app_nil_r. destruct s; cbn; split; done.
  - rewrite (Hs _ _ (S10 eq_refl)), equals_text_refl. done.
Qed.

Section runs.
Context `{PyRuntime}.

Lemma emitted_rule fs r : emitted fs r -> exists s, rule_text r = Ok s /\ encodes s /\
  forall r', like r r' -> exists d', r' = VDict d' /\ prop d' "ruleId" = VStr s.
Proof.
  intros (f & _ & _ & Hc & Hp & Hs). destruct (ck_rule_id f Hc) as (s & Es & _). exists s.
  assert (Hget : forall r', shaped f r' -> exists d', r' = VDict d' /\ shows d' "ruleId" (VStr s)).
  { intros r' (d & lv & m & loc & fps & props & -> & S1 & _). exists d. split; [done|]. by rewrite <-Es. }
  destruct (Hget r Hs) as (d & -> & Sd). split_and!.
  - unfold rule_text. by rewrite (subscript_shows _ _ _ Sd).
  - by apply plain_text, (shows_plain d "ruleId").
  - intros r' Hl. destruct (Hget r' (shaped_like _ _ _ Hc Hs Hl)) as (d' & -> & S'). exists d'. split; [done|by apply prop_shows].
Qed.

Lemma rule_ids_of fs rs : Forall (emitted fs) rs -> exists ids, mapO rule_text rs = Ok ids /\ Forall encodes ids /\
  Forall2 (fun r s => forall r', like r r' -> exists d', r' = VDict d' /\ prop d' "ruleId" = VStr s) rs ids.
Proof.
  induction 1 as [|r rs Hr _ (ids & E & He & H2)]; [exists []; by split_and!; try constructor|].
  destruct (emitted_rule fs r Hr) as (s & Es & Hs & Hl). exists (s :: ids). cbn [mapO]. rewrite Es, E. by split_and!; try constructor.
Qed.

Lemma rule_id_set_like ids v' : Forall2 like (map rule_definition ids) v' -> rule_id_set (VList v') = Ok (map VStr ids).
Proof.
  intros Hl. cbn [rule_id_set]. remember (map rule_definition ids) as l eqn:El. revert ids El.
  induction Hl as [|x y l v' Hxy _ IH]; intros ids El; [by destruct ids|]. destruct ids as [|id ids]; [done|]. cbn in El. injection El as -> ->.
  apply like_dict in Hxy as (d' & -> & _ & _ & G). cbn [List.filter is_dict mapO].
  assert (E : shows d' "id" (VStr id)) by (apply (shows_atom G); [auto with scanipy|unfold shows; reflexivity]).
  assert (Eg : get_key (VDict d') "id" = Ok (VStr id)) by (by apply get_or_shows).
  rewrite Eg. cbn [obind hashable]. by rewrite (IH ids eq_refl).
Qed.

Lemma rule_found s ids : s ∈ ids -> existsb (scalar_eqb (VStr s)) (map VStr ids) = true.
Proof.
  intros Hs. apply existsb_exists. exists (VStr s). split; [by apply in_map, list_elem_of_In|]. cbn. unfold str_eqb. by rewrite bool_decide_true.
Qed.

(** Validated findings whose [uri] is empty are the ones reported. *)
Lemma results_verdict fs i ids0 rs rs' ids k : Forall (emitted fs) rs -> Forall2 like rs rs' ->
  Forall2 (fun r s => forall r', like r r' -> exists d', r' = VDict d' /\ prop d' "ruleId" = VStr s) rs ids ->
  (forall s, s ∈ ids -> s ∈ ids0) ->
  exists es, mapO (result_errors i (map VStr ids0)) (zip (seq k (length rs')) rs') = Ok es /\
    (concat es = [] <-> forall f r, r ∈ rs -> _to_result f = Ok r -> checked f -> shaped f r -> w_uri f <> []).
Proof.
  intros Hrs. revert rs' ids k. induction Hrs as [|r rs (f & Hf & Ef & Hc & Hp & Hs) _ IH]; intros rs' ids k Hl Hi Hin.
  { inversion Hl. exists []. cbn. split; [done|]. split; [|done]. intros _ f r Hr. by apply elem_of_nil in Hr. }
  inversion Hl as [|? r' ? rs0 Hr' H0]; subst. inversion Hi as [|? s ? ids1 Hs1 Hi1]; subst.
  destruct (IH rs0 ids1 (Datatypes.S k) H0 Hi1) as (es & Ees & Hes); [intros t Ht; apply Hin; by right|].
  exists (uri_errors (at_result i k) f :: es). cbn [length seq zip zip_with mapO]. unfold result_errors at 1. cbn [fst snd].
  rewrite (result_verdict f r') by (done || by eapply shaped_like). cbn [obind]. destruct (Hs1 r' Hr') as (d' & -> & Ed).
  rewrite Ed. cbn [hashable obind]. rewrite rule_found by (apply Hin; by left). cbn [expect]. rewrite app_nil_r. rewrite Ees. cbn [obind].
  split; [done|]. cbn [concat]. unfold uri_errors at 1.
  assert (Hu : expect (is_nonempty_text (VStr (w_uri f))) (at_result i k) "artifactLocation.uri" = [] <-> w_uri f <> []).
  { rewrite <-nonempty_iff. unfold expect. by destruct (is_nonempty_text _). }
  split.
  - intros [H1%Hu H2]%app_nil g r0 Hr Er Hcg Hsg. apply elem_of_cons in Hr as [->|Hr]; [|by eapply (proj1 Hes H2 g r0)].
    destruct Hs as (? & ? & ? & ? & ? & ? & -> & _ & _ & _ & _ & _ & S6 & [(ph & art & reg & L1 & L2 & L3 & _)] & _).
    destruct Hsg as (? & ? & ? & ? & ? & ? & [= <-] & _ & _ & _ & _ & _ & S6' & [(ph' & art' & reg' & L1' & L2' & L3' & _)] & _).
    unfold shows in *. congruence.
  - intros Hall. assert (E1 : w_uri f <> []) by (apply (Hall f r); [left|done..]). apply Hu in E1. rewrite E1. cbn [app].
    apply Hes. intros g r0 Hr. apply Hall. by right.
Qed.

Definition uris (fs : list WorkerFinding) : Prop := forall f, f ∈ fs -> w_uri f <> [].

Lemma uris_shown fs l rs : Forall checked fs -> Forall encodable fs -> mapO _to_result fs = Ok l -> rs ≡ₚ l ->
  (forall f r, r ∈ rs -> _to_result f = Ok r -> checked f -> shaped f r -> w_uri f <> []) -> uris fs.
Proof.
  intros Hc He Hl Hp Hall f Hf. rewrite Forall_forall in Hc, He. destruct (to_result_shaped f (Hc f Hf) (He f Hf)) as (r & Er & _ & Hs).
  apply (Hall f r); auto. rewrite Hp. apply mapO_Forall2 in Hl. clear -Hl Hf Er.
  induction Hl as [|g r' fs l Hg _ IH]; [by apply elem_of_nil in Hf|]. apply elem_of_cons in Hf as [->|Hf]; [assert (r = r') as -> by congruence; left|right; exact (IH Hf)].
Qed.

(** What the emitter writes for a partition. *)
Record written (fs : list WorkerFinding) (partition : pystr) (p : RunParams) (rs : list pyval) (obj : pyval) : Prop := {
  wr_results : exists l, mapO _to_result fs = Ok l /\ rs ≡ₚ l;
  wr_emitted : Forall (emitted fs) rs;
  wr_sorted : sorted_keys rs;
  wr_object : exists ids, mapO rule_text rs = Ok ids /\ obj = run_object partition p (py_sorted str_leb (remove_dups ids)) rs;
  wr_plain : plain obj
}.

Lemma partition_written fs origin partition p : Forall checked (select fs origin) -> Forall encodable (select fs origin) ->
  encodes partition -> params_encode p -> exists rs obj, _sorted_results fs origin = Ok rs /\
    _build_run partition rs p = Ok obj /\ written (select fs origin) partition p rs obj.
Proof.
  intros Hc He Hp Hpe. destruct (sorted_results_spec fs origin Hc He) as (l & rs & Ers & El & Hperm & Hem & Hk).
  destruct (rule_ids_of _ rs Hem) as (ids & Eids & Hids & _). exists rs. eexists. split; [done|].
  unfold _build_run. rewrite Eids. split; [reflexivity|]. constructor; eauto. apply run_plain; try done.
  - rewrite py_sorted_perm, Forall_forall. intros x Hx. rewrite Forall_forall in Hids. by apply Hids, elem_of_remove_dups.
  - eapply Forall_impl; [exact Hem|]. by intros r (f & _ & _ & _ & Hr & _).
Qed.

Definition driver_items (ids : list pystr) : list (pystr * pyval) :=
  [(str "name", VStr TOOL_NAME); (str "version", VStr TOOL_VERSION);
   (str "informationUri", VStr TOOL_INFORMATION_URI); (str "rules", VList (map rule_definition ids))].

Lemma run_shown partition p ids rs obj' : like (run_object partition p ids rs) obj' -> exists d tool driver rules rs',
  obj' = VDict d /\ prop d "tool" = VDict tool /\ shows tool "driver" (VDict driver) /\ prop driver "name" = VStr TOOL_NAME /\
  prop driver "rules" = VList rules /\ Forall2 like (map rule_definition ids) rules /\
  (exists v, prop d "properties" = v /\ like (VDict (run_properties partition p)) v) /\
  shows d "results" (VList rs') /\ Forall2 like rs rs'.
Proof.
  unfold run_object. intros (d & -> & _ & _ & G)%like_dict.
  fold (driver_items ids) in G.
  destruct (shows_dict G "tool" [(str "driver", VDict (driver_items ids))]) as (tool & Et & Gt); [reflexivity|].
  destruct (shows_dict Gt "driver" (driver_items ids)) as (driver & Ed & Gd); [reflexivity|].
  destruct (like_get_some Gd (str "rules") (VList (map rule_definition ids))) as (v & Er & (rules & -> & Hr)%like_list); [reflexivity|].
  destruct (like_get_some G (str "properties") (VDict (run_properties partition p))) as (v & Ep & Hp); [reflexivity|].
  destruct (like_get_some G (str "results") (VList rs)) as (v' & Ers & (rs' & -> & Hrs)%like_list); [reflexivity|].
  exists d, tool, driver, rules, rs'. split_and!; try done; try (by apply prop_shows).
  - apply prop_shows. apply (shows_atom Gd); [auto with scanipy|reflexivity].
  - exists v. split; [by apply prop_shows|exact Hp].
Qed.

Lemma run_verdict fs partition p rs obj obj' i : Forall checked fs -> Forall encodable fs -> required_params p ->
  written fs partition p rs obj -> like obj obj' ->
  exists es, _validate_run_shape obj' i partition = Ok es /\ (es = [] <-> precondition_given p /\ uris fs).
Proof.
  intros Hc He Hr [(l & El & Hperm) Hem _ (ids & Eids & ->) _] Hl.
  destruct (run_shown _ _ _ _ _ Hl) as (d & tool & driver & rules & rs' & -> & Et & Ed & En & Eru & Hru & (v & Ev & Hv) & Ers & Hrs).
  destruct (rule_ids_of _ rs Hem) as (ids' & Eids' & _ & Hi). rewrite Eids in Eids'. injection Eids' as <-.
  destruct (results_verdict fs i (py_sorted str_leb (remove_dups ids)) rs rs' ids 0 Hem Hrs Hi) as (es & Ees & Hes).
  { intros s Hs. by apply py_sorted_elem, elem_of_remove_dups. }
  unfold _validate_run_shape. rewrite Et. cbn [is_dict]. rewrite (get_or_shows _ _ _ _ Ed). cbn [obind].
  rewrite Eru, (rule_id_set_like _ _ Hru). cbn [obind]. rewrite (prop_shows _ _ _ Ers), Ees. cbn [obind]. rewrite En, equals_text_refl, Ev.
  cbn [expect app]. eexists. split; [reflexivity|]. pose proof (run_property_verdict partition p v (at_run i) Hr Hv) as Hpv. split.
  - intros [H1%Hpv H2]%app_nil. split; [done|]. apply (uris_shown fs l rs); try done. by apply Hes.
  - intros [H1%Hpv H2]. apply app_nil. split; [done|]. apply Hes. intros f r Hfr Ef Hcf Hsf.
    rewrite Forall_forall in Hem. destruct (Hem r Hfr) as (g & Hg & Eg & Hcg & _ & Hsg). specialize (H2 g Hg).
    destruct Hsf as (? & ? & ? & ? & ? & ? & -> & _ & _ & _ & _ & _ & S6 & [(ph & art & reg & L1 & L2 & L3 & _)] & _).
    destruct Hsg as (? & ? & ? & ? & ? & ? & [= <-] & _ & _ & _ & _ & _ & S6' & [(ph' & art' & reg' & L1' & L2' & L3' & _)] & _).
    unfold shows in *. congruence.
Qed.

Lemma run_order_verdict fs partition p rs obj obj' : written fs partition p rs obj -> like obj obj' -> check_run_order obj' = Ok tt.
Proof.
  intros [_ Hem Hk (ids & _ & ->) _] Hl.
  destruct (run_shown _ _ _ _ _ Hl) as (d & tool & driver & rules & rs' & -> & _ & _ & _ & _ & _ & _ & Ers & Hrs).
  unfold check_run_order. rewrite (subscript_shows _ _ _ Ers). cbn [obind iterate].
  destruct (order_verdict fs rs rs' Hem Hk Hrs) as (ks & -> & E). cbn [obind]. by rewrite E.
Qed.

(** ** Logs *)

Lemma document_shown objs doc' : like (document objs) doc' -> exists d objs', doc' = VDict d /\
  prop d "$schema" = VStr SARIF_SCHEMA_URI /\ prop d "version" = VStr SARIF_VERSION /\ shows d "runs" (VList objs') /\ Forall2 like objs objs'.
Proof.
  unfold document. intros (d & -> & _ & _ & G)%like_dict.
  destruct (like_get_some G (str "runs") (VList objs)) as (v & Er & (objs' & -> & Hr)%like_list); [reflexivity|].
  exists d, objs'. split_and!; try done; apply prop_shows; apply (shows_atom G); try reflexivity; auto with scanipy.
Qed.

Lemma document_plain objs : Forall plain objs -> plain (document objs).
Proof. intros Hp. unfold document. plain_literal; [apply plain_text; ascii..|by apply plain_list]. Qed.

Lemma document_reads objs : Forall plain objs -> exists b, _canonical_serialize (document objs) = Ok b /\
  json_loads (b ++ [10]) = Ok (norm (document objs)).
Proof.
  intros Hp%document_plain. destruct (serialize_plain _ Hp) as (j & b & _ & _ & _ & Hb). exists b. split; [done|].
  apply json_loads_plain; [done|exact Hp|exact Hb].
Qed.

Lemma order_passes b objs : json_loads b = Ok (norm (document objs)) -> like (document objs) (norm (document objs)) ->
  Forall (fun obj => forall obj', like obj obj' -> check_run_order obj' = Ok tt) objs -> _assert_canonical_order b = Ok tt.
Proof.
  intros El Hl Ho. destruct (document_shown objs _ Hl) as (d & objs' & Ed & _ & _ & Er & H2). unfold _assert_canonical_order.
  rewrite El, Ed. cbn [obind]. rewrite (subscript_shows _ _ _ Er). cbn [obind iterate].
  assert (E : mapO check_run_order objs' = Ok (map (fun _ => tt) objs')); [|by rewrite E].
  clear -Ho H2. induction H2 as [|o o' objs objs' Hoo _ IH]; [done|]. apply Forall_cons in Ho as [H1 H2].
  cbn [mapO map]. by rewrite (H1 o' Hoo), (IH H2).
Qed.
End runs.

(** * What [normalize] guarantees

    When it emits a log, what its own checks can still refuse, and what the
    log holds when it is read back. *)

Lemma require_nonempty_Ok' s e t : _require_nonempty_str (VStr s) e = Ok t -> t = s /\ s <> [].
Proof. intros ([= ->] & Ht)%require_nonempty_Ok. done. Qed.

Section normalize.
Context `{PyRuntime}.

(** Both partitions, after validation. *)
Record emission (fs : list WorkerFinding) (p : RunParams) (rs0 rs1 : list pyval) (obj0 obj1 : pyval) (b b0 b1 : pybytes) : Prop := {
  em_core : _sorted_results fs CORE_ORIGIN = Ok rs0 /\ _build_run (str "core") rs0 p = Ok obj0 /\
            written (select fs CORE_ORIGIN) (str "core") p rs0 obj0;
  em_oracle : _sorted_results fs ORACLE_ORIGIN = Ok rs1 /\ _build_run (str "oracle") rs1 p = Ok obj1 /\
            written (select fs ORACLE_ORIGIN) (str "oracle") p rs1 obj1;
  em_bytes : _canonical_serialize (document [obj0; obj1]) = Ok b /\ _canonical_serialize obj0 = Ok b0 /\ _canonical_serialize obj1 = Ok b1;
  em_reads : json_loads (b ++ [10]) = Ok (norm (document [obj0; obj1]));
  em_like : like (document [obj0; obj1]) (norm (document [obj0; obj1]))
}.

Definition log_of (rs0 rs1 : list pyval) (b b0 b1 : pybytes) : SARIFLog :=
  mkLog (mkRun (str "core") b0 (hexdigest b0) (length rs0), mkRun (str "oracle") b1 (hexdigest b1) (length rs1))
        (b ++ [10]) (hexdigest (b ++ [10])).

Lemma select_forall (P : WorkerFinding -> Prop) fs origin : Forall P fs -> Forall P (select fs origin).
Proof. rewrite !Forall_forall. intros HP f Hf. apply HP. apply list_elem_of_In, filter_In in Hf as [Hf _]. by apply list_elem_of_In. Qed.

Lemma elem_of_select fs origin f : f ∈ select fs origin <-> f ∈ fs /\ w_origin f = VStr origin.
Proof.
  unfold select. rewrite list_elem_of_In, filter_In, <-list_elem_of_In. f_equiv. destruct (w_origin f); cbn; try (split; done).
  unfold str_eqb. rewrite bool_decide_eq_true. split; [by intros ->|by intros [= ->]].
Qed.

Lemma emission_exists fs p : Forall encodable fs -> params_encode p -> Forall checked (select fs CORE_ORIGIN) -> Forall checked (select fs ORACLE_ORIGIN) ->
  exists rs0 rs1 obj0 obj1 b b0 b1, emission fs p rs0 rs1 obj0 obj1 b b0 b1.
Proof.
  intros He Hp C0 C1.
  destruct (partition_written fs CORE_ORIGIN (str "core") p C0 (select_forall _ _ _ He) ltac:(ascii) Hp) as (rs0 & obj0 & E0 & B0 & W0).
  destruct (partition_written fs ORACLE_ORIGIN (str "oracle") p C1 (select_forall _ _ _ He) ltac:(ascii) Hp) as (rs1 & obj1 & E1 & B1 & W1).
  pose proof (wr_plain _ _ _ _ _ W0) as P0. pose proof (wr_plain _ _ _ _ _ W1) as P1.
  assert (Hpl : Forall plain [obj0; obj1]) by (by repeat constructor).
  destruct (document_reads _ Hpl) as (b & Eb & Er). destruct (serialize_plain _ P0) as (_ & b0 & _ & _ & _ & Eb0).
  destruct (serialize_plain _ P1) as (_ & b1 & _ & _ & _ & Eb1). exists rs0, rs1, obj0, obj1, b, b0, b1.
  constructor; try done. by apply like_norm, document_plain.
Qed.

Lemma emission_order fs p rs0 rs1 obj0 obj1 b b0 b1 : emission fs p rs0 rs1 obj0 obj1 b b0 b1 -> _assert_canonical_order (b ++ [10]) = Ok tt.
Proof.
  intros [(_ & _ & W0) (_ & _ & W1) _ Er Hl]. apply (order_passes _ [obj0; obj1]); [done..|].
  rewrite !Forall_cons, Forall_nil. split_and!; [..|done]; intros obj' Ho; (eapply run_order_verdict; [|exact Ho]); eassumption.
Qed.

Lemma emission_shape fs p rs0 rs1 obj0 obj1 b b0 b1 : Forall encodable fs -> required_params p ->
  Forall checked (select fs CORE_ORIGIN) -> Forall checked (select fs ORACLE_ORIGIN) -> emission fs p rs0 rs1 obj0 obj1 b b0 b1 ->
  exists es, validate_sarif_210 (b ++ [10]) = Ok es /\
    (es = [] <-> precondition_given p /\ uris (select fs CORE_ORIGIN) /\ uris (select fs ORACLE_ORIGIN)).
Proof.
  intros He Hr C0 C1 [(_ & _ & W0) (_ & _ & W1) _ Er Hl]. unfold validate_sarif_210. rewrite Er.
  destruct (document_shown _ _ Hl) as (d & objs' & -> & Es & Ev & Eo & H2).
  inversion H2 as [|? o0 ? k L0 H3]; subst. inversion H3 as [|? o1 ? k' L1 H4]; subst. inversion H4; subst.
  rewrite Es, Ev, (prop_shows _ _ _ Eo), !equals_text_refl.
  destruct (run_verdict _ _ p rs0 obj0 o0 0 C0 (select_forall _ _ _ He) Hr W0 L0) as (e0 & -> & H0).
  destruct (run_verdict _ _ p rs1 obj1 o1 1 C1 (select_forall _ _ _ He) Hr W1 L1) as (e1 & -> & H1).
  cbn [obind expect app]. eexists. split; [reflexivity|]. split.
  - intros [E0%H0 E1%H1]%app_nil. tauto.
  - intros (A & B & C). apply app_nil. split; [by apply H0|by apply H1].
Qed.

Definition emittable (fs : list WorkerFinding) (p : RunParams) : Prop :=
  precondition_given p /\ uris (select fs CORE_ORIGIN) /\ uris (select fs ORACLE_ORIGIN).

Lemma required_some p : required_params p -> _require_nonempty_str (VStr (p_commit_sha p)) INV2 = Ok (p_commit_sha p) /\
  _require_nonempty_str (VStr (p_S_version p)) INV2 = Ok (p_S_version p) /\
  _require_nonempty_str (VStr (p_env_digest p)) INV2 = Ok (p_env_digest p).
Proof. intros (? & ? & ?). by split_and!; apply require_nonempty_Ok. Qed.

Lemma normalize_validated fs p : Forall encodable fs -> params_encode p -> required_params p ->
  Forall checked (select fs CORE_ORIGIN) -> Forall checked (select fs ORACLE_ORIGIN) ->
  exists rs0 rs1 obj0 obj1 b b0 b1, emission fs p rs0 rs1 obj0 obj1 b b0 b1 /\
    (emittable fs p /\ normalize fs p = Ok (log_of rs0 rs1 b b0 b1) \/
     ~ emittable fs p /\ normalize fs p = Raise SARIFSchemaViolation).
Proof.
  intros He Hp Hr C0 C1. destruct (emission_exists fs p He Hp C0 C1) as (rs0 & rs1 & obj0 & obj1 & b & b0 & b1 & Em).
  exists rs0, rs1, obj0, obj1, b, b0, b1. split; [done|]. destruct (emission_shape _ _ _ _ _ _ _ _ _ He Hr C0 C1 Em) as (es & Ees & Hes).
  pose proof (emission_order _ _ _ _ _ _ _ _ _ Em) as Eord. destruct (required_some p Hr) as (R1 & R2 & R3).
  destruct Em as [(E0 & B0 & _) (E1 & B1 & _) (S & S0 & S1) _ _]. unfold normalize.
  rewrite R1, R2, R3. cbn [obind]. rewrite E0, E1. cbn [obind]. rewrite B0, B1. cbn [obind]. rewrite S. cbn [obind].
  rewrite Ees. cbn [obind]. unfold emittable. rewrite <-Hes. destruct es as [|e es].
  - left. split; [done|]. cbn [obind]. rewrite Eord. cbn [obind]. rewrite S0, S1. reflexivity.
  - right. done.
Qed.

Lemma normalize_inv fs p log : normalize fs p = Ok log ->
  required_params p /\ Forall checked (select fs CORE_ORIGIN) /\ Forall checked (select fs ORACLE_ORIGIN).
Proof.
  unfold normalize. intros (c & (_ & R1)%require_nonempty_Ok' & E)%obind_Ok.
  apply obind_Ok in E as (s & (_ & R2)%require_nonempty_Ok' & E). apply obind_Ok in E as (d & (_ & R3)%require_nonempty_Ok' & E).
  apply obind_Ok in E as (rs0 & E0 & E). apply obind_Ok in E as (rs1 & E1 & _).
  unfold _sorted_results in E0, E1. apply obind_Ok in E0 as (u0 & V0 & _), E1 as (u1 & V1 & _).
  split; [done|]. split; by eapply validated_some.
Qed.

(** Validated findings of both partitions. *)
Definition validated (fs : list WorkerFinding) : Prop :=
  forall f, f ∈ fs -> w_origin f = VStr CORE_ORIGIN \/ w_origin f = VStr ORACLE_ORIGIN -> _validate_finding f = Ok tt.

Lemma validated_iff fs : validated fs <-> Forall checked (select fs CORE_ORIGIN) /\ Forall checked (select fs ORACLE_ORIGIN).
Proof.
  unfold validated. rewrite !Forall_forall. setoid_rewrite elem_of_select. setoid_rewrite finding_validates. naive_solver.
Qed.




(** ** The split files *)

Lemma one_file_validated fs p partition origin : Forall encodable fs -> params_encode p -> required_params p -> encodes partition ->
  Forall checked (select fs origin) ->
  (precondition_given p /\ uris (select fs origin) -> exists run, _one_file fs p partition origin partition = Ok run) /\
  (~ (precondition_given p /\ uris (select fs origin)) -> _one_file fs p partition origin partition = Raise SARIFSchemaViolation).
Proof.
  intros He Hp Hr Hpt Hc.
  destruct (partition_written fs origin partition p Hc (select_forall _ _ _ He) Hpt Hp) as (rs & obj & E & B & W).
  pose proof (wr_plain _ _ _ _ _ W) as P. assert (Hpl : Forall plain [obj]) by (by repeat constructor).
  destruct (document_reads _ Hpl) as (b & Eb & Er).
  assert (Ho : _assert_canonical_order (b ++ [10]) = Ok tt).
  { apply (order_passes _ [obj]); [done|by apply like_norm, document_plain|]. rewrite Forall_singleton. intros obj' Hl.
    by eapply run_order_verdict. }
  destruct (run_verdict _ _ p rs obj obj 0 Hc (select_forall _ _ _ He) Hr W (like_refl _ P)) as (es & Ees & Hes).
  unfold _one_file. rewrite E. cbn [obind]. rewrite B. cbn [obind]. rewrite Eb. cbn [obind]. rewrite Ho. cbn [obind]. rewrite Ees. cbn [obind].
  rewrite <-Hes. destruct es; split; try done. by eexists.
Qed.

(** The split emitter accepts the same findings, once the run parameters it
    does not check itself are present. *)
Lemma normalize_split_exact fs p : Forall encodable fs -> params_encode p -> required_params p -> validated fs ->
  (exists runs, normalize_split fs p = Ok runs) <-> emittable fs p.
Proof.
  intros He Hp Hr [C0 C1]%validated_iff.
  destruct (one_file_validated fs p (str "core") CORE_ORIGIN He Hp Hr ltac:(ascii) C0) as [A0 N0].
  destruct (one_file_validated fs p (str "oracle") ORACLE_ORIGIN He Hp Hr ltac:(ascii) C1) as [A1 N1].
  unfold normalize_split, emittable. split.
  - intros (runs & (r0 & E0 & (r1 & E1 & _)%obind_Ok)%obind_Ok).
    destruct (decide (p_precondition_status p = Some [])) as [Epc|Hpc].
    { rewrite N0 in E0; [done|]. intros [Hn _]. by apply Hn. }
    assert (H2 : forall origin file, (~ (precondition_given p /\ uris (select fs origin)) -> file = Raise SARIFSchemaViolation) ->
      (exists r : SARIFRun, file = Ok r) -> uris (select fs origin)).
    { intros origin file Hn (r & Er) f Hf Eu. rewrite Hn in Er; [done|]. intros [_ Hu]. by apply (Hu f Hf). }
    split_and!; [exact Hpc|exact (H2 _ _ N0 (ex_intro _ r0 E0))|exact (H2 _ _ N1 (ex_intro _ r1 E1))].
  - intros (Hpc & U0 & U1). destruct (A0 (conj Hpc U0)) as [r0 ->], (A1 (conj Hpc U1)) as [r1 ->]. by eexists.
Qed.

(** The results of each run of a parsed log. *)
Definition read_results (doc : pyval) : outcome (list (list pyval)) :=
  runs ⇐ subscript doc "runs";
  rs ⇐ iterate runs;
  mapO (fun run => results ⇐ subscript run "results"; iterate results) rs.

(** A list of the partition's projections, as read back, in canonical order. *)
Definition holds_partition (fs : list WorkerFinding) (origin : pystr) (results : list pyval) : Prop :=
  exists l ks, mapO _to_result (select fs origin) = Ok l /\ results ≡ₚ map norm l /\
    mapO _result_sort_key results = Ok ks /\ StronglySorted (fun a b => sort_key_leb a b = true) ks.

Lemma written_reads fs origin partition p rs obj : written (select fs origin) partition p rs obj ->
  (results ⇐ subscript (norm obj) "results"; iterate results) = Ok (map norm rs) /\ holds_partition fs origin (map norm rs).
Proof.
  intros [(l & El & Hp) Hem [ks Hk] (ids & _ & ->) Hpl]. split.
  - assert (Hget : dict_get (py_sorted value_key_leb (map (fun kv => (kv.1, norm kv.2))
        [(str "tool", VDict [(str "driver", VDict (driver_items (py_sorted str_leb (remove_dups ids))))]);
         (str "properties", VDict (run_properties partition p)); (str "results", VList rs)])) (str "results") = Some (VList (map norm rs))).
    { rewrite dict_get_norm; [reflexivity|]. by apply plain_dict in Hpl as [Hnd _]. }
    unfold run_object. cbn [norm]. fold (driver_items (py_sorted str_leb (remove_dups ids))). unfold subscript. by rewrite Hget.
  - destruct (emitted_keys _ _ Hem) as [ks' Hks]. exists l, ks'. split_and!; [done|by rewrite Hp| |].
    + apply Hks. clear -Hem. induction Hem as [|r rs (f & _ & _ & _ & Hr & _) _ IH]; constructor; [by apply like_norm|done].
    + specialize (Hks rs (emitted_like _ _ Hem)). apply mapO_Forall2 in Hk. assert (ks' = py_sorted sort_key_leb ks) as -> by congruence.
      apply py_sorted_sorted. apply _.
Qed.

(** The log is a faithful two-run record.  Read back, it has two runs:
    the first holds exactly the projections of the deterministic-core findings
    and the second those of the oracle findings, each in canonical order; the
    counts and the three digests are those of the bytes. *)
Theorem normalize_roundtrip fs p log : Forall encodable fs -> params_encode p -> normalize fs p = Ok log ->
  exists doc core oracle, json_loads (log_bytes log) = Ok doc /\ read_results doc = Ok [core; oracle] /\
    holds_partition fs CORE_ORIGIN core /\ holds_partition fs ORACLE_ORIGIN oracle /\
    result_count (log_runs log).1 = length core /\ result_count (log_runs log).2 = length oracle /\
    log_hash log = hexdigest (log_bytes log) /\ run_hash (log_runs log).1 = hexdigest (run_bytes (log_runs log).1) /\
    run_hash (log_runs log).2 = hexdigest (run_bytes (log_runs log).2).
Proof.
  intros He Hp E. destruct (normalize_inv _ _ _ E) as (Hr & C0 & C1).
  destruct (normalize_validated fs p He Hp Hr C0 C1) as (rs0 & rs1 & obj0 & obj1 & b & b0 & b1 & Em & [[_ E']|[_ E']]); [|congruence].
  assert (log = log_of rs0 rs1 b b0 b1) as -> by congruence. destruct Em as [(_ & _ & W0) (_ & _ & W1) _ Er _].
  exists (norm (document [obj0; obj1])), (map norm rs0), (map norm rs1).
  destruct (written_reads _ _ _ _ _ _ W0) as [R0 H0]. destruct (written_reads _ _ _ _ _ _ W1) as [R1 H1].
  split_and!; try done; try (cbn; by rewrite length_map).
  assert (Hget : dict_get (py_sorted value_key_leb (map (fun kv => (kv.1, norm kv.2))
      [(str "$schema", VStr SARIF_SCHEMA_URI); (str "version", VStr SARIF_VERSION); (str "runs", VList [obj0; obj1])])) (str "runs") =
      Some (VList [norm obj0; norm obj1])).
  { rewrite dict_get_norm; [reflexivity|fresh_key]. }
  unfold read_results, document. cbn [norm]. unfold subscript at 1. rewrite Hget. cbn [obind iterate mapO]. rewrite R0, R1. done.
Qed.
End normalize.
