(* ===== verification/SarifSamples.v ===== *)
(** * Sample logs

    Two findings of both schema versions and partitions, witnesses of the
    theorems about the emitter, and what happens to a finding whose origin is
    not one of the two. *)
From stdpp Require Import base tactics list gmap strings sorting.
From Stdlib Require Import ZArith Lia.
From S2P Require Import Prelude PyData PyDict Sha256 Ordering Json PyText Identity JsonParse JsonSpec BoundRules Sarif SarifJson SarifSpec SarifEmit SarifLog.

Open Scope Z_scope.

(** A finding of another origin is dropped without being validated. *)
Lemma unknown_origin_dropped `{PyRuntime} f fs p : w_origin f <> VStr CORE_ORIGIN -> w_origin f <> VStr ORACLE_ORIGIN ->
  normalize (f :: fs) p = normalize fs p.
Proof.
  intros H0 H1. assert (E : forall origin, w_origin f <> VStr origin -> _sorted_results (f :: fs) origin = _sorted_results fs origin).
  { intros origin Hne. unfold _sorted_results. cbn [List.filter].
    assert (En : equals_text (w_origin f) origin = false); [|by rewrite En].
    destruct (w_origin f); try done. cbn. unfold str_eqb. apply bool_decide_eq_false. congruence. }
  unfold normalize. by rewrite !E.
Qed.

#[local] Instance sample_runtime : PyRuntime := {|
  str_of_container := fun _ => str "...";
  int_of_text := fun _ => Raise TypeError;
  decode_wide := fun _ => Raise (ValueError "UnicodeDecodeError");
  parse_float := fun _ => Raise TypeError;
  parse_constant := fun _ => Raise TypeError
|}.

Definition text (s : string) : pyval := VStr (str s).

Definition sample_core : WorkerFinding := mkWorkerFinding
  (VStr CORE_ORIGIN) (VStr CORE_ORIGIN) (text "ifds") (text "1.2.0") (text "sha256:00") (text "strong")
  (VStr sample_digest) (VStr sample_digest) (text "closed-world") (text "sqli") (str "taint reaches sink") (str "a.py")
  (VInt 3) (VInt 1) (VInt 3) (VInt 9) (text "high") (text "injection") (text "open") None (Some (str "spec")) None
  (Some (VInt 2)) (Some (text "strong")) (Some (text "strong")) (Some (VStr COMPLETED)) (Some (VStr COMPLETED))
  (Some (VStr GRAPH_V2)) (Some (VStr SLICE_V2)).

Definition sample_oracle : WorkerFinding := mkWorkerFinding
  (VStr ORACLE_ORIGIN) (VStr ORACLE_ORIGIN) (text "semgrep") (text "1.2.0") (text "sha256:00") (text "weak")
  (text "c0") (text "f0") (text "degraded") (text "xss") [8220; 120; 8221] (str "b.py")
  (VInt 7) (VInt 1) (VInt 7) (VInt 2) (text "low") (text "xss") (text "open") None None (Some (str "ab12"))
  None None None None None None None.

Definition sample_oracle_2 : WorkerFinding := mkWorkerFinding
  (VStr ORACLE_ORIGIN) (VStr ORACLE_ORIGIN) (text "semgrep") (text "1.2.0") (text "sha256:00") (text "weak")
  (text "c0") (text "f0") (text "degraded") (text "xss") (str "x") (str "b.py")
  (VInt 7) (VInt 1) (VInt 7) (VInt 2) (text "low") (text "xss") (text "open") None None None
  None None None None None None None.

Definition sample_params : RunParams :=
  mkParams 1 2 3 (str "abc") (str "1.2.0") (str "sha256:00") None false.

Definition sample_set : list WorkerFinding := [sample_core; sample_oracle; sample_oracle_2].

Lemma sample_encodable : Forall encodable sample_set /\ params_encode sample_params.
Proof.
  split.
  - repeat constructor; try (by eexists); ascii.
  - split_and!; ascii.
Qed.

(** The one evaluation the witnesses share. *)
Definition counts (o : outcome SARIFLog) : option (nat * nat) :=
  match o with Ok log => Some (result_count (log_runs log).1, result_count (log_runs log).2) | Raise _ => None end.

Lemma sample_counts : counts (normalize sample_set sample_params) = Some (1%nat, 2%nat).
Proof. vm_compute. reflexivity. Qed.

Lemma sample_log : exists log, normalize sample_set sample_params = Ok log /\
  result_count (log_runs log).1 = 1%nat /\ result_count (log_runs log).2 = 2%nat.
Proof.
  pose proof sample_counts as E. unfold counts in E. destruct (normalize sample_set sample_params) as [log|]; [|discriminate].
  injection E as E1 E2. by exists log.
Qed.

Lemma normalize_order_independent_witness : exists log, sample_set ≡ₚ rev sample_set /\
  normalize sample_set sample_params = Ok log /\ normalize (rev sample_set) sample_params = Ok log.
Proof.
  destruct sample_log as (log & E & _).
  exists log. assert (Hp : sample_set ≡ₚ rev sample_set) by (symmetry; apply Permutation_rev).
  split; [exact Hp|]. split; [exact E|]. exact (proj1 (normalize_order_independent sample_set (rev sample_set) sample_params log Hp) E).
Defined.



Lemma normalize_roundtrip_witness : exists log doc core oracle, normalize sample_set sample_params = Ok log /\
  json_loads (log_bytes log) = Ok doc /\ read_results doc = Ok [core; oracle] /\ length core = 1%nat /\ length oracle = 2%nat /\
  holds_partition sample_set CORE_ORIGIN core.
Proof.
  destruct sample_log as (log & E & N1 & N2). destruct sample_encodable as [He Hp].
  destruct (normalize_roundtrip sample_set sample_params log He Hp E) as (doc & core & oracle & E1 & E2 & H3 & _ & L1 & L2 & _).
  exists log, doc, core, oracle. split; [exact E|]. split; [exact E1|]. split; [exact E2|].
  split; [congruence|]. split; [congruence|exact H3].
Defined.

(** An order of emission: both oracle findings tie on the four documented keys. *)
Example sample_tie : exists a b, _to_result sample_oracle = Ok a /\ _to_result sample_oracle_2 = Ok b /\
  sort_results [a; b] = Ok [b; a] /\ sort_results [b; a] = Ok [b; a].
Proof. eexists _, _. split; [vm_compute; reflexivity|]. split; [vm_compute; reflexivity|]. split; vm_compute; reflexivity. Qed.

(** A finding without an origin disappears from the log. *)
Example blank_origin_lost : exists log, normalize [mkWorkerFinding
  (text "") (VStr ORACLE_ORIGIN) (text "semgrep") (text "1.2.0") (text "sha256:00") (text "weak")
  (text "c0") (text "f0") (text "degraded") (text "xss") (str "x") (str "b.py")
  (VInt 7) (VInt 1) (VInt 7) (VInt 2) (text "low") (text "xss") (text "open") None None None
  None None None None None None None] sample_params = Ok log /\ result_count (log_runs log).1 = 0%nat /\ result_count (log_runs log).2 = 0%nat.
Proof. eexists. split; [vm_compute; reflexivity|]. split; reflexivity. Qed.
