(* ===== verification/Worker.v ===== *)
(** * The detector worker ([services/scan/worker.py])

    One job: the detector is dispatched on its engine, the findings are
    stamped with their origin and the provenance of the job, and projected on
    a SARIF log.

    A worker [Finding] is a mutable object: findings live in a heap and are
    passed by reference, because the worker writes to the objects an oracle
    adapter hands it, and the set it returns holds objects, not values.  The
    ports of the source (solver, oracle adapter, fallback fingerprinter) are
    function types; its default ports are definitions.  The readings of time
    are inputs: one clock per timed computation, two instants around the
    detector. *)
From stdpp Require Import base tactics list gmap strings.
From Stdlib Require Import ZArith QArith Lia.
From S2P Require Import Prelude PyData PyDict Sha256 Budget Cpg Ordering Dsl Supergraph Solver Fingerprint Json PyText Identity JsonParse BoundRules ScanApi Sarif.

Open Scope Z_scope.
Open Scope py_scope.

Definition CORE_ENGINES : list pystr := map str ["ifds"; "ide"]%string.
Definition ORACLE_ENGINES : list pystr := map str ["semgrep"; "cpg-query"; "external"]%string.
Definition _ALL_ENGINES : list pystr := CORE_ENGINES ++ ORACLE_ENGINES.

Definition INVARIANT : exc := InvariantViolation "".

(** ** Data *)

(** The detection content of a finding. *)
Record Detection := mkDetection {
  rule_id : pystr;
  message : pystr;
  uri : pystr;
  start_line : Z;
  start_col : Z;
  end_line : Z;
  end_col : Z;
  severity : pystr;
  f_class_ : pystr;
  status : pystr;
  precondition_status : pystr;
  f_engine : pystr
}.

(** The provenance the worker threads. *)
Record Threaded := mkThreaded {
  f_origin : pystr;
  determinism_partition : pystr;
  f_S_version : pystr;
  f_env_digest : pystr;
  f_cpg_order_hash : pystr;
  cpg_order_hash_annotation : pystr;
  f_fingerprint_class : pystr;
  identity_schema_version : Z;
  cpg_order_class : option pystr;
  cpg_order_status : pystr;
  cpg_order_namespace : option pystr
}.

(** The slice identity. *)
Record Sliced := mkSliced {
  f_slice_fingerprint : pystr;
  slice_fingerprint_class : option pystr;
  slice_status : pystr;
  f_slice_namespace : option pystr
}.

Record Finding := mkFinding {
  detection : Detection;
  from_core_engine : option bool;
  threaded : Threaded;
  sliced : Sliced;
  witness_blob_uri : option pystr;
  spec_provenance : option pystr
}.

#[export] Instance Detection_eq_dec : EqDecision Detection.
Proof. solve_decision. Defined.
#[export] Instance Threaded_eq_dec : EqDecision Threaded.
Proof. solve_decision. Defined.
#[export] Instance Sliced_eq_dec : EqDecision Sliced.
Proof. solve_decision. Defined.
#[export] Instance Finding_eq_dec : EqDecision Finding.
Proof. solve_decision. Defined.

(** The defaults of the dataclass. *)
Definition unthreaded : Threaded :=
  mkThreaded CORE_ORIGIN CORE_ORIGIN [] [] [] CPG_ORDER_HASH_ANNOTATION [] 1 None LEGACY None.

(** The finding as the emitter reads it; it has no [oracle_fingerprint]. *)
Definition of_optional (o : option pystr) : pyval := match o with Some s => VStr s | None => VNone end.

Definition as_worker_finding (f : Finding) : WorkerFinding :=
  let d := detection f in let t := threaded f in let s := sliced f in
  mkWorkerFinding (VStr (f_origin t)) (VStr (determinism_partition t)) (VStr (f_engine d)) (VStr (f_S_version t))
    (VStr (f_env_digest t)) (VStr (f_fingerprint_class t)) (VStr (f_cpg_order_hash t)) (VStr (f_slice_fingerprint s))
    (VStr (precondition_status d)) (VStr (rule_id d)) (message d) (uri d) (VInt (start_line d)) (VInt (start_col d))
    (VInt (end_line d)) (VInt (end_col d)) (VStr (severity d)) (VStr (f_class_ d)) (VStr (status d))
    (witness_blob_uri f) (spec_provenance f) None (Some (VInt (identity_schema_version t)))
    (Some (of_optional (cpg_order_class t))) (Some (of_optional (slice_fingerprint_class s)))
    (Some (VStr (cpg_order_status t))) (Some (VStr (slice_status s))) (Some (of_optional (cpg_order_namespace t)))
    (Some (of_optional (f_slice_namespace s))).

(** [DetectorLike] *)
Record DetectorLike := mkDetector {
  d_id : pystr;
  d_engine : pystr;
  severity_default : pystr;
  is_mixed : bool;
  d_spec : option Spec
}.

(** The completion metric: the outcome, the attributes of the counter
    ([detector_id], [engine], [env_digest]) and the duration in ms. *)
Record Metric := mkMetric {
  succeeded : bool;
  m_detector_id : pystr;
  m_engine : pystr;
  m_env_digest : pystr;
  duration_ms : Q
}.

(** The objects, by reference, and the metrics emitted so far. *)
Record Store := mkStore { heap : list Finding; metrics : list Metric }.

Definition Worker (A : Type) : Type := St Store A.
Definition ref := nat.

Definition load (r : ref) : Worker Finding := fun s =>
  match heap s !! r with Some f => (Ok f, s) | None => (Raise AttributeError, s) end.
Definition store (r : ref) (f : Finding) : Worker unit := sput (fun s => mkStore (<[r := f]> (heap s)) (metrics s)).
Definition alloc (f : Finding) : Worker ref := fun s => (Ok (length (heap s)), mkStore (heap s ++ [f]) (metrics s)).

Section Worker.
Context {Overrides : Type}.
Notation Job := (WorkerJob Overrides).

(** ** Ports *)

(** The findings of a solver result, in the order the set is iterated. *)
Definition CoreSolver : Type := CPG -> Spec -> pystr -> pybytes -> outcome (list Solver.Finding).
(** An adapter returns references to findings; it may touch any object. *)
Definition OracleAdapter : Type := DetectorLike -> CPG -> Job -> Worker (list ref).
Definition SliceFingerprinter : Type := Z * Z * Z * Z -> outcome pystr.

Definition fail_closed_oracle_adapter : OracleAdapter := fun _ _ _ => sraise NotImplementedError.
Definition fail_closed_slice_fingerprinter : SliceFingerprinter := fun _ => Raise NotImplementedError.

(** [default_core_solver]; [set_order] is the order in which the set of
    findings is iterated. *)
Definition default_core_solver (set_order : list Solver.Finding -> list Solver.Finding) (c : clock) : CoreSolver :=
  fun g spec sv env => result ⇐ solve g spec sv env c; Ok (set_order (findings result)).

(** ** The versioned parameters of a job *)

Definition _SHA256_PREFIX : pystr := str "sha256:".

Definition has_prefix (s prefix : pystr) : bool := str_eqb (take (length prefix) s) prefix.

Definition _require_versioned_params (job : Job) : outcome unit :=
  if bool_decide (wj_S_version job = []) then Raise INVARIANT
  else
    let env := wj_env_digest job in
    if bool_decide (env = []) || negb (has_prefix env _SHA256_PREFIX) || negb (len env =? len _SHA256_PREFIX + 64)
    then Raise INVARIANT
    else if forallb Identity.is_lower_hex (drop (length _SHA256_PREFIX) env) then Ok tt else Raise INVARIANT.

Definition _env_digest_bytes (job : Job) : outcome pybytes := fromhex (drop (length _SHA256_PREFIX) (wj_env_digest job)).

(** ** The origin setter *)

Definition set_origin (o : pystr) (f : Finding) : Finding :=
  let t := threaded f in
  mkFinding (detection f) (from_core_engine f)
    (mkThreaded o o (f_S_version t) (f_env_digest t) (f_cpg_order_hash t) (cpg_order_hash_annotation t)
       (f_fingerprint_class t) (identity_schema_version t) (cpg_order_class t) (cpg_order_status t) (cpg_order_namespace t))
    (sliced f) (witness_blob_uri f) (spec_provenance f).

(** The origin a detector gives a finding. *)
Definition origin_for (detector : DetectorLike) (f : Finding) : outcome pystr :=
  if is_mixed detector then
    match from_core_engine f with
    | None => Raise INVARIANT
    | Some core => Ok (if core then CORE_ORIGIN else ORACLE_ORIGIN)
    end
  else Ok (if bool_decide (d_engine detector ∈ CORE_ENGINES) then CORE_ORIGIN else ORACLE_ORIGIN).

Definition _stamp_origin (r : ref) (detector : DetectorLike) : Worker unit :=
  if bool_decide (d_engine detector ∉ _ALL_ENGINES) then sraise INVARIANT
  else
    (f ⟸ load r;
     o ⟸ slift (origin_for detector f);
     store r (set_origin o f) ⨟
     if bool_decide (o ∈ _ORIGINS) then sret tt else sraise INVARIANT).

(** ** Dispatch *)

Definition _physical_location (node_id : Z) : pystr * Z * Z * Z * Z :=
  let line := node_id + 1 in (str "cpg://node/" ++ str_of_int node_id, line, 1, line, 1).

Definition _coerce_severity (value : pystr) : outcome pystr :=
  if bool_decide (value ∈ _SEVERITIES) then Ok value else Raise INVARIANT.

(** The finding of the worker for a finding of the solver. *)
Definition core_finding (job : Job) (spec : Spec) (engine severity : pystr) (sf : Solver.Finding)
    (slice : SliceFingerprintResult) : Finding :=
  let '(u, sl, sc, el, ec) := _physical_location (sink sf) in
  mkFinding
    (mkDetection (finding_spec_id sf) (str "taint reaches sink (spec " ++ finding_spec_id sf ++ str ")") u sl sc el ec
       severity (class_ spec) (str "open") (wj_precondition_status _ job) engine)
    None
    (mkThreaded CORE_ORIGIN CORE_ORIGIN [] [] [] CPG_ORDER_HASH_ANNOTATION [] 2 None LEGACY None)
    (mkSliced (hex (slice_fingerprint slice)) (Some (class_name (slice_class slice))) COMPLETED (Some (slice_namespace slice)))
    None None.

Definition _findings_from_core (detector : DetectorLike) (g : CPG) (job : Job) (solver : CoreSolver) (clocks : nat -> clock) :
    Worker (list ref) :=
  match d_spec detector with
  | None => sraise INVARIANT
  | Some spec =>
      env ⟸ slift (_env_digest_bytes job);
      found ⟸ slift (solver g spec (wj_S_version job) env);
      let engine := if str_eqb (d_engine detector) (str "ifds") then str "ifds" else str "ide" in
      severity ⟸ slift (_coerce_severity (severity_default detector));
      smap (fun isf : nat * Solver.Finding =>
              slice ⟸ slift (compute_slice_fingerprint g (witness isf.2) DEFAULT_B DEFAULT_T (clocks isf.1));
              alloc (core_finding job spec engine severity isf.2 slice))
        (imap pair found)
  end.

(** ** [run_detector] *)

Definition _witness_of (f : Finding) : Z * Z * Z * Z :=
  let d := detection f in (start_line d, start_col d, end_line d, end_col d).

(** The assignments of the loop, after the origin. *)
Definition thread (job : Job) (order : CanonicalOrderResult) (f : Finding) : Finding :=
  let t := threaded f in
  mkFinding (detection f) (from_core_engine f)
    (mkThreaded (f_origin t) (determinism_partition t) (wj_S_version job) (wj_env_digest job) (hex (cpg_order_hash order))
       CPG_ORDER_HASH_ANNOTATION (class_name (fingerprint_class order)) 2 (Some (class_name (fingerprint_class order)))
       COMPLETED (Some (identity_namespace order)))
    (sliced f) (witness_blob_uri f) (spec_provenance f).

Definition set_slice_fingerprint (fp : pystr) (f : Finding) : Finding :=
  let s := sliced f in
  mkFinding (detection f) (from_core_engine f) (threaded f)
    (mkSliced fp (slice_fingerprint_class s) (slice_status s) (f_slice_namespace s)) (witness_blob_uri f) (spec_provenance f).

(** One turn of the loop; [out] is the set so far, in insertion order. *)
Definition stamp (detector : DetectorLike) (job : Job) (order : CanonicalOrderResult) (slice_fp : SliceFingerprinter)
    (out : list ref) (r : ref) : Worker (list ref) :=
  _stamp_origin r detector ⨟
  f ⟸ load r;
  let f := thread job order f in
  store r f ⨟
  (if bool_decide (f_slice_fingerprint (sliced f) = []) then
     fp ⟸ slift (slice_fp (_witness_of f)); store r (set_slice_fingerprint fp f)
   else sret tt) ⨟
  sret (if bool_decide (r ∈ out) then out else out ++ [r]).

Definition or_default {A} (port : option A) (default : A) : A := match port with Some p => p | None => default end.

(** [order_clock] is the clock of the call of [canonical_order], [clocks] those
    of the slices. *)
Definition _run_detector_unmetered (detector : DetectorLike) (g : CPG) (job : Job) (default_solver : CoreSolver)
    (solver : option CoreSolver) (oracle_adapter : option OracleAdapter) (slice_fingerprinter : option SliceFingerprinter)
    (order_clock : clock) (clocks : nat -> clock) : Worker (list ref) :=
  slift (_require_versioned_params job) ⨟
  if bool_decide (d_engine detector ∉ _ALL_ENGINES) then sraise INVARIANT
  else
    (let solver := or_default solver default_solver in
     let oracle_adapter := or_default oracle_adapter fail_closed_oracle_adapter in
     let slice_fp := or_default slice_fingerprinter fail_closed_slice_fingerprinter in
     order ⟸ slift (canonical_order g DEFAULT_B DEFAULT_T order_clock);
     raw ⟸ (if bool_decide (d_engine detector ∈ CORE_ENGINES) then _findings_from_core detector g job solver clocks
            else oracle_adapter detector g job);
     sfold (stamp detector job order slice_fp) [] raw).

Definition _record_detector_completion (detector : DetectorLike) (job : Job) (success : bool) (started now : Q) : Worker unit :=
  sput (fun s => mkStore (heap s)
    (metrics s ++ [mkMetric success (d_id detector) (d_engine detector) (wj_env_digest job) ((now - started) * 1000)%Q])).

(** [started] and [ended] are the readings of [time.monotonic] around the body. *)
Definition run_detector (detector : DetectorLike) (g : CPG) (job : Job) (default_solver : CoreSolver)
    (solver : option CoreSolver) (oracle_adapter : option OracleAdapter) (slice_fingerprinter : option SliceFingerprinter)
    (order_clock : clock) (clocks : nat -> clock) (started ended : Q) : Worker (list ref) :=
  found ⟸ scatch
    (_run_detector_unmetered detector g job default_solver solver oracle_adapter slice_fingerprinter order_clock clocks)
    (fun e => match e with
              | BaseException => sraise e
              | _ => _record_detector_completion detector job false started ended ⨟ sraise e
              end);
  _record_detector_completion detector job true started ended ⨟
  sret found.

(** ** [emit_sarif] *)

Context {PR : PyRuntime}.

Definition sarif_params (job : Job) : RunParams :=
  mkParams (wj_scan_id job) (wj_snapshot_id job) (wj_codebase_id job) (wj_commit_sha job) (wj_S_version job)
    (wj_env_digest job) (Some (wj_precondition_status _ job)) false.

Definition emit_sarif (findings : list ref) (job : Job) : Worker SARIFLog :=
  fs ⟸ smap load findings;
  slift (normalize (map as_worker_finding fs) (sarif_params job)).

End Worker.
