(* ===== verification/WorkerSpec.v ===== *)
(** * What the worker promises

    Metering changes nothing but the metrics; the findings a detector returns
    are those its engine produced, each stamped with its origin and the
    provenance of the job; the findings of a core detector make a SARIF log. *)
From stdpp Require Import base tactics list gmap strings.
From Stdlib Require Import ZArith QArith Lia.
From S2P Require Import Prelude PyData Sha256 Budget Cpg GraphSpec Ordering Dsl PyDict Supergraph Solver Fingerprint SliceIdentity Json PyText Identity JsonParse JsonSpec BoundRules ScanApi Sarif SarifJson SarifSpec SarifEmit SarifLog Worker.

Open Scope Z_scope.
Open Scope py_scope.
Open Scope st_scope.

Section worker.
Context {Overrides : Type}.
Notation Job := (WorkerJob Overrides).
Implicit Types (job : Job) (detector : DetectorLike) (s t : Store).

(** ** The loop *)

Definition engine_known detector : Prop := d_engine detector ∈ _ALL_ENGINES.

(** What the loop makes of one finding. *)
Definition stamped detector job order (slice_fp : SliceFingerprinter) (f : Finding) : outcome Finding :=
  o ⇐ origin_for detector f;
  let f := thread job order (set_origin o f) in
  if bool_decide (f_slice_fingerprint (sliced f) = []) then fp ⇐ slice_fp (_witness_of f); Ok (set_slice_fingerprint fp f)
  else Ok f.

Lemma origin_for_valid detector f o : origin_for detector f = Ok o -> o ∈ _ORIGINS.
Proof.
  unfold origin_for. intros E. assert (H : o = CORE_ORIGIN \/ o = ORACLE_ORIGIN); [|destruct H as [->| ->]; [apply list_elem_of_here|apply list_elem_of_further, list_elem_of_here]].
  destruct (is_mixed detector); [destruct (from_core_engine f) as [[]|]|case_bool_decide]; try done; injection E as <-; tauto.
Qed.

Lemma stamp_Ok detector job order slice_fp out r s out' s' :
  stamp detector job order slice_fp out r s = (Ok out', s') <->
  engine_known detector /\ exists f f', heap s !! r = Some f /\ stamped detector job order slice_fp f = Ok f' /\
    out' = (if bool_decide (r ∈ out) then out else out ++ [r]) /\ s' = mkStore (<[r := f']> (heap s)) (metrics s).
Proof.
  unfold stamp, _stamp_origin, stamped, sbind, slift, load, store, sput, sret, sraise, engine_known.
  destruct (decide (d_engine detector ∈ _ALL_ENGINES)) as [Hk|Hk]; [|rewrite bool_decide_true by done; naive_solver].
  rewrite bool_decide_false by tauto. destruct (heap s !! r) as [f|] eqn:Ef; [|naive_solver].
  destruct (origin_for detector f) as [o|e] eqn:Eo; [|split; [done|intros (_ & ? & ? & [= <-] & E & _)]; by rewrite Eo in E].
  rewrite bool_decide_true by (by eapply origin_for_valid). assert (Hr : (r < length (heap s))%nat) by (by eapply lookup_lt_Some).
  cbn [heap metrics]. rewrite list_lookup_insert_eq by done. cbn [heap metrics].
  set (g := thread job order (set_origin o f)). destruct (bool_decide (f_slice_fingerprint (sliced g) = [])) eqn:Eg.
  - destruct (slice_fp (_witness_of g)) as [fp|e] eqn:Efp; cbn [heap metrics].
    + rewrite !list_insert_insert_eq. split.
      * intros [= <- <-]. split; [done|]. exists f, (set_slice_fingerprint fp g). rewrite Eo. cbn [obind]. cbv zeta. fold g. by rewrite Eg, Efp.
      * intros (_ & ? & ? & [= <-] & E & -> & ->). rewrite Eo in E. cbn [obind] in E. cbv zeta in E. fold g in E. rewrite Eg, Efp in E. by injection E as <-.
    + split; [done|]. intros (_ & ? & ? & [= <-] & E & _). rewrite Eo in E. cbn [obind] in E. cbv zeta in E. fold g in E. by rewrite Eg, Efp in E.
  - cbn [heap metrics]. rewrite !list_insert_insert_eq. split.
    + intros [= <- <-]. split; [done|]. exists f, g. rewrite Eo. cbn [obind]. cbv zeta. fold g. by rewrite Eg.
    + intros (_ & ? & ? & [= <-] & E & -> & ->). rewrite Eo in E. cbn [obind] in E. cbv zeta in E. fold g in E. rewrite Eg in E. by injection E as <-.
Qed.

(** A stamped finding is stamped the same again. *)
Lemma stamped_again detector job order slice_fp f f' :
  stamped detector job order slice_fp f = Ok f' -> stamped detector job order slice_fp f' = Ok f'.
Proof.
  unfold stamped. destruct (origin_for detector f) as [o|e] eqn:Eo; [|done]. cbn [obind].
  set (g := thread job order (set_origin o f)). destruct (bool_decide (f_slice_fingerprint (sliced g) = [])) eqn:Eg.
  - destruct (slice_fp (_witness_of g)) as [fp|e] eqn:Efp; [|done]. intros [= <-].
    replace (origin_for detector (set_slice_fingerprint fp g)) with (Ok o : outcome pystr) by exact (eq_sym Eo). cbn [obind].
    cbn. destruct fp as [|c fp]; [rewrite bool_decide_true by done|by rewrite bool_decide_false].
    change (_witness_of _) with (_witness_of g). by rewrite Efp.
  - intros [= <-]. replace (origin_for detector g) with (Ok o : outcome pystr) by exact (eq_sym Eo). cbn [obind].
    change (thread job order (set_origin o g)) with g. by rewrite Eg.
Qed.

(** The references in the order they are first met. *)
Definition first_met (out raw : list ref) : list ref :=
  fold_left (fun out r => if bool_decide (r ∈ out) then out else out ++ [r]) raw out.

Lemma first_met_elem raw r out : r ∈ first_met out raw <-> r ∈ out \/ r ∈ raw.
Proof.
  unfold first_met. revert out. induction raw as [|x raw IH]; intros out; cbn [fold_left]; [set_solver|].
  rewrite IH, elem_of_cons. case_bool_decide; [naive_solver|rewrite elem_of_app, list_elem_of_singleton; naive_solver].
Qed.

Lemma first_met_nodup raw out : NoDup out -> NoDup (first_met out raw).
Proof.
  unfold first_met. revert out. induction raw as [|x raw IH]; intros out H; cbn [fold_left]; [done|].
  apply IH. case_bool_decide; [done|]. apply NoDup_app. split; [done|]. split; [set_solver|apply NoDup_singleton].
Qed.

Lemma first_met_fresh raw out : NoDup (out ++ raw) -> first_met out raw = out ++ raw.
Proof.
  unfold first_met. revert out. induction raw as [|x raw IH]; intros out H; cbn [fold_left]; [by rewrite app_nil_r|].
  rewrite bool_decide_false; [rewrite IH; rewrite <-app_assoc; done|].
  apply NoDup_app in H as (_ & H & _). intros Hx. apply (H x Hx). by constructor.
Qed.

(** After the loop the objects of [raw] are stamped and the others untouched. *)
Record loop_done detector job order (slice_fp : SliceFingerprinter) (raw : list ref) s s' : Prop := {
  ld_stamped : forall r, r ∈ raw -> exists f f', heap s !! r = Some f /\ stamped detector job order slice_fp f = Ok f' /\ heap s' !! r = Some f';
  ld_others : forall r, r ∉ raw -> heap s' !! r = heap s !! r;
  ld_metrics : metrics s' = metrics s
}.

Lemma loop_Ok detector job order slice_fp raw out s out' s' :
  sfold (stamp detector job order slice_fp) out raw s = (Ok out', s') ->
  (raw <> [] -> engine_known detector) /\ out' = first_met out raw /\ loop_done detector job order slice_fp raw s s'.
Proof.
  revert out s. induction raw as [|r raw IH]; intros out s; cbn [sfold].
  - intros [= <- <-]. split; [done|]. split; [done|]. constructor; [set_solver|done..].
  - intros (o & t & (Hk & f & f' & Ef & Es & -> & ->)%stamp_Ok & (_ & -> & [L1 L2 L3])%IH)%sbind_Ok.
    split; [done|]. split; [done|]. cbn [heap metrics] in *. assert (Hr : (r < length (heap s))%nat) by (by eapply lookup_lt_Some).
    constructor; [| |done].
    + intros x Hx. destruct (decide (x = r)) as [->|Hne].
      * exists f, f'. split; [done|]. split; [done|]. destruct (decide (r ∈ raw)) as [Hin|Hnin].
        -- destruct (L1 r Hin) as (g & g' & Eg & Egs & Eg'). rewrite list_lookup_insert_eq in Eg by done. injection Eg as <-.
           rewrite (stamped_again _ _ _ _ _ _ Es) in Egs. by injection Egs as <-.
        -- rewrite (L2 r Hnin). by apply list_lookup_insert_eq.
      * apply elem_of_cons in Hx as [->|Hx]; [done|]. destruct (L1 x Hx) as (g & g' & Eg & Egs & Eg').
        exists g, g'. rewrite list_lookup_insert_ne in Eg by done. done.
    + intros x Hx. rewrite not_elem_of_cons in Hx. destruct Hx as [Hne Hx]. rewrite (L2 x Hx). by apply list_lookup_insert_ne.
Qed.
(** ** The body and its metering *)

Section run.
Context (detector : DetectorLike) (g : CPG) (job : Job) (default_solver : CoreSolver) (solver : option CoreSolver)
  (oracle_adapter : option (OracleAdapter (Overrides := Overrides))) (slice_fingerprinter : option SliceFingerprinter) (order_clock : clock)
  (clocks : nat -> clock).

Notation body := (_run_detector_unmetered detector g job default_solver solver oracle_adapter slice_fingerprinter order_clock clocks).
Notation run := (run_detector detector g job default_solver solver oracle_adapter slice_fingerprinter order_clock clocks).

(** What the engine produces. *)
Definition dispatch : Worker (list ref) :=
  if bool_decide (d_engine detector ∈ CORE_ENGINES)
  then _findings_from_core detector g job (or_default solver default_solver) clocks
  else or_default oracle_adapter fail_closed_oracle_adapter detector g job.

Lemma body_Ok s out s' : body s = (Ok out, s') ->
  _require_versioned_params job = Ok tt /\ engine_known detector /\ exists order raw t,
    canonical_order g DEFAULT_B DEFAULT_T order_clock = Ok order /\ dispatch s = (Ok raw, t) /\ out = first_met [] raw /\
    loop_done detector job order (or_default slice_fingerprinter fail_closed_slice_fingerprinter) raw t s'.
Proof.
  unfold _run_detector_unmetered. intros ([] & t & [Ep ->]%slift_Ok & E)%sbind_Ok. split; [done|].
  case_bool_decide as Hk; [done|]. assert (engine_known detector) as Hk' by (unfold engine_known; destruct (decide (d_engine detector ∈ _ALL_ENGINES)); tauto).
  split; [done|]. apply sbind_Ok in E as (order & t & [Eo ->]%slift_Ok & (raw & t & Ed & E)%sbind_Ok).
  apply loop_Ok in E as (_ & -> & L). by exists order, raw, t.
Qed.

Lemma keeps_metrics : keeps metrics (or_default oracle_adapter fail_closed_oracle_adapter detector g job) -> keeps metrics body.
Proof.
  intros Ha. assert (Hl : forall r, keeps metrics (load r)) by (intros r s; unfold load; by destruct (heap s !! r)).
  assert (Hst : forall r f, keeps metrics (store r f)) by (by intros r f s). assert (Hal : forall f, keeps metrics (alloc f)) by (by intros f s).
  unfold _run_detector_unmetered, _findings_from_core, stamp, _stamp_origin.
  repeat first [done | apply keeps_bind; [|intros] | apply keeps_if | apply keeps_fold; intros | apply keeps_map; intros
               | apply keeps_lift | apply keeps_raise | apply keeps_ret | apply Hl | apply Hst | apply Hal | destruct (d_spec detector)].
Qed.

(** The metric of a completion. *)
Definition completion (success : bool) (started ended : Q) : Metric :=
  mkMetric success (d_id detector) (d_engine detector) (wj_env_digest job) ((ended - started) * 1000).

(** Metering is transparent and counts every completion once.  The
    outcome of [run_detector], exceptions included, and the findings in memory
    are those of the unmetered body; when the adapter emits no metrics, one
    call emits exactly one completion metric, which says success exactly when
    the call returned; an exception that is not an [Exception] emits none. *)
Theorem one_completion_metric started ended s :
  keeps metrics (or_default oracle_adapter fail_closed_oracle_adapter detector g job) ->
  let o := (body s).1 in let s' := (run started ended s).2 in
  (run started ended s).1 = o /\ heap s' = heap (body s).2 /\
  metrics s' = metrics s ++ match o with
                            | Ok _ => [completion true started ended]
                            | Raise BaseException => []
                            | Raise _ => [completion false started ended]
                            end.
Proof.
  intros Ha. pose proof (keeps_metrics Ha s) as Hm. unfold run_detector. revert Hm. generalize body as m. intros m Hm.
  unfold sbind, scatch. destruct (m s) as [[out|e] t]; cbn in *; [by rewrite Hm|]. destruct e; cbn; by rewrite ?Hm, ?app_nil_r.
Qed.

Lemma run_Ok started ended s out s' : run started ended s = (Ok out, s') -> exists t, body s = (Ok out, t) /\ heap s' = heap t.
Proof.
  unfold run_detector. intros (found & t & E & E')%sbind_Ok. unfold scatch in E.
  destruct (body s) as [[b|e] u] eqn:Eb; [injection E as <- <-|by destruct e]. injection E' as <- <-. by exists u.
Qed.

(** ** Provenance *)

(** The origin of a finding: of a mixed detector, what its adapter said; of
    another, the partition of the engine. *)
Definition expected_origin (f : Finding) : pystr :=
  if is_mixed detector then if default false (from_core_engine f) then CORE_ORIGIN else ORACLE_ORIGIN
  else if bool_decide (d_engine detector ∈ CORE_ENGINES) then CORE_ORIGIN else ORACLE_ORIGIN.

(** What a returned finding carries. *)
Record provenance order (f f' : Finding) : Prop := {
  pr_detection : detection f' = detection f;
  pr_hint : from_core_engine f' = from_core_engine f /\ (is_mixed detector = true -> is_Some (from_core_engine f));
  pr_threaded : threaded f' = mkThreaded (expected_origin f) (expected_origin f) (wj_S_version job) (wj_env_digest job)
    (hex (cpg_order_hash order)) CPG_ORDER_HASH_ANNOTATION (class_name (fingerprint_class order)) 2
    (Some (class_name (fingerprint_class order))) COMPLETED (Some (identity_namespace order));
  pr_slice : f_slice_fingerprint (sliced f) <> [] /\ sliced f' = sliced f \/
    f_slice_fingerprint (sliced f) = [] /\ exists fp,
      or_default slice_fingerprinter fail_closed_slice_fingerprinter (_witness_of f) = Ok fp /\
      sliced f' = mkSliced fp (slice_fingerprint_class (sliced f)) (slice_status (sliced f)) (f_slice_namespace (sliced f));
  pr_uris : witness_blob_uri f' = witness_blob_uri f /\ spec_provenance f' = spec_provenance f
}.

Lemma origin_for_Ok f o : origin_for detector f = Ok o -> o = expected_origin f /\ (is_mixed detector = true -> is_Some (from_core_engine f)).
Proof.
  unfold origin_for, expected_origin. destruct (is_mixed detector); [|by intros [= <-]].
  destruct (from_core_engine f) as [[]|]; intros E; try done; injection E as <-; by split; [|eexists].
Qed.

Lemma stamped_provenance order f f' :
  stamped detector job order (or_default slice_fingerprinter fail_closed_slice_fingerprinter) f = Ok f' -> provenance order f f'.
Proof.
  unfold stamped. intros (o & (-> & Hm)%origin_for_Ok & E)%obind_Ok. revert E. case_bool_decide as Hs; cbn in Hs; cbv zeta.
  - intros (fp & Efp & [= <-])%obind_Ok. constructor; try done. right. split; [done|]. by exists fp.
  - intros [= <-]. constructor; try done. left. done.
Qed.

(** C19: every finding that leaves the worker carries the provenance of its
    job.  When [run_detector] returns, the versioned parameters are present,
    the engine is known, and the set is exactly the set of objects the engine
    produced; each of them keeps its detection content and has the origin
    its detector determines, mirrored in the partition, the parameters of the
    job and the identity of the whole graph; its slice fingerprint is the one
    it came with or, if it had none, the fallback's; no other object is
    written. *)
Theorem findings_carry_provenance started ended s out s' : run started ended s = (Ok out, s') ->
  _require_versioned_params job = Ok tt /\ engine_known detector /\ NoDup out /\ exists order raw t,
    canonical_order g DEFAULT_B DEFAULT_T order_clock = Ok order /\ dispatch s = (Ok raw, t) /\
    (forall r, r ∈ out <-> r ∈ raw) /\
    (forall r, r ∈ out -> exists f f', heap t !! r = Some f /\ heap s' !! r = Some f' /\ provenance order f f') /\
    (forall r, r ∉ out -> heap s' !! r = heap t !! r).
Proof.
  intros (u & (Hp & Hk & order & raw & t & Eo & Ed & -> & [L1 L2 _])%body_Ok & ->)%run_Ok.
  split; [done|]. split; [done|]. split; [apply first_met_nodup; constructor|]. exists order, raw, t.
  assert (Hi : forall r, r ∈ first_met [] raw <-> r ∈ raw) by (intros r; rewrite first_met_elem; set_solver).
  split_and!; [done|done|done| |]; intros r Hr.
  - apply Hi in Hr. destruct (L1 r Hr) as (f & f' & E & Es & E'). exists f, f'. split_and!; [done..|]. by apply stamped_provenance.
  - apply L2. by rewrite <-Hi.
Qed.
End run.
End worker.

(** * The core lane, from the solver to the log

    The findings of a core-engine detector go through the worker and the
    emitter: the solver of [Solver] finds them, [Fingerprint] identifies
    their slices, [Worker] stamps them and [Sarif] emits them. *)

(** ** Digests *)

Definition is_digest_of (d : pybytes) : Prop := exists m, d = sha256 m.

Lemma hex_digit_lower d : 0 <= d < 16 -> Identity.is_lower_hex (hex_digit d) = true.
Proof. intros H. unfold Identity.is_lower_hex, hex_digit. destruct (Z.ltb_spec d 10); lia. Qed.

Lemma hex_lower bs : Forall is_byte bs -> forallb Identity.is_lower_hex (hex bs) = true.
Proof.
  induction 1 as [|b bs [H1 H2] _ IH]; [done|]. unfold hex. cbn [map concat app forallb]. rewrite !andb_true_iff.
  split_and!; [apply hex_digit_lower..|exact IH]; pose proof (Z.mod_pos_bound b 16); pose proof (Z.div_pos b 16);
    pose proof (Z.div_lt_upper_bound b 16 16); lia.
Qed.

Lemma digest_hex64 d : is_digest_of d -> hex64 (hex d) = true.
Proof.
  intros [m ->]. unfold hex64. rewrite hex_lower by apply sha256_bytes. by rewrite length_hex, Sha.length_sha256.
Qed.

Lemma hex64_some s : hex64 s = true -> s <> [].
Proof. by intros H ->. Qed.

Lemma canonical_order_made g B T c r : canonical_order g B T c = Ok r ->
  is_digest_of (cpg_order_hash r) /\ identity_namespace r = GRAPH_IDENTITY_NAMESPACE.
Proof.
  unfold canonical_order. intros (b & _ & E)%obind_Ok. destruct (canonical_order_with g c b) as [v b'] eqn:Eo. cbn in E. subst v.
  unfold canonical_order_with in Eo. bind_inv. destruct a as [[k o] e]. unfold finish_order in Eo. bind_inv. split; [by eexists|done].
Qed.

Lemma slice_made g w B T c r : compute_slice_fingerprint g w B T c = Ok r ->
  is_digest_of (slice_fingerprint r) /\ (slice_namespace r = SLICE_IDENTITY_NAMESPACE \/ slice_namespace r = LEGACY_WITNESS_NAMESPACE).
Proof.
  unfold compute_slice_fingerprint. intros E. split.
  - unfold _compute in E. apply obind_Ok in E as (b0 & _ & E). destruct (compute_with g w None c b0) as [v b9] eqn:Ec. cbn in E. subst v.
    unfold compute_with in Ec. bind_inv. cbn. unfold except_exhausted in Hrun3.
    destruct (strong_path (slice_cpg a0) c b3) as [[v|e] b10] eqn:Es.
    + unfold strong_path in Es. injection Hrun3 as -> ->. bind_inv. destruct (bool_decide _); bind_inv.
      unfold _content_hash in *. bind_inv. by eexists.
    + destruct e; try done. unfold weak_path in Hrun3. bind_inv. unfold Budget.lift in *.
      injection Hrun7 as E0 ->. unfold _witness_edge_sequence_hash in E0. apply obind_Ok in E0 as (parts & _ & [= <-]). by eexists.
  - rewrite (compute_namespace _ _ _ _ _ _ _ E). destruct (slice_class r); tauto.
Qed.

(** ** What the solver reports *)

Lemma solve_reports g spec sv env c r f : solve g spec sv env c = Ok r -> f ∈ findings r -> finding_spec_id f = spec_id spec.
Proof.
  unfold solve. intros E Hf. repeat (let x := fresh in let H := fresh in apply obind_Ok in E as (x & H & E)). injection E as <-. cbn in Hf.
  rewrite elem_of_remove_dups in Hf. revert Hf. match goal with H : _build_findings _ _ _ _ _ = Ok _ |- _ => revert H end.
  unfold _build_findings. intros (fss & Em & [= <-])%obind_Ok. apply mapO_Forall2 in Em. rewrite list_elem_of_In, in_concat.
  intros (fs & Hfs%list_elem_of_In & Hf%list_elem_of_In). apply list_elem_of_lookup in Hfs as [i Hi].
  destruct (Forall2_lookup_r _ _ _ _ _ Em Hi) as (nid & _ & E). unfold sink_findings in E.
  apply obind_Ok in E as (nd & _ & E). destruct (negb _); [injection E as <-; by apply elem_of_nil in Hf|].
  apply mapO_Forall2 in E. apply list_elem_of_lookup in Hf as [j Hj].
  destruct (Forall2_lookup_r _ _ _ _ _ E Hj) as (x & _ & (w & _ & [= <-])%obind_Ok). done.
Qed.

(** ** The findings the worker makes of them *)

Section lane.
Context {Overrides : Type}.
Notation Job := (WorkerJob Overrides).
Implicit Types (job : Job) (detector : DetectorLike) (s t : Store).

(** Allocating the findings of a list one by one. *)
Lemma alloc_all {X Y} (prepare : X -> outcome Y) (make : X -> Y -> Finding) l s raw t :
  smap (fun x => y ⟸ slift (prepare x); alloc (make x y)) l s = (Ok raw, t) ->
  raw = seq (length (heap s)) (length l) /\ exists fs, heap t = heap s ++ fs /\
    Forall2 (fun x f => exists y, prepare x = Ok y /\ f = make x y) l fs.
Proof.
  revert s raw t. induction l as [|x l IH]; intros s raw t; cbn [smap].
  - intros [= <- <-]. split; [done|]. exists []. by rewrite app_nil_r.
  - intros (r & u & (y & ? & [Ey ->]%slift_Ok & [= <- <-])%sbind_Ok & (rs & v & (-> & fs & Ev & F)%IH & [= <- <-])%sbind_Ok)%sbind_Ok.
    cbn [heap] in *. rewrite length_app, Nat.add_1_r. split; [done|]. exists (make x y :: fs). rewrite Ev, <-app_assoc. split; [done|].
    constructor; [by eauto|done].
Qed.

Lemma core_dispatch detector g job solver clocks s raw t :
  _findings_from_core detector g job solver clocks s = (Ok raw, t) ->
  exists spec env found severity, d_spec detector = Some spec /\ _env_digest_bytes job = Ok env /\ solver g spec (wj_S_version job) env = Ok found /\ severity ∈ _SEVERITIES /\
    raw = seq (length (heap s)) (length found) /\ forall r f, r ∈ raw -> heap t !! r = Some f ->
      exists sf slice c engine, sf ∈ found /\ compute_slice_fingerprint g (witness sf) DEFAULT_B DEFAULT_T c = Ok slice /\
        engine ∈ CORE_ENGINES /\ f = core_finding job spec engine severity sf slice.
Proof.
  unfold _findings_from_core. destruct (d_spec detector) as [spec|]; [|done].
  intros (env & ? & [Eenv ->]%slift_Ok & (found & ? & [Ef ->]%slift_Ok & (sev & ? & [Es ->]%slift_Ok & E)%sbind_Ok)%sbind_Ok)%sbind_Ok.
  apply (alloc_all (fun isf : nat * Solver.Finding => compute_slice_fingerprint g (witness isf.2) DEFAULT_B DEFAULT_T (clocks isf.1))
    (fun isf slice => core_finding job spec _ sev isf.2 slice)) in E as (-> & fs & Et & F).
  rewrite length_imap in *. exists spec, env, found, sev. split_and!; try done.
  { revert Es. unfold _coerce_severity. case_bool_decide; [by intros [= <-]|done]. }
  intros r f Hr Hf. apply elem_of_seq in Hr. rewrite Et, lookup_app_r in Hf by lia.
  destruct (Forall2_lookup_r _ _ _ _ _ F Hf) as ([i sf] & Hi & slice & Esl & ->). cbn [fst snd] in *.
  rewrite list_lookup_imap in Hi. destruct (found !! (r - length (heap s))%nat) as [sf'|] eqn:Eq; [|done]. injection Hi as <- ->.
  exists sf, slice, (clocks (r - length (heap s))%nat). eexists. split_and!; [by eapply list_elem_of_lookup_2|done| |reflexivity].
  destruct (str_eqb _ _); unfold CORE_ENGINES; set_solver.
Qed.

(** ** They pass the emitter *)

Record lane_ready job (spec : Spec) : Prop := {
  lr_spec_id : spec_id spec <> [] /\ encodes (spec_id spec);
  lr_class : class_ spec <> [] /\ encodes (class_ spec);
  lr_commit : wj_commit_sha job <> [] /\ encodes (wj_commit_sha job);
  lr_S_version : encodes (wj_S_version job);
  lr_precondition : wj_precondition_status _ job ∈ _PRECONDITIONS
}.

Lemma params_required job : _require_versioned_params job = Ok tt ->
  wj_S_version job <> [] /\ wj_env_digest job <> [] /\ encodes (wj_env_digest job).
Proof.
  unfold _require_versioned_params. case_bool_decide as Hs; [done|]. case_bool_decide as He; [done|]. cbn [orb].
  destruct (has_prefix _ _) eqn:Hp; [|done]. destruct (negb (_ =? _)); [done|]. cbn [negb orb]. destruct (forallb _ _) eqn:Hh; [|done]. intros _.
  split; [done|]. split; [done|]. rewrite <-(take_drop (length _SHA256_PREFIX) (wj_env_digest job)). apply encodes_app. split.
  - unfold has_prefix, str_eqb in Hp. apply bool_decide_eq_true in Hp as ->. ascii.
  - apply encodes_ascii, Forall_forall. intros c Hc. rewrite forallb_forall in Hh.
    apply list_elem_of_In, Hh in Hc. unfold Identity.is_lower_hex in Hc. lia.
Qed.

Lemma class_known k : class_name k ∈ CLASSES /\ class_name k ∈ _FP_CLASSES.
Proof. by destruct k; split; apply (bool_decide_unpack _); vm_compute. Qed.

(** A completed identity of an independent class. *)
Lemma completed_identity d k ns : hex64 d = true -> ns <> [] ->
  make_identity (VStr COMPLETED) (VStr d) (VStr (class_name k)) (VStr ns) = Ok (mkArtifact COMPLETED (Some d) (Some (class_name k)) (Some ns)).
Proof.
  intros Hd Hns. unfold make_identity, check_digest. rewrite Hd. replace (in_strings (VStr COMPLETED) STATES) with (Ok true) by (vm_compute; reflexivity).
  cbn [obind]. rewrite bool_decide_true by done. unfold check_completed, in_strings. rewrite bool_decide_true by apply class_known.
  cbn [obind]. by destruct ns.
Qed.
Lemma attr_put_eq name o f dflt : attr (put_attr name (Some o) f) name dflt = o.
Proof. unfold attr. by rewrite lookup_put_eq. Qed.

Lemma attr_put_ne name o f k dflt : str name <> str k -> attr (put_attr name o f) k dflt = attr f k dflt.
Proof. intros Hne. unfold attr. by rewrite lookup_put_ne. Qed.

Ltac read_attrs := repeat first [rewrite attr_put_eq | rewrite attr_put_ne by (vm_compute; discriminate)].

Lemma completed_identities f d k ns d' k' ns' :
  w_identity_schema_version f = Some (VInt 2) -> w_cpg_order_hash f = VStr d -> w_slice_fingerprint f = VStr d' ->
  w_cpg_order_class f = Some (VStr (class_name k)) -> w_slice_fingerprint_class f = Some (VStr (class_name k')) ->
  w_cpg_order_status f = Some (VStr COMPLETED) -> w_slice_status f = Some (VStr COMPLETED) ->
  w_cpg_order_namespace f = Some (VStr ns) -> w_slice_namespace f = Some (VStr ns') ->
  hex64 d = true -> hex64 d' = true -> ns <> [] -> ns' <> [] ->
  identities_from_finding (attrs f) = Ok (mkArtifact COMPLETED (Some d) (Some (class_name k)) (Some ns),
    mkArtifact COMPLETED (Some d') (Some (class_name k')) (Some ns')).
Proof.
  intros E1 E2 E3 E4 E5 E6 E7 E8 E9 Hd Hd' Hn Hn'. unfold attrs. rewrite E1, E2, E3, E4, E5, E6, E7, E8, E9.
  unfold identities_from_finding, one_identity, digest_attr. read_attrs. cbn [Z.eqb Pos.eqb orb].
  assert (T : forall d, hex64 d = true -> truthy (VStr d) = true) by (intros x Hx; cbn; rewrite bool_decide_false by (by apply hex64_some); done).
  rewrite (T d Hd), (T d' Hd'). cbn [negb]. rewrite !completed_identity by done. reflexivity.
Qed.

(** What is left to know of a finding once it is stamped. *)
Record lane_finding job (spec : Spec) (f : Finding) : Prop := {
  lf_detection : exists n sev engine, sev ∈ _SEVERITIES /\ engine ∈ CORE_ENGINES /\
    detection f = mkDetection (spec_id spec) (str "taint reaches sink (spec " ++ spec_id spec ++ str ")")
      (str "cpg://node/" ++ str_of_int n) (n + 1) 1 (n + 1) 1 sev (class_ spec) (str "open") (wj_precondition_status _ job) engine;
  lf_threaded : exists d k, hex64 d = true /\ threaded f = mkThreaded CORE_ORIGIN CORE_ORIGIN (wj_S_version job) (wj_env_digest job)
    d CPG_ORDER_HASH_ANNOTATION (class_name k) 2 (Some (class_name k)) COMPLETED (Some GRAPH_IDENTITY_NAMESPACE);
  lf_sliced : exists d k ns, hex64 d = true /\ (ns = SLICE_IDENTITY_NAMESPACE \/ ns = LEGACY_WITNESS_NAMESPACE) /\
    sliced f = mkSliced d (Some (class_name k)) COMPLETED (Some ns);
  lf_uris : witness_blob_uri f = None /\ spec_provenance f = None
}.

Lemma lane_view job spec f : lane_finding job spec f -> lane_ready job spec ->
  _require_versioned_params job = Ok tt -> checked (as_worker_finding f) /\ encodable (as_worker_finding f) /\
  w_origin (as_worker_finding f) = VStr CORE_ORIGIN /\ w_uri (as_worker_finding f) <> [].
Proof.
  intros [(n & sev & engine & Hsev & Hen & Ed) (d & k & Hd & Et) (d' & k' & ns & Hd' & Hns & Es) [Eb Ep]] [[R1 R2] [R3 R4] _ R5 R6] Hp.
  destruct (params_required _ Hp) as (P1 & P2 & P3). destruct (class_known k) as [_ Hk].
  unfold as_worker_finding. rewrite Ed, Et, Es, Eb, Ep. cbn [of_optional].
  assert (Hne : engine ∈ _ENGINES) by (revert Hen; unfold CORE_ENGINES, _ENGINES; cbn [map]; rewrite !elem_of_cons; tauto).
  assert (Hns0 : ns <> [] /\ encodes ns) by (destruct Hns as [->| ->]; split; first [ascii|by vm_compute]).
  split_and!; [|split|done|by vm_compute].
  - constructor; cbn -[str]; try (by eexists; split; [reflexivity|first [done|by apply (bool_decide_unpack _); vm_compute]]).
    + right. split; [done|]. exists (mkArtifact COMPLETED (Some d) (Some (class_name k)) (Some GRAPH_IDENTITY_NAMESPACE)),
        (mkArtifact COMPLETED (Some d') (Some (class_name k')) (Some ns)). split; [|done].
      by apply completed_identities; try done; destruct Hns0.
    + left. by eexists.
    + by repeat constructor.
  - repeat (apply Forall_cons; split); try apply Forall_nil; try exact I; try done; try (apply Hns0); try (by apply hex64_encodes); try ascii.
    all: first [by eapply all_encode; [|exact Hne]; vm_compute|by eapply all_encode; [|exact Hsev]; vm_compute
               |by eapply all_encode; [|exact Hk]; vm_compute|by eapply all_encode; [|exact R6]; vm_compute].
  - cbn -[str encodes app]. repeat (apply Forall_cons; split); try apply Forall_nil; try exact I; try apply encodes_nil.
    + rewrite !encodes_app. split_and!; [ascii|done|ascii].
    + apply encodes_app. split; [ascii|apply encodes_int].
Qed.
Lemma lane_stamped detector job spec order slice_fp engine sev sf slice c c' g f' :
  d_engine detector ∈ CORE_ENGINES -> is_mixed detector = false -> finding_spec_id sf = spec_id spec ->
  engine ∈ CORE_ENGINES -> sev ∈ _SEVERITIES -> canonical_order g DEFAULT_B DEFAULT_T c = Ok order ->
  compute_slice_fingerprint g (witness sf) DEFAULT_B DEFAULT_T c' = Ok slice ->
  stamped detector job order slice_fp (core_finding job spec engine sev sf slice) = Ok f' -> lane_finding job spec f'.
Proof.
  intros Hd Hm Hs He Hv (D%digest_hex64 & N)%canonical_order_made (D'%digest_hex64 & N')%slice_made.
  unfold stamped, origin_for. rewrite Hm, bool_decide_true by done. cbn [obind]. cbv zeta.
  unfold core_finding. cbn -[str app hex]. rewrite bool_decide_false by (by apply hex64_some). intros [= <-]. constructor; cbn -[str app hex].
  - exists (sink sf), sev, engine. rewrite Hs. split_and!; [exact Hv|exact He|reflexivity].
  - eexists _, (fingerprint_class order). split; [exact D|]. by rewrite N.
  - eexists _, _, _. split; [exact D'|]. split; [exact N'|reflexivity].
  - done.
Qed.

Lemma load_all refs s : (forall r, r ∈ refs -> is_Some (heap s !! r)) ->
  exists fs, smap load refs s = (Ok fs, s) /\ Forall2 (fun r f => heap s !! r = Some f) refs fs.
Proof.
  induction refs as [|r refs IH]; intros H; cbn [smap]; [by exists []|].
  destruct (H r) as [f Hf]; [by constructor|]. destruct IH as (fs & E & F); [intros x Hx; apply H; by constructor|].
  exists (f :: fs). split; [|by constructor]. unfold sbind at 1, load at 1. rewrite Hf. unfold sbind. by rewrite E.
Qed.
(** C20: the core lane composes.  When [run_detector] returns for a non-mixed
    core-engine detector with the real solver, and its specification and the
    job are ready for the lane (the specification's id and class and the
    commit not empty and encodable, the [S_version] encodable, the precondition
    known), the set holds one finding per finding of [solve], [emit_sarif] succeeds on it whatever was in memory
    before, and the log counts that many results in its core run and none in
    its oracle run. *)
Theorem core_lane_emits `{PyRuntime} detector g job spec set_order c oracle slice_fp order_clock clocks started ended s out s' :
  (forall l, set_order l ≡ₚ l) -> d_engine detector ∈ CORE_ENGINES -> is_mixed detector = false -> d_spec detector = Some spec ->
  lane_ready job spec ->
  run_detector detector g job (default_core_solver set_order c) None oracle slice_fp order_clock clocks started ended s = (Ok out, s') ->
  exists env result log, _env_digest_bytes job = Ok env /\ solve g spec (wj_S_version job) env c = Ok result /\
    length out = length (findings result) /\ emit_sarif out job s' = (Ok log, s') /\
    (result_count (log_runs log).1, result_count (log_runs log).2) = (length (findings result), 0%nat).
Proof.
  intros Hord Hd Hm Hspec Hr (u & (Hp & Hk & order & raw & t & Eo & Ed & -> & [L1 _ _])%body_Ok & Hs')%run_Ok. rewrite <-Hs' in L1.
  unfold dispatch in Ed. rewrite bool_decide_true in Ed by done.
  apply core_dispatch in Ed as (spec' & env & found & sev & Es & Eenv & Ef & Hsev & -> & Hfs). assert (spec' = spec) as -> by congruence.
  unfold default_core_solver in Ef. cbn in Ef. apply obind_Ok in Ef as (result & Er & [= <-]).
  rewrite first_met_fresh in * by (apply NoDup_seq). cbn [app] in *.
  set (refs := seq _ _) in *. assert (Hlen : length refs = length (findings result)).
  { unfold refs. rewrite length_seq. by apply Permutation_length. }
  destruct (load_all refs s') as (fs & El & F). { intros r Hr'. destruct (L1 r Hr') as (? & ? & _ & _ & ?). by eexists. }
  assert (Hlane : Forall (lane_finding job spec) fs).
  { apply Forall_lookup. intros i f' Hi. destruct (Forall2_lookup_r _ _ _ _ _ F Hi) as (r & Hri & Hf').
    assert (Hin : r ∈ refs) by (by eapply list_elem_of_lookup_2). destruct (L1 r Hin) as (f & f'' & Hf & Hst & Hf''). assert (f'' = f') as -> by congruence.
    destruct (Hfs r f Hin Hf) as (sf & slice & c' & engine & Hsf & Esl & Hen & ->). rewrite Hord in Hsf.
    eapply lane_stamped; try eassumption. by eapply solve_reports. }
  set (ws := map as_worker_finding fs).
  assert (Hview : forall w, w ∈ ws -> checked w /\ encodable w /\ w_origin w = VStr CORE_ORIGIN /\ w_uri w <> []).
  { intros w (f & -> & Hf)%list_elem_of_fmap. rewrite Forall_forall in Hlane. by eapply lane_view; [apply Hlane|..]. }
  assert (Hsel : select ws CORE_ORIGIN = ws /\ select ws ORACLE_ORIGIN = []).
  { clear -Hview. unfold select. induction ws as [|w l IH]; [done|]. cbn [List.filter].
    destruct (Hview w ltac:(by constructor)) as (_ & _ & E & _). destruct IH as [E0 E1]; [intros x Hx; apply Hview; by constructor|].
    replace (equals_text (w_origin w) CORE_ORIGIN) with true by (by rewrite E).
    replace (equals_text (w_origin w) ORACLE_ORIGIN) with false by (by rewrite E). by rewrite E0, E1. }
  destruct Hsel as [Hs0 Hs1]. destruct Hr as [R1 R2 [R3 R3'] R4 R5]. destruct (params_required _ Hp) as (P1 & P2 & P3).
  destruct (normalize_validated ws (sarif_params job)) as (rs0 & rs1 & obj0 & obj1 & b & b0 & b1 & Em & [[_ En]|[Hn _]]).
  - apply Forall_forall. intros w Hw. by apply Hview.
  - split_and!; [done..|]. by eapply all_encode; [|exact R5]; vm_compute.
  - done.
  - rewrite Hs0. apply Forall_forall. intros w Hw. by apply Hview.
  - by rewrite Hs1.
  - exists env, result, (log_of rs0 rs1 b b0 b1). split_and!; [done..| |].
    + unfold emit_sarif, sbind. rewrite El. unfold slift. fold ws. by rewrite En.
    + destruct Em as [(_ & _ & [(l0 & M0 & Q0) _ _ _ _]) (_ & _ & [(l1 & M1 & Q1) _ _ _ _]) _ _ _]. cbn.
      apply mapO_Forall2, Forall2_length in M0, M1. apply Permutation_length in Q0, Q1. rewrite Hs0 in M0. rewrite Hs1 in M1.
      unfold ws in M0. rewrite length_map in M0. apply Forall2_length in F. cbn in M1. f_equal; [|by rewrite Q1].
      rewrite Q0, <-M0, <-F. exact Hlen.
  - destruct Hn. split; [|rewrite Hs0, Hs1; split].
    + unfold precondition_given. cbn. intros [= E]. rewrite E in R5. revert R5. apply (bool_decide_unpack _). vm_compute. exact I.
    + intros w Hw. by apply Hview.
    + by intros w Hw%elem_of_nil.
Qed.
End lane.
