(* ===== verification/DslParser.v ===== *)
(** * The DSL parser ([analysis/ifds/dsl/parser.py])

    A specification file is a header of [key: value] lines and a list of
    clauses.  The parser is modelled character by character: each regular
    expression is the function it denotes.  A [DSLError] keeps its code and
    line; the rest of the diagnostic is dropped. *)
From stdpp Require Import base tactics list strings.
From Stdlib Require Import ZArith Lia.
From S2P Require Import Prelude PyData PyDict Dsl PyText JsonParse BoundRules.

Open Scope Z_scope.
Open Scope py_scope.

(** ** Characters *)

(** What the parser asks of the Unicode database beyond ASCII: alphanumeric
    characters, decimal digits, and [str.lower] of a text that is not ASCII. *)
Class UnicodeData := {
  uni_alnum : Z -> bool;
  uni_decimal : Z -> bool;
  uni_lower : pystr -> pystr
}.

Definition is_letter (c : Z) : bool := ((65 <=? c) && (c <=? 90)) || ((97 <=? c) && (c <=? 122)).
(** [[A-Za-z_]] *)
Definition name_start (c : Z) : bool := is_letter c || (c =? 95).

(** White space of [str.strip] and of [\s]. *)
Definition whitespace (c : Z) : bool :=
  ((9 <=? c) && (c <=? 13)) || ((28 <=? c) && (c <=? 32)) || (c =? 133) || (c =? 160) || (c =? 5760) ||
  ((8192 <=? c) && (c <=? 8202)) || (c =? 8232) || (c =? 8233) || (c =? 8239) || (c =? 8287) || (c =? 12288).

(** The line boundaries of [str.splitlines]. *)
Definition line_break (c : Z) : bool :=
  ((10 <=? c) && (c <=? 13)) || ((28 <=? c) && (c <=? 30)) || (c =? 133) || (c =? 8232) || (c =? 8233).

(** [str.splitlines]; [cur] is the current line, reversed. *)
Fixpoint split_lines (cur s : pystr) : list pystr :=
  match s with
  | [] => match cur with [] => [] | _ => [rev cur] end
  | c :: t =>
      if line_break c then
        rev cur :: match t with
                   | d :: t' => if (c =? 13) && (d =? 10) then split_lines [] t' else split_lines [] t
                   | [] => []
                   end
      else split_lines (c :: cur) t
  end.
Definition splitlines (s : pystr) : list pystr := split_lines [] s.

Fixpoint drop_while (p : Z -> bool) (s : pystr) : pystr :=
  match s with [] => [] | c :: t => if p c then drop_while p t else s end.
Fixpoint take_while (p : Z -> bool) (s : pystr) : pystr :=
  match s with [] => [] | c :: t => if p c then c :: take_while p t else [] end.

Definition lstrip (p : Z -> bool) (s : pystr) : pystr := drop_while p s.
Definition rstrip (p : Z -> bool) (s : pystr) : pystr := rev (drop_while p (rev s)).
Definition strip_both (p : Z -> bool) (s : pystr) : pystr := rstrip p (lstrip p s).

Definition is_quote (c : Z) : bool := c =? 34.
Definition is_bracket (c : Z) : bool := (c =? 91) || (c =? 93).

(** [s.split(sep, 1)[0]] for a one-character [sep] *)
Definition before (sep : Z) (s : pystr) : pystr := take_while (fun c => negb (c =? sep)) s.
(** What follows the first [sep]. *)
Definition after (sep : Z) (s : pystr) : pystr := tail (drop_while (fun c => negb (c =? sep)) s).

Section parser.
Context {U : UnicodeData}.

(** [\w] and [\d] *)
Definition is_word (c : Z) : bool := if c <? 128 then is_digit c || name_start c else uni_alnum c.
Definition is_decimal (c : Z) : bool := if c <? 128 then is_digit c else uni_decimal c.

Definition ascii_lower (c : Z) : Z := if (65 <=? c) && (c <=? 90) then c + 32 else c.
Definition lower (s : pystr) : pystr := if forallb (fun c => c <? 128) s then map ascii_lower s else uni_lower s.

(** [[A-Za-z_]\w*] over a whole text *)
Definition identifier (s : pystr) : bool :=
  match s with c :: t => name_start c && forallb is_word t | [] => false end.

Definition starts_word (s : pystr) : bool := match s with c :: _ => is_word c | [] => false end.

(** [re.search]: the matcher is tried at every position; it is told whether
    the character before is a word character. *)
Fixpoint search (matcher : bool -> pystr -> bool) (prev : bool) (s : pystr) : bool :=
  matcher prev s || match s with [] => false | c :: t => search matcher (is_word c) t end.

(** [\bw\b] for a text [w] of word characters at both ends *)
Definition whole_word (w : string) (prev : bool) (s : pystr) : bool :=
  negb prev && match strip (str w) s with Some t => negb (starts_word t) | None => false end.

(** Ignoring case; none of the letters used folds with a letter outside ASCII. *)
Fixpoint strip_nocase (w s : pystr) : option pystr :=
  match w, s with
  | [], _ => Some s
  | c :: w, d :: s => if ascii_lower d =? c then strip_nocase w s else None
  | _ :: _, [] => None
  end.

Definition _RE_RAW_REGEX (prev : bool) (s : pystr) : bool :=
  whole_word "re.compile" prev s ||
  (negb prev && match strip (str "regex") s with
                | Some t => match lstrip whitespace t with c :: _ => c =? 40 | [] => false end
                | None => false
                end) ||
  match s with a :: c :: _ => (a =? 114) && ((c =? 39) || (c =? 34)) | _ => false end.

Definition _RE_SEMGREP : bool -> pystr -> bool := whole_word "semgrep".

Definition _RE_CPG_QUERY (prev : bool) (s : pystr) : bool :=
  negb prev &&
  (bool_decide (is_Some (strip_nocase (str "cpg.") s)) ||
   match strip_nocase (str "cpg-query") s with Some t => negb (starts_word t) | None => false end ||
   match strip_nocase (str "codeql") s with Some t => negb (starts_word t) | None => false end).

Definition _RE_LAMBDA (prev : bool) (s : pystr) : bool := whole_word "lambda" prev s || whole_word "def" prev s.

(** [re.match] of [^...$]: the dollar also matches before a final newline. *)
Definition dollar (whole : pystr -> bool) (s : pystr) : bool :=
  whole s || match rev s with 10 :: r => whole (rev r) | _ => false end.

(** [prefix[...]] *)
Definition subscripted (prefix : string) (inner : pystr -> bool) (s : pystr) : bool :=
  match strip (str prefix) s with
  | Some r => match rev r with 93 :: i => inner (rev i) | _ => false end
  | None => false
  end.

Definition position_or_name (s : pystr) : bool :=
  (negb (bool_decide (s = [])) && forallb is_decimal s) || identifier s.

Definition _ARG_REF : pystr -> bool := dollar (subscripted "arg[" position_or_name).
Definition _FIELD_REF : pystr -> bool :=
  dollar (fun s => subscripted "field[" identifier s ||
                   match strip (str "this.") s with Some r => identifier r | None => false end).
Definition _RETURN_REF : pystr := str "ret".
Definition _PROPAGATE_ARROW : Z := 8594.

(** ** Clauses *)

Definition _PRIMITIVE_HEADS : list pystr := map str ["source"; "sink"; "sanitize"; "propagate"].
Definition _SEQUENCING_KW : list pystr := map str ["then"; "seq"; ";"].
Definition _CONDITIONAL_KW : list pystr := map str ["if"; "when"; "guard"; "else"].
Definition _FIXPOINT_KW : list pystr := map str ["fixpoint"; "closure"; "rec"].

(** [re.findall(r"[A-Za-z_]\w*|;", text)]; [cur] is the token being read,
    reversed. *)
Fixpoint find_tokens (cur : pystr) (s : pystr) : list pystr :=
  let flush := match cur with [] => [] | _ => [rev cur] end in
  match s with
  | [] => flush
  | c :: t =>
      if negb (bool_decide (cur = [])) && is_word c then find_tokens (c :: cur) t
      else if name_start c then flush ++ find_tokens [c] t
      else if c =? 59 then flush ++ [59] :: find_tokens [] t
      else flush ++ find_tokens [] t
  end.
Definition _word_tokens (text : pystr) : list pystr := map lower (find_tokens [] text).

Definition any_in (tokens keywords : list pystr) : bool := existsb (fun t => bool_decide (t ∈ keywords)) tokens.

Definition _check_composition_keywords (raw_line : pystr) (line : Z) : outcome unit :=
  let tokens := _word_tokens raw_line in
  if any_in tokens _CONDITIONAL_KW then Raise (DSLError "E-DSL-006" line)
  else if any_in tokens _SEQUENCING_KW then Raise (DSLError "E-DSL-005" line)
  else if any_in tokens _FIXPOINT_KW then Raise (DSLError "E-DSL-007" line)
  else Ok tt.

Definition _check_escape_hatches (body : pystr) (line : Z) : outcome unit :=
  if search _RE_SEMGREP false body then Raise (DSLError "E-DSL-002" line)
  else if search _RE_CPG_QUERY false body then Raise (DSLError "E-DSL-003" line)
  else if search _RE_LAMBDA false body then Raise (DSLError "E-DSL-004" line)
  else if search _RE_RAW_REGEX false body then Raise (DSLError "E-DSL-001" line)
  else Ok tt.

(** The clause regular expression, on a line without newlines: a name, white
    space, and everything between a parenthesis and the last one. *)
Definition clause_shape (raw_line : pystr) : option (pystr * pystr) :=
  let s := lstrip whitespace raw_line in
  let head := take_while is_word s in
  if identifier head then
    match lstrip whitespace (drop_while is_word s) with
    | 40 :: rest =>
        match rev (rstrip whitespace rest) with
        | 41 :: body => Some (head, rev body)
        | _ => None
        end
    | _ => None
    end
  else None.

Definition source_ok (s : pystr) : bool := _ARG_REF s || _FIELD_REF s.
Definition target_ok (s : pystr) : bool := str_eqb s _RETURN_REF || _FIELD_REF s.

Definition _parse_propagate (body : pystr) (line : Z) : outcome Clause :=
  if negb (bool_decide (_PROPAGATE_ARROW ∈ body)) then Raise (DSLError "E-DSL-008" line)
  else
    let src := strip_both whitespace (before _PROPAGATE_ARROW body) in
    let tgt := strip_both whitespace (after _PROPAGATE_ARROW body) in
    if negb (source_ok src) || negb (target_ok tgt) then Raise (DSLError "E-DSL-008" line)
    else Ok (Propagate src tgt).

Definition _parse_clause (raw_line : pystr) (line : Z) : outcome Clause :=
  _ ⇐ _check_composition_keywords raw_line line;
  match clause_shape raw_line with
  | None => Raise (DSLError "E-DSL-008" line)
  | Some (h, b) =>
      let head := lower h in
      let body := strip_both whitespace b in
      if negb (bool_decide (head ∈ _PRIMITIVE_HEADS)) then Raise (DSLError "E-DSL-008" line)
      else
        _ ⇐ _check_escape_hatches body line;
        if str_eqb head (str "propagate") then _parse_propagate body line
        else if str_eqb head (str "source") then Ok (Source body)
        else if str_eqb head (str "sink") then Ok (Sink body)
        else Ok (Sanitize body)
  end.

(** ** The gate on a specification already built *)

Definition revalidate_clause (c : Clause) : outcome unit :=
  match c with
  | Source p | Sink p | Sanitize p => _check_escape_hatches p 0
  | Propagate src tgt => if negb (source_ok src) || negb (target_ok tgt) then Raise (DSLError "E-DSL-008" 0) else Ok tt
  end.

Definition revalidate_spec (spec : Spec) : outcome unit :=
  _ ⇐ mapO revalidate_clause (clauses spec); Ok tt.

(** ** Header and file *)

Definition header := list (pystr * pystr).

(** [header.get(key, "")] *)
Definition header_get (h : header) (key : string) : pystr := default [] (dict_get h (str key)).

Definition unquoted (s : pystr) : pystr := strip_both is_quote (strip_both whitespace s).

Definition language_list (langs_raw : pystr) : list pystr :=
  map unquoted (List.filter (fun x => negb (bool_decide (strip_both whitespace x = [])))
                            (split_on 44 (strip_both is_bracket langs_raw))).

Definition _parse_header (h : header) : outcome (pystr * pystr * list pystr * pystr) :=
  let spec_id := unquoted (header_get h "id") in
  let class_raw := unquoted (header_get h "class") in
  let engine_raw := unquoted (header_get h "engine") in
  let langs_raw := strip_both whitespace (header_get h "languages") in
  if negb (bool_decide (engine_raw ∈ DSL_ENGINES)) then Raise (DSLError "E-DSL-009" 1)
  else if negb (bool_decide (class_raw ∈ CLASS_NAMES)) then Raise (DSLError "E-DSL-008" 1)
  else
    let langs := language_list langs_raw in
    if existsb (fun x => negb (bool_decide (x ∈ LANGUAGES))) langs || bool_decide (langs = [])
    then Raise (DSLError "E-DSL-008" 1)
    else Ok (spec_id, class_raw, langs, engine_raw).

Definition HEADER_KEYS : list pystr := map str ["id"; "class"; "languages"; "engine"].

(** The header regular expression, on a line without newlines and leading
    white space: one of the keys, a colon and the value. *)
Fixpoint header_shape (keys : list pystr) (s : pystr) : option (pystr * pystr) :=
  match keys with
  | [] => None
  | k :: keys =>
      match strip k s with
      | Some r => match lstrip whitespace r with
                  | 58 :: v => Some (k, lstrip whitespace v)
                  | _ => header_shape keys s
                  end
      | None => header_shape keys s
      end
  end.

(** One line: what the loop adds to the header or to the clauses. *)
Definition parse_line (acc : header * list Clause) (numbered : Z * pystr) : outcome (header * list Clause) :=
  let stripped := rstrip whitespace (before 35 numbered.2) in
  if bool_decide (strip_both whitespace stripped = []) then Ok acc
  else
    match header_shape HEADER_KEYS (lstrip whitespace stripped) with
    | Some (k, v) => Ok (dict_set acc.1 k (strip_both whitespace v), acc.2)
    | None =>
        clause ⇐ _parse_clause (strip_both whitespace stripped) numbered.1;
        Ok (acc.1, acc.2 ++ [clause])
    end.

(** [enumerate(lines, start=1)] *)
Definition numbered_lines (lines : list pystr) : list (Z * pystr) := imap (fun i l => (Z.of_nat i + 1, l)) lines.

Definition parse_spec (source_text : pystr) : outcome Spec :=
  acc ⇐ foldO parse_line ([], []) (numbered_lines (splitlines source_text));
  h ⇐ _parse_header acc.1;
  let '(spec_id, class_, langs, engine) := h in
  if bool_decide (acc.2 = []) then Raise (DSLError "E-DSL-008" 1)
  else Ok (mkSpec spec_id class_ langs engine acc.2).

End parser.
