(* ===== verification/DslGrammar.v ===== *)
(** * The text functions of the DSL parser

    Stripping, line splitting, tokens and searches on texts put together from
    known parts. *)
From stdpp Require Import base tactics list sets strings.
From Stdlib Require Import ZArith Lia.
From S2P Require Import Prelude PyData Dsl PyDict PyText JsonParse BoundRules DslParser.

Open Scope Z_scope.

(** ** Dropping and stripping *)

Definition edges_free (p : Z -> bool) (s : pystr) : Prop :=
  match s with c :: _ => p c = false | [] => True end /\ match last s with Some c => p c = false | None => True end.

Section strip.
Context (p : Z -> bool).

Lemma drop_while_app_all w s : Forall (fun c => p c = true) w -> drop_while p (w ++ s) = drop_while p s.
Proof. induction 1 as [|c w H _ IH]; [done|]. cbn. by rewrite H. Qed.

Lemma drop_while_head s : match drop_while p s with c :: _ => p c = false | [] => True end.
Proof. induction s as [|c s IH]; [done|]. cbn. by destruct (p c) eqn:E. Qed.

Lemma drop_while_id s : match s with c :: _ => p c = false | [] => True end -> drop_while p s = s.
Proof. destruct s as [|c s]; [done|]. cbn. by intros ->. Qed.

(** The dropped prefix. *)
Lemma drop_while_split s : exists w, s = w ++ drop_while p s /\ Forall (fun c => p c = true) w.
Proof.
  induction s as [|c s (w & E & H)]; [by exists []|]. cbn. destruct (p c) eqn:Ec; [|by exists []].
  exists (c :: w). split; [by rewrite E at 1|by constructor].
Qed.

Lemma rstrip_split s : exists w, s = rstrip p s ++ w /\ Forall (fun c => p c = true) w.
Proof.
  destruct (drop_while_split (rev s)) as (w & E & H). exists (rev w). unfold rstrip. split.
  - rewrite <-rev_app_distr, <-E. by rewrite rev_involutive.
  - apply Forall_rev. exact H.
Qed.

Lemma last_rev (s : pystr) : last s = head (rev s).
Proof. destruct s as [|c s _] using rev_ind; [done|]. by rewrite last_snoc, rev_app_distr. Qed.

Lemma strip_split s : exists w w', s = w ++ strip_both p s ++ w' /\ Forall (fun c => p c = true) w /\ Forall (fun c => p c = true) w' /\
  edges_free p (strip_both p s).
Proof.
  unfold strip_both, lstrip. destruct (drop_while_split s) as (w & E & Hw). pose proof (drop_while_head s) as Hh.
  set (t := drop_while p s) in *. destruct (rstrip_split t) as (w' & E' & Hw'). exists w, w'.
  split; [by rewrite <-E'|]. split; [done|]. split; [done|]. split.
  - destruct (rstrip p t) as [|c r] eqn:Er; [done|]. rewrite E' in Hh. exact Hh.
  - unfold rstrip. rewrite last_rev, rev_involutive. pose proof (drop_while_head (rev t)) as H. by destruct (drop_while p (rev t)).
Qed.

Lemma strip_edges w s w' : Forall (fun c => p c = true) w -> Forall (fun c => p c = true) w' -> edges_free p s ->
  strip_both p (w ++ s ++ w') = s.
Proof.
  intros Hw Hw' [H0 H1]. unfold strip_both, lstrip. rewrite drop_while_app_all by done. unfold rstrip.
  destruct s as [|c s].
  - cbn [app]. assert (E : drop_while p w' = []) by (rewrite <-(app_nil_r w'); by rewrite drop_while_app_all). by rewrite E.
  - cbn [app]. rewrite (drop_while_id (c :: s ++ w')) by exact H0. change (c :: s ++ w') with ((c :: s) ++ w'). rewrite rev_app_distr.
    rewrite drop_while_app_all by (by apply Forall_rev). rewrite drop_while_id; [apply rev_involutive|].
    rewrite last_rev in H1. by destruct (rev (c :: s)).
Qed.

Lemma strip_id s : edges_free p s -> strip_both p s = s.
Proof. intros H. rewrite <-(app_nil_r s) at 1. by apply (strip_edges [] s []). Qed.

Lemma strip_elem s c : c ∈ strip_both p s -> c ∈ s.
Proof. destruct (strip_split s) as (w & w' & E & _). intros H. rewrite E. set_solver. Qed.
End strip.

Lemma before_app sep s t : sep ∉ s -> before sep (s ++ sep :: t) = s /\ after sep (s ++ sep :: t) = t.
Proof.
  unfold before, after. induction s as [|c s IH]; cbn; intros H.
  - by rewrite Z.eqb_refl.
  - rewrite not_elem_of_cons in H. destruct H as [Hne H]. destruct (Z.eqb_spec c sep); [congruence|]. cbn.
    destruct (IH H) as [-> ->]. done.
Qed.

Lemma before_id sep s : sep ∉ s -> before sep s = s.
Proof.
  unfold before. induction s as [|c s IH]; cbn; intros H; [done|]. rewrite not_elem_of_cons in H. destruct H as [Hne H].
  destruct (Z.eqb_spec c sep); [congruence|]. cbn. by rewrite IH.
Qed.

Lemma before_not sep s : sep ∉ before sep s.
Proof.
  unfold before. induction s as [|c s IH]; cbn; [apply not_elem_of_nil|]. destruct (Z.eqb_spec c sep); cbn; [apply not_elem_of_nil|].
  rewrite not_elem_of_cons. by split.
Qed.

Lemma before_elem sep s c : c ∈ before sep s -> c ∈ s.
Proof. unfold before. induction s as [|d s IH]; cbn; [done|]. destruct (negb _); set_solver. Qed.

Lemma before_after sep s : sep ∈ s -> s = before sep s ++ sep :: after sep s.
Proof.
  unfold before, after. induction s as [|c s IH]; [by intros ?%elem_of_nil|]. cbn. destruct (Z.eqb_spec c sep) as [->|Hne]; [done|].
  cbn. intros [->|H]%elem_of_cons; [done|]. by rewrite <-IH.
Qed.

(** ** Lines *)

Definition unbroken (s : pystr) : Prop := Forall (fun c => line_break c = false) s.

Lemma split_lines_unbroken s cur : unbroken cur -> Forall unbroken (split_lines cur s).
Proof.
  revert cur. induction s as [s IH] using (well_founded_induction (well_founded_ltof _ (@length Z))). unfold ltof in IH.
  intros cur Hc. destruct s as [|c s]; cbn [split_lines].
  - destruct cur; [constructor|]. constructor; [|constructor]. by apply Forall_rev.
  - destruct (line_break c) eqn:E; [|apply IH; [cbn; lia|by constructor]].
    constructor; [by apply Forall_rev|]. destruct s as [|d s]; [constructor|].
    destruct (_ && _); apply IH; cbn; try lia; constructor.
Qed.

Lemma split_lines_cur cur s t : unbroken s -> split_lines cur (s ++ t) = split_lines (rev s ++ cur) t.
Proof.
  intros H. revert cur. induction H as [|c s Hc _ IH]; intros cur; [done|]. cbn. rewrite Hc, IH. by rewrite <-app_assoc.
Qed.

(** Lines joined by newlines, the last of them not empty, split again. *)
Lemma splitlines_join ls l : Forall unbroken ls -> unbroken l -> l <> [] -> splitlines (join [10] (ls ++ [l])) = ls ++ [l].
Proof.
  intros H Hl Hne. unfold splitlines. induction H as [|x ls Hx Hls IH].
  - cbn [app join]. rewrite <-(app_nil_r l) at 1. rewrite split_lines_cur by done. cbn. rewrite app_nil_r.
    destruct (rev l) eqn:E; [|by rewrite <-E, rev_involutive]. by rewrite <-(rev_involutive l), E in Hne.
  - cbn [app]. destruct (ls ++ [l]) as [|y k] eqn:E; [by destruct ls|]. cbn [join]. rewrite split_lines_cur by done.
    rewrite app_nil_r. cbn [app split_lines]. change (line_break 10) with true. cbn match.
    rewrite rev_involutive. f_equal. cbn [join app] in IH. destruct (match k with [] => y | _ => _ end) as [|d t]; [done|exact IH].
Qed.

(** ** Tokens and searches *)

(** What holds of the Unicode database: white space and the arrow are not
    alphanumeric. *)
Class UnicodeLaws {U : UnicodeData} : Prop := {
  space_not_alnum c : 128 <= c -> whitespace c = true -> uni_alnum c = false;
  arrow_not_alnum : uni_alnum 8594 = false
}.

Section tokens.
Context `{UnicodeLaws}.

Lemma name_start_word c : name_start c = true -> is_word c = true.
Proof.
  intros Hn. assert (c < 128) by (unfold name_start, is_letter in Hn; lia). unfold is_word.
  destruct (Z.ltb_spec c 128); [|lia]. by rewrite Hn, orb_true_r.
Qed.

(** A character that ends a token and starts none. *)
Definition quiet (c : Z) : Prop := is_word c = false /\ c <> 59.

Lemma quiet_start c : quiet c -> name_start c = false /\ (c =? 59) = false.
Proof.
  intros [Hw Hc]. split; [|by apply Z.eqb_neq]. destruct (name_start c) eqn:E; [|done]. by rewrite (name_start_word _ E) in Hw.
Qed.

Lemma space_quiet c : whitespace c = true -> quiet c.
Proof.
  intros Hc. split; [|unfold whitespace in Hc; lia]. unfold is_word. destruct (Z.ltb_spec c 128).
  - unfold whitespace in Hc. unfold is_digit, name_start, is_letter. lia.
  - by apply space_not_alnum.
Qed.

Lemma arrow_quiet : quiet 8594.
Proof. split; [|done]. apply arrow_not_alnum. Qed.

Lemma spaces_quiet w : Forall (fun c => whitespace c = true) w -> Forall quiet w.
Proof. intros Hw. eapply Forall_impl; [exact Hw|apply space_quiet]. Qed.

Lemma tokens_stop cur s c t : is_word c = false -> find_tokens cur (s ++ c :: t) = find_tokens cur s ++ find_tokens [] (c :: t).
Proof.
  intros Hc. revert cur. induction s as [|d s IH]; intros cur.
  - cbn [app find_tokens]. rewrite Hc, andb_false_r. cbn [negb]. rewrite bool_decide_true by done. cbn [negb andb].
    destruct (name_start c) eqn:E; [by rewrite (name_start_word _ E) in Hc|]. by destruct (c =? 59).
  - cbn [app find_tokens]. rewrite !IH. destruct (_ && _); [done|]. destruct (name_start d); [by rewrite app_assoc|].
    destruct (d =? 59); by rewrite <-app_assoc.
Qed.

Lemma tokens_lead w s : Forall quiet w -> find_tokens [] (w ++ s) = find_tokens [] s.
Proof.
  induction 1 as [|c w Hc _ IH]; [done|]. destruct (quiet_start c Hc) as [E1 E2]. cbn [app find_tokens].
  rewrite bool_decide_true by done. cbn [negb andb]. by rewrite E1, E2.
Qed.

Lemma tokens_gap cur s w t : Forall quiet w -> w <> [] -> find_tokens cur (s ++ w ++ t) = find_tokens cur s ++ find_tokens [] t.
Proof.
  intros Hw Hne. destruct w as [|c w]; [done|]. inversion Hw as [|? ? [Hc _] _]; subst.
  cbn [app]. rewrite tokens_stop by done. f_equal. exact (tokens_lead (c :: w) t Hw).
Qed.

Lemma tokens_trail cur s w : Forall quiet w -> find_tokens cur (s ++ w) = find_tokens cur s.
Proof.
  intros Hw. destruct w as [|c w]; [by rewrite app_nil_r|]. rewrite <-(app_nil_r (c :: w)), tokens_gap by done. apply app_nil_r.
Qed.

Lemma tokens_name h : identifier h = true -> find_tokens [] h = [h].
Proof.
  destruct h as [|c t]; [done|]. cbn [identifier]. intros [Hc Ht]%andb_true_iff. cbn [find_tokens].
  rewrite bool_decide_true by done. cbn [negb andb]. rewrite Hc. cbn [app].
  assert (Hgen : forall cur, cur <> [] -> find_tokens cur t = [rev cur ++ t]); [|by rewrite Hgen].
  clear Hc. induction t as [|d t IH]; intros cur Hcur; cbn [find_tokens].
  - destruct cur; [done|]. by rewrite app_nil_r.
  - cbn in Ht. apply andb_true_iff in Ht as [Hd Ht]. rewrite bool_decide_false by done. rewrite Hd. cbn [negb andb].
    rewrite (IH Ht) by done. cbn [rev]. by rewrite <-app_assoc.
Qed.

(** A matcher of a search that sees nothing beyond white space and an arrow. *)
Record confined (m : bool -> pystr -> bool) : Prop := {
  cf_nil prev : m prev [] = false;
  cf_letter prev c t : is_letter c = false -> m prev (c :: t) = false;
  cf_gap prev s w1 w2 t : Forall (fun c => whitespace c = true) w1 -> m prev (s ++ w1 ++ 8594 :: w2 ++ t) = m prev s
}.

Lemma space_not_letter c : whitespace c = true -> is_letter c = false.
Proof. unfold whitespace, is_letter. lia. Qed.

Lemma search_quiet m prev w t : confined m -> Forall (fun c => whitespace c = true) w -> w <> [] ->
  search m prev (w ++ t) = search m false t.
Proof.
  intros Hm Hw. revert prev. induction Hw as [|c w Hc Hw IH]; intros prev Hne; [done|]. cbn [app search].
  rewrite (cf_letter _ Hm) by (by apply space_not_letter). cbn [orb]. destruct (space_quiet c Hc) as [-> _].
  destruct w as [|d w]; [done|]. by apply IH.
Qed.

Lemma search_gap m prev s w1 w2 t : confined m -> Forall (fun c => whitespace c = true) w1 -> Forall (fun c => whitespace c = true) w2 ->
  search m prev (s ++ w1 ++ 8594 :: w2 ++ t) = search m prev s || search m false t.
Proof.
  intros Hm H1 H2. revert prev. induction s as [|c s IH]; intros prev.
  - cbn [app search]. rewrite (cf_nil _ Hm). cbn [orb].
    assert (E : forall prev, search m prev (8594 :: w2 ++ t) = search m false t).
    { intros p. cbn [search]. rewrite (cf_letter _ Hm) by done. cbn [orb]. destruct arrow_quiet as [-> _].
      destruct w2 as [|c w2]; [done|]. by apply search_quiet. }
    destruct w1 as [|c w1]; [apply E|]. by rewrite search_quiet.
  - cbn [app search]. rewrite IH. change (c :: s ++ ?x) with ((c :: s) ++ x). rewrite (cf_gap _ Hm) by done. by rewrite orb_assoc.
Qed.

(** Literals of visible ASCII characters. *)
Definition visible (w : pystr) : Prop := Forall (fun c => 33 <= c < 127) w.

Lemma strip_stop w s g t : g ∉ w -> strip w (s ++ g :: t) = (fun r => r ++ g :: t) <$> strip w s.
Proof.
  revert s. induction w as [|c w IH]; intros s Hg; [by destruct s|]. rewrite not_elem_of_cons in Hg. destruct Hg as [Hne Hg].
  destruct s as [|d s]; cbn; [destruct (Z.eqb_spec g c); [congruence|done]|]. destruct (d =? c); [by apply IH|done].
Qed.

Lemma strip_nocase_stop w s g t : ascii_lower g ∉ w -> strip_nocase w (s ++ g :: t) = (fun r => r ++ g :: t) <$> strip_nocase w s.
Proof.
  revert s. induction w as [|c w IH]; intros s Hg; [by destruct s|]. rewrite not_elem_of_cons in Hg. destruct Hg as [Hne Hg].
  destruct s as [|d s]; cbn; [destruct (Z.eqb_spec (ascii_lower g) c); [congruence|done]|]. destruct (_ =? c); [by apply IH|done].
Qed.

Lemma starts_word_stop r g t : is_word g = false -> starts_word (r ++ g :: t) = starts_word r.
Proof. by destruct r. Qed.
End tokens.

(** * The grammar the DSL parser accepts

    [sanctioned]: the clauses of the grammar; [render_spec]: a specification
    as text.  [_parse_clause] returns exactly the sanctioned clauses. *)

Open Scope py_scope.

Section grammar.
Context `{UnicodeLaws}.

(** ** The escape hatches *)

Lemma gap_head w1 w2 t : Forall (fun c => whitespace c = true) w1 -> exists g r, w1 ++ 8594 :: w2 ++ t = g :: r /\
  is_word g = false /\ (g = 8594 \/ whitespace g = true).
Proof.
  intros H1. destruct w1 as [|c w1]; cbn [app]; eexists _, _; (split; [reflexivity|]).
  - split; [apply arrow_quiet|by left].
  - inversion H1; subst. split; [by apply space_quiet|by right].
Qed.

Lemma gap_not_visible g w : g = 8594 \/ whitespace g = true -> visible w -> g ∉ w /\ ascii_lower g ∉ w /\ is_letter g = false.
Proof.
  intros Hg Hw. assert (Hv : g <= 32 \/ 127 <= g) by (destruct Hg as [->|Hg]; [lia|unfold whitespace in Hg; lia]).
  unfold visible in Hw. rewrite Forall_forall in Hw. split_and!.
  - intros Hin. apply Hw in Hin. lia.
  - intros Hin. apply Hw in Hin. revert Hin. unfold ascii_lower. destruct (_ && _) eqn:E; lia.
  - unfold is_letter. lia.
Qed.

Lemma visibleb w : forallb (fun c => (33 <=? c) && (c <? 127)) w = true -> visible w.
Proof. unfold visible. rewrite Forall_forall, forallb_forall. intros Hw c Hc%list_elem_of_In%Hw. lia. Qed.

Lemma confined_word w : match str w with c :: _ => is_letter c = true | [] => False end -> visible (str w) -> confined (whole_word w).
Proof.
  intros Hl Hv. unfold whole_word. destruct (str w) as [|a v] eqn:Ew; [done|]. constructor.
  - intros prev. by rewrite andb_false_r.
  - intros prev c t Hc. cbn [strip]. destruct (Z.eqb_spec c a) as [->|]; [congruence|]. by rewrite andb_false_r.
  - intros prev s w1 w2 t H1. destruct (gap_head w1 w2 t H1) as (g & r & -> & Hg & Hk).
    destruct (gap_not_visible g _ Hk Hv) as (Hn & _ & _). rewrite strip_stop by done.
    destruct (strip (a :: v) s) as [r'|]; [|done]. cbn. by rewrite starts_word_stop.
Qed.

Lemma confined_or m n : confined m -> confined n -> confined (fun prev s => m prev s || n prev s).
Proof.
  intros [M1 M2 M3] [N1 N2 N3]. constructor; intros.
  - by rewrite M1, N1.
  - by rewrite M2, N2.
  - by rewrite M3, N3.
Qed.

Ltac confined_literal := apply confined_word; [reflexivity|apply visibleb; reflexivity].

Lemma confined_semgrep : confined _RE_SEMGREP.
Proof. confined_literal. Qed.

Lemma confined_lambda : confined _RE_LAMBDA.
Proof. apply confined_or; confined_literal. Qed.

Lemma confined_cpg : confined _RE_CPG_QUERY.
Proof.
  unfold _RE_CPG_QUERY. constructor.
  - intros prev. by rewrite andb_false_r.
  - intros prev c t Hc. assert (Hn : forall a w, is_letter a = true -> 97 <= a -> strip_nocase (a :: w) (c :: t) = None).
    { intros a w Ha Ha'. cbn. destruct (Z.eqb_spec (ascii_lower c) a) as [Ea|]; [|done]. revert Ea. unfold ascii_lower, is_letter in *.
      destruct (_ && _) eqn:E; lia. }
    change (str "cpg.") with (99 :: str "pg."). change (str "cpg-query") with (99 :: str "pg-query").
    change (str "codeql") with (99 :: str "odeql"). rewrite !Hn by done. by rewrite bool_decide_false, andb_false_r by by intros [].
  - intros prev s w1 w2 t H1. destruct (gap_head w1 w2 t H1) as (g & r & -> & Hg & Hk). f_equal.
    rewrite !strip_nocase_stop by (apply (gap_not_visible g); [done|apply visibleb; reflexivity]).
    f_equal; [f_equal|].
    + apply bool_decide_ext. rewrite !is_Some_alt. by destruct (strip_nocase (str "cpg.") s).
    + destruct (strip_nocase (str "cpg-query") s); [|done]. cbn. by rewrite starts_word_stop.
    + destruct (strip_nocase (str "codeql") s); [|done]. cbn. by rewrite starts_word_stop.
Qed.

Lemma paren_stop r w1 k : Forall (fun c => whitespace c = true) w1 ->
  match drop_while whitespace (r ++ w1 ++ 8594 :: k) with c :: _ => c =? 40 | [] => false end =
  match drop_while whitespace r with c :: _ => c =? 40 | [] => false end.
Proof.
  intros H1. induction r as [|c r IH]; cbn [app drop_while].
  - by rewrite drop_while_app_all.
  - by destruct (whitespace c).
Qed.

Lemma confined_regex : confined _RE_RAW_REGEX.
Proof.
  unfold _RE_RAW_REGEX. apply confined_or; [apply confined_or|]; [confined_literal|..].
  - constructor.
    + intros prev. by rewrite andb_false_r.
    + intros prev c t Hc. change (str "regex") with (114 :: str "egex"). cbn [strip].
      destruct (Z.eqb_spec c 114) as [->|]; [done|]. by rewrite andb_false_r.
    + intros prev s w1 w2 t H1. f_equal. pose proof (fun r => paren_stop r w1 (w2 ++ t) H1) as Hp.
      destruct (gap_head w1 w2 t H1) as (g & r & E & Hg & Hk). rewrite E in *.
      rewrite strip_stop by (apply (gap_not_visible g); [done|apply visibleb; reflexivity]).
      destruct (strip (str "regex") s) as [r'|]; [|done]. apply Hp.
  - constructor.
    + done.
    + intros _ c [|d t] Hc; [done|]. destruct (Z.eqb_spec c 114) as [->|]; done.
    + intros _ s w1 w2 t H1. destruct (gap_head w1 w2 t H1) as (gp & r & -> & Hg & Hk). destruct s as [|a [|b s]]; [..|done].
      * cbn [app]. destruct r as [|d r]; [done|]. pose proof (proj2 (proj2 (gap_not_visible gp [] Hk (Forall_nil_2 _)))) as Hl.
        destruct (Z.eqb_spec gp 114) as [Eg|]; [by rewrite Eg in Hl|done].
      * cbn [app]. destruct (Z.eqb_spec gp 39) as [E|], (Z.eqb_spec gp 34) as [E'|]; try (subst gp; by destruct Hk). by rewrite andb_false_r.
Qed.

(** ** Clean texts *)

Definition clean (p : pystr) : Prop :=
  search _RE_SEMGREP false p = false /\ search _RE_CPG_QUERY false p = false /\
  search _RE_LAMBDA false p = false /\ search _RE_RAW_REGEX false p = false.

Lemma hatches_Ok p line : _check_escape_hatches p line = Ok tt <-> clean p.
Proof.
  unfold _check_escape_hatches, clean. destruct (search _RE_SEMGREP _ _), (search _RE_CPG_QUERY _ _), (search _RE_LAMBDA _ _), (search _RE_RAW_REGEX _ _);
    naive_solver.
Qed.

Lemma clean_gap s w1 w2 t : Forall (fun c => whitespace c = true) w1 -> Forall (fun c => whitespace c = true) w2 ->
  clean (s ++ w1 ++ 8594 :: w2 ++ t) <-> clean s /\ clean t.
Proof.
  intros H1 H2. unfold clean. rewrite !search_gap by (done || apply confined_semgrep || apply confined_cpg || apply confined_lambda || apply confined_regex).
  rewrite !orb_false_iff. tauto.
Qed.

(** ** Keywords *)

Definition keyword_free (tokens : list pystr) : Prop :=
  any_in tokens _CONDITIONAL_KW = false /\ any_in tokens _SEQUENCING_KW = false /\ any_in tokens _FIXPOINT_KW = false.

Lemma keywords_Ok s line : _check_composition_keywords s line = Ok tt <-> keyword_free (_word_tokens s).
Proof.
  unfold _check_composition_keywords, keyword_free. destruct (any_in _ _CONDITIONAL_KW), (any_in _ _SEQUENCING_KW), (any_in _ _FIXPOINT_KW); naive_solver.
Qed.

Lemma keyword_free_app l k : keyword_free (l ++ k) <-> keyword_free l /\ keyword_free k.
Proof. unfold keyword_free, any_in. rewrite !existsb_app, !orb_false_iff. tauto. Qed.

(** ** Clauses *)

Definition one_line (s : pystr) : Prop := unbroken s /\ 35 ∉ s.

Record fragment (p : pystr) : Prop := {
  fr_line : one_line p;
  fr_edges : edges_free whitespace p;
  fr_keywords : keyword_free (_word_tokens p);
  fr_clean : clean p
}.

(** The clauses of the grammar. *)
Definition sanctioned (c : Clause) : Prop :=
  match c with
  | Source p | Sink p | Sanitize p => fragment p
  | Propagate s t => fragment s /\ fragment t /\ _PROPAGATE_ARROW ∉ s /\ source_ok s = true /\ target_ok t = true
  end.

Definition clause_head (c : Clause) : pystr :=
  match c with Source _ => str "source" | Sink _ => str "sink" | Sanitize _ => str "sanitize" | Propagate _ _ => str "propagate" end.
Definition clause_body (c : Clause) : pystr :=
  match c with Source p | Sink p | Sanitize p => p | Propagate s t => s ++ [32] ++ _PROPAGATE_ARROW :: [32] ++ t end.

Definition render_clause (c : Clause) : pystr := clause_head c ++ [40] ++ clause_body c ++ [41].

Notation spaces w := (Forall (fun c => whitespace c = true) w).

Lemma take_while_word h k : forallb is_word h = true -> starts_word k = false -> take_while is_word (h ++ k) = h /\ drop_while is_word (h ++ k) = k.
Proof.
  induction h as [|c h IH]; cbn [app forallb].
  - intros _ Hk. destruct k as [|c k]; [done|]. cbn in *. by rewrite Hk.
  - intros [Hc Hh]%andb_true_iff Hk. cbn. rewrite Hc. destruct (IH Hh Hk) as [-> ->]. done.
Qed.

Lemma identifier_word h : identifier h = true -> forallb is_word h = true.
Proof. destruct h as [|c h]; [done|]. cbn. intros [Hc ->]%andb_true_iff. by rewrite name_start_word. Qed.

Lemma identifier_edges h : identifier h = true -> match h with c :: _ => whitespace c = false | [] => False end.
Proof.
  destruct h as [|c h]; [done|]. cbn. intros [Hc _]%andb_true_iff. destruct (whitespace c) eqn:E; [|done].
  destruct (space_quiet _ E) as [Hw _]. by rewrite (name_start_word _ Hc) in Hw.
Qed.
Lemma word_split s : s = take_while is_word s ++ drop_while is_word s.
Proof. induction s as [|c s IH]; [done|]. cbn. destruct (is_word c); [|done]. cbn. by rewrite <-IH. Qed.

(** The clause regular expression matches what its description says. *)
Lemma clause_shape_Some L h b : clause_shape L = Some (h, b) <->
  identifier h = true /\ exists w0 w1 w2, spaces w0 /\ spaces w1 /\ spaces w2 /\ L = w0 ++ h ++ w1 ++ 40 :: b ++ 41 :: w2.
Proof.
  unfold clause_shape, lstrip. split.
  - destruct (drop_while_split whitespace L) as (w0 & E & H0). set (s := drop_while whitespace L) in *.
    pose proof (word_split s) as Es. destruct (identifier (take_while is_word s)) eqn:Ei; [|done].
    set (r := drop_while is_word s) in *. destruct (drop_while_split whitespace r) as (w1 & Er & H1).
    destruct (drop_while whitespace r) as [|c k]; [done|].
    destruct (decide (c = 40)) as [->|Hc]; [|intros Hk; destruct c as [|p|p]; try done; repeat (destruct p as [p|p|]; try done)].
    destruct (rstrip_split whitespace k) as (w2 & Ek & H2). destruct (rev (rstrip whitespace k)) as [|c body] eqn:Eb; [done|].
    destruct (decide (c = 41)) as [->|Hc]; [|intros Hk; destruct c as [|p|p]; try done; repeat (destruct p as [p|p|]; try done)].
    intros [= <- <-]. split; [done|]. exists w0, w1, w2. split_and!; [done..|].
    rewrite E, Es, Er, Ek at 1. rewrite <-(rev_involutive (rstrip whitespace k)), Eb. cbn [rev]. rewrite <-!app_assoc. done.
  - intros (Hi & w0 & w1 & w2 & H0 & H1 & H2 & ->). rewrite drop_while_app_all by done.
    pose proof (identifier_edges _ Hi) as He. rewrite (drop_while_id _ (h ++ _)) by (by destruct h).
    destruct (take_while_word h (w1 ++ 40 :: b ++ 41 :: w2) (identifier_word _ Hi)) as [-> ->].
    { destruct w1 as [|c w1]; [done|]. inversion H1; subst. by apply space_quiet. }
    rewrite Hi, drop_while_app_all by done. rewrite (drop_while_id whitespace (40 :: _)) by done.
    assert (E : rstrip whitespace (b ++ 41 :: w2) = b ++ [41]).
    { unfold rstrip. rewrite rev_app_distr. cbn [rev]. rewrite <-app_assoc. rewrite drop_while_app_all by (by apply Forall_rev).
      cbn. by rewrite rev_involutive. }
    rewrite E, rev_app_distr. cbn. by rewrite rev_involutive.
Qed.

Lemma punctuation_quiet : quiet 40 /\ quiet 41 /\ quiet 32.
Proof. by split_and!. Qed.

Lemma clause_tokens w0 h w1 b w2 : identifier h = true -> spaces w0 -> spaces w1 -> spaces w2 ->
  _word_tokens (w0 ++ h ++ w1 ++ 40 :: b ++ 41 :: w2) = lower h :: _word_tokens (strip_both whitespace b).
Proof.
  intros Hi H0 H1 H2. unfold _word_tokens. rewrite tokens_lead by (by apply spaces_quiet).
  destruct punctuation_quiet as (Q1 & Q2 & _). change (40 :: ?k) with ([40] ++ k). rewrite (app_assoc w1 [40]).
  rewrite tokens_gap; [|apply Forall_app; split; [by apply spaces_quiet|by repeat constructor]|by destruct w1].
  rewrite tokens_name by done. cbn [app map]. f_equal. f_equal.
  destruct (strip_split whitespace b) as (u & u' & E & Hu & Hu' & _). rewrite E at 1.
  rewrite tokens_trail by (constructor; [done|by apply spaces_quiet]).
  rewrite tokens_lead by (by apply spaces_quiet). by apply tokens_trail, spaces_quiet.
Qed.

Lemma arrow_tokens s w1 w2 t : spaces w1 -> spaces w2 ->
  _word_tokens (s ++ w1 ++ 8594 :: w2 ++ t) = _word_tokens s ++ _word_tokens t.
Proof.
  intros H1 H2. unfold _word_tokens. rewrite <-map_app. f_equal.
  replace (w1 ++ 8594 :: w2 ++ t) with ((w1 ++ 8594 :: w2) ++ t) by (by rewrite <-app_assoc).
  apply tokens_gap; [|by destruct w1]. apply Forall_app. split; [by apply spaces_quiet|]. constructor; [apply arrow_quiet|by apply spaces_quiet].
Qed.

(** ** Rendered clauses parse *)

Lemma edges_app p s k t : s <> [] -> t <> [] -> edges_free p s -> edges_free p t -> edges_free p (s ++ k ++ t).
Proof.
  intros Hs Ht [S0 _] [_ T1]. destruct s as [|c s]; [done|]. split; [exact S0|].
  destruct t as [|d t _] using rev_ind; [done|]. rewrite last_snoc in T1. rewrite !app_assoc, last_snoc. exact T1.
Qed.

Lemma source_ok_nil : source_ok [] = false /\ target_ok [] = false.
Proof. done. Qed.

Lemma body_edges c : sanctioned c -> edges_free whitespace (clause_body c).
Proof.
  destruct c as [p|p|p|s t]; cbn; try by intros []. intros ([_ Es _ _] & [_ Et _ _] & _ & Hs & Ht).
  apply (edges_app _ s ([32] ++ _PROPAGATE_ARROW :: [32]) t); try done; [by intros ->|by intros ->].
Qed.

Lemma head_known c : identifier (clause_head c) = true /\ lower (clause_head c) = clause_head c /\
  clause_head c ∈ _PRIMITIVE_HEADS /\ keyword_free [clause_head c].
Proof.
  destruct c; split_and!; try (vm_compute; reflexivity); try (apply (bool_decide_unpack _); vm_compute; exact I).
  all: split_and!; vm_compute; reflexivity.
Qed.

Lemma body_keywords c : sanctioned c -> keyword_free (_word_tokens (clause_body c)) /\ clean (clause_body c).
Proof.
  destruct c as [p|p|p|s t]; cbn; try by intros []. intros ([_ _ Ks Cs] & [_ _ Kt Ct] & _).
  assert (S1 : spaces [32]) by (by repeat constructor). split.
  - change (keyword_free (_word_tokens (s ++ [32] ++ 8594 :: [32] ++ t))). rewrite arrow_tokens by done. by apply keyword_free_app.
  - by apply (clean_gap s [32] [32] t).
Qed.

Lemma parse_render c line : sanctioned c -> _parse_clause (render_clause c) line = Ok c.
Proof.
  intros Hc. destruct (head_known c) as (Hi & Hl & Hin & Hkw). destruct (body_keywords c Hc) as [Hk Hcl]. unfold _parse_clause.
  assert (E : clause_shape (render_clause c) = Some (clause_head c, clause_body c)).
  { apply clause_shape_Some. split; [done|]. exists [], [], []. by repeat constructor. }
  rewrite (proj2 (keywords_Ok _ line)); cycle 1.
  { change (render_clause c) with ([] ++ clause_head c ++ [] ++ 40 :: clause_body c ++ 41 :: []).
    rewrite clause_tokens by (done || constructor). rewrite Hl, strip_id by (by apply body_edges).
    change (?a :: ?l) with ([a] ++ l). by apply keyword_free_app. }
  cbn [obind]. rewrite E, Hl, strip_id by (by apply body_edges). rewrite bool_decide_true by done. cbn [negb].
  rewrite (proj2 (hatches_Ok _ line)) by done. cbn [obind]. destruct c as [p|p|p|s t]; try reflexivity.
  cbn [clause_head clause_body]. change (str_eqb (str "propagate") (str "propagate")) with true. cbn match.
  unfold _parse_propagate. destruct Hc as ([_ Es _ _] & [_ Et _ _] & Ha & Hs & Ht).
  rewrite bool_decide_true by set_solver. cbn [negb].
  rewrite app_assoc. destruct (before_app _PROPAGATE_ARROW (s ++ [32]) ([32] ++ t)) as [-> ->].
  { rewrite not_elem_of_app, list_elem_of_singleton. done. }
  assert (S1 : spaces [32]) by (by repeat constructor). pose proof (strip_edges whitespace [] s [32] (Forall_nil_2 _) S1 Es) as E1.
  pose proof (strip_edges whitespace [32] t [] S1 (Forall_nil_2 _) Et) as E2. rewrite app_nil_r in E2. cbn [app] in E1, E2.
  rewrite E1. cbn [app]. rewrite E2. by rewrite Hs, Ht.
Qed.
(** ** Parsed clauses are sanctioned *)

Lemma unbroken_app s t : unbroken (s ++ t) <-> unbroken s /\ unbroken t.
Proof. apply Forall_app. Qed.

Lemma one_line_app s t : one_line (s ++ t) <-> one_line s /\ one_line t.
Proof. unfold one_line. rewrite unbroken_app, not_elem_of_app. tauto. Qed.

Lemma one_line_strip p s : one_line s -> one_line (strip_both p s).
Proof. destruct (strip_split p s) as (w & w' & E & _). rewrite E at 1. rewrite !one_line_app. tauto. Qed.

(** A text without white space at its edges starts and ends with what is left
    when its outer white space is taken off. *)
Lemma edges_inner p w s w' : edges_free p (w ++ s ++ w') -> Forall (fun c => p c = true) w -> Forall (fun c => p c = true) w' -> w = [] /\ w' = [].
Proof.
  intros [H0 H1] Hw Hw'. split.
  - destruct w as [|c w]; [done|]. inversion Hw; subst. cbn in H0. congruence.
  - destruct w' as [|c w' _] using rev_ind; [done|]. rewrite !app_assoc, last_snoc in H1.
    apply Forall_app in Hw' as [_ Hc]. inversion Hc; subst. congruence.
Qed.

Lemma propagate_sanctioned body line c : one_line body -> edges_free whitespace body -> keyword_free (_word_tokens body) -> clean body ->
  _parse_propagate body line = Ok c -> sanctioned c.
Proof.
  unfold _parse_propagate. intros Hl He Hk Hc. case_bool_decide as Ha; [|done]. cbn [negb].
  pose proof (before_after _ _ Ha) as E. pose proof (before_not _PROPAGATE_ARROW body) as Hn. revert E Hn.
  generalize (before _PROPAGATE_ARROW body), (after _PROPAGATE_ARROW body). intros l r E Hn.
  destruct (negb (source_ok _) || _) eqn:Eok; [done|]. intros [= <-]. apply orb_false_iff in Eok as [Es%negb_false_iff Et%negb_false_iff].
  destruct (strip_split whitespace l) as (u & u' & El & Hu & Hu' & Hes). destruct (strip_split whitespace r) as (v & v' & Er & Hv & Hv' & Het).
  revert Es Et Hes Het El Er. generalize (strip_both whitespace l), (strip_both whitespace r). intros s t Es Et Hes Het -> ->.
  assert (E' : body = u ++ (s ++ u' ++ 8594 :: v ++ t) ++ v') by (rewrite E, <-!app_assoc; cbn [app]; by rewrite <-!app_assoc). clear E.
  rewrite E' in He.
  destruct (edges_inner _ _ _ _ He Hu Hv') as [-> ->]. cbn [app] in *. rewrite app_nil_r in E'. subst body.
  rewrite arrow_tokens, keyword_free_app in Hk by done. rewrite clean_gap in Hc by done.
  apply one_line_app in Hl as [Hl1 [_ Hl2]%one_line_app]. change (8594 :: v ++ t) with ([8594] ++ v ++ t) in Hl2.
  apply one_line_app in Hl2 as [_ [_ Hl2]%one_line_app]. rewrite not_elem_of_app in Hn.
  cbn. split_and!; [constructor; tauto|constructor; tauto|tauto|done|done].
Qed.

Lemma parse_sanctioned L line c : one_line L -> _parse_clause L line = Ok c -> sanctioned c.
Proof.
  unfold _parse_clause. intros Hl ([] & Hk%keywords_Ok & E)%obind_Ok. destruct (clause_shape L) as [[h b]|] eqn:Es; [|done].
  apply clause_shape_Some in Es as (Hi & w0 & w1 & w2 & H0 & H1 & H2 & ->). rewrite clause_tokens in Hk by done.
  change (lower h :: ?l) with ([lower h] ++ l) in Hk. apply keyword_free_app in Hk as [_ Hk].
  destruct (negb _); [done|]. apply obind_Ok in E as ([] & Hc%hatches_Ok & E).
  assert (Hb : one_line b).
  { apply one_line_app in Hl as [_ [_ [_ Hl]%one_line_app]%one_line_app]. change (40 :: b ++ 41 :: w2) with ([40] ++ b ++ 41 :: w2) in Hl.
    by apply one_line_app in Hl as [_ [Hl _]%one_line_app]. }
  apply (one_line_strip whitespace) in Hb. destruct (strip_split whitespace b) as (_ & _ & _ & _ & _ & He).
  destruct (str_eqb _ _); [by eapply propagate_sanctioned|]. destruct (str_eqb _ _); [|destruct (str_eqb _ _)]; injection E as <-; by constructor.
Qed.

(** The parser's clauses pass the gate on built specifications. *)
Lemma sanctioned_revalidates c : sanctioned c -> revalidate_clause c = Ok tt.
Proof.
  destruct c as [p|p|p|s t]; cbn; try (intros [_ _ _ Hc]; by apply hatches_Ok). intros (_ & _ & _ & -> & ->). done.
Qed.
End grammar.
