(* ===== verification/DslSpec.v ===== *)
(** * What the DSL parser accepts

    A specification is the result of a parse exactly when it is well formed,
    and then it is the result of parsing its own rendering, as is every
    specification of the documented grammar without reserved words; a rejection is a
    [DSLError] of the first line that is not in the grammar, or of the header. *)
From stdpp Require Import base tactics list sets strings.
From Stdlib Require Import ZArith Lia.
From S2P Require Import Prelude PyData PyDict Dsl PyText JsonParse BoundRules DslParser DslGrammar.

Open Scope Z_scope.
Open Scope py_scope.

Section spec.
Context `{UnicodeLaws}.

(** ** Well-formed specifications *)

Record well_formed (spec : Spec) : Prop := {
  wf_id : one_line (spec_id spec) /\ edges_free is_quote (spec_id spec);
  wf_class : class_ spec ∈ CLASS_NAMES;
  wf_engine : engine spec ∈ DSL_ENGINES;
  wf_languages : languages spec <> [] /\ Forall (fun l => l ∈ LANGUAGES) (languages spec);
  wf_clauses : clauses spec <> [] /\ Forall sanctioned (clauses spec)
}.

(** A specification as text. *)
Definition header_lines (spec : Spec) : list pystr :=
  [str "id" ++ [58; 32] ++ [34] ++ spec_id spec ++ [34];
   str "class" ++ [58; 32] ++ class_ spec;
   str "languages" ++ [58; 32] ++ [91] ++ join [44] (languages spec) ++ [93];
   str "engine" ++ [58; 32] ++ engine spec].

Definition render_spec (spec : Spec) : pystr := join [10] (header_lines spec ++ map render_clause (clauses spec)).

(** ** Parsed specifications are well formed *)

Lemma one_line_mono s t : (forall c, c ∈ t -> c ∈ s) -> one_line s -> one_line t.
Proof.
  intros Hin [Hu Hh]. split; [|by intros ?%Hin]. unfold unbroken in *. rewrite Forall_forall in *. intros c Hc. by apply Hu, Hin.
Qed.

Lemma drop_while_elem p s c : c ∈ drop_while p s -> c ∈ s.
Proof. destruct (drop_while_split p s) as (w & E & _). intros Hc. rewrite E. set_solver. Qed.

Lemma rstrip_elem p s c : c ∈ rstrip p s -> c ∈ s.
Proof. destruct (rstrip_split p s) as (w & E & _). intros Hc. rewrite E. set_solver. Qed.

Lemma strip_suffix w s r c : strip w s = Some r -> c ∈ r -> c ∈ s.
Proof.
  revert s. induction w as [|a w IH]; intros s E Hc; cbn in E; [by destruct s; injection E as <-|].
  destruct s as [|d s]; [done|]. destruct (d =? a); [|done]. right. by eapply IH.
Qed.

Lemma header_shape_elem keys s k v c : header_shape keys s = Some (k, v) -> c ∈ v -> c ∈ s.
Proof.
  induction keys as [|k' keys IH]; cbn; [done|]. destruct (strip k' s) as [r|] eqn:E; [|done].
  destruct (lstrip whitespace r) as [|d t] eqn:Er; [done|]. intros E' Hc.
  assert (Hd : Some (k', lstrip whitespace t) = Some (k, v) \/ header_shape keys s = Some (k, v)).
  { destruct d as [|p|p]; try tauto. repeat (destruct p as [p|p|]; try tauto). }
  destruct Hd as [[= _ <-]|Hd]; [|by apply IH]. eapply strip_suffix; [exact E|]. apply (drop_while_elem whitespace).
  unfold lstrip in Er. rewrite Er. right. by eapply drop_while_elem.
Qed.

Definition parsed_so_far (acc : header * list Clause) : Prop :=
  Forall sanctioned acc.2 /\ forall k v, dict_get acc.1 k = Some v -> one_line v.

Lemma parse_line_keeps acc numbered acc' : parsed_so_far acc -> unbroken numbered.2 -> parse_line acc numbered = Ok acc' -> parsed_so_far acc'.
Proof.
  intros [Hc Hh] Hu. unfold parse_line. assert (Hl : one_line (rstrip whitespace (before 35 numbered.2))).
  { apply (one_line_mono (before 35 numbered.2)); [intros c; apply rstrip_elem|]. split; [|apply before_not].
    unfold unbroken in *. rewrite Forall_forall in *. intros c Hin%before_elem. by apply Hu. }
  set (line := rstrip whitespace _) in *. case_bool_decide; [by intros [= <-]|].
  destruct (header_shape _ _) as [[k v]|] eqn:Es.
  - intros [= <-]. split; [done|]. cbn. intros k' v' E. rewrite dict_get_set in E. destruct (str_eqb k k'); [|by eapply Hh].
    injection E as <-. apply one_line_strip. eapply one_line_mono; [|exact Hl]. intros c Hin.
    eapply header_shape_elem in Hin; [|exact Es]. by eapply drop_while_elem.
  - intros (clause & Ec & [= <-])%obind_Ok. split; [|done]. cbn. apply Forall_app. split; [done|]. constructor; [|done].
    eapply parse_sanctioned; [|exact Ec]. by apply one_line_strip.
Qed.

Lemma foldO_keeps {A S} (P : S -> Prop) (f : S -> A -> outcome S) l s s' :
  (forall s x s', x ∈ l -> P s -> f s x = Ok s' -> P s') -> P s -> foldO f s l = Ok s' -> P s'.
Proof.
  revert s. induction l as [|x l IH]; intros s Hf Hs; cbn; [by intros [= <-]|]. intros (t & E & E')%obind_Ok.
  eapply IH; [|by eapply Hf; [left|exact Hs|exact E]|exact E']. intros u y v Hy. apply Hf. by right.
Qed.

Lemma lines_keep text acc : foldO parse_line ([], []) (numbered_lines (splitlines text)) = Ok acc -> parsed_so_far acc.
Proof.
  apply foldO_keeps; [|by split]. intros s [n l] s' Hin. intros Hs. apply parse_line_keeps; [done|]. cbn.
  assert (Hl : l ∈ splitlines text).
  { unfold numbered_lines in Hin. apply elem_of_lookup_imap in Hin as (i & y & [= _ ->] & Hy). by eapply list_elem_of_lookup_2. }
  pose proof (split_lines_unbroken text [] (Forall_nil_2 _)) as Hall. rewrite Forall_forall in Hall. by apply Hall.
Qed.

Lemma parse_header_Ok h id class langs eng : _parse_header h = Ok (id, class, langs, eng) ->
  id = unquoted (header_get h "id") /\ class ∈ CLASS_NAMES /\ eng ∈ DSL_ENGINES /\ langs <> [] /\ Forall (fun l => l ∈ LANGUAGES) langs.
Proof.
  unfold _parse_header. case_bool_decide as He; [|done]. case_bool_decide as Hc; [|done]. cbn [negb].
  destruct (existsb _ _) eqn:Hx; [done|]. case_bool_decide as Hn; [done|]. cbn [orb]. intros [= <- <- <- <-]. split_and!; [done..|].
  apply Forall_forall. intros x Hin. destruct (decide (x ∈ LANGUAGES)) as [|Hno]; [done|].
  assert (existsb (fun x => negb (bool_decide (x ∈ LANGUAGES))) (language_list (strip_both whitespace (header_get h "languages"))) = true) as Ht; [|congruence].
  apply existsb_exists. exists x. split; [by apply list_elem_of_In|]. by rewrite bool_decide_false.
Qed.

Lemma parsed_well_formed text spec : parse_spec text = Ok spec -> well_formed spec.
Proof.
  unfold parse_spec. intros ([h cs] & [Hc Hh]%lines_keep & E)%obind_Ok. cbn [fst snd] in *.
  apply obind_Ok in E as ([[[id class] langs] eng] & (-> & H1 & H2 & H3 & H4)%parse_header_Ok & E).
  case_bool_decide as Hn; [done|]. injection E as <-. constructor; try done. cbn. unfold unquoted. split.
  - apply one_line_strip, one_line_strip. unfold header_get. destruct (dict_get h (str "id")) as [v|] eqn:Ev; [by eapply Hh|].
    split; [constructor|apply not_elem_of_nil].
  - by destruct (strip_split is_quote (strip_both whitespace (header_get h "id"))) as (_ & _ & _ & _ & _ & He).
Qed.
(** ** Renderings parse back *)

(** The names of classes, languages and engines are letters and hyphens. *)
Definition plain_name (s : pystr) : bool := negb (bool_decide (s = [])) && forallb (fun c => is_letter c || (c =? 45)) s.

Lemma names_plain : Forall (fun s => plain_name s = true) (CLASS_NAMES ++ LANGUAGES ++ DSL_ENGINES).
Proof. apply Forall_forall. intros s Hs. revert s Hs. apply Forall_forall. repeat (constructor; [reflexivity|]). constructor. Qed.

Lemma name_plain s : s ∈ CLASS_NAMES \/ s ∈ LANGUAGES \/ s ∈ DSL_ENGINES -> plain_name s = true.
Proof. pose proof names_plain as Hn. rewrite Forall_forall in Hn. intros Hs. apply Hn. rewrite !elem_of_app. tauto. Qed.

Definition outside (p : Z -> bool) (s : pystr) : Prop := Forall (fun c => p c = false) s.

Lemma outside_edges p s : outside p s -> edges_free p s.
Proof.
  unfold outside. intros Hs. split; [destruct Hs; done|]. destruct s as [|c s _] using rev_ind; [done|].
  rewrite last_snoc. apply Forall_app in Hs as [_ Hc]. by inversion Hc.
Qed.

Lemma plain_outside p s : (forall c, is_letter c = true \/ c = 45 -> p c = false) -> plain_name s = true -> outside p s.
Proof.
  intros Hp [_ Hs]%andb_true_iff. apply Forall_forall. intros c Hc. rewrite forallb_forall in Hs. apply list_elem_of_In, Hs in Hc.
  apply Hp. apply orb_true_iff in Hc as [Hc|Hc%Z.eqb_eq]; tauto.
Qed.

Lemma plain_classes c : is_letter c = true \/ c = 45 ->
  whitespace c = false /\ is_quote c = false /\ is_bracket c = false /\ line_break c = false /\ (c =? 44) = false /\ (c =? 35) = false.
Proof. unfold is_letter, whitespace, is_quote, is_bracket, line_break. intros [Hc| ->]; [|done]. split_and!; lia. Qed.

Record simple (s : pystr) : Prop := {
  sm_nonempty : s <> [];
  sm_spaces : edges_free whitespace s;
  sm_quotes : edges_free is_quote s;
  sm_brackets : outside is_bracket s;
  sm_commas : 44 ∉ s;
  sm_line : one_line s
}.

Lemma plain_simple s : plain_name s = true -> simple s.
Proof.
  intros Hs. assert (Hne : s <> []) by (intros ->; done). constructor; [done|..].
  - apply outside_edges. eapply plain_outside; [|done]. intros c Hc%plain_classes. tauto.
  - apply outside_edges. eapply plain_outside; [|done]. intros c Hc%plain_classes. tauto.
  - eapply plain_outside; [|done]. intros c Hc%plain_classes. tauto.
  - assert (Ho : outside (fun c => c =? 44) s) by (eapply plain_outside; [|done]; intros c Hc%plain_classes; tauto).
    unfold outside in Ho. rewrite Forall_forall in Ho. intros Hin. by apply Ho in Hin.
  - split; [eapply plain_outside; [|done]; intros c Hc%plain_classes; tauto|].
    assert (Ho : outside (fun c => c =? 35) s) by (eapply plain_outside; [|done]; intros c Hc%plain_classes; tauto).
    unfold outside in Ho. rewrite Forall_forall in Ho. intros Hin. by apply Ho in Hin.
Qed.

Lemma simple_unquoted s : simple s -> unquoted s = s.
Proof. intros [_ Hw Hq _ _ _]. unfold unquoted. by rewrite !strip_id by first [done|by rewrite strip_id]. Qed.

Lemma split_join ls : ls <> [] -> Forall (fun l => 44 ∉ l) ls -> split_on 44 (join [44] ls) = ls.
Proof.
  intros Hne Hls. assert (Happ : forall l t, 44 ∉ l -> split_on 44 (l ++ 44 :: t) = l :: split_on 44 t).
  { clear. induction l as [|c l IH]; intros t Hl; [done|]. apply not_elem_of_cons in Hl as [Hc Hl]. cbn [app split_on].
    destruct (Z.eqb_spec c 44); [congruence|]. by rewrite IH. }
  induction Hls as [|l ls Hl Hls IH]; [done|]. destruct ls as [|k ls].
  - cbn [join]. clear -Hl. induction l as [|c l IH]; [done|]. apply not_elem_of_cons in Hl as [Hc Hl]. cbn [split_on].
    destruct (Z.eqb_spec c 44); [congruence|]. by rewrite IH.
  - change (split_on 44 (l ++ 44 :: join [44] (k :: ls)) = l :: k :: ls). rewrite Happ by done. f_equal. by apply IH.
Qed.

Lemma join_outside p sep ls : outside p sep -> Forall (outside p) ls -> outside p (join sep ls).
Proof.
  intros Hs. induction 1 as [|l ls Hl Hls IH]; [constructor|]. destruct ls as [|k ls]; [done|].
  cbn [join]. apply Forall_app. split; [done|]. by apply Forall_app.
Qed.

Lemma languages_back ls : ls <> [] -> Forall simple ls -> language_list ([91] ++ join [44] ls ++ [93]) = ls.
Proof.
  intros Hne Hls. unfold language_list. rewrite strip_edges; [|by repeat constructor..|].
  - rewrite split_join; [|done|eapply Forall_impl; [exact Hls|by intros ? []]].
    assert (Ef : List.filter (fun x => negb (bool_decide (strip_both whitespace x = []))) ls = ls).
    { clear Hne. induction Hls as [|l ls Hl Hls IH]; [done|]. cbn. rewrite strip_id by apply Hl. rewrite bool_decide_false by apply Hl. cbn. by rewrite IH. }
    rewrite Ef. clear Hne Ef. induction Hls as [|l ls Hl Hls IH]; [done|]. cbn. by rewrite simple_unquoted, IH.
  - apply outside_edges, join_outside; [by repeat constructor|]. eapply Forall_impl; [exact Hls|by intros ? []].
Qed.

(** A header line adds its value to the header. *)
Lemma parse_header_line acc n k v : k ∈ HEADER_KEYS -> v <> [] -> edges_free whitespace v -> one_line v ->
  parse_line acc (n, k ++ [58; 32] ++ v) = Ok (dict_set acc.1 k v, acc.2).
Proof.
  intros Hk Hne Hv [_ Hh]. unfold parse_line. cbn [snd].
  assert (Hkey : 35 ∉ k /\ edges_free whitespace k /\ k <> []).
  { clear -Hk. unfold HEADER_KEYS in Hk. cbn [map] in Hk.
    repeat (apply elem_of_cons in Hk as [->|Hk]; [split_and!; [by apply (bool_decide_unpack _); vm_compute|by split|done]|]). by apply elem_of_nil in Hk. }
  destruct Hkey as (K1 & K2 & K3). rewrite before_id by (rewrite !not_elem_of_app; split_and!; [done|by apply (bool_decide_unpack _); vm_compute|done]).
  assert (He : edges_free whitespace (k ++ [58; 32] ++ v)) by (by apply edges_app).
  assert (Er : rstrip whitespace (k ++ [58; 32] ++ v) = k ++ [58; 32] ++ v).
  { pose proof (strip_id _ _ He) as Es. unfold strip_both, lstrip in Es. by rewrite drop_while_id in Es by apply He. }
  rewrite Er, strip_id by done. rewrite bool_decide_false by (by destruct k). unfold lstrip. rewrite drop_while_id by apply He.
  assert (Es : header_shape HEADER_KEYS (k ++ [58; 32] ++ v) = Some (k, v)); [|by rewrite Es, strip_id].
  assert (Hl : lstrip whitespace v = v) by (apply drop_while_id, Hv). rewrite <-Hl at 2.
  clear -Hk. unfold HEADER_KEYS in Hk. cbn [map] in Hk.
  repeat (apply elem_of_cons in Hk as [->|Hk]; [reflexivity|]). by apply elem_of_nil in Hk.
Qed.
Lemma body_one_line c : sanctioned c -> one_line (clause_body c).
Proof.
  destruct c as [p|p|p|s t]; cbn; try by intros []. intros ([L1 _ _ _] & [L2 _ _ _] & _).
  change (one_line (s ++ [32; 8594; 32] ++ t)). rewrite !one_line_app. split_and!; [done| |done].
  split; [by repeat constructor|]. apply (bool_decide_unpack _). vm_compute. exact I.
Qed.

Lemma head_one_line c : one_line (clause_head c ++ [40]) /\ one_line [41].
Proof. destruct c; (split; [|split; [by repeat constructor|apply (bool_decide_unpack _); vm_compute; exact I]]); (split; [by repeat constructor|apply (bool_decide_unpack _); vm_compute; exact I]). Qed.

Lemma render_one_line c : sanctioned c -> one_line (render_clause c).
Proof.
  intros Hc. unfold render_clause. destruct (head_one_line c) as [L1 L2]. rewrite app_assoc, !one_line_app. apply body_one_line in Hc.
  rewrite one_line_app in L1. tauto.
Qed.

Lemma render_edges c : edges_free whitespace (render_clause c) /\ render_clause c <> [].
Proof.
  unfold render_clause. split; [|by destruct c]. split; [by destruct c|]. by rewrite !app_assoc, last_snoc.
Qed.

(** A rendered clause adds itself to the clauses, whatever its line. *)
Lemma parse_clause_line acc n c : sanctioned c -> parse_line acc (n, render_clause c) = Ok (acc.1, acc.2 ++ [c]).
Proof.
  intros Hc. destruct (render_one_line c Hc) as [_ Hh]. destruct (render_edges c) as [He Hne]. unfold parse_line. cbn [snd fst].
  rewrite before_id by done. pose proof (strip_id _ _ He) as Es.
  assert (Er : rstrip whitespace (render_clause c) = render_clause c).
  { unfold strip_both, lstrip in Es. by rewrite drop_while_id in Es by apply He. }
  rewrite Er, Es, bool_decide_false by done. unfold lstrip. rewrite drop_while_id by apply He.
  assert (Hs : header_shape HEADER_KEYS (render_clause c) = None) by (by destruct c). rewrite Hs, parse_render by done. done.
Qed.

Lemma parse_clause_lines f cs acc : Forall sanctioned cs ->
  foldO parse_line acc (imap (fun i l => (f i : Z, l)) (map render_clause cs)) = Ok (acc.1, acc.2 ++ cs).
Proof.
  intros Hcs. revert f acc. induction Hcs as [|c cs Hc _ IH]; intros f acc; cbn [map imap foldO].
  - rewrite app_nil_r. by destruct acc.
  - rewrite parse_clause_line by done. cbn [obind]. refine (eq_trans (IH (f ∘ Datatypes.S) _) _). cbn. by rewrite <-app_assoc.
Qed.

Lemma well_formed_simple spec : well_formed spec -> simple (class_ spec) /\ simple (engine spec) /\ Forall simple (languages spec).
Proof.
  intros [_ Hc He [_ Hl] _]. split_and!; [apply plain_simple, name_plain; tauto..|].
  eapply Forall_impl; [exact Hl|]. intros l Hin. apply plain_simple, name_plain. tauto.
Qed.

(** The value of the languages line. *)
Lemma languages_value ls : Forall simple ls -> edges_free whitespace ([91] ++ join [44] ls ++ [93]) /\ one_line ([91] ++ join [44] ls ++ [93]).
Proof.
  intros Hls. split; [split; [done|]; by rewrite !app_assoc, last_snoc|]. rewrite !one_line_app.
  split_and!; try (split; [by repeat constructor|apply (bool_decide_unpack _); vm_compute; exact I]).
  induction Hls as [|l ls Hl Hls IH]; [split; [constructor|apply not_elem_of_nil]|]. destruct ls as [|k ls]; [apply Hl|].
  change (one_line (l ++ [44] ++ join [44] (k :: ls))). rewrite !one_line_app. split_and!; [apply Hl| |done].
  split; [by repeat constructor|apply (bool_decide_unpack _); vm_compute; exact I].
Qed.

Lemma quoted_value s : one_line s -> edges_free is_quote s -> edges_free whitespace ([34] ++ s ++ [34]) /\ one_line ([34] ++ s ++ [34]) /\
  unquoted ([34] ++ s ++ [34]) = s.
Proof.
  intros Hl Hq. assert (He : edges_free whitespace ([34] ++ s ++ [34])) by (split; [done|by rewrite !app_assoc, last_snoc]). split; [done|].
  assert (L : one_line [34]) by (split; [by repeat constructor|apply (bool_decide_unpack _); vm_compute; exact I]).
  split; [by rewrite !one_line_app|]. unfold unquoted. rewrite (strip_id whitespace) by done. by apply strip_edges; [by repeat constructor..|].
Qed.

Lemma parse_header_back spec : well_formed spec ->
  _parse_header [(str "id", [34] ++ spec_id spec ++ [34]); (str "class", class_ spec);
    (str "languages", [91] ++ join [44] (languages spec) ++ [93]); (str "engine", engine spec)] =
  Ok (spec_id spec, class_ spec, languages spec, engine spec).
Proof.
  intros Hw. destruct (well_formed_simple _ Hw) as (Sc & Se & Sl). destruct Hw as [[W1 W2] W3 W4 [W5 W6] _]. unfold _parse_header.
  set (h := [_; _; _; _]). change (header_get h "id") with ([34] ++ spec_id spec ++ [34]). change (header_get h "class") with (class_ spec).
  change (header_get h "languages") with ([91] ++ join [44] (languages spec) ++ [93]). change (header_get h "engine") with (engine spec).
  destruct (quoted_value _ W1 W2) as (_ & _ & ->). rewrite !simple_unquoted by done. rewrite !bool_decide_true by done. cbn [negb].
  rewrite strip_id by (by apply languages_value). rewrite languages_back by done. rewrite bool_decide_false, orb_false_r by done.
  assert (Hx : existsb (fun x => negb (bool_decide (x ∈ LANGUAGES))) (languages spec) = false); [|by rewrite Hx].
  clear -W6. induction W6 as [|l ls Hl _ IH]; [done|]. cbn [existsb]. by rewrite bool_decide_true, IH.
Qed.

Lemma render_parses spec : well_formed spec -> parse_spec (render_spec spec) = Ok spec.
Proof.
  intros Hw. destruct (well_formed_simple _ Hw) as (Sc & Se & Sl). pose proof (parse_header_back _ Hw) as Hb.
  destruct Hw as [[W1 W2] _ _ _ [W7 W8]]. destruct (quoted_value _ W1 W2) as (Q1 & Q2 & _). destruct (languages_value _ Sl) as [L1 L2].
  assert (Hlines : splitlines (render_spec spec) = header_lines spec ++ map render_clause (clauses spec)).
  { unfold render_spec. destruct (clauses spec) as [|c cs _] using rev_ind; [done|]. rewrite map_app, app_assoc. cbn [map].
    apply Forall_app in W8 as [Hcs Hc]. inversion Hc; subst. apply splitlines_join; [|by apply render_one_line|by apply render_edges].
    apply Forall_app. split; [|apply Forall_map; eapply Forall_impl; [exact Hcs|]; intros x Hx; by apply render_one_line].
    unfold header_lines. rewrite !Forall_cons, Forall_nil. split_and!; [..|done]; rewrite app_assoc; apply unbroken_app; (split; [by repeat constructor|]); [apply Q2|apply Sc|apply L2|apply Se]. }
  pose proof (fun acc n k v Hk H1 H2 H3 => parse_header_line acc n k v (bool_decide_unpack _ Hk) H1 H2 H3) as Hline.
  set (h := [(str "id", [34] ++ spec_id spec ++ [34]); (str "class", class_ spec);
    (str "languages", [91] ++ join [44] (languages spec) ++ [93]); (str "engine", engine spec)]) in *.
  assert (Hh : foldO parse_line ([], []) (numbered_lines (header_lines spec)) = Ok (h, [])).
  { unfold numbered_lines, header_lines, imap, foldO, compose.
    rewrite (Hline _ _ (str "id") ([34] ++ _ ++ [34]) I); [|done..]. cbn [obind fst snd].
    rewrite (Hline _ _ (str "class") _ I); [|apply Sc..]. cbn [obind fst snd].
    rewrite (Hline _ _ (str "languages") ([91] ++ _ ++ [93]) I); [|done..]. cbn [obind fst snd].
    rewrite (Hline _ _ (str "engine") _ I); [|apply Se..]. reflexivity. }
  unfold parse_spec. rewrite Hlines. unfold numbered_lines. rewrite imap_app, foldO_app. fold (numbered_lines (header_lines spec)).
  rewrite Hh. cbn [obind]. rewrite (parse_clause_lines (fun i => Z.of_nat (length (header_lines spec) + i) + 1)) by done.
  cbn [obind fst snd app]. rewrite Hb. cbn [obind]. rewrite bool_decide_false by done. by destruct spec.
Qed.
(** The parser decides its grammar: a specification is the result of
    parsing some text exactly when it is well formed (known class, engine and
    languages, at least one clause, every clause free of composition keywords
    and escape hatches, propagation between sanctioned references), and then it
    is the result of parsing its own rendering; it passes [revalidate_spec]. *)
Theorem parse_spec_exact spec :
  ((exists text, parse_spec text = Ok spec) <-> well_formed spec) /\
  (well_formed spec -> parse_spec (render_spec spec) = Ok spec /\ revalidate_spec spec = Ok tt).
Proof.
  split; [split|].
  - intros [text E]. by eapply parsed_well_formed.
  - intros Hw. exists (render_spec spec). by apply render_parses.
  - intros Hw. split; [by apply render_parses|]. unfold revalidate_spec. destruct Hw as [_ _ _ _ [_ Hs]].
    rewrite (mapO_pure _ (fun _ => tt)); [done|]. intros c Hc. rewrite Forall_forall in Hs. by apply sanctioned_revalidates, Hs.
Qed.

(** ** The documented language

    The grammar of [docs/cross-cutting/DOC-DSL.md], section 2: identifiers and
    numbers of ASCII characters, patterns as a receiver and members, and the
    references of a propagation. *)

Definition ident (s : pystr) : bool :=
  match s with c :: t => name_start c && forallb (fun c => name_start c || is_digit c) t | [] => false end.
Definition number (s : pystr) : bool := negb (bool_decide (s = [])) && forallb is_digit s.

Inductive ArgSelector := AnyArg | ArgIndex (digits : pystr) | ParameterName (name : pystr).
Inductive MemberSelector := FieldName (name : pystr) | MethodName (name : pystr) (args : list ArgSelector).
Inductive Receiver := FQN (names : list pystr) | TypePattern (var : pystr) (bound : list pystr) | AnyReceiver.
Record PathPattern := mkPattern { receiver : Receiver; members : list MemberSelector }.

Definition fqn_ok (names : list pystr) : Prop := names <> [] /\ Forall (fun n => ident n = true) names.
Definition arg_ok (a : ArgSelector) : Prop :=
  match a with AnyArg => True | ArgIndex d => number d = true | ParameterName n => ident n = true end.
Definition member_ok (m : MemberSelector) : Prop :=
  match m with FieldName n => ident n = true | MethodName n args => ident n = true /\ args <> [] /\ Forall arg_ok args end.
Definition receiver_ok (r : Receiver) : Prop :=
  match r with FQN names => fqn_ok names | TypePattern v bound => ident v = true /\ fqn_ok bound | AnyReceiver => True end.
Definition pattern_ok (p : PathPattern) : Prop := receiver_ok (receiver p) /\ Forall member_ok (members p).

Definition arg_text (a : ArgSelector) : pystr := match a with AnyArg => str "*" | ArgIndex d => d | ParameterName n => n end.
Definition member_text (m : MemberSelector) : pystr :=
  match m with FieldName n => n | MethodName n args => n ++ str "(" ++ join (str ",") (map arg_text args) ++ str ")" end.
Definition receiver_text (r : Receiver) : pystr :=
  match r with
  | FQN names => join (str ".") names
  | TypePattern v bound => str "?" ++ v ++ str "<:" ++ join (str ".") bound
  | AnyReceiver => str "*"
  end.
Definition pattern_text (p : PathPattern) : pystr :=
  receiver_text (receiver p) ++ concat (map (fun m => str "." ++ member_text m) (members p)).

Definition arg_ref (s : pystr) : Prop := exists i, s = str "arg[" ++ i ++ str "]" /\ (number i = true \/ ident i = true).
Definition field_ref (s : pystr) : Prop :=
  exists n, ident n = true /\ (s = str "field[" ++ n ++ str "]" \/ s = str "this." ++ n).

Definition documented_clause (c : Clause) : Prop :=
  match c with
  | Source p | Sink p | Sanitize p => exists pattern, pattern_ok pattern /\ p = pattern_text pattern
  | Propagate s t => (arg_ref s \/ field_ref s) /\ (t = str "ret" \/ field_ref t)
  end.

(** The identifier is a string literal, not empty, on one line and without
    the sign of a comment. *)
Record documented (spec : Spec) : Prop := {
  dc_id : spec_id spec <> [] /\ 34 ∉ spec_id spec /\ one_line (spec_id spec);
  dc_class : class_ spec ∈ CLASS_NAMES;
  dc_languages : languages spec <> [] /\ Forall (fun l => l ∈ LANGUAGES) (languages spec);
  dc_engine : engine spec ∈ DSL_ENGINES;
  dc_clauses : clauses spec <> [] /\ Forall documented_clause (clauses spec)
}.

(** No composition keyword and no escape hatch among the words of a clause. *)
Definition unreserved (c : Clause) : Prop := keyword_free (_word_tokens (clause_body c)) /\ clean (clause_body c).

(** *** The characters of a clause *)

Definition path_char (c : Z) : bool := name_start c || is_digit c || bool_decide (c ∈ str ".()*,?<:[]").
Notation plain s := (forallb path_char s = true).

Lemma path_char_spec c : path_char c = true -> whitespace c = false /\ line_break c = false /\ c <> 35 /\ c <> 8594.
Proof.
  unfold path_char, name_start, is_letter, is_digit, whitespace, line_break. rewrite !orb_true_iff, bool_decide_eq_true.
  change (str ".()*,?<:[]") with [46; 40; 41; 42; 44; 63; 60; 58; 91; 93]. rewrite !elem_of_cons, elem_of_nil. lia.
Qed.

Lemma path_plain s : plain s -> one_line s /\ edges_free whitespace s /\ 8594 ∉ s.
Proof.
  intros Hs. assert (Hc : forall c, c ∈ s -> path_char c = true) by (intros c Hc; rewrite forallb_forall in Hs; by apply Hs, list_elem_of_In).
  assert (Ho : outside whitespace s) by (apply Forall_forall; intros c Hin; by apply path_char_spec, Hc).
  split_and!; [split| |].
  - apply Forall_forall. intros c Hin. by apply path_char_spec, Hc.
  - intros Hin%Hc%path_char_spec. tauto.
  - by apply outside_edges.
  - intros Hin%Hc%path_char_spec. tauto.
Qed.

Lemma ident_plain s : ident s = true -> plain s.
Proof.
  destruct s as [|c s]; [done|]. cbn [ident forallb]. intros [Hc Hs]%andb_true_iff. unfold path_char at 1. rewrite Hc. cbn [orb andb].
  rewrite forallb_forall in *. intros d Hd%Hs. unfold path_char. by rewrite Hd.
Qed.

Lemma digits_plain s : number s = true -> plain s.
Proof. intros [_ Hs]%andb_true_iff. rewrite forallb_forall in *. intros d Hd%Hs. unfold path_char. by rewrite Hd, orb_true_r. Qed.

Lemma ident_identifier s : ident s = true -> identifier s = true.
Proof.
  destruct s as [|c s]; [done|]. cbn [ident identifier]. intros [-> Hs]%andb_true_iff. cbn [andb]. rewrite forallb_forall in *.
  intros d Hd%Hs. apply orb_true_iff in Hd as [Hd|Hd]; [by apply name_start_word|]. unfold is_word.
  destruct (Z.ltb_spec d 128); [by rewrite Hd|]. unfold is_digit in Hd. lia.
Qed.

Lemma number_decimal s : number s = true -> position_or_name s = true.
Proof.
  unfold number, position_or_name. intros [-> Hs]%andb_true_iff. cbn [andb]. apply orb_true_iff. left. rewrite forallb_forall in *.
  intros d Hd%Hs. unfold is_decimal. destruct (Z.ltb_spec d 128); [done|]. unfold is_digit in Hd. lia.
Qed.

Lemma plain_app s t : plain (s ++ t) <-> plain s /\ plain t.
Proof. by rewrite forallb_app, andb_true_iff. Qed.

Lemma plain_join sep l : plain sep -> Forall (fun s => plain s) l -> plain (join sep l).
Proof.
  intros Hs. induction 1 as [|x l Hx Hl IH]; [done|]. destruct l as [|y l]; [done|]. cbn [join]. rewrite !plain_app. by split_and!.
Qed.

Lemma fqn_plain names : fqn_ok names -> plain (join (str ".") names).
Proof. intros [_ Hn]. apply plain_join; [done|]. eapply Forall_impl; [exact Hn|apply ident_plain]. Qed.

Lemma member_plain m : member_ok m -> plain (member_text m).
Proof.
  destruct m as [n|n args]; cbn [member_text]; [apply ident_plain|]. intros (Hn%ident_plain & _ & Ha). rewrite !plain_app.
  split_and!; [done|done| |done]. apply plain_join; [done|]. apply Forall_map. eapply Forall_impl; [exact Ha|].
  intros [|d|p]; [done|apply digits_plain|apply ident_plain].
Qed.

Lemma pattern_plain p : pattern_ok p -> plain (pattern_text p).
Proof.
  intros [Hr Hm]. unfold pattern_text. apply plain_app. split.
  - destruct (receiver p) as [names|v bound|]; cbn [receiver_text]; [by apply fqn_plain| |done]. destruct Hr as [Hv%ident_plain Hb%fqn_plain].
    rewrite !plain_app. by split_and!.
  - induction Hm as [|m l Hm Hl IH]; [done|]. cbn [map concat]. rewrite !plain_app. split_and!; [done|by apply member_plain|done].
Qed.

(** *** References *)

Lemma subscripted_ok prefix inner i : inner i = true -> subscripted prefix inner (str prefix ++ i ++ str "]") = true.
Proof.
  intros Hi. unfold subscripted. assert (E : strip (str prefix) (str prefix ++ i ++ str "]") = Some (i ++ str "]")).
  { clear. induction (str prefix) as [|c l IH]; cbn [app]; [by destruct (i ++ _)|]. cbn. by rewrite Z.eqb_refl. }
  rewrite E, rev_app_distr. change (rev (str "]")) with [93]. cbn [app]. by rewrite rev_involutive.
Qed.

Lemma arg_ref_ok s : arg_ref s -> _ARG_REF s = true /\ plain s.
Proof.
  intros (i & -> & Hi). assert (Hp : position_or_name i = true /\ plain i).
  { destruct Hi as [Hi|Hi]; (split; [|first [by apply digits_plain|by apply ident_plain]]); [by apply number_decimal|].
    unfold position_or_name. by rewrite ident_identifier, orb_true_r. }
  destruct Hp as [Hp Hi']. split; [|rewrite !plain_app; by split_and!]. unfold _ARG_REF, dollar. by rewrite subscripted_ok.
Qed.

Lemma field_ref_ok s : field_ref s -> _FIELD_REF s = true /\ plain s.
Proof.
  intros (n & Hn & Hs). pose proof (ident_plain _ Hn) as Hp. apply ident_identifier in Hn. unfold _FIELD_REF, dollar.
  destruct Hs as [->| ->]; (split; [|rewrite ?plain_app; by split_and!]).
  - by rewrite subscripted_ok.
  - assert (E : strip (str "this.") (str "this." ++ n) = Some n) by (by destruct n). by rewrite E, Hn, orb_true_r.
Qed.

Lemma plain_fragment s : plain s -> keyword_free (_word_tokens s) -> clean s -> fragment s.
Proof. intros (H1 & H2 & _)%path_plain H3 H4. by split. Qed.

Lemma documented_sanctioned c : documented_clause c -> unreserved c -> sanctioned c.
Proof.
  intros Hd [Hk Hc]. destruct c as [p|p|p|s t]; cbn [documented_clause sanctioned clause_body] in *.
  1-3: destruct Hd as (pattern & Hp%pattern_plain & ->); by apply plain_fragment.
  destruct Hd as [Hs Ht]. assert (H32 : Forall (fun c => whitespace c = true) [32]) by by repeat constructor.
  rewrite (arrow_tokens s [32] [32] t), keyword_free_app in Hk by done. rewrite (clean_gap s [32] [32] t) in Hc by done.
  assert (Hs' : source_ok s = true /\ plain s).
  { unfold source_ok. destruct Hs as [[-> Hp]%arg_ref_ok|[-> Hp]%field_ref_ok]; [done|by rewrite orb_true_r]. }
  assert (Ht' : target_ok t = true /\ plain t).
  { unfold target_ok. destruct Ht as [->|[-> Hp]%field_ref_ok]; [done|by rewrite orb_true_r]. }
  destruct Hs' as [Hs1 Hs2], Ht' as [Ht1 Ht2], Hk as [K1 K2], Hc as [C1 C2]. pose proof (path_plain _ Hs2) as (_ & _ & Ha).
  split_and!; [by apply plain_fragment|by apply plain_fragment|done..].
Qed.

(** C32: the documented language is parsed faithfully.  A specification of the
    documented grammar whose clauses contain none of the composition keywords
    and escape hatches is parsed back, exactly, from its text.  And whatever
    text is parsed, the result has a known class, a core engine and known
    languages, at least one clause, and [revalidate_spec] accepts it. *)
Theorem documented_specs_parse spec :
  (documented spec -> Forall unreserved (clauses spec) -> parse_spec (render_spec spec) = Ok spec) /\
  (forall text, parse_spec text = Ok spec ->
     class_ spec ∈ CLASS_NAMES /\ engine spec ∈ DSL_ENGINES /\ languages spec <> [] /\ Forall (fun l => l ∈ LANGUAGES) (languages spec) /\
     clauses spec <> [] /\ revalidate_spec spec = Ok tt).
Proof.
  split.
  - intros [(I1 & I2 & I3) H2 [L1 L2] H4 [C1 C2]] Hu. apply render_parses. constructor; try done.
    + split; [done|]. apply outside_edges, Forall_forall. intros c Hc. unfold is_quote. apply Z.eqb_neq. by intros ->.
    + split; [done|]. rewrite Forall_forall in *. intros c Hc. apply documented_sanctioned; auto.
  - intros text E. pose proof (parsed_well_formed _ _ E) as Hw. pose proof (proj2 (parse_spec_exact spec) Hw) as [_ Hr].
    destruct Hw as [_ H2 H3 [H4 H5] [H6 _]]. by split_and!.
Qed.

(** ** Rejections *)

Definition clause_codes : list string :=
  ["E-DSL-001"; "E-DSL-002"; "E-DSL-003"; "E-DSL-004"; "E-DSL-005"; "E-DSL-006"; "E-DSL-007"; "E-DSL-008"]%string.

Definition rejects {A} (codes : list string) (line : Z) (o : outcome A) : Prop :=
  forall e, o = Raise e -> exists code, e = DSLError code line /\ code ∈ codes.

Lemma rejects_bind {A B} codes line (m : outcome A) (f : A -> outcome B) :
  rejects codes line m -> (forall a, rejects codes line (f a)) -> rejects codes line (a ⇐ m; f a).
Proof. intros Hm Hf. destruct m as [a|e]; cbn; [apply Hf|]. intros e' [= ->]. by apply Hm. Qed.

Lemma rejects_code {A} codes line code : code ∈ codes -> rejects codes line (Raise (DSLError code line) : outcome A).
Proof. intros Hc e [= <-]. by eexists. Qed.

Lemma rejects_Ok {A} codes line (a : A) : rejects codes line (Ok a).
Proof. by intros e. Qed.

Lemma parse_clause_rejects L line : rejects clause_codes line (_parse_clause L line).
Proof.
  unfold _parse_clause, _check_composition_keywords, _check_escape_hatches, _parse_propagate.
  repeat first [apply rejects_bind; [|intros] | apply rejects_Ok | apply rejects_code; unfold clause_codes; set_solver | case_match].
Qed.

Lemma parse_line_rejects acc n L : rejects clause_codes n (parse_line acc (n, L)).
Proof.
  unfold parse_line. cbn [fst snd]. repeat case_match; try apply rejects_Ok. apply rejects_bind; [apply parse_clause_rejects|intros; apply rejects_Ok].
Qed.

Lemma parse_header_rejects h : rejects ["E-DSL-008"; "E-DSL-009"]%string 1 (_parse_header h).
Proof. unfold _parse_header. repeat first [apply rejects_Ok | apply rejects_code; set_solver | case_match]. Qed.

(** A loop that raises does so at its first bad element. *)
Lemma foldO_Raise {A S} (f : S -> A -> outcome S) l s e : foldO f s l = Raise e <->
  exists i x s', l !! i = Some x /\ foldO f s (take i l) = Ok s' /\ f s' x = Raise e.
Proof.
  split.
  - revert s. induction l as [|x l IH]; intros s; cbn; [done|]. destruct (f s x) as [t|e'] eqn:E; cbn.
    + intros (i & y & s' & Hi & Ht & Hf)%IH. exists (Datatypes.S i), y, s'. cbn. by rewrite E.
    + intros [= ->]. by exists 0%nat, x, s.
  - intros (i & x & s' & Hi & Ht & Hf). rewrite <-(take_drop_middle l i x Hi), foldO_app, Ht. cbn. by rewrite Hf.
Qed.

Lemma numbered_take i lines : take i (numbered_lines lines) = numbered_lines (take i lines).
Proof.
  unfold numbered_lines. rewrite <-(take_drop i lines) at 1. rewrite imap_app. destruct (decide (i <= length lines)%nat).
  - rewrite take_app_length'; [done|]. rewrite length_imap, length_take. lia.
  - rewrite (take_ge lines), (drop_ge lines) by lia. cbn. rewrite app_nil_r. apply take_ge. rewrite length_imap. lia.
Qed.

Lemma line_raises text i line acc e : splitlines text !! i = Some line ->
  foldO parse_line ([], []) (numbered_lines (take i (splitlines text))) = Ok acc -> parse_line acc (Z.of_nat i + 1, line) = Raise e ->
  foldO parse_line ([], []) (numbered_lines (splitlines text)) = Raise e.
Proof.
  intros Hi Ht Hl. apply foldO_Raise. exists i, (Z.of_nat i + 1, line), acc. rewrite numbered_take. split; [|done].
  unfold numbered_lines. by rewrite list_lookup_imap, Hi.
Qed.

(** Rejection is total and points at its cause.  [parse_spec] raises
    nothing but a [DSLError], either of the first line that is not blank, a
    header line or a clause of the grammar, with one of the eight clause codes
    and that line's number, every line before it having been read; or, every
    line having been read, of the header or of a missing clause, at line 1. *)
Theorem parse_spec_rejects text e : parse_spec text = Raise e <->
  (exists i line acc, splitlines text !! i = Some line /\
     foldO parse_line ([], []) (numbered_lines (take i (splitlines text))) = Ok acc /\
     parse_line acc (Z.of_nat i + 1, line) = Raise e /\
     exists code, e = DSLError code (Z.of_nat i + 1) /\ code ∈ clause_codes) \/
  (exists acc, foldO parse_line ([], []) (numbered_lines (splitlines text)) = Ok acc /\
     (_parse_header acc.1 = Raise e \/ (exists h, _parse_header acc.1 = Ok h) /\ acc.2 = [] /\ e = DSLError "E-DSL-008" 1) /\
     exists code, e = DSLError code 1 /\ code ∈ ["E-DSL-008"; "E-DSL-009"]%string).
Proof.
  unfold parse_spec. destruct (foldO parse_line ([], []) (numbered_lines (splitlines text))) as [acc|e'] eqn:Ef; cbn [obind].
  - split.
    + intros E. right. exists acc. split; [done|]. destruct (_parse_header acc.1) as [[[[id class] langs] eng]|e'] eqn:Eh; cbn [obind] in E.
      * case_bool_decide as Hc; [|done]. injection E as <-. split; [right; split; [by eexists|done]|]. eexists. split; [done|set_solver].
      * injection E as ->. split; [by left|]. by apply (parse_header_rejects acc.1).
    + intros [(i & line & acc' & Hi & Ht & Hl & _)|(acc' & [= <-] & [E|([h Hh] & Hc & ->)] & _)].
      * rewrite (line_raises text i line acc' e Hi Ht Hl) in Ef. done.
      * by rewrite E.
      * rewrite Hh. destruct h as [[[id class] langs] eng]. cbn [obind]. by rewrite bool_decide_true.
  - split.
    + intros [= ->]. left. apply foldO_Raise in Ef as (i & [n line] & acc & Hi & Ht & Hl). unfold numbered_lines in Hi.
      rewrite list_lookup_imap in Hi. destruct (splitlines text !! i) as [line'|] eqn:El; [|done]. injection Hi as <- ->.
      exists i, line, acc. rewrite numbered_take in Ht. split_and!; [done..|]. by apply (parse_line_rejects acc _ line).
    + intros [(i & line & acc' & Hi & Ht & Hl & _)|(acc' & E & _)]; [|done].
      rewrite (line_raises text i line acc' e Hi Ht Hl) in Ef. by injection Ef as ->.
Qed.
End spec.
