(* ===== verification/Detectors.v ===== *)
(** * The detector registry ([detectors/registry.py])

    Manifests and specification files are read from a file system, which is a
    parameter, and manifests are parsed by a YAML library, which is one too:
    it yields a [pyval], whose dicts have string keys.  The registry is an
    object: its operations return the state after them also when they raise. *)
From stdpp Require Import base tactics list strings relations.
From Stdlib Require Import ZArith Lia.
From S2P Require Import Prelude PyData Dsl PyDict PyText Identity RuleDocs ScanApi Sarif SarifJson SarifEmit Worker WorkerSpec DslParser DslGrammar DslSpec.

From S2P Require Worker.

Open Scope Z_scope.
Open Scope py_scope.
Open Scope st_scope.

Definition CORE_ENGINES : list pystr := map str ["ifds"; "ide"]%string.
Definition ORACLE_ENGINES : list pystr := map str ["semgrep"; "cpg-query"; "external"]%string.
Definition _ALL_ENGINES : list pystr := CORE_ENGINES ++ ORACLE_ENGINES.

Definition _REQUIRED_MANIFEST_KEYS : list string :=
  ["id"; "cwes"; "languages"; "frameworks"; "engine"; "severity_default"; "per_language_readiness"]%string.

(** One registry row. *)
Record Detector := mkRow {
  det_id : pystr;
  cwes : list pystr;
  det_languages : list pystr;
  frameworks : list pystr;
  det_engine : pystr;
  det_severity_default : pystr;
  det_partition : pystr;
  per_language_readiness : list (pystr * pyval);
  det_spec : option Spec;
  oracle_query_path : option pystr
}.

(** [_by_id], in insertion order, and [_frozen]. *)
Record DetectorRegistry := mkRegistry { by_id : list (pystr * Detector); frozen : bool }.
Definition new_registry : DetectorRegistry := mkRegistry [] false.

(** A directory with the text of its manifest, when that is a file, and the
    files of [specs/], when that is a directory; reading a text may raise. *)
Record ClassDir := mkDir {
  dir_path : pystr;
  manifest : option (outcome pystr);
  spec_files : list (pystr * outcome pystr)
}.

Class FileSystem := {
  (** The directories in a directory, in no particular order; [None] when the
      path is not a directory. *)
  class_dirs : pystr -> option (list ClassDir);
  (** [str(path / name)] *)
  joined : pystr -> pystr -> pystr;
  is_file : pystr -> bool;
  (** [yaml.safe_load] *)
  safe_load : pystr -> outcome pyval
}.

Section registry.
Context {U : UnicodeData} {PR : PyRuntime} {FS : FileSystem}.

Definition derive_partition (engine : pystr) : outcome pystr :=
  if bool_decide (engine ∈ CORE_ENGINES) then Ok (str "deterministic-core")
  else if bool_decide (engine ∈ ORACLE_ENGINES) then Ok (str "oracle-passthrough")
  else Raise (RegistryError "E-REG-006").

Definition oracle_file_missing (path : option pystr) : bool :=
  match path with None => true | Some p => bool_decide (p = []) || negb (is_file p) end.

Definition closure_check (d : Detector) : outcome unit :=
  if bool_decide (det_engine d ∉ _ALL_ENGINES) then Raise (RegistryError "E-REG-002")
  else if bool_decide (det_engine d ∈ CORE_ENGINES) then
    match det_spec d with
    | None => Raise (RegistryError "E-REG-002")
    | Some spec =>
        if bool_decide (engine spec ∉ CORE_ENGINES) then Raise (RegistryError "E-REG-002")
        else if bool_decide (clauses spec = []) then Raise (RegistryError "E-REG-002")
        else Ok tt
    end
  else
    match det_spec d with
    | Some _ => Raise (RegistryError "E-REG-004")
    | None => if oracle_file_missing (oracle_query_path d) then Raise (RegistryError "E-REG-004") else Ok tt
    end.

(** The two gates of admission. *)
Definition gates (d : Detector) : outcome unit :=
  _ ⇐ closure_check d;
  match det_spec d with Some spec => revalidate_spec spec | None => Ok tt end.

(** ** Building a detector from its directory *)

Definition _iter_class_dirs (root : pystr) : list ClassDir :=
  match class_dirs root with
  | None => []
  | Some dirs => py_sorted (fun a b => str_leb (dir_path a) (dir_path b)) dirs
  end.

Definition _load_core_spec (dir : ClassDir) : outcome Spec :=
  match py_sorted (fun a b => str_leb a.1 b.1) (List.filter (fun f => ends_with (str ".dsl.yaml") f.1) (spec_files dir)) with
  | [] => Raise (RegistryError "E-REG-001")
  | f :: _ => source_text ⇐ f.2; parse_spec source_text
  end.

(** [tuple(str(x) for x in value)] *)
Definition text_tuple (value : pyval) : outcome (list pystr) := l ⇐ iterate value; Ok (map py_str l).

(** [raw[key]] of a key that is present *)
Definition field (raw : list (pystr * pyval)) (key : string) : pyval := default VNone (dict_get raw (str key)).

Definition missing (raw : list (pystr * pyval)) (key : string) : bool :=
  match dict_get raw (str key) with None | Some VNone => true | Some _ => false end.

(** The specification of a core engine, the query path of an oracle engine. *)
Definition engine_input (dir : ClassDir) (raw : list (pystr * pyval)) (engine : pystr) : outcome (option Spec * option pystr) :=
  if bool_decide (engine ∈ CORE_ENGINES) then spec ⇐ _load_core_spec dir; Ok (Some spec, None)
  else
    let declared := field raw "oracle_query_path" in
    let path := if truthy declared then Some (joined (dir_path dir) (py_str declared)) else None in
    if oracle_file_missing path then Raise (RegistryError "E-REG-004") else Ok (None, path).

Definition _build_detector (dir : ClassDir) (manifest_text : pystr) (staged : list (pystr * Detector)) : outcome Detector :=
  loaded ⇐ safe_load manifest_text;
  match (if truthy loaded then loaded else VDict []) with
  | VDict raw =>
      if existsb (missing raw) _REQUIRED_MANIFEST_KEYS then Raise (RegistryError "E-REG-001")
      else
        let engine := py_str (field raw "engine") in
        if bool_decide (engine ∉ _ALL_ENGINES) then Raise (RegistryError "E-REG-002")
        else
          let detector_id := py_str (field raw "id") in
          if bool_decide (is_Some (dict_get staged detector_id)) then Raise (RegistryError "E-REG-003")
          else
            input ⇐ engine_input dir raw engine;
            partition ⇐ derive_partition engine;
            match field raw "per_language_readiness" with
            | VDict plr =>
                cs ⇐ text_tuple (field raw "cwes");
                ls ⇐ text_tuple (field raw "languages");
                fs ⇐ text_tuple (field raw "frameworks");
                Ok (mkRow detector_id cs ls fs engine (py_str (field raw "severity_default")) partition plr input.1 input.2)
            | _ => Raise (RegistryError "E-REG-001")
            end
  | _ => Raise (RegistryError "E-REG-001")
  end.

(** One turn of the loop. *)
Definition stage (staged : list (pystr * Detector)) (dir : ClassDir) : outcome (list (pystr * Detector)) :=
  match manifest dir with
  | None => Ok staged
  | Some text =>
      text ⇐ text;
      detector ⇐ _build_detector dir text staged;
      _ ⇐ gates detector;
      Ok (dict_set staged (det_id detector) detector)
  end.

(** ** The registry's operations *)

Definition clear : St DetectorRegistry unit := sput (fun r => mkRegistry [] (frozen r)).

Definition load_manifests (root : pystr) : St DetectorRegistry unit :=
  is_frozen ⟸ sget frozen;
  if is_frozen : bool then sraise (RegistryError "E-REG-005")
  else
    (staged ⟸ scatch (slift (foldO stage [] (_iter_class_dirs root)))
       (fun e => match e with
                 | RegistryError code => clear ⨟ sraise (RegistryLoadError code)
                 | DSLError _ _ => clear ⨟ sraise e
                 | _ => sraise e
                 end);
     sput (fun _ => mkRegistry staged true)).

Definition register (d : Detector) : St DetectorRegistry unit :=
  is_frozen ⟸ sget frozen;
  if is_frozen : bool then sraise (RegistryError "E-REG-005")
  else
    (slift (gates d) ⨟
     rows ⟸ sget by_id;
     if bool_decide (is_Some (dict_get rows (det_id d))) then sraise (RegistryError "E-REG-003")
     else sput (fun r => mkRegistry (dict_set (by_id r) (det_id d) d) (frozen r))).

Definition all_for (r : DetectorRegistry) (language class : pystr) : list Detector :=
  List.filter (fun d => bool_decide (language ∈ det_languages d) &&
                        match det_spec d with Some spec => str_eqb (class_ spec) class | None => true end)
              (map snd (by_id r)).

(** [DetectorRegistry.by_id] *)
Definition lookup_id (r : DetectorRegistry) (detector_id : pystr) : outcome Detector :=
  match dict_get (by_id r) detector_id with Some d => Ok d | None => Raise KeyError end.

Definition all (r : DetectorRegistry) : list Detector := map snd (by_id r).
End registry.

(** [as_detector_like] of [services/scan/worker.py]: the view the worker takes
    of a row. *)
Definition as_detector_like (d : Detector) (is_mixed : bool) : Worker.DetectorLike :=
  Worker.mkDetector (det_id d) (det_engine d) (det_severity_default d) is_mixed (det_spec d).

(** * What the registry holds

    Every row of a reachable registry passed both gates under its own id, a
    frozen registry never changes, and loading is atomic. *)

Section registry.
Context `{UnicodeLaws} {PR : PyRuntime} {FS : FileSystem}.
Implicit Types (r : DetectorRegistry) (d : Detector) (rows : list (pystr * Detector)).

(** ** Rows *)

Record rows_ok rows : Prop := {
  ro_ids : NoDup (map fst rows);
  ro_rows : Forall (fun kv => det_id kv.2 = kv.1 /\ gates kv.2 = Ok tt) rows
}.

Lemma dict_get_absent {V} (rows : list (pystr * V)) k : dict_get rows k = None <-> k ∉ map fst rows.
Proof.
  induction rows as [|[k' v] rows IH]; cbn; [split; [intros _; apply not_elem_of_nil|done]|].
  rewrite not_elem_of_cons. unfold str_eqb. case_bool_decide as Hk; [|rewrite IH; naive_solver]. naive_solver.
Qed.

Lemma dict_set_fresh {V} (rows : list (pystr * V)) k v : dict_get rows k = None -> dict_set rows k v = rows ++ [(k, v)].
Proof. induction rows as [|[k' v'] rows IH]; cbn; [done|]. destruct (str_eqb k' k); [done|]. intros E. by rewrite IH. Qed.

Lemma rows_snoc rows d : rows_ok rows -> dict_get rows (det_id d) = None -> gates d = Ok tt -> rows_ok (rows ++ [(det_id d, d)]).
Proof.
  intros [Hn Hr] Hf%dict_get_absent Hg. split.
  - rewrite map_app. apply NoDup_app. split; [done|]. split; [|apply NoDup_singleton]. intros k Hk ->%list_elem_of_singleton. done.
  - apply Forall_app. by repeat constructor.
Qed.

(** ** Staging *)

(** The row a directory adds: of its manifest, over the rows before it. *)
Definition row_of (dir : ClassDir) rows (row : pystr * Detector) : Prop :=
  exists text, manifest dir = Some (Ok text) /\ _build_detector dir text rows = Ok row.2 /\ gates row.2 = Ok tt /\ row.1 = det_id row.2.

Definition has_manifest (dir : ClassDir) : bool := match manifest dir with Some _ => true | None => false end.

(** The rows of the directories, one for each manifest, in order. *)
Inductive staged_from : list ClassDir -> list (pystr * Detector) -> Prop :=
| staged_nil : staged_from [] []
| staged_skip dirs dir rows : staged_from dirs rows -> has_manifest dir = false -> staged_from (dirs ++ [dir]) rows
| staged_row dirs dir rows row : staged_from dirs rows -> row_of dir rows row -> staged_from (dirs ++ [dir]) (rows ++ [row]).

Lemma build_fresh dir text rows d : _build_detector dir text rows = Ok d -> dict_get rows (det_id d) = None.
Proof.
  unfold _build_detector. intros (loaded & _ & E)%obind_Ok. destruct (if truthy loaded then loaded else VDict []) as [| | | | | |raw]; try done.
  destruct (existsb _ _); [done|]. case_bool_decide; [done|]. case_bool_decide as Hs; [done|].
  apply obind_Ok in E as (input & _ & E). apply obind_Ok in E as (pt & _ & E). destruct (field raw "per_language_readiness"); try done.
  apply obind_Ok in E as (cs & _ & E). apply obind_Ok in E as (ls & _ & E). apply obind_Ok in E as (fs & _ & [= <-]). cbn.
  destruct (dict_get rows (py_str (field raw "id"))) eqn:Ed; [|done]. destruct Hs. by eexists.
Qed.

Lemma stage_Ok rows dir rows' : stage rows dir = Ok rows' <->
  rows' = rows /\ has_manifest dir = false \/ exists row, row_of dir rows row /\ rows' = rows ++ [row].
Proof.
  unfold stage, has_manifest, row_of. destruct (manifest dir) as [[text|e]|]; cbn [obind].
  - split.
    + intros (d & Hb & ([] & Hg & [= <-])%obind_Ok)%obind_Ok. right. exists (det_id d, d). split; [by exists text|].
      apply dict_set_fresh. by eapply build_fresh.
    + intros [[_ ?]|([k d] & (text' & [= <-] & Hb & Hg & Hk) & ->)]; [done|]. cbn in *. subst k. rewrite Hb. cbn [obind]. rewrite Hg. cbn [obind].
      f_equal. apply dict_set_fresh. by eapply build_fresh.
  - split; [done|]. intros [[_ ?]|(row & (text' & ? & _) & _)]; done.
  - split; [intros [= <-]; by left|]. intros [[-> _]|(row & (text' & ? & _) & _)]; done.
Qed.

Lemma staged_exact dirs rows : foldO stage [] dirs = Ok rows <-> staged_from dirs rows.
Proof.
  split.
  - revert rows. induction dirs as [|dir dirs IH] using rev_ind; intros rows; cbn; [intros [= <-]; constructor|].
    rewrite foldO_app. intros (rows0 & E0%IH & E)%obind_Ok. cbn in E. apply obind_Ok in E as (rows1 & E & [= <-]).
    apply stage_Ok in E as [[-> Hm]|(row & Hr & ->)]; by constructor.
  - induction 1 as [|dirs dir rows _ IH Hm|dirs dir rows row _ IH Hr]; [done|..]; rewrite foldO_app, IH; cbn [obind foldO].
    + rewrite (proj2 (stage_Ok rows dir rows)); [done|by left].
    + rewrite (proj2 (stage_Ok rows dir (rows ++ [row]))); [done|]. right. by exists row.
Qed.

Lemma staged_ok dirs rows : staged_from dirs rows -> rows_ok rows.
Proof.
  induction 1 as [|dirs dir rows _ IH _|dirs dir rows [k d] _ IH (text & _ & Hb & Hg & Hk)]; [by repeat constructor|done|].
  cbn in *. subst k. apply rows_snoc; [done|by eapply build_fresh|done].
Qed.

(** ** Loading *)

(** The exceptions a load catches, and what it raises for one. *)
Definition caught (e : exc) : bool := match e with RegistryError _ | DSLError _ _ => true | _ => false end.
Definition reported (e : exc) : exc := match e with RegistryError code => RegistryLoadError code | e => e end.

Lemma load_frozen root r : frozen r = true -> load_manifests root r = (Raise (RegistryError "E-REG-005"), r).
Proof. intros Hf. unfold load_manifests, sbind, sget. by rewrite Hf. Qed.

Lemma load_thawed root r : frozen r = false -> load_manifests root r =
  match foldO stage [] (_iter_class_dirs root) with
  | Ok rows => (Ok tt, mkRegistry rows true)
  | Raise e => (Raise (reported e), if caught e then new_registry else r)
  end.
Proof.
  intros Hf. unfold load_manifests, sbind, sget, scatch, slift, clear, sput, sraise. rewrite Hf.
  destruct (foldO stage [] (_iter_class_dirs root)) as [rows|e]; [done|]. destruct e; cbn; by rewrite ?Hf.
Qed.

(** Loading is atomic and its rows are exactly those of the manifests.
    On a frozen registry it raises E-REG-005 and changes nothing.  Otherwise it
    returns exactly when every directory with a manifest, in path order, yields
    a row that passes both gates, its id new; then the registry is frozen and
    holds these rows.  When a directory fails, the registry stays unfrozen: it
    is emptied by a registry error, which is reported as a load error, and by a
    [DSLError], which is reported as it is; it is untouched by any other
    exception. *)
Theorem load_manifests_atomic root r :
  (frozen r = true -> load_manifests root r = (Raise (RegistryError "E-REG-005"), r)) /\
  (frozen r = false ->
    (forall r', load_manifests root r = (Ok tt, r') <-> frozen r' = true /\ staged_from (_iter_class_dirs root) (by_id r')) /\
    (forall e r', load_manifests root r = (Raise e, r') <-> exists cause, foldO stage [] (_iter_class_dirs root) = Raise cause /\
      e = reported cause /\ r' = if caught cause then new_registry else r)).
Proof.
  split; [apply load_frozen|]. intros Hf. setoid_rewrite (load_thawed root r Hf). split.
  - intros [rows fz]. setoid_rewrite <-staged_exact. destruct (foldO stage [] (_iter_class_dirs root)) as [rows'|e]; cbn; naive_solver.
  - intros e r'. destruct (foldO stage [] (_iter_class_dirs root)) as [rows'|e']; naive_solver.
Qed.

(** ** Every reachable registry *)

(** One call of an operation that may write, whatever it returns. *)
Inductive called : relation DetectorRegistry :=
| called_load root r : called r (load_manifests root r).2
| called_register d r : called r (register d r).2.

Lemma register_frozen d r : frozen r = true -> register d r = (Raise (RegistryError "E-REG-005"), r).
Proof. intros Hf. unfold register, sbind, sget. by rewrite Hf. Qed.

Lemma register_thawed d r : frozen r = false -> register d r =
  match gates d with
  | Ok _ => if bool_decide (is_Some (dict_get (by_id r) (det_id d))) then (Raise (RegistryError "E-REG-003"), r)
            else (Ok tt, mkRegistry (by_id r ++ [(det_id d, d)]) false)
  | Raise e => (Raise e, r)
  end.
Proof.
  intros Hf. unfold register, sbind, sget, slift, sput, sraise. rewrite Hf. destruct (gates d); [|done].
  case_bool_decide as Hs; [done|]. rewrite Hf, dict_set_fresh; [done|]. destruct (dict_get _ _); [destruct Hs; by eexists|done].
Qed.

Lemma called_frozen r r' : called r r' -> frozen r = true -> r' = r.
Proof. intros [root s|d s] Hf; [by rewrite load_frozen|by rewrite register_frozen]. Qed.

Lemma called_ok r r' : called r r' -> rows_ok (by_id r) -> rows_ok (by_id r').
Proof.
  intros [root s|d s] Hr; destruct (frozen s) eqn:Hf; rewrite ?load_frozen, ?register_frozen by done; [done| |done|].
  - rewrite load_thawed by done. destruct (foldO stage [] _) as [rows|e] eqn:E; [by eapply staged_ok, staged_exact|].
    cbn. destruct (caught e); [by repeat constructor|done].
  - rewrite register_thawed by done. destruct (gates d) as [[]|] eqn:Hg; [|done]. case_bool_decide as Hs; [done|].
    apply rows_snoc; [done| |done]. destruct (dict_get _ _); [destruct Hs; by eexists|done].
Qed.

(** The registry's invariant.  Whatever operations are called on a new
    registry and whatever they raise, its ids are distinct and every row sits
    under its own id and passed the closure check and the grammar gate; so a
    lookup answers with such a row or raises a [KeyError].  Once frozen, no
    sequence of calls changes the registry. *)
Theorem registry_invariant r : rtc called new_registry r ->
  NoDup (map fst (by_id r)) /\
  (forall id d, lookup_id r id = Ok d <-> (id, d) ∈ by_id r) /\
  (forall id d, lookup_id r id = Ok d -> det_id d = id /\ closure_check d = Ok tt /\
    forall spec, det_spec d = Some spec -> revalidate_spec spec = Ok tt) /\
  (frozen r = true -> forall r', rtc called r r' -> r' = r).
Proof.
  intros Hr. assert (Hok : rows_ok (by_id r)).
  { revert Hr. apply (rtc_ind_r (fun s => rows_ok (by_id s))); [by repeat constructor|]. intros s t _ Hc. by apply called_ok. }
  destruct Hok as [Hn Hrows]. assert (Hl : forall id d, lookup_id r id = Ok d <-> (id, d) ∈ by_id r).
  { intros id d. unfold lookup_id. clear Hr Hrows. induction (by_id r) as [|[k v] rows IH]; [by split; [done|intros ?%elem_of_nil]|].
    cbn in *. apply NoDup_cons in Hn as [Hk Hn]. rewrite elem_of_cons, <-IH by done. unfold str_eqb. case_bool_decide as Hd.
    - subst k. split; [intros [= ->]; by left|]. intros [[= ->]|E]; [done|]. destruct Hk. apply IH in E; [|done].
      by apply (list_elem_of_fmap_2 fst) in E.
    - naive_solver. }
  split_and!; [done|done| |].
  - intros id d Hin%Hl. rewrite Forall_forall in Hrows. apply Hrows in Hin as [Hid Hg]. cbn in *. split; [done|].
    unfold gates in Hg. apply obind_Ok in Hg as ([] & Hc & Hg). split; [done|]. intros spec Hs. by rewrite Hs in Hg.
  - intros Hf r' Hrtc. revert Hf. induction Hrtc as [s|s t u Hc _ IH]; intros Hf; [done|].
    pose proof (called_frozen _ _ Hc Hf) as ->. by apply IH.
Qed.
(** ** From the registry to the worker *)

(** What building a detector fixes. *)
Record built (d : Detector) : Prop := {
  bt_partition : derive_partition (det_engine d) = Ok (det_partition d);
  bt_core : det_engine d ∈ Detectors.CORE_ENGINES -> exists spec, det_spec d = Some spec /\ well_formed spec;
  bt_oracle : det_engine d ∉ Detectors.CORE_ENGINES -> det_spec d = None /\ exists path, oracle_query_path d = Some path /\ is_file path = true
}.

Lemma build_built dir text rows d : _build_detector dir text rows = Ok d -> built d.
Proof.
  unfold _build_detector. intros (loaded & _ & E)%obind_Ok. destruct (if truthy loaded then loaded else VDict []) as [| | | | | |raw]; try done.
  destruct (existsb _ _); [done|]. case_bool_decide; [done|]. case_bool_decide as Hs; [done|].
  apply obind_Ok in E as (input & Hi & E). apply obind_Ok in E as (pt & Hp & E). destruct (field raw "per_language_readiness"); try done.
  apply obind_Ok in E as (cs & _ & E). apply obind_Ok in E as (ls & _ & E). apply obind_Ok in E as (fs & _ & [= <-]).
  unfold engine_input in Hi. constructor; cbn; [done|..].
  - intros Hc. rewrite bool_decide_true in Hi by done. apply obind_Ok in Hi as (spec & Hspec & [= <-]). exists spec. split; [done|].
    unfold _load_core_spec in Hspec. destruct (py_sorted _ _) as [|f ?]; [done|]. apply obind_Ok in Hspec as (source & _ & Hspec).
    by eapply parsed_well_formed.
  - intros Hc. rewrite bool_decide_false in Hi by done. destruct (truthy _); cbn [oracle_file_missing] in Hi; [|done].
    destruct (bool_decide _ || _) eqn:Em; [done|]. injection Hi as <-. apply orb_false_iff in Em as [_ Em%negb_false_iff]. by eauto.
Qed.

Lemma staged_built dirs rows : staged_from dirs rows -> Forall (fun kv => built kv.2) rows.
Proof.
  induction 1 as [|dirs dir rows _ IH _|dirs dir rows [k d] _ IH (text & _ & Hb & _)]; [constructor|done|].
  apply Forall_app. split; [done|]. constructor; [by eapply build_built|constructor].
Qed.

Lemma derive_partition_Ok e p : derive_partition e = Ok p -> e ∈ Detectors._ALL_ENGINES /\
  p = (if bool_decide (e ∈ Worker.CORE_ENGINES) then CORE_ORIGIN else ORACLE_ORIGIN).
Proof.
  unfold derive_partition, Detectors._ALL_ENGINES. change Worker.CORE_ENGINES with Detectors.CORE_ENGINES. rewrite elem_of_app.
  case_bool_decide as Hc; [intros [= <-]; by split; [left|]|]. case_bool_decide as Ho; [|done]. intros [= <-]. by split; [right|].
Qed.

(** C33: what a load admits, the worker can run.  A row of a loaded registry
    has a known engine, and the partition it was registered with is the origin
    the worker gives its findings; a core row carries a specification of the
    grammar, and one whose id is not empty and can be encoded is ready for the
    core lane of every job with a commit, an encodable [S_version] and a known
    precondition; an oracle row carries no specification and a query file. *)
Theorem loaded_detectors {Overrides} (job : WorkerJob Overrides) root r r' d :
  frozen r = false -> load_manifests root r = (Ok tt, r') -> d ∈ all r' ->
  d_engine (as_detector_like d false) ∈ Worker._ALL_ENGINES /\
  (forall f, origin_for (as_detector_like d false) f = Ok (det_partition d)) /\
  (det_engine d ∈ Detectors.CORE_ENGINES -> exists spec, d_spec (as_detector_like d false) = Some spec /\ well_formed spec /\
    (spec_id spec <> [] /\ encodes (spec_id spec) -> wj_commit_sha job <> [] /\ encodes (wj_commit_sha job) ->
     encodes (wj_S_version job) -> wj_precondition_status _ job ∈ _PRECONDITIONS -> lane_ready job spec)) /\
  (det_engine d ∉ Detectors.CORE_ENGINES -> d_spec (as_detector_like d false) = None /\
    exists path, oracle_query_path d = Some path /\ is_file path = true).
Proof.
  intros Hf. rewrite load_thawed by done. destruct (foldO stage [] _) as [rows|e] eqn:E; [|by destruct e]. intros [= <-].
  apply staged_exact, staged_built in E. unfold all. cbn. intros ([k d'] & -> & Hin)%list_elem_of_fmap. rewrite Forall_forall in E.
  destruct (E _ Hin) as [Hp Hc Ho]. cbn in *. apply derive_partition_Ok in Hp as [He Hp].
  split_and!; [done| | |done].
  - intros f. unfold origin_for. cbn. by rewrite Hp.
  - intros Hce. destruct (Hc Hce) as (spec & Hs & Hw). exists spec. split_and!; [done..|]. intros H1 H2 H3 H4.
    pose proof (well_formed_simple _ Hw) as (Hcl & _ & _). destruct Hw as [_ Hcn _ _ _].
    constructor; try done. split; [apply Hcl|]. by eapply all_encode; [|exact Hcn]; vm_compute.
Qed.
End registry.
