(* ===== verification/WorkerSamples.v ===== *)
(** * Sample jobs of the worker

    A core detector that finds one flow, and a mixed detector whose adapter
    returns one of its findings twice; witnesses of the theorems about the
    worker. *)
From stdpp Require Import base tactics list gmap strings relations.
From Stdlib Require Import ZArith QArith Lia.
From S2P Require Import Prelude PyData Budget Cpg Ordering Canonical Dsl PyDict Supergraph Solver Incremental Fingerprint PyText Identity RuleDocs ScanApi ScanApiSamples Sarif SarifJson SarifSpec SarifEmit SarifSamples Worker WorkerSpec DslParser DslGrammar DslSpec Detectors.

Open Scope Z_scope.
Open Scope st_scope.

Definition scan_job : WorkerJob unit :=
  mkJob (2 ^ 100) (2 ^ 100 + 1) (2 ^ 100 + 2) (2 ^ 100 + 3) sample_commit (str "sqli") (str "1.2.3")
    (str "sha256:" ++ concat (repeat (str "0f") 32)) (str "closed-world") [] [] tt.

Definition core_detector : DetectorLike := mkDetector (str "sqli") (str "ifds") (str "high") false (Some ifds_spec).
Definition mixed_detector : DetectorLike := mkDetector (str "mix") (str "semgrep") (str "high") true None.

(** A finding of the adapter, from its core or its oracle portion. *)
Definition adapted (line : Z) (core : option bool) : Finding :=
  mkFinding (mkDetection (str "mix") (str "m") (str "a.py") line 1 line 9 (str "low") (str "xss") (str "open")
               (str "closed-world") (str "semgrep"))
    core unthreaded (mkSliced [] None LEGACY None) None None.

Definition twice_adapter : OracleAdapter (Overrides := unit) := fun _ _ _ =>
  a ⟸ alloc (adapted 3 (Some true)); b ⟸ alloc (adapted 5 (Some false)); sret [a; b; a].

Definition location_fingerprint : SliceFingerprinter := fun w => Ok (str_of_int w.1.1.1).

Definition sample_store : Store := mkStore [adapted 1 None] [].

Definition core_run (s : Store) : outcome (list ref) * Store :=
  run_detector core_detector ifds_graph scan_job (default_core_solver id still) None None None still (fun _ => still) 1 2 s.

Definition mixed_run (d : DetectorLike) (fp : option SliceFingerprinter) (s : Store) : outcome (list ref) * Store :=
  run_detector d ifds_graph scan_job (default_core_solver id still) None (Some twice_adapter) fp still (fun _ => still) 1 2 s.

(** The core finding is stamped; the object that was there is untouched. *)
Definition core_shown : option (list ref * list (pystr * pystr * Z) * list bool) :=
  match core_run sample_store with
  | (Ok out, s) => Some (out, map (fun f => (f_origin (threaded f), f_S_version (threaded f), start_line (detection f))) (heap s), map succeeded (metrics s))
  | _ => None
  end.

Example core_run_shown : core_shown =
  Some ([1%nat], [(CORE_ORIGIN, [], 1); (CORE_ORIGIN, str "1.2.3", 5)], [true]).
Proof. vm_compute. reflexivity. Qed.

(** Each portion of a mixed detector gets its own origin; an object met twice
    is in the set once. *)
Definition mixed_shown : option (list ref * list (pystr * pystr)) :=
  match mixed_run mixed_detector (Some location_fingerprint) sample_store with
  | (Ok out, s) => Some (out, map (fun f => (f_origin (threaded f), f_slice_fingerprint (sliced f))) (heap s))
  | _ => None
  end.

Example mixed_run_shown : mixed_shown =
  Some ([1%nat; 2%nat], [(CORE_ORIGIN, []); (CORE_ORIGIN, str "3"); (ORACLE_ORIGIN, str "5")]).
Proof. vm_compute. reflexivity. Qed.

(** Without an injected fingerprinter an oracle finding fails closed, after
    its provenance was written. *)
Example fail_closed_shown : let r := mixed_run mixed_detector None sample_store in
  r.1 = Raise NotImplementedError /\ map succeeded (metrics r.2) = [false] /\
  map (fun f => f_S_version (threaded f)) (heap r.2) = [[]; str "1.2.3"; []].
Proof. vm_compute. split_and!; reflexivity. Qed.

(** ** Witnesses *)

Lemma mixed_returns : exists out s', mixed_run mixed_detector (Some location_fingerprint) sample_store = (Ok out, s').
Proof.
  pose proof mixed_run_shown as H. unfold mixed_shown in H. destruct (mixed_run _ _ _) as [[out|] s']; [by exists out, s'|done].
Qed.

Lemma findings_carry_provenance_witness : exists out s',
  mixed_run mixed_detector (Some location_fingerprint) sample_store = (Ok out, s') /\ NoDup out.
Proof.
  destruct mixed_returns as (out & s' & E). exists out, s'. split; [exact E|].
  exact (proj1 (proj2 (proj2 (findings_carry_provenance _ _ _ _ _ _ _ _ _ 1 2 _ _ _ E)))).
Defined.

Lemma one_completion_metric_witness :
  metrics (mixed_run mixed_detector None sample_store).2 = [completion mixed_detector scan_job false 1 2].
Proof.
  refine (eq_trans (proj2 (proj2 (one_completion_metric mixed_detector ifds_graph scan_job (default_core_solver id still) None
    (Some twice_adapter) None still (fun _ => still) 1 2 sample_store _))) _).
  - intros s. reflexivity.
  - vm_compute. reflexivity.
Defined.

Lemma core_engine : d_engine core_detector ∈ CORE_ENGINES.
Proof. apply (bool_decide_unpack _). vm_compute. exact I. Qed.

Lemma scan_job_ready : lane_ready scan_job ifds_spec.
Proof. split; [split; [done|ascii]..|ascii|]. apply (bool_decide_unpack _). vm_compute. exact I. Qed.

Lemma core_returns : exists out s', core_run sample_store = (Ok out, s').
Proof.
  pose proof core_run_shown as H. unfold core_shown in H. destruct (core_run _) as [[out|] s']; [by exists out, s'|done].
Qed.

Lemma core_lane_emits_witness : exists out s' log, core_run sample_store = (Ok out, s') /\
  emit_sarif (PR := sample_runtime) out scan_job s' = (Ok log, s') /\ result_count (log_runs log).2 = 0%nat.
Proof.
  destruct core_returns as (out & s' & E).
  destruct (core_lane_emits (H := sample_runtime) core_detector ifds_graph scan_job ifds_spec id still None None still (fun _ => still) 1 2
    sample_store out s' (fun l => reflexivity l) core_engine eq_refl eq_refl scan_job_ready E)
    as (env & result & log & _ & _ & _ & El & Ec).
  exists out, s', log. split; [exact E|]. split; [exact El|]. exact (f_equal snd Ec).
Defined.

(** * A sample registry

    A specification as the repository writes them, a registry of a core and an
    oracle detector, and witnesses of the theorems about the parser and the
    registry; what the parser and the registry let through. *)

(** The letters of Latin-1 beyond ASCII, in lower case. *)
#[export] Instance latin : UnicodeData := {|
  uni_alnum c := (224 <=? c) && (c <=? 246);
  uni_decimal _ := false;
  uni_lower s := s
|}.

#[export] Instance latin_laws : UnicodeLaws.
Proof. split; [|done]. intros c _ Hc. unfold whitespace in Hc. cbn. lia. Qed.

Definition lines (l : list pystr) : pystr := concat (map (fun s => s ++ [10]) l).

Definition quoted (s : string) : pystr := [34] ++ str s ++ [34].

Definition sample_text : pystr := lines
  [str "id: " ++ quoted "java-injection"; str "class: " ++ quoted "injection";
   str "languages: [" ++ quoted "java" ++ str ", " ++ quoted "python" ++ str "]"; str "engine: " ++ quoted "ifds"; [];
   str "# Sources"; str "source(javax.servlet.getParameter(*))  # requests"; str "propagate( arg[0] " ++ [8594] ++ str " field[buf])";
   str "Sink (java.sql.Statement.executeQuery(arg[0]))"].

Definition sample_spec : Spec := mkSpec (str "java-injection") (str "injection") [str "java"; str "python"] (str "ifds")
  [Source (str "javax.servlet.getParameter(*)"); Propagate (str "arg[0]") (str "field[buf]");
   Sink (str "java.sql.Statement.executeQuery(arg[0])")].

Example sample_parsed : parse_spec sample_text = Ok sample_spec.
Proof. vm_compute. reflexivity. Qed.

(** The escape hatches and composition keywords, each with its code and line. *)
Definition with_clause (clause : pystr) : outcome Spec :=
  parse_spec (lines [str "id: x"; str "class: xss"; str "languages: go"; str "engine: ide"; clause]).

Example rejected_clauses :
  map (fun c => match with_clause (str c) with Raise (DSLError code line) => Some (code, line) | _ => None end)
    ["source(re.compile(x))"; "sink(semgrep)"; "sink(a.CPG.method)"; "source(lambda x)"; "source(a) then sink(b)"; "if source(a)";
     "sanitize(closure)"; "taint(a)"; "propagate(arg[0])"; "source(a.semgrepper)"]%string =
  map Some [("E-DSL-001", 5); ("E-DSL-002", 5); ("E-DSL-003", 5); ("E-DSL-004", 5); ("E-DSL-005", 5); ("E-DSL-006", 5);
     ("E-DSL-007", 5); ("E-DSL-008", 5); ("E-DSL-008", 5)]%string ++ [None].
Proof. vm_compute. reflexivity. Qed.

(** A file without an [id] is accepted, with an empty one. *)
Definition nameless_text : pystr := lines [str "class: xss"; str "languages: go"; str "engine: ide"; str "source(a)"].

Lemma nameless_accepted : exists spec, parse_spec nameless_text = Ok spec /\ spec_id spec = [].
Proof. eexists. split; [vm_compute; reflexivity|reflexivity]. Qed.

(** ** A registry *)

Definition sample_manifest (id engine severity : string) (query : list (pystr * pyval)) : pyval := VDict
  ([(str "id", VStr (str id)); (str "cwes", VList [VStr (str "CWE-89")]); (str "languages", VList [VStr (str "java")]);
    (str "frameworks", VList []); (str "engine", VStr (str engine)); (str "severity_default", VStr (str severity));
    (str "per_language_readiness", VDict [(str "java", VStr (str "ready"))])] ++ query).

#[export] Instance sample_files : FileSystem := {|
  class_dirs root :=
    if str_eqb root (str "detectors/") then
      Some [mkDir (str "detectors/xss") (Some (Ok (str "oracle"))) [];
            mkDir (str "detectors/injection") (Some (Ok (str "core"))) [(str "a.dsl.yaml", Ok sample_text); (str "README", Raise UnicodeEncodeError)];
            mkDir (str "detectors/empty") None []]
    else if str_eqb root (str "broken/") then Some [mkDir (str "broken/injection") (Some (Ok (str "core"))) [(str "a.dsl.yaml", Ok (str "eval(x)"))]]
    else None;
  joined dir name := dir ++ [47] ++ name;
  is_file path := str_eqb path (str "detectors/xss/q.yml");
  safe_load text :=
    if str_eqb text (str "core") then Ok (sample_manifest "inj" "ifds" "urgent" [])
    else Ok (sample_manifest "xss" "semgrep" "low" [(str "oracle_query_path", VStr (str "q.yml"))])
|}.
#[export] Existing Instance sample_runtime.

Definition loaded_rows : option (list (pystr * pystr * pystr)) :=
  match load_manifests (str "detectors/") new_registry with
  | (Ok _, r) => Some (map (fun kv => (kv.1, det_partition kv.2, det_severity_default kv.2)) (by_id r))
  | _ => None
  end.

(** The rows come in path order; any text is a severity. *)
Example loaded_shown : loaded_rows = Some [(str "inj", CORE_ORIGIN, str "urgent"); (str "xss", ORACLE_ORIGIN, str "low")].
Proof. vm_compute. reflexivity. Qed.

(** A severity the worker does not know is admitted, and the worker refuses
    every job of that detector. *)
Lemma unknown_severity_admitted : exists r d, load_manifests (str "detectors/") new_registry = (Ok tt, r) /\
  lookup_id r (str "inj") = Ok d /\ _coerce_severity (severity_default (as_detector_like d false)) = Raise INVARIANT.
Proof. eexists _, _. split; [vm_compute; reflexivity|]. split; vm_compute; reflexivity. Qed.

(** [register] does not compare the partition of a row with its engine. *)
Definition contradictory : Detector :=
  mkRow (str "c") [] [str "java"] [] (str "ifds") (str "low") ORACLE_ORIGIN [] (Some sample_spec) None.

Lemma contradictory_registered : exists r, register contradictory new_registry = (Ok tt, r) /\
  origin_for (as_detector_like contradictory false) (adapted 1 None) = Ok CORE_ORIGIN /\ det_partition contradictory = ORACLE_ORIGIN.
Proof. eexists. split_and!; [vm_compute; reflexivity..]. Qed.

(** ** Witnesses *)

(** A specification of the documented grammar: a call by position, any call
    of a class, a bounded receiver and two propagations. *)
Definition documented_spec : Spec := mkSpec (str "java-sql") (str "injection") [str "java"; str "go"] (str "ifds")
  [Source (str "javax.servlet.getParameter(*)"); Propagate (str "arg[0]") (str "field[buf]"); Propagate (str "this.buf") (str "ret");
   Sanitize (str "*.escape(0,text)"); Sink (str "?T<:java.sql.Statement.query(0)")].

Lemma documented_sample : documented documented_spec.
Proof.
  constructor.
  - split; [done|]. split; [apply (bool_decide_unpack _); vm_compute; exact I|]. split; apply (bool_decide_unpack _); vm_compute; exact I.
  - apply (bool_decide_unpack _). vm_compute. exact I.
  - split; [done|]. apply (bool_decide_unpack _). vm_compute. exact I.
  - apply (bool_decide_unpack _). vm_compute. exact I.
  - split; [done|]. repeat apply Forall_cons_2; [..|apply Forall_nil_2].
    + exists (mkPattern (FQN [str "javax"; str "servlet"]) [MethodName (str "getParameter") [AnyArg]]). split; [|reflexivity].
      split; [split; [done|by repeat constructor]|by repeat constructor].
    + split; [left; exists (str "0"); split; [reflexivity|by left]|right; exists (str "buf"); split; [reflexivity|by left]].
    + split; [right; exists (str "buf"); split; [reflexivity|by right]|by left].
    + exists (mkPattern AnyReceiver [MethodName (str "escape") [ArgIndex (str "0"); ParameterName (str "text")]]). split; [|reflexivity].
      split; [exact I|by repeat constructor].
    + exists (mkPattern (TypePattern (str "T") [str "java"; str "sql"; str "Statement"]) [MethodName (str "query") [ArgIndex (str "0")]]).
      split; [|reflexivity]. split; [split; [done|split; [done|by repeat constructor]]|by repeat constructor].
Qed.

Lemma documented_unreserved : Forall unreserved (clauses documented_spec).
Proof. repeat apply Forall_cons_2; [..|apply Forall_nil_2]; (split; [split_and!|split_and!]; vm_compute; reflexivity). Qed.

Lemma documented_specs_parse_witness : parse_spec (render_spec documented_spec) = Ok documented_spec /\ revalidate_spec documented_spec = Ok tt.
Proof.
  destruct (documented_specs_parse documented_spec) as [H1 H2]. pose proof (H1 documented_sample documented_unreserved) as E.
  split; [exact E|]. exact (proj2 (proj2 (proj2 (proj2 (proj2 (H2 _ E)))))).
Defined.

(** Outside the documented grammar: a pattern is any text, and one of the
    grammar with a keyword for a name is refused. *)
Example opaque_pattern_accepted : exists spec, with_clause (str "source(1 + 2)") = Ok spec /\ clauses spec = [Source (str "1 + 2")].
Proof. eexists. split; [vm_compute; reflexivity|reflexivity]. Qed.

Example keyword_member_refused : with_clause (str "source(promise.then(*))") = Raise (DSLError "E-DSL-005" 5).
Proof. vm_compute. reflexivity. Qed.

Definition bad_text : pystr := lines [str "id: x"; str "source(a)"; str "sink(b) if c"; str "eval(x)"].

Lemma bad_rejected : parse_spec bad_text = Raise (DSLError "E-DSL-006" 3).
Proof. vm_compute. reflexivity. Qed.

Lemma parse_spec_rejects_witness :
  (exists i line acc, splitlines bad_text !! i = Some line /\
     foldO parse_line ([], []) (numbered_lines (take i (splitlines bad_text))) = Ok acc /\
     parse_line acc (Z.of_nat i + 1, line) = Raise (DSLError "E-DSL-006" 3) /\
     exists code, DSLError "E-DSL-006" 3 = DSLError code (Z.of_nat i + 1) /\ code ∈ clause_codes) \/
  (exists acc, foldO parse_line ([], []) (numbered_lines (splitlines bad_text)) = Ok acc /\
     (_parse_header acc.1 = Raise (DSLError "E-DSL-006" 3) \/
      (exists h, _parse_header acc.1 = Ok h) /\ acc.2 = [] /\ DSLError "E-DSL-006" 3 = DSLError "E-DSL-008" 1) /\
     exists code, DSLError "E-DSL-006" 3 = DSLError code 1 /\ code ∈ ["E-DSL-008"; "E-DSL-009"]%string).
Proof. exact (proj1 (parse_spec_rejects bad_text (DSLError "E-DSL-006" 3)) bad_rejected). Defined.

Lemma load_returns : exists r, load_manifests (str "detectors/") new_registry = (Ok tt, r).
Proof.
  pose proof loaded_shown as Hs. unfold loaded_rows in Hs. destruct (load_manifests _ _) as [[[]|] r]; [by exists r|done].
Qed.

Lemma broken_raises : load_manifests (str "broken/") new_registry = (Raise (DSLError "E-DSL-008" 1), new_registry).
Proof. vm_compute. reflexivity. Qed.

Lemma load_manifests_atomic_witness :
  (exists r, load_manifests (str "detectors/") new_registry = (Ok tt, r) /\ frozen r = true /\
     staged_from (_iter_class_dirs (str "detectors/")) (by_id r)) /\
  exists cause, foldO stage [] (_iter_class_dirs (str "broken/")) = Raise cause /\ DSLError "E-DSL-008" 1 = reported cause.
Proof.
  split.
  - destruct load_returns as [r E]. exists r. split; [exact E|].
    exact (proj1 (proj1 (proj2 (load_manifests_atomic (str "detectors/") new_registry) eq_refl) r) E).
  - destruct (proj1 (proj2 (proj2 (load_manifests_atomic (str "broken/") new_registry) eq_refl) _ _) broken_raises) as (cause & E & Er & _).
    exists cause. split; assumption.
Defined.

Lemma registry_invariant_witness : exists r, load_manifests (str "detectors/") new_registry = (Ok tt, r) /\ NoDup (map fst (by_id r)).
Proof.
  destruct load_returns as [r E]. exists r. split; [exact E|]. refine (proj1 (registry_invariant r _)).
  refine (eq_rect _ (fun s => rtc called new_registry s) (rtc_once _ _ (called_load (str "detectors/") new_registry)) _ (f_equal snd E)).
Defined.

Lemma loaded_detectors_witness : exists r d, load_manifests (str "detectors/") new_registry = (Ok tt, r) /\ d ∈ all r /\
  forall f, origin_for (as_detector_like d false) f = Ok (det_partition d).
Proof.
  destruct load_returns as [r E]. destruct (all r) as [|d rest] eqn:Ea.
  - exfalso. pose proof loaded_shown as Hs. unfold loaded_rows in Hs. rewrite E in Hs. unfold all in Ea. destruct (by_id r); discriminate.
  - assert (Hd : d ∈ all r) by (rewrite Ea; left). exists r, d. split; [exact E|]. split; [exact Hd|].
    exact (proj1 (proj2 (loaded_detectors scan_job (str "detectors/") new_registry r d eq_refl E Hd))).
Defined.
