(* ===== verification/Provenance.v ===== *)
(** * Signed provenance records ([services/scan/provenance/__init__.py])

    A record is serialised canonically, signed by a key-management service and
    appended to an append-only store; verification recomputes the bytes from
    the stored row.  The signer, the stores and the RSA library are the ports
    of the source: type classes over their own states.  [uuid4] is an
    arbitrary stream. *)
From stdpp Require Import base tactics list strings.
From Stdlib Require Import ZArith Lia.
From S2P Require Import Prelude PyData PyDict Sha256 Ordering Json PyText Identity BoundRules Sarif JsonAscii.

Open Scope Z_scope.
Open Scope py_scope.
Open Scope st_scope.

Definition DEFAULT_SIGNATURE_ALG : pystr := str "RSASSA_PSS_SHA_256".

Inductive VerifyVerdict := VERIFIED | TAMPERED | KEY_NOT_FOUND | ARTIFACT_MISSING.

#[export] Instance VerifyVerdict_eq_dec : EqDecision VerifyVerdict.
Proof. solve_decision. Defined.

(** ** Records *)

Record ProvenanceRecord := mkRecord {
  pr_id : UUID;
  pr_parent : option UUID;
  pr_type : pystr;
  pr_scan_id : UUID;
  pr_finding_id : option UUID;
  pr_org_id : UUID;
  pr_codebase_id : UUID;
  pr_commit_sha : pystr;
  pr_scm_provider : pystr;
  pr_snapshot_id : UUID;
  pr_snapshot_digest : pystr;
  pr_precondition_status : option pystr;
  pr_S_version : pystr;
  pr_env_digest : pystr;
  pr_cpg_order_hash : option pybytes;
  pr_annotation : pystr;
  pr_fingerprint_class : option pystr;
  pr_witness_blob_uri : option pystr;
  pr_slice_fingerprint : option pybytes;
  pr_rule_id : option pystr;
  pr_spec_id : option pystr;
  pr_detector_id : option pystr;
  pr_detector_engine : option pystr;
  pr_sarif_hash : option pybytes;
  pr_origin : option pystr;
  pr_determinism_partition : option pystr;
  pr_reason : option pystr;
  pr_oracle_id : option UUID;
  pr_claim_label : pystr;
  pr_version : Z;
  pr_identity : pyval
}.

Record SignedProvenanceRecord := mkSigned {
  record : ProvenanceRecord;
  canonical_bytes : pybytes;
  kms_key_arn : pystr;
  kms_key_version : pystr;
  signature : pybytes;
  signature_alg : pystr
}.

(** ** Canonical bytes *)

Inductive field_value :=
| FUuid (u : UUID)
| FVal (v : pyval).

Definition _canonical_value (value : field_value) : pyval :=
  match value with
  | FVal (VBytes b) => VStr (hex b)
  | FUuid u => VStr (uuid_str u)
  | FVal v => v
  end.

Definition text_field (s : pystr) : field_value := FVal (VStr s).
Definition opt_text (o : option pystr) : field_value := FVal (of_opt o).
Definition opt_bytes (o : option pybytes) : field_value := FVal (match o with Some b => VBytes b | None => VNone end).
Definition opt_uuid (o : option UUID) : field_value := match o with Some u => FUuid u | None => FVal VNone end.

(** [dataclasses.fields(record)] with their values *)
Definition fields (r : ProvenanceRecord) : list (string * field_value) := [
  ("id", FUuid (pr_id r));
  ("parent_record_id", opt_uuid (pr_parent r));
  ("record_type", text_field (pr_type r));
  ("scan_id", FUuid (pr_scan_id r));
  ("finding_id", opt_uuid (pr_finding_id r));
  ("org_id", FUuid (pr_org_id r));
  ("codebase_id", FUuid (pr_codebase_id r));
  ("commit_sha", text_field (pr_commit_sha r));
  ("scm_provider", text_field (pr_scm_provider r));
  ("snapshot_id", FUuid (pr_snapshot_id r));
  ("snapshot_digest", text_field (pr_snapshot_digest r));
  ("precondition_status", opt_text (pr_precondition_status r));
  ("S_version", text_field (pr_S_version r));
  ("env_digest", text_field (pr_env_digest r));
  ("cpg_order_hash", opt_bytes (pr_cpg_order_hash r));
  ("cpg_order_hash_annotation", text_field (pr_annotation r));
  ("fingerprint_class", opt_text (pr_fingerprint_class r));
  ("witness_blob_uri", opt_text (pr_witness_blob_uri r));
  ("slice_fingerprint", opt_bytes (pr_slice_fingerprint r));
  ("rule_id", opt_text (pr_rule_id r));
  ("spec_id", opt_text (pr_spec_id r));
  ("detector_id", opt_text (pr_detector_id r));
  ("detector_engine", opt_text (pr_detector_engine r));
  ("sarif_hash", opt_bytes (pr_sarif_hash r));
  ("origin", opt_text (pr_origin r));
  ("determinism_partition", opt_text (pr_determinism_partition r));
  ("repartition_reason", opt_text (pr_reason r));
  ("repartition_oracle_id", opt_uuid (pr_oracle_id r));
  ("claim_label", text_field (pr_claim_label r));
  ("record_schema_version", FVal (VInt (pr_version r)));
  ("artifact_identity", FVal (pr_identity r))]%string.

Definition UNSIGNED_IN_V1 : list string := ["record_schema_version"; "artifact_identity"]%string.

Definition payload (r : ProvenanceRecord) : list (pystr * pyval) :=
  map (fun f => (str f.1, _canonical_value f.2))
      (List.filter (fun f => (pr_version r =? 2) || negb (bool_decide (f.1 ∈ UNSIGNED_IN_V1))) (fields r)).

Definition _opt_hex (value : option pybytes) : option pystr := hex <$> value.

(** The checks of a record with schema version 2 *)
Definition check_record_v2 (r : ProvenanceRecord) : outcome unit :=
  if bool_decide (is_Some (pr_fingerprint_class r)) then Raise (ValueError "v2 records must not assert an ambiguous shared class")
  else
    ids ⇐ validate_identity_metadata (pr_identity r);
    if bool_decide (pr_origin r = Some CORE_ORIGIN) &&
       (negb (bool_decide (a_status ids.1 = COMPLETED)) || negb (bool_decide (a_status ids.2 = COMPLETED)) ||
        bool_decide (pr_precondition_status r = None))
    then Raise (ValueError "core records require computed graph, slice, and precondition evidence")
    else if negb (bool_decide (a_digest ids.1 = _opt_hex (pr_cpg_order_hash r))) ||
            negb (bool_decide (a_digest ids.2 = _opt_hex (pr_slice_fingerprint r)))
    then Raise (ValueError "signed artifact metadata does not match record digests")
    else Ok tt.

Definition check_versions (r : ProvenanceRecord) : outcome unit :=
  if negb ((pr_version r =? 1) || (pr_version r =? 2)) then Raise (ValueError "unsupported provenance record schema version")
  else if (pr_version r =? 1) && negb (match pr_identity r with VNone => true | _ => false end)
  then Raise (ValueError "v1 signed records cannot carry unsigned artifact metadata")
  else if pr_version r =? 2 then check_record_v2 r
  else Ok tt.

Definition canonical_record_bytes (r : ProvenanceRecord) : outcome pybytes :=
  _ ⇐ check_versions r;
  j ⇐ to_json (VDict (payload r));
  match utf8_encode (dumps_ascii j) with Some b => Ok b | None => Raise UnicodeEncodeError end.

(** ** Ports *)

(** A response of the key-management service, a dict. *)
Definition Response := list (pystr * pyval).

Class KMSAsymmetricSigner (K : Type) := {
  kms_sign : pystr -> pybytes -> pystr -> St K Response;
  kms_get_public_key : pystr -> pystr -> St K Response
}.

Class ProvenanceStore (S : Type) := {
  ps_append : SignedProvenanceRecord -> St S unit;
  ps_get : UUID -> St S (option SignedProvenanceRecord);
  ps_children : UUID -> St S (list SignedProvenanceRecord)
}.

(** [ArtifactStore.fetch] *)
Definition ArtifactStore := pystr -> outcome (option pybytes).

Inductive HashAlgorithm := SHA256 | SHA384.

(** What the source imports from [cryptography]. *)
Class Cryptography := {
  PublicKey : Type;
  load_der_public_key : pybytes -> outcome PublicKey;
  is_rsa : PublicKey -> bool;
  (** [key.verify] with PSS padding: signature, message, digest *)
  rsa_verify : PublicKey -> pybytes -> pybytes -> HashAlgorithm -> outcome unit
}.

(** [raise ProvenanceError] *)
Definition _expect_bytes (resp : Response) (key : string) : outcome pybytes :=
  match dict_get resp (str key) with Some (VBytes b) => Ok b | _ => Raise ProvenanceError end.

(** [key_id.split(":")[-1] if ":" in key_id else key_id] *)
Definition key_material (key_id : pystr) : pystr :=
  if bool_decide (58 ∈ key_id) then List.last (split_on 58 key_id) [] else key_id.

(** [except (ValueError, TypeError)]; the Unicode errors are [ValueError]s. *)
Definition value_or_type_error (e : exc) : bool :=
  match e with ValueError _ | UnicodeEncodeError | TypeError => true | _ => false end.

Definition _verify_signature `{Cryptography} (public_key message sig alg : pybytes) : outcome bool :=
  let digest := if str_eqb alg (str "RSASSA_PSS_SHA_384") then SHA384 else SHA256 in
  match load_der_public_key public_key with
  | Raise e => if value_or_type_error e then Ok false else Raise e
  | Ok key =>
      if negb (is_rsa key) then Ok false
      else match rsa_verify key sig message digest with
      | Ok _ => Ok true
      | Raise InvalidSignature => Ok false
      | Raise e => Raise e
      end
  end.

Definition sarif_uri (r : ProvenanceRecord) : pystr :=
  str "orgs/" ++ uuid_str (pr_org_id r) ++ str "/codebases/" ++ uuid_str (pr_codebase_id r) ++
  str "/sarif/" ++ uuid_str (pr_scan_id r) ++ str ".sarif.json".

Definition _verify_artifacts (r : ProvenanceRecord) (fetch : ArtifactStore) : outcome VerifyVerdict :=
  match pr_sarif_hash r with
  | None => Ok VERIFIED
  | Some h =>
      blob ⇐ fetch (sarif_uri r);
      Ok (match blob with
          | None => ARTIFACT_MISSING
          | Some b => if bool_decide (sha256 b = h) then VERIFIED else TAMPERED
          end)
  end.

(** ** Signing and verifying *)

Record World (K S : Type) := mkWorld { w_signer : K; w_store : S; w_drawn : nat }.
Arguments mkWorld {K S} _ _ _.
Arguments w_signer {K S} _.
Arguments w_store {K S} _.
Arguments w_drawn {K S} _.

Section Provenance.
Context `{PyRuntime, Cryptography} {K S : Type} `{!KMSAsymmetricSigner K, !ProvenanceStore S}.

Definition on_signer {A} (m : St K A) : St (World K S) A :=
  fun w => let '(r, k) := m (w_signer w) in (r, mkWorld k (w_store w) (w_drawn w)).
Definition on_store {A} (m : St S A) : St (World K S) A :=
  fun w => let '(r, s) := m (w_store w) in (r, mkWorld (w_signer w) s (w_drawn w)).

(** [store=None] is [persist = false]. *)
Definition sign_provenance (r : ProvenanceRecord) (arn alg : pystr) (persist : bool) :
    St (World K S) SignedProvenanceRecord :=
  if negb (str_eqb (pr_annotation r) CPG_ORDER_HASH_ANNOTATION)
  then sraise (InvariantViolation "invariant_inv5_violation")
  else if bool_decide (pr_type r ∈ [str "chain"; str "repartition"]) && bool_decide (pr_origin r = None)
  then sraise (InvariantViolation "invariant_inv1_violation")
  else
    (canonical ⟸ slift (canonical_record_bytes r);
     resp ⟸ on_signer (kms_sign arn canonical alg);
     sig ⟸ slift (_expect_bytes resp "Signature");
     let key_id := py_str (default (VStr arn) (dict_get resp (str "KeyId"))) in
     let signed := mkSigned r canonical arn (key_material key_id) sig alg in
     (if persist then on_store (ps_append signed) else sret tt) ⨟
     sret signed).

(** The recursion on the parent of a re-partition. *)
Fixpoint verify_chain (fuel : nat) (signed : SignedProvenanceRecord) (artifacts : option ArtifactStore)
    (with_store : bool) : St (World K S) VerifyVerdict :=
  match fuel with
  | O => sraise OutOfFuel
  | Datatypes.S fuel =>
      match canonical_record_bytes (record signed) with
      | Raise e => if value_or_type_error e then sret TAMPERED else sraise e
      | Ok canonical =>
          pub_resp ⟸ on_signer (kms_get_public_key (kms_key_arn signed) (kms_key_version signed));
          match dict_get pub_resp (str "PublicKey") with
          | Some (VBytes public_key) =>
              good ⟸ slift (_verify_signature public_key canonical (signature signed) (signature_alg signed));
              if negb good then sret TAMPERED
              else
                (verdict ⟸ (match artifacts with
                            | None => sret VERIFIED
                            | Some fetch => slift (_verify_artifacts (record signed) fetch)
                            end);
                 if negb (bool_decide (verdict = VERIFIED)) then sret verdict
                 else if str_eqb (pr_type (record signed)) (str "repartition") && with_store then
                   match pr_parent (record signed) with
                   | None => sret TAMPERED
                   | Some parent_id =>
                       parent ⟸ on_store (ps_get parent_id);
                       match parent with
                       | None => sret ARTIFACT_MISSING
                       | Some parent =>
                           parent_verdict ⟸ verify_chain fuel parent artifacts with_store;
                           if negb (bool_decide (parent_verdict = VERIFIED)) then sret parent_verdict
                           else sret VERIFIED
                       end
                   end
                 else sret VERIFIED)
          | _ => sret KEY_NOT_FOUND
          end
      end
  end.

(** ** The auditor export *)

Definition history_entry (child : SignedProvenanceRecord) : pyval :=
  let r := record child in
  VDict [(str "id", VStr (uuid_str (pr_id r)));
         (str "repartition_reason", of_opt (pr_reason r));
         (str "repartition_oracle_id", of_opt (uuid_str <$> pr_oracle_id r));
         (str "new_origin", of_opt (pr_origin r))].

Definition export_items (signed : SignedProvenanceRecord) (children : list SignedProvenanceRecord) : list (string * pyval) :=
  let r := record signed in
  [("id", VStr (uuid_str (pr_id r)));
   ("parent_record_id", of_opt (uuid_str <$> pr_parent r));
   ("record_type", VStr (pr_type r));
   ("commit_sha", VStr (pr_commit_sha r));
   ("scm_provider", VStr (pr_scm_provider r));
   ("snapshot_digest", VStr (pr_snapshot_digest r));
   ("precondition_status", of_opt (pr_precondition_status r));
   ("S_version", VStr (pr_S_version r));
   ("env_digest", VStr (pr_env_digest r));
   ("cpg_order_hash", of_opt (_opt_hex (pr_cpg_order_hash r)));
   ("cpg_order_hash_annotation", VStr (pr_annotation r));
   ("fingerprint_class", of_opt (pr_fingerprint_class r));
   ("witness_blob_uri", of_opt (pr_witness_blob_uri r));
   ("slice_fingerprint", of_opt (_opt_hex (pr_slice_fingerprint r)));
   ("rule_id", of_opt (pr_rule_id r));
   ("spec_id", of_opt (pr_spec_id r));
   ("detector_id", of_opt (pr_detector_id r));
   ("detector_engine", of_opt (pr_detector_engine r));
   ("sarif_hash", of_opt (_opt_hex (pr_sarif_hash r)));
   ("origin", of_opt (pr_origin r));
   ("determinism_partition", of_opt (pr_determinism_partition r));
   ("claim_label", VStr (pr_claim_label r));
   ("kms_key_arn", VStr (kms_key_arn signed));
   ("kms_key_version", VStr (kms_key_version signed));
   ("signature", VStr (hex (signature signed)));
   ("signature_alg", VStr (signature_alg signed));
   ("repartition_history", VList (map history_entry children))]%string.

Definition export_auditor_record (record_id : UUID) : St (World K S) (list (string * pyval)) :=
  found ⟸ on_store (ps_get record_id);
  match found with
  | None => sraise ProvenanceError
  | Some signed =>
      children ⟸ on_store (ps_children record_id);
      let export := export_items signed children in
      sret (if pr_version (record signed) =? 2 then
              List.filter (fun kv => negb (bool_decide (kv.1 ∈ ["fingerprint_class"; "cpg_order_hash_annotation"]%string))) export
              ++ [("record_schema_version", VInt 2); ("artifact_identity", pr_identity (record signed))]%string
            else export)
  end.

(** ** Re-partition events *)

Variable uuid4 : nat -> UUID.

Definition draw : St (World K S) UUID := fun w =>
  (Ok (uuid4 (w_drawn w)), mkWorld (w_signer w) (w_store w) (Datatypes.S (w_drawn w))).

(** The record of a re-partition of [base]; the version is the default of the dataclass. *)
Definition repartition_record (fresh : UUID) (base : ProvenanceRecord) (parent_id oracle_id : UUID) (reason : pystr) : ProvenanceRecord :=
  mkRecord fresh (Some parent_id) (str "repartition") (pr_scan_id base) (pr_finding_id base) (pr_org_id base)
    (pr_codebase_id base) (pr_commit_sha base) (pr_scm_provider base) (pr_snapshot_id base) (pr_snapshot_digest base)
    (pr_precondition_status base) (pr_S_version base) (pr_env_digest base) None CPG_ORDER_HASH_ANNOTATION None
    (pr_witness_blob_uri base) (pr_slice_fingerprint base) (pr_rule_id base) (pr_spec_id base) (pr_detector_id base)
    (pr_detector_engine base) (pr_sarif_hash base) (Some ORACLE_ORIGIN) (Some ORACLE_ORIGIN) (Some reason)
    (Some oracle_id) (str "EMPIRICAL") 1 VNone.

Definition append_repartition_event (parent_id oracle_id : UUID) (reason alg : pystr) :
    St (World K S) SignedProvenanceRecord :=
  found ⟸ on_store (ps_get parent_id);
  match found with
  | None => sraise RepartitionWithoutParent
  | Some parent =>
      fresh ⟸ draw;
      sign_provenance (repartition_record fresh (record parent) parent_id oracle_id reason) (kms_key_arn parent) alg true
  end.
End Provenance.
