(* ===== verification/ProvenanceSpec.v ===== *)
(** * What a signature covers

    The canonical bytes determine the record, up to the order of the items of
    its identity metadata. *)
From stdpp Require Import base tactics list strings.
From Stdlib Require Import ZArith Lia.
From S2P Require Import Prelude PyData PyDict Sha256 Ordering Json PyText Identity BoundRules Sarif SarifJson JsonAscii Provenance.

Open Scope Z_scope.
Open Scope py_scope.
Open Scope st_scope.

(** ** Canonical bytes *)

Definition opt_all {A} (P : A -> Prop) (o : option A) : Prop := match o with Some a => P a | None => True end.

(** UUIDs have 128 bits, bytes are bytes, texts are Unicode scalars. *)
Definition uuid_ok (u : UUID) : Prop := 0 <= u < 2 ^ 128.

Definition field_ok (v : field_value) : Prop :=
  match v with
  | FUuid u => uuid_ok u
  | FVal (VBytes b) => Forall is_byte b
  | FVal v => forall j, to_json v = Ok j -> strings_in scalars j
  end.

Definition presentable (r : ProvenanceRecord) : Prop := Forall (fun f => field_ok f.2) (fields r).

(** The same JSON value up to the order of dict items. *)
Definition same_json (v w : pyval) : Prop :=
  exists i j, to_json v = Ok i /\ to_json w = Ok j /\ canon i = canon j.

(** Equal but for the order of the items of the identity metadata. *)
Definition same_record (a b : ProvenanceRecord) : Prop :=
  same_json (pr_identity a) (pr_identity b) /\
  a = mkRecord (pr_id b) (pr_parent b) (pr_type b) (pr_scan_id b) (pr_finding_id b) (pr_org_id b) (pr_codebase_id b)
    (pr_commit_sha b) (pr_scm_provider b) (pr_snapshot_id b) (pr_snapshot_digest b) (pr_precondition_status b)
    (pr_S_version b) (pr_env_digest b) (pr_cpg_order_hash b) (pr_annotation b) (pr_fingerprint_class b)
    (pr_witness_blob_uri b) (pr_slice_fingerprint b) (pr_rule_id b) (pr_spec_id b) (pr_detector_id b)
    (pr_detector_engine b) (pr_sarif_hash b) (pr_origin b) (pr_determinism_partition b) (pr_reason b) (pr_oracle_id b)
    (pr_claim_label b) (pr_version b) (pr_identity a).

Lemma ascii_scalars s : ascii_text s -> scalars s.
Proof. intros H. eapply Forall_impl; [exact H|]. unfold scalar. intros c; cbn. lia. Qed.

Lemma hex_ascii_text b : Forall is_byte b -> ascii_text (hex b).
Proof. intros H%hex_ascii. eapply Forall_impl; [exact H|]. cbn. lia. Qed.

Lemma join_ascii sep l : ascii_text sep -> Forall ascii_text l -> ascii_text (join sep l).
Proof.
  intros Hs. induction l as [|x l IH]; intros Hl; [constructor|]. apply Forall_cons in Hl as [Hx Hl]. cbn.
  destruct l; [done|]. repeat (apply Forall_app; split); try done. by apply IH.
Qed.

Lemma uuid_str_ascii u : ascii_text (uuid_str u).
Proof.
  unfold uuid_str. pose proof (hex_ascii_text _ (to_bytes_is_byte 16 u)) as H. apply join_ascii; [repeat constructor; lia|].
  generalize dependent (hex (to_bytes 16 u)). intros h H. unfold ascii_text in H.
  repeat (apply Forall_cons; split); [..|by apply Forall_nil_2]; unfold ascii_text; auto using Forall_take, Forall_drop.
Qed.

Lemma canonical_value_scalars f j : field_ok f -> to_json (_canonical_value f) = Ok j -> strings_in scalars j.
Proof.
  destruct f as [u|[]]; cbn [field_ok _canonical_value]; try (intros H; exact (H j)).
  - intros _ [= <-]. apply ascii_scalars, uuid_str_ascii.
  - intros H [= <-]. by apply ascii_scalars, hex_ascii_text.
Qed.

(** The fields a signature covers. *)
Definition signed_fields (r : ProvenanceRecord) : list (string * field_value) :=
  if pr_version r =? 2 then fields r else take 29 (fields r).

Lemma payload_fields r : payload r = map (fun f => (str f.1, _canonical_value f.2)) (signed_fields r).
Proof. unfold payload, signed_fields. destruct (pr_version r =? 2); reflexivity. Qed.

Definition field_json (v : field_value) : outcome json := j ⇐ to_json (_canonical_value v); Ok (canon j).

Lemma payload_json l js : mapO item_json (map (fun f : string * field_value => (str f.1, _canonical_value f.2)) l) = Ok js ->
  map fst js = map (fun f => str f.1) l /\ mapO (fun f => field_json f.2) l = Ok (map (fun kv => canon kv.2) js) /\
  (Forall (fun f => field_ok f.2) l -> Forall (fun kv => strings_in scalars kv.2) js).
Proof.
  revert js. induction l as [|f l IH]; intros js; cbn [map mapO]; [by intros [= <-]|].
  unfold item_json at 1, field_json at 1. cbn [fst snd]. destruct (to_json (_canonical_value f.2)) as [j|] eqn:Ej; [|done].
  cbn [obind]. destruct (mapO item_json _) as [js'|]; [|done]. destruct (IH js' eq_refl) as (E1 & E2 & E3).
  cbn [obind]. intros [= <-]. cbn [map fst snd]. rewrite E1, E2. split_and!; [done..|].
  intros [H1 H2]%Forall_cons. constructor; [by eapply canonical_value_scalars|by apply E3].
Qed.

Definition field_names : list pystr := map (fun f => str f.1) (fields (mkRecord 0 None [] 0 None 0 0 [] [] 0 [] None [] [] None [] None None None None None None None None None None None None [] 2 VNone)).

Lemma names_fields r : map (fun f => str f.1) (fields r) = field_names.
Proof. reflexivity. Qed.

Lemma names_NoDup : NoDup field_names.
Proof. apply (bool_decide_unpack _). vm_compute. exact I. Qed.

#[export] Instance scalar_dec c : Decision (scalar c).
Proof. unfold scalar. apply _. Defined.

Lemma names_scalars : Forall scalars field_names.
Proof. apply (bool_decide_unpack (Forall (Forall scalar) field_names)). vm_compute. exact I. Qed.

Lemma signed_names r : map (fun f => str f.1) (signed_fields r) = take (if pr_version r =? 2 then 31 else 29) field_names.
Proof. unfold signed_fields. destruct (pr_version r =? 2); reflexivity. Qed.

Lemma signed_fields_ok r : presentable r -> Forall (fun f => field_ok f.2) (signed_fields r).
Proof. intros H. unfold signed_fields. case_match; [done|]. by apply Forall_take. Qed.

Lemma scalars_points s : scalars s -> code_points s.
Proof. intros H. eapply Forall_impl; [exact H|]. unfold scalar. intros c; cbn. lia. Qed.

Lemma canonical_bytes_inv r b : canonical_record_bytes r = Ok b -> presentable r ->
  exists js, check_versions r = Ok tt /\ mapO item_json (payload r) = Ok js /\ b = dumps_ascii (JObj js) /\
    strings_in scalars (JObj js).
Proof.
  unfold canonical_record_bytes. rewrite to_json_dict. intros H Hp.
  apply obind_Ok in H as ([] & Hc & H). apply obind_Ok in H as (j & Hj & H). apply obind_Ok in Hj as (js & Hj & [= <-]).
  assert (Hs : strings_in scalars (JObj js)).
  { rewrite payload_fields in Hj. destruct (payload_json _ _ Hj) as (E1 & _ & E3).
    specialize (E3 (signed_fields_ok r Hp)). rewrite strings_in_obj. rewrite Forall_forall in E3 |- *. intros kv Hkv.
    split; [|by apply E3]. pose proof names_scalars as Hn. rewrite Forall_forall in Hn. apply Hn.
    assert (Hin : kv.1 ∈ map fst js) by (by apply list_elem_of_fmap_2). rewrite E1, signed_names in Hin.
    by apply elem_of_take in Hin as (i & Hi & _); apply list_elem_of_lookup_2 in Hi. }
  rewrite (dumps_ascii_encodes _ _ scalars_points) in H by done. injection H as <-. by exists js.
Qed.

Lemma length_canon_obj js : exists l, canon (JObj js) = JObj l /\ length l = length js.
Proof. cbn [canon]. eexists. split; [done|]. by rewrite length_py_sorted, length_map. Qed.

(** The signed fields, as JSON. *)
Lemma canonical_bytes_fields a c b : presentable a -> presentable c ->
  canonical_record_bytes a = Ok b -> canonical_record_bytes c = Ok b ->
  (pr_version a =? 2) = (pr_version c =? 2) /\
  mapO (fun f => field_json f.2) (signed_fields a) = mapO (fun f => field_json f.2) (signed_fields c) /\
  exists js, mapO (fun f => field_json f.2) (signed_fields a) = Ok js.
Proof.
  intros Pa Pc Ha Hc. apply canonical_bytes_inv in Ha as (ja & _ & Ja & -> & Sa); [|done].
  apply canonical_bytes_inv in Hc as (jc & _ & Jc & E & Sc); [|done].
  apply dumps_ascii_inj in E; [|done..]. rewrite payload_fields in Ja, Jc.
  destruct (payload_json _ _ Ja) as (Na & Fa & _), (payload_json _ _ Jc) as (Nc & Fc & _).
  rewrite signed_names in Na, Nc.
  assert (Hv : (pr_version a =? 2) = (pr_version c =? 2)).
  { destruct (length_canon_obj ja) as (la & Ea & La), (length_canon_obj jc) as (lc & Ec & Lc).
    rewrite Ea, Ec in E. injection E as ->. apply (f_equal length) in Na, Nc.
    rewrite length_map, length_take in Na, Nc. rewrite La in Lc. rewrite Na, Nc in Lc.
    clear -Lc. change (length field_names) with 31%nat in Lc. destruct (pr_version a =? 2), (pr_version c =? 2); cbn in Lc; congruence. }
  split; [done|]. assert (Ek : map (fun kv => canon kv.2) ja = map (fun kv => canon kv.2) jc).
  { apply canon_obj_inj; [|by rewrite Na, Nc, Hv|done]. rewrite Na. eapply sublist_NoDup; [apply names_NoDup|apply sublist_take]. }
  rewrite Fa, Fc, Ek. eauto.
Qed.

Lemma mapO_pointwise {A B} (f : A -> outcome B) l k js : mapO f l = Ok js -> mapO f k = Ok js ->
  Forall2 (fun x y => f x = f y) l k.
Proof.
  intros Hl%mapO_Forall2. revert k. induction Hl as [|x y l js Hx _ IH]; intros k Hk%mapO_Forall2; inversion Hk; subst; constructor;
    [congruence|by apply IH, mapO_Forall2].
Qed.

Lemma mapO_elem {A B} (f : A -> outcome B) l js x : mapO f l = Ok js -> x ∈ l -> exists y, f x = Ok y.
Proof. intros H%mapO_Forall2 Hx. apply list_elem_of_lookup in Hx as [i Hi]. destruct (Forall2_lookup_l _ _ _ _ _ H Hi) as (y & _ & E). eauto. Qed.

Section fields.
Implicit Types (s t : pystr) (u v : UUID).

Lemma same_JStr s t : Ok (JStr s) = Ok (JStr t) -> s = t.
Proof. congruence. Qed.

Lemma field_uuid u v : field_json (FUuid u) = field_json (FUuid v) -> field_ok (FUuid u) -> field_ok (FUuid v) -> u = v.
Proof. intros E Hu Hv. apply uuid_str_inj; [done..|]. exact (same_JStr _ _ E). Qed.

Lemma field_text s t : field_json (text_field s) = field_json (text_field t) -> s = t.
Proof. exact (same_JStr s t). Qed.

Lemma field_opt_text (o p : option pystr) : field_json (opt_text o) = field_json (opt_text p) -> o = p.
Proof. destruct o, p; try done. by intros ->%same_JStr. Qed.

Lemma field_opt_bytes o p : field_json (opt_bytes o) = field_json (opt_bytes p) ->
  field_ok (opt_bytes o) -> field_ok (opt_bytes p) -> o = p.
Proof. destruct o, p; try done. intros E Ho Hp. f_equal. apply hex_inj; [done..|]. exact (same_JStr _ _ E). Qed.

Lemma field_opt_uuid o p : field_json (opt_uuid o) = field_json (opt_uuid p) ->
  field_ok (opt_uuid o) -> field_ok (opt_uuid p) -> o = p.
Proof. destruct o, p; try done. intros E Ho Hp. f_equal. by apply field_uuid. Qed.

Definition not_bytes (v : pyval) : Prop := match v with VBytes _ => False | _ => True end.

Lemma field_identity (v w : pyval) : field_json (FVal v) = field_json (FVal w) -> not_bytes v -> not_bytes w -> (exists j, field_json (FVal v) = Ok j) ->
  same_json v w.
Proof.
  unfold field_json. intros E Hv Hw [j Hj].
  assert (Ev : _canonical_value (FVal v) = v) by (by destruct v). assert (Ew : _canonical_value (FVal w) = w) by (by destruct w).
  rewrite Ev in E, Hj. rewrite Ew in E. rewrite E in Hj. unfold same_json.
  destruct (to_json v) as [x|], (to_json w) as [y|]; try done. injection E as E. eauto.
Qed.
End fields.

(** What the checks of the version say of the identity metadata. *)
Lemma check_versions_inv r : check_versions r = Ok tt ->
  (pr_version r = 1 /\ pr_identity r = VNone) \/
  (pr_version r = 2 /\ check_record_v2 r = Ok tt /\ exists ids, validate_identity_metadata (pr_identity r) = Ok ids).
Proof.
  unfold check_versions. destruct (Z.eqb_spec (pr_version r) 1) as [->|H1]; cbn [orb negb andb].
  - destruct (pr_identity r); try done. by left.
  - destruct (Z.eqb_spec (pr_version r) 2) as [->|H2]; cbn [negb]; [|done]. intros H. right. split_and!; [done..|].
    unfold check_record_v2 in H. destruct (bool_decide _); [done|]. destruct (validate_identity_metadata _); [eauto|done].
Qed.

Lemma validated_not_bytes v ids : validate_identity_metadata v = Ok ids -> not_bytes v.
Proof. by destruct v. Qed.

(** The canonical bytes bind the record. *)
Lemma canonical_bytes_bind a c b : presentable a -> presentable c ->
  canonical_record_bytes a = Ok b -> canonical_record_bytes c = Ok b -> same_record a c.
Proof.
  intros Pa Pc Ha Hc. destruct (canonical_bytes_fields a c b Pa Pc Ha Hc) as (Hv & E & js & Ea). rewrite Ea in E.
  pose proof (mapO_pointwise _ _ _ _ Ea (eq_sym E)) as F.
  assert (Fj : forall x, x ∈ signed_fields a -> exists j, field_json x.2 = Ok j) by (intros x Hx; by apply (mapO_elem _ _ _ x Ea Hx)).
  clear E Ea.
  apply canonical_bytes_inv in Ha as (_ & Va & _), Hc as (_ & Vc & _); [|done..].
  assert (F' : Forall2 (fun x y : string * field_value => field_json x.2 = field_json y.2) (take 29 (fields a)) (take 29 (fields c))).
  { unfold signed_fields in F. rewrite <-Hv in F. destruct (pr_version a =? 2); [by apply Forall2_take|done]. }
  assert (Hid : same_json (pr_identity a) (pr_identity c) /\ pr_version a = pr_version c).
  { apply check_versions_inv in Va, Vc. destruct Va as [[V1 I1]|(V1 & _ & ids1 & I1)], Vc as [[V2 I2]|(V2 & _ & ids2 & I2)];
      rewrite V1, V2 in Hv; try done; (split; [|congruence]).
    - rewrite I1, I2. by exists JNull, JNull.
    - unfold signed_fields in F, Fj. rewrite V1, V2 in F. rewrite V1 in Fj. apply (Forall2_drop _ _ _ 30) in F. cbn in F. apply Forall2_cons in F as [F _].
      apply field_identity; [done|by eapply validated_not_bytes..|refine (Fj ("artifact_identity"%string, FVal (pr_identity a)) _); cbn; do 30 right; left]. }
  destruct Hid as [Hid Hver]. split; [exact Hid|]. clear Hid F Va Vc Hv Fj.
  cbn [take fields] in F'. unfold presentable, fields in Pa, Pc.
  repeat (apply Forall_cons in Pa as [? Pa]; apply Forall_cons in Pc as [? Pc]). clear Pa Pc.
  repeat (apply Forall2_cons in F' as [? F']). clear F'. cbn [snd] in *.
  repeat match goal with
  | F : field_json (FUuid _) = field_json (FUuid _) |- _ => apply field_uuid in F; [|assumption..]
  | F : field_json (text_field _) = field_json (text_field _) |- _ => apply field_text in F
  | F : field_json (opt_text _) = field_json (opt_text _) |- _ => apply field_opt_text in F
  | F : field_json (opt_bytes _) = field_json (opt_bytes _) |- _ => apply field_opt_bytes in F; [|assumption..]
  | F : field_json (opt_uuid _) = field_json (opt_uuid _) |- _ => apply field_opt_uuid in F; [|assumption..]
  end.
  destruct a, c. cbn in *. subst. reflexivity.
Qed.
