(* ===== verification/DiffOracle.v ===== *)
(** * The differential oracle ([services/snapshot/diff_oracle.py])

    Oracle runs are recorded once each; a disagreement re-partitions the core
    findings of a snapshot by appending re-partition records.  The verdict of
    the oracle is an input, as in the source. *)
From stdpp Require Import base tactics list gmap strings relations.
From Stdlib Require Import ZArith Lia.
From S2P Require Import Prelude PyData Sha256 Ordering PyDict Json JsonAscii PyText Identity BoundRules Sarif Provenance.

Open Scope Z_scope.
Open Scope py_scope.
Open Scope st_scope.

Definition CORE_ENGINES : list pystr := map str ["ifds"; "ide"]%string.

(** ** Oracle runs *)

Record OracleReflectionSite := mkSite { rel_path : pystr; site_line : Z; detail : pystr }.

Record OracleRunRecord := mkRun {
  run_id : UUID;
  run_snapshot_id : UUID;
  oracle_version : pystr;
  run_cw_detect_version : pystr;
  oracle_verdict : pystr;
  agreed : bool;
  run_reflection_sites : list OracleReflectionSite;
  started_at : pystr;
  completed_at : pystr;
  run_reason : option pystr
}.

Class OracleRunStore (R : Type) := {
  run_append : OracleRunRecord -> St R unit;
  run_get : UUID -> St R (option OracleRunRecord)
}.

(** [InMemoryOracleRunStore]: the rows, in insertion order *)
Definition InMemoryOracleRunStore := list OracleRunRecord.

Definition memory_run_append (r : OracleRunRecord) : St InMemoryOracleRunStore unit :=
  found ⟸ sget (fun rows => bool_decide (run_id r ∈ map run_id rows));
  if found : bool then sraise AssertionError else sput (fun rows => rows ++ [r]).

Definition memory_run_get (id : UUID) : St InMemoryOracleRunStore (option OracleRunRecord) :=
  sget (List.find (fun r => bool_decide (run_id r = id))).

Definition all_runs : InMemoryOracleRunStore -> list OracleRunRecord := fun rows => rows.

#[export] Instance memory_run_store : OracleRunStore InMemoryOracleRunStore :=
  { run_append := memory_run_append; run_get := memory_run_get }.

(** The store, the languages of the disagreements counted, the identifiers drawn. *)
Record OracleWorld (R : Type) := mkOracleWorld { o_runs : R; o_disagreements : list pystr; o_drawn : nat }.
Arguments mkOracleWorld {R} _ _ _.
Arguments o_runs {R} _.
Arguments o_disagreements {R} _.
Arguments o_drawn {R} _.

Section runs.
Context {R : Type} `{!OracleRunStore R}.
Variable uuid4 : nat -> UUID.

Definition on_runs {A} (m : St R A) : St (OracleWorld R) A :=
  fun w => let '(r, s) := m (o_runs w) in (r, mkOracleWorld s (o_disagreements w) (o_drawn w)).

Definition oracle_draw : St (OracleWorld R) UUID := fun w =>
  (Ok (uuid4 (o_drawn w)), mkOracleWorld (o_runs w) (o_disagreements w) (Datatypes.S (o_drawn w))).

Definition record_counter (language : pystr) : St (OracleWorld R) unit :=
  sput (fun w => mkOracleWorld (o_runs w) (o_disagreements w ++ [language]) (o_drawn w)).

Definition record_oracle_run (snapshot_id : UUID) (verdict oracle_v cw_v started completed : pystr)
    (sites : list OracleReflectionSite) (reason : option pystr) (id : option UUID) (language : pystr) :
    St (OracleWorld R) OracleRunRecord :=
  let agreed := str_eqb verdict (str "closed-world") in
  if agreed && negb (match sites with [] => true | _ => false end)
  then sraise (ValueError "a 'closed-world' oracle verdict must carry zero reflection_sites")
  else
    (id ⟸ match id with Some u => sret u | None => oracle_draw end;
     let r := mkRun id snapshot_id oracle_v cw_v verdict agreed sites started completed reason in
     on_runs (run_append r) ⨟
     (if negb agreed then record_counter language else sret tt) ⨟
     sret r).

Definition record_safe_default_agreement (snapshot_id : UUID) (oracle_v cw_v started completed : pystr)
    (reason : pystr) (id : option UUID) : St (OracleWorld R) OracleRunRecord :=
  record_oracle_run snapshot_id (str "closed-world") oracle_v cw_v started completed [] (Some reason) id (str "unknown").
End runs.

(** ** Re-partition *)

(** [ProvenanceStore] with the query by snapshot *)
Class RepartitionProvenanceStore (S : Type) `{ProvenanceStore S} := {
  ps_core_chain_records : UUID -> St S (list SignedProvenanceRecord)
}.

Record RepartitionResult := mkResult {
  affected_finding_count : Z;
  new_repartition_record_ids : list UUID;
  notified_customers : list UUID;
  already_repartitioned : Z
}.

Definition _is_core_at_risk (signed : SignedProvenanceRecord) : bool :=
  let r := record signed in
  str_eqb (pr_type r) (str "chain") && bool_decide (pr_origin r = Some CORE_ORIGIN) &&
  match pr_detector_engine r with Some e => bool_decide (e ∈ CORE_ENGINES) | None => false end.

Section repartition.
Context `{PyRuntime, Cryptography} {K S : Type} `{!KMSAsymmetricSigner K, !ProvenanceStore S, !RepartitionProvenanceStore S}.
Variable uuid4 : nat -> UUID.
Notation W := (World K S).

Definition is_repartition (signed : SignedProvenanceRecord) : bool := str_eqb (pr_type (record signed)) (str "repartition").

Definition _already_repartitioned (id : UUID) : St W bool :=
  children ⟸ on_store (ps_children id);
  sret (existsb is_repartition children).

Definition effective_origin (chain : SignedProvenanceRecord) : St W pystr :=
  flipped ⟸ _already_repartitioned (pr_id (record chain));
  if flipped : bool then sret ORACLE_ORIGIN
  else sret (default ORACLE_ORIGIN (pr_origin (record chain))).

(** The locals of the loop of [repartition_snapshot]. *)
Record Tally := mkTally { new_ids : list UUID; notified : gset UUID; affected : Z; already : Z }.

Definition repartition_one (oracle_run_id : UUID) (reason alg : pystr) (t : Tally) (chain : SignedProvenanceRecord) : St W Tally :=
  if negb (_is_core_at_risk chain) then sret t
  else
    (done ⟸ _already_repartitioned (pr_id (record chain));
     if done : bool then sret (mkTally (new_ids t) (notified t) (affected t) (already t + 1))
     else
       (signed ⟸ append_repartition_event uuid4 (pr_id (record chain)) oracle_run_id reason alg;
        sret (mkTally (new_ids t ++ [pr_id (record signed)]) ({[pr_org_id (record chain)]} ∪ notified t)
                (affected t + 1) (already t)))).

Definition repartition_snapshot (snapshot_id oracle_run_id : UUID) (reason alg : pystr) : St W RepartitionResult :=
  candidates ⟸ on_store (ps_core_chain_records snapshot_id);
  t ⟸ sfold (repartition_one oracle_run_id reason alg) (mkTally [] ∅ 0 0) candidates;
  sret (mkResult (affected t) (new_ids t) (py_sorted Z.leb (elements (notified t))) (already t)).
End repartition.

(** * Re-partition: append-only, exactly once, one way

    The interface a provenance store offers is a class: reads see the rows in
    order, an append adds one row under a fresh identifier.  Against it, a
    re-partition appends one record for each core finding of the snapshot
    that has none, and nothing else. *)

Notation Signed := SignedProvenanceRecord.
Notation rid x := (pr_id (record x)).

Definition has_parent (id : UUID) (x : Signed) : bool := bool_decide (pr_parent (record x) = Some id).

(** ** What a store promises *)

Class AppendOnlyStore (S : Type) `{ProvenanceStore S} := {
  rows : S -> list Signed;
  get_rows id s : ps_get id s = (Ok (List.find (fun x => bool_decide (rid x = id)) (rows s)), s);
  children_rows id s : ps_children id s = (Ok (List.filter (has_parent id) (rows s)), s);
  append_Ok x s s' : ps_append x s = (Ok tt, s') -> rid x ∉ map (fun y => rid y) (rows s) /\ rows s' = rows s ++ [x];
  append_Raise x s e s' : ps_append x s = (Raise e, s') -> rows s' = rows s
}.

Class SnapshotQuery (S : Type) `{RepartitionProvenanceStore S} `{!AppendOnlyStore S} := {
  core_rows : UUID -> S -> list Signed;
  core_chain_rows id s : ps_core_chain_records id s = (Ok (core_rows id s), s);
  core_rows_sound id s x : x ∈ core_rows id s -> x ∈ rows s /\ pr_snapshot_id (record x) = id;
  core_rows_complete id s x : x ∈ rows s -> pr_snapshot_id (record x) = id -> _is_core_at_risk x = true -> x ∈ core_rows id s
}.

(** ** Reference definitions *)

(** The records that have a re-partition among [l]. *)
Definition flipped (l : list Signed) : list UUID :=
  omap (fun x => if is_repartition x then pr_parent (record x) else None) l.

(** The core findings among [l] still to flip, each once. *)
Fixpoint pending (done : list UUID) (l : list Signed) : list Signed :=
  match l with
  | [] => []
  | x :: l =>
      if _is_core_at_risk x && negb (bool_decide (rid x ∈ done)) then x :: pending (rid x :: done) l
      else pending done l
  end.

(** [y] is the signed re-partition of [x]. *)
Definition flip_of (oracle_run_id : UUID) (reason alg : pystr) (x y : Signed) : Prop :=
  record y = repartition_record (rid y) (record x) (rid x) oracle_run_id reason /\
  kms_key_arn y = kms_key_arn x /\ signature_alg y = alg /\ canonical_record_bytes (record y) = Ok (canonical_bytes y).

Lemma flipped_app l k : flipped (l ++ k) = flipped l ++ flipped k.
Proof. unfold flipped. apply omap_app. Qed.

Lemma existsb_flipped id l : existsb is_repartition (List.filter (has_parent id) l) = bool_decide (id ∈ flipped l).
Proof.
  apply eq_bool_prop_intro. rewrite bool_decide_spec, Is_true_true, existsb_exists. unfold flipped. rewrite list_elem_of_omap. split.
  - intros (x & Hx & Hr). apply filter_In in Hx as [Hx Hp]. exists x. rewrite list_elem_of_In, Hr. split; [done|].
    unfold has_parent in Hp. by apply bool_decide_eq_true in Hp.
  - intros (x & Hx & E). destruct (is_repartition x) eqn:Hr; [|done]. exists x. split; [|done]. apply filter_In.
    rewrite list_elem_of_In in Hx. split; [done|]. unfold has_parent. by apply bool_decide_eq_true.
Qed.

Lemma flip_of_flipped oid reason alg xs ys : Forall2 (flip_of oid reason alg) xs ys -> flipped ys = map (fun x => rid x) xs.
Proof.
  induction 1 as [|x y xs ys (E & _) _ IH]; [done|]. change (y :: ys) with ([y] ++ ys). rewrite flipped_app, IH.
  unfold flipped. cbn. unfold is_repartition. by rewrite E.
Qed.

(** A unique identifier finds its row. *)
Lemma find_row l x : NoDup (map (fun y : Signed => rid y) l) -> x ∈ l -> List.find (fun y => bool_decide (rid y = rid x)) l = Some x.
Proof.
  induction l as [|y l IH]; [by intros _ ?%elem_of_nil|]. cbn [map List.find]. intros [Hy Hnd]%NoDup_cons [->|Hx]%elem_of_cons.
  - by rewrite bool_decide_true.
  - rewrite bool_decide_false; [by apply IH|]. intros E. apply Hy. rewrite E. by apply (list_elem_of_fmap_2 (fun y : Signed => rid y)).
Qed.

(** ** Signing and appending *)

Section spec.
Context `{PyRuntime, Cryptography} {K S : Type} `{!KMSAsymmetricSigner K} `{!ProvenanceStore S}.
Context `{!AppendOnlyStore S}.
Variable uuid4 : nat -> UUID.
Notation W := (World K S).

Notation rowsW w := (rows (w_store w)).
Definition unique (l : list Signed) : Prop := NoDup (map (fun y => rid y) l).

Lemma sign_spec r arn alg (w : W) : let '(out, w') := sign_provenance r arn alg true w in
  w_drawn w' = w_drawn w /\
  match out with
  | Ok y => record y = r /\ kms_key_arn y = arn /\ signature_alg y = alg /\ canonical_record_bytes r = Ok (canonical_bytes y) /\
      rid y ∉ map (fun z => rid z) (rowsW w) /\ rowsW w' = rowsW w ++ [y]
  | Raise _ => rowsW w' = rowsW w
  end.
Proof.
  unfold sign_provenance. destruct (negb _); [done|]. destruct (bool_decide _ && _); [done|].
  unfold sbind at 1. cbn [slift]. destruct (canonical_record_bytes r) as [b|]; [|done].
  unfold sbind at 1, on_signer. destruct (kms_sign _ _ _ _) as [[resp|e] k]; [|done].
  unfold sbind at 1. cbn [slift]. destruct (_expect_bytes resp "Signature") as [sig|]; [|done].
  unfold sbind at 1, on_store. cbn [w_store w_signer w_drawn]. set (y := mkSigned _ _ _ _ _ _).
  destruct (ps_append y (w_store w)) as [[[]|e] s'] eqn:E; cbn [sret w_store w_drawn].
  - apply append_Ok in E as [E1 E2]. by rewrite E2.
  - apply append_Raise in E. done.
Qed.

Lemma append_as_sign p oid reason alg (w : W) x : unique (rowsW w) -> x ∈ rowsW w -> rid x = p ->
  append_repartition_event uuid4 p oid reason alg w =
  sign_provenance (repartition_record (uuid4 (w_drawn w)) (record x) p oid reason) (kms_key_arn x) alg true
    (mkWorld (w_signer w) (w_store w) (Datatypes.S (w_drawn w))).
Proof.
  intros Hu Hx <-. unfold append_repartition_event. unfold sbind at 1, on_store. rewrite get_rows. cbn [w_store w_signer w_drawn].
  by rewrite (find_row _ _ Hu Hx).
Qed.

Lemma append_repartition_spec p oid reason alg (w : W) x : unique (rowsW w) -> x ∈ rowsW w -> rid x = p ->
  let '(out, w') := append_repartition_event uuid4 p oid reason alg w in
  match out with
  | Ok y => flip_of oid reason alg x y /\ rid y ∉ map (fun z => rid z) (rowsW w) /\ rowsW w' = rowsW w ++ [y]
  | Raise _ => rowsW w' = rowsW w
  end.
Proof.
  intros Hu Hx <-. rewrite (append_as_sign (rid x) oid reason alg w x Hu Hx eq_refl).
  match goal with |- context [sign_provenance ?r ?a _ _ ?w1] => pose proof (sign_spec r a alg w1) as Hs end.
  destruct (sign_provenance _ _ _ _ _) as [[y|e] w'], Hs as [_ Hs]; [|done]. destruct Hs as (E1 & E2 & E3 & E4 & E5 & E6).
  split; [|done]. unfold flip_of. rewrite E1. by split_and!.
Qed.

Lemma already_spec id (w : W) : _already_repartitioned id w = (Ok (bool_decide (id ∈ flipped (rowsW w))), w).
Proof.
  unfold _already_repartitioned. unfold sbind, on_store. rewrite children_rows. cbn. rewrite existsb_flipped. by destruct w.
Qed.

Lemma origin_spec x (w : W) : effective_origin x w =
  (Ok (if bool_decide (rid x ∈ flipped (rowsW w)) then ORACLE_ORIGIN else default ORACLE_ORIGIN (pr_origin (record x))), w).
Proof. unfold effective_origin. unfold sbind at 1. rewrite already_spec. by case_bool_decide. Qed.

Lemma pending_ext l : forall d d', (forall id, id ∈ d <-> id ∈ d') -> pending d l = pending d' l.
Proof.
  induction l as [|x l IH]; intros d d' Hd; [done|]. cbn [pending]. rewrite (bool_decide_ext _ _ (Hd (rid x))).
  destruct (_ && _); [f_equal|]; apply IH; [|done]. intros id. rewrite !elem_of_cons, Hd. done.
Qed.

Lemma unique_snoc (l : list Signed) y : unique l -> rid y ∉ map (fun z => rid z) l -> unique (l ++ [y]).
Proof.
  unfold unique. rewrite map_app. intros Hl Hy. apply NoDup_app. split; [done|]. split; [|apply NoDup_singleton].
  intros z Hz ->%list_elem_of_singleton. done.
Qed.

Definition at_risk (l : list Signed) : Z := Z.of_nat (length (List.filter _is_core_at_risk l)).
Definition orgs (l : list Signed) : gset UUID := list_to_set (map (fun x => pr_org_id (record x)) l).

(** What the loop has done, from [t] and the rows [R], when it ends with [out] and the rows [R']. *)
Definition loop_effect (oid : UUID) (reason alg : pystr) (cs : list Signed) (t : Tally) (R R' : list Signed) (out : outcome Tally) : Prop :=
  exists xs new, R' = R ++ new /\ unique R' /\ Forall2 (flip_of oid reason alg) xs new /\ xs `prefix_of` pending (flipped R) cs /\
  match out with
  | Ok t' => xs = pending (flipped R) cs /\
      t' = mkTally (new_ids t ++ map (fun y => rid y) new) (orgs xs ∪ notified t) (affected t + Z.of_nat (length new))
             (already t + (at_risk cs - Z.of_nat (length new)))
  | Raise _ => True
  end.

Lemma loop_spec oid reason alg cs : forall t (w : W), unique (rowsW w) -> Forall (fun x => x ∈ rowsW w) cs ->
  let '(out, w') := sfold (repartition_one uuid4 oid reason alg) t cs w in
  loop_effect oid reason alg cs t (rowsW w) (rowsW w') out.
Proof.
  induction cs as [|x cs IH]; intros t w Hu Hcs; cbn [sfold].
  { exists [], []. rewrite app_nil_r. split_and!; try done. destruct t; cbn. f_equal; [by rewrite app_nil_r|unfold orgs; set_solver|lia|unfold at_risk; cbn; lia]. }
  apply Forall_cons in Hcs as [Hx Hcs]. unfold sbind at 1, repartition_one at 1.
  destruct (_is_core_at_risk x) eqn:Hr; cbn [negb].
  2:{ specialize (IH t w Hu Hcs). cbn [sret]. destruct (sfold _ _ _ _) as [out w']. unfold loop_effect, at_risk in *. cbn [pending List.filter].
      rewrite Hr. done. }
  unfold sbind at 1. rewrite already_spec. destruct (bool_decide (rid x ∈ flipped (rowsW w))) eqn:Hf.
  { cbn [sret]. specialize (IH (mkTally (new_ids t) (notified t) (affected t) (already t + 1)) w Hu Hcs).
    destruct (sfold _ _ _ _) as [out w']. unfold loop_effect, at_risk in *. cbn [pending List.filter]. rewrite Hr, Hf. cbn [andb negb].
    destruct IH as (xs & new & E1 & E2 & E3 & E4 & E5). exists xs, new. split_and!; try done. destruct out; [|done].
    destruct E5 as [E5 ->]. split; [done|]. cbn. f_equal. lia. }
  pose proof (append_repartition_spec (rid x) oid reason alg w x Hu Hx eq_refl) as Ha. unfold sbind at 1.
  destruct (append_repartition_event _ _ _ _ _ _) as [[y|e] w1].
  2:{ exists [], []. rewrite app_nil_r, Ha. split_and!; try done. apply prefix_nil. }
  destruct Ha as (Hy & Hfresh & Ew). cbn [sret].
  assert (Ef : flipped (rowsW w1) = flipped (rowsW w) ++ [rid x]).
  { rewrite Ew, flipped_app. f_equal. by apply (flip_of_flipped oid reason alg [x]), Forall2_cons. }
  specialize (IH (mkTally (new_ids t ++ [rid y]) ({[pr_org_id (record x)]} ∪ notified t) (affected t + 1) (already t)) w1).
  destruct (sfold _ _ _ _) as [out w']. destruct IH as (xs & new & E1 & E2 & E3 & E4 & E5).
  { rewrite Ew. by apply unique_snoc. }
  { rewrite Ew. eapply Forall_impl; [exact Hcs|]. cbn. intros z Hz. apply elem_of_app. by left. }
  assert (Ep : pending (flipped (rowsW w)) (x :: cs) = x :: pending (flipped (rowsW w1)) cs).
  { cbn [pending]. rewrite Hr, Hf. cbn [andb negb]. f_equal. apply pending_ext. intros id. rewrite Ef, elem_of_cons, elem_of_app, list_elem_of_singleton. tauto. }
  exists (x :: xs), (y :: new). rewrite E1, Ew, <-app_assoc. split_and!; [done| |by constructor|rewrite Ep; by apply prefix_cons|].
  { by rewrite E1, Ew, <-app_assoc in E2. }
  destruct out; [|done]. destruct E5 as [E5 ->]. rewrite Ep, <-E5. split; [done|]. cbn [new_ids notified affected already map length].
  unfold at_risk. cbn [List.filter]. rewrite Hr. cbn [length]. f_equal; [by rewrite <-app_assoc|unfold orgs; cbn; set_solver|lia|lia].
Qed.
End spec.

(** ** The findings to flip *)

Lemma pending_elem l : forall done x, x ∈ pending done l ->
  x ∈ l /\ _is_core_at_risk x = true /\ rid x ∉ done.
Proof.
  induction l as [|y l IH]; intros done x; cbn [pending]; [by intros ?%elem_of_nil|].
  destruct (_is_core_at_risk y && _) eqn:E.
  - apply andb_true_iff in E as [E1 E2]. rewrite negb_true_iff, bool_decide_eq_false in E2. intros [->|Hx]%elem_of_cons; [split_and!; try done; left|].
    destruct (IH _ _ Hx) as (H1 & H2 & H3). split_and!; [by right|done|]. intros H. apply H3. by right.
  - intros Hx. destruct (IH _ _ Hx) as (H1 & H2 & H3). split_and!; try done. by right.
Qed.

Lemma pending_NoDup l : forall done, NoDup (map (fun x : Signed => rid x) (pending done l)).
Proof.
  induction l as [|y l IH]; intros done; cbn [pending]; [constructor|]. destruct (_ && _); [|apply IH].
  cbn [map]. apply NoDup_cons. split; [|apply IH]. intros (x & E & Hx)%list_elem_of_fmap. apply pending_elem in Hx as (_ & _ & H).
  apply H. rewrite <-E. left.
Qed.

Lemma pending_covers l : forall done x, x ∈ l -> _is_core_at_risk x = true ->
  rid x ∈ done \/ rid x ∈ map (fun x : Signed => rid x) (pending done l).
Proof.
  induction l as [|y l IH]; intros done x; [by intros ?%elem_of_nil|]. intros Hx Hr. cbn [pending].
  destruct (_is_core_at_risk y && _) eqn:E.
  - apply elem_of_cons in Hx as [->|Hx]; [right; left|]. destruct (IH (rid y :: done) x Hx Hr) as [H|H]; [|right; by right].
    apply elem_of_cons in H as [->|H]; [right; left|by left].
  - apply elem_of_cons in Hx as [->|Hx]; [|by apply IH]. rewrite Hr in E. cbn in E. apply negb_false_iff, bool_decide_eq_true in E. by left.
Qed.

Lemma core_is_chain x : _is_core_at_risk x = true -> is_repartition x = false.
Proof.
  unfold _is_core_at_risk, is_repartition, str_eqb. intros H. apply andb_true_iff in H as [H _]. apply andb_true_iff in H as [H _].
  apply bool_decide_eq_true in H as ->. reflexivity.
Qed.

Lemma flip_is_repartition oid reason alg x y : flip_of oid reason alg x y -> is_repartition y = true.
Proof. intros (E & _). unfold is_repartition. rewrite E. reflexivity. Qed.

(** ** What a re-partition does *)

Section repartition.
Context `{PyRuntime, Cryptography} {K S : Type} `{!KMSAsymmetricSigner K} `{!ProvenanceStore S, !RepartitionProvenanceStore S}.
Context `{!AppendOnlyStore S, !SnapshotQuery S}.
Variable uuid4 : nat -> UUID.

Notation W := (World K S).
Notation rowsW w := (rows (w_store w)).
Notation repartition := (repartition_snapshot uuid4).

Lemma repartition_effect id oid reason alg (w : W) : unique (rowsW w) ->
  let '(out, w') := repartition id oid reason alg w in
  unique (rowsW w') /\
  exists xs new, rowsW w' = rowsW w ++ new /\ Forall2 (flip_of oid reason alg) xs new /\
    xs `prefix_of` pending (flipped (rowsW w)) (core_rows id (w_store w)) /\
    forall res, out = Ok res ->
      xs = pending (flipped (rowsW w)) (core_rows id (w_store w)) /\
      res = mkResult (Z.of_nat (length new)) (map (fun y => rid y) new) (py_sorted Z.leb (elements (orgs xs)))
              (at_risk (core_rows id (w_store w)) - Z.of_nat (length new)).
Proof.
  intros Hu. unfold repartition_snapshot. unfold sbind at 1, on_store. rewrite core_chain_rows.
  set (w0 := mkWorld (w_signer w) (w_store w) (w_drawn w)). unfold sbind.
  pose proof (loop_spec uuid4 oid reason alg (core_rows id (w_store w)) (mkTally [] ∅ 0 0) w0 Hu) as Hl.
  destruct (sfold _ _ _ w0) as [out w'] eqn:E. destruct Hl as (xs & new & E1 & E2 & E3 & E4 & E5).
  { apply Forall_forall. intros x Hx. by apply core_rows_sound in Hx as [Hx _]. }
  destruct out as [t'|e]; cbn [sret]; (split; [done|]; exists xs, new; split_and!; try done). intros res [= <-].
  destruct E5 as [E5 ->]. split; [done|]. cbn. f_equal. by rewrite (right_id_L ∅ (∪)).
Qed.

(** C18: a re-partition appends exactly the flips that are due.  Whether it
    returns or raises, the rows it leaves are the rows before and one signed
    re-partition record for each finding of a prefix of [pending]: the core
    findings the store holds for the snapshot that have no re-partition yet,
    each once.  When it returns the prefix is all of them, and the result
    counts them, names the new records and the customers, and counts the
    candidates already flipped. *)
Theorem repartition_exact id oid reason alg (w : W) out w' : unique (rowsW w) ->
  repartition id oid reason alg w = (out, w') ->
  let candidates := core_rows id (w_store w) in
  let due := pending (flipped (rowsW w)) candidates in
  exists xs new, rowsW w' = rowsW w ++ new /\ Forall2 (flip_of oid reason alg) xs new /\ xs `prefix_of` due /\
    forall res, out = Ok res ->
      xs = due /\
      res = mkResult (Z.of_nat (length due)) (map (fun y => rid y) new) (py_sorted Z.leb (elements (orgs due)))
              (at_risk candidates - Z.of_nat (length due)).
Proof.
  intros Hu E. pose proof (repartition_effect id oid reason alg w Hu) as He. rewrite E in He.
  destruct He as (_ & xs & new & H1 & H2 & H3 & H4). cbn zeta. exists xs, new. split_and!; [done..|].
  intros res Hres. destruct (H4 res Hres) as [H5 ->]. rewrite <-H5, (Forall2_length _ _ _ H2). done.
Qed.

(** A re-partition of any snapshot, by any run. *)
Definition called (w w' : W) : Prop := exists id oid reason alg, w' = (repartition id oid reason alg w).2.

(** What every sequence of re-partitions preserves, from the rows [R] to [R']. *)
Definition only_flips (R R' : list Signed) : Prop :=
  R `prefix_of` R' /\ unique R' /\ (NoDup (flipped R) -> NoDup (flipped R')) /\
  forall y, y ∈ R' -> y ∈ R \/ exists x oid reason alg, x ∈ R /\ _is_core_at_risk x = true /\ flip_of oid reason alg x y.

Lemma called_flips w w' : called w w' -> unique (rowsW w) -> only_flips (rowsW w) (rowsW w').
Proof.
  intros (id & oid & reason & alg & ->) Hu. pose proof (repartition_effect id oid reason alg w Hu) as He.
  destruct (repartition _ _ _ _ w) as [out w']. cbn [snd]. destruct He as (H1 & xs & new & H2 & H3 & [rest H4] & _).
  assert (Hxs : forall x, x ∈ xs -> x ∈ rowsW w /\ _is_core_at_risk x = true /\ rid x ∉ flipped (rowsW w)).
  { intros x Hx. assert (Hp : x ∈ pending (flipped (rowsW w)) (core_rows id (w_store w))) by (rewrite H4; apply elem_of_app; by left).
    apply pending_elem in Hp as (Hp & Hr & Hf). by apply core_rows_sound in Hp as [Hp _]. }
  split_and!; [rewrite H2; by apply prefix_app_r|done|..].
  - intros Hnd. rewrite H2, flipped_app, (flip_of_flipped _ _ _ _ _ H3). apply NoDup_app. split; [done|]. split.
    + intros i Hi (x & -> & Hx)%list_elem_of_fmap. by apply Hxs in Hx as (_ & _ & Hx).
    + pose proof (pending_NoDup (core_rows id (w_store w)) (flipped (rowsW w))) as Hp. rewrite H4, map_app in Hp.
      by apply NoDup_app in Hp as [Hp _].
  - intros y Hy. rewrite H2 in Hy. apply elem_of_app in Hy as [Hy|Hy]; [by left|right].
    apply list_elem_of_lookup in Hy as [i Hi]. destruct (Forall2_lookup_r _ _ _ _ _ H3 Hi) as (x & Hx & Hf).
    apply list_elem_of_lookup_2, Hxs in Hx as (Hx & Hr & _). by exists x, oid, reason, alg.
Qed.

Lemma only_flips_trans R1 R2 R3 : only_flips R1 R2 -> only_flips R2 R3 -> only_flips R1 R3.
Proof.
  intros (P1 & U1 & N1 & F1) (P2 & U2 & N2 & F2). split_and!; [by etrans|done|by auto|].
  intros y Hy. destruct (F2 y Hy) as [Hy2|(x & oid & reason & alg & Hx & Hr & Hf)]; [by apply F1|].
  destruct (F1 x Hx) as [Hx1|(z & ? & ? & ? & _ & _ & Hz)]; [right; by exists x, oid, reason, alg|].
  apply flip_is_repartition in Hz. by rewrite (core_is_chain x Hr) in Hz.
Qed.

Lemma flipped_prefix R R' id : R `prefix_of` R' -> id ∈ flipped R -> id ∈ flipped R'.
Proof. intros [k ->] Hid. rewrite flipped_app. apply elem_of_app. by left. Qed.

Lemma calls_flip w w' : rtc called w w' -> unique (rowsW w) -> only_flips (rowsW w) (rowsW w').
Proof.
  induction 1 as [w|w1 w2 w3 H12 H23 IH]; intros Hu; [split_and!; try done; by left|].
  pose proof (called_flips w1 w2 H12 Hu) as HF. eapply only_flips_trans; [exact HF|]. apply IH, HF.
Qed.

(** Re-partitioning is append-only, one-way and done once.  Whatever
    re-partitions run, also those that fail half-way, the rows only grow, a
    finding with at most one re-partition record never gets a second, every
    new row is the oracle-passthrough flip of a core finding that was stored
    before, and a finding that reads as oracle-passthrough keeps doing so. *)
Theorem repartition_once w w' : rtc called w w' -> unique (rowsW w) -> NoDup (flipped (rowsW w)) ->
  rowsW w `prefix_of` rowsW w' /\ NoDup (flipped (rowsW w')) /\
  (forall y, y ∈ rowsW w' -> y ∈ rowsW w \/
     pr_origin (record y) = Some ORACLE_ORIGIN /\
     exists x oid reason alg, x ∈ rowsW w /\ _is_core_at_risk x = true /\ flip_of oid reason alg x y) /\
  (forall x, (effective_origin x w).1 = Ok ORACLE_ORIGIN -> (effective_origin x w').1 = Ok ORACLE_ORIGIN).
Proof.
  intros Hc Hu Hnd. destruct (calls_flip w w' Hc Hu) as (P & _ & N & F). split_and!; [done|by apply N|..].
  - intros y Hy. destruct (F y Hy) as [|(x & oid & reason & alg & Hx & Hr & Hf)]; [by left|right].
    split; [destruct Hf as (-> & _); reflexivity|]. by exists x, oid, reason, alg.
  - intros x. rewrite !origin_spec. cbn [fst]. destruct (bool_decide (rid x ∈ flipped (rowsW w))) eqn:Hf.
    + apply bool_decide_eq_true in Hf. intros _. rewrite bool_decide_true; [done|]. by eapply flipped_prefix.
    + intros E. destruct (bool_decide (rid x ∈ flipped (rowsW w'))); [done|exact E].
Qed.

Lemma all_flipped oid reason alg cs : forall t (w : W), Forall (fun x => _is_core_at_risk x = true -> rid x ∈ flipped (rowsW w)) cs ->
  sfold (repartition_one uuid4 oid reason alg) t cs w = (Ok (mkTally (new_ids t) (notified t) (affected t) (already t + at_risk cs)), w).
Proof.
  induction cs as [|x cs IH]; intros t w Hcs; cbn [sfold]; [unfold at_risk; cbn; rewrite Z.add_0_r; by destruct t|].
  apply Forall_cons in Hcs as [Hx Hcs]. unfold sbind at 1, repartition_one at 1, at_risk. cbn [List.filter].
  destruct (_is_core_at_risk x); cbn [negb]; [|cbn [sret]; by rewrite (IH t w Hcs)].
  unfold sbind at 1. rewrite already_spec, bool_decide_true by auto. cbn [sret]. rewrite IH by done. cbn [new_ids notified affected already length].
  unfold at_risk. do 3 f_equal. lia.
Qed.

(** A redelivered disagreement changes nothing.  After a re-partition of
    a snapshot returns, every core finding of the snapshot reads as
    oracle-passthrough, and running it again, for any oracle run and reason,
    flips nothing: it draws no identifier, signs nothing, leaves the world as
    it is and counts every candidate as already re-partitioned. *)
Theorem repartition_idempotent id oid reason alg w res w' : unique (rowsW w) ->
  repartition id oid reason alg w = (Ok res, w') ->
  (forall x, x ∈ rowsW w' -> pr_snapshot_id (record x) = id -> _is_core_at_risk x = true ->
     effective_origin x w' = (Ok ORACLE_ORIGIN, w')) /\
  (forall oid' reason' alg', repartition id oid' reason' alg' w' =
     (Ok (mkResult 0 [] [] (at_risk (core_rows id (w_store w')))), w')).
Proof.
  intros Hu E. pose proof (repartition_effect id oid reason alg w Hu) as He. rewrite E in He.
  destruct He as (Hu' & xs & new & H1 & H2 & _ & H3). destruct (H3 res eq_refl) as [-> _]. clear H3.
  assert (Hall : forall x, x ∈ rowsW w' -> pr_snapshot_id (record x) = id -> _is_core_at_risk x = true -> rid x ∈ flipped (rowsW w')).
  { intros x Hx Hid Hr. rewrite H1 in Hx. rewrite H1, flipped_app, (flip_of_flipped _ _ _ _ _ H2). apply elem_of_app.
    apply elem_of_app in Hx as [Hx|Hx].
    - apply pending_covers; [by apply core_rows_complete|done].
    - apply list_elem_of_lookup in Hx as [i Hi]. destruct (Forall2_lookup_r _ _ _ _ _ H2 Hi) as (z & _ & Hf).
      apply flip_is_repartition in Hf. by rewrite (core_is_chain x Hr) in Hf. }
  split.
  - intros x Hx Hid Hr. rewrite origin_spec, bool_decide_true by auto. done.
  - intros oid' reason' alg'. unfold repartition_snapshot. unfold sbind at 1, on_store. rewrite core_chain_rows. unfold sbind.
    replace (mkWorld (w_signer w') (w_store w') (w_drawn w')) with w' by (by destruct w').
    rewrite all_flipped; [done|]. apply Forall_forall. intros x Hx. apply core_rows_sound in Hx as [Hx Hid]. by apply Hall.
Qed.
End repartition.
