(* ===== verification/VerifySpec.v ===== *)
(** * What verification of a signed record shows

    A record that verifies was signed, or its signature is forged; a signed
    record verifies, now and after later re-partitions; verification
    terminates on the stores the operations build. *)
From stdpp Require Import base tactics list gmap strings relations.
From Stdlib Require Import ZArith Lia.
From S2P Require Import Prelude PyData PyDict Sha256 Ordering Json PyText Identity BoundRules Sarif JsonAscii Provenance ProvenanceSpec DiffOracle.

Open Scope Z_scope.
Open Scope py_scope.
Open Scope st_scope.

(** ** What the key service promises *)

(** The messages it has signed so far, with their keys. *)
Class SigningLog (K : Type) `{KMSAsymmetricSigner K} := {
  signed_messages : K -> list (pystr * pybytes);
  sign_logs arn m alg k : signed_messages (kms_sign arn m alg k).2 ⊆ (arn, m) :: signed_messages k;
  read_logs arn v k : signed_messages (kms_get_public_key arn v k).2 ⊆ signed_messages k
}.

(** Signatures verify under the public key of their version, also later. *)
Class HonestSigner (K : Type) `{PyRuntime, Cryptography, KMSAsymmetricSigner K} := {
  later : relation K;
  later_preorder :: PreOrder later;
  later_sign arn m alg k : later k (kms_sign arn m alg k).2;
  later_read arn v k : later k (kms_get_public_key arn v k).2;
  sign_verifies arn m alg k resp k' sig : kms_sign arn m alg k = (Ok resp, k') -> _expect_bytes resp "Signature" = Ok sig ->
    exists pk, _verify_signature pk m sig alg = Ok true /\
      forall k2, later k' k2 -> exists resp2, (kms_get_public_key arn (key_material (py_str (default (VStr arn) (dict_get resp (str "KeyId"))))) k2).1 = Ok resp2 /\
        dict_get resp2 (str "PublicKey") = Some (VBytes pk)
}.

(** The records the guards of [sign_provenance] let through. *)
Definition guarded_record (r : ProvenanceRecord) : Prop :=
  pr_annotation r = CPG_ORDER_HASH_ANNOTATION /\
  (pr_type r ∈ [str "chain"; str "repartition"] -> is_Some (pr_origin r)).

(** ** One step of verification *)

Section verify.
Context `{PyRuntime, Cryptography} {K S : Type} `{!KMSAsymmetricSigner K} `{!ProvenanceStore S}.
Notation W := (World K S).

(** The checks of one row: the signature, then the artifacts. *)
Definition row_verifies (x : Signed) (artifacts : option ArtifactStore) (k : K) (pk : pybytes) : Prop :=
  exists m resp, canonical_record_bytes (record x) = Ok m /\
    (kms_get_public_key (kms_key_arn x) (kms_key_version x) k).1 = Ok resp /\
    dict_get resp (str "PublicKey") = Some (VBytes pk) /\
    _verify_signature pk m (signature x) (signature_alg x) = Ok true /\
    match artifacts with Some fetch => _verify_artifacts (record x) fetch = Ok VERIFIED | None => True end.

(** The world after the public key is read. *)
Definition key_read (x : Signed) (w : W) : W :=
  mkWorld (kms_get_public_key (kms_key_arn x) (kms_key_version x) (w_signer w)).2 (w_store w) (w_drawn w).

(** What is left to verify: the parent of a re-partition. *)
Definition verify_parent (fuel : nat) (x : Signed) (artifacts : option ArtifactStore) (with_store : bool) : St W VerifyVerdict :=
  if is_repartition x && with_store then
    match pr_parent (record x) with
    | None => sret TAMPERED
    | Some parent_id =>
        parent ⟸ on_store (ps_get parent_id);
        match parent with
        | None => sret ARTIFACT_MISSING
        | Some parent =>
            parent_verdict ⟸ verify_chain fuel parent artifacts with_store;
            if negb (bool_decide (parent_verdict = VERIFIED)) then sret parent_verdict else sret VERIFIED
        end
    end
  else sret VERIFIED.

Lemma verify_VERIFIED fuel x artifacts st (w : W) :
  (verify_chain (Datatypes.S fuel) x artifacts st w).1 = Ok VERIFIED <->
  (exists pk, row_verifies x artifacts (w_signer w) pk) /\ (verify_parent fuel x artifacts st (key_read x w)).1 = Ok VERIFIED.
Proof.
  unfold row_verifies, key_read, verify_parent, is_repartition. cbn [verify_chain].
  destruct (canonical_record_bytes (record x)) as [m|e].
  2:{ split; [destruct (value_or_type_error e); done|by intros [(pk & m & resp & ? & _) _]]. }
  unfold sbind at 1, on_signer. destruct (kms_get_public_key _ _ _) as [[resp|e] k]; cbn [fst snd].
  2:{ split; [done|by intros [(pk & ? & resp & _ & ? & _) _]]. }
  destruct (dict_get resp (str "PublicKey")) as [[]|] eqn:Epk;
    try (split; [done|intros [(pk & ? & r & _ & [= <-] & E & _) _]; congruence]).
  unfold sbind at 1. cbn [slift]. destruct (_verify_signature b m (signature x) (signature_alg x)) as [[]|e] eqn:Es; cbn [negb].
  2,3: (split; [done|intros [(pk & ? & r & [= <-] & [= <-] & E & E2 & _) _]; congruence]).
  unfold sbind at 1. destruct artifacts as [fetch|]; cbn [slift].
  - destruct (_verify_artifacts (record x) fetch) as [v|e] eqn:Ev; cbn [sret].
    2:{ split; [done|by intros [(pk & ? & r & _ & _ & _ & _ & ?) _]]. }
    destruct (decide (v = VERIFIED)) as [->|Hv].
    + rewrite bool_decide_true by done. cbn [negb]. split; [|by intros [_ E]]. intros E. split; [by exists b, m, resp|done].
    + rewrite bool_decide_false by done. cbn [negb sret fst]. split; [congruence|intros [(pk & ? & r & _ & _ & _ & _ & [= E]) _]; congruence].
  - cbn [sret]. rewrite bool_decide_true by done. cbn [negb]. split; [|by intros [_ E]]. intros E. split; [by exists b, m, resp|done].
Qed.
(** A stored re-partition that is its own parent is never decided. *)
Lemma verify_self x artifacts pk p (w : W) : row_verifies x artifacts (w_signer w) pk -> key_read x w = w ->
  is_repartition x = true -> pr_parent (record x) = Some p -> ps_get p (w_store w) = (Ok (Some x), w_store w) ->
  forall fuel, verify_chain fuel x artifacts true w = (Raise OutOfFuel, w).
Proof.
  intros (m & resp & Hm & Hk & Hpk & Hs & Ha) Hw Hr Hp Hg. induction fuel as [|fuel IH]; [done|]. cbn [verify_chain]. rewrite Hm.
  unfold sbind at 1, on_signer. unfold key_read in Hw. destruct (kms_get_public_key _ _ _) as [out k]. cbn [fst snd] in Hk, Hw.
  rewrite Hk, Hw, Hpk. unfold sbind at 1. cbn [slift]. rewrite Hs. cbn [negb].
  assert (Hv : (match artifacts with None => sret VERIFIED | Some fetch => slift (_verify_artifacts (record x) fetch) end) w = (Ok VERIFIED, w)).
  { destruct artifacts; [unfold slift; by rewrite Ha|done]. }
  unfold sbind at 1. rewrite Hv, bool_decide_true by done. cbn [negb]. unfold is_repartition in Hr. rewrite Hr, Hp. cbn [andb].
  unfold sbind at 1, on_store. rewrite Hg. replace (mkWorld (w_signer w) (w_store w) (w_drawn w)) with w by (by destruct w).
  unfold sbind. by rewrite IH.
Qed.
End verify.

(** ** What verifies was signed *)

Section authentic.
Context `{PyRuntime, Cryptography} {K S : Type} `{!KMSAsymmetricSigner K, !SigningLog K} `{!ProvenanceStore S}.
Notation W := (World K S).

(** The worlds reached by calls that sign the records [rs]; reads of keys and
    anything that leaves the key service alone, such as tampering with the
    store, may happen in between. *)
Inductive history : list (ProvenanceRecord * pystr) -> W -> Prop :=
| hist_start w : signed_messages (w_signer w) = [] -> history [] w
| hist_sign rs w r arn alg persist : history rs w -> history ((r, arn) :: rs) (sign_provenance r arn alg persist w).2
| hist_key rs w arn v : history rs w -> history rs (on_signer (kms_get_public_key arn v) w).2
| hist_other rs w w' : history rs w -> w_signer w' = w_signer w -> history rs w'.

(** The signature verifies under [pk] for a message its key never signed. *)
Definition forged (arn : pystr) (k : K) (pk sig : pybytes) : Prop :=
  exists m alg, _verify_signature pk m sig alg = Ok true /\ (arn, m) ∉ signed_messages k.

Definition requested (rs : list (ProvenanceRecord * pystr)) (arn : pystr) (m : pybytes) : Prop :=
  exists r, (r, arn) ∈ rs /\ canonical_record_bytes r = Ok m /\ guarded_record r.

Lemma sign_requested r arn alg persist (w : W) a m :
  (a, m) ∈ signed_messages (w_signer (sign_provenance r arn alg persist w).2) ->
  (a, m) ∈ signed_messages (w_signer w) \/ a = arn /\ canonical_record_bytes r = Ok m /\ guarded_record r.
Proof.
  unfold sign_provenance. destruct (str_eqb (pr_annotation r) _) eqn:Ea; cbn [negb]; [|by left].
  destruct (bool_decide (pr_type r ∈ _) && _) eqn:Eo; [by left|].
  unfold sbind at 1. cbn [slift]. destruct (canonical_record_bytes r) as [b|]; [|by left].
  unfold sbind at 1, on_signer. pose proof (sign_logs arn b alg (w_signer w)) as Hlog.
  destruct (kms_sign arn b alg (w_signer w)) as [out k]. cbn [snd] in Hlog.
  assert (Hw : forall w' : W, w_signer w' = k -> (a, m) ∈ signed_messages (w_signer w') ->
    (a, m) ∈ signed_messages (w_signer w) \/ a = arn /\ Ok b = Ok m /\ guarded_record r).
  { intros w' -> Hin. apply Hlog in Hin. apply elem_of_cons in Hin as [[= -> ->]|Hin]; [right|by left]. split_and!; [done..|].
    split; [by apply bool_decide_eq_true in Ea|]. intros Ht. apply andb_false_iff in Eo as [Eo|Eo]; [by apply bool_decide_eq_false in Eo|].
    apply bool_decide_eq_false in Eo. by apply not_eq_None_Some. }
  destruct out as [resp|e]; [|by apply Hw]. unfold sbind at 1. cbn [slift]. destruct (_expect_bytes _ _); [|by apply Hw].
  unfold sbind. apply Hw. destruct persist; [|done]. unfold on_store. cbn [w_store w_signer w_drawn].
  destruct (ps_append _ _) as [[]]; done.
Qed.

Lemma history_requested rs w : history rs w -> forall arn m, (arn, m) ∈ signed_messages (w_signer w) -> requested rs arn m.
Proof.
  induction 1 as [w Hs|rs w r arn' alg p _ IH|rs w arn' v _ IH|rs w w' _ IH Hw]; intros arn m Hin.
  - rewrite Hs in Hin. by apply elem_of_nil in Hin.
  - apply sign_requested in Hin as [Hin|(-> & Hb & Hg)]; [|exists r; split; [left|done]].
    destruct (IH _ _ Hin) as (r' & Hr & Hrest). exists r'. split; [by right|done].
  - apply IH. unfold on_signer in Hin. pose proof (read_logs arn' v (w_signer w)) as Hr.
    destruct (kms_get_public_key _ _ _) as [out k]. by apply Hr.
  - apply IH. by rewrite Hw in Hin.
Qed.

(** C17: a verified record is authentic.  Whoever wrote the row and whatever
    was done to the store, when [verify_chain] answers VERIFIED then the very
    record was given to [sign_provenance] under the row's key, up to the order
    of the items of its identity metadata, and it satisfies the guards: its
    annotation is the pinned literal and a chain or re-partition record has an
    origin.  The only other way is a forgery: a signature that verifies, under
    the key the service holds, for a message it never signed. *)
Theorem verified_was_signed rs w x fuel artifacts st : history rs w ->
  Forall (fun ra => presentable ra.1) rs -> presentable (record x) ->
  (verify_chain fuel x artifacts st w).1 = Ok VERIFIED ->
  (exists r, (r, kms_key_arn x) ∈ rs /\ same_record r (record x) /\ guarded_record (record x)) \/
  (exists pk resp, (kms_get_public_key (kms_key_arn x) (kms_key_version x) (w_signer w)).1 = Ok resp /\
     dict_get resp (str "PublicKey") = Some (VBytes pk) /\ forged (kms_key_arn x) (w_signer w) pk (signature x)).
Proof.
  intros Hh Hrs Hx Hv. destruct fuel as [|fuel]; [done|]. apply verify_VERIFIED in Hv as [(pk & m & resp & Hm & Hk & Hpk & Hs & _) _].
  destruct (decide ((kms_key_arn x, m) ∈ signed_messages (w_signer w))) as [Hin|Hout].
  - left. destruct (history_requested rs w Hh _ _ Hin) as (r & Hr & Hb & Hg). exists r. split; [done|].
    rewrite Forall_forall in Hrs. pose proof (canonical_bytes_bind r (record x) m (Hrs _ Hr) Hx Hb Hm) as Hsame. split; [done|].
    destruct Hsame as [_ Hsame]. rewrite Hsame in Hg. exact Hg.
  - right. exists pk, resp. split_and!; [done..|]. by exists m, (signature_alg x).
Qed.
End authentic.

(** ** What is signed verifies *)

Section honest.
Context `{PyRuntime, Cryptography} {K S : Type} `{!KMSAsymmetricSigner K, !HonestSigner K} `{!ProvenanceStore S, !AppendOnlyStore S}.
Notation W := (World K S).
Notation rowsW w := (rows (w_store w)).

(** A later world: the signer went on, the rows grew. *)
Definition later_world (w w' : W) : Prop :=
  later (w_signer w) (w_signer w') /\ rowsW w `prefix_of` rowsW w' /\ unique (rowsW w').

(** The row verifies, with its parents from the store, in every later world. *)
Definition verifies (fuel : nat) (x : Signed) (artifacts : option ArtifactStore) (w : W) : Prop :=
  forall w', later_world w w' -> (verify_chain fuel x artifacts true w').1 = Ok VERIFIED.

Lemma later_world_trans w1 w2 w3 : later_world w1 w2 -> later_world w2 w3 -> later_world w1 w3.
Proof. intros (L1 & P1 & _) (L2 & P2 & U). split_and!; [by etrans..|done]. Qed.

Lemma verifies_later fuel x artifacts w w' : verifies fuel x artifacts w -> later_world w w' -> verifies fuel x artifacts w'.
Proof. intros Hv Hl w2 Hl2. apply Hv. by eapply later_world_trans. Qed.

Lemma sign_later r arn alg persist (w : W) : later (w_signer w) (w_signer (sign_provenance r arn alg persist w).2).
Proof.
  unfold sign_provenance. destruct (negb _); [done|]. destruct (bool_decide _ && _); [done|].
  unfold sbind at 1. cbn [slift]. destruct (canonical_record_bytes r) as [b|]; [|done].
  unfold sbind at 1, on_signer. pose proof (later_sign arn b alg (w_signer w)) as Hl.
  destruct (kms_sign _ _ _ _) as [[resp|e] k]; [|done]. cbn [snd] in Hl.
  unfold sbind at 1. cbn [slift]. destruct (_expect_bytes resp "Signature"); [|done].
  unfold sbind. destruct persist; [|done]. unfold on_store. cbn [w_store w_signer w_drawn]. by destruct (ps_append _ _) as [[[]|] ?].
Qed.

Lemma sign_row r arn alg persist (w : W) y w1 artifacts k : sign_provenance r arn alg persist w = (Ok y, w1) ->
  later (w_signer w1) k ->
  match artifacts with Some fetch => _verify_artifacts r fetch = Ok VERIFIED | None => True end ->
  exists pk, row_verifies y artifacts k pk.
Proof.
  unfold sign_provenance. destruct (negb _); [done|]. destruct (bool_decide _ && _); [done|].
  unfold sbind at 1. cbn [slift]. destruct (canonical_record_bytes r) as [b|] eqn:Eb; [|done].
  unfold sbind at 1, on_signer. destruct (kms_sign arn b alg (w_signer w)) as [[resp|e] k1] eqn:Ek; [|done].
  unfold sbind at 1. cbn [slift]. destruct (_expect_bytes resp "Signature") as [sig|] eqn:Es; [|done].
  destruct (sign_verifies arn b alg _ resp k1 sig Ek Es) as (pk & Hs & Hlater).
  set (z := mkSigned _ _ _ _ _ _). intros E Hk Ha.
  assert (y = z /\ w_signer w1 = k1) as [-> Hw].
  { unfold sbind in E. destruct persist; [|by injection E as <- <-]. unfold on_store in E. cbn [w_store w_signer w_drawn] in E.
    destruct (ps_append _ _) as [[[]|] ?]; [|done]. by injection E as <- <-. }
  rewrite Hw in Hk. destruct (Hlater k Hk) as (resp2 & E2 & E3). exists pk, b, resp2. by destruct artifacts.
Qed.

Lemma key_read_later x w : unique (rowsW w) -> later_world w (key_read x w).
Proof. intros Hu. split_and!; [apply later_read|done|done]. Qed.

(** A signed row verifies when its parent does. *)
Lemma signed_verifies r arn alg persist (w : W) y w1 fuel artifacts : sign_provenance r arn alg persist w = (Ok y, w1) ->
  match artifacts with Some fetch => _verify_artifacts r fetch = Ok VERIFIED | None => True end ->
  (is_repartition y = true -> exists x, x ∈ rowsW w1 /\ pr_parent (record y) = Some (rid x) /\ verifies fuel x artifacts w1) ->
  verifies (Datatypes.S fuel) y artifacts w1.
Proof.
  intros Es Ha Hp w2 Hl. apply verify_VERIFIED. split; [eapply sign_row; [exact Es|apply Hl|exact Ha]|].
  unfold verify_parent. destruct (is_repartition y) eqn:Er; cbn [andb]; [|done]. destruct (Hp eq_refl) as (x & Hx & -> & Hv).
  assert (Hl3 : later_world w1 (key_read y w2)) by (eapply later_world_trans; [exact Hl|apply key_read_later, Hl]).
  unfold sbind at 1, on_store. rewrite get_rows. destruct Hl3 as (L3 & [k P3] & U3).
  rewrite (find_row _ x U3) by (rewrite P3; apply elem_of_app; by left). cbn [w_store w_signer w_drawn].
  specialize (Hv (key_read y w2)). unfold sbind. 
  replace (mkWorld _ _ _) with (key_read y w2) by (by destruct w2). destruct (verify_chain _ _ _ _ (key_read y w2)) as [out w3].
  cbn [fst] in Hv. rewrite Hv by (split_and!; [done|by exists k|done]). rewrite bool_decide_true by done. done.
Qed.

Lemma verified_artifacts fuel x fetch w : verifies fuel x (Some fetch) w -> unique (rowsW w) -> _verify_artifacts (record x) fetch = Ok VERIFIED.
Proof.
  intros Hv Hu. assert (Hl : later_world w w) by (by split_and!). specialize (Hv w Hl). destruct fuel; [done|].
  apply verify_VERIFIED in Hv as [(pk & m & resp & _ & _ & _ & _ & Ha) _]. exact Ha.
Qed.

Variable uuid4 : nat -> UUID.

(** [y] re-partitions [x], and verifies in [w'] if [x] did in [w]. *)
Definition verified_flip (oid : UUID) (reason alg : pystr) (w w' : W) (x y : Signed) : Prop :=
  flip_of oid reason alg x y /\ forall fuel artifacts, verifies fuel x artifacts w -> verifies (Datatypes.S fuel) y artifacts w'.

Lemma append_verifies oid reason alg (w : W) x : unique (rowsW w) -> x ∈ rowsW w ->
  let '(out, w') := append_repartition_event uuid4 (rid x) oid reason alg w in
  later_world w w' /\ match out with Ok y => rowsW w' = rowsW w ++ [y] /\ verified_flip oid reason alg w w' x y | Raise _ => rowsW w' = rowsW w end.
Proof.
  intros Hu Hx. pose proof (append_repartition_spec uuid4 (rid x) oid reason alg w x Hu Hx eq_refl) as Ha.
  destruct (append_repartition_event uuid4 (rid x) oid reason alg w) as [out w'] eqn:E.
  rewrite (append_as_sign uuid4 _ oid reason alg w x Hu Hx eq_refl) in E.
  assert (Hl : later (w_signer w) (w_signer w')).
  { revert E. match goal with |- sign_provenance ?r ?a _ _ ?w1 = _ -> _ => generalize r; intros r0; pose proof (sign_later r0 a alg true w1) as Hl end.
    intros E. rewrite E in Hl. exact Hl. }
  destruct out as [y|e].
  - destruct Ha as (Hf & Hfresh & Ew).
    assert (Hlw : later_world w w') by (split_and!; [exact Hl|rewrite Ew; by apply prefix_app_r|rewrite Ew; by apply unique_snoc]).
    split; [done|]. split; [done|]. split; [done|]. intros fuel artifacts Hv. eapply signed_verifies; [exact E|..].
    + destruct artifacts as [fetch|]; [|done]. exact (verified_artifacts _ _ _ _ Hv Hu).
    + intros _. exists x. destruct Hf as (-> & _). split_and!; [rewrite Ew; apply elem_of_app; by left|done|by eapply verifies_later].
  - split; [|done]. rewrite <-Ha in Hu. split_and!; [exact Hl|by rewrite Ha|done].
Qed.

Lemma loop_verifies oid reason alg cs : forall t (w : W), unique (rowsW w) -> Forall (fun x => x ∈ rowsW w) cs ->
  let '(out, w') := sfold (repartition_one uuid4 oid reason alg) t cs w in
  later_world w w' /\ forall y, y ∈ rowsW w' -> y ∈ rowsW w \/ exists x, x ∈ cs /\ verified_flip oid reason alg w w' x y.
Proof.
  induction cs as [|x cs IH]; intros t w Hu Hcs; cbn [sfold]; [split; [by split_and!|by left]|].
  apply Forall_cons in Hcs as [Hx Hcs]. unfold sbind at 1, repartition_one at 1.
  assert (Hskip : forall t, let '(out, w') := sfold (repartition_one uuid4 oid reason alg) t cs w in
    later_world w w' /\ forall y, y ∈ rowsW w' -> y ∈ rowsW w \/ exists z, z ∈ x :: cs /\ verified_flip oid reason alg w w' z y).
  { intros t'. specialize (IH t' w Hu Hcs). destruct (sfold _ _ _ _) as [out w']. destruct IH as [Hl Hall]. split; [done|].
    intros y Hy. destruct (Hall y Hy) as [|(z & Hz & Hf)]; [by left|right]. exists z. split; [by right|done]. }
  destruct (_is_core_at_risk x); cbn [negb]; [|apply Hskip]. unfold sbind at 1. rewrite already_spec.
  destruct (bool_decide _); [apply Hskip|]. clear Hskip. pose proof (append_verifies oid reason alg w x Hu Hx) as Ha. unfold sbind at 1.
  destruct (append_repartition_event _ _ _ _ _ _) as [[y|e] w1]; destruct Ha as [Hl Ha]; [|split; [done|rewrite Ha; by left]].
  destruct Ha as [Ew Hy]. cbn [sret]. match goal with |- context [sfold _ ?t' cs w1] => specialize (IH t' w1) end.
  destruct (sfold _ _ _ _) as [out w']. destruct IH as [Hl' Hall].
  { apply Hl. }
  { rewrite Ew. eapply Forall_impl; [exact Hcs|]. intros z Hz. apply elem_of_app. by left. }
  split; [by eapply later_world_trans|]. intros z Hz. destruct (Hall z Hz) as [Hz1|(p & Hp & Hf & Hv)].
  - rewrite Ew in Hz1. apply elem_of_app in Hz1 as [Hz1|Hz1]; [by left|right]. apply list_elem_of_singleton in Hz1 as ->. exists x. split; [left|].
    destruct Hy as [Hf Hv]. split; [done|]. intros fuel artifacts Hx'. eapply verifies_later; [by apply Hv|done].
  - right. exists p. split; [by right|]. split; [done|]. intros fuel artifacts Hpv. apply Hv. by eapply verifies_later.
Qed.
End honest.

Section honest_repartition.
Context `{PyRuntime, Cryptography} {K S : Type} `{!KMSAsymmetricSigner K, !HonestSigner K} `{!ProvenanceStore S, !RepartitionProvenanceStore S}.
Context `{!AppendOnlyStore S, !SnapshotQuery S}.
Variable uuid4 : nat -> UUID.
Notation W := (World K S).

(** Re-partition records verify.  Whatever happens to a re-partition,
    each row it adds is the signed flip of a stored core finding, and when
    that finding verified before, with its artifacts and its own parents from
    the store, the new row verifies from then on: in every later world, with
    one level of recursion more, [verify_chain] answers VERIFIED. *)
Theorem repartition_verifies id oid reason alg (w : W) out w' : unique (rows (w_store w)) ->
  repartition_snapshot uuid4 id oid reason alg w = (out, w') ->
  later_world w w' /\
  forall y, y ∈ rows (w_store w') -> y ∈ rows (w_store w) \/
    exists x, x ∈ rows (w_store w) /\ flip_of oid reason alg x y /\
      forall fuel artifacts, verifies fuel x artifacts w -> verifies (Datatypes.S fuel) y artifacts w'.
Proof.
  intros Hu. unfold repartition_snapshot. unfold sbind at 1, on_store. rewrite core_chain_rows.
  replace (mkWorld (w_signer w) (w_store w) (w_drawn w)) with w by (by destruct w). unfold sbind.
  assert (Hcs : Forall (fun x => x ∈ rows (w_store w)) (core_rows id (w_store w))).
  { apply Forall_forall. intros x Hx. by apply core_rows_sound in Hx as [Hx _]. }
  pose proof (loop_verifies uuid4 oid reason alg (core_rows id (w_store w)) (mkTally [] ∅ 0 0) w Hu Hcs) as Hl.
  destruct (sfold _ _ _ w) as [out1 w1]. destruct Hl as [Hl Hall]. intros E.
  assert (w' = w1) as -> by (destruct out1; by injection E as _ <-). split; [done|].
  intros y Hy. destruct (Hall y Hy) as [|(x & Hx & Hf & Hv)]; [by left|right]. exists x. split; [|done].
  rewrite Forall_forall in Hcs. by apply Hcs.
Qed.
End honest_repartition.

(** ** Verification terminates *)

(** The parent of a re-partition is stored before it. *)
Definition parents_first (l : list Signed) : Prop :=
  forall R1 x R2 p, l = R1 ++ x :: R2 -> is_repartition x = true -> pr_parent (record x) = Some p -> p ∈ map (fun y => rid y) R1.

Section total.
Context `{PyRuntime, Cryptography} {K S : Type} `{!KMSAsymmetricSigner K} `{!ProvenanceStore S, !AppendOnlyStore S}.
Notation W := (World K S).
Notation rowsW w := (rows (w_store w)).

Lemma sbind_ext {A B} (m : St W A) (f g : A -> St W B) w :
  (forall a w', m w = (Ok a, w') -> f a w' = g a w') -> sbind m f w = sbind m g w.
Proof. intros Hfg. unfold sbind. destruct (m w) as [[a|e] w'] eqn:E; [by apply Hfg|done]. Qed.

Lemma on_signer_store {A} (m : St K A) (w : W) : w_store (on_signer m w).2 = w_store w.
Proof. unfold on_signer. by destruct (m _). Qed.

(** Enough fuel for the rows before the one verified. *)
Lemma verify_fuel artifacts st n : forall R1 x R2 fuel fuel' (w : W), (length R1 < n)%nat ->
  rowsW w = R1 ++ x :: R2 -> unique (rowsW w) -> parents_first (rowsW w) ->
  (length R1 < fuel)%nat -> (length R1 < fuel')%nat -> verify_chain fuel x artifacts st w = verify_chain fuel' x artifacts st w.
Proof.
  induction n as [|n IH]; intros R1 x R2 fuel fuel' w Hn Hrows Hu Hp Hf Hf'; [lia|].
  destruct fuel as [|fuel], fuel' as [|fuel']; [lia..|]. cbn [verify_chain].
  destruct (canonical_record_bytes (record x)) as [m|]; [|done]. apply sbind_ext. intros resp w1 E1.
  assert (Hs : w_store w1 = w_store w) by (by rewrite <-(on_signer_store (kms_get_public_key (kms_key_arn x) (kms_key_version x)) w), E1).
  destruct (dict_get resp _) as [[]|]; try done. apply sbind_ext. intros good w2 [_ ->]%slift_Ok. destruct good; [|done]. cbn [negb].
  apply sbind_ext. intros v w3 Ev. assert (w3 = w1) as -> by (destruct artifacts; [by apply slift_Ok in Ev as [_ ->]|by injection Ev]).
  destruct (negb _); [done|]. destruct (str_eqb _ _) eqn:Er; [|done]. destruct st; [|done]. cbn [andb].
  destruct (pr_parent (record x)) as [p|] eqn:Ep; [|done]. apply sbind_ext. intros parent w4. unfold on_store. rewrite get_rows, Hs.
  pose proof (Hp R1 x R2 p Hrows Er Ep) as (y & -> & Hy)%list_elem_of_fmap.
  rewrite (find_row _ y Hu) by (rewrite Hrows; apply elem_of_app; by left). intros [= <- <-].
  apply list_elem_of_split in Hy as (R0 & R0' & ->). rewrite length_app in Hn, Hf, Hf'. cbn [length] in Hn, Hf, Hf'.
  unfold sbind. rewrite (IH R0 y (R0' ++ x :: R2) fuel fuel'); [done|lia|..|lia|lia]; cbn [w_store]; [|done|done].
  by rewrite Hrows, <-app_assoc.
Qed.
End total.

Section total_repartition.
Context `{PyRuntime, Cryptography} {K S : Type} `{!KMSAsymmetricSigner K} `{!ProvenanceStore S, !RepartitionProvenanceStore S}.
Context `{!AppendOnlyStore S, !SnapshotQuery S}.
Variable uuid4 : nat -> UUID.
Notation W := (World K S).
Notation rowsW w := (rows (w_store w)).

Lemma parents_first_flips oid reason alg xs new R : parents_first R -> Forall (fun x => x ∈ R) xs ->
  Forall2 (flip_of oid reason alg) xs new -> parents_first (R ++ new).
Proof.
  intros Hp Hxs Hf R1 x R2 p E Hx Ep. apply app_eq_inv in E as [(k & -> & E)|(k & -> & E)].
  - destruct k as [|z k]; cbn in E.
    + assert (Hin : x ∈ new) by (rewrite <-E; left). rewrite app_nil_r in *.
      apply list_elem_of_lookup in Hin as [i Hi]. destruct (Forall2_lookup_r _ _ _ _ _ Hf Hi) as (z & Hz & (Ez & _)).
      rewrite Ez in Ep. injection Ep as <-. apply list_elem_of_lookup_2 in Hz. rewrite Forall_forall in Hxs.
      by apply (list_elem_of_fmap_2 (fun y : Signed => rid y)), Hxs.
    + injection E as -> E. by eapply Hp.
  - assert (Hin : x ∈ new) by (rewrite E; apply elem_of_app; right; left).
    apply list_elem_of_lookup in Hin as [i Hi]. destruct (Forall2_lookup_r _ _ _ _ _ Hf Hi) as (z & Hz & (Ez & _)).
    rewrite Ez in Ep. injection Ep as <-. apply list_elem_of_lookup_2 in Hz. rewrite Forall_forall in Hxs.
    rewrite map_app. apply elem_of_app. left. by apply (list_elem_of_fmap_2 (fun y : Signed => rid y)), Hxs.
Qed.

Lemma calls_parents_first (w w' : W) : rtc (called uuid4) w w' -> unique (rowsW w) -> parents_first (rowsW w) ->
  unique (rowsW w') /\ parents_first (rowsW w').
Proof.
  induction 1 as [w|w1 w2 w3 (id & oid & reason & alg & E) H23 IH]; intros Hu Hp; [done|].
  pose proof (repartition_effect uuid4 id oid reason alg w1 Hu) as He. destruct (repartition_snapshot _ _ _ _ _ w1) as [out wx].
  cbn [snd] in E. subst wx. destruct He as (Hu2 & xs & new & E1 & E2 & [rest E3] & _). apply IH; [done|]. rewrite E1.
  eapply parents_first_flips; [done| |exact E2]. apply Forall_forall. intros x Hx.
  assert (Hin : x ∈ pending (flipped (rowsW w1)) (core_rows id (w_store w1))) by (rewrite E3; apply elem_of_app; by left).
  apply pending_elem in Hin as (Hin & _). by apply core_rows_sound in Hin as [Hin _].
Qed.

(** Verification terminates on the stores re-partitioning builds.  When
    every re-partition record of a store comes after its parent, then so it
    does after any re-partitions, and the recursion of [verify_chain] on any
    stored row ends within one level per row: more fuel than there are rows
    changes nothing. *)
Theorem verify_chain_total (w w' : W) x artifacts st fuel : rtc (called uuid4) w w' -> unique (rowsW w) -> parents_first (rowsW w) ->
  x ∈ rowsW w' -> (length (rowsW w') <= fuel)%nat ->
  verify_chain fuel x artifacts st w' = verify_chain (length (rowsW w')) x artifacts st w'.
Proof.
  intros Hc Hu Hp Hx Hf. destruct (calls_parents_first w w' Hc Hu Hp) as [Hu' Hp'].
  apply list_elem_of_split in Hx as (R1 & R2 & E).
  assert (Hlen : (length R1 < length (rowsW w'))%nat) by (rewrite E, length_app; cbn; lia).
  by apply (verify_fuel artifacts st (Datatypes.S (length R1)) R1 x R2); try done; lia.
Qed.
End total_repartition.
