(* ===== verification/SoftwareKms.v ===== *)
(** * The software signer and the in-memory store

    [services/scan/software_kms_signer.py] signs with an RSA key of the
    library; it keeps the promises verification relies on.  The append-only
    store is the one the repository's tests define ([tests/fnd03_fakes.py],
    [tests/snap04_fakes.py]), the only implementation of the port. *)
From stdpp Require Import base tactics list gmap strings.
From Stdlib Require Import ZArith Lia.
From S2P Require Import Prelude PyData PyDict Sha256 Ordering Json PyText Identity BoundRules Sarif JsonAscii Provenance ProvenanceSpec DiffOracle VerifySpec.

Open Scope Z_scope.
Open Scope py_scope.
Open Scope st_scope.

(** ** [SoftwareKMSSigner] *)

(** RSA-PSS signing by the library: randomised by a stream, and what it signs
    verifies under the DER encoding of the public key. *)
Class RsaSigning `{Cryptography} := {
  PrivateKey : Type;
  pss_sign : PrivateKey -> nat -> pybytes -> HashAlgorithm -> pybytes;
  public_der : PrivateKey -> pybytes;
  pss_verifies key n m digest : exists pub, load_der_public_key (public_der key) = Ok pub /\ is_rsa pub = true /\
    rsa_verify pub (pss_sign key n m digest) m digest = Ok tt
}.

Section signer.
Context `{PyRuntime, RsaSigning}.

(** The key, its version (a text without colons), the signatures drawn so far
    and, as a ghost, what they signed. *)
Record SoftwareKMSSigner := mkSigner {
  _private : PrivateKey;
  _version : pystr;
  _version_plain : Is_true (bool_decide (58 ∉ _version));
  _drawn : nat;
  _log : list (pystr * pybytes)
}.

Definition sign (KeyId : pystr) (Message : pybytes) (SigningAlgorithm : pystr) : St SoftwareKMSSigner Response := fun k =>
  let digest := if str_eqb SigningAlgorithm (str "RSASSA_PSS_SHA_384") then SHA384 else SHA256 in
  (Ok [(str "Signature", VBytes (pss_sign (_private k) (_drawn k) Message digest));
       (str "KeyId", VStr (KeyId ++ [58] ++ _version k))],
   mkSigner (_private k) (_version k) (_version_plain k) (S (_drawn k)) ((KeyId, Message) :: _log k)).

Definition get_public_key (KeyId KeyVersion : pystr) : St SoftwareKMSSigner Response := fun k =>
  (Ok (if str_eqb KeyVersion (_version k) then [(str "PublicKey", VBytes (public_der (_private k)))] else []), k).

#[export] Instance software_signer : KMSAsymmetricSigner SoftwareKMSSigner :=
  { kms_sign := sign; kms_get_public_key := get_public_key }.

#[export] Program Instance software_log : SigningLog SoftwareKMSSigner := { signed_messages := _log }.
Next Obligation. done. Qed.
Next Obligation. done. Qed.

(** The key and its version never change. *)
Definition same_key (k k' : SoftwareKMSSigner) : Prop := _private k = _private k' /\ _version k = _version k'.

#[export] Instance same_key_preorder : PreOrder same_key.
Proof. split; [done|]. intros k1 k2 k3 [] []. split; congruence. Qed.

Lemma split_nonempty sep s : split_on sep s <> [].
Proof. destruct s as [|c s]; [done|]. cbn. destruct (c =? sep); [done|]. by destruct (split_on sep s). Qed.

Lemma split_app sep s v : split_on sep (s ++ sep :: v) = split_on sep s ++ split_on sep v.
Proof.
  induction s as [|c s IH]; cbn [app split_on]; [by rewrite Z.eqb_refl|]. destruct (c =? sep); [by rewrite IH|].
  rewrite IH. pose proof (split_nonempty sep s). by destruct (split_on sep s).
Qed.

Lemma split_plain sep v : sep ∉ v -> split_on sep v = [v].
Proof.
  induction v as [|c v IH]; [done|]. intros [Hc Hv]%not_elem_of_cons. cbn. rewrite IH by done. by destruct (Z.eqb_spec c sep).
Qed.

Lemma key_material_version arn v : 58 ∉ v -> key_material (arn ++ [58] ++ v) = v.
Proof.
  intros Hv. unfold key_material. rewrite bool_decide_true by set_solver. cbn [app]. rewrite split_app, (split_plain _ v Hv). apply List.last_last.
Qed.

#[export] Program Instance software_honest : HonestSigner SoftwareKMSSigner := { later := same_key }.
Next Obligation. done. Qed.
Next Obligation. done. Qed.
Next Obligation.
  intros arn m alg k resp k' sig E Hs. injection E as <- <-. exists (public_der (_private k)). split.
  - unfold _expect_bytes in Hs. cbn in Hs. injection Hs as <-. unfold _verify_signature.
    destruct (pss_verifies (_private k) (_drawn k) m (if str_eqb alg (str "RSASSA_PSS_SHA_384") then SHA384 else SHA256)) as (pub & -> & -> & ->).
    done.
  - intros k2 [E1 E2]. cbn [_private _version] in E1, E2. eexists. split; [reflexivity|].
    assert (Hv : 58 ∉ _version k) by exact (bool_decide_unpack _ (_version_plain k)).
    change (default _ _) with (VStr (arn ++ [58] ++ _version k)). cbn [py_str]. rewrite key_material_version by done.
    unfold str_eqb. rewrite bool_decide_true by done. cbn. by rewrite E1.
Qed.
End signer.

(** ** The in-memory store *)

(** [InMemoryProvenanceStore]: the rows by identifier, in insertion order *)
Definition InMemoryProvenanceStore := list SignedProvenanceRecord.

Definition memory_append (signed : SignedProvenanceRecord) : St InMemoryProvenanceStore unit :=
  found ⟸ sget (fun l => bool_decide (rid signed ∈ map (fun y => rid y) l));
  if found : bool then sraise AssertionError else sput (fun l => l ++ [signed]).

Definition memory_get (id : UUID) : St InMemoryProvenanceStore (option SignedProvenanceRecord) :=
  sget (List.find (fun y => bool_decide (rid y = id))).

Definition memory_children (id : UUID) : St InMemoryProvenanceStore (list SignedProvenanceRecord) :=
  sget (List.filter (has_parent id)).

(** [RepartitionTestStore] *)
Definition memory_core (snapshot_id : UUID) : St InMemoryProvenanceStore (list SignedProvenanceRecord) :=
  sget (List.filter (fun y => _is_core_at_risk y && bool_decide (pr_snapshot_id (record y) = snapshot_id))).

#[export] Instance memory_store : ProvenanceStore InMemoryProvenanceStore :=
  { ps_append := memory_append; ps_get := memory_get; ps_children := memory_children }.

#[export] Instance memory_query : RepartitionProvenanceStore InMemoryProvenanceStore := { ps_core_chain_records := memory_core }.

#[export] Program Instance memory_append_only : AppendOnlyStore InMemoryProvenanceStore := { rows := fun l => l }.
Next Obligation. done. Qed.
Next Obligation. done. Qed.
Next Obligation. intros x s s'. cbn. unfold memory_append, sbind, sget. case_bool_decide; [done|]. by intros [= <-]. Qed.
Next Obligation. intros x s e s'. cbn. unfold memory_append, sbind, sget. case_bool_decide; [by intros [= _ <-]|done]. Qed.

#[export] Program Instance memory_snapshot : SnapshotQuery InMemoryProvenanceStore := {
  core_rows id l := List.filter (fun y => _is_core_at_risk y && bool_decide (pr_snapshot_id (record y) = id)) l
}.
Next Obligation. done. Qed.
Next Obligation.
  intros id s x Hx. cbn in *. apply list_elem_of_In, filter_In in Hx as [Hx E]. apply andb_true_iff in E as [_ E].
  split; [by apply list_elem_of_In|by apply bool_decide_eq_true in E].
Qed.
Next Obligation.
  intros id s x Hx Hid Hr. cbn in *. apply list_elem_of_In, filter_In. rewrite Hr, bool_decide_true by done. split; [by apply list_elem_of_In|done].
Qed.
