(* ===== verification/Attestor.v ===== *)
(** * The determinism attestor ([services/scan/attestor.py])

    A scan is re-run twice and the two logs are compared: byte for byte on the
    core partition, by the rate of findings reproduced on the oracle
    partition.  The runner and the optional appender are ports that act on
    the same external state; the environment is a lookup. *)
From stdpp Require Import base tactics list gmap strings.
From Stdlib Require Import ZArith Lia.
From S2P Require Import Prelude PyData Sha256 Ordering PyDict Json PyText Identity JsonParse BoundRules Sarif SarifJson.

Open Scope Z_scope.
Open Scope py_scope.
Open Scope st_scope.

Definition LLM_TRIAGE_ENV : pystr := str "LLM_TRIAGE".

Record AttestationVerdict := mkVerdict {
  v_scan_id : UUID;
  v_partition : pystr;
  v_result : pystr;
  v_attestor_hash : pybytes;
  (** in units of 0.0001, the four places of the [Decimal] *)
  v_reproduction_rate : option Z;
  v_s_version : pystr;
  v_env_digest : pystr;
  v_signed_chain_id : option UUID;
  v_diff_summary : option pystr
}.

(** ** The incident artifact *)

(** [repr(b)] of bytes *)
Definition repr_byte (quote c : Z) : pystr :=
  if (c =? quote) || (c =? 92) then [92; c]
  else if c =? 9 then str "\t"
  else if c =? 10 then str "\n"
  else if c =? 13 then str "\r"
  else if (c <? 32) || (127 <=? c) then str "\x" ++ [hex_digit (c / 16); hex_digit (c mod 16)]
  else [c].

Definition repr_bytes (b : pybytes) : pystr :=
  let quote := if bool_decide (39 ∈ b) && negb (bool_decide (34 ∈ b)) then 34 else 39 in
  [98; quote] ++ concat (map (repr_byte quote) b) ++ [quote].

Fixpoint first_difference (a b : pybytes) : nat :=
  match a, b with
  | x :: a, y :: b => if x =? y then S (first_difference a b) else O
  | _, _ => O
  end.

Definition py_len {A} (l : list A) : pystr := str_of_int (Z.of_nat (length l)).

Definition _diff_summary (blob_1 blob_2 : pybytes) : pystr :=
  let length_note :=
    if negb (Nat.eqb (length blob_1) (length blob_2))
    then str "length " ++ py_len blob_1 ++ str " != " ++ py_len blob_2 ++ str "; " else [] in
  let offset := first_difference blob_1 blob_2 in
  let window b := repr_bytes (take 16 (drop offset b)) in
  str "core-partition SARIF byte difference (property (a) FALSIFIED): " ++ length_note ++
  str "first diff at offset " ++ str_of_int (Z.of_nat offset) ++ str ": run1=" ++ window blob_1 ++
  str " run2=" ++ window blob_2.

(** ** The reproduction rate *)

(** The decimal exponent of the first significant digit of [n/d], for [0 < n <= d]. *)
Fixpoint leading_place (fuel : nat) (n d : Z) : nat :=
  match fuel with
  | O => O
  | S fuel => if d <=? n then O else S (leading_place fuel (10 * n) d)
  end.

(** [Decimal(n) / Decimal(d)] for [0 <= n <= d], [0 < d], in the default
    context: 28 significant digits, ties to even; the coefficient and the
    number of decimal places. *)
Definition decimal_div (n d : Z) : Z * Z :=
  if n =? 0 then (0, 0)
  else
    let places := 27 + Z.of_nat (leading_place (S (Z.to_nat (Z.log2 d))) n d) in
    (round_half_even (n * 10 ^ places) d, places).

(** [x.quantize(Decimal("0.0001"))], in units of 0.0001 *)
Definition quantize4 (x : Z * Z) : Z :=
  if x.2 <=? 4 then x.1 * 10 ^ (4 - x.2) else round_half_even x.1 (10 ^ (x.2 - 4)).

Section attestor.
Context `{PyRuntime}.

(** [frozenset] of the canonical bytes of the results of the oracle run *)
Definition _oracle_result_bytes (log : SARIFLog) : outcome (gset pybytes) :=
  doc ⇐ json_loads (run_bytes (log_runs log).2);
  results ⇐ get_or doc "results" (VList []);
  rs ⇐ iterate results;
  bs ⇐ mapO _canonical_serialize rs;
  Ok (list_to_set bs).

Definition _oracle_reproduction_rate (run_1 run_2 : SARIFLog) : outcome Z :=
  set_1 ⇐ _oracle_result_bytes run_1;
  set_2 ⇐ _oracle_result_bytes run_2;
  if bool_decide (set_1 = ∅) then Ok 10000
  else Ok (quantize4 (decimal_div (Z.of_nat (size (set_1 ∩ set_2))) (Z.of_nat (size set_1)))).

(** ** The pipelines *)

Context {X : Type}.

(** The external state and the values added to [attestor.core_diff_count]. *)
Record AttestWorld := mkAttest { a_ext : X; a_core_diffs : list Z }.

Definition on_ext {A} (m : St X A) : St AttestWorld A :=
  fun w => let '(r, x) := m (a_ext w) in (r, mkAttest x (a_core_diffs w)).

Definition ScanRunner : Type := UUID -> St X SARIFLog.

Definition fail_closed_scan_runner : ScanRunner := fun _ => sraise NotImplementedError.

(** [append_attestation(scan_id, partition, result, attestor_hash)] *)
Definition VerdictProvenanceAppender : Type := UUID -> pystr -> pystr -> pybytes -> St X UUID.

Definition _maybe_append (appender : option VerdictProvenanceAppender) (scan_id : UUID) (partition result : pystr)
    (attestor_hash : pybytes) : St AttestWorld (option UUID) :=
  match appender with
  | None => sret None
  | Some append => id ⟸ on_ext (append scan_id partition result attestor_hash); sret (Some id)
  end.

Definition record_core_diff (value : Z) : St AttestWorld unit :=
  sput (fun w => mkAttest (a_ext w) (a_core_diffs w ++ [value])).

Definition _attest_core (scan_id : UUID) (runner : ScanRunner) (s_version env_digest : pystr)
    (appender : option VerdictProvenanceAppender) : St AttestWorld AttestationVerdict :=
  log_1 ⟸ on_ext (runner scan_id);
  log_2 ⟸ on_ext (runner scan_id);
  let blob_1 := run_bytes (log_runs log_1).1 in
  let blob_2 := run_bytes (log_runs log_2).1 in
  let same := bool_decide (blob_1 = blob_2) in
  let result := if same then str "pass" else str "fail" in
  let diff_summary := if same then None else Some (_diff_summary blob_1 blob_2) in
  record_core_diff (if same then 0 else 1) ⨟
  (attestor_hash ⟸ slift (fromhex (run_hash (log_runs log_1).1));
   signed_chain_id ⟸ _maybe_append appender scan_id (str "core") result attestor_hash;
   sret (mkVerdict scan_id (str "core") result attestor_hash None s_version env_digest signed_chain_id diff_summary)).

Definition _attest_oracle (scan_id : UUID) (runner : ScanRunner) (s_version env_digest : pystr)
    (appender : option VerdictProvenanceAppender) : St AttestWorld AttestationVerdict :=
  log_1 ⟸ on_ext (runner scan_id);
  log_2 ⟸ on_ext (runner scan_id);
  rate ⟸ slift (_oracle_reproduction_rate log_1 log_2);
  attestor_hash ⟸ slift (fromhex (run_hash (log_runs log_1).2));
  signed_chain_id ⟸ _maybe_append appender scan_id (str "oracle") (str "rate-only") attestor_hash;
  sret (mkVerdict scan_id (str "oracle") (str "rate-only") attestor_hash (Some rate) s_version env_digest signed_chain_id None).

Definition attest_scan (environ : pystr -> option pystr) (scan_id : UUID) (partition s_version env_digest : pystr)
    (scan_runner : option ScanRunner) (appender : option VerdictProvenanceAppender) : St AttestWorld AttestationVerdict :=
  let runner := default fail_closed_scan_runner scan_runner in
  if str_eqb partition (str "core") then
    let triage := default (str "off") (environ LLM_TRIAGE_ENV) in
    if negb (str_eqb triage (str "off")) then sraise AttestorConfigurationError
    else _attest_core scan_id runner s_version env_digest appender
  else if str_eqb partition (str "oracle") then _attest_oracle scan_id runner s_version env_digest appender
  else sraise AttestorConfigurationError.
End attestor.

Example rate_two_thirds : quantize4 (decimal_div 2 3) = 6667.
Proof. reflexivity. Qed.
(** The rate reads 1.0000 although a finding was not reproduced. *)
Example rate_rounds_up : quantize4 (decimal_div 20000 20001) = 10000.
Proof. reflexivity. Qed.

(** * What an attestation shows

    Two runs with the same core findings pass the core pipeline, whatever
    their oracle findings and the order in which their sets are iterated; the
    oracle pipeline reports the measured rate to half a unit of its last
    place. *)

(** ** The core run *)

Section core.
Context `{PyRuntime}.

(** The findings of the core partition. *)
Definition core_findings (fs : list WorkerFinding) : list WorkerFinding := List.filter (fun f => equals_text (w_origin f) CORE_ORIGIN) fs.

Lemma filter_idemp {A} (p : A -> bool) l : List.filter p (List.filter p l) = List.filter p l.
Proof. induction l as [|x l IH]; [done|]. cbn. destruct (p x) eqn:E; [|done]. cbn. by rewrite E, IH. Qed.

Lemma sorted_results_core fs : _sorted_results fs CORE_ORIGIN = _sorted_results (core_findings fs) CORE_ORIGIN.
Proof. unfold _sorted_results, core_findings. by rewrite filter_idemp. Qed.

Lemma normalize_core_run fs p log : normalize fs p = Ok log ->
  exists rs obj b, _sorted_results fs CORE_ORIGIN = Ok rs /\ _build_run (str "core") rs p = Ok obj /\
    _canonical_serialize obj = Ok b /\ (log_runs log).1 = mkRun (str "core") b (hexdigest b) (length rs).
Proof.
  unfold normalize. intros E. repeat match goal with
  | E : obind _ _ = Ok _ |- _ => apply obind_Ok in E as (? & ? & E)
  end. injection E as <-. do 3 eexists. split_and!; [eassumption..|done].
Qed.

(** The core run depends on the set of core findings alone. *)
Lemma core_run_determined fs fs' p log log' : core_findings fs ≡ₚ core_findings fs' ->
  normalize fs p = Ok log -> normalize fs' p = Ok log' -> (log_runs log).1 = (log_runs log').1.
Proof.
  intros Hp E E'. apply normalize_core_run in E as (rs & obj & b & E1 & E2 & E3 & ->), E' as (rs' & obj' & b' & E1' & E2' & E3' & ->).
  rewrite sorted_results_core in E1, E1'. destruct (sorted_results_perm _ _ _ _ Hp E1) as (rs2 & F1 & Hsame & Hr).
  assert (rs2 = rs') as -> by congruence. destruct (build_run_perm _ _ _ _ _ Hsame Hr E2) as (obj2 & F2 & Hobj).
  assert (obj2 = obj') as -> by congruence. rewrite (serialize_proper _ _ Hobj) in E3.
  assert (b = b') as -> by congruence. by rewrite (Forall2_length _ _ _ Hsame).
Qed.
End core.

Lemma fromhex_hex bs : Forall is_byte bs -> fromhex (hex bs) = Ok bs.
Proof.
  assert (Hd : forall d, 0 <= d < 16 -> ascii_space (hex_digit d) = false /\ hex_value (hex_digit d) = Some d).
  { intros d Hd. unfold hex_digit, hex_value, ascii_space, is_digit. destruct (Z.ltb_spec d 10).
    - split; [lia|]. replace ((48 <=? 48 + d) && (48 + d <=? 57)) with true by lia. f_equal. lia.
    - split; [lia|]. replace ((48 <=? 87 + d) && (87 + d <=? 57)) with false by lia.
      replace ((97 <=? 87 + d) && (87 + d <=? 102)) with true by lia. f_equal. lia. }
  induction 1 as [|b bs Hb Hbs IH]; [done|]. unfold hex in *. cbn [map concat app]. unfold is_byte in Hb.
  destruct (Hd (b / 16)) as [H1 H2]; [div_lia|]. destruct (Hd (b mod 16)) as [_ H3]; [div_lia|].
  cbn [fromhex]. rewrite H1, H2, H3. rewrite IH. cbn. do 2 f_equal. div_lia.
Qed.

Section attest.
Context `{PyRuntime} {X : Type}.
Notation W := (@AttestWorld X).

Lemma on_ext_Ok {A} (m : St X A) (w w' : W) a : on_ext m w = (Ok a, w') ->
  m (a_ext w) = (Ok a, a_ext w') /\ a_core_diffs w' = a_core_diffs w.
Proof. unfold on_ext. destruct (m (a_ext w)) as [r x]. by intros [= -> <-]. Qed.

Lemma maybe_append_Ok appender id partition result hash (w w' : W) o :
  _maybe_append appender id partition result hash w = (Ok o, w') -> a_core_diffs w' = a_core_diffs w.
Proof.
  destruct appender as [append|]; cbn [_maybe_append]; [|by intros [= _ <-]].
  intros (u & w1 & Hu & [= _ <-])%sbind_Ok. by apply on_ext_Ok in Hu as [_ ->].
Qed.

(** What the core pipeline does when it answers. *)
Lemma attest_core_Ok environ id s e runner appender (w : W) v w' :
  attest_scan environ id (str "core") s e (Some runner) appender w = (Ok v, w') ->
  default (str "off") (environ LLM_TRIAGE_ENV) = str "off" /\
  exists log1 log2 x1 x2, runner id (a_ext w) = (Ok log1, x1) /\ runner id x1 = (Ok log2, x2) /\
    let same := bool_decide (run_bytes (log_runs log1).1 = run_bytes (log_runs log2).1) in
    fromhex (run_hash (log_runs log1).1) = Ok (v_attestor_hash v) /\
    v_result v = (if same then str "pass" else str "fail") /\ v_partition v = str "core" /\ v_reproduction_rate v = None /\
    v_diff_summary v = (if same then None else Some (_diff_summary (run_bytes (log_runs log1).1) (run_bytes (log_runs log2).1))) /\
    a_core_diffs w' = a_core_diffs w ++ [if same then 0 else 1].
Proof.
  unfold attest_scan. change (str_eqb (str "core") (str "core")) with true. change (default fail_closed_scan_runner (Some runner)) with runner.
  destruct (str_eqb (default (str "off") (environ LLM_TRIAGE_ENV)) (str "off")) eqn:Et; [|done]. cbn [negb].
  apply bool_decide_eq_true in Et. intros E. split; [done|]. unfold _attest_core in E.
  apply sbind_Ok in E as (log1 & w1 & [E1 M1]%on_ext_Ok & E). apply sbind_Ok in E as (log2 & w2 & [E2 M2]%on_ext_Ok & E).
  exists log1, log2, (a_ext w1), (a_ext w2). split; [done|]. split; [done|]. cbn zeta in *. set (same := bool_decide _) in *.
  apply sbind_Ok in E as ([] & w3 & [= <-] & E). apply sbind_Ok in E as (h & w4 & [Eh ->]%slift_Ok & E).
  apply sbind_Ok in E as (o & w5 & Ho%maybe_append_Ok & [= <- <-]). split_and!; try done. by rewrite Ho, <-M1, <-M2.
Qed.

(** Each run of the scan emits, with the parameters [p], a set of findings
    whose core part is [core]; the oracle part may vary from run to run. *)
Definition emits (runner : @ScanRunner X) (id : UUID) (p : RunParams) (core : list WorkerFinding) : Prop :=
  forall x log x', runner id x = (Ok log, x') -> exists fs, normalize fs p = Ok log /\ core_findings fs ≡ₚ core.

(** C21: the core pipeline decides determinism.  An attestation that answers
    ran the scan twice, with the triage off: it passes exactly when the core
    bytes of the two runs are equal and fails exactly when they differ; a pass
    has no incident artifact and adds a zero to the metric, a fail has the
    incident artifact of those bytes and adds a one.  When the runs emit one
    set of core findings under fixed parameters, in any order of iteration and
    whatever the oracle findings of each run, it is a pass, and the hash
    attested is the digest of the core run. *)
Theorem attest_core_determinism environ id s e runner appender (w : W) v w' p core :
  attest_scan environ id (str "core") s e (Some runner) appender w = (Ok v, w') ->
  default (str "off") (environ LLM_TRIAGE_ENV) = str "off" /\
  exists log1 log2 x1 x2, runner id (a_ext w) = (Ok log1, x1) /\ runner id x1 = (Ok log2, x2) /\
    let blob1 := run_bytes (log_runs log1).1 in
    let blob2 := run_bytes (log_runs log2).1 in
    (v_result v = str "pass" \/ v_result v = str "fail") /\
    (v_result v = str "pass" <-> blob1 = blob2) /\
    (v_result v = str "pass" -> v_diff_summary v = None /\ a_core_diffs w' = a_core_diffs w ++ [0]) /\
    (v_result v = str "fail" -> blob1 <> blob2 /\ v_diff_summary v = Some (_diff_summary blob1 blob2) /\ a_core_diffs w' = a_core_diffs w ++ [1]) /\
    (emits runner id p core -> v_result v = str "pass" /\
       exists fs, normalize fs p = Ok log1 /\ core_findings fs ≡ₚ core /\ v_attestor_hash v = sha256 blob1).
Proof.
  intros E. apply attest_core_Ok in E as (Ht & log1 & log2 & x1 & x2 & R1 & R2 & Hh & Hr & _ & _ & Hd & Hm). split; [done|].
  exists log1, log2, x1, x2. do 2 (split; [done|]). cbn zeta. rewrite Hr, Hd, Hm. split_and!.
  - case_bool_decide; auto.
  - by case_bool_decide.
  - by case_bool_decide.
  - by case_bool_decide.
  - intros He. destruct (He _ _ _ R1) as (fs1 & N1 & C1), (He _ _ _ R2) as (fs2 & N2 & C2). split.
    + by rewrite bool_decide_true by (rewrite (core_run_determined fs1 fs2 p log1 log2) by (done || by rewrite C1, C2); done).
    + exists fs1. split_and!; try done. apply normalize_core_run in N1 as (rs & obj & b & _ & _ & _ & Hrun).
      rewrite Hrun in Hh |- *. cbn [run_hash run_bytes] in *. unfold hexdigest in Hh. rewrite fromhex_hex in Hh by apply sha256_bytes. congruence.
Qed.
End attest.

(** ** The reproduction rate *)

(** The nearest integer is within half of the quotient. *)
Lemma round_half_even_near n d : 0 < d -> 2 * Z.abs (round_half_even n d * d - n) <= d.
Proof.
  intros Hd. unfold round_half_even. pose proof (Z.div_mod n d ltac:(lia)) as E. pose proof (Z.mod_pos_bound n d Hd) as Hr.
  set (q := n / d) in *. set (r := n mod d) in *. clearbody q r.
  repeat case_match; lia.
Qed.

Lemma round_half_even_exact k d : 0 < d -> round_half_even (k * d) d = k.
Proof. intros Hd. unfold round_half_even. rewrite Z.div_mul, Z.mod_mul by lia. cbn zeta. by rewrite (proj2 (Z.ltb_lt _ _)) by lia. Qed.

Lemma round_half_even_bounds n d k : 0 < d -> 0 <= n <= k * d -> 0 <= round_half_even n d <= k.
Proof. intros Hd Hn. pose proof (round_half_even_near n d Hd). set (q := round_half_even n d) in *. clearbody q. nia. Qed.

(** The fuel of [leading_place] suffices, and the quotient has 28 digits. *)
Lemma leading_place_spec fuel : forall n d, 0 < n <= d -> d <= n * 10 ^ Z.of_nat fuel ->
  let j := Z.of_nat (leading_place fuel n d) in d <= n * 10 ^ j /\ (j = 0 \/ n * 10 ^ (j - 1) < d).
Proof.
  induction fuel as [|fuel IH]; intros n d Hn Hf; cbn [leading_place]; [split; [exact Hf|by left]|].
  destruct (Z.leb_spec d n) as [Hle|Hlt]; [cbn; lia|]. rewrite Nat2Z.inj_succ, Z.pow_succ_r in Hf by lia. cbn zeta.
  rewrite Nat2Z.inj_succ. set (j := Z.of_nat (leading_place _ _ _)) in *. destruct (decide (10 * n <= d)) as [H10|H10].
  - destruct (IH (10 * n) d) as [H1 H2]; [lia|nia|]. fold j in H1, H2. rewrite Z.pow_succ_r by lia. split; [lia|right].
    replace (Z.succ j - 1) with j by lia. destruct (Z.eq_dec j 0) as [->|Hj]; [cbn; lia|]. destruct H2 as [|H2]; [done|].
    assert (Hj0 : 0 <= j) by (unfold j; lia). clearbody j.
    assert (E : 10 ^ j = 10 * 10 ^ (j - 1)) by (rewrite <-Z.pow_succ_r by lia; f_equal; lia). rewrite E. lia.
  - assert (j = 0) as ->; [|cbn; lia]. unfold j. destruct fuel; [done|]. cbn [leading_place]. destruct (Z.leb_spec d (10 * n)); [done|lia].
Qed.

Lemma decimal_div_digits n d : 0 < n <= d -> let x := decimal_div n d in
  27 <= x.2 /\ d * 10 ^ 27 <= n * 10 ^ x.2 < d * 10 ^ 28.
Proof.
  intros Hn. unfold decimal_div. destruct (Z.eqb_spec n 0); [lia|]. cbn [snd]. set (f := S _).
  assert (Hf : d <= n * 10 ^ Z.of_nat f).
  { unfold f. rewrite Nat2Z.inj_succ, Z2Nat.id by apply Z.log2_nonneg. pose proof (proj2 (Z.log2_spec d ltac:(lia))) as H2.
    pose proof (Z.pow_le_mono_l 2 10 (Z.succ (Z.log2 d))). nia. }
  destruct (leading_place_spec f n d Hn Hf) as [H1 H2]. set (j := Z.of_nat (leading_place _ _ _)) in *.
  assert (Hj : 0 <= j) by (unfold j; lia). clearbody j. cbn zeta. split; [lia|]. rewrite Z.pow_add_r by lia.
  destruct H2 as [->|H2]; [cbn; lia|]. destruct (Z.eq_dec j 0) as [->|Hne]; [cbn; lia|].
  assert (E : 10 ^ j = 10 * 10 ^ (j - 1)) by (rewrite <-Z.pow_succ_r by lia; f_equal; lia). rewrite E in *.
  change (10 ^ 28) with (10 * 10 ^ 27). split; nia.
Qed.

(** The decimal rate of [n] of [d]. *)
Lemma rate_near n d : 0 < d -> 0 <= n <= d ->
  let rate := quantize4 (decimal_div n d) in
  0 <= rate <= 10000 /\ 2 * 10 ^ 23 * Z.abs (rate * d - 10000 * n) <= (10 ^ 23 + 1) * d /\ (n = d -> rate = 10000).
Proof.
  intros Hd Hn. destruct (Z.eq_dec n 0) as [->|Hn0].
  { change (decimal_div 0 d) with (0, 0). change (quantize4 (0, 0)) with 0. cbn zeta. split; [lia|]. split; [|lia].
    replace (Z.abs _) with 0 by lia. rewrite Z.mul_0_r. apply Z.mul_nonneg_nonneg; lia. }
  destruct (decimal_div_digits n d ltac:(lia)) as [Hp _]. unfold decimal_div in *. destruct (Z.eqb_spec n 0); [lia|]. cbn [snd] in Hp.
  set (j := leading_place _ n d) in *. assert (Hj : n = d -> j = 0%nat) by (intros ->; unfold j; cbn [leading_place]; by rewrite Z.leb_refl).
  set (P := 27 + Z.of_nat j) in *. unfold quantize4. cbn [fst snd]. destruct (Z.leb_spec P 4); [lia|].
  set (M := 10 ^ (P - 4)). assert (EM : 10 ^ P = 10000 * M).
  { unfold M. change 10000 with (10 ^ 4). rewrite <-Z.pow_add_r by lia. f_equal. lia. }
  assert (HM : 10 ^ 23 <= M) by (apply Z.pow_le_mono_r; lia). rewrite EM.
  pose proof (round_half_even_near (n * (10000 * M)) d Hd) as N1.
  pose proof (round_half_even_bounds (n * (10000 * M)) d (10000 * M) Hd ltac:(nia)) as B1.
  set (c := round_half_even (n * (10000 * M)) d) in *. assert (HM0 : 0 < M) by lia.
  pose proof (round_half_even_near c M HM0) as N2. pose proof (round_half_even_bounds c M 10000 HM0 ltac:(lia)) as B2. cbn zeta.
  split; [exact B2|]. split.
  - set (r := round_half_even c M) in *. clearbody r c. clear -N1 N2 HM HM0 Hd.
    set (B := 10 ^ 23) in *. assert (HB : 0 < B) by (unfold B; lia). clearbody B.
    set (A := Z.abs (r * d - 10000 * n)).
    assert (H1 : 2 * M * A <= d * (M + 1)).
    { assert (E : M * (r * d - 10000 * n) = d * (r * M - c) + (c * d - n * (10000 * M))) by ring.
      assert (Habs : M * A = Z.abs (M * (r * d - 10000 * n))) by (unfold A; rewrite Z.abs_mul, (Z.abs_eq M); lia).
      assert (Htri : M * A <= d * Z.abs (r * M - c) + Z.abs (c * d - n * (10000 * M))).
      { rewrite Habs, E. etrans; [apply Z.abs_triangle|]. rewrite Z.abs_mul, (Z.abs_eq d) by lia. lia. }
      nia. }
    assert (HA : 0 <= A) by apply Z.abs_nonneg. clearbody A. clear N1 N2. nia.
  - intros E. subst n. unfold c. rewrite Z.mul_comm, round_half_even_exact by done. by rewrite round_half_even_exact.
Qed.

Section oracle.
Context `{PyRuntime} {X : Type}.
Notation W := (@AttestWorld X).

(** The oracle pipeline measures and claims nothing more.  When it
    answers, the result is rate-only, the metric of the core pipeline is
    untouched, and the rate is the share of the distinct results of the first
    run that the second repeats: between 0 and 1, exactly 1 when all are
    repeated or there is none, and otherwise within half a unit of the fourth
    place of the exact quotient, up to the 28 digits of the division. *)
Theorem attest_oracle_rate environ id s e runner appender (w : W) v w' :
  attest_scan environ id (str "oracle") s e (Some runner) appender w = (Ok v, w') ->
  v_result v = str "rate-only" /\ v_diff_summary v = None /\ a_core_diffs w' = a_core_diffs w /\
  exists log1 log2 x1 x2 set1 set2 rate, runner id (a_ext w) = (Ok log1, x1) /\ runner id x1 = (Ok log2, x2) /\
    _oracle_result_bytes log1 = Ok set1 /\ _oracle_result_bytes log2 = Ok set2 /\ v_reproduction_rate v = Some rate /\
    let n := Z.of_nat (size (set1 ∩ set2)) in let d := Z.of_nat (size set1) in
    0 <= rate <= 10000 /\ (set1 ⊆ set2 -> rate = 10000) /\
    (set1 <> ∅ -> 2 * 10 ^ 23 * Z.abs (rate * d - 10000 * n) <= (10 ^ 23 + 1) * d).
Proof.
  unfold attest_scan. change (str_eqb (str "oracle") (str "core")) with false. change (str_eqb (str "oracle") (str "oracle")) with true.
  change (default fail_closed_scan_runner (Some runner)) with runner. unfold _attest_oracle. intros E.
  apply sbind_Ok in E as (log1 & w1 & [E1 M1]%on_ext_Ok & E). apply sbind_Ok in E as (log2 & w2 & [E2 M2]%on_ext_Ok & E).
  apply sbind_Ok in E as (rate & w3 & [Er ->]%slift_Ok & E). apply sbind_Ok in E as (h & w4 & [_ ->]%slift_Ok & E).
  apply sbind_Ok in E as (o & w5 & Ho%maybe_append_Ok & [= <- <-]). split; [done|]. split; [done|]. split; [by rewrite Ho, M2, M1|].
  unfold _oracle_reproduction_rate in Er. apply obind_Ok in Er as (set1 & S1 & Er). apply obind_Ok in Er as (set2 & S2 & Er).
  exists log1, log2, (a_ext w1), (a_ext w2), set1, set2, rate. do 5 (split; [done|]). cbn zeta.
  destruct (decide (set1 = ∅)) as [->|Hne]; [rewrite bool_decide_true in Er by done; injection Er as <-; split; [lia|]; split; [done|by intros []]|].
  rewrite bool_decide_false in Er by done. injection Er as <-.
  assert (Hd : 0 < Z.of_nat (size set1)).
  { assert (size set1 <> 0%nat); [|lia]. intros Es. apply Hne. by apply leibniz_equiv, size_empty_iff. }
  assert (Hn : (size (set1 ∩ set2) <= size set1)%nat) by (apply subseteq_size; set_solver).
  destruct (rate_near (Z.of_nat (size (set1 ∩ set2))) (Z.of_nat (size set1)) Hd
    (conj (Nat2Z.is_nonneg _) (proj1 (Nat2Z.inj_le _ _) Hn))) as (B & N & F).
  split; [exact B|]. split; [|intros _; exact N]. intros Hsub. apply F. do 2 f_equal. apply leibniz_equiv. set_solver.
Qed.
End oracle.
