(* ===== verification/AttestorSamples.v ===== *)
(** * Samples: a signed chain, and attestations of a scan

    A toy signature scheme stands for RSA (a signature is the key followed by
    the message); the software signer and the in-memory store run on it. *)
From stdpp Require Import base tactics list gmap strings relations.
From Stdlib Require Import ZArith Lia.
From S2P Require Import Prelude PyData Sha256 Ordering PyDict Json JsonAscii PyText Identity JsonParse BoundRules Sarif SarifSamples Provenance ProvenanceSpec DiffOracle VerifySpec SoftwareKms Attestor.

Open Scope Z_scope.
Open Scope py_scope.
Open Scope st_scope.

#[local] Instance toy_runtime : PyRuntime := {|
  str_of_container := fun _ => [];
  int_of_text := fun _ => Raise (ValueError "invalid literal for int()");
  decode_wide := fun _ => Raise (ValueError "UnicodeDecodeError");
  Sarif.parse_float := fun _ => Ok JNull;
  Sarif.parse_constant := fun _ => Ok JNull
|}.

#[local] Instance toy_crypto : Cryptography := {|
  PublicKey := pybytes;
  load_der_public_key := fun der => Ok der;
  is_rsa := fun _ => true;
  rsa_verify := fun key sig message _ => if bool_decide (sig = key ++ message) then Ok tt else Raise InvalidSignature
|}.

#[local] Program Instance toy_rsa : RsaSigning := {|
  PrivateKey := pybytes;
  pss_sign := fun key _ message _ => key ++ message;
  public_der := fun key => key
|}.
Next Obligation. intros key n m digest. exists key. split_and!; [done..|]. cbn. by rewrite bool_decide_true. Qed.

Definition toy_signer : SoftwareKMSSigner := mkSigner [7; 7; 7] (str "v1") I 0 [].
Definition ARN : pystr := str "arn:aws:kms:us-east-1:1:key/k".
Definition toy_uuid (n : nat) : UUID := 900 + Z.of_nat n.

(** A finding of a snapshot, from an engine, with an origin. *)
Definition chain_record (id snapshot org : UUID) (engine origin : string) : ProvenanceRecord :=
  mkRecord id None (str "chain") 1 (Some 2) org 4 (repeat 97 40) (str "github") snapshot (str "sha256:c") (Some (str "closed-world"))
    (str "1.2.3") (str "sha256:b") (Some (repeat 0 32)) CPG_ORDER_HASH_ANNOTATION (Some (str "strong")) (Some (str "s3://w"))
    (Some (repeat 1 32)) (Some (str "R1")) (Some (str "S1")) (Some (str "det")) (Some (str engine)) None (Some (str origin))
    (Some (str origin)) None None (str "CONDITIONAL_THEOREM") 1 VNone.

Definition record_a : ProvenanceRecord := chain_record 11 5 3 "ifds" "deterministic-core".
Definition record_b : ProvenanceRecord := chain_record 12 5 3 "semgrep" "oracle-passthrough".
Definition record_c : ProvenanceRecord := chain_record 13 6 3 "ide" "deterministic-core".

Definition W : Type := World SoftwareKMSSigner InMemoryProvenanceStore.
Definition initial : W := mkWorld toy_signer [] 0.
Definition signed_a : W := (sign_provenance record_a ARN DEFAULT_SIGNATURE_ALG true initial).2.
Definition signed_b : W := (sign_provenance record_b ARN DEFAULT_SIGNATURE_ALG true signed_a).2.
Definition chain : W := (sign_provenance record_c ARN DEFAULT_SIGNATURE_ALG true signed_b).2.

Definition reason : pystr := str "dynamic proxy".
Definition flip (w : W) : outcome RepartitionResult * W := repartition_snapshot toy_uuid 5 77 reason DEFAULT_SIGNATURE_ALG w.
Definition flipped_chain : W := (flip chain).2.

Lemma chain_unique : unique (rows (w_store chain)).
Proof. apply (bool_decide_unpack _). vm_compute. exact I. Qed.

Lemma chain_clean : NoDup (flipped (rows (w_store chain))).
Proof. apply (bool_decide_unpack _). vm_compute. exact I. Qed.

(** One finding of snapshot 5 is due; the new record is its only effect. *)
Lemma chain_flips : (flip chain).1 = Ok (mkResult 1 [900] [3] 0) /\
  map (fun y => rid y) (rows (w_store flipped_chain)) = [11; 12; 13; 900].
Proof. vm_compute. split; reflexivity. Qed.

Lemma flip_returns : flip chain = (Ok (mkResult 1 [900] [3] 0), flipped_chain).
Proof. unfold flipped_chain. rewrite <-(proj1 chain_flips). apply surjective_pairing. Qed.

Lemma chain_called : rtc (called toy_uuid) chain flipped_chain.
Proof. apply rtc_once. exists 5, 77, reason, DEFAULT_SIGNATURE_ALG. reflexivity. Qed.

Lemma repartition_exact_witness : unique (rows (w_store chain)) /\
  exists xs new, rows (w_store flipped_chain) = rows (w_store chain) ++ new /\
    Forall2 (flip_of 77 reason DEFAULT_SIGNATURE_ALG) xs new /\ length xs = 1%nat.
Proof.
  split; [exact chain_unique|].
  destruct (repartition_exact toy_uuid 5 77 reason DEFAULT_SIGNATURE_ALG chain _ _ chain_unique flip_returns) as (xs & new & H1 & H2 & _ & H4).
  exists xs, new. split; [exact H1|]. split; [exact H2|]. destruct (H4 _ eq_refl) as [H5 H6].
  rewrite H5. apply Nat2Z.inj. exact (eq_sym (f_equal affected_finding_count H6)).
Defined.

Lemma repartition_once_witness : rtc (called toy_uuid) chain flipped_chain /\ NoDup (flipped (rows (w_store chain))) /\
  rows (w_store chain) `prefix_of` rows (w_store flipped_chain) /\ NoDup (flipped (rows (w_store flipped_chain))).
Proof.
  split; [exact chain_called|]. split; [exact chain_clean|].
  destruct (repartition_once toy_uuid chain flipped_chain chain_called chain_unique chain_clean) as (H1 & H2 & _). split; [exact H1|exact H2].
Defined.

Lemma repartition_idempotent_witness : unique (rows (w_store chain)) /\ flip flipped_chain = (Ok (mkResult 0 [] [] 1), flipped_chain).
Proof.
  split; [exact chain_unique|].
  destruct (repartition_idempotent toy_uuid 5 77 reason DEFAULT_SIGNATURE_ALG chain _ _ chain_unique flip_returns) as [_ H].
  exact (H 77 reason DEFAULT_SIGNATURE_ALG).
Defined.

(** ** Verification *)

Definition row_900 : Signed := List.last (rows (w_store flipped_chain)) (mkSigned record_a [] [] [] [] []).

Lemma row_900_verifies : (verify_chain 2 row_900 None true flipped_chain).1 = Ok VERIFIED.
Proof. vm_compute. reflexivity. Qed.

Ltac field_known := cbn; first [exact I | (unfold uuid_ok; lia) | (intros ? [= <-]; cbn; try exact I; apply (bool_decide_unpack (Forall scalar _)); vm_compute; exact I) | (repeat constructor; unfold is_byte; lia)].

Lemma chain_presentable id snapshot org engine origin : uuid_ok id -> uuid_ok snapshot -> uuid_ok org ->
  scalars (str engine) -> scalars (str origin) -> presentable (chain_record id snapshot org engine origin).
Proof.
  intros H1 H2 H3 H4 H5. unfold presentable, fields. repeat (apply Forall_cons; split); [..|by apply Forall_nil_2];
    try exact H1; try exact H2; try exact H3; cbn -[str]; first [exact I | (unfold uuid_ok; lia) | idtac];
    try (intros ? [= <-]; first [exact H4 | exact H5 | (cbn; try exact I; apply (bool_decide_unpack (Forall scalar _)); vm_compute; exact I)]).
  all: repeat (apply Forall_cons; split); try apply Forall_nil_2; unfold is_byte; lia.
Qed.

(** The history of [chain]: three records signed from an empty log. *)
Definition requests : list (ProvenanceRecord * pystr) := [(record_c, ARN); (record_b, ARN); (record_a, ARN)].

Lemma chain_history : history requests chain.
Proof. unfold chain, signed_b, signed_a. repeat apply hist_sign. by apply hist_start. Qed.

Lemma sample_presentable : presentable record_a /\ presentable record_b /\ presentable record_c.
Proof.
  split_and!; apply chain_presentable; unfold uuid_ok; try lia; apply (bool_decide_unpack (Forall scalar _)); vm_compute; exact I.
Qed.

Lemma requests_presentable : Forall (fun ra => presentable ra.1) requests.
Proof. destruct sample_presentable as (Ha & Hb & Hc). set (P := fun ra : ProvenanceRecord * pystr => presentable ra.1).
  exact (Forall_cons_2 P (record_c, ARN) _ Hc (Forall_cons_2 P (record_b, ARN) _ Hb (Forall_cons_2 P (record_a, ARN) _ Ha (Forall_nil_2 P)))). Qed.

Definition row_a : Signed := List.hd (mkSigned record_b [] [] [] [] []) (rows (w_store chain)).

Lemma row_a_known : record row_a = record_a /\ (verify_chain 1 row_a None true chain).1 = Ok VERIFIED.
Proof. vm_compute. split; reflexivity. Qed.

Lemma row_a_presentable : presentable (record row_a).
Proof. rewrite (proj1 row_a_known). apply sample_presentable. Qed.

Lemma verified_was_signed_witness : history requests chain /\ presentable (record row_a) /\
  (verify_chain 1 row_a None true chain).1 = Ok VERIFIED /\
  ((exists r, (r, kms_key_arn row_a) ∈ requests /\ same_record r (record row_a) /\ guarded_record (record row_a)) \/
   (exists pk resp, (kms_get_public_key (kms_key_arn row_a) (kms_key_version row_a) (w_signer chain)).1 = Ok resp /\
     dict_get resp (str "PublicKey") = Some (VBytes pk) /\ forged (kms_key_arn row_a) (w_signer chain) pk (signature row_a))).
Proof.
  split; [exact chain_history|]. split; [exact row_a_presentable|]. split; [exact (proj2 row_a_known)|].
  exact (verified_was_signed requests chain row_a 1 None true chain_history requests_presentable row_a_presentable (proj2 row_a_known)).
Defined.

Lemma repartition_verifies_witness : unique (rows (w_store chain)) /\ later_world chain flipped_chain /\
  forall y, y ∈ rows (w_store flipped_chain) -> y ∈ rows (w_store chain) \/
    exists x, x ∈ rows (w_store chain) /\ flip_of 77 reason DEFAULT_SIGNATURE_ALG x y.
Proof.
  split; [exact chain_unique|].
  destruct (repartition_verifies toy_uuid 5 77 reason DEFAULT_SIGNATURE_ALG chain _ _ chain_unique flip_returns) as [H1 H2].
  split; [exact H1|]. intros y Hy. destruct (H2 y Hy) as [H|(x & Hx & Hf & _)]; [left; exact H|right; exists x; split; [exact Hx|exact Hf]].
Defined.

Lemma chain_parents_first : parents_first (rows (w_store chain)).
Proof.
  assert (Hall : Forall (fun x => is_repartition x = false) (rows (w_store chain))).
  { apply (bool_decide_unpack _). vm_compute. exact I. }
  intros R1 x R2 p E Hx _. rewrite E in Hall. apply Forall_app in Hall as [_ Hall]. apply Forall_cons in Hall as [Hall _]. congruence.
Qed.

Lemma row_900_stored : rows (w_store flipped_chain) !! 3%nat = Some row_900 /\ length (rows (w_store flipped_chain)) = 4%nat.
Proof. vm_compute. split; reflexivity. Qed.

Lemma verify_chain_total_witness : rtc (called toy_uuid) chain flipped_chain /\ parents_first (rows (w_store chain)) /\
  row_900 ∈ rows (w_store flipped_chain) /\
  verify_chain 9 row_900 None true flipped_chain = verify_chain (length (rows (w_store flipped_chain))) row_900 None true flipped_chain.
Proof.
  destruct row_900_stored as [H3 H4]. pose proof (list_elem_of_lookup_2 _ _ _ H3) as Hin.
  split; [exact chain_called|]. split; [exact chain_parents_first|]. split; [exact Hin|].
  apply (verify_chain_total toy_uuid chain flipped_chain row_900 None true 9 chain_called chain_unique chain_parents_first Hin).
  rewrite H4. lia.
Defined.

(** ** A record that is its own parent *)

(** [sign_provenance] signs and stores a re-partition record whose parent is
    the record itself; [verify_chain] then recurses without end. *)
Definition looping_record : ProvenanceRecord := repartition_record 20 record_a 20 77 reason.
Definition looping : W := (sign_provenance looping_record ARN DEFAULT_SIGNATURE_ALG true initial).2.
Definition looping_row : Signed := List.hd (mkSigned record_a [] [] [] [] []) (rows (w_store looping)).

Lemma looping_facts : (canonical_record_bytes (record looping_row) = Ok (canonical_bytes looping_row) /\
    _verify_signature [7; 7; 7] (canonical_bytes looping_row) (signature looping_row) (signature_alg looping_row) = Ok true) /\
  kms_get_public_key (kms_key_arn looping_row) (kms_key_version looping_row) (w_signer looping) =
    (Ok [(str "PublicKey", VBytes [7; 7; 7])], w_signer looping) /\
  ps_get 20 (w_store looping) = (Ok (Some looping_row), w_store looping) /\
  is_repartition looping_row = true /\ pr_parent (record looping_row) = Some 20.
Proof. vm_compute. repeat split. Qed.

Lemma self_parent_undecided fuel : (verify_chain fuel looping_row None true looping).1 = Raise OutOfFuel.
Proof.
  destruct looping_facts as ((H1 & H2) & H3 & H4 & H5 & H6).
  assert (Hk : key_read looping_row looping = looping) by (unfold key_read; rewrite H3; by destruct looping).
  assert (Hv : row_verifies looping_row None (w_signer looping) [7; 7; 7]).
  { exact (ex_intro _ _ (ex_intro _ _ (conj H1 (conj (f_equal fst H3) (conj eq_refl (conj H2 I)))))). }
  exact (f_equal fst (verify_self looping_row None [7; 7; 7] 20 looping Hv Hk H5 H6 H4 fuel)).
Qed.

(** * Attestations of a sample scan

    A scan whose oracle findings differ from run to run, and whose core
    findings do not. *)

#[local] Existing Instance sample_runtime.

(** The runs alternate between two sets of findings. *)
Definition run_findings (n : nat) : list WorkerFinding :=
  if Nat.even n then [sample_core; sample_oracle; sample_oracle_2] else [sample_oracle_2; sample_core].

Definition sample_runner : @ScanRunner nat := fun _ n => (normalize (run_findings n) sample_params, S n).

Definition untriaged : pystr -> option pystr := fun _ => None.

Definition attest (partition : string) : outcome AttestationVerdict * @AttestWorld nat :=
  attest_scan untriaged 5 (str partition) (str "1.2.0") (str "sha256:00") (Some sample_runner) None (mkAttest 0%nat []).

(** The facts of both attestations: the results, the rate, the metric. *)
Definition shown (r : outcome AttestationVerdict * @AttestWorld nat) : option (pystr * option Z) * list Z :=
  (match r.1 with Ok v => Some (v_result v, v_reproduction_rate v) | Raise _ => None end, a_core_diffs r.2).

Lemma core_shown : shown (attest "core") = (Some (str "pass", None), [0]).
Proof. vm_compute. reflexivity. Qed.

Lemma oracle_shown : shown (attest "oracle") = (Some (str "rate-only", Some 5000), []).
Proof. vm_compute. reflexivity. Qed.

Lemma shown_Ok r x l : shown r = (Some x, l) -> exists v, r = (Ok v, r.2).
Proof. unfold shown. destruct r as [[v|] w]; [by exists v|done]. Qed.

Lemma sample_emits : emits sample_runner 5 sample_params [sample_core].
Proof.
  intros n log n' [= E _]. exists (run_findings n). split; [exact E|]. unfold run_findings. by destruct (Nat.even n).
Qed.

Lemma attest_core_determinism_witness : exists v w', attest "core" = (Ok v, w') /\
  emits sample_runner 5 sample_params [sample_core] /\ v_result v = str "pass" /\ v_diff_summary v = None.
Proof.
  destruct (shown_Ok _ _ _ core_shown) as [v E]. exists v, (attest "core").2. split; [exact E|]. split; [exact sample_emits|]. unfold attest in E.
  destruct (attest_core_determinism untriaged 5 (str "1.2.0") (str "sha256:00") sample_runner None (mkAttest 0%nat []) v
    _ sample_params [sample_core] E) as (_ & log1 & log2 & x1 & x2 & _ & _ & _ & _ & H1 & _ & H2).
  destruct (H2 sample_emits) as [H3 _]. split; [exact H3|exact (proj1 (H1 H3))].
Defined.

Lemma attest_oracle_rate_witness : exists v w', attest "oracle" = (Ok v, w') /\ v_result v = str "rate-only".
Proof.
  destruct (shown_Ok _ _ _ oracle_shown) as [v E]. exists v, (attest "oracle").2. split; [exact E|]. unfold attest in E.
  exact (proj1 (attest_oracle_rate untriaged 5 (str "1.2.0") (str "sha256:00") sample_runner None (mkAttest 0%nat []) v _ E)).
Defined.

(** The core pipeline does not run while the triage is on, nor by default. *)
Example triage_refused : attest_scan (fun _ => Some (str "on")) 5 (str "core") [] [] (Some sample_runner) None (mkAttest 0%nat []) =
  (Raise AttestorConfigurationError, mkAttest 0%nat []).
Proof. reflexivity. Qed.

Example default_refused : attest_scan (X := nat) untriaged 5 (str "oracle") [] [] None None (mkAttest 0%nat []) =
  (Raise NotImplementedError, mkAttest 0%nat []).
Proof. reflexivity. Qed.
