(* ===== verification/ObjectStore.v ===== *)
(** * The object store ([services/substrate/object_store.py])

    The key scheme of the snapshot artifacts, the guard every store runs
    before it touches an object, and the stores: in memory, and over an S3
    client, which is code outside the repository. *)
From stdpp Require Import base tactics list gmap strings.
From Stdlib Require Import ZArith Lia.
From S2P Require Import Prelude PyData PyDict PyText JsonParse JsonSpec DslParser.

Open Scope Z_scope.
Open Scope py_scope.
Open Scope st_scope.

Definition SNAPSHOT_ARTIFACT_SUFFIXES : list (pystr * pystr) :=
  [(str "cpg_tarball", str "cpg.tar.zst");
   (str "reverse_symbol_index", str "reverse_symbol_index.json.zst");
   (str "dynamic_call_graph", str "dyn_call_graph.json.zst");
   (str "delta_graph", str "delta_graph.json.zst");
   (str "precondition_status", str "precondition_status.json")].

Definition SNAPSHOT_ARTIFACT_TYPES : list pystr := map fst SNAPSHOT_ARTIFACT_SUFFIXES.

(** [t in s] *)
Fixpoint contains (t s : pystr) : bool :=
  bool_decide (is_Some (strip t s)) || match s with [] => false | _ :: s => contains t s end.

(** [str.casefold] folds each character on its own; what it makes of a
    character outside ASCII is data of the Unicode database. *)
Class CaseFolding := { fold_char : Z -> pystr }.

Section keys.
Context `{CaseFolding}.

Definition casefold (s : pystr) : pystr :=
  concat (map (fun c => if c <? 128 then [ascii_lower c] else fold_char c) s).

Definition _FORBIDDEN_SUBSTRINGS : list pystr :=
  [str "/"; str "\"; str ".."; str "%2e"; str "%2f"; str "%5c"; [0]].

Definition _validate_component (value : pystr) : outcome pystr :=
  if bool_decide (value = []) then Raise PathTraversalError
  else if existsb (fun token => contains token (casefold value)) _FORBIDDEN_SUBSTRINGS then Raise PathTraversalError
  else Ok value.

Record SnapshotKeyBuilder := mkKeyBuilder {
  kb_org_id : pystr;
  kb_codebase_id : pystr;
  kb_commit_sha : pystr;
  kb_env_digest : pystr
}.

Definition check_key_builder (b : SnapshotKeyBuilder) : outcome unit :=
  _ ⇐ _validate_component (kb_org_id b);
  _ ⇐ _validate_component (kb_codebase_id b);
  _ ⇐ _validate_component (kb_commit_sha b);
  _ ⇐ _validate_component (kb_env_digest b);
  Ok tt.

Definition org_prefix (org_id : pystr) : pystr := str "orgs/" ++ org_id ++ str "/".

Definition prefix (b : SnapshotKeyBuilder) : pystr :=
  org_prefix (kb_org_id b) ++ str "codebases/" ++ kb_codebase_id b ++ str "/snapshots/" ++ kb_commit_sha b ++ str "/" ++
  kb_env_digest b ++ str "/".

Definition artifact_key (b : SnapshotKeyBuilder) (artifact_type : pystr) : outcome pystr :=
  match dict_get SNAPSHOT_ARTIFACT_SUFFIXES artifact_type with
  | None => Raise ObjectStoreError
  | Some suffix => Ok (prefix b ++ suffix)
  end.

(** A dict in the order of the artifact types *)
Definition all_artifact_keys (b : SnapshotKeyBuilder) : outcome (list (pystr * pystr)) :=
  mapO (fun t => k ⇐ artifact_key b t; Ok (t, k)) SNAPSHOT_ARTIFACT_TYPES.

Definition KEY_TOKENS : list pystr := [str ".."; str "%2e"; str "%5c"; str "\"; [0]].

Definition _guard_key (org_id key : pystr) : outcome pystr :=
  _ ⇐ _validate_component org_id;
  if existsb (fun token => contains token (casefold key)) KEY_TOKENS then Raise PathTraversalError
  else if bool_decide (is_Some (strip (org_prefix org_id) key)) then Ok key
  else Raise CrossTenantAccessError.

(** The interface: operations on a state [B]. *)
Record ObjectStore (B : Type) := mkStore {
  os_put : pystr -> pystr -> pybytes -> St B unit;
  os_get : pystr -> pystr -> St B pybytes
}.

Record InMemoryObjectStore := mkMemory { _objects : gmap pystr pybytes }.

Definition memory_put (org_id key : pystr) (body : pybytes) : St InMemoryObjectStore unit :=
  resolved ⟸ slift (_guard_key org_id key);
  sput (fun m => mkMemory (<[resolved := body]> (_objects m))).

Definition memory_get (org_id key : pystr) : St InMemoryObjectStore pybytes :=
  resolved ⟸ slift (_guard_key org_id key);
  found ⟸ sget (fun m => _objects m !! resolved);
  match found with Some body => sret body | None => sraise ObjectStoreError end.

Definition memory_object_store : ObjectStore InMemoryObjectStore := mkStore _ memory_put memory_get.

(** A boto3 client, by bucket and key; [get_object] answers [None] for [NoSuchKey]. *)
Class S3Client (C : Type) := {
  put_object : pystr -> pystr -> pybytes -> St C unit;
  get_object : pystr -> pystr -> St C (option pybytes)
}.

Section s3.
Context {C : Type} `{!S3Client C}.

Definition s3_put (bucket org_id key : pystr) (body : pybytes) : St C unit :=
  resolved ⟸ slift (_guard_key org_id key);
  put_object bucket resolved body.

Definition s3_get (bucket org_id key : pystr) : St C pybytes :=
  resolved ⟸ slift (_guard_key org_id key);
  response ⟸ get_object bucket resolved;
  match response with Some body => sret body | None => sraise ObjectStoreError end.

Definition S3ObjectStore (bucket : pystr) : ObjectStore C := mkStore _ (s3_put bucket) (s3_get bucket).
End s3.
End keys.
Arguments os_put {B} _ _ _ _.
Arguments os_get {B} _ _ _.

(** * Tenants of the object store

    Every store runs [_guard_key] first, so the organisations do not
    interfere: what one reads depends on its own operations alone. *)

(** ** Substrings *)

Lemma contains_spec t s : contains t s = true <-> exists a b, s = a ++ t ++ b.
Proof.
  induction s as [|c s IH]; cbn [contains]; rewrite orb_true_iff, bool_decide_eq_true.
  - split; [intros [[r Hr%strip_Some]|[=]]; by exists [], r|].
    intros (a & b & E). symmetry in E. apply app_nil in E as [-> E]. left. exists b. by apply strip_Some.
  - rewrite IH. split.
    + intros [[r Hr%strip_Some]|(a & b & ->)]; [by exists [], r|by exists (c :: a), b].
    + intros (a & b & E). destruct a as [|d a]; [left; exists b; by apply strip_Some|]. injection E as <- ->. right. by exists a, b.
Qed.

Lemma contains_app t a b : contains t a = true -> contains t (a ++ b) = true.
Proof. rewrite !contains_spec. intros (x & y & ->). exists x, (y ++ b). by rewrite <-!app_assoc. Qed.

Lemma contains_app_r t a b : contains t b = true -> contains t (a ++ b) = true.
Proof. rewrite !contains_spec. intros (x & y & ->). exists (a ++ x), y. by rewrite <-!app_assoc. Qed.

(** A text without the separator lies on one side of it. *)
Lemma contains_separated sep t a b : t <> [] -> sep ∉ t -> contains t (a ++ sep :: b) = contains t a || contains t b.
Proof.
  intros Hne Hsep. apply eq_true_iff_eq. rewrite orb_true_iff. split.
  - rewrite contains_spec. intros (x & y & E). apply app_eq_app in E as [l [[Ea Eb]|[Ex Eb]]].
    + left. rewrite contains_spec. destruct (app_eq_app _ _ _ _ Eb) as [l' [[-> El]|[-> El]]].
      * destruct l' as [|c l']; [exists x, []; by rewrite Ea, !app_nil_r|]. injection El as <- _. exfalso. set_solver.
      * by exists x, l'.
    + destruct l as [|c l]; [left|right]; rewrite contains_spec.
      * cbn in Eb. destruct t as [|c t]; [done|]. injection Eb as <- _. set_solver.
      * injection Eb as <- ->. by exists l, y.
  - intros [?|?]; [by apply contains_app|]. apply contains_app_r. change (sep :: b) with ([sep] ++ b). by apply contains_app_r.
Qed.

Section casefold.
Context `{CaseFolding}.

Lemma casefold_app a b : casefold (a ++ b) = casefold a ++ casefold b.
Proof. unfold casefold. by rewrite map_app, concat_app. Qed.

Lemma casefold_in c s : 0 <= c < 128 -> ascii_lower c = c -> c ∈ s -> c ∈ casefold s.
Proof.
  intros Hc Hl (a & b & ->)%list_elem_of_split. change (c :: b) with ([c] ++ b). rewrite !casefold_app. unfold casefold at 2. cbn [map concat].
  replace (c <? 128) with true by lia. rewrite Hl. set_solver.
Qed.

(** ** Components and keys *)

Lemma validate_component_Ok value v : _validate_component value = Ok v -> v = value /\ value <> [] /\
  (forall token, token ∈ _FORBIDDEN_SUBSTRINGS -> contains token (casefold value) = false) /\ 47 ∉ value.
Proof.
  unfold _validate_component. case_bool_decide; [done|]. destruct (existsb _ _) eqn:E; [done|]. intros [= <-].
  assert (F : forall token, token ∈ _FORBIDDEN_SUBSTRINGS -> contains token (casefold value) = false).
  { intros token Ht. destruct (contains token (casefold value)) eqn:C; [|done].
    rewrite (proj2 (existsb_exists _ _)) in E; [done|]. exists token. by rewrite <-list_elem_of_In. }
  split_and!; try done. intros Hs. assert (C : contains (str "/") (casefold value) = true); [|rewrite F in C by (left; done); done].
  apply (casefold_in 47) in Hs; [|done..]. apply list_elem_of_split in Hs as (a & b & ->). apply contains_spec. by exists a, b.
Qed.

Definition under (org_id key : pystr) : Prop := exists r, key = org_prefix org_id ++ r.

#[export] Instance under_dec org_id key : Decision (under org_id key).
Proof.
  refine (cast_if (decide (is_Some (strip (org_prefix org_id) key)))); unfold under.
  - abstract (destruct i as [r Hr%strip_Some]; by exists r).
  - abstract (intros [r Hr%strip_Some]; apply n; by exists r).
Defined.

Lemma guard_key_Ok org_id key k : _guard_key org_id key = Ok k ->
  k = key /\ _validate_component org_id = Ok org_id /\ under org_id key.
Proof.
  unfold _guard_key. intros E. apply obind_Ok in E as (v & Hv & E). pose proof (validate_component_Ok _ _ Hv) as (-> & _).
  destruct (existsb _ _); [done|]. case_bool_decide as Hp; [|done]. injection E as <-. split_and!; try done.
  destruct Hp as [r Hr%strip_Some]. by exists r.
Qed.

Lemma separated_inj sep (a a' b b' : pystr) : sep ∉ a -> sep ∉ a' -> a ++ sep :: b = a' ++ sep :: b' -> a = a' /\ b = b'.
Proof.
  revert a'. induction a as [|c a IH]; intros [|c' a'] H1 H2 E; cbn in E; simplify_eq; try set_solver.
  destruct (IH a') as [-> ->]; [set_solver..|done|done].
Qed.

(** No key lies under two organisations. *)
Lemma under_unique o o' v v' key : _validate_component o = Ok v -> _validate_component o' = Ok v' ->
  under o key -> under o' key -> o = o'.
Proof.
  intros (_ & _ & _ & Ho)%validate_component_Ok (_ & _ & _ & Ho')%validate_component_Ok [r ->] [r' E].
  unfold org_prefix in E. rewrite <-!app_assoc in E. apply app_inv_head in E. by apply separated_inj in E as [-> _].
Qed.

(** The keys a builder mints are accepted for its own organisation. *)
Lemma check_key_builder_Ok b u : check_key_builder b = Ok u ->
  Forall (fun v => _validate_component v = Ok v) [kb_org_id b; kb_codebase_id b; kb_commit_sha b; kb_env_digest b].
Proof.
  unfold check_key_builder. intros E.
  repeat match goal with E : obind _ _ = Ok _ |- _ => apply obind_Ok in E as (? & ? & E) end.
  repeat constructor; match goal with H : _validate_component ?x = Ok _ |- _validate_component ?x = _ =>
    rewrite H; f_equal; by apply validate_component_Ok in H as [-> _] end.
Qed.

Lemma artifact_key_Ok b t k : artifact_key b t = Ok k ->
  exists suffix, (t, suffix) ∈ SNAPSHOT_ARTIFACT_SUFFIXES /\ k = prefix b ++ suffix.
Proof.
  unfold artifact_key. destruct (dict_get _ t) as [s|] eqn:E; [|done]. intros [= <-]. exists s. split; [|done].
  revert E. generalize SNAPSHOT_ARTIFACT_SUFFIXES. intros l. induction l as [|[t' s'] l IH]; [done|]. cbn [dict_get]. unfold str_eqb.
  case_bool_decide as E; [intros [= ->]; subst; left|]. intros ?%IH. by right.
Qed.

Lemma artifact_key_under b t k : artifact_key b t = Ok k -> under (kb_org_id b) k.
Proof. intros (s & _ & ->)%artifact_key_Ok. eexists. unfold prefix. by rewrite <-!app_assoc. Qed.

Lemma casefold_slash a b : casefold (a ++ 47 :: b) = casefold a ++ 47 :: casefold b.
Proof. by rewrite casefold_app. Qed.

Lemma artifact_key_guarded b u t k : check_key_builder b = Ok u -> artifact_key b t = Ok k -> _guard_key (kb_org_id b) k = Ok k.
Proof.
  intros Hb%check_key_builder_Ok Hk. pose proof (artifact_key_under _ _ _ Hk) as [r Hr].
  apply artifact_key_Ok in Hk as (s & Hs & Ek). unfold _guard_key.
  rewrite Forall_cons, Forall_cons, Forall_cons, Forall_cons in Hb. destruct Hb as (H1 & H2 & H3 & H4 & _).
  rewrite H1. cbn [obind]. replace (existsb _ _) with false.
  { rewrite bool_decide_true; [done|]. exists r. by apply strip_Some. }
  symmetry. apply not_true_iff_false. rewrite existsb_exists. intros (token & Ht%list_elem_of_In & C).
  assert (Hf : token ∈ _FORBIDDEN_SUBSTRINGS) by (revert Ht; unfold KEY_TOKENS, _FORBIDDEN_SUBSTRINGS; set_solver).
  assert (Hne : token <> [] /\ 47 ∉ token).
  { clear C Hf. revert token Ht. apply Forall_forall. decided. }
  destruct Hne as [Hne Hsl]. revert C. rewrite Ek. unfold prefix, org_prefix.
  change (str "orgs/") with (str "orgs" ++ [47]). change (str "codebases/") with (str "codebases" ++ [47]).
  change (str "/snapshots/") with ([47] ++ str "snapshots" ++ [47]). change (str "/") with [47].
  rewrite <-!app_assoc. cbn [app]. rewrite !casefold_slash, !contains_separated by done.
  apply validate_component_Ok in H1 as (_ & _ & F1 & _), H2 as (_ & _ & F2 & _), H3 as (_ & _ & F3 & _), H4 as (_ & _ & F4 & _).
  rewrite F1, F2, F3, F4 by done. cbn [orb].
  assert (Hlit : Forall (fun t => Forall (fun l => contains t l = false)
    (casefold (str "orgs") :: casefold (str "codebases") :: casefold (str "snapshots") :: map (fun p => casefold p.2) SNAPSHOT_ARTIFACT_SUFFIXES)) KEY_TOKENS).
  { repeat constructor. }
  rewrite Forall_forall in Hlit. specialize (Hlit _ Ht). rewrite !Forall_cons in Hlit. destruct Hlit as (L1 & L2 & L3 & L4).
  rewrite L1, L2, L3. cbn [orb]. rewrite Forall_forall in L4. rewrite L4; [done|]. apply list_elem_of_fmap. by exists (t, s).
Qed.

(** The key tells the snapshot and the artifact apart. *)
Lemma artifact_key_inj b b' u u' t t' k : check_key_builder b = Ok u -> check_key_builder b' = Ok u' ->
  artifact_key b t = Ok k -> artifact_key b' t' = Ok k -> b = b' /\ t = t'.
Proof.
  intros Hb%check_key_builder_Ok Hb'%check_key_builder_Ok (s & Hs & ->)%artifact_key_Ok (s' & Hs' & E)%artifact_key_Ok.
  assert (N : forall x, _validate_component x = Ok x -> 47 ∉ x) by (intros x Hx; by apply validate_component_Ok in Hx as (_ & _ & _ & ?)).
  rewrite !Forall_cons in Hb, Hb'. destruct Hb as (H1 & H2 & H3 & H4 & _), Hb' as (H1' & H2' & H3' & H4' & _).
  unfold prefix, org_prefix in E. rewrite <-!app_assoc in E. apply app_inv_head in E.
  apply separated_inj in E as [E1 E]; [|auto..]. apply app_inv_head in E.
  apply (separated_inj 47) in E as [E2 E]; [|auto..]. apply (app_inv_head (str "snapshots/")) in E.
  apply (separated_inj 47) in E as [E3 E]; [|auto..]. apply (separated_inj 47) in E as [E4 E]; [|auto..].
  split; [destruct b, b'; cbn in *; congruence|]. subst s'.
  assert (D : Forall (fun p => Forall (fun q : pystr * pystr => p.2 = q.2 -> p.1 = q.1) SNAPSHOT_ARTIFACT_SUFFIXES) SNAPSHOT_ARTIFACT_SUFFIXES).
  { decided. }
  rewrite Forall_forall in D. specialize (D _ Hs). rewrite Forall_forall in D. by apply (D _ Hs').
Qed.

(** ** Interference *)

(** What a lawful store does: the guard comes first, a write that returns is
    done, one that raises may be done or not, and a read answers what is
    stored, or raises. *)
Class LawfulStore {B} (s : ObjectStore B) := {
  objects : B -> gmap pystr pybytes;
  put_refused : forall org key body b e, _guard_key org key = Raise e -> os_put s org key body b = (Raise e, b);
  put_effect : forall org key body b r b', os_put s org key body b = (r, b') -> _guard_key org key = Ok key ->
    objects b' = <[key := body]> (objects b) \/ ((exists e, r = Raise e) /\ objects b' = objects b);
  get_refused : forall org key b e, _guard_key org key = Raise e -> os_get s org key b = (Raise e, b);
  get_effect : forall org key b r b', os_get s org key b = (r, b') -> objects b' = objects b /\
    (forall body, r = Ok body -> _guard_key org key = Ok key /\ objects b !! key = Some body)
}.

#[export] Program Instance memory_lawful : LawfulStore memory_object_store := { objects := _objects }.
Next Obligation. intros org key body b e E. cbn. unfold memory_put, sbind, slift. by rewrite E. Qed.
Next Obligation. intros org key body b r b' E G. cbn in E. unfold memory_put, sbind, slift in E. rewrite G in E. injection E as _ <-. by left. Qed.
Next Obligation. intros org key b e E. cbn. unfold memory_get, sbind, slift. by rewrite E. Qed.
Next Obligation.
  intros org key b r b' E. cbn in E. unfold memory_get, sbind, slift, sget in E.
  destruct (_guard_key org key) as [k|e] eqn:G; [|by injection E as <- <-]. pose proof (guard_key_Ok _ _ _ G) as (-> & _).
  destruct (_objects b !! key) eqn:L; injection E as <- <-; split; try done. by intros body' [= <-].
Qed.

Inductive Op := Put (org_id key : pystr) (body : pybytes) | Get (org_id key : pystr).

Definition op_org (op : Op) : pystr := match op with Put o _ _ | Get o _ => o end.

(** A request and its answer: the object read, or nothing for a write. *)
Definition perform (op : Op) (m : InMemoryObjectStore) : outcome (option pybytes) * InMemoryObjectStore :=
  match op with
  | Put o k body => (_ ⟸ memory_put o k body; sret None) m
  | Get o k => (body ⟸ memory_get o k; sret (Some body)) m
  end.

Fixpoint performs (ops : list Op) (m : InMemoryObjectStore) : list (pystr * outcome (option pybytes)) * InMemoryObjectStore :=
  match ops with
  | [] => ([], m)
  | op :: ops => let '(r, m) := perform op m in let '(rs, m) := performs ops m in ((op_org op, r) :: rs, m)
  end.

(** Two stores with the same objects under [org_id]. *)
Definition same_view (org_id : pystr) (m m' : InMemoryObjectStore) : Prop := forall key, under org_id key -> _objects m !! key = _objects m' !! key.

Lemma perform_own op m m' : same_view (op_org op) m m' ->
  (perform op m).1 = (perform op m').1 /\ same_view (op_org op) (perform op m).2 (perform op m').2.
Proof.
  destruct op as [o k body|o k]; cbn; unfold memory_put, memory_get, sbind, slift, sput, sget, sret;
    destruct (_guard_key o k) as [k'|e] eqn:G; intros V; try done; apply guard_key_Ok in G as (-> & _ & U).
  - split; [done|]. intros key Hk. cbn. destruct (decide (k = key)) as [->|]; [by rewrite !lookup_insert_eq|].
    rewrite !lookup_insert_ne by done. by apply V.
  - rewrite (V k U). by destruct (_objects m' !! k).
Qed.

Lemma perform_other o v op m : _validate_component o = Ok v -> op_org op <> o -> same_view o (perform op m).2 m.
Proof.
  intros Hv Ho. destruct op as [o' k body|o' k]; cbn in *; unfold memory_put, memory_get, sbind, slift, sput, sget, sret;
    destruct (_guard_key o' k) as [k'|e] eqn:G; try done; pose proof (guard_key_Ok _ _ _ G) as (-> & Hv' & U).
  - intros key Hk. cbn. apply lookup_insert_ne. intros ->. apply Ho. by apply (under_unique o' o _ _ key Hv' Hv).
  - by destruct (_objects m !! k).
Qed.

(** C24: organisations do not interfere through the store.  In any sequence
    of reads and writes by any organisations, with any keys, the answers one
    organisation gets and the objects under its prefix are those of its own
    operations alone, from any store that shows it the same objects. *)
Theorem object_store_isolated o v ops : _validate_component o = Ok v -> forall m m', same_view o m m' ->
  let own := List.filter (fun op => str_eqb (op_org op) o) ops in
  List.filter (fun p => str_eqb p.1 o) (performs ops m).1 = (performs own m').1 /\
  same_view o (performs ops m).2 (performs own m').2.
Proof.
  intros Hv. induction ops as [|op ops IH]; intros m m' V; [done|]. cbn zeta in *. cbn [performs List.filter].
  destruct (perform op m) as [r m1] eqn:E. destruct (str_eqb (op_org op) o) eqn:Eo.
  - apply bool_decide_eq_true in Eo as <-. destruct (perform_own op m m' V) as [Er Vr]. rewrite E in Er, Vr. cbn in Er, Vr.
    cbn [performs]. destruct (perform op m') as [r' m1'] eqn:E'. cbn in Er, Vr. subst r'. destruct (IH m1 m1' Vr) as [I1 I2].
    destruct (performs ops m1) as [rs m2], (performs _ m1') as [rs' m2']. cbn in *. unfold str_eqb at 1. rewrite bool_decide_true by done.
    by rewrite I1.
  - pose proof Eo as Hne%bool_decide_eq_false. pose proof (perform_other o v op m Hv Hne) as Vo. rewrite E in Vo. cbn in Vo.
    destruct (IH m1 m') as [I1 I2]; [intros key Hk; by rewrite Vo, V|].
    destruct (performs ops m1) as [rs m2]. cbn in *. by rewrite Eo.
Qed.
End casefold.
