(* ===== verification/SnapshotService.v ===== *)
(** * The snapshot service ([services/snapshot/service.py], [models.py])

    A snapshot is requested, its keys minted and a job enqueued; when the
    worker reports, the artifacts are stored and then the row that refers to
    them.  The object store and the queue are the interfaces of [ObjectStore]
    and [Queue]. *)
From stdpp Require Import base tactics list gmap strings.
From Stdlib Require Import ZArith Lia.
From S2P Require Import Prelude PyData PyDict PyText Identity JsonParse Queue ObjectStore.

Open Scope Z_scope.
Open Scope py_scope.
Open Scope st_scope.

(** [fullmatch] of [^[0-9a-f]{40}$] and of [^sha256:[0-9a-f]{64}$] *)
Definition _COMMIT_SHA_RE (s : pystr) : bool := (Z.of_nat (length s) =? 40) && forallb is_lower_hex s.

Definition _ENV_DIGEST_RE (s : pystr) : bool := match strip (str "sha256:") s with Some d => hex64 d | None => false end.

Definition _PRECONDITION_VALUES : list pystr := map str ["closed-world"; "degraded"; "full-reparse"].

Record SnapshotRequest := mkSnapshotRequest {
  rq_org_id : UUID;
  rq_codebase_id : UUID;
  rq_commit_sha : pystr;
  rq_parent_snapshot_id : option UUID
}.

Record SnapshotAccepted := mkAccepted {
  acc_snapshot_id : UUID;
  acc_artifact_keys : list (pystr * pystr);
  acc_env_digest : pystr
}.

(** A row; [created_at] and [expires_at] are left to the database. *)
Record SnapshotRow := mkRow {
  row_id : UUID;
  row_org_id : UUID;
  row_codebase_id : UUID;
  row_commit_sha : pystr;
  row_env_digest : pystr;
  row_precondition_status : pystr;
  row_cpg_tarball_uri : pystr;
  row_reverse_symbol_index_uri : pystr;
  row_dynamic_call_graph_uri : pystr;
  row_delta_g_uri : option pystr;
  row_precondition_status_record_uri : pystr;
  row_parent_snapshot_id : option UUID
}.

(** The format constraints of the table. *)
Definition snapshots_commit_sha_chk (r : SnapshotRow) : bool := _COMMIT_SHA_RE (row_commit_sha r).
Definition snapshots_env_digest_chk (r : SnapshotRow) : bool := _ENV_DIGEST_RE (row_env_digest r).
Definition snapshots_precondition_status_chk (r : SnapshotRow) : bool :=
  bool_decide (row_precondition_status r ∈ _PRECONDITION_VALUES).

(** [SCANIPY_ENV_DIGEST], of an environment *)
Definition env_var_env_digest_provider (environ : pystr -> option pystr) : option pystr :=
  match environ (str "SCANIPY_ENV_DIGEST") with Some [] => None | v => v end.

Class SnapshotStore (R : Type) := {
  ss_put : SnapshotRow -> St R unit;
  ss_get : UUID -> St R (option SnapshotRow)
}.

Record InMemorySnapshotStore := mkRows { _rows : gmap UUID SnapshotRow }.

Definition rows_put (row : SnapshotRow) : St InMemorySnapshotStore unit :=
  sput (fun m => mkRows (<[row_id row := row]> (_rows m))).
Definition rows_get (id : UUID) : St InMemorySnapshotStore (option SnapshotRow) := sget (fun m => _rows m !! id).

#[export] Instance in_memory_rows : SnapshotStore InMemorySnapshotStore := {| ss_put := rows_put; ss_get := rows_get |}.

Definition _guard_env_digest (candidate : option pystr) : outcome pystr :=
  match candidate with
  | Some digest => if _ENV_DIGEST_RE digest then Ok digest else Raise (InvariantViolation "invariant_inv2_violation")
  | None => Raise (InvariantViolation "invariant_inv2_violation")
  end.

(** The collaborators' states and the number of identifiers drawn. *)
Record ServiceWorld (B Q R : Type) := mkService { s_objects : B; s_queue : Q; s_rows : R; s_drawn : nat }.
Arguments mkService {B Q R} _ _ _ _.
Arguments s_objects {B Q R} _.
Arguments s_queue {B Q R} _.
Arguments s_rows {B Q R} _.
Arguments s_drawn {B Q R} _.

Section service.
Context `{CaseFolding} {B Q R : Type} `{!Queue Q, !SnapshotStore R}.
Variable object_store : ObjectStore B.
Variable env_digest_provider : option pystr.
Variable uuid4 : nat -> UUID.

Notation W := (ServiceWorld B Q R).

Definition on_objects {A} (m : St B A) : St W A :=
  fun w => let '(r, b) := m (s_objects w) in (r, mkService b (s_queue w) (s_rows w) (s_drawn w)).
Definition on_queue {A} (m : St Q A) : St W A :=
  fun w => let '(r, q) := m (s_queue w) in (r, mkService (s_objects w) q (s_rows w) (s_drawn w)).
Definition on_rows {A} (m : St R A) : St W A :=
  fun w => let '(r, t) := m (s_rows w) in (r, mkService (s_objects w) (s_queue w) t (s_drawn w)).
Definition draw_snapshot_id : St W UUID :=
  fun w => (Ok (uuid4 (s_drawn w)), mkService (s_objects w) (s_queue w) (s_rows w) (S (s_drawn w))).

Definition _resolve_env_digest (image_digest : option pystr) : outcome pystr :=
  _guard_env_digest (match image_digest with Some _ => image_digest | None => env_digest_provider end).

Definition key_builder (req : SnapshotRequest) (env_digest : pystr) : SnapshotKeyBuilder :=
  mkKeyBuilder (uuid_str (rq_org_id req)) (uuid_str (rq_codebase_id req)) (rq_commit_sha req) env_digest.

Definition snapshot_message (snapshot_id : UUID) (req : SnapshotRequest) (env_digest : pystr) : Body :=
  [(str "snapshot_id", uuid_str snapshot_id);
   (str "org_id", uuid_str (rq_org_id req));
   (str "codebase_id", uuid_str (rq_codebase_id req));
   (str "commit_sha", rq_commit_sha req);
   (str "env_digest", env_digest);
   (str "parent_snapshot_id", match rq_parent_snapshot_id req with None => [] | Some p => uuid_str p end)].

Definition create_snapshot (req : SnapshotRequest) (image_digest : option pystr) : St W SnapshotAccepted :=
  if negb (_COMMIT_SHA_RE (rq_commit_sha req)) then sraise (InvariantViolation "invalid_commit_sha")
  else
    (env_digest ⟸ slift (_resolve_env_digest image_digest);
     snapshot_id ⟸ draw_snapshot_id;
     let builder := key_builder req env_digest in
     _ ⟸ slift (check_key_builder builder);
     artifact_keys ⟸ slift (all_artifact_keys builder);
     on_queue (q_send (snapshot_message snapshot_id req env_digest) (uuid_str snapshot_id)) ⨟
     sret (mkAccepted snapshot_id artifact_keys env_digest)).

(** [keys[t]] *)
Definition key_at (keys : list (pystr * pystr)) (t : pystr) : outcome pystr :=
  match dict_get keys t with Some k => Ok k | None => Raise KeyError end.

Definition DELTA : pystr := str "delta_graph".

(** One round of the loop over the artifact types *)
Definition store_artifact (org_id : pystr) (keys : list (pystr * pystr)) (bodies : list (pystr * pybytes))
    (artifact_type : pystr) : St W unit :=
  if str_eqb artifact_type DELTA then sret tt
  else match dict_get bodies artifact_type with
  | None => sraise (InvariantViolation "missing_artifact")
  | Some body => k ⟸ slift (key_at keys artifact_type); on_objects (os_put object_store org_id k body)
  end.

Definition store_delta (org_id : pystr) (keys : list (pystr * pystr)) (bodies : list (pystr * pybytes)) : St W (option pystr) :=
  match dict_get bodies DELTA with
  | None => sret None
  | Some body => k ⟸ slift (key_at keys DELTA); on_objects (os_put object_store org_id k body) ⨟ sret (Some k)
  end.

Definition record_completion (accepted : SnapshotAccepted) (req : SnapshotRequest) (precondition_status : pystr)
    (artifact_bodies : list (pystr * pybytes)) : St W SnapshotRow :=
  env_digest ⟸ slift (_guard_env_digest (Some (acc_env_digest accepted)));
  if negb (bool_decide (precondition_status ∈ _PRECONDITION_VALUES)) then sraise (InvariantViolation "invalid_precondition_status")
  else
    let keys := acc_artifact_keys accepted in
    let org_id := uuid_str (rq_org_id req) in
    sfold (fun _ => store_artifact org_id keys artifact_bodies) tt SNAPSHOT_ARTIFACT_TYPES ⨟
    (delta_g_uri ⟸ store_delta org_id keys artifact_bodies;
     cpg ⟸ slift (key_at keys (str "cpg_tarball"));
     index ⟸ slift (key_at keys (str "reverse_symbol_index"));
     calls ⟸ slift (key_at keys (str "dynamic_call_graph"));
     status ⟸ slift (key_at keys (str "precondition_status"));
     let row := mkRow (acc_snapshot_id accepted) (rq_org_id req) (rq_codebase_id req) (rq_commit_sha req) env_digest
                  precondition_status cpg index calls delta_g_uri status (rq_parent_snapshot_id req) in
     on_rows (ss_put row) ⨟
     sret row).

Definition get_snapshot (snapshot_id : UUID) : St W (option SnapshotRow) := on_rows (ss_get snapshot_id).
End service.
