(* ===== verification/SnapshotSpec.v ===== *)
(** * What the snapshot service stores

    Rows refer only to stored objects, whatever calls are made and however
    they fail; a completed snapshot stores exactly its artifacts, under keys
    no other snapshot has. *)
From stdpp Require Import base tactics list gmap strings.
From Stdlib Require Import ZArith Lia.
From S2P Require Import Prelude PyData PyDict Sha256 Ordering PyText Identity JsonParse JsonSpec DslParser Queue ObjectStore SnapshotService.

Open Scope Z_scope.
Open Scope py_scope.
Open Scope st_scope.

(** ** The keys of a request *)

(** Characters that no forbidden token consists of. *)
Definition plain_char (c : Z) : Prop := 0 <= c < 128 /\ ascii_lower c = c /\ c ∉ [47; 92; 46; 37; 0].

Section keys.
Context `{CaseFolding}.

Lemma casefold_plain v : Forall plain_char v -> casefold v = v.
Proof.
  unfold casefold. induction 1 as [|c v (Hc & Hl & _) _ IH]; [done|]. cbn [map concat]. rewrite IH, Hl.
  by replace (c <? 128) with true by lia.
Qed.

Lemma plain_component v : v <> [] -> Forall plain_char v -> _validate_component v = Ok v.
Proof.
  intros Hne Hv. unfold _validate_component. rewrite bool_decide_false by done. rewrite casefold_plain by done.
  replace (existsb _ _) with false; [done|]. symmetry. apply not_true_iff_false. rewrite existsb_exists.
  intros (token & Ht%list_elem_of_In & (a & b & ->)%contains_spec). apply Forall_app in Hv as [_ [Hv _]%Forall_app].
  assert (D : Forall (fun t => Exists (fun c => c ∈ [47; 92; 46; 37; 0]) t) _FORBIDDEN_SUBSTRINGS).
  { apply (bool_decide_unpack _). vm_compute. exact I. }
  rewrite Forall_forall in D. apply D, Exists_exists in Ht as (c & Hc & Hin). rewrite Forall_forall in Hv.
  by destruct (Hv _ Hc) as (_ & _ & []).
Qed.
End keys.

Lemma plain_lower_hex c : is_lower_hex c = true -> plain_char c.
Proof.
  intros Hc. unfold is_lower_hex in Hc. unfold plain_char, ascii_lower. split; [lia|]. split; [|rewrite !elem_of_cons, elem_of_nil; lia].
  replace ((65 <=? c) && (c <=? 90)) with false by lia. done.
Qed.

Lemma hex_plain bs : Forall is_byte bs -> Forall plain_char (hex bs).
Proof.
  assert (Hd : forall d, 0 <= d < 16 -> plain_char (hex_digit d)).
  { intros d Hd. apply plain_lower_hex. unfold is_lower_hex, hex_digit. destruct (Z.ltb_spec d 10); lia. }
  induction 1 as [|b bs [H1 H2] Hbs IH]; [constructor|]. unfold hex in *. cbn [map concat app].
  repeat constructor; try exact IH; apply Hd; div_lia.
Qed.

Lemma uuid_plain u : Forall plain_char (uuid_str u).
Proof.
  assert (Hx : Forall plain_char (hex (to_bytes 16 u))) by apply hex_plain, to_bytes_is_byte.
  assert (Hd : plain_char 45) by decided.
  unfold uuid_str. cbn zeta. revert Hx. generalize (hex (to_bytes 16 u)). intros h Hx. cbn [join].
  repeat (apply Forall_app; split); auto using Forall_take, Forall_drop.
Qed.

Lemma forallb_plain s : forallb is_lower_hex s = true -> Forall plain_char s.
Proof. rewrite forallb_forall. intros Hs. apply Forall_forall. intros c Hc. by apply plain_lower_hex, Hs, list_elem_of_In. Qed.

Lemma commit_plain s : _COMMIT_SHA_RE s = true -> s <> [] /\ Forall plain_char s.
Proof. unfold _COMMIT_SHA_RE. intros [Hl Hs]%andb_true_iff. split; [by intros ->|by apply forallb_plain]. Qed.

Lemma digest_plain s : _ENV_DIGEST_RE s = true -> s <> [] /\ Forall plain_char s.
Proof.
  unfold _ENV_DIGEST_RE. destruct (strip _ s) as [d|] eqn:E; [|done]. apply strip_Some in E as ->.
  unfold hex64. intros [_ Hd%forallb_plain]%andb_true_iff. split; [done|]. apply Forall_app. split; [|done].
  decided.
Qed.

Section requests.
Context `{CaseFolding}.

Lemma request_builder req digest : _COMMIT_SHA_RE (rq_commit_sha req) = true -> _ENV_DIGEST_RE digest = true ->
  check_key_builder (key_builder req digest) = Ok tt.
Proof.
  intros [C1 C2]%commit_plain [D1 D2]%digest_plain. unfold check_key_builder, key_builder. cbn.
  assert (U : forall u, _validate_component (uuid_str u) = Ok (uuid_str u)).
  { intros u. apply plain_component; [|apply uuid_plain]. intros E. pose proof (length_uuid_str u) as L. by rewrite E in L. }
  by rewrite !U, (plain_component (rq_commit_sha req)), (plain_component digest) by done.
Qed.

Lemma artifact_keys_eq b : exists keys, all_artifact_keys b = Ok keys /\
  keys = map (fun p => (p.1, prefix b ++ p.2)) SNAPSHOT_ARTIFACT_SUFFIXES /\
  forall t, key_at keys t = (if bool_decide (t ∈ SNAPSHOT_ARTIFACT_TYPES) then artifact_key b t else Raise KeyError).
Proof.
  exists (map (fun p => (p.1, prefix b ++ p.2)) SNAPSHOT_ARTIFACT_SUFFIXES). split; [reflexivity|]. split; [reflexivity|]. intros t. unfold key_at, artifact_key, SNAPSHOT_ARTIFACT_TYPES.
  generalize SNAPSHOT_ARTIFACT_SUFFIXES. intros l. induction l as [|[t' s] l IH]; [done|]. cbn [map dict_get fst snd]. unfold str_eqb.
  destruct (decide (t' = t)) as [->|Hne]; [by rewrite (bool_decide_true (t = t)), bool_decide_true by (done || left)|].
  rewrite bool_decide_false by done. rewrite IH. do 2 case_bool_decide; try done; [|set_solver].
  set_solver.
Qed.
End requests.

(** ** Storing the artifacts *)

Class LawfulRows (R : Type) `{SnapshotStore R} := {
  rows : R -> gmap UUID SnapshotRow;
  rows_put_effect : forall row t r t', ss_put row t = (r, t') ->
    rows t' = <[row_id row := row]> (rows t) \/ ((exists e, r = Raise e) /\ rows t' = rows t);
  rows_get_effect : forall id t r t', ss_get id t = (r, t') -> rows t' = rows t
}.

#[export] Program Instance in_memory_lawful : LawfulRows InMemorySnapshotStore := { rows := _rows }.
Next Obligation. intros row t r t' [= _ <-]. by left. Qed.
Next Obligation. by intros id t r t' [= _ <-]. Qed.

Section service.
Context `{CaseFolding} {B Q R : Type} `{!Queue Q, !SnapshotStore R, !LawfulRows R}.
Variable object_store : ObjectStore B.
Context `{!LawfulStore object_store}.
Notation W := (ServiceWorld B Q R).
Implicit Types (w : W).

Definition stored (w : W) : gmap pystr pybytes := objects (s_objects w).
Definition row_table (w : W) : gmap UUID SnapshotRow := rows (s_rows w).

(** A step that writes at most the object [k]. *)
Definition writes (org k : pystr) (body : pybytes) (w w' : W) : Prop :=
  s_queue w' = s_queue w /\ s_rows w' = s_rows w /\ s_drawn w' = s_drawn w /\
  (stored w' = stored w \/ _guard_key org k = Ok k /\ stored w' = <[k := body]> (stored w)).

Lemma put_writes org k body w r w' : on_objects (os_put object_store org k body) w = (r, w') ->
  writes org k body w w' /\ (r = Ok tt -> _guard_key org k = Ok k /\ stored w' = <[k := body]> (stored w)).
Proof.
  unfold on_objects. destruct (os_put object_store org k body (s_objects w)) as [r0 b] eqn:E. intros [= <- <-].
  unfold writes, stored. cbn. destruct (_guard_key org k) as [k'|e] eqn:G.
  - pose proof (guard_key_Ok _ _ _ G) as [-> _]. destruct (put_effect _ _ _ _ _ _ E G) as [->|[[e ->] ->]]; split; try done.
    + split_and!; try done. by right.
    + split_and!; try done. by left.
  - pose proof (put_refused _ _ body (s_objects w) _ G) as E'. rewrite E in E'. injection E' as -> ->. split; [|done]. split_and!; try done. by left.
Qed.

(** What the stores of a completion may change and must have done. *)
Record stored_by (org : pystr) (keys : list (pystr * pystr)) (bodies : list (pystr * pybytes)) (ts : list pystr) (w w' : W) : Prop := {
  sb_queue : s_queue w' = s_queue w;
  sb_rows : s_rows w' = s_rows w;
  sb_drawn : s_drawn w' = s_drawn w;
  sb_grows : dom (stored w) ⊆ dom (stored w');
  sb_others : forall key, (forall t body, t ∈ ts -> key_at keys t = Ok key -> dict_get bodies t = Some body -> False) ->
    stored w' !! key = stored w !! key
}.

Lemma stored_by_refl org keys bodies ts w : stored_by org keys bodies ts w w.
Proof. by split. Qed.

Lemma stored_by_trans org keys bodies ts ts' w w1 w2 : stored_by org keys bodies ts w w1 -> stored_by org keys bodies ts' w1 w2 ->
  stored_by org keys bodies (ts ++ ts') w w2.
Proof.
  intros [A1 A2 A3 A4 A5] [B1 B2 B3 B4 B5]. split; [congruence..|set_solver|]. intros key Hk.
  rewrite B5, A5; [done|intros t body Ht; apply Hk; set_solver..].
Qed.

Lemma writes_stored_by org keys bodies t k body w w' : key_at keys t = Ok k -> dict_get bodies t = Some body ->
  writes org k body w w' -> stored_by org keys bodies [t] w w'.
Proof.
  intros Hk Hb (E1 & E2 & E3 & E4). split; try done.
  - destruct E4 as [->|[_ ->]]; [done|]. rewrite dom_insert_L. set_solver.
  - intros key Hkey. destruct E4 as [->|[_ ->]]; [done|]. apply lookup_insert_ne. intros ->.
    apply (Hkey t body); [set_solver|done|done].
Qed.

Lemma store_artifact_effect org keys bodies t w r w' :
  store_artifact object_store org keys bodies t w = (r, w') -> stored_by org keys bodies [t] w w' /\
  (r = Ok tt -> t <> DELTA -> exists k body, key_at keys t = Ok k /\ dict_get bodies t = Some body /\
     _guard_key org k = Ok k /\ stored w' !! k = Some body).
Proof.
  unfold store_artifact, str_eqb. case_bool_decide as Ht; [intros [= <- <-]; split; [apply stored_by_refl|done]|].
  destruct (dict_get bodies t) as [body|] eqn:Hb; [|intros [= <- <-]; split; [apply stored_by_refl|done]].
  unfold sbind, slift. destruct (key_at keys t) as [k|e] eqn:Hk; [|intros [= <- <-]; split; [apply stored_by_refl|done]].
  intros [Hw Hok]%put_writes. split; [by eapply writes_stored_by|]. intros Hr _. destruct (Hok Hr) as [G E].
  exists k, body. split_and!; try done. rewrite E. apply lookup_insert_eq.
Qed.

Lemma store_delta_effect org keys bodies w r w' :
  store_delta object_store org keys bodies w = (r, w') -> stored_by org keys bodies [DELTA] w w' /\
  (forall u, r = Ok u -> match u with
     | None => dict_get bodies DELTA = None /\ w' = w
     | Some k => exists body, key_at keys DELTA = Ok k /\ dict_get bodies DELTA = Some body /\ _guard_key org k = Ok k /\ stored w' !! k = Some body
     end).
Proof.
  unfold store_delta. destruct (dict_get bodies DELTA) as [body|] eqn:Hb.
  2: { intros [= <- <-]. split; [apply stored_by_refl|]. by intros u [= <-]. }
  unfold sbind, slift. destruct (key_at keys DELTA) as [k|e] eqn:Hk; [|intros [= <- <-]; split; [apply stored_by_refl|done]].
  destruct (on_objects _ w) as [r0 w0] eqn:E. apply put_writes in E as [Hw Hok].
  destruct r0 as [[]|e]; intros [= <- <-]; (split; [by eapply writes_stored_by|]); [|done].
  intros u [= <-]. destruct (Hok eq_refl) as [G E]. exists body. split_and!; try done. rewrite E. apply lookup_insert_eq.
Qed.

(** The loop: on return, every artifact it meets is stored, and still is after
    any later step that only adds objects. *)
Lemma store_artifacts_effect org keys bodies ts : forall w r w',
  sfold (fun _ => store_artifact object_store org keys bodies) tt ts w = (r, w') -> stored_by org keys bodies ts w w' /\
  (r = Ok tt -> forall t, t ∈ ts -> t <> DELTA -> exists k body, key_at keys t = Ok k /\ dict_get bodies t = Some body /\
     _guard_key org k = Ok k /\ is_Some (stored w' !! k) /\
     (NoDup ts -> (forall t' k', key_at keys t = Ok k' -> key_at keys t' = Ok k' -> t' = t) -> stored w' !! k = Some body)).
Proof.
  induction ts as [|t ts IH]; intros w r w'; cbn [sfold]; [intros [= <- <-]; split; [apply stored_by_refl|set_solver]|].
  unfold sbind. destruct (store_artifact object_store org keys bodies t w) as [[[]|e] w1] eqn:E1; apply store_artifact_effect in E1 as [S1 F1].
  - intros [S2 F2]%IH. split; [exact (stored_by_trans _ _ _ [t] ts _ _ _ S1 S2)|]. intros Hr t' Ht' Hd.
    apply elem_of_cons in Ht' as [->|Ht'].
    + destruct (F1 eq_refl Hd) as (k & body & K1 & K2 & K3 & K4). exists k, body. split_and!; try done.
      * apply elem_of_dom, (sb_grows _ _ _ _ _ _ S2), elem_of_dom. by eexists.
      * intros [Hn _]%NoDup_cons Hinj. rewrite (sb_others _ _ _ _ _ _ S2); [done|].
        intros t' body' Ht' Hk _. apply Hn. by rewrite <-(Hinj t' k).
    + destruct (F2 Hr t' Ht' Hd) as (k & body & K1 & K2 & K3 & K4 & K5). exists k, body. split_and!; try done.
      intros [_ Hn]%NoDup_cons. by apply K5.
  - intros [= <- <-]. split; [|done]. destruct S1 as [A1 A2 A3 A4 A5]. split; try done. intros key Hk. apply A5.
    intros t' body Ht'. apply Hk. set_solver.
Qed.

(** ** Completing a snapshot *)

Definition row_uris (row : SnapshotRow) : list pystr :=
  [row_cpg_tarball_uri row; row_reverse_symbol_index_uri row; row_dynamic_call_graph_uri row; row_precondition_status_record_uri row] ++
  match row_delta_g_uri row with Some uri => [uri] | None => [] end.

Definition keys_distinct (keys : list (pystr * pystr)) : Prop :=
  forall t t' k, key_at keys t = Ok k -> key_at keys t' = Ok k -> t' = t.

(** The row a completion builds, and the objects there when it does. *)
Record completes (accepted : SnapshotAccepted) (req : SnapshotRequest) (status : pystr) (bodies : list (pystr * pybytes))
    (w : W) (row : SnapshotRow) : Prop := {
  cp_digest : _ENV_DIGEST_RE (acc_env_digest accepted) = true;
  cp_status : status ∈ _PRECONDITION_VALUES;
  cp_row : exists cpg index calls record, let at_key t k := key_at (acc_artifact_keys accepted) (str t) = Ok k in
    at_key "cpg_tarball"%string cpg /\ at_key "reverse_symbol_index"%string index /\
    at_key "dynamic_call_graph"%string calls /\ at_key "precondition_status"%string record /\
    row = mkRow (acc_snapshot_id accepted) (rq_org_id req) (rq_codebase_id req) (rq_commit_sha req) (acc_env_digest accepted)
      status cpg index calls (row_delta_g_uri row) record (rq_parent_snapshot_id req);
  cp_bodies : forall t, t ∈ SNAPSHOT_ARTIFACT_TYPES -> t <> DELTA \/ is_Some (dict_get bodies t) ->
    exists k body, key_at (acc_artifact_keys accepted) t = Ok k /\ dict_get bodies t = Some body /\
      _guard_key (uuid_str (rq_org_id req)) k = Ok k /\ is_Some (stored w !! k) /\
      (keys_distinct (acc_artifact_keys accepted) -> stored w !! k = Some body);
  cp_delta : match row_delta_g_uri row with
    | Some k => is_Some (dict_get bodies DELTA) /\ key_at (acc_artifact_keys accepted) DELTA = Ok k
    | None => dict_get bodies DELTA = None
    end
}.

Lemma types_nodup : NoDup SNAPSHOT_ARTIFACT_TYPES.
Proof. decided. Qed.

Lemma delta_type : DELTA ∈ SNAPSHOT_ARTIFACT_TYPES.
Proof. decided. Qed.

Lemma record_completion_effect accepted req status bodies w r w' :
  record_completion object_store accepted req status bodies w = (r, w') ->
  exists w1, stored_by (uuid_str (rq_org_id req)) (acc_artifact_keys accepted) bodies SNAPSHOT_ARTIFACT_TYPES w w1 /\
    ((w' = w1 /\ (exists e, r = Raise e) /\ (_ENV_DIGEST_RE (acc_env_digest accepted) = false \/ status ∉ _PRECONDITION_VALUES -> w' = w)) \/
     exists row r0, completes accepted req status bodies w1 row /\ on_rows (ss_put row) w1 = (r0, w') /\
       r = match r0 with Ok _ => Ok row | Raise e => Raise e end).
Proof.
  unfold record_completion, _guard_env_digest. set (org := uuid_str _). set (keys := acc_artifact_keys accepted). unfold sbind at 1, slift at 1.
  destruct (_ENV_DIGEST_RE _) eqn:Hd; [|intros [= <- <-]; exists w; split; [apply stored_by_refl|left; eauto]].
  case_bool_decide as Hs; cbn [negb]; [|intros [= <- <-]; exists w; split; [apply stored_by_refl|left; eauto]].
  unfold sbind at 1. destruct (sfold _ _ _ w) as [[[]|e] w1] eqn:E1; apply store_artifacts_effect in E1 as [S1 F1].
  2: { intros [= <- <-]. exists w1. split; [done|]. left. split_and!; eauto. intros [|]; done. }
  unfold sbind at 1. destruct (store_delta _ _ _ _ w1) as [[delta|e] w2] eqn:E2; apply store_delta_effect in E2 as [S2 F2];
    pose proof (stored_by_trans _ _ _ _ _ _ _ _ S1 S2) as S12.
  all: assert (S3 : stored_by org keys bodies SNAPSHOT_ARTIFACT_TYPES w w2);
    [destruct S12 as [A1 A2 A3 A4 A5]; split; try done; intros key Hk; apply A5; intros t body [Ht| ->%list_elem_of_singleton]%elem_of_app;
       apply Hk; done || apply delta_type|].
  2: { intros [= <- <-]. exists w2. split; [done|]. left. split_and!; eauto. intros [|]; done. }
  assert (Fail : forall e, (Raise e : outcome SnapshotRow, w2) = (r, w') -> exists w1', stored_by org keys bodies SNAPSHOT_ARTIFACT_TYPES w w1' /\
     ((w' = w1' /\ (exists e, r = Raise e) /\ (true = false \/ status ∉ _PRECONDITION_VALUES -> w' = w)) \/
      exists row r0, completes accepted req status bodies w1' row /\ on_rows (ss_put row) w1' = (r0, w') /\
        r = match r0 with Ok _ => Ok row | Raise e => Raise e end)).
  { intros e [= <- <-]. exists w2. split; [done|]. left. split_and!; eauto. intros [|]; done. }
  unfold sbind at 1, slift at 1. destruct (key_at keys (str "cpg_tarball")) as [cpg|] eqn:K1; [|apply Fail].
  unfold sbind at 1, slift at 1. destruct (key_at keys (str "reverse_symbol_index")) as [index|] eqn:K2; [|apply Fail].
  unfold sbind at 1, slift at 1. destruct (key_at keys (str "dynamic_call_graph")) as [calls|] eqn:K3; [|apply Fail].
  unfold sbind at 1, slift at 1. destruct (key_at keys (str "precondition_status")) as [record|] eqn:K4; [|apply Fail].
  clear Fail. set (row := mkRow _ _ _ _ _ _ _ _ _ _ _ _). intros E. exists w2. split; [done|]. right. exists row.
  unfold sbind in E. destruct (on_rows (ss_put row) w2) as [r0 w3] eqn:E3. exists r0. split; [|destruct r0; by injection E as <- <-].
  split; try done.
  - by exists cpg, index, calls, record.
  - intros t Ht Hcase. destruct (decide (t = DELTA)) as [->|Hne].
    + destruct Hcase as [|[body Hb]]; [done|]. specialize (F2 _ eq_refl). destruct delta as [k|]; [|by destruct F2; congruence].
      destruct F2 as (body' & G1 & G2 & G3 & G4). exists k, body'. by split_and!.
    + destruct (F1 eq_refl t Ht Hne) as (k & body & G1 & G2 & G3 & G4 & G5). exists k, body. split_and!; try done.
      * apply elem_of_dom, (sb_grows _ _ _ _ _ _ S2), elem_of_dom. done.
      * intros Hinj. rewrite (sb_others _ _ _ _ _ _ S2); [apply G5; [apply types_nodup|]|].
        -- intros t' k' Hk Hk'. by apply (Hinj t t' k').
        -- intros t' body' ->%list_elem_of_singleton Hk _. apply Hne. by apply (Hinj DELTA t k).
  - cbn. specialize (F2 _ eq_refl). destruct delta as [k|]; [|by destruct F2]. destruct F2 as (body & ? & -> & _). split; [by eexists|done].
Qed.

(** ** Rows refer to stored objects *)

Variable uuid4 : nat -> UUID.

Inductive ServiceCall :=
| CreateSnapshot (provided : option pystr) (req : SnapshotRequest) (image_digest : option pystr)
| RecordCompletion (accepted : SnapshotAccepted) (req : SnapshotRequest) (status : pystr) (bodies : list (pystr * pybytes))
| GetRow (id : UUID).

(** The state after a call, whether it returns or raises. *)
Definition after_call (w : W) (c : ServiceCall) : W :=
  match c with
  | CreateSnapshot provided req image => (create_snapshot provided uuid4 req image w).2
  | RecordCompletion accepted req status bodies => (record_completion object_store accepted req status bodies w).2
  | GetRow id => (get_snapshot id w).2
  end.

Record referenced (w : W) (row : SnapshotRow) : Prop := {
  rf_digest : snapshots_env_digest_chk row = true;
  rf_status : snapshots_precondition_status_chk row = true;
  rf_uris : Forall (fun uri => under (uuid_str (row_org_id row)) uri /\ uri ∈ dom (stored w)) (row_uris row)
}.

Definition consistent (w : W) : Prop := forall id row, row_table w !! id = Some row -> row_id row = id /\ referenced w row.

Lemma referenced_grows w w' row : dom (stored w) ⊆ dom (stored w') -> referenced w row -> referenced w' row.
Proof. intros Hd [H1 H2 H3]. split; try done. eapply Forall_impl; [exact H3|]. cbn. set_solver. Qed.

Lemma on_rows_put row (w : W) r w' : on_rows (ss_put row) w = (r, w') ->
  stored w' = stored w /\ s_queue w' = s_queue w /\ s_drawn w' = s_drawn w /\
  (row_table w' = <[row_id row := row]> (row_table w) \/ ((exists e, r = Raise e) /\ row_table w' = row_table w)).
Proof.
  unfold on_rows. destruct (ss_put row (s_rows w)) as [r0 t] eqn:E. intros [= <- <-]. split_and!; try done.
  unfold row_table. cbn. by apply rows_put_effect.
Qed.

Lemma completes_referenced accepted req status bodies w row : completes accepted req status bodies w row -> referenced w row.
Proof.
  intros [Hd Hs (cpg & index & calls & record & K1 & K2 & K3 & K4 & E) Hb Hdelta].
  assert (A : forall t k, str t ∈ SNAPSHOT_ARTIFACT_TYPES -> str t <> DELTA -> key_at (acc_artifact_keys accepted) (str t) = Ok k ->
    under (uuid_str (rq_org_id req)) k /\ k ∈ dom (stored w)).
  { intros t k Ht Hne Hk. destruct (Hb _ Ht (or_introl Hne)) as (k' & body & E1 & _ & G & St & _). assert (k' = k) as -> by congruence.
    split; [by apply guard_key_Ok in G as (_ & _ & ?)|by apply elem_of_dom]. }
  split.
  - by rewrite E.
  - rewrite E. unfold snapshots_precondition_status_chk. cbn. by apply bool_decide_eq_true.
  - unfold row_uris. apply Forall_app. split.
    + apply A in K1, K2, K3, K4; [|decided..]. rewrite E. cbn. by repeat (apply Forall_cons; split).
    + replace (row_org_id row) with (rq_org_id req) by (by rewrite E). destruct (row_delta_g_uri row) as [k|]; [|constructor].
      destruct Hdelta as [Hb' Hk]. destruct (Hb DELTA delta_type (or_intror Hb')) as (k' & body & E1 & _ & G & St & _).
      assert (k' = k) as -> by congruence. apply Forall_cons. split; [|constructor]. split; [by apply guard_key_Ok in G as (_ & _ & ?)|by apply elem_of_dom].
Qed.

Lemma completes_id accepted req status bodies w row : completes accepted req status bodies w row -> row_id row = acc_snapshot_id accepted.
Proof. intros [_ _ (? & ? & ? & ? & _ & _ & _ & _ & E) _ _]. by rewrite E. Qed.

Lemma on_queue_keeps {A} (m : St Q A) : keeps (fun w : W => (s_objects w, s_rows w)) (on_queue m).
Proof. intros w. unfold on_queue. by destruct (m (s_queue w)). Qed.

Lemma draw_keeps : keeps (fun w : W => (s_objects w, s_rows w)) (draw_snapshot_id uuid4).
Proof. done. Qed.

#[local] Hint Resolve on_queue_keeps draw_keeps : keeps.

Lemma create_keeps provided req image : keeps (fun w : W => (s_objects w, s_rows w)) (create_snapshot provided uuid4 req image).
Proof. unfold create_snapshot. cbn zeta. auto 15 with keeps. Qed.

(** C27: whatever calls are made, in whatever order and however they fail,
    every row has a well-formed digest and status and refers only to objects
    that are stored, under the prefix of its organisation: the row is written
    last, and no call removes an object. *)
Theorem rows_reference_objects calls : forall w, consistent w ->
  let w' := foldl after_call w calls in consistent w' /\ dom (stored w) ⊆ dom (stored w').
Proof.
  induction calls as [|c calls IH]; intros w Hw; [done|]. cbn [foldl].
  assert (Step : consistent (after_call w c) /\ dom (stored w) ⊆ dom (stored (after_call w c))).
  { destruct c as [provided req image|accepted req status bodies|id]; cbn [after_call].
    - destruct (pair_inj _ _ _ _ (create_keeps provided req image w)) as [E1 E2]. split; [|unfold stored; by rewrite E1].
      intros id row Hr. unfold row_table in Hr. rewrite E2 in Hr. destruct (Hw id row Hr) as [Hid Href]. split; [done|].
      apply (referenced_grows w); [unfold stored; by rewrite E1|done].
    - destruct (record_completion _ _ _ _ _ w) as [r w'] eqn:E. apply record_completion_effect in E as (w1 & S & Hcase). cbn [snd].
      assert (H1 : consistent w1).
      { intros id row Hr. unfold row_table in Hr. rewrite (sb_rows _ _ _ _ _ _ S) in Hr. destruct (Hw id row Hr) as [Hid Href].
        split; [done|]. by eapply referenced_grows; [apply (sb_grows _ _ _ _ _ _ S)|]. }
      destruct Hcase as [(-> & _)|(row & r0 & Hc & Hput%on_rows_put & _)]; [split; [done|apply (sb_grows _ _ _ _ _ _ S)]|].
      destruct Hput as (Es & _ & _ & Hrows). split; [|rewrite Es; apply (sb_grows _ _ _ _ _ _ S)].
      assert (G : forall x, referenced w1 x -> referenced w' x) by (intros x; apply referenced_grows; by rewrite Es).
      intros id row' Hr. destruct Hrows as [E|[_ E]]; rewrite E in Hr; [|by destruct (H1 _ _ Hr); auto].
      apply lookup_insert_Some in Hr as [[<- <-]|[_ Hr]]; [|by destruct (H1 _ _ Hr); auto].
      split; [done|]. apply G. by eapply completes_referenced.
    - unfold get_snapshot, on_rows. destruct (ss_get id (s_rows w)) as [r t] eqn:E. apply rows_get_effect in E. cbn. split; [|done].
      intros i row Hr. unfold row_table in Hr. cbn in Hr. rewrite E in Hr. destruct (Hw i row Hr) as [Hid Href]. split; [done|]. by apply (referenced_grows w). }
  destruct Step as [S1 S2]. destruct (IH _ S1) as [I1 I2]. split; [done|set_solver].
Qed.

(** ** From the request to the row *)

(** Stores that do not fail of themselves. *)
Class ReliableStore : Prop := {
  reliable_put : forall org key body b, _guard_key org key = Ok key -> (os_put object_store org key body b).1 = Ok tt;
  reliable_row : forall row t, (ss_put row t).1 = Ok tt
}.

Lemma create_snapshot_Ok provided req image (w : W) acc w' : create_snapshot provided uuid4 req image w = (Ok acc, w') ->
  _COMMIT_SHA_RE (rq_commit_sha req) = true /\ _resolve_env_digest provided image = Ok (acc_env_digest acc) /\
  _ENV_DIGEST_RE (acc_env_digest acc) = true /\ acc_snapshot_id acc = uuid4 (s_drawn w) /\
  all_artifact_keys (key_builder req (acc_env_digest acc)) = Ok (acc_artifact_keys acc) /\
  q_send (snapshot_message (acc_snapshot_id acc) req (acc_env_digest acc)) (uuid_str (acc_snapshot_id acc)) (s_queue w) = (Ok tt, s_queue w') /\
  s_drawn w' = S (s_drawn w).
Proof.
  unfold create_snapshot. destruct (_COMMIT_SHA_RE _) eqn:Hc; cbn [negb]; [|done]. intros E.
  apply sbind_Ok in E as (digest & w1 & [Hd ->]%slift_Ok & E). apply sbind_Ok in E as (id & w2 & Hid & E). injection Hid as <- <-.
  cbn zeta in E. apply sbind_Ok in E as ([] & w3 & [_ ->]%slift_Ok & E). apply sbind_Ok in E as (keys & w4 & [Hk ->]%slift_Ok & E).
  apply sbind_Ok in E as ([] & w5 & Hq & [= <- <-]). cbn. split_and!; try done.
  - unfold _resolve_env_digest, _guard_env_digest in Hd. destruct (match image with Some _ => image | None => provided end) as [l|]; [|done].
    by destruct (_ENV_DIGEST_RE l) eqn:Hl; [injection Hd as <-|].
  - unfold on_queue in Hq. cbn in Hq. destruct (q_send _ _ (s_queue w)) as [r0 q] eqn:Es. by injection Hq as -> <-.
  - unfold on_queue in Hq. cbn in Hq. destruct (q_send _ _ (s_queue w)) as [r0 q]. by injection Hq as _ <-.
Qed.

Lemma dict_get_key {V} (l : list (pystr * V)) t : t ∈ map fst l -> exists v, dict_get l t = Some v.
Proof.
  induction l as [|[t' v] l IH]; cbn; [set_solver|]. unfold str_eqb. case_bool_decide as Ht; [by eexists|].
  intros [->|]%elem_of_cons; [done|by apply IH].
Qed.

Lemma accepted_keys req digest keys t k : all_artifact_keys (key_builder req digest) = Ok keys ->
  (key_at keys t = Ok k <-> artifact_key (key_builder req digest) t = Ok k).
Proof.
  intros Hk. destruct (artifact_keys_eq (key_builder req digest)) as (keys' & E & _ & F). assert (keys' = keys) as -> by congruence. rewrite F.
  case_bool_decide as Ht; [done|]. split; [done|]. intros (s & Hs & _)%artifact_key_Ok. destruct Ht.
  apply list_elem_of_fmap. by exists (t, s).
Qed.

Lemma sfold_reliable `{!ReliableStore} org keys bodies ts : (forall t, t ∈ ts -> t <> DELTA ->
    exists k body, key_at keys t = Ok k /\ dict_get bodies t = Some body /\ _guard_key org k = Ok k) ->
  forall w : W, (sfold (fun _ => store_artifact object_store org keys bodies) tt ts w).1 = Ok tt.
Proof.
  induction ts as [|t ts IH]; intros Hall w; [done|]. cbn [sfold]. unfold sbind.
  assert (E : (store_artifact object_store org keys bodies t w).1 = Ok tt).
  { unfold store_artifact, str_eqb. case_bool_decide as Ht; [done|]. destruct (Hall t) as (k & body & Hk & -> & G); [left|done|].
    unfold sbind, slift. rewrite Hk. unfold on_objects. pose proof (reliable_put org k body (s_objects w) G) as R1.
    by destruct (os_put _ _ _ _ _) as [r0 b]. }
  destruct (store_artifact _ _ _ _ _ w) as [r w1]. cbn in E. rewrite E. apply IH. intros t' Ht'. apply Hall. by right.
Qed.

(** Over a store that accepts what its guard admits, the completion of an
    accepted request succeeds as soon as the status and the mandatory bodies
    are there. *)
Lemma completion_succeeds `{!ReliableStore} req acc status bodies (w : W) :
  _COMMIT_SHA_RE (rq_commit_sha req) = true -> _ENV_DIGEST_RE (acc_env_digest acc) = true ->
  all_artifact_keys (key_builder req (acc_env_digest acc)) = Ok (acc_artifact_keys acc) ->
  status ∈ _PRECONDITION_VALUES ->
  (forall t, t ∈ SNAPSHOT_ARTIFACT_TYPES -> t <> DELTA -> is_Some (dict_get bodies t)) ->
  exists row, (record_completion object_store acc req status bodies w).1 = Ok row.
Proof.
  intros C1 C3 C5 Hs Hm.
  pose proof (fun t k => accepted_keys req _ _ t k C5) as HK. pose proof (request_builder req _ C1 C3) as Hb.
  assert (G : forall t, t ∈ SNAPSHOT_ARTIFACT_TYPES -> exists k, key_at (acc_artifact_keys acc) t = Ok k /\ _guard_key (uuid_str (rq_org_id req)) k = Ok k).
  { intros t [suffix Ht]%dict_get_key. exists (prefix (key_builder req (acc_env_digest acc)) ++ suffix).
    assert (A : artifact_key (key_builder req (acc_env_digest acc)) t = Ok (prefix (key_builder req (acc_env_digest acc)) ++ suffix))
      by (unfold artifact_key; by rewrite Ht).
    split; [by apply HK|]. by apply (artifact_key_guarded _ _ _ _ Hb A). }
  unfold record_completion, _guard_env_digest. unfold sbind at 1, slift at 1. rewrite C3.
  rewrite bool_decide_true by done. cbn [negb].
  unfold sbind at 1. destruct (sfold _ _ _ w) as [r1 wa] eqn:E1.
  assert (r1 = Ok tt) as ->.
  { change r1 with (r1, wa).1. rewrite <-E1. apply sfold_reliable. intros t Ht Hne. destruct (G t Ht) as (k & Hk & Gk).
    destruct (Hm t Ht Hne) as [body Hbody]. by exists k, body. }
  unfold sbind at 1. destruct (store_delta _ _ _ _ wa) as [r2 wb] eqn:E2.
  assert (exists u, r2 = Ok u) as [u ->].
  { change r2 with (r2, wb).1. rewrite <-E2. unfold store_delta. destruct (dict_get bodies DELTA) as [body|]; [|by eexists].
    destruct (G DELTA delta_type) as (k & Hk & Gk). unfold sbind, slift. rewrite Hk. unfold on_objects.
    pose proof (reliable_put _ k body (s_objects wa) Gk) as R1. destruct (os_put _ _ _ _ _) as [r0 b]. cbn in R1. rewrite R1. by eexists. }
  destruct (G (str "cpg_tarball")) as (k1 & K1 & _); [decided|]. destruct (G (str "reverse_symbol_index")) as (k2 & K2 & _); [decided|].
  destruct (G (str "dynamic_call_graph")) as (k3 & K3 & _); [decided|]. destruct (G (str "precondition_status")) as (k4 & K4 & _); [decided|].
  unfold sbind, slift. rewrite K1, K2, K3, K4. unfold on_rows. set (row := mkRow _ _ _ _ _ _ _ _ _ _ _ _).
  pose proof (reliable_row row (s_rows wb)) as R2. destruct (ss_put row (s_rows wb)) as [r0 t]. cbn in R2. rewrite R2. by eexists.
Qed.

(** C26: a snapshot from its request to its row, over stores that accept every
    admitted object and every row.  The request is accepted only
    for a commit and an image digest that are well formed; its keys are the
    organisation's, its job is enqueued once under a fresh identifier.  When
    the completion is recorded, in any later state, it returns a row exactly
    when the status is one of the three and the four mandatory bodies are
    there; the row has the identity and provenance of the request and each
    body is found at its key, the delta only if there is one.  Any other
    object is as before, and after a failure the table is as before. *)
Theorem snapshot_lifecycle `{!ReliableStore} provided req image (w : W) acc w1 status bodies (w2 : W) r w3 :
  create_snapshot provided uuid4 req image w = (Ok acc, w1) ->
  record_completion object_store acc req status bodies w2 = (r, w3) ->
  let key t k := artifact_key (key_builder req (acc_env_digest acc)) t = Ok k in
  let mandatory t := t ∈ SNAPSHOT_ARTIFACT_TYPES /\ t <> DELTA in
  (_COMMIT_SHA_RE (rq_commit_sha req) = true /\ _resolve_env_digest provided image = Ok (acc_env_digest acc) /\
   acc_snapshot_id acc = uuid4 (s_drawn w) /\ s_drawn w1 = S (s_drawn w) /\
   q_send (snapshot_message (acc_snapshot_id acc) req (acc_env_digest acc)) (uuid_str (acc_snapshot_id acc)) (s_queue w) = (Ok tt, s_queue w1)) /\
  ((exists row, r = Ok row) <-> status ∈ _PRECONDITION_VALUES /\ (forall t, mandatory t -> is_Some (dict_get bodies t))) /\
  (forall row, r = Ok row ->
     row_table w3 = <[acc_snapshot_id acc := row]> (row_table w2) /\
     (row_id row, row_org_id row, row_codebase_id row, row_commit_sha row, row_env_digest row, row_precondition_status row, row_parent_snapshot_id row) =
       (acc_snapshot_id acc, rq_org_id req, rq_codebase_id req, rq_commit_sha req, acc_env_digest acc, status, rq_parent_snapshot_id req) /\
     key (str "cpg_tarball") (row_cpg_tarball_uri row) /\ key (str "reverse_symbol_index") (row_reverse_symbol_index_uri row) /\
     key (str "dynamic_call_graph") (row_dynamic_call_graph_uri row) /\ key (str "precondition_status") (row_precondition_status_record_uri row) /\
     (match row_delta_g_uri row with Some k => key DELTA k /\ is_Some (dict_get bodies DELTA) | None => dict_get bodies DELTA = None end) /\
     (forall t body k, t ∈ SNAPSHOT_ARTIFACT_TYPES -> dict_get bodies t = Some body -> key t k -> stored w3 !! k = Some body)) /\
  (forall e, r = Raise e -> row_table w3 = row_table w2) /\
  (forall k, (forall t body, key t k -> dict_get bodies t = Some body -> False) -> stored w3 !! k = stored w2 !! k).
Proof.
  intros Hc Hrc. apply create_snapshot_Ok in Hc as (C1 & C2 & C3 & C4 & C5 & C6 & C7).
  pose proof (fun t k => accepted_keys req _ _ t k C5) as HK. pose proof (request_builder req _ C1 C3) as Hb.
  assert (Hinj : keys_distinct (acc_artifact_keys acc)).
  { intros t t' k H1%HK H2%HK. by destruct (artifact_key_inj _ _ _ _ _ _ _ Hb Hb H1 H2). }
  pose proof Hrc as (w' & S & Hcase)%record_completion_effect. cbn zeta. split; [done|].
  assert (Hothers : stored w3 = stored w').
  { destruct Hcase as [(-> & _)|(row & r0 & _ & (-> & _)%on_rows_put & _)]; done. }
  split; [split|split; [|split]].
  - intros [row ->]. destruct Hcase as [(_ & [e He] & _)|(row' & r0 & [Hd Hs _ Hbodies _] & _ & _)]; [done|]. split; [done|].
    intros t [Ht Hne]. destruct (Hbodies t Ht (or_introl Hne)) as (k & body & _ & -> & _). by eexists.
  - intros [Hs Hm]. destruct (completion_succeeds req acc status bodies w2 C1 C3 C5 Hs) as [row Hrow].
    { intros t Ht Hne. by apply Hm. }
    exists row. by rewrite Hrc in Hrow.
  - intros row ->. destruct Hcase as [(_ & [e He] & _)|(row' & r0 & Hcp & Hput & Hr)]; [done|].
    destruct r0 as [[]|e]; [|done]. injection Hr as <-. apply on_rows_put in Hput as (_ & _ & _ & Ht).
    pose proof (completes_id _ _ _ _ _ _ Hcp) as Hid. destruct Hcp as [Hd Hs (cpg & index & calls & record & K1 & K2 & K3 & K4 & E) Hbodies Hdelta].
    destruct Ht as [Ht|[[e He] _]]; [|done]. rewrite Hid in Ht. split.
    { rewrite Ht. f_equal. unfold row_table. by rewrite (sb_rows _ _ _ _ _ _ S). }
    split; [by rewrite E|]. rewrite (f_equal row_cpg_tarball_uri E), (f_equal row_reverse_symbol_index_uri E),
      (f_equal row_dynamic_call_graph_uri E), (f_equal row_precondition_status_record_uri E). cbn.
    split_and!; try (by apply HK).
    + destruct (row_delta_g_uri row) as [k|]; [|done]. destruct Hdelta as [? ?]. split; [by apply HK|done].
    + intros t body k Htt Hbody Hk%HK. destruct (Hbodies t Htt) as (k' & body' & G1 & G2 & _ & _ & G3); [right; by eexists|].
      assert (k' = k) as -> by congruence. assert (body' = body) as -> by congruence. rewrite Hothers. by apply G3.
  - intros e ->. destruct Hcase as [(-> & _)|(row & r0 & _ & Hput & Hr)].
    + unfold row_table. by rewrite (sb_rows _ _ _ _ _ _ S).
    + destruct r0 as [|e']; [done|]. pose proof (reliable_row row (s_rows w')) as R2. unfold on_rows in Hput.
      destruct (ss_put row (s_rows w')) as [r0 t]. cbn in R2. subst r0. done.
  - intros k Hk. rewrite Hothers. apply (sb_others _ _ _ _ _ _ S). intros t body _ Hk'%HK Hbody. by apply (Hk t body).
Qed.
End service.
