(* ===== verification/CwDetect.v ===== *)
(** * Regular expressions ([re.search])

    The patterns the sources compile, as terms; a matcher that follows them
    with a continuation, and what it decides: [re.search] finds a match if
    and only if some part of the text is one. *)
From stdpp Require Import base tactics list strings sets.
From Stdlib Require Import ZArith Lia QArith.
From S2P Require Import Prelude PyData PyDict CpgDelta PyText JsonParse JsonSpec DslParser.

Open Scope Z_scope.

Inductive rx :=
| Eps
| Chr (p : Z -> bool)
| Seq (a b : rx)
| Alt (a b : rx)
| Star (p : Z -> bool)   (* of a character class *)
| WordB                  (* [\b] *)
| NotAhead (a : rx).     (* [(?!a)] *)

(** A text, taken literally. *)
Definition lit (s : string) : rx := fold_right (fun c r => Seq (Chr (fun d => d =? c)) r) Eps (str s).
Definition opt (a : rx) : rx := Alt a Eps.
Definition alts (l : list rx) : rx := match l with [] => NotAhead Eps | a :: l => fold_left Alt l a end.
Definition spaces : rx := Star whitespace.

Section regex.
Context {U : UnicodeData}.

(** [prev]: the character before is a word character.  The continuation gets
    the rest of the text and the same of the last character matched. *)
Fixpoint rmatch (r : rx) (prev : bool) (s : pystr) (k : bool -> pystr -> bool) : bool :=
  match r with
  | Eps => k prev s
  | Chr p => match s with c :: t => p c && k (is_word c) t | [] => false end
  | Seq a b => rmatch a prev s (fun prev s => rmatch b prev s k)
  | Alt a b => rmatch a prev s k || rmatch b prev s k
  | Star p => (fix star prev s := k prev s || match s with c :: t => p c && star (is_word c) t | [] => false end) prev s
  | WordB => negb (Bool.eqb prev (starts_word s)) && k prev s
  | NotAhead a => negb (rmatch a prev s (fun _ _ => true)) && k prev s
  end.

(** [pattern.search(line)] is a match. *)
Definition re_search (r : rx) (line : pystr) : bool := search (fun prev s => rmatch r prev s (fun _ _ => true)) false line.

(** ** What it decides *)

Definition last_word (prev : bool) (w : pystr) : bool := match last w with Some c => is_word c | None => prev end.

(** [w] matches [r] where [t] follows. *)
Fixpoint matches (r : rx) (prev : bool) (w t : pystr) : Prop :=
  match r with
  | Eps => w = []
  | Chr p => exists c, w = [c] /\ p c = true
  | Seq a b => exists w1 w2, w = w1 ++ w2 /\ matches a prev w1 (w2 ++ t) /\ matches b (last_word prev w1) w2 t
  | Alt a b => matches a prev w t \/ matches b prev w t
  | Star p => Forall (fun c => p c = true) w
  | WordB => w = [] /\ prev <> starts_word t
  | NotAhead a => w = [] /\ forall w' t', t = w' ++ t' -> ~ matches a prev w' t'
  end.





(** ** Rules for the common shapes *)

Lemma matches_lit s prev w t : matches (lit s) prev w t <-> w = str s.
Proof.
  unfold lit. revert prev w. induction (str s) as [|c l IH]; intros prev w; cbn [fold_right matches]; [done|]. split.
  - intros (w1 & w2 & -> & (d & -> & Hd%Z.eqb_eq) & ->%IH). by subst.
  - intros ->. exists [c], l. split; [done|]. split; [exists c; by rewrite Z.eqb_refl|]. by apply IH.
Qed.

Lemma matches_alts l prev w t : matches (alts l) prev w t <-> Exists (fun a => matches a prev w t) l.
Proof.
  destruct l as [|a l]; cbn [alts].
  - split; [|by intros H%Exists_nil]. cbn [matches]. intros [_ H]. by destruct (H [] t).
  - assert (G : forall a, matches (fold_left Alt l a) prev w t <-> matches a prev w t \/ Exists (fun a => matches a prev w t) l).
    { induction l as [|b l IH]; intros a'; cbn [fold_left]; [rewrite Exists_nil; naive_solver|]. rewrite IH, Exists_cons. cbn [matches]. naive_solver. }
    by rewrite G, Exists_cons.
Qed.
End regex.

(** * The closed-world detector ([services/snapshot/cw_detect.py])

    A snapshot is taken for a closed world when every file of its tree is
    accounted for and no line of its sources matches a pattern.  The tree is
    data of the model: its files, with the bytes that reading them gives. *)

Open Scope list_scope.

Definition CW_DETECT_VERSION : pystr := str "0.1.1".

(** ** Files *)

Definition _LANG_EXTENSIONS : list (pystr * list pystr) :=
  [(str "java", map str [".java"]);
   (str "python", map str [".py"; ".pyi"]);
   (str "ruby", map str [".rb"]);
   (str "php", map str [".php"; ".phtml"]);
   (str "js", map str [".js"; ".jsx"; ".mjs"; ".cjs"]);
   (str "ts", map str [".ts"; ".tsx"]);
   (str "go", map str [".go"])]%string.

Definition SUPPORTED_LANGUAGES : list pystr := map fst _LANG_EXTENSIONS.

Definition _EXT_TO_LANG : list (pystr * pystr) :=
  concat (map (fun p => map (fun ext => (ext, p.1)) p.2) _LANG_EXTENSIONS).

Definition _INERT_EXTENSIONS : list pystr := map str
  [".md"; ".markdown"; ".rst"; ".txt"; ".adoc"; ".png"; ".jpg"; ".jpeg"; ".gif"; ".svg"; ".ico"; ".webp"; ".bmp"; ".pdf";
   ".csv"; ".tsv"; ".lock"; ".gitignore"; ".gitattributes"; ".editorconfig"; ".dockerignore"]%string.

(** A file under the root, by the components of its path; no bytes when
    reading it raises [OSError]. *)
Record SourceFile := mkFile { f_parts : list pystr; f_bytes : option pybytes }.

(** What is at the root; the text of the path of a file given as the root. *)
Inductive SourceTree := NoTree | OneFile (path name : pystr) (bytes : option pybytes) | Directory (files : list SourceFile).

(** [PurePath.suffix] *)
Definition suffix (name : pystr) : pystr :=
  let extension := take_while (fun c => negb (c =? 46)) (rev name) in
  let i := Z.of_nat (length name) - Z.of_nat (length extension) - 1 in
  if (0 <? i) && (i <? Z.of_nat (length name) - 1) then drop (Z.to_nat i) name else [].

(** Universal newlines *)
Fixpoint newlines (s : pystr) : pystr :=
  match s with
  | [] => []
  | c :: t =>
      if c =? 13 then 10 :: match t with d :: t' => if d =? 10 then newlines t' else newlines t | [] => [] end
      else c :: newlines t
  end.

(** [read_text(encoding="utf-8", errors="strict")]: nothing on [OSError] and [UnicodeDecodeError] *)
Definition read_text (bytes : option pybytes) : option pystr := bs ← bytes; newlines <$> utf8_decode bs.

(** ** Patterns *)

Definition seqs : list rx -> rx := fold_right Seq Eps.
Definition chr (c : Z) : rx := Chr (fun d => d =? c).

(** [\b(?:names)\s*\(] and [\b(?:names)\b] *)
Definition call_of (names : list string) : rx := seqs [WordB; alts (map lit names); spaces; lit "("].
Definition word_of (names : list string) : rx := seqs [WordB; alts (map lit names); WordB].

(** ['[^'\n]*'] with either quote *)
Definition quoted (quote : Z) : rx := seqs [chr quote; Star (fun c => negb (c =? quote) && negb (c =? 10)); chr quote].

Section detect.
Context {U : UnicodeData}.

(** [\$[A-Za-z_]\w*\s*\(] *)
Definition php_variable_call : rx := seqs [lit "$"; Chr name_start; Star is_word; spaces; lit "("].

Definition js_patterns : list (pystr * rx) :=
  [(str "js-require-dynamic",
    seqs [WordB; lit "require"; spaces; lit "("; spaces; NotAhead (seqs [Alt (quoted 39) (quoted 34); spaces; lit ")"])]);
   (str "js-function-constructor", seqs [WordB; lit "new"; Chr whitespace; spaces; lit "Function"; spaces; lit "("]);
   (str "js-eval", Alt (call_of ["eval"]) (call_of ["Function"]))]%string.

Definition _LANG_PATTERNS : list (pystr * list (pystr * rx)) :=
  [(str "java",
    [(str "java-class-forname", call_of ["forName"]);
     (str "java-method-invoke",
      call_of ["invoke"; "getMethod"; "getDeclaredMethod"; "getDeclaredMethods"; "getMethods"; "newInstance"; "getConstructor";
               "getDeclaredConstructor"; "getField"; "getDeclaredField"; "setAccessible"]);
     (str "java-proxy-newproxy", call_of ["newProxyInstance"]);
     (str "java-spring-dynamic-proxy",
      word_of ["ProxyFactory"; "ProxyFactoryBean"; "getProxy"; "createAopProxy"; "AopProxy"; "ScopedProxyMode"; "@EnableAspectJAutoProxy"])]);
   (str "python",
    [(str "python-import-dunder", Alt (call_of ["__import__"]) (call_of ["importlib.import_module"]));
     (str "python-getattr", call_of ["getattr"; "setattr"; "delattr"; "hasattr"; "vars"; "globals"; "locals"]);
     (str "python-eval-exec", call_of ["eval"; "exec"; "compile"])]);
   (str "ruby",
    [(str "ruby-send", Alt (seqs [lit "."; alts (map lit ["public_send"; "__send__"; "send"]); WordB]) (call_of ["send"]));
     (str "ruby-method-missing", word_of ["method_missing"; "respond_to_missing?"]);
     (str "ruby-define-method",
      word_of ["define_method"; "instance_eval"; "class_eval"; "module_eval"; "const_get"; "instance_variable_get"; "instance_variable_set"])]);
   (str "php",
    [(str "php-variable-function", Alt php_variable_call (seqs [lit "->"; spaces; php_variable_call]));
     (str "php-call-user-func",
      Alt (seqs [WordB;
                 alts [Seq (lit "call_user_func") (opt (lit "_array")); lit "ReflectionClass"; lit "ReflectionMethod";
                       Seq (lit "forward_static_call") (opt (lit "_array")); lit "eval"];
                 spaces; lit "("])
          (seqs [WordB; lit "new"; Chr whitespace; spaces; lit "Reflection"]))]);
   (str "js", js_patterns);
   (str "ts", js_patterns);
   (str "go",
    [(str "go-reflect-call",
      seqs [WordB; lit "reflect"; spaces; lit "."; spaces;
            alts (map lit ["ValueOf"; "TypeOf"; "New"; "Call"; "MakeFunc"; "Indirect"; "NewAt"]); WordB])])]%string.

(** ** The detector *)

Record ReflectionSite := mkSite { site_file : pystr; site_line : Z; site_kind : pystr; site_snippet : pystr }.

Inductive Confidence := high | uncertain.

(** The sites the parent snapshot has cached. *)
Record Snapshot := mkSnapshot { cached_reflection_sites : list ReflectionSite }.

Record CwDetectRequest := mkCwRequest {
  source_tree_root : pystr;
  source_tree : SourceTree;
  language_mix : list pystr;
  parent_snapshot : option Snapshot
}.

Record CwDetectVerdict := mkVerdict {
  verdict : Route;
  cw_detect_version : pystr;
  reflection_sites : list ReflectionSite;
  decided_at : pystr;
  confidence : Confidence
}.

Record _ScanState := mkScan { sites : list ReflectionSite; scan_confidence : Confidence }.

Definition STRUCTURAL : pystr := str "structural-uncertainty".

Definition _add_uncertainty (rel_path : pystr) (st : _ScanState) : _ScanState :=
  mkScan (sites st ++ [mkSite rel_path 0 STRUCTURAL []]) uncertain.

Definition _detect_language (name : pystr) : option pystr := dict_get _EXT_TO_LANG (lower (suffix name)).

Definition scan_line (rel_path : pystr) (patterns : list (pystr * rx)) (numbered : Z * pystr) : list ReflectionSite :=
  map (fun p => mkSite rel_path numbered.1 p.1 (take 200 (strip_both whitespace numbered.2)))
      (List.filter (fun p => re_search p.2 numbered.2) patterns).

Definition _scan_text (rel_path lang text : pystr) : list ReflectionSite :=
  concat (map (scan_line rel_path (default [] (dict_get _LANG_PATTERNS lang))) (numbered_lines (splitlines text))).

(** The files below the root in the order of their paths, each with the path
    it is reported under, its name and its bytes. *)
Definition _iter_source_files (t : SourceTree) : list (pystr * pystr * option pybytes) :=
  match t with
  | NoTree => []
  | OneFile path name bytes => [(path, name, bytes)]
  | Directory files =>
      map (fun f => (join (str "/") (f_parts f), List.last (f_parts f) [], f_bytes f))
          (py_sorted (fun f g => list_leb str_leb (f_parts f) (f_parts g)) files)
  end.

Definition detect_file (st : _ScanState) (file : pystr * pystr * option pybytes) : _ScanState :=
  let '(rel_path, name, bytes) := file in
  match _detect_language name with
  | None => if negb (bool_decide (lower (suffix name) ∈ _INERT_EXTENSIONS)) then _add_uncertainty rel_path st else st
  | Some lang =>
      match read_text bytes with
      | None => _add_uncertainty rel_path st
      | Some text => mkScan (sites st ++ _scan_text rel_path lang text) (scan_confidence st)
      end
  end.

Definition detect_language_mix (st : _ScanState) (lang : pystr) : _ScanState :=
  if negb (bool_decide (lang ∈ SUPPORTED_LANGUAGES)) then _add_uncertainty (str "<language:" ++ lang ++ str ">") st else st.

Definition scan_tree (req : CwDetectRequest) : _ScanState :=
  let st := fold_left detect_language_mix (language_mix req) (mkScan [] high) in
  let st := match source_tree req with NoTree => _add_uncertainty (source_tree_root req) st | _ => st end in
  fold_left detect_file (_iter_source_files (source_tree req)) st.

(** [now] is the answer of the clock. *)
Definition detect (req : CwDetectRequest) (now : pystr) : CwDetectVerdict :=
  let st := scan_tree req in
  let all_sites := sites st ++ match parent_snapshot req with Some p => cached_reflection_sites p | None => [] end in
  match all_sites with
  | _ :: _ => mkVerdict degraded CW_DETECT_VERSION all_sites now (scan_confidence st)
  | [] =>
      match scan_confidence st with
      | uncertain => mkVerdict degraded CW_DETECT_VERSION [mkSite [] 0 STRUCTURAL []] now uncertain
      | high => mkVerdict closed_world CW_DETECT_VERSION [] now high
      end
  end.

Record RoutingRateReport := mkRate { total : Z; routed_not_closed_world : Z; combined_tp_fp_rate : Q }.

Definition measure_routing_rate (requests : list CwDetectRequest) (now : pystr) : RoutingRateReport :=
  let counts := fold_left (fun acc req =>
    (acc.1 + 1, if bool_decide (verdict (detect req now) = closed_world) then acc.2 else acc.2 + 1)) requests (0, 0) in
  mkRate counts.1 counts.2 (if counts.1 =? 0 then 0%Q else true_div counts.2 counts.1).
End detect.

(** * When the world is closed

    The verdict is the conjunction of what was checked of each file, and the
    reported sites are exactly the evidence against it. *)

Section detect.
Context {U : UnicodeData}.

(** ** The evidence of one file *)










(** ** The verdict *)







(** ** The safe direction *)




End detect.
