(* ===== verification/CpgTarball.v ===== *)
(** * The CPG artifact ([services/substrate/cpg_tarball.py])

    The JSON document a snapshot worker packs and a detector worker reads
    back.  The archive (tar in gzip) is a parameter: packing and unpacking one
    member. *)
From stdpp Require Import base tactics list strings.
From Stdlib Require Import ZArith Lia.
From S2P Require Import Prelude PyData Sha256 Cpg Ordering PyDict Json JsonAscii PyText Identity JsonParse JsonSpec JsonRoundTrip BoundRules Sarif SarifJson.

Open Scope Z_scope.
Open Scope py_scope.

Definition CPG_TARBALL_MEMBER_NAME : pystr := str "cpg.json".
Definition CPG_TARBALL_FORMAT_VERSION : pystr := str "1".

(** [tarfile] and [gzip] with one member *)
Class Archive := {
  pack : pystr -> pybytes -> pybytes;
  unpack : pystr -> pybytes -> outcome pybytes
}.

Definition node_document (n : CPGNode) : json :=
  JObj [(str "node_id", JInt (node_id n)); (str "kind", JStr (kind n)); (str "operator_or_literal", JStr (operator_or_literal n));
        (str "resolved_fqn", JStr (resolved_fqn n)); (str "enclosing_decl_fqn", JStr (enclosing_decl_fqn n));
        (str "structural_path", JStr (structural_path n))].

Definition edge_document (e : CPGEdge) : json :=
  JObj [(str "src", JInt (src e)); (str "dst", JInt (dst e)); (str "kind", JStr (edge_kind e))].

Definition cpg_items (g : CPG) : list (pystr * json) :=
  [(str "format_version", JStr CPG_TARBALL_FORMAT_VERSION);
   (str "nodes", JList (map node_document (nodes g)));
   (str "edges", JList (map edge_document (edges g)))].

(** [n == i], for a value of a JSON document; the values have no floats, so
    that an id spelled 0.0, which equals 0, is outside the model. *)
Definition equals_int (v : pyval) (i : Z) : bool :=
  match v with VInt z => z =? i | VBool b => (if b then 1 else 0) =? i | _ => false end.

(** [isinstance(v, int)]: booleans are integers. *)
Definition as_int (v : pyval) : option Z :=
  match v with VInt z => Some z | VBool b => Some (if b then 1 else 0) | _ => None end.

Definition get_default (d : list (pystr * pyval)) (key : string) (dflt : pyval) : pyval := default dflt (dict_get d (str key)).

Section tarball.
Context `{PyRuntime, Archive}.

Definition serialize_cpg_tarball (g : CPG) : outcome pybytes :=
  match utf8_encode (dumps_ascii (JObj (cpg_items g))) with
  | Some raw => Ok (pack CPG_TARBALL_MEMBER_NAME raw)
  | None => Raise UnicodeEncodeError
  end.

Definition read_node (acc : CPG * Z) (raw_node : pyval) : outcome (CPG * Z) :=
  let '(g, position) := acc in
  match raw_node with
  | VDict d =>
      if negb (equals_int (get_default d "node_id" VNone) position) then Raise CPGDeserializationError
      else
        let text key := py_str (get_default d key (VStr [])) in
        let '(g, assigned) := add_node g (text "kind"%string) (text "operator_or_literal"%string) (text "resolved_fqn"%string)
                                (text "enclosing_decl_fqn"%string) (text "structural_path"%string) in
        if negb (assigned =? position) then Raise CPGDeserializationError else Ok (g, position + 1)
  | _ => Raise CPGDeserializationError
  end.

Definition read_edge (node_count : Z) (g : CPG) (raw_edge : pyval) : outcome CPG :=
  match raw_edge with
  | VDict d =>
      match as_int (get_default d "src" VNone), as_int (get_default d "dst" VNone), get_default d "kind" VNone with
      | Some src, Some dst, VStr kind =>
          if ((0 <=? src) && (src <? node_count)) && ((0 <=? dst) && (dst <? node_count)) then Ok (add_edge g src dst kind)
          else Raise CPGDeserializationError
      | _, _, _ => Raise CPGDeserializationError
      end
  | _ => Raise CPGDeserializationError
  end.

(** [except (tarfile.TarError, KeyError)] and [except json.JSONDecodeError] *)
Definition read_member (data : pybytes) : outcome pybytes :=
  match unpack CPG_TARBALL_MEMBER_NAME data with
  | Raise TarError | Raise KeyError => Raise CPGDeserializationError
  | r => r
  end.

Definition is_json_error (e : exc) : bool := match e with ValueError m => String.eqb m "JSONDecodeError" | _ => false end.

Definition read_payload (raw : pybytes) : outcome pyval :=
  match json_loads raw with
  | Raise e => if is_json_error e then Raise CPGDeserializationError else Raise e
  | r => r
  end.

Definition deserialize_cpg_tarball (data : pybytes) : outcome CPG :=
  raw ⇐ read_member data;
  payload ⇐ read_payload raw;
  match payload with
  | VDict d =>
      match dict_get d (str "nodes"), dict_get d (str "edges") with
      | Some (VList ns), Some (VList es) =>
          r ⇐ foldO read_node (empty_cpg, 0) ns;
          foldO (read_edge (Z.of_nat (length ns))) r.1 es
      | _, _ => Raise CPGDeserializationError
      end
  | _ => Raise CPGDeserializationError
  end.
End tarball.

(** * What the CPG artifact carries

    A graph with dense identifiers reads back as itself, any other is
    refused, and whatever is read is such a graph. *)

(** ** Reading an ASCII text *)

Section reading.
Context `{PyRuntime}.

Lemma dumps_ascii_start items : items <> [] -> exists r, dumps_ascii (JObj items) = 123 :: 34 :: r.
Proof.
  intros Hne. unfold dumps_ascii. cbn [canon render_with]. destruct (py_sorted _ _) as [|[k v] l] eqn:E.
  { apply (f_equal length) in E. rewrite length_py_sorted, length_map in E. by destruct items. }
  destruct l as [|[k' v'] l]; cbn; eauto.
Qed.

Lemma unpaired_points s : unpaired s -> code_points s.
Proof. induction s as [|c s IH]; [constructor|]. intros (Hc & _ & Hs). constructor; [done|by apply IH]. Qed.

Lemma json_loads_ascii items : items <> [] -> uniq (JObj items) -> strings_in unpaired (JObj items) ->
  json_loads (dumps_ascii (JObj items)) = Ok (of_json (canon (JObj items))).
Proof.
  intros Hne Hu Hs. pose proof (dumps_ascii_encodes _ _ unpaired_points Hs) as E.
  apply decode_encode, (decode_pass (length (dumps_ascii (JObj items)))) in E; [|done].
  unfold json_loads, decode_document. assert (Hd : detect_encoding (dumps_ascii (JObj items)) = UTF8).
  { destruct (dumps_ascii_start items Hne) as [r ->]. by destruct r as [|? []]. }
  rewrite Hd, E. cbn [obind]. unfold dumps_ascii.
  change (fun s => Ok (JInt (int_of s))) with default_int. rewrite loads_render_ascii; [done|]. by apply readable_canon_in.
Qed.
End reading.

(** ** Graphs *)

Definition dense (g : CPG) : Prop := forall i n, nodes g !! i = Some n -> node_id n = Z.of_nat i.

Definition in_range (g : CPG) : Prop :=
  Forall (fun e => 0 <= src e < Z.of_nat (length (nodes g)) /\ 0 <= dst e < Z.of_nat (length (nodes g))) (edges g).

(** The texts of a graph. *)
Definition graph_texts (g : CPG) : list pystr :=
  concat (map (fun n => [kind n; operator_or_literal n; resolved_fqn n; enclosing_decl_fqn n; structural_path n]) (nodes g)) ++
  map edge_kind (edges g).

Lemma dense_empty : dense empty_cpg.
Proof. intros i n Hi. by apply lookup_nil_Some in Hi || (cbn in Hi; by rewrite lookup_nil in Hi). Qed.

#[export] Instance dense_dec g : Decision (dense g).
Proof.
  refine (cast_if (decide (map node_id (nodes g) = map Z.of_nat (seq 0 (length (nodes g)))))).
  - abstract (intros i n Hi; apply (f_equal (fun l => l !! i)) in e; rewrite !list_lookup_fmap, Hi, lookup_seq_lt in e
      by (by eapply lookup_lt_Some); cbn in e; congruence).
  - abstract (intros Hd; apply n; apply list_eq; intros i; rewrite !list_lookup_fmap; destruct (nodes g !! i) as [x|] eqn:Hi; cbn;
      [rewrite lookup_seq_lt by (by eapply lookup_lt_Some); cbn; by rewrite (Hd i x Hi)|
       rewrite lookup_seq_ge by (by apply lookup_ge_None); done]).
Defined.

#[export] Instance in_range_dec g : Decision (in_range g) := _.

(** The node read at a position. *)
Definition node_items (n : CPGNode) : list (pystr * pyval) :=
  [(str "enclosing_decl_fqn", VStr (enclosing_decl_fqn n)); (str "kind", VStr (kind n)); (str "node_id", VInt (node_id n));
   (str "operator_or_literal", VStr (operator_or_literal n)); (str "resolved_fqn", VStr (resolved_fqn n)); (str "structural_path", VStr (structural_path n))].

Definition edge_items (e : CPGEdge) : list (pystr * pyval) :=
  [(str "dst", VInt (dst e)); (str "kind", VStr (edge_kind e)); (str "src", VInt (src e))].

Lemma node_document_value n : of_json (canon (node_document n)) = VDict (node_items n).
Proof. reflexivity. Qed.

Lemma edge_document_value e : of_json (canon (edge_document e)) = VDict (edge_items e).
Proof. reflexivity. Qed.

Section tarball.
Context `{PyRuntime, Archive}.

Lemma read_node_items g n p : p = Z.of_nat (length (nodes g)) ->
  read_node (g, p) (VDict (node_items n)) =
  if node_id n =? p then Ok (mkCPG (nodes g ++ [n]) (edges g), p + 1) else Raise CPGDeserializationError.
Proof.
  intros ->. unfold read_node. change (get_default (node_items n) "node_id" VNone) with (VInt (node_id n)). cbn [equals_int].
  destruct (Z.eqb_spec (node_id n) (Z.of_nat (length (nodes g)))) as [E|]; [|done]. cbn [negb]. unfold add_node.
  rewrite Z.eqb_refl. cbn [negb]. unfold get_default. cbn. rewrite <-E. by destruct n.
Qed.

Lemma read_nodes ns : forall g, dense g ->
  foldO read_node (g, Z.of_nat (length (nodes g))) (map (fun n => VDict (node_items n)) ns) =
  if decide (dense (mkCPG (nodes g ++ ns) (edges g)))
  then Ok (mkCPG (nodes g ++ ns) (edges g), Z.of_nat (length (nodes g ++ ns))) else Raise CPGDeserializationError.
Proof.
  induction ns as [|n ns IH]; intros g Hg; cbn [map foldO].
  - rewrite app_nil_r. destruct g as [ns es]. by rewrite decide_True.
  - rewrite read_node_items by done. destruct (Z.eqb_spec (node_id n) (Z.of_nat (length (nodes g)))) as [E|E]; cbn [obind].
    + replace (Z.of_nat (length (nodes g)) + 1) with (Z.of_nat (length (nodes (mkCPG (nodes g ++ [n]) (edges g)))))
        by (cbn; rewrite length_app; cbn; lia).
      rewrite IH; [cbn; by rewrite <-!app_assoc|]. intros i x Hx. cbn in Hx. apply lookup_snoc_Some in Hx as [[_ Hx]|[-> ->]]; [by apply Hg|done].
    + rewrite decide_False; [done|]. intros Hd. apply E. apply (Hd (length (nodes g)) n). cbn. by rewrite list_lookup_middle.
Qed.

Lemma read_edges es : forall g, in_range g ->
  foldO (read_edge (Z.of_nat (length (nodes g)))) g (map (fun e => VDict (edge_items e)) es) =
  if decide (in_range (mkCPG (nodes g) (edges g ++ es))) then Ok (mkCPG (nodes g) (edges g ++ es)) else Raise CPGDeserializationError.
Proof.
  induction es as [|e es IH]; intros g Hg; cbn [map foldO].
  - rewrite app_nil_r. destruct g as [ns es]. by rewrite decide_True.
  - unfold read_edge at 1. change (get_default (edge_items e) "src" VNone) with (VInt (src e)).
    change (get_default (edge_items e) "dst" VNone) with (VInt (dst e)). change (get_default (edge_items e) "kind" VNone) with (VStr (edge_kind e)).
    cbn [as_int]. destruct (_ && _) eqn:Hr; cbn [obind].
    + specialize (IH (add_edge g (src e) (dst e) (edge_kind e))). unfold add_edge in IH. cbn [nodes edges] in IH.
      replace (mkEdge (src e) (dst e) (edge_kind e)) with e in IH by (by destruct e). unfold add_edge.
      replace (mkEdge (src e) (dst e) (edge_kind e)) with e by (by destruct e). rewrite IH; [by rewrite <-!app_assoc|].
      apply Forall_app. split; [done|]. apply Forall_singleton. cbn. lia.
    + rewrite decide_False; [done|]. unfold in_range. cbn. rewrite Forall_app, Forall_cons. intros (_ & He & _). lia.
Qed.

(** ** Round trip *)

Class ArchiveLaws : Prop := { unpack_pack : forall name raw, unpack name (pack name raw) = Ok raw }.

Ltac literal := apply scalars_unpaired; unfold scalars; repeat constructor; unfold scalar; lia.

Lemma strings_in_item P k v : P k -> strings_in P v -> item_in P (k, v).
Proof. by split. Qed.

Lemma cpg_items_strings g : Forall unpaired (graph_texts g) -> strings_in unpaired (JObj (cpg_items g)).
Proof.
  unfold graph_texts. rewrite Forall_app, Forall_concat, !Forall_fmap. intros [Hn He]. apply strings_in_obj.
  repeat (apply Forall_cons; split; [apply strings_in_item; [literal|]|]); [..|constructor].
  - cbn. literal.
  - apply strings_in_list, Forall_fmap. eapply Forall_impl; [exact Hn|]. intros n Hx. cbn in Hx. rewrite !Forall_cons in Hx.
    destruct Hx as (H1 & H2 & H3 & H4 & H5 & _). apply strings_in_obj.
    by repeat (apply Forall_cons; split; [apply strings_in_item; [literal|done]|]).
  - apply strings_in_list, Forall_fmap. eapply Forall_impl; [exact He|]. intros e Hx. apply strings_in_obj.
    by repeat (apply Forall_cons; split; [apply strings_in_item; [literal|done]|]).
Qed.

Lemma cpg_items_uniq g : uniq (JObj (cpg_items g)).
Proof.
  apply uniq_obj. split; [decided|]. repeat (apply Forall_cons; split); [done|..|constructor]; cbn [snd]; apply uniq_list, Forall_fmap, Forall_true.
  - intros n. apply uniq_obj. split; [decided|]. by repeat constructor.
  - intros e. apply uniq_obj. split; [decided|]. by repeat constructor.
Qed.

Lemma cpg_items_value g : of_json (canon (JObj (cpg_items g))) =
  VDict [(str "edges", VList (map (fun e => VDict (edge_items e)) (edges g))); (str "format_version", VStr CPG_TARBALL_FORMAT_VERSION);
         (str "nodes", VList (map (fun n => VDict (node_items n)) (nodes g)))].
Proof.
  assert (E : canon (JObj (cpg_items g)) = JObj [(str "edges", JList (map canon (map edge_document (edges g))));
    (str "format_version", JStr CPG_TARBALL_FORMAT_VERSION); (str "nodes", JList (map canon (map node_document (nodes g))))]) by reflexivity.
  rewrite E. cbn [of_json map fst snd]. do 2 f_equal; [|f_equal; f_equal]; do 2 f_equal; rewrite !map_map; by apply map_ext.
Qed.

(** C28: the artifact a snapshot worker packs reads back as the same graph
    when the identifiers are the positions and the edges stay among them, for
    any texts without a spelled surrogate pair; any other graph is refused.
    And whatever bytes are read, a graph that comes out has dense identifiers
    and edges between its nodes. *)
Theorem tarball_roundtrip `{!ArchiveLaws} g data : Forall unpaired (graph_texts g) ->
  (exists raw, serialize_cpg_tarball g = Ok (pack CPG_TARBALL_MEMBER_NAME raw) /\
     deserialize_cpg_tarball (pack CPG_TARBALL_MEMBER_NAME raw) =
       if decide (dense g /\ in_range g) then Ok g else Raise CPGDeserializationError) /\
  (forall g', deserialize_cpg_tarball data = Ok g' -> dense g' /\ in_range g').
Proof.
  intros Ht. split.
  - exists (dumps_ascii (JObj (cpg_items g))). pose proof (cpg_items_strings g Ht) as Hs. unfold serialize_cpg_tarball.
    rewrite (dumps_ascii_encodes _ _ unpaired_points Hs). split; [done|]. unfold deserialize_cpg_tarball, read_member. rewrite unpack_pack. cbn [obind].
    unfold read_payload. rewrite (json_loads_ascii (cpg_items g) ltac:(done) (cpg_items_uniq g) Hs). cbn [obind]. rewrite cpg_items_value.
    cbn [dict_get]. change (str_eqb (str "edges") (str "nodes")) with false. change (str_eqb (str "format_version") (str "nodes")) with false.
    change (str_eqb (str "nodes") (str "nodes")) with true. change (str_eqb (str "edges") (str "edges")) with true. cbv iota.
    pose proof (read_nodes (nodes g) empty_cpg) as R1. cbn [empty_cpg nodes edges length app] in R1. change (Z.of_nat 0) with 0 in R1.
    rewrite R1 by exact dense_empty. clear R1. destruct (decide (dense (mkCPG (nodes g) []))) as [Hd|Hd]; cbn [obind fst].
    + rewrite length_map. pose proof (read_edges (edges g) (mkCPG (nodes g) [])) as R2. cbn [nodes edges app] in R2.
      rewrite R2 by constructor. replace (mkCPG (nodes g) (edges g)) with g by (by destruct g).
      destruct (decide (in_range g)) as [Hr|Hr]; [by rewrite decide_True|]. rewrite decide_False; [done|]. by intros [_ ?].
    + rewrite decide_False; [done|]. by intros [? _].
  - intros g'. unfold deserialize_cpg_tarball. intros E. apply obind_Ok in E as (raw & _ & E). apply obind_Ok in E as (payload & _ & E).
    destruct payload as [| | | | | |d]; try done. destruct (dict_get d (str "nodes")) as [[| | | | |ns|]|]; try done.
    destruct (dict_get d (str "edges")) as [[| | | | |es|]|]; try done. apply obind_Ok in E as ([g1 p] & E1 & E2). cbn [fst] in E2.
    assert (Hn : dense g1 /\ edges g1 = [] /\ length (nodes g1) = length ns).
    { assert (G : forall l g0 g1 p, dense g0 -> edges g0 = [] -> foldO read_node (g0, Z.of_nat (length (nodes g0))) l = Ok (g1, p) ->
        dense g1 /\ edges g1 = [] /\ length (nodes g1) = (length (nodes g0) + length l)%nat).
      { intros l. induction l as [|v l IH]; intros g0 g2 p2 Hd He; cbn [foldO].
        - intros [= <- <-]. split; [done|]. split; [done|]. cbn. lia.
        - intros Eo. apply obind_Ok in Eo as ([g3 p3] & Ev & Eo). unfold read_node in Ev. destruct v as [| | | | | |d']; try done.
          destruct (equals_int _ _); [|done]. cbn [negb] in Ev. unfold add_node in Ev. rewrite Z.eqb_refl in Ev. cbn [negb] in Ev.
          injection Ev as <- <-. set (n := mkNode _ _ _ _ _ _) in Eo.
          replace (Z.of_nat (length (nodes g0)) + 1) with (Z.of_nat (length (nodes (mkCPG (nodes g0 ++ [n]) (edges g0))))) in Eo
            by (cbn; rewrite length_app; cbn; lia).
          apply IH in Eo as (D & E' & L); [|intros i x Hx; cbn in Hx; apply lookup_snoc_Some in Hx as [[_ Hx]|[-> <-]]; [by apply Hd|done]|done].
          split_and!; try done. rewrite L. cbn. rewrite length_app. cbn. lia. }
      by apply (G ns empty_cpg g1 p dense_empty). }
    destruct Hn as (Hd & He & Hl). rewrite <-Hl in E2.
    assert (G : forall l g0, in_range g0 -> nodes g0 = nodes g1 -> forall g', foldO (read_edge (Z.of_nat (length (nodes g1)))) g0 l = Ok g' ->
      in_range g' /\ nodes g' = nodes g1).
    { intros l. induction l as [|v l IH]; intros g0 Hr Hg g2; cbn [foldO]; [by intros [= <-]|].
      intros Eo. apply obind_Ok in Eo as (g3 & Ev & Eo). unfold read_edge in Ev. destruct v as [| | | | | |d']; try done.
      destruct (as_int _) as [s|]; [|done]. destruct (as_int _) as [t|]; [|done]. destruct (get_default d' "kind" VNone) as [| | |k| | |]; try done.
      destruct (_ && _) eqn:Hb; [|done]. injection Ev as <-. apply (IH _) in Eo; [done| |done].
      unfold in_range, add_edge in *. cbn. rewrite Hg in *. apply Forall_app. split; [done|]. apply Forall_singleton. cbn. lia. }
    destruct (G es g1) with (g' := g') as [Hr Hng]; [by unfold in_range; rewrite He|done|done|].
    split; [|done]. intros i n Hi. apply Hd. by rewrite <-Hng.
Qed.
End tarball.
