(* ===== verification/SnapshotWorker.v ===== *)
(** * The snapshot worker ([services/snapshot/worker.py])

    One message of the queue: the job is checked, its source materialised and
    examined, parsed into a graph, the artifacts stored, and the outcome
    reported.  The queue and the object store are the interfaces of [Queue]
    and [ObjectStore]; the directory, the materialiser, the parser and the
    status port act on one external state.  Log lines and durations are left
    out. *)
From stdpp Require Import base tactics list gmap strings.
From Stdlib Require Import ZArith QArith Lia.
From S2P Require Import Prelude PyData PyDict Sha256 Ordering Json JsonAscii CpgDelta PyText Identity JsonParse Cpg Sarif Queue DslParser CwDetect CpgTarball ObjectStore SnapshotService.

Open Scope Z_scope.
Open Scope list_scope.
Open Scope py_scope.
Open Scope st_scope.

Definition Environ := pystr -> option pystr.

Definition ENV_DIGEST_VAR : pystr := str "SCANIPY_ENV_DIGEST".

(** ** Boot *)

Definition resolve_env_digest (environ : Environ) : outcome pystr :=
  let candidate := default [] (environ ENV_DIGEST_VAR) in
  if bool_decide (candidate = []) then Raise EnvDigestMissing
  else if negb (_ENV_DIGEST_RE candidate) then Raise EnvDigestMissing
  else Ok candidate.

Definition boot (environ : Environ) : outcome pystr := resolve_env_digest environ.

(** ** The job *)

Record SnapshotJob := mkSnapshotJob {
  sj_snapshot_id : pystr;
  sj_org_id : pystr;
  sj_codebase_id : pystr;
  sj_commit_sha : pystr;
  sj_env_digest : pystr;
  sj_clone_url : pystr;
  sj_parent_snapshot_id : option pystr
}.

Definition _REQUIRED_JOB_FIELDS : list pystr :=
  map str ["snapshot_id"; "org_id"; "codebase_id"; "commit_sha"; "env_digest"; "clone_url"]%string.

(** [body.get(name)], empty when it is missing *)
Definition field_of (b : Body) (name : pystr) : pystr := default [] (dict_get b name).

Definition _parse_snapshot_job (b : Body) : outcome SnapshotJob :=
  if existsb (fun name => bool_decide (field_of b name = [])) _REQUIRED_JOB_FIELDS then Raise MalformedSnapshotJobError
  else
    let text name := field_of b (str name) in
    let parent := text "parent_snapshot_id"%string in
    Ok (mkSnapshotJob (text "snapshot_id"%string) (text "org_id"%string) (text "codebase_id"%string) (text "commit_sha"%string)
          (text "env_digest"%string) (text "clone_url"%string) (if bool_decide (parent = []) then None else Some parent)).

(** ** Reports *)

Inductive SnapshotStatusState := ready_state | failed_state.

(** [error] is the exception whose text is reported. *)
Record SnapshotStatusReport := mkReport {
  sr_snapshot_id : pystr;
  sr_state : SnapshotStatusState;
  sr_env_digest : pystr;
  sr_precondition_status : option Route;
  sr_snapshot_digest : option pystr;
  sr_error : option exc
}.

Inductive Outcome := success | failure.

(** One completion metric: its outcome, the region and digest of the counter,
    the status of the duration ([None] is the text [unknown]). *)
Record Completion := mkCompletion {
  cm_outcome : Outcome;
  cm_region : pystr;
  cm_env_digest : pystr;
  cm_precondition_status : option Route
}.

(** ** The source tree *)

Definition _SOURCE_EXTENSIONS : list (pystr * pystr) :=
  map (fun p => (str p.1, str p.2))
    [(".py", "python"); (".pyi", "python"); (".java", "java"); (".js", "js"); (".jsx", "js"); (".mjs", "js"); (".cjs", "js");
     (".ts", "ts"); (".tsx", "ts"); (".rb", "ruby"); (".php", "php"); (".phtml", "php"); (".go", "go")]%string.

(** The files of [rglob] with [is_file]; a file at the root has nothing below. *)
Definition below (t : SourceTree) : list SourceFile := match t with Directory files => files | _ => [] end.

Section tree.
Context {U : UnicodeData}.

Definition source_language (f : SourceFile) : option pystr := dict_get _SOURCE_EXTENSIONS (lower (suffix (List.last (f_parts f) []))).

Definition count_language (counts : list (pystr * Z)) (f : SourceFile) : list (pystr * Z) :=
  match source_language f with
  | Some lang => dict_set counts lang (default 0 (dict_get counts lang) + 1)
  | None => counts
  end.

(** [max(items, key=lambda kv: (kv[1], kv[0]))] *)
Definition later (p q : pystr * Z) : pystr * Z :=
  if (p.2 <? q.2) || ((p.2 =? q.2) && negb (str_leb q.1 p.1)) then q else p.

Definition _detect_language_mix (t : SourceTree) : outcome (list pystr * pystr) :=
  match fold_left count_language (below t) [] with
  | [] => Raise NoSourceFilesFoundError
  | c :: counts => Ok (py_sorted str_leb (map fst (c :: counts)), (fold_left later counts c).1)
  end.
End tree.

(** ** The artifacts *)

(** [json.dumps] with its default separators *)
Fixpoint join_spaced (l : list pystr) : pystr :=
  match l with [] => [] | [x] => x | x :: l => x ++ str ", " ++ join_spaced l end.

Fixpoint dumps_spaced (v : json) : pystr :=
  match v with
  | JList l => str "[" ++ join_spaced (map dumps_spaced l) ++ str "]"
  | JObj items => str "{" ++ join_spaced (map (fun kv => json_string_ascii kv.1 ++ str ": " ++ dumps_spaced kv.2) items) ++ str "}"
  | _ => render_with json_string_ascii v
  end.

Definition ascii_bytes (s : pystr) : outcome pybytes := match utf8_encode s with Some b => Ok b | None => Raise UnicodeEncodeError end.

(** The items of a dict from names to identifiers, in order of insertion *)
Definition index_node (index : list (pystr * list Z)) (n : CPGNode) : list (pystr * list Z) :=
  match resolved_fqn n with
  | [] => index
  | fqn => dict_set index fqn (default [] (dict_get index fqn) ++ [node_id n])
  end.

Definition _build_reverse_symbol_index (g : CPG) : outcome pybytes :=
  let index := fold_left index_node (nodes g) [] in
  ascii_bytes (dumps_spaced (canon (JObj (map (fun p => (p.1, JList (map JInt p.2))) index)))).

Definition STUB_NOTE : pystr :=
  str "CMP-SNAP-02 GraphView (dynamic call-graph construction) is Wave-2+ scope per CLAR-SNAP-04; this bootstrap snapshot has no computed call-graph edges.".

Definition _build_dynamic_call_graph_stub : outcome pybytes :=
  ascii_bytes (dumps_spaced (JObj [(str "edges", JList []); (str "bootstrap_mode", JBool true); (str "note", JStr STUB_NOTE)])).

Definition route_text (r : Route) : pystr :=
  match r with closed_world => str "closed-world" | degraded => str "degraded" | full_reparse => str "full-reparse" end.

Definition site_document (s : ReflectionSite) : json :=
  JObj [(str "file", JStr (site_file s)); (str "line", JInt (site_line s)); (str "kind", JStr (site_kind s)); (str "snippet", JStr (site_snippet s))].

(** [asdict(verdict)] *)
Definition verdict_document (v : CwDetectVerdict) : json :=
  JObj [(str "verdict", JStr (route_text (verdict v))); (str "cw_detect_version", JStr (cw_detect_version v));
        (str "reflection_sites", JList (map site_document (reflection_sites v))); (str "decided_at", JStr (decided_at v));
        (str "confidence", JStr (match confidence v with high => str "high" | uncertain => str "uncertain" end))].

Definition _build_precondition_status_record (v : CwDetectVerdict) : outcome pybytes := ascii_bytes (dumps_spaced (verdict_document v)).

(** The bytes of [snapshot_digest] *)
Definition digest_input (bodies : list (pystr * pybytes)) : pybytes :=
  concat (map (fun t => match dict_get bodies t with Some body => t ++ str ":" ++ body | None => [] end) SNAPSHOT_ARTIFACT_TYPES).

(** ** The loop *)

(** The collaborators' states, the locals the handler of the loop reads, and
    what was reported and counted. *)
Record LoopWorld (Q B X : Type) := mkLoop {
  lw_queue : Q;
  lw_objects : B;
  lw_ext : X;
  lw_job : option SnapshotJob;
  lw_verdict : option Route;
  lw_reports : list SnapshotStatusReport;
  lw_completions : list Completion
}.
Arguments mkLoop {Q B X} _ _ _ _ _ _ _.
Arguments lw_queue {Q B X} _.
Arguments lw_objects {Q B X} _.
Arguments lw_ext {Q B X} _.
Arguments lw_job {Q B X} _.
Arguments lw_verdict {Q B X} _.
Arguments lw_reports {Q B X} _.
Arguments lw_completions {Q B X} _.

Section loop.
Context `{PyRuntime, Archive, CaseFolding} {U : UnicodeData} {Q B X : Type} `{!Queue Q, !S3Client B}.

Notation W := (LoopWorld Q B X).

Definition on_loop_queue {A} (m : Q -> outcome A * Q) : St W A := fun w =>
  let '(r, q) := m (lw_queue w) in
  (r, mkLoop q (lw_objects w) (lw_ext w) (lw_job w) (lw_verdict w) (lw_reports w) (lw_completions w)).
Definition on_store {A} (m : St B A) : St W A := fun w =>
  let '(r, b) := m (lw_objects w) in
  (r, mkLoop (lw_queue w) b (lw_ext w) (lw_job w) (lw_verdict w) (lw_reports w) (lw_completions w)).
Definition outside {A} (m : St X A) : St W A := fun w =>
  let '(r, x) := m (lw_ext w) in
  (r, mkLoop (lw_queue w) (lw_objects w) x (lw_job w) (lw_verdict w) (lw_reports w) (lw_completions w)).

Definition set_job (j : SnapshotJob) : St W unit := sput (fun w =>
  mkLoop (lw_queue w) (lw_objects w) (lw_ext w) (Some j) (lw_verdict w) (lw_reports w) (lw_completions w)).
Definition set_verdict (v : Route) : St W unit := sput (fun w =>
  mkLoop (lw_queue w) (lw_objects w) (lw_ext w) (lw_job w) (Some v) (lw_reports w) (lw_completions w)).
Definition log_report (s : SnapshotStatusReport) : St W unit := sput (fun w =>
  mkLoop (lw_queue w) (lw_objects w) (lw_ext w) (lw_job w) (lw_verdict w) (lw_reports w ++ [s]) (lw_completions w)).
Definition enter : St W unit := sput (fun w =>
  mkLoop (lw_queue w) (lw_objects w) (lw_ext w) None None (lw_reports w) (lw_completions w)).

Definition record_snapshot_job_completion (environ : Environ) (o : Outcome) (env_digest : pystr) (status : option Route) : St W unit :=
  let region := default (str "us-east-1") (environ (str "AWS_REGION")) in
  sput (fun w => mkLoop (lw_queue w) (lw_objects w) (lw_ext w) (lw_job w) (lw_verdict w) (lw_reports w)
                   (lw_completions w ++ [mkCompletion o region env_digest status])).

(** [environ.get(name)], refused when missing or empty *)
Definition required (environ : Environ) (name code : string) : outcome pystr :=
  match environ (str name) with Some (c :: v) => Ok (c :: v) | _ => Raise (InvariantViolation code) end.

(** The URL of the queue and the bucket of the store the defaults are bound to *)
Definition _default_snapshot_queue (environ : Environ) : outcome pystr := required environ "SNAPSHOT_QUEUE_URL" "missing_snapshot_queue_url".
Definition _default_object_store (environ : Environ) : outcome (ObjectStore B) :=
  bucket ⇐ required environ "S3_BUCKET" "missing_s3_bucket"; Ok (S3ObjectStore bucket).

Definition refuse_native_git_acquisition {A} : St W A := sraise NativeGitAcquisitionUnavailable.

Definition ReportStatusPort : Type := SnapshotStatusReport -> St X unit.
Definition _fail_closed_report_status_port : ReportStatusPort := fun _ => sraise NotImplementedError.

(** A call of the port; what was reported is kept whether or not it raises. *)
Definition report (port : ReportStatusPort) (s : SnapshotStatusReport) : St W unit := log_report s ⨟ outside (port s).

(** [source_materializer(job, src_root)] and the tree it leaves there;
    [parse_source(src_root, language)] *)
Definition SourceMaterializer : Type := SnapshotJob -> pystr -> St X SourceTree.
Definition ParseSourceFn : Type := SourceTree -> pystr -> St X CPG.

(** [tempfile.TemporaryDirectory]: making it gives its path. *)
Record Directories := mkDirectories { make_directory : St X pystr; remove_directory : pystr -> St X unit }.

Definition with_directory {A} (dirs : Directories) (body : pystr -> St W A) : St W A :=
  d ⟸ outside (make_directory dirs);
  a ⟸ scatch (body d) (fun e => outside (remove_directory dirs d) ⨟ sraise e);
  outside (remove_directory dirs d) ⨟
  sret a.

Section job.
Variable env_digest : pystr.
Variable environ : Environ.
Variable queue_given : bool.
Variable object_store : option (ObjectStore B).
Variable parse_source : ParseSourceFn.
Variable source_materializer : option SourceMaterializer.
Variable report_status : option ReportStatusPort.
Variable dirs : Directories.
Variable now : pystr.

Definition active_report_status : ReportStatusPort := default _fail_closed_report_status_port report_status.

(** The four bodies of a bootstrap snapshot, in the order of the dict *)
Definition build_artifacts (g : CPG) (v : CwDetectVerdict) : outcome (list (pystr * pybytes)) :=
  tarball ⇐ serialize_cpg_tarball g;
  index ⇐ _build_reverse_symbol_index g;
  calls ⇐ _build_dynamic_call_graph_stub;
  status ⇐ _build_precondition_status_record v;
  Ok [(str "cpg_tarball", tarball); (str "reverse_symbol_index", index); (str "dynamic_call_graph", calls); (str "precondition_status", status)].

Definition upload (store : ObjectStore B) (job : SnapshotJob) (builder : SnapshotKeyBuilder) (bodies : list (pystr * pybytes)) (t : pystr) : St W unit :=
  if str_eqb t DELTA then sret tt
  else
    (k ⟸ slift (artifact_key builder t);
     body ⟸ slift (match dict_get bodies t with Some b => Ok b | None => Raise KeyError end);
     on_store (os_put store (sj_org_id job) k body)).

Definition job_builder (job : SnapshotJob) : SnapshotKeyBuilder :=
  mkKeyBuilder (sj_org_id job) (sj_codebase_id job) (sj_commit_sha job) env_digest.

(** Inside the temporary directory; the answer is the digest and the status. *)
Definition build_snapshot (store : ObjectStore B) (materialize : SourceMaterializer) (job : SnapshotJob) (tmp_root : pystr) : St W (pystr * Route) :=
  let src_root := tmp_root ++ str "/src" in
  tree ⟸ outside (materialize job src_root);
  mix ⟸ slift (_detect_language_mix tree);
  let v := detect (mkCwRequest src_root tree mix.1 None) now in
  set_verdict (verdict v) ⨟
  (g ⟸ outside (parse_source tree mix.2);
   bodies ⟸ slift (build_artifacts g v);
   let builder := job_builder job in
   _ ⟸ slift (check_key_builder builder);
   sfold (fun _ => upload store job builder bodies) tt SNAPSHOT_ARTIFACT_TYPES ⨟
   sret (str "sha256:" ++ hex (sha256 (digest_input bodies)), verdict v)).

(** The [try] block *)
Definition process_message (rm : ReceivedMessage) : St W Route :=
  job ⟸ slift (_parse_snapshot_job (body (message rm)));
  set_job job ⨟
  (if negb (str_eqb (sj_env_digest job) env_digest) then sraise (InvariantViolation "invariant_inv2_violation")
   else match sj_parent_snapshot_id job with
   | Some _ => sraise IncrementalSnapshotNotSupportedError
   | None =>
       match source_materializer with
       | None => refuse_native_git_acquisition
       | Some materialize =>
           store ⟸ slift (match object_store with Some s => Ok s | None => _default_object_store environ end);
           built ⟸ with_directory dirs (build_snapshot store materialize job);
           report active_report_status (mkReport (sj_snapshot_id job) ready_state env_digest (Some built.2) (Some built.1) None) ⨟
           (on_loop_queue (q_ack (receipt_handle rm)) ⨟
            sret built.2)
       end
   end).

(** [except Exception] *)
Definition scatch_exception {A} (m : St W A) (handler : exc -> St W A) : St W A :=
  scatch m (fun e => if is_exception e then handler e else sraise e).

Definition report_failure (e : exc) : St W unit :=
  job ⟸ sget lw_job;
  match job with
  | None => sret tt
  | Some job =>
      scatch_exception (report active_report_status (mkReport (sj_snapshot_id job) failed_state env_digest None None (Some e)))
        (fun _ => sret tt)
  end.

Definition on_failure (rm : ReceivedMessage) (e : exc) : St W unit :=
  status ⟸ sget lw_verdict;
  report_failure e ⨟
  (on_loop_queue (q_fail (receipt_handle rm)) ⨟
   record_snapshot_job_completion environ failure env_digest status).

Definition run_execute_loop : St W unit :=
  _ ⟸ slift (if queue_given then Ok [] else _default_snapshot_queue environ);
  received ⟸ on_loop_queue q_receive;
  match received with
  | None => sret tt
  | Some rm =>
      enter ⨟
      (outcome ⟸ scatch_exception (status ⟸ process_message rm; sret (Some status)) (fun e => on_failure rm e ⨟ sret None);
       match outcome with
       | None => sret tt
       | Some status => record_snapshot_job_completion environ success env_digest (Some status)
       end)
  end.
End job.

(** The exit code of [main]; the production collaborators are the defaults. *)
Definition main (environ : Environ) (parse_source : ParseSourceFn) (dirs : Directories) (now : pystr) : St W Z :=
  match boot environ with
  | Raise EnvDigestMissing => sret 1
  | Raise e => sraise e
  | Ok env_digest => run_execute_loop env_digest environ false None parse_source None None dirs now ⨟ sret 0
  end.
End loop.
