(* ===== verification/SnapshotWorkerSpec.v ===== *)
(** * What the snapshot worker reports

    A message is accounted for by one completion, where the queue and the
    status port keep their promises; a snapshot is reported ready
    only when its artifacts are stored, and they are those of the graph and
    the verdict of its source. *)
From stdpp Require Import base tactics list gmap strings.
From Stdlib Require Import ZArith QArith Lia.
From S2P Require Import Prelude PyData PyDict Sha256 Ordering Json JsonAscii CpgDelta PyText Identity JsonParse Cpg Sarif Queue DslParser CwDetect CpgTarball ObjectStore SnapshotService SnapshotWorker.

Open Scope Z_scope.
Open Scope list_scope.
Open Scope py_scope.
Open Scope st_scope.

Section loop.
Context `{PyRuntime, Archive, CaseFolding} {U : UnicodeData} {Q B X : Type} `{!Queue Q, !S3Client B}.
Notation W := (LoopWorld Q B X).
Implicit Types (w : W).

(** ** What the parts of the loop leave alone *)

Definition account (w : W) := (lw_queue w, lw_reports w, lw_completions w).

Lemma outside_keeps {A} (m : St X A) : keeps account (outside m).
Proof. intros w. unfold outside. by destruct (m (lw_ext w)). Qed.
Lemma on_store_keeps {A} (m : St B A) : keeps account (on_store m).
Proof. intros w. unfold on_store. by destruct (m (lw_objects w)). Qed.
Lemma outside_objects {A} (m : St X A) : keeps (@lw_objects Q B X) (outside m).
Proof. intros w. unfold outside. by destruct (m (lw_ext w)). Qed.
Lemma on_queue_objects {A} (m : Q -> outcome A * Q) : keeps (@lw_objects Q B X) (on_loop_queue m).
Proof. intros w. unfold on_loop_queue. by destruct (m (lw_queue w)). Qed.
Lemma report_objects port s : keeps (@lw_objects Q B X) (report port s).
Proof. unfold report. apply keeps_bind; [done|]. intros _. apply outside_objects. Qed.

#[local] Hint Resolve outside_keeps on_store_keeps outside_objects on_queue_objects report_objects : keeps.

Lemma report_effect port s w r w' : report port s w = (r, w') ->
  lw_queue w' = lw_queue w /\ lw_reports w' = lw_reports w ++ [s] /\ lw_completions w' = lw_completions w.
Proof.
  unfold report, sbind, log_report, sput. intros E.
  match type of E with outside ?m ?w0 = _ => pose proof (outside_keeps m w0) as K end. rewrite E in K. unfold account in K. cbn in K.
  injection K as -> -> ->. done.
Qed.

Section job.
Variable env_digest : pystr.
Variable environ : Environ.
Variable queue_given : bool.
Variable object_store : option (ObjectStore B).
Variable parse_source : ParseSourceFn (X := X).
Variable source_materializer : option (SourceMaterializer (X := X)).
Variable report_status : option (ReportStatusPort (X := X)).
Variable dirs : Directories (X := X).
Variable now : pystr.

Notation process_message := (process_message env_digest environ object_store parse_source source_materializer report_status dirs now).
Notation build_snapshot := (build_snapshot env_digest parse_source now).
Notation report_failure := (report_failure env_digest report_status).
Notation on_failure := (on_failure env_digest environ report_status).
Notation run_execute_loop := (run_execute_loop env_digest environ queue_given object_store parse_source source_materializer report_status dirs now).

Lemma upload_keeps store job b bodies t : keeps account (upload (Q := Q) store job b bodies t : St W unit).
Proof. unfold upload. destruct (str_eqb t DELTA); auto 8 with keeps. Qed.
#[local] Hint Resolve upload_keeps : keeps.

Lemma build_keeps store materialize job d : keeps account (build_snapshot store materialize job d : St W _).
Proof. unfold SnapshotWorker.build_snapshot. cbn zeta. repeat (apply keeps_bind; [auto with keeps; done|intros ?]). auto with keeps. Qed.

Lemma with_directory_keeps {A P} (part : W -> P) (m : pystr -> St W A) :
  (forall C (n : St X C), keeps part (outside n)) -> (forall d, keeps part (m d)) -> keeps part (with_directory dirs m).
Proof.
  intros Ho Hm. unfold with_directory. apply keeps_bind; [done|]. intros d. apply keeps_bind.
  - apply keeps_catch; [done|]. intros e. apply keeps_bind; auto with keeps.
  - intros a. apply keeps_bind; auto with keeps.
Qed.

(** The report of a finished snapshot. *)
Definition ready_report (job : SnapshotJob) (built : pystr * Route) : SnapshotStatusReport :=
  mkReport (sj_snapshot_id job) ready_state env_digest (Some built.2) (Some built.1) None.

(** The job may be worked on. *)
Definition admitted (rm : ReceivedMessage) (job : SnapshotJob) : Prop :=
  _parse_snapshot_job (body (message rm)) = Ok job /\ sj_env_digest job = env_digest /\ sj_parent_snapshot_id job = None.

Definition active_store (store : ObjectStore B) : Prop :=
  match object_store with Some s => s = store | None => _default_object_store environ = Ok store end.

(** The status port raises nothing. *)
Definition port_answers : Prop := forall s x, (active_report_status report_status s x).1 = Ok tt.

Lemma report_answers s w : port_answers -> (report (active_report_status report_status) s w).1 = Ok tt.
Proof.
  intros Hp. unfold report, sbind, log_report, sput, outside. cbn. pose proof (Hp s (lw_ext w)) as E.
  by destruct (active_report_status report_status s (lw_ext w)).
Qed.

(** The [try] block: refused before anything is reported, or the snapshot was
    built in [w1], reported ready, and then acknowledged unless the report
    raised. *)
Lemma process_effect rm w r w' : process_message rm w = (r, w') ->
  lw_completions w' = lw_completions w /\
  ((account w' = account w /\ exists e, r = Raise e) \/
   (exists job store materialize built w0 w1, admitted rm job /\ active_store store /\ source_materializer = Some materialize /\
      lw_objects w0 = lw_objects w /\ with_directory dirs (build_snapshot store materialize job) w0 = (Ok built, w1) /\
      lw_reports w' = lw_reports w ++ [ready_report job built] /\ lw_objects w' = lw_objects w1 /\
      ((lw_queue w' = lw_queue w /\ ~ port_answers /\ exists e, r = Raise e) \/
       exists r0, q_ack (receipt_handle rm) (lw_queue w) = (r0, lw_queue w') /\ r = obind r0 (fun _ => Ok built.2)))).
Proof.
  unfold SnapshotWorker.process_message. unfold sbind at 1, slift at 1.
  destruct (_parse_snapshot_job _) as [job|e] eqn:Hj; [|intros [= <- <-]; split; [done|left; eauto]].
  unfold sbind at 1, set_job at 1, sput at 1. set (w0 := mkLoop _ _ _ _ _ _ _).
  assert (Hw0 : account w0 = account w /\ lw_objects w0 = lw_objects w) by done. clearbody w0. destruct Hw0 as [Ha Ho].
  assert (Fail : forall e (w1 : W), account w1 = account w -> (Raise e : outcome Route, w1) = (r, w') ->
    lw_completions w' = lw_completions w /\ (account w' = account w /\ exists e, r = Raise e)).
  { intros e w1 E1 [= <- <-]. split; [by injection E1|]. eauto. }
  destruct (str_eqb _ env_digest) eqn:Hd; cbn [negb]; [|intros E; apply (Fail _ w0) in E as []; auto].
  apply bool_decide_eq_true in Hd. destruct (sj_parent_snapshot_id job) eqn:Hp; [intros E; apply (Fail _ w0) in E as []; auto|].
  destruct source_materializer as [materialize|]; [|intros E; apply (Fail _ w0) in E as []; auto].
  unfold sbind at 1, slift at 1. destruct (match object_store with Some s => Ok s | None => _ end) as [store|e] eqn:Hs;
    [|intros E; apply (Fail _ w0) in E as []; auto].
  unfold sbind at 1. destruct (with_directory _ _ w0) as [[built|e] w1] eqn:Hb.
  all: pose proof (keeps_run account _ _ _ _ (with_directory_keeps account _ (fun _ => outside_keeps) (build_keeps store materialize job)) Hb) as Hw1.
  2: { intros E. apply (Fail _ w1) in E as []; [auto|congruence]. }
  pose proof (report_answers (ready_report job built) w1) as Hport. unfold ready_report in Hport.
  unfold sbind at 1. destruct (report _ _ w1) as [[[]|e] w2] eqn:Hr; pose proof (keeps_run _ _ _ _ _ (report_objects _ _) Hr) as Ho2;
    apply report_effect in Hr as (Q2 & R2 & C2).
  - unfold sbind at 1, on_loop_queue. destruct (q_ack _ (lw_queue w2)) as [r0 q] eqn:Hq. intros E.
    assert (Ew : w' = mkLoop q (lw_objects w2) (lw_ext w2) (lw_job w2) (lw_verdict w2) (lw_reports w2) (lw_completions w2) /\ r = obind r0 (fun _ => Ok built.2)).
    { destruct r0; by injection E as <- <-. }
    destruct Ew as [-> ->]. cbn. unfold account in *. injection Ha as Q1 R1 C1. injection Hw1 as A1 A2 A3. split; [congruence|right].
    exists job, store, materialize, built, w0, w1. split_and!; try done.
    + unfold active_store. destruct object_store; congruence.
    + by rewrite R2, A2, R1.
    + right. exists r0. split; [|done]. replace (lw_queue w) with (lw_queue w2) by congruence. done.
  - intros [= <- <-]. unfold account in *. injection Ha as Q1 R1 C1. injection Hw1 as A1 A2 A3. split; [congruence|right].
    exists job, store, materialize, built, w0, w1. split_and!; try done.
    + unfold active_store. destruct object_store; congruence.
    + by rewrite R2, A2, R1.
    + left. split_and!; [congruence| |eauto]. intros Hans. by specialize (Hport Hans).
Qed.

Definition failed_report (job : SnapshotJob) (e : exc) : SnapshotStatusReport :=
  mkReport (sj_snapshot_id job) failed_state env_digest None None (Some e).

Lemma report_failure_effect e w r w' : report_failure e w = (r, w') ->
  lw_queue w' = lw_queue w /\ lw_completions w' = lw_completions w /\ lw_objects w' = lw_objects w /\
  lw_reports w' = lw_reports w ++ match lw_job w with Some job => [failed_report job e] | None => [] end.
Proof.
  unfold SnapshotWorker.report_failure. unfold sbind, sget. destruct (lw_job w) as [job|]; [|intros [= _ <-]; by rewrite app_nil_r].
  unfold scatch_exception, scatch. destruct (report _ _ w) as [r0 w0] eqn:E.
  pose proof (keeps_run _ _ _ _ _ (report_objects _ _) E) as Ho. apply report_effect in E as (Eq & Er & Ec).
  destruct r0 as [[]|e0]; [by intros [= _ <-]|]. destruct (is_exception e0); by intros [= _ <-].
Qed.

Lemma on_failure_effect rm e w r w' : on_failure rm e w = (r, w') ->
  lw_objects w' = lw_objects w /\
  lw_reports w' = lw_reports w ++ match lw_job w with Some job => [failed_report job e] | None => [] end /\
  match r with
  | Ok _ => q_fail (receipt_handle rm) (lw_queue w) = (Ok tt, lw_queue w') /\
      lw_completions w' = lw_completions w ++ [mkCompletion failure (default (str "us-east-1") (environ (str "AWS_REGION"))) env_digest (lw_verdict w)]
  | Raise _ => lw_completions w' = lw_completions w
  end.
Proof.
  unfold SnapshotWorker.on_failure. unfold sbind at 1, sget at 1. unfold sbind at 1.
  destruct (report_failure e w) as [[[]|e0] w1] eqn:E; apply report_failure_effect in E as (E1 & E2 & E3 & E4); [|by intros [= <- <-]].
  unfold sbind, on_loop_queue. destruct (q_fail _ (lw_queue w1)) as [[[]|e0] q] eqn:Eq; intros [= <- <-]; cbn; [|done].
  rewrite E3, E4, E2. split_and!; try done. by rewrite <-E1.
Qed.

(** The queue settles the message under this receipt, either way. *)
Definition settles (rm : ReceivedMessage) (q : Q) : Prop :=
  (exists q', q_ack (receipt_handle rm) q = (Ok tt, q')) /\ (exists q', q_fail (receipt_handle rm) q = (Ok tt, q')).

Lemma on_failure_settles rm e w : settles rm (lw_queue w) -> port_answers -> (on_failure rm e w).1 = Ok tt.
Proof.
  intros [_ [q' Hq]] Hp. unfold SnapshotWorker.on_failure. unfold sbind at 1, sget at 1. unfold sbind at 1.
  assert (Hr : (report_failure e w).1 = Ok tt).
  { unfold SnapshotWorker.report_failure. unfold sbind, sget. destruct (lw_job w) as [job|]; [|done]. unfold scatch_exception, scatch.
    pose proof (report_answers (failed_report job e) w Hp) as Hr. unfold failed_report in Hr. by destruct (report _ _ w) as [r0 w0]; cbn in Hr; subst r0. }
  destruct (report_failure e w) as [r0 w1] eqn:E. cbn in Hr. subst r0. apply report_failure_effect in E as (E1 & _).
  unfold sbind, on_loop_queue. by rewrite E1, Hq.
Qed.

Lemma outside_job {A} (m : St X A) : keeps (@lw_job Q B X) (outside m).
Proof. intros w. unfold outside. by destruct (m (lw_ext w)). Qed.
Lemma on_store_job {A} (m : St B A) : keeps (@lw_job Q B X) (on_store m).
Proof. intros w. unfold on_store. by destruct (m (lw_objects w)). Qed.
Lemma on_queue_job {A} (m : Q -> outcome A * Q) : keeps (@lw_job Q B X) (on_loop_queue m).
Proof. intros w. unfold on_loop_queue. by destruct (m (lw_queue w)). Qed.
Lemma report_job port s : keeps (@lw_job Q B X) (report port s).
Proof. unfold report. apply keeps_bind; [done|]. intros _. apply outside_job. Qed.
#[local] Hint Resolve outside_job on_store_job on_queue_job report_job : keeps.

Lemma upload_job store job b bodies t : keeps (@lw_job Q B X) (upload (Q := Q) store job b bodies t).
Proof. unfold upload. destruct (str_eqb t DELTA); auto 8 with keeps. Qed.
#[local] Hint Resolve upload_job : keeps.

Lemma build_job store materialize job d : keeps (@lw_job Q B X) (build_snapshot store materialize job d).
Proof. unfold SnapshotWorker.build_snapshot. cbn zeta. repeat (apply keeps_bind; [auto with keeps; done|intros ?]). auto with keeps. Qed.

Lemma process_job rm w : lw_job (process_message rm w).2 = match _parse_snapshot_job (body (message rm)) with Ok job => Some job | Raise _ => lw_job w end.
Proof.
  unfold SnapshotWorker.process_message. unfold sbind at 1, slift at 1. destruct (_parse_snapshot_job _) as [job|e]; [|done].
  unfold sbind at 1, set_job at 1, sput at 1. set (w0 := mkLoop _ _ _ _ _ _ _). change (Some job) with (lw_job w0). clearbody w0.
  apply keeps_if; [done|]. destruct (sj_parent_snapshot_id job); [done|]. destruct source_materializer as [materialize|]; [|done].
  apply keeps_bind; [auto with keeps|]. intros store. apply keeps_bind; [apply with_directory_keeps; intros; [apply outside_job|apply build_job]|].
  intros built. auto 8 with keeps.
Qed.

(** How a message that was received is accounted for: the completion, the
    reports sent and the queue afterwards. *)
Definition accounted_as (rm : ReceivedMessage) (q : Q) (o : Outcome) (status : option Route) (reps : list SnapshotStatusReport) (q' : Q) : Prop :=
  match o with
  | success => exists job built, admitted rm job /\ reps = [ready_report job built] /\ status = Some built.2 /\ q_ack (receipt_handle rm) q = (Ok tt, q')
  | failure => q_fail (receipt_handle rm) q = (Ok tt, q') /\
      forall job, _parse_snapshot_job (body (message rm)) = Ok job -> exists e, reps = [failed_report job e]
  end.

(** C23: every message the worker receives is accounted for once, over a queue
    that settles the message it has handed out and a status port that
    answers.  The loop then returns, unless an exception outside [Exception]
    escapes from a collaborator and ends the task; when it returns it has
    counted exactly one completion.  A success comes with one report, ready,
    for a job of this environment without a parent, and the message
    acknowledged; a failure comes with the message given back and, if its job
    could be read, one report, failed.  An empty queue changes nothing. *)
Theorem loop_accounts_once (w : W) r w' received q :
  (if queue_given then Ok [] else _default_snapshot_queue environ) <> Raise (InvariantViolation "missing_snapshot_queue_url") ->
  q_receive (lw_queue w) = (Ok received, q) -> run_execute_loop w = (r, w') ->
  match received with
  | None => r = Ok tt /\ account w' = (q, lw_reports w, lw_completions w)
  | Some rm => settles rm q -> port_answers ->
      match r with
      | Ok _ => exists o status reps, lw_reports w' = lw_reports w ++ reps /\
          lw_completions w' = lw_completions w ++ [mkCompletion o (default (str "us-east-1") (environ (str "AWS_REGION"))) env_digest status] /\
          accounted_as rm q o status reps (lw_queue w')
      | Raise e => is_exception e = false
      end
  end.
Proof.
  intros Hq Hrec. unfold SnapshotWorker.run_execute_loop. unfold sbind at 1, slift at 1.
  destruct (if queue_given then Ok [] else _default_snapshot_queue environ) as [url|e] eqn:Eu.
  2: { exfalso. apply Hq. destruct queue_given; [done|]. unfold _default_snapshot_queue, required in Eu.
       destruct (environ _) as [[|]|]; congruence. }
  unfold sbind at 1, on_loop_queue at 1. rewrite Hrec. destruct received as [rm|]; [|by intros [= <- <-]].
  unfold sbind at 1, enter at 1, sput at 1. cbn [lw_queue lw_objects lw_ext lw_job lw_verdict lw_reports lw_completions].
  set (w0 := mkLoop _ _ _ _ _ _ _). unfold sbind at 1. unfold scatch_exception, scatch. unfold sbind at 1. intros E Hset Hport. revert E.
  destruct (process_message rm w0) as [[v|e] w1] eqn:Ep; pose proof (process_job rm w0) as Hjob; rewrite Ep in Hjob; cbn [snd] in Hjob;
    apply process_effect in Ep as (Hc & Hcase).
  - cbn [sret]. intros [= <- <-]. cbn. destruct Hcase as [[_ [e He]]|(job & store & m & built & wa & wb & Ha & _ & _ & _ & _ & Hr & _ & Hcase)]; [done|].
    destruct Hcase as [(_ & _ & e & He)|(r0 & Hack & Hv)]; [done|]. destruct r0 as [[]|e]; [|done]. injection Hv as ->.
    exists success, (Some built.2), [ready_report job built]. split_and!; [done|by rewrite Hc|]. by exists job, built.
  - destruct (is_exception e) eqn:Hex; [|by intros [= <- <-]].
    assert (Hacc : account w1 = account w0).
    { destruct Hcase as [[Hacc _]|(job & store & m & built & wa & wb & _ & _ & _ & _ & _ & _ & _ & Hcase)]; [done|]. exfalso.
      destruct Hcase as [(_ & Hp & _)|(r0 & Hack & Hv)]; [done|]. destruct Hset as [[q' Hset] _]. cbn in Hack. rewrite Hset in Hack. by injection Hack as <- _. }
    injection Hacc as A1 A2 _. pose proof (on_failure_settles rm e w1) as Hok. rewrite A1 in Hok. specialize (Hok Hset Hport).
    unfold sbind at 1. destruct (on_failure rm e w1) as [r1 w2] eqn:Ef. cbn in Hok. subst r1. apply on_failure_effect in Ef as (_ & Fr & Fq & Fc).
    cbn [sret]. intros [= <- <-]. exists failure, (lw_verdict w1). rewrite Fc, Hc, Fr, A2. eexists. split_and!; [reflexivity|done|].
    rewrite A1 in Fq. split; [exact Fq|]. intros job Hj. rewrite Hj in Hjob. rewrite Hjob. by exists e.
Qed.

(** ** What a ready report vouches for *)

Section stored.
Context (store : ObjectStore B) `{!LawfulStore store}.

Definition shelf (w : W) : gmap pystr pybytes := objects (lw_objects w).

Lemma on_store_put org k body w r w' : on_store (os_put store org k body) w = (r, w') ->
  (forall key, key <> k -> shelf w' !! key = shelf w !! key) /\ (r = Ok tt -> shelf w' !! k = Some body).
Proof.
  unfold on_store. destruct (os_put store org k body (lw_objects w)) as [r0 b] eqn:E. intros [= <- <-]. unfold shelf. cbn.
  destruct (_guard_key org k) as [k'|e] eqn:G.
  - pose proof (guard_key_Ok _ _ _ G) as [-> _]. destruct (put_effect _ _ _ _ _ _ E G) as [->|[[e ->] ->]]; split; try done.
    + intros key Hk. by rewrite lookup_insert_ne.
    + intros _. apply lookup_insert_eq.
  - pose proof (put_refused _ _ body (lw_objects w) _ G) as E'. rewrite E in E'. injection E' as -> ->. by split.
Qed.

Lemma upload_effect job b bodies t w r w' : upload store job b bodies t w = (r, w') ->
  (forall key, artifact_key b t <> Ok key -> shelf w' !! key = shelf w !! key) /\
  (r = Ok tt -> t <> DELTA -> exists k body, artifact_key b t = Ok k /\ dict_get bodies t = Some body /\ shelf w' !! k = Some body).
Proof.
  unfold upload, str_eqb. case_bool_decide as Ht; [by intros [= <- <-]|]. unfold sbind, slift.
  destruct (artifact_key b t) as [k|e]; [|by intros [= <- <-]]. destruct (dict_get bodies t) as [body|]; [|by intros [= <- <-]].
  intros [Hf Hok]%on_store_put. split; [intros key Hk; apply Hf; congruence|]. intros Hr _. exists k, body. auto.
Qed.

Lemma uploads_effect job b bodies u ts : check_key_builder b = Ok u -> NoDup ts -> forall w r w',
  sfold (fun _ => upload store job b bodies) tt ts w = (r, w') ->
  (forall key, (forall t, t ∈ ts -> artifact_key b t <> Ok key) -> shelf w' !! key = shelf w !! key) /\
  (r = Ok tt -> forall t, t ∈ ts -> t <> DELTA ->
     exists k body, artifact_key b t = Ok k /\ dict_get bodies t = Some body /\ shelf w' !! k = Some body).
Proof.
  intros Hb. induction ts as [|t ts IH]; intros Hnd w r w'; cbn [sfold]; [intros [= <- <-]; split; [done|set_solver]|].
  apply NoDup_cons in Hnd as [Ht Hnd]. unfold sbind. destruct (upload store job b bodies t w) as [[[]|e] w1] eqn:E1; apply upload_effect in E1 as [F1 S1].
  - intros [F2 S2]%(IH Hnd). split.
    + intros key Hk. rewrite F2, F1; [done|apply Hk; left|intros t' Ht'; apply Hk; by right].
    + intros Hr t' Ht' Hd. apply elem_of_cons in Ht' as [->|Ht']; [|by apply S2]. destruct (S1 eq_refl Hd) as (k & body & K1 & K2 & K3).
      exists k, body. split_and!; try done. rewrite F2; [done|]. intros t' Ht' Hk. destruct (artifact_key_inj _ _ _ _ _ _ _ Hb Hb K1 Hk) as [_ ->]. done.
  - intros [= <- <-]. split; [|done]. intros key Hk. apply F1. apply Hk. left.
Qed.

(** The snapshot of a job: its tree, verdict and graph, and the bodies stored. *)
Record snapshot_of (job : SnapshotJob) (materialize : SourceMaterializer (X := X)) (built : pystr * Route) (w w' : W) : Prop := {
  so_source : exists src tree mix g x0 x1 x2 x3 bodies, materialize job src x0 = (Ok tree, x1) /\ _detect_language_mix tree = Ok mix /\
    parse_source tree mix.2 x2 = (Ok g, x3) /\
    let v := detect (mkCwRequest src tree mix.1 None) now in
    build_artifacts g v = Ok bodies /\ built = (str "sha256:" ++ hex (sha256 (digest_input bodies)), verdict v) /\
    (forall t, t ∈ SNAPSHOT_ARTIFACT_TYPES -> t <> DELTA -> exists k body, artifact_key (job_builder env_digest job) t = Ok k /\
       dict_get bodies t = Some body /\ shelf w' !! k = Some body);
  so_others : forall key, (forall t, artifact_key (job_builder env_digest job) t <> Ok key) -> shelf w' !! key = shelf w !! key
}.

Lemma outside_run {A} (m : St X A) w r w' : outside m w = (r, w') -> lw_objects w' = lw_objects w /\ m (lw_ext w) = (r, lw_ext w').
Proof. unfold outside. destruct (m (lw_ext w)). by intros [= <- <-]. Qed.

Lemma build_snapshot_Ok materialize job d w built w' : build_snapshot store materialize job d w = (Ok built, w') ->
  snapshot_of job materialize built w w'.
Proof.
  unfold SnapshotWorker.build_snapshot. cbn zeta. intros E.
  apply sbind_Ok in E as (tree & w1 & [O1 M]%outside_run & E). apply sbind_Ok in E as (mix & w2 & [Hmix ->]%slift_Ok & E).
  apply sbind_Ok in E as ([] & w3 & Hv & E). apply sbind_Ok in E as (g & w4 & [O4 Hp]%outside_run & E).
  apply sbind_Ok in E as (bodies & w5 & [Hb ->]%slift_Ok & E). apply sbind_Ok in E as ([] & w6 & [Hk ->]%slift_Ok & E).
  apply sbind_Ok in E as ([] & w7 & Hu & [= <- <-]). apply (uploads_effect _ _ _ _ _ Hk) in Hu as [F S]; [|decided].
  assert (Ho : lw_objects w4 = lw_objects w) by (rewrite O4; injection Hv as <-; exact O1).
  split.
  - exists (d ++ str "/src"), tree, mix, g, (lw_ext w), (lw_ext w1), (lw_ext w3), (lw_ext w4), bodies. cbn zeta. split_and!; try done. by apply S.
  - intros key Hkey. unfold shelf in *. rewrite F by auto. by rewrite Ho.
Qed.

Lemma with_directory_Ok {A} (m : pystr -> St W A) w a w' : with_directory dirs m w = (Ok a, w') ->
  exists d w1 w2, lw_objects w1 = lw_objects w /\ m d w1 = (Ok a, w2) /\ lw_objects w' = lw_objects w2.
Proof.
  unfold with_directory. intros E. apply sbind_Ok in E as (d & w1 & [O1 _]%outside_run & E).
  apply sbind_Ok in E as (a' & w2 & Hc & E). apply sbind_Ok in E as ([] & w3 & [O3 _]%outside_run & [= -> <-]).
  exists d, w1, w2. split; [done|]. split; [|done]. unfold scatch in Hc. destruct (m d w1) as [[x|e] wx] eqn:Em; [by injection Hc as -> ->|].
  apply sbind_Ok in Hc as (? & ? & _ & [=]).
Qed.

(** C22: a snapshot is reported ready only when it is stored.  If a run
    reports ready, the message was for this environment and without a parent,
    the report has the verdict of the detector on the tree that was
    materialised and the digest of the artifacts, and after the run, however
    it ended, each mandatory artifact is found at its key with the body built
    from that tree's graph and verdict; nothing else in the store changed. *)
Theorem ready_means_stored (w : W) r w' reps s :
  active_store store -> run_execute_loop w = (r, w') -> lw_reports w' = lw_reports w ++ reps -> s ∈ reps -> sr_state s = ready_state ->
  exists rm job materialize built, (q_receive (lw_queue w)).1 = Ok (Some rm) /\ admitted rm job /\ source_materializer = Some materialize /\
    s = ready_report job built /\ snapshot_of job materialize built w w'.
Proof.
  intros Hst. unfold SnapshotWorker.run_execute_loop. unfold sbind at 1, slift at 1.
  assert (Same : forall w1 : W, lw_reports w1 = lw_reports w -> forall x, (x, w1) = (r, w') -> lw_reports w' = lw_reports w ++ reps -> s ∈ reps -> False).
  { intros w1 E1 x [= _ <-] E2 Hs. rewrite E1 in E2. assert (reps = []) as ->; [|set_solver].
    apply (app_inv_head (lw_reports w)). by rewrite app_nil_r. }
  destruct (if queue_given then Ok [] else _default_snapshot_queue environ) as [url|e]; [|intros E Hr Hs; by destruct (Same w eq_refl _ E Hr Hs)].
  unfold sbind at 1, on_loop_queue at 1. destruct (q_receive (lw_queue w)) as [[[rm|]|e] q] eqn:Hq;
    [|intros E Hr Hs; exfalso; by eapply Same; [|exact E|..]..].
  unfold sbind at 1, enter at 1, sput at 1. cbn [lw_queue lw_objects lw_ext lw_job lw_verdict lw_reports lw_completions].
  set (w0 := mkLoop _ _ _ _ _ _ _). assert (Hw0 : lw_reports w0 = lw_reports w /\ lw_objects w0 = lw_objects w) by done. clearbody w0. destruct Hw0 as [R0 O0].
  unfold sbind at 1. unfold scatch_exception, scatch. unfold sbind at 1.
  destruct (process_message rm w0) as [x w1] eqn:Ep. apply process_effect in Ep as (_ & Hcase).
  (* what follows the block keeps the objects and reports only failures *)
  assert (After : forall k w2, lw_objects w2 = lw_objects w1 -> lw_reports w2 = lw_reports w1 ++ k -> (forall s', s' ∈ k -> sr_state s' = failed_state) ->
    lw_reports w2 = lw_reports w ++ reps -> s ∈ reps -> sr_state s = ready_state ->
    exists rm0 job materialize built, Ok (Some rm) = Ok (Some rm0) /\ admitted rm0 job /\ source_materializer = Some materialize /\
      s = ready_report job built /\ snapshot_of job materialize built w w2).
  { intros k w2 O2 R2 Hk Hr Hs Hready. destruct Hcase as [[Hacc _]|(job & st & m & built & wa & wb & Ha & Hst' & Hm & Oa & Hb & Hrep & Ob & _)].
    - injection Hacc as _ Hreps _. rewrite R2, Hreps, R0 in Hr. apply app_inv_head in Hr as <-. apply Hk in Hs. congruence.
    - exists rm, job, m, built. rewrite R2, Hrep, R0, <-app_assoc in Hr. apply app_inv_head in Hr as <-.
      assert (s = ready_report job built) as ->.
      { apply elem_of_app in Hs as [Hs|Hs]; [by apply list_elem_of_singleton in Hs|]. apply Hk in Hs. congruence. }
      split_and!; try done. assert (st = store) as -> by (unfold active_store in *; destruct object_store; congruence).
      apply with_directory_Ok in Hb as (d & wc & wd & Oc & Hb & Od). apply build_snapshot_Ok in Hb as [(src & Hsrc) Hothers].
      assert (Efin : lw_objects w2 = lw_objects wd) by congruence. assert (Eini : lw_objects wc = lw_objects w) by congruence.
      split; unfold shelf in *; rewrite Efin; [by exists src|]. intros key Hkey. rewrite Hothers by done. by rewrite Eini. }
  destruct x as [v|e].
  - cbn [sret]. intros [= <- <-]. apply (After []); [done|by rewrite app_nil_r|set_solver].
  - destruct (is_exception e); [|intros [= <- <-]; apply (After []); [done|by rewrite app_nil_r|set_solver]].
    unfold sbind at 1. destruct (on_failure rm e w1) as [y w2] eqn:Ef. apply on_failure_effect in Ef as (Fo & Fr & _).
    assert (Hk : forall s', s' ∈ match lw_job w1 with Some job => [failed_report job e] | None => [] end -> sr_state s' = failed_state).
    { destruct (lw_job w1); [|set_solver]. by intros s' ->%list_elem_of_singleton. }
    destruct y as [[]|e1]; cbn [sret]; intros [= <- <-]; exact (After _ w2 Fo Fr Hk).
Qed.
End stored.
End job.
End loop.
