(* ===== verification/SnapshotSamples.v ===== *)
(** * A snapshot of a sample repository

    The snapshot service and worker on the in-memory stores: two source
    files, their verdict and graph, and what is stored and reported. *)
From stdpp Require Import base tactics list gmap strings.
From Stdlib Require Import ZArith QArith Lia.
From S2P Require Import Prelude PyData PyDict Sha256 Ordering Json JsonAscii JsonRoundTrip CpgDelta PyText Identity JsonParse Cpg Sarif Queue DslParser CwDetect CpgTarball ObjectStore SnapshotService SnapshotSpec SnapshotWorker SnapshotWorkerSpec.

Open Scope Z_scope.
Open Scope list_scope.

#[local] Instance sample_runtime : PyRuntime := {|
  str_of_container := fun _ => str "...";
  int_of_text := fun _ => Raise TypeError;
  decode_wide := fun _ => Raise (ValueError "UnicodeDecodeError");
  parse_float := fun _ => Raise TypeError;
  parse_constant := fun _ => Raise TypeError
|}.

#[local] Instance no_unicode : UnicodeData := {| uni_alnum := fun _ => false; uni_decimal := fun _ => false; uni_lower := fun s => s |}.
#[local] Instance no_folding : CaseFolding := {| fold_char := fun c => [c] |}.
#[local] Instance bare_archive : Archive := {| pack := fun _ raw => raw; unpack := fun _ data => Ok data |}.
#[local] Instance bare_archive_laws : ArchiveLaws.
Proof. by split. Qed.

(** A client over one bucket. *)
#[local] Instance one_bucket : S3Client InMemoryObjectStore := {|
  put_object := fun _ key body => sput (fun m => mkMemory (<[key := body]> (_objects m)));
  get_object := fun _ key => sget (fun m => _objects m !! key)
|}.

#[local] Instance memory_reliable : ReliableStore (R := InMemorySnapshotStore) memory_object_store.
Proof.
  split; [|done]. intros org key body b G. cbn. unfold memory_put, sbind, slift. by rewrite G.
Qed.

(** ** The store *)

Definition alice : pystr := str "alice".
Definition bob : pystr := str "bob".

(** Bob reads and writes his object, and tries to reach Alice's. *)
Definition sample_ops : list Op :=
  [Put alice (str "orgs/alice/a") [1]; Get bob (str "orgs/alice/a"); Put bob (str "orgs/bob/b") [2];
   Get bob (str "orgs/bob/../alice/a"); Put bob (str "orgs/alice/a") [3]; Get alice (str "orgs/alice/a")].

Example sample_answers : (performs sample_ops (mkMemory ∅)).1 =
  [(alice, Ok None); (bob, Raise CrossTenantAccessError); (bob, Ok None); (bob, Raise PathTraversalError);
   (bob, Raise CrossTenantAccessError); (alice, Ok (Some [1]))].
Proof. vm_compute. reflexivity. Qed.

Lemma object_store_isolated_witness : _validate_component alice = Ok alice /\
  List.filter (fun p => str_eqb p.1 alice) (performs sample_ops (mkMemory ∅)).1 =
    (performs (List.filter (fun op => str_eqb (op_org op) alice) sample_ops) (mkMemory ∅)).1.
Proof.
  split; [reflexivity|]. refine (proj1 (object_store_isolated alice alice sample_ops eq_refl (mkMemory ∅) (mkMemory ∅) _)).
  intros key _. reflexivity.
Defined.

(** ** The detector *)

Definition text_bytes (s : string) : option pybytes := Some (str s).
Definition source_file (parts : list string) (text : string) : SourceFile := mkFile (map str parts) (text_bytes text).
Definition examine (files : list SourceFile) : CwDetectVerdict := detect (mkCwRequest (str "/src") (Directory files) [] None) (str "now").

Example closed_sample : verdict (examine [source_file ["a"; "Main.java"] "class Main { }"; source_file ["README.md"] "forName("]) = closed_world.
Proof. vm_compute. reflexivity. Qed.

Example reflective_sample : reflection_sites (examine [source_file ["a"; "Main.java"] "x = Class.forName (n);"]) =
  [mkSite (str "a/Main.java") 1 (str "java-class-forname") (str "x = Class.forName (n);")].
Proof. vm_compute. reflexivity. Qed.

(** Constructs that are there and are not seen: a call whose bracket is on the
    next line, the Spring annotation, Ruby's hook. *)
Definition split_call : string := String.append "Class.forName" (String (Ascii.ascii_of_nat 10) "  (name);").

Example split_call_missed : verdict (examine [source_file ["Main.java"] split_call]) = closed_world.
Proof. vm_compute. reflexivity. Qed.

Example spring_annotation_missed : verdict (examine [source_file ["App.java"] "@EnableAspectJAutoProxy class App { }"]) = closed_world.
Proof. vm_compute. reflexivity. Qed.

Example respond_to_missing_missed : verdict (examine [source_file ["a.rb"] "def respond_to_missing?(name, all)"]) = closed_world.
Proof. vm_compute. reflexivity. Qed.

(** A name that is all suffix has none: the file counts as unknown. *)
Example gitignore_degrades : verdict (examine [source_file [".gitignore"] "target/"]) = degraded.
Proof. vm_compute. reflexivity. Qed.

(** ** The artifact *)

Definition sample_graph : CPG :=
  mkCPG [mkNode 0 (str "METHOD") [] (str "a.B.f") (str "a.B.f") (str "0"); mkNode 1 (str "CALL") (str "g") [] (str "a.B.f") (str "0/1")]
        [mkEdge 0 1 (str "AST")].

Lemma sample_graph_texts : Forall unpaired (graph_texts sample_graph).
Proof. repeat constructor; cbn; lia. Qed.

Lemma tarball_roundtrip_witness : Forall unpaired (graph_texts sample_graph) /\
  exists raw, serialize_cpg_tarball sample_graph = Ok (pack CPG_TARBALL_MEMBER_NAME raw) /\
    deserialize_cpg_tarball (pack CPG_TARBALL_MEMBER_NAME raw) = Ok sample_graph.
Proof.
  split; [exact sample_graph_texts|]. destruct (tarball_roundtrip sample_graph [] sample_graph_texts) as [(raw & H1 & H2) _].
  exists raw. split; [exact H1|]. rewrite H2. rewrite decide_True; [reflexivity|]. split; decided.
Defined.

(** ** The service *)

Definition sha_of (c : Z) (n : nat) : pystr := repeat c n.
Definition sample_digest : pystr := str "sha256:" ++ sha_of 97 64.
Definition sample_request : SnapshotRequest := mkSnapshotRequest 7 8 (sha_of 99 40) None.
Definition sample_bodies : list (pystr * pybytes) :=
  [(str "cpg_tarball", [1]); (str "reverse_symbol_index", [2]); (str "dynamic_call_graph", [3]); (str "precondition_status", [4])].

Notation service := (ServiceWorld InMemoryObjectStore StandardQueue InMemorySnapshotStore).
Definition empty_service : service := mkService (mkMemory ∅) (new_queue (str "snapshot-jobs") 3) (mkRows ∅) 0.
Definition sample_ids (n : nat) : UUID := Z.of_nat n.

Definition requested : outcome SnapshotAccepted * service := create_snapshot None sample_ids sample_request (Some sample_digest) empty_service.
Definition the_accepted : SnapshotAccepted := match requested.1 with Ok a => a | Raise _ => mkAccepted 0 [] [] end.
Definition completed : outcome SnapshotRow * service :=
  record_completion memory_object_store the_accepted sample_request (str "closed-world") sample_bodies requested.2.

Lemma requested_ok : requested = (Ok the_accepted, requested.2).
Proof. vm_compute. reflexivity. Qed.

Lemma empty_consistent : consistent memory_object_store empty_service.
Proof. intros id row H. change (row_table empty_service) with (∅ : gmap UUID SnapshotRow) in H. by rewrite lookup_empty in H. Qed.

Definition sample_calls : list ServiceCall :=
  [CreateSnapshot None sample_request (Some sample_digest); RecordCompletion the_accepted sample_request (str "closed-world") sample_bodies;
   RecordCompletion the_accepted sample_request (str "closed-world") [(str "cpg_tarball", [9])]; GetRow 0].

Lemma rows_reference_objects_witness : consistent memory_object_store empty_service /\
  consistent memory_object_store (foldl (after_call memory_object_store sample_ids) empty_service sample_calls).
Proof.
  split; [exact empty_consistent|]. exact (proj1 (rows_reference_objects memory_object_store sample_ids sample_calls empty_service empty_consistent)).
Defined.

Example sample_rows : row_table (foldl (after_call memory_object_store sample_ids) empty_service sample_calls) !! 0 <> None.
Proof. vm_compute. done. Qed.

Lemma sample_bodies_complete : Forall (fun t => t <> DELTA -> is_Some (dict_get sample_bodies t)) SNAPSHOT_ARTIFACT_TYPES.
Proof. decided. Qed.

Lemma snapshot_lifecycle_witness : requested = (Ok the_accepted, requested.2) /\ exists row, completed.1 = Ok row.
Proof.
  split; [exact requested_ok|].
  destruct (snapshot_lifecycle memory_object_store sample_ids None sample_request (Some sample_digest) empty_service the_accepted requested.2
    (str "closed-world") sample_bodies requested.2 completed.1 completed.2 requested_ok) as (_ & H & _).
  { unfold completed. by destruct (record_completion _ _ _ _ _ _). }
  apply H. split; [decided|]. intros t [Ht Hd]. exact (proj1 (Forall_forall _ _) sample_bodies_complete t Ht Hd).
Defined.

(** ** The worker *)

Definition sample_message (env : pystr) : Body :=
  [(str "snapshot_id", str "s1"); (str "org_id", str "o1"); (str "codebase_id", str "c1"); (str "commit_sha", sha_of 99 40);
   (str "env_digest", env); (str "clone_url", str "https://example.org/r.git"); (str "parent_snapshot_id", [])].

Definition sample_queue (b : Body) : StandardQueue := (send b (str "s1") (new_queue (str "snapshot-jobs") 3)).2.

Notation worker := (LoopWorld StandardQueue InMemoryObjectStore unit).
Definition start_loop (b : Body) : worker := mkLoop (sample_queue b) (mkMemory ∅) tt None None [] [].

Definition sample_tree : SourceTree := Directory [source_file ["Main.java"] "class Main { }"; source_file ["a"; "x.py"] "eval(s)"; source_file ["B.java"] ""].
Definition sample_materializer : SourceMaterializer (X := unit) := fun _ _ => sret sample_tree.
Definition sample_parser : ParseSourceFn (X := unit) := fun _ _ => sret sample_graph.
Definition sample_directories : Directories (X := unit) := mkDirectories (sret (str "/tmp/scanipy-snap-1")) (fun _ => sret tt).
Definition no_environ : Environ := fun _ => None.
Definition accept_report : ReportStatusPort (X := unit) := fun _ => sret tt.

Notation run_sample b :=
  (run_execute_loop sample_digest no_environ true (Some memory_object_store) sample_parser (Some sample_materializer) (Some accept_report)
    sample_directories (str "now") (start_loop b)).

(** What a run shows: the states reported and the outcomes counted. *)
Definition shown (r : outcome unit * worker) : list (SnapshotStatusState * option Route) * list Outcome * Z :=
  (map (fun s => (sr_state s, sr_precondition_status s)) (lw_reports r.2), map cm_outcome (lw_completions r.2), ready_depth (lw_queue r.2)).

Example sample_run_ready : shown (run_sample (sample_message sample_digest)) = ([(ready_state, Some degraded)], [success], 0).
Proof. vm_compute. reflexivity. Qed.

(** A job of another environment goes back to the queue. *)
Example sample_run_failed : shown (run_sample (sample_message (str "sha256:0"))) = ([(failed_state, None)], [failure], 1).
Proof. vm_compute. reflexivity. Qed.

(** A job the service enqueues has no clone URL: the worker cannot read it. *)
Lemma enqueued_job_malformed id req digest : _parse_snapshot_job (snapshot_message id req digest) = Raise MalformedSnapshotJobError.
Proof.
  unfold _parse_snapshot_job. replace (existsb _ _) with true; [done|]. symmetry. apply existsb_exists. exists (str "clone_url").
  split; [apply list_elem_of_In; decided|reflexivity].
Qed.

Example sample_run_enqueued : shown (run_sample (snapshot_message 3 sample_request sample_digest)) = ([], [failure], 1).
Proof. vm_compute. reflexivity. Qed.

Example sample_run_returns : (run_sample (sample_message sample_digest)).1 = Ok tt.
Proof. vm_compute. reflexivity. Qed.

(** The run of the sample message, its end and what it reports. *)
Lemma sample_run : exists w' : worker, run_sample (sample_message sample_digest) = (Ok tt, w') /\
  exists s, lw_reports w' = [s] /\ sr_state s = ready_state.
Proof.
  pose proof sample_run_returns as H1. pose proof sample_run_ready as H2. unfold shown in H2.
  destruct (run_sample (sample_message sample_digest)) as [r w']. cbn [fst snd] in *. subst r. exists w'. split; [done|].
  apply (f_equal (fun p => p.1.1)) in H2. cbn [fst] in H2. destruct (lw_reports w') as [|s [|]]; try done.
  exists s. split; [done|]. by injection H2.
Qed.

Definition sample_received : ReceivedMessage := mkReceived 0 (mkMessage (sample_message sample_digest) (str "s1") 1).
Definition sample_taken : StandardQueue := (receive (sample_queue (sample_message sample_digest))).2.

Lemma sample_received_ok : q_receive (lw_queue (start_loop (sample_message sample_digest))) = (Ok (Some sample_received), sample_taken).
Proof. vm_compute. reflexivity. Qed.

Lemma queue_is_given : (if true then Ok [] else _default_snapshot_queue no_environ) <> Raise (InvariantViolation "missing_snapshot_queue_url").
Proof. done. Qed.

Lemma sample_settles : settles sample_received sample_taken.
Proof. split; eexists; vm_compute; reflexivity. Qed.

Lemma loop_accounts_once_witness : exists (w' : worker) o status reps, lw_reports w' = lw_reports (start_loop (sample_message sample_digest)) ++ reps /\
  lw_completions w' = lw_completions (start_loop (sample_message sample_digest)) ++ [mkCompletion o (str "us-east-1") sample_digest status] /\
  accounted_as sample_digest sample_received sample_taken o status reps (lw_queue w').
Proof.
  destruct sample_run as (w' & E & _). exists w'.
  exact (loop_accounts_once sample_digest no_environ true (Some memory_object_store) sample_parser (Some sample_materializer) (Some accept_report)
    sample_directories (str "now") (start_loop (sample_message sample_digest)) (Ok tt) w' (Some sample_received) sample_taken
    queue_is_given sample_received_ok E sample_settles (fun _ _ => eq_refl)).
Defined.

Lemma ready_means_stored_witness : exists w' rm job materialize built, run_sample (sample_message sample_digest) = (Ok tt, w') /\
  admitted sample_digest rm job /\
  snapshot_of sample_digest sample_parser (str "now") memory_object_store job materialize built (start_loop (sample_message sample_digest)) w'.
Proof.
  destruct sample_run as (w' & E & s & R1 & R2). exists w'. 
  destruct (ready_means_stored sample_digest no_environ true (Some memory_object_store) sample_parser (Some sample_materializer) (Some accept_report)
    sample_directories (str "now") memory_object_store (start_loop (sample_message sample_digest)) (Ok tt) w' [s] s eq_refl E R1 (list_elem_of_here _ _) R2)
    as (rm & job & m & built & _ & H2 & _ & _ & H3).
  exists rm, job, m, built. split; [exact E|]. split; [exact H2|exact H3].
Defined.

(** ** A queue that cannot acknowledge *)

Record StuckQueue := mkStuck { stuck : StandardQueue }.
#[local] Instance stuck_queue : Queue StuckQueue := {|
  q_send := fun b k q => let '(r, s) := send b k (stuck q) in (r, mkStuck s);
  q_receive := fun q => let '(r, s) := receive (stuck q) in (r, mkStuck s);
  q_ack := fun _ q => (Raise QueueError, q);
  q_fail := fun h q => let '(r, s) := fail h (stuck q) in (r, mkStuck s);
  q_alias := fun h b q => mkStuck (alias h b (stuck q))
|}.

(** The job is reported ready and then failed. *)
Example ready_then_failed :
  map sr_state (lw_reports (run_execute_loop sample_digest no_environ true (Some memory_object_store) sample_parser (Some sample_materializer)
    (Some accept_report) sample_directories (str "now")
    (mkLoop (mkStuck (sample_queue (sample_message sample_digest))) (mkMemory ∅) tt None None [] [])).2) = [ready_state; failed_state].
Proof. vm_compute. reflexivity. Qed.
