(* ===== verification/JoernMapper.v ===== *)
(** * From a Joern export to the graph ([analysis/cpg_ingest/mapper.py])

    The export's arrays come in no particular order.  The mapper rebuilds the
    AST from its edges, walks it in an order of its own, and emits nodes and
    edges sorted.  The walk is a loop on an explicit stack, whose fuel is an
    argument: it ends when no node has two AST parents, and need not otherwise. *)
From stdpp Require Import base tactics list gmap strings.
From Stdlib Require Import ZArith Lia.
From S2P Require Import Prelude PyData Sha256 Ordering PyDict Json Cpg PyText JsonParse.

Open Scope Z_scope.
Open Scope list_scope.
Open Scope py_scope.

(** ** The export *)

(** All keys are optional. *)
Record RawJoernNode := mkRawNode {
  rn_id : option pystr;
  rn_label : option pystr;
  rn_code : option pystr;
  rn_name : option pystr;
  rn_methodFullName : option pystr;
  rn_fullName : option pystr;
  rn_filename : option pystr;
  rn_lineNumber : option Z;
  rn_columnNumber : option Z
}.

Record RawJoernEdge := mkRawEdge { re_src : pystr; re_dst : pystr; re_kind : pystr }.

Record RawJoernExport := mkExport { raw_nodes : list RawJoernNode; raw_edges : list RawJoernEdge }.

Record SourceLocation := mkLocation { loc_filename : pystr; loc_line : Z; loc_column : Z }.

Definition _DECL_LABELS : list pystr := [str "METHOD"; str "TYPE_DECL"].

Definition AST : pystr := str "AST".

Definition EDGE_KIND_MAP : list (pystr * pystr) :=
  map (fun p => (str p.1, str p.2)) [("AST", "AST"); ("CFG", "CFG"); ("CDG", "PDG"); ("REACHING_DEF", "PDG")]%string.

(** [d.get(key) or default], on texts *)
Definition or_text (o : option pystr) (dflt : pystr) : pystr := match o with Some (c :: s) => c :: s | _ => dflt end.

Definition _line (node : RawJoernNode) : Z := default 0 (rn_lineNumber node).
Definition _col (node : RawJoernNode) : Z := default 0 (rn_columnNumber node).

(** [node.get("label", "")] *)
Definition label (node : RawJoernNode) : pystr := default [] (rn_label node).

Definition is_decl (node : RawJoernNode) : bool := bool_decide (label node ∈ _DECL_LABELS).

Definition starts_with_text (prefix s : pystr) : bool := bool_decide (is_Some (strip prefix s)).

Definition _operator_or_literal (node : RawJoernNode) : pystr :=
  if str_eqb (label node) (str "LITERAL") then or_text (rn_code node) []
  else if str_eqb (label node) (str "CALL") then
    let name := or_text (rn_name node) [] in
    if starts_with_text (str "<operator>.") name then name else []
  else [].

Definition _resolved_fqn (node : RawJoernNode) : pystr :=
  if str_eqb (label node) (str "CALL") then or_text (rn_methodFullName node) []
  else if is_decl node then or_text (rn_fullName node) []
  else [].

(** ** Sorting *)

Definition NodeKey : Type := pystr * Z * Z * pystr.
Definition node_key_leb : NodeKey -> NodeKey -> bool := pair_leb (pair_leb (pair_leb str_leb Z.leb) Z.leb) str_leb.

(** [sorted(l, key=key)]: the keys are computed first. *)
Definition sorted_by {A K} (leb : K -> K -> bool) (key : A -> outcome K) (l : list A) : outcome (list A) :=
  keyed ⇐ mapO (fun x => k ⇐ key x; Ok (k, x)) l;
  Ok (map snd (py_sorted (fun p q => leb p.1 q.1) keyed)).

Definition Nodes : Type := list (pystr * RawJoernNode).

(** [nodes_by_id[nid]] *)
Definition raw_at (nodes_by_id : Nodes) (nid : pystr) : outcome RawJoernNode :=
  match dict_get nodes_by_id nid with Some n => Ok n | None => Raise KeyError end.

Definition _node_sort_key (nodes_by_id : Nodes) (inherited_filename nid : pystr) : outcome NodeKey :=
  node ⇐ raw_at nodes_by_id nid;
  Ok (or_text (rn_filename node) inherited_filename, _line node, _col node, nid).

Definition sort_siblings (nodes_by_id : Nodes) (inherited_filename : pystr) : list pystr -> outcome (list pystr) :=
  sorted_by node_key_leb (_node_sort_key nodes_by_id inherited_filename).

(** ** The walk *)

(** What the walk assigns to a node; the code keeps one dict per field. *)
Record Placed := mkPlaced {
  preorder_index : Z;
  placed_path : pystr;
  placed_decl : pystr;
  resolved_filename : pystr
}.

(** An entry of the stack *)
Record Frame := mkFrame { f_nid : pystr; parent_decl_fqn : pystr; parent_filename : pystr; local_prefix : pystr }.

(** The dicts and the counter *)
Record WalkState := mkWalk { placed : gmap pystr Placed; counter : Z }.

Definition assign (st : WalkState) (nid path decl filename : pystr) : WalkState :=
  mkWalk (<[nid := mkPlaced (counter st) path decl filename]> (placed st)) (counter st + 1).

Section walk.
Variable nodes_by_id : Nodes.
Variable ast_children : list (pystr * list pystr).

Definition child_prefix (prefix : pystr) (pos : nat) : pystr :=
  let p := str_of_int (Z.of_nat pos) in if bool_decide (prefix = []) then p else prefix ++ str "." ++ p.

(** One round: the node is placed, and its children, in order, are to be
    visited next. *)
Definition visit (st : WalkState) (fr : Frame) : outcome (WalkState * list Frame) :=
  node ⇐ raw_at nodes_by_id (f_nid fr);
  let decl := if is_decl node then or_text (rn_fullName node) [] else parent_decl_fqn fr in
  let filename := or_text (rn_filename node) (parent_filename fr) in
  let prefix := if is_decl node then [] else local_prefix fr in
  children ⇐ sort_siblings nodes_by_id filename (default [] (dict_get ast_children (f_nid fr)));
  Ok (assign st (f_nid fr) prefix decl filename, imap (fun pos cid => mkFrame cid decl filename (child_prefix prefix pos)) children).

(** The stack has its top first. *)
Fixpoint walk (fuel : nat) (st : WalkState) (stack : list Frame) : outcome WalkState :=
  match stack with
  | [] => Ok st
  | fr :: rest =>
      match fuel with
      | O => Raise OutOfFuel
      | S fuel => r ⇐ visit st fr; walk fuel r.1 (r.2 ++ rest)
      end
  end.

Definition place_orphan (st : WalkState) (nid : pystr) : outcome WalkState :=
  node ⇐ raw_at nodes_by_id nid;
  Ok (assign st nid [] [] (or_text (rn_filename node) [])).

Definition is_orphan (st : WalkState) (nid : pystr) : bool := bool_decide (placed st !! nid = None).

Definition _walk_ast (fuel : nat) (roots : list pystr) : outcome (gmap pystr Placed) :=
  roots_sorted ⇐ sort_siblings nodes_by_id [] roots;
  st ⇐ walk fuel (mkWalk ∅ 0) (map (fun r => mkFrame r [] [] []) roots_sorted);
  orphans ⇐ sort_siblings nodes_by_id [] (List.filter (is_orphan st) (map fst nodes_by_id));
  st ⇐ foldO place_orphan st orphans;
  Ok (placed st).
End walk.

(** ** The graph *)

Definition has_node (nodes_by_id : Nodes) (nid : pystr) : bool := bool_decide (is_Some (dict_get nodes_by_id nid)).

Definition index_raw (nodes_by_id : Nodes) (n : RawJoernNode) : outcome Nodes :=
  match rn_id n with Some nid => Ok (dict_set nodes_by_id nid n) | None => Raise KeyError end.

(** [ast_children] and [ast_parent_of] *)
Definition AstEdges : Type := list (pystr * list pystr) * gmap pystr pystr.

Definition ast_edge (nodes_by_id : Nodes) (acc : AstEdges) (e : RawJoernEdge) : outcome AstEdges :=
  if str_eqb (re_kind e) AST then
    if negb (has_node nodes_by_id (re_src e)) || negb (has_node nodes_by_id (re_dst e)) then Raise UnknownNodeReferenceError
    else Ok (dict_set acc.1 (re_src e) (default [] (dict_get acc.1 (re_src e)) ++ [re_dst e]), <[re_dst e := re_src e]> acc.2)
  else Ok acc.

Definition EmissionKey : Type := pystr * Z * Z * Z.
Definition emission_key_leb : EmissionKey -> EmissionKey -> bool := pair_leb (pair_leb (pair_leb str_leb Z.leb) Z.leb) Z.leb.

Definition emission_key (nodes_by_id : Nodes) (places : gmap pystr Placed) (nid : pystr) : outcome EmissionKey :=
  p ⇐ getitem places nid;
  node ⇐ raw_at nodes_by_id nid;
  Ok (resolved_filename p, _line node, _col node, preorder_index p).

(** The graph, [raw_to_node_id] and [locations] *)
Record Emitted := mkEmitted { em_cpg : CPG; raw_to_node_id : gmap pystr Z; locations : list (Z * SourceLocation) }.

Definition emit_node (nodes_by_id : Nodes) (places : gmap pystr Placed) (em : Emitted) (nid : pystr) : outcome Emitted :=
  node ⇐ raw_at nodes_by_id nid;
  p ⇐ getitem places nid;
  let '(g, node_id) := add_node (em_cpg em) (label node) (_operator_or_literal node) (_resolved_fqn node) (placed_decl p) (placed_path p) in
  Ok (mkEmitted g (<[nid := node_id]> (raw_to_node_id em))
        (locations em ++ [(node_id, mkLocation (resolved_filename p) (_line node) (_col node))])).

Definition map_edge (ids : gmap pystr Z) (e : RawJoernEdge) : outcome (pystr * Z * Z) :=
  match dict_get EDGE_KIND_MAP (re_kind e) with
  | None => Raise UnknownEdgeKindError
  | Some kind =>
      match ids !! re_src e, ids !! re_dst e with
      | Some s, Some d => Ok (kind, s, d)
      | _, _ => Raise UnknownNodeReferenceError
      end
  end.

Definition map_export_with_locations (fuel : nat) (export : RawJoernExport) : outcome (CPG * list (Z * SourceLocation)) :=
  nodes_by_id ⇐ foldO index_raw [] (raw_nodes export);
  ast ⇐ foldO (ast_edge nodes_by_id) ([], ∅) (raw_edges export);
  let roots := List.filter (fun nid => bool_decide (ast.2 !! nid = None)) (map fst nodes_by_id) in
  places ⇐ _walk_ast nodes_by_id ast.1 fuel roots;
  emission_order ⇐ sorted_by emission_key_leb (emission_key nodes_by_id places) (map fst nodes_by_id);
  em ⇐ foldO (emit_node nodes_by_id places) (mkEmitted empty_cpg ∅ []) emission_order;
  mapped_edges ⇐ mapO (map_edge (raw_to_node_id em)) (raw_edges export);
  Ok (fold_left (fun g e => add_edge g e.1.2 e.2 e.1.1) (py_sorted edge_leb mapped_edges) (em_cpg em), locations em).

Definition map_export (fuel : nat) (export : RawJoernExport) : outcome CPG :=
  r ⇐ map_export_with_locations fuel export; Ok r.1.
