(* ===== verification/JoernMapperSpec.v ===== *)
(** * What the mapper emits

    The graph does not depend on the order of the export's arrays; it is the
    export, renumbered by position; the walk is the recursive preorder and
    ends when no node has two AST parents. *)
From stdpp Require Import base tactics list gmap sets strings.
From Stdlib Require Import ZArith Lia Sorted.
From S2P Require Import Prelude PyData Sha256 Ordering PyDict Json Cpg PyText JsonParse CpgTarball JoernMapper.

Open Scope Z_scope.
Open Scope list_scope.
Open Scope py_scope.

(** ** Loops over permuted lists *)

Lemma mapO_split {A B} (f : A -> outcome B) l : (exists r, mapO f l = Ok r) \/ (exists e, mapO f l = Raise e).
Proof. destruct (mapO f l); eauto. Qed.

(** The keys decide the order, and only [KeyError] can be raised. *)
Lemma sorted_by_perm {A K} (leb : K -> K -> bool) (key : A -> outcome K) l l' : TotalLe leb ->
  (forall x e, key x = Raise e -> e = KeyError) ->
  (forall x y k k', key x = Ok k -> key y = Ok k' -> leb k k' = true -> leb k' k = true -> x = y) ->
  l ≡ₚ l' -> sorted_by leb key l = sorted_by leb key l'.
Proof.
  intros HT Herr Hinj Hp. unfold sorted_by. set (f := fun x => k ⇐ key x; Ok (k, x)).
  assert (He : forall x e, f x = Raise e -> e = KeyError).
  { unfold f. intros x e. destruct (key x) as [k|e'] eqn:E; [done|]. intros [= <-]. by eapply Herr. }
  assert (Hkeyed : forall r, mapO f l = Ok r -> forall p, p ∈ r -> key p.2 = Ok p.1).
  { intros r Hr%mapO_Forall2 p Hin. apply list_elem_of_lookup in Hin as [i Hi].
    destruct (Forall2_lookup_r _ _ _ _ _ Hr Hi) as (x & _ & Hx). unfold f in Hx. apply obind_Ok in Hx as (k & Hk & [= <-]). exact Hk. }
  destruct (mapO f l) as [r|e] eqn:E.
  - destruct (mapO_perm f l l' r Hp E) as (r' & -> & P). cbn. do 2 f_equal. apply py_sorted_perm_on; [exact (on_key_total fst leb _)| |done].
    intros [k x] [k' y] Hx Hy. pose proof (Hkeyed r eq_refl _ Hx) as K1. pose proof (Hkeyed r eq_refl _ Hy) as K2. cbn in *.
    intros L1 L2. pose proof (Hinj _ _ _ _ K1 K2 L1 L2) as ->. congruence.
  - destruct (mapO f l') as [r'|e'] eqn:E'.
    + destruct (mapO_perm f l' l r' (symmetry Hp) E') as (r & Er & _). congruence.
    + apply mapO_Raise in E as (x & _ & ->%He). by apply mapO_Raise in E' as (y & _ & ->%He).
Qed.

Lemma sorted_by_Ok {A K} (leb : K -> K -> bool) (key : A -> outcome K) l :
  (forall x, x ∈ l -> exists k, key x = Ok k) -> exists s, sorted_by leb key l = Ok s.
Proof.
  intros H. unfold sorted_by. destruct (mapO _ l) as [r|e] eqn:E; [by eexists|].
  apply mapO_Raise in E as (x & Hx & Ex). destruct (H x Hx) as [k Hk]. by rewrite Hk in Ex.
Qed.

Lemma sorted_by_perm_of {A K} (leb : K -> K -> bool) (key : A -> outcome K) l s : sorted_by leb key l = Ok s -> s ≡ₚ l.
Proof.
  unfold sorted_by. intros H. obind_inv. subst s. rewrite py_sorted_perm. apply mapO_Forall2 in H as F. clear H.
  induction F as [|x [k y] l r Hx F IH]; [done|]. obind_inv. cbn. simplify_eq. by constructor.
Qed.

(** ** The nodes by id *)

#[export] Instance node_key_total : TotalLe node_key_leb := pair_leb_total (pair_leb (pair_leb str_leb Z.leb) Z.leb) str_leb _ _.
#[export] Instance node_key_anti : AntiLe node_key_leb := pair_leb_anti (pair_leb (pair_leb str_leb Z.leb) Z.leb) str_leb _ _.
#[export] Instance emission_key_total : TotalLe emission_key_leb := pair_leb_total (pair_leb (pair_leb str_leb Z.leb) Z.leb) Z.leb _ _.
#[export] Instance emission_key_anti : AntiLe emission_key_leb := pair_leb_anti (pair_leb (pair_leb str_leb Z.leb) Z.leb) Z.leb _ _.

Lemma dict_set_new {V} (d : list (pystr * V)) k v : k ∉ d.*1 -> dict_set d k v = d ++ [(k, v)].
Proof.
  induction d as [|[k' w] d IH]; cbn; [done|]. rewrite not_elem_of_cons. intros [H1 H2]. unfold str_eqb. rewrite bool_decide_false by done.
  by rewrite IH.
Qed.

Definition with_id (n : RawJoernNode) : outcome (pystr * RawJoernNode) := match rn_id n with Some i => Ok (i, n) | None => Raise KeyError end.

(** With distinct ids, the dict is the list of the nodes with their ids. *)
Lemma index_nodes l : NoDup (map rn_id l) -> foldO index_raw [] l = mapO with_id l.
Proof.
  assert (G : forall l (d : Nodes), NoDup (map rn_id l) -> (forall n i, n ∈ l -> rn_id n = Some i -> i ∉ d.*1) ->
    foldO index_raw d l = (r ⇐ mapO with_id l; Ok (d ++ r))).
  { clear l. induction l as [|n l IH]; intros d Hnd Hd; cbn; [by rewrite app_nil_r|]. cbn in Hnd. apply NoDup_cons in Hnd as [Hn Hnd].
    unfold index_raw at 1, with_id at 1. destruct (rn_id n) as [i|] eqn:Ei; [|done]. cbn [obind].
    rewrite dict_set_new by (by apply (Hd n); [left|]). rewrite IH; [|done|].
    - destruct (mapO with_id l); cbn; [|done]. by rewrite <-app_assoc.
    - intros m j Hm Hj. rewrite fmap_app, elem_of_app. cbn. intros [Hin| ->%list_elem_of_singleton]; [by eapply (Hd m); [right| |]|].
      apply Hn. rewrite <-Hj. by apply list_elem_of_fmap_2. }
  intros Hnd. rewrite G; [by destruct (mapO with_id l)|done|set_solver].
Qed.

Lemma with_id_nodes l d : mapO with_id l = Ok d -> map Some d.*1 = map rn_id l /\ d.*2 = l.
Proof.
  intros H%mapO_Forall2. induction H as [|n p l d Hp _ [IH1 IH2]]; [done|]. unfold with_id in Hp. destruct (rn_id n) eqn:E; [|done].
  injection Hp as <-. cbn. by rewrite IH1, IH2, E.
Qed.

Lemma with_id_NoDup l d : NoDup (map rn_id l) -> mapO with_id l = Ok d -> NoDup d.*1.
Proof. intros Hnd [E _]%with_id_nodes. rewrite <-E in Hnd. by apply NoDup_fmap_1 in Hnd. Qed.

(** Dicts that hold the same, in any order *)
Definition same_nodes (d d' : Nodes) : Prop := NoDup d.*1 /\ d ≡ₚ d'.

Lemma index_nodes_perm l l' : NoDup (map rn_id l) -> l ≡ₚ l' ->
  (exists d d', foldO index_raw [] l = Ok d /\ foldO index_raw [] l' = Ok d' /\ same_nodes d d') \/
  (foldO index_raw [] l = Raise KeyError /\ foldO index_raw [] l' = Raise KeyError).
Proof.
  intros Hnd Hp. assert (Hnd' : NoDup (map rn_id l')) by (by rewrite <-Hp). rewrite !index_nodes by done.
  assert (He : forall k e, mapO with_id k = Raise e -> e = KeyError).
  { intros k e (x & _ & Hx)%mapO_Raise. unfold with_id in Hx. destruct (rn_id x); congruence. }
  destruct (mapO with_id l) as [d|e] eqn:E.
  - left. destruct (mapO_perm _ _ _ _ Hp E) as (d' & E' & P). exists d, d'. split; [done|]. split; [done|]. exact (conj (with_id_NoDup _ _ Hnd E) P).
  - right. destruct (mapO with_id l') as [d'|e'] eqn:E'.
    + destruct (mapO_perm _ _ _ _ (symmetry Hp) E') as (d & Ed & _). congruence.
    + by rewrite (He _ _ E), (He _ _ E').
Qed.

Section same.
Context (d d' : Nodes) (Hd : same_nodes d d').

Lemma same_node_at nid : raw_at d nid = raw_at d' nid.
Proof. destruct Hd as [Hnd Hp]. unfold raw_at. by rewrite (dict_get_perm d d' nid Hnd Hp). Qed.

Lemma same_has nid : has_node d nid = has_node d' nid.
Proof. destruct Hd as [Hnd Hp]. unfold has_node. by rewrite (dict_get_perm d d' nid Hnd Hp). Qed.

Lemma node_key_error dd file x e : _node_sort_key dd file x = Raise e -> e = KeyError.
Proof. unfold _node_sort_key, raw_at. destruct (dict_get dd x); cbn; congruence. Qed.

Lemma node_key_last dd file x k : _node_sort_key dd file x = Ok k -> k.2 = x.
Proof. unfold _node_sort_key. intros H. obind_inv. by subst k. Qed.

Lemma sorted_by_ext {A K} (leb : K -> K -> bool) (key key' : A -> outcome K) l : (forall x, key x = key' x) -> sorted_by leb key l = sorted_by leb key' l.
Proof. intros H. unfold sorted_by. f_equal. induction l as [|x l IH]; cbn; [done|]. by rewrite H, IH. Qed.

Lemma same_siblings file l l' : l ≡ₚ l' -> sort_siblings d file l = sort_siblings d' file l'.
Proof.
  intros Hp. unfold sort_siblings. transitivity (sorted_by node_key_leb (_node_sort_key d file) l').
  - apply sorted_by_perm; [exact _|apply node_key_error| |done]. intros x y k k' Kx Ky L1 L2.
    assert (k = k') as <- by (by apply (leb_anti (leb := node_key_leb))). apply node_key_last in Kx, Ky. congruence.
  - apply sorted_by_ext. intros x. unfold _node_sort_key. by rewrite same_node_at.
Qed.
End same.

(** ** The AST edges *)

Definition ast_edges (es : list RawJoernEdge) : list RawJoernEdge := List.filter (fun e => str_eqb (re_kind e) AST) es.
Definition children_of (es : list RawJoernEdge) (nid : pystr) : list pystr :=
  map re_dst (List.filter (fun e => str_eqb (re_src e) nid) (ast_edges es)).

Definition grounded (d : Nodes) (e : RawJoernEdge) : bool := has_node d (re_src e) && has_node d (re_dst e).

(** [ast_edge] over the edges: refused exactly when an AST edge dangles; else
    each node has its children in the order of the edges. *)
Lemma ast_edges_spec d es : forall acc,
  (forallb (grounded d) (ast_edges es) = false -> foldO (ast_edge d) acc es = Raise UnknownNodeReferenceError) /\
  (forallb (grounded d) (ast_edges es) = true -> exists acc', foldO (ast_edge d) acc es = Ok acc' /\
     (forall nid, default [] (dict_get acc'.1 nid) = default [] (dict_get acc.1 nid) ++ children_of es nid) /\
     (forall nid, acc'.2 !! nid = None <-> acc.2 !! nid = None /\ nid ∉ map re_dst (ast_edges es))).
Proof.
  induction es as [|e es IH]; intros acc.
  { split; [done|]. intros _. exists acc. split; [done|]. split; intros nid; unfold children_of; cbn; [by rewrite app_nil_r|set_solver]. }
  cbn [foldO]. unfold ast_edge at 1 3, ast_edges, children_of, ast_edges. cbn [List.filter]. fold (ast_edges es).
  destruct (str_eqb (re_kind e) AST) eqn:Ek; cbn [List.filter]; [|by destruct (IH acc)].
  cbn [forallb]. fold (ast_edges es). unfold grounded at 1 3. destruct (has_node d (re_src e)), (has_node d (re_dst e)); cbn [negb orb andb obind]; try done.
  destruct (IH (dict_set acc.1 (re_src e) (default [] (dict_get acc.1 (re_src e)) ++ [re_dst e]), <[re_dst e := re_src e]> acc.2)) as [I1 I2].
  split; [done|]. intros Hf. destruct (I2 Hf) as (acc' & E & C & P). exists acc'. split; [done|]. split; intros nid.
  - rewrite C. cbn [fst]. rewrite dict_get_set. unfold children_of, str_eqb. case_bool_decide as Es; [|done]. subst nid. unfold default, id. cbn [map]. by rewrite <-app_assoc.
  - rewrite P. cbn [snd map]. rewrite lookup_insert_None, not_elem_of_cons. naive_solver.
Qed.

(** ** The walk *)

(** Distinct places have distinct indices below the counter. *)
Definition indexed (st : WalkState) : Prop :=
  (forall i p, placed st !! i = Some p -> preorder_index p < counter st) /\
  (forall i j p q, placed st !! i = Some p -> placed st !! j = Some q -> preorder_index p = preorder_index q -> i = j).

Lemma assign_indexed st nid path decl file : indexed st -> indexed (assign st nid path decl file).
Proof.
  intros [H1 H2]. unfold assign. split; cbn.
  - intros i p [[<- <-]|[_ Hp%H1]]%lookup_insert_Some; cbn; lia.
  - intros i j p q [[<- <-]|[Ni Hp]]%lookup_insert_Some [[<- <-]|[Nj Hq]]%lookup_insert_Some; cbn; try done.
    + intros E. apply H1 in Hq. lia.
    + intros E. apply H1 in Hp. lia.
    + by apply H2.
Qed.

Lemma empty_indexed : indexed (mkWalk ∅ 0).
Proof. split; cbn; intros i; [intros p|intros j p q]; by rewrite lookup_empty. Qed.

Lemma visit_Ok d ch st fr st' kids : visit d ch st fr = Ok (st', kids) -> exists path decl file, st' = assign st (f_nid fr) path decl file.
Proof.
  unfold visit. intros H. apply obind_Ok in H as (node & _ & H). cbn zeta in H. apply obind_Ok in H as (cs & _ & [= <- <-]).
  by eexists _, _, _.
Qed.

Lemma walk_indexed d ch fuel : forall st stack st', indexed st -> walk d ch fuel st stack = Ok st' -> indexed st'.
Proof.
  induction fuel as [|fuel IH]; intros st [|fr stack] st' Hst; cbn [walk]; try (by intros [= <-]).
  intros H. apply obind_Ok in H as ([st1 kids] & Hv & H). cbn [fst snd] in H. eapply IH; [|exact H].
  apply visit_Ok in Hv as (path & decl & file & ->). by apply assign_indexed.
Qed.

Lemma orphans_indexed d l : forall st st', indexed st -> foldO (place_orphan d) st l = Ok st' -> indexed st'.
Proof.
  induction l as [|x l IH]; intros st st' Hst; cbn [foldO]; [by intros [= <-]|]. intros H. obind_inv. eapply IH; [|done].
  unfold place_orphan in *. obind_inv. subst. by apply assign_indexed.
Qed.

Section walk_perm.
Context (d d' : Nodes) (Hd : same_nodes d d').
Context (ch ch' : list (pystr * list pystr)).
Hypothesis Hch : forall nid, default [] (dict_get ch nid) ≡ₚ default [] (dict_get ch' nid).

Lemma visit_perm st fr : visit d ch st fr = visit d' ch' st fr.
Proof. unfold visit. rewrite (same_node_at d d' Hd). destruct (raw_at d' (f_nid fr)); cbn; [|done]. by rewrite (same_siblings d d' Hd _ _ _ (Hch _)). Qed.

Lemma walk_perm fuel : forall st stack, walk d ch fuel st stack = walk d' ch' fuel st stack.
Proof.
  induction fuel as [|fuel IH]; intros st [|fr stack]; cbn [walk]; try done. rewrite visit_perm.
  destruct (visit d' ch' st fr); cbn; auto.
Qed.

Lemma filter_keys_perm (f : pystr -> bool) : List.filter f (map fst d) ≡ₚ List.filter f (map fst d').
Proof.
  destruct Hd as [_ Hp]. assert (E : map fst d ≡ₚ map fst d') by (by apply fmap_Permutation). revert E.
  generalize (map fst d), (map fst d'). intros l l' E. induction E; cbn; try done.
  - destruct (f x); auto.
  - destruct (f x), (f y); try done. constructor.
  - by etrans.
Qed.

Lemma walk_ast_perm fuel roots roots' : roots ≡ₚ roots' -> _walk_ast d ch fuel roots = _walk_ast d' ch' fuel roots'.
Proof.
  intros Hr. unfold _walk_ast. rewrite (same_siblings d d' Hd _ _ _ Hr). destruct (sort_siblings d' [] roots'); cbn; [|done].
  rewrite walk_perm. destruct (walk _ _ _ _ _) as [st|]; cbn; [|done]. rewrite (same_siblings d d' Hd _ _ _ (filter_keys_perm _)).
  destruct (sort_siblings d' [] _) as [l|]; cbn; [|done]. f_equal. revert st. induction l as [|x l IH]; intros st; cbn; [done|].
  unfold place_orphan at 1 3. rewrite (same_node_at d d' Hd). destruct (raw_at d' x); cbn; auto.
Qed.
End walk_perm.

Lemma walk_ast_distinct d ch fuel roots places i j p q : _walk_ast d ch fuel roots = Ok places ->
  places !! i = Some p -> places !! j = Some q -> preorder_index p = preorder_index q -> i = j.
Proof.
  unfold _walk_ast. intros H. apply obind_Ok in H as (rs & _ & H). apply obind_Ok in H as (st & Hw & H).
  apply obind_Ok in H as (os & _ & H). apply obind_Ok in H as (st' & Ho & [= <-]).
  apply (walk_indexed _ _ _ _ _ _ empty_indexed) in Hw. apply (orphans_indexed _ _ _ _ Hw) in Ho as [_ Hinj].
  apply Hinj.
Qed.

(** ** The order of the arrays *)

(** The two refusals of the mapper; which of them comes first depends on the
    order of the edges. *)
Definition refused (e : exc) : Prop := e = UnknownEdgeKindError \/ e = UnknownNodeReferenceError.

Definition same_answer {A} (x y : outcome A) : Prop :=
  match x, y with
  | Ok a, Ok b => a = b
  | Raise e, Raise e' => e = e' \/ (refused e /\ refused e')
  | _, _ => False
  end.

Lemma same_answer_refl {A} (x : outcome A) : same_answer x x.
Proof. destruct x; cbn; auto. Qed.

Lemma same_answer_bind {A B} (x : outcome A) (f g : A -> outcome B) : (forall a, x = Ok a -> same_answer (f a) (g a)) -> same_answer (obind x f) (obind x g).
Proof. destruct x; cbn; auto. Qed.

Lemma map_edge_refused ids e x : map_edge ids e = Raise x -> refused x.
Proof. unfold map_edge, refused. repeat case_match; naive_solver. Qed.

Lemma forallb_perm {A} (f : A -> bool) l l' : l ≡ₚ l' -> forallb f l = forallb f l'.
Proof. induction 1; cbn; [done|by f_equal|by destruct (f x), (f y)|congruence]. Qed.

Lemma ast_edges_perm es es' : es ≡ₚ es' -> ast_edges es ≡ₚ ast_edges es'.
Proof. unfold ast_edges. induction 1; cbn; repeat case_match; auto; [constructor|by etrans]. Qed.

Lemma children_perm es es' nid : es ≡ₚ es' -> children_of es nid ≡ₚ children_of es' nid.
Proof.
  intros H%ast_edges_perm. unfold children_of. apply fmap_Permutation. induction H; cbn; repeat case_match; auto; [constructor|by etrans].
Qed.

Lemma emission_perm d0 d d' ch fuel roots places : same_nodes d d' -> _walk_ast d0 ch fuel roots = Ok places ->
  sorted_by emission_key_leb (emission_key d places) (map fst d) = sorted_by emission_key_leb (emission_key d' places) (map fst d').
Proof.
  intros Hd Hw. transitivity (sorted_by emission_key_leb (emission_key d' places) (map fst d)).
  { apply sorted_by_ext. intros x. unfold emission_key. destruct (getitem places x); cbn; [|done]. by rewrite (same_node_at d d' Hd). }
  apply sorted_by_perm; [exact _| | |destruct Hd as [_ Hp]; by apply fmap_Permutation].
  - intros x e. unfold emission_key, getitem, raw_at. destruct (places !! x); cbn; [|congruence]. destruct (dict_get d' x); cbn; congruence.
  - intros x y k k' Kx Ky L1 L2. assert (k = k') as <- by (by apply (leb_anti (leb := emission_key_leb))).
    unfold emission_key in Kx, Ky. apply obind_Ok in Kx as (p & Hp%getitem_Ok & Kx). apply obind_Ok in Ky as (q & Hq%getitem_Ok & Ky).
    obind_inv. eapply walk_ast_distinct; [exact Hw|exact Hp|exact Hq|]. congruence.
Qed.

(** The rest of [map_export_with_locations], once the dict is made *)
Definition map_indexed (fuel : nat) (d : Nodes) (es : list RawJoernEdge) : outcome (CPG * list (Z * SourceLocation)) :=
  ast ⇐ foldO (ast_edge d) ([], ∅) es;
  let roots := List.filter (fun nid => bool_decide (ast.2 !! nid = None)) (map fst d) in
  places ⇐ _walk_ast d ast.1 fuel roots;
  emission_order ⇐ sorted_by emission_key_leb (emission_key d places) (map fst d);
  em ⇐ foldO (emit_node d places) (mkEmitted empty_cpg ∅ []) emission_order;
  mapped_edges ⇐ mapO (map_edge (raw_to_node_id em)) es;
  Ok (fold_left (fun g e => add_edge g e.1.2 e.2 e.1.1) (py_sorted edge_leb mapped_edges) (em_cpg em), locations em).

Lemma emit_perm d d' places l : same_nodes d d' -> forall em, foldO (emit_node d places) em l = foldO (emit_node d' places) em l.
Proof.
  intros Hd. induction l as [|x l IH]; intros em; cbn [foldO]; [done|]. unfold emit_node at 1 3. rewrite (same_node_at d d' Hd).
  destruct (raw_at d' x) as [n|]; cbn [obind]; [|done]. destruct (getitem places x) as [p|]; cbn [obind]; [|done].
  destruct (add_node _ _ _ _ _ _). cbn [obind]. apply IH.
Qed.

Lemma map_indexed_perm fuel d d' es es' : same_nodes d d' -> es ≡ₚ es' -> same_answer (map_indexed fuel d es) (map_indexed fuel d' es').
Proof.
  intros Hd He. pose proof (ast_edges_perm _ _ He) as Ha.
  destruct (ast_edges_spec d es ([], ∅)) as [F1 S1], (ast_edges_spec d' es' ([], ∅)) as [F2 S2]. unfold map_indexed.
  assert (Hg : forallb (grounded d) (ast_edges es) = forallb (grounded d') (ast_edges es')).
  { rewrite (forallb_perm _ _ _ Ha). generalize (ast_edges es'). intros l. induction l as [|x l IH]; cbn; [done|].
    rewrite IH. f_equal. unfold grounded. by rewrite !(same_has d d' Hd). }
  rewrite <-Hg in F2, S2. destruct (forallb _ _); [|by rewrite (F1 eq_refl), (F2 eq_refl); left].
  destruct (S1 eq_refl) as (a & -> & C1 & P1), (S2 eq_refl) as (a' & -> & C2 & P2). cbn [obind].
  assert (Hch : forall nid, default [] (dict_get a.1 nid) ≡ₚ default [] (dict_get a'.1 nid)).
  { intros nid. rewrite C1, C2. cbn. by apply children_perm. }
  assert (Hroots : List.filter (fun nid => bool_decide (a.2 !! nid = None)) (map fst d) ≡ₚ
                   List.filter (fun nid => bool_decide (a'.2 !! nid = None)) (map fst d')).
  { rewrite (filter_keys_perm d d' Hd). apply reflexive_eq, filter_ext. intros nid. apply bool_decide_ext. rewrite P1, P2.
    by rewrite (fmap_Permutation re_dst _ _ Ha). }
  rewrite (walk_ast_perm d d' Hd _ _ Hch fuel _ _ Hroots). apply same_answer_bind. intros places Hw.
  rewrite (emission_perm d' d d' a'.1 fuel _ places Hd Hw).
  apply same_answer_bind. intros order _. rewrite (emit_perm d d' places order Hd). apply same_answer_bind. intros em _.
  destruct (mapO (map_edge (raw_to_node_id em)) es) as [m|e] eqn:E1.
  - destruct (mapO_perm _ _ _ _ He E1) as (m' & -> & Hm). cbn. by rewrite (py_sorted_perm_eq edge_leb m m' Hm).
  - destruct (mapO (map_edge (raw_to_node_id em)) es') as [m'|e'] eqn:E2; cbn.
    + destruct (mapO_perm _ _ _ _ (symmetry He) E2) as (m & E & _). congruence.
    + right. apply mapO_Raise in E1 as (x & _ & ?%map_edge_refused), E2 as (y & _ & ?%map_edge_refused). done.
Qed.

(** C9: the graph, the table of locations and the refusal do not depend on
    the order in which Joern wrote its arrays.  For distinct node ids, two
    exports with the same nodes and the same edges in any order have the same
    answer, for whatever number of rounds the walk is given; when both are
    refused the two may differ in which refusal came first. *)
Theorem map_export_order_independent fuel x y :
  NoDup (map rn_id (raw_nodes x)) -> raw_nodes x ≡ₚ raw_nodes y -> raw_edges x ≡ₚ raw_edges y ->
  same_answer (map_export_with_locations fuel x) (map_export_with_locations fuel y).
Proof.
  intros Hnd Hn He. unfold map_export_with_locations.
  destruct (index_nodes_perm _ _ Hnd Hn) as [(d & d' & -> & -> & Hd)|[-> ->]]; [|by left].
  exact (map_indexed_perm fuel d d' _ _ Hd He).
Qed.

(** * The walk as a recursion

    [subtree]: the frames of a node and of all below it, in preorder, to a
    depth.  [trace]: the frames the loop visits. *)

Section recursion.
Context (d : Nodes) (ch : list (pystr * list pystr)).

Definition own_decl (node : RawJoernNode) (fr : Frame) : pystr := if is_decl node then or_text (rn_fullName node) [] else parent_decl_fqn fr.
Definition own_filename (node : RawJoernNode) (fr : Frame) : pystr := or_text (rn_filename node) (parent_filename fr).
Definition own_prefix (node : RawJoernNode) (fr : Frame) : pystr := if is_decl node then [] else local_prefix fr.

Definition visit_frame (st : WalkState) (fr : Frame) : WalkState :=
  match raw_at d (f_nid fr) with
  | Ok node => assign st (f_nid fr) (own_prefix node fr) (own_decl node fr) (own_filename node fr)
  | Raise _ => st
  end.

(** The children of a frame, with the declaration, the file and the position
    they inherit *)
Definition child_frames (fr : Frame) : list Frame :=
  match raw_at d (f_nid fr) with
  | Ok node =>
      match sort_siblings d (own_filename node fr) (default [] (dict_get ch (f_nid fr))) with
      | Ok children => imap (fun pos cid => mkFrame cid (own_decl node fr) (own_filename node fr) (child_prefix (own_prefix node fr) pos)) children
      | Raise _ => []
      end
  | Raise _ => []
  end.

Fixpoint subtree (depth : nat) (fr : Frame) : list Frame :=
  match depth with O => [] | S depth => fr :: concat (map (subtree depth) (child_frames fr)) end.

Fixpoint trace (fuel : nat) (stack : list Frame) : list Frame :=
  match stack, fuel with
  | fr :: rest, S fuel => fr :: trace fuel (child_frames fr ++ rest)
  | _, _ => []
  end.

Lemma visit_eq st fr r : visit d ch st fr = Ok r -> r = (visit_frame st fr, child_frames fr) /\ is_Some (dict_get d (f_nid fr)).
Proof.
  unfold visit, visit_frame, child_frames. intros H. apply obind_Ok in H as (node & Hn & H). cbn zeta in H. rewrite Hn.
  apply obind_Ok in H as (cs & Hc & [= <-]). unfold own_filename, own_decl, own_prefix. rewrite Hc. split; [done|].
  unfold raw_at in Hn. destruct (dict_get d (f_nid fr)); [by eexists|done].
Qed.

Lemma walk_trace fuel : forall st stack st', walk d ch fuel st stack = Ok st' ->
  st' = fold_left visit_frame (trace fuel stack) st /\ Forall (fun fr => is_Some (dict_get d (f_nid fr))) (trace fuel stack).
Proof.
  induction fuel as [|fuel IH]; intros st [|fr stack] st'; cbn [walk trace]; try done.
  1,2: intros [= <-]; by split.
  intros H. apply obind_Ok in H as (r & [-> Hn]%visit_eq & H). cbn [fst snd] in H. destruct (IH _ _ _ H) as [-> F].
  split; [done|by constructor].
Qed.

(** The loop visits what the recursion lists, to any depth at least the
    number of rounds. *)
Lemma trace_subtree fuel : forall st stack st', walk d ch fuel st stack = Ok st' ->
  forall l : list (nat * Frame), map snd l = stack -> Forall (fun p => fuel <= p.1)%nat l ->
  trace fuel stack = concat (map (fun p => subtree p.1 p.2) l).
Proof.
  induction fuel as [|fuel IH]; intros st [|fr stack] st'; cbn [walk trace]; try done.
  1,2: by intros _ [|] ? ?.
  intros H [|[m fr'] l] [= -> Hl] HF; try done. apply Forall_cons in HF as [Hm HF]. cbn in Hm. destruct m as [|m]; [lia|].
  apply obind_Ok in H as (r & [-> _]%visit_eq & H). cbn [fst snd] in H. cbn [map concat fst snd subtree]. f_equal.
  rewrite (IH _ _ _ H (map (fun c => (m, c)) (child_frames fr) ++ l)).
  - rewrite map_app, concat_app, map_map. done.
  - rewrite map_app, map_map, map_id. by f_equal.
  - apply Forall_app. split; [|eapply Forall_impl; [exact HF|cbn; lia]]. apply Forall_fmap, Forall_forall. intros c _. cbn. lia.
Qed.

Lemma walk_preorder fuel st stack st' depth : walk d ch fuel st stack = Ok st' -> (fuel <= depth)%nat ->
  trace fuel stack = concat (map (subtree depth) stack).
Proof.
  intros H Hd. rewrite (trace_subtree _ _ _ _ H (map (fun c => (depth, c)) stack)).
  - by rewrite map_map.
  - by rewrite map_map, map_id.
  - apply Forall_fmap, Forall_forall. intros c _. exact Hd.
Qed.

(** ** Forests *)

Definition kids (nid : pystr) : list pystr := default [] (dict_get ch nid).

Record ast_forest (roots : list pystr) : Prop := {
  fo_keys : NoDup d.*1;
  fo_roots : NoDup roots /\ (forall r, r ∈ roots -> r ∈ d.*1 /\ forall n, r ∉ kids n);
  fo_kids : forall n, NoDup (kids n) /\ (forall c, c ∈ kids n -> c ∈ d.*1);
  fo_parent : forall n m c, c ∈ kids n -> c ∈ kids m -> n = m
}.

Lemma key_node nid : nid ∈ d.*1 -> exists node, dict_get d nid = Some node.
Proof. intros H. destruct (dict_get d nid) eqn:E; [by eexists|]. by apply dict_get_None in E. Qed.

Lemma sort_siblings_Ok file l : (forall c, c ∈ l -> c ∈ d.*1) -> exists s, sort_siblings d file l = Ok s.
Proof. intros H. apply sorted_by_Ok. intros c [node Hc]%H%key_node. unfold _node_sort_key, raw_at. rewrite Hc. by eexists. Qed.

Lemma imap_nids cs decl file prefix : map f_nid (imap (fun pos cid => mkFrame cid decl file (child_prefix prefix pos)) cs) = cs.
Proof.
  apply list_eq. intros i. change (map f_nid) with (fmap (M:=list) f_nid). rewrite list_lookup_fmap, list_lookup_imap.
  by destruct (cs !! i).
Qed.

Lemma visit_forest roots st fr : ast_forest roots -> f_nid fr ∈ d.*1 ->
  exists cs, visit d ch st fr = Ok (visit_frame st fr, child_frames fr) /\ map f_nid (child_frames fr) = cs /\ cs ≡ₚ kids (f_nid fr).
Proof.
  intros F [node Hn]%key_node. destruct (sort_siblings_Ok (own_filename node fr) (kids (f_nid fr))) as [cs Hc]; [apply (fo_kids _ F)|].
  exists cs. unfold visit, visit_frame, child_frames, raw_at. rewrite Hn. cbn [obind]. fold (own_filename node fr).
  fold (kids (f_nid fr)). rewrite Hc. cbn [obind]. split_and!; [done|apply imap_nids|by apply sorted_by_perm_of in Hc].
Qed.

(** Nothing is visited twice: what is on the stack was put there by its only
    parent, which has been visited. *)
Definition fresh_stack (visited : list pystr) (stack : list Frame) : Prop :=
  NoDup (visited ++ map f_nid stack) /\ (forall c, c ∈ visited ++ map f_nid stack -> c ∈ d.*1 /\ forall n, c ∈ kids n -> n ∈ visited).

Lemma fresh_step roots visited fr rest : ast_forest roots -> fresh_stack visited (fr :: rest) ->
  fresh_stack (visited ++ [f_nid fr]) (child_frames fr ++ rest).
Proof.
  intros F [Hnd Hin]. assert (Hfr : f_nid fr ∈ visited ++ map f_nid (fr :: rest)) by (cbn; set_solver).
  destruct (Hin _ Hfr) as [Hk _]. destruct (visit_forest roots (mkWalk ∅ 0) fr F Hk) as (cs & _ & Hm & Hp).
  unfold fresh_stack. rewrite map_app, Hm. cbn [map] in Hnd, Hin. split.
  - assert (Hnew : forall c, c ∈ cs -> c ∉ visited ++ f_nid fr :: map f_nid rest).
    { intros c Hc Hold. rewrite Hp in Hc. apply (Hin _ Hold) in Hc. apply NoDup_app in Hnd as (_ & Hnd & _).
      apply (Hnd _ Hc). left. }
    assert (Hcs : NoDup cs) by (rewrite Hp; apply (fo_kids _ F)).
    assert (P : visited ++ f_nid fr :: map f_nid rest ++ cs ≡ₚ (visited ++ [f_nid fr]) ++ cs ++ map f_nid rest) by solve_Permutation.
    rewrite <-P. rewrite app_comm_cons, app_assoc. apply NoDup_app. split_and!; [done| |done]. intros c Hc Hc'. by apply (Hnew c).
  - intros c Hc. assert (Hor : c ∈ visited ++ f_nid fr :: map f_nid rest \/ c ∈ cs) by set_solver.
    destruct Hor as [Hold|Hc'].
    + destruct (Hin c Hold) as [H1 H2]. split; [done|]. intros n Hn. apply H2 in Hn. set_solver.
    + rewrite Hp in Hc'. split; [by apply (fo_kids _ F (f_nid fr))|]. intros n Hn. rewrite (fo_parent _ F _ _ _ Hn Hc'). set_solver.
Qed.

Lemma walk_forest roots fuel : ast_forest roots -> forall visited st stack, fresh_stack visited stack ->
  (length d <= length visited + fuel)%nat ->
  exists st', walk d ch fuel st stack = Ok st' /\ NoDup (visited ++ map f_nid (trace fuel stack)).
Proof.
  intros F. induction fuel as [|fuel IH]; intros visited st [|fr rest] Hs Hl; cbn [walk trace map].
  1,3: exists st; split; [done|]; rewrite app_nil_r; destruct Hs as [Hnd _]; by rewrite app_nil_r in Hnd.
  - exfalso. destruct Hs as [Hnd Hin]. assert (Hsub : visited ++ map f_nid (fr :: rest) ⊆+ d.*1).
    { apply NoDup_submseteq; [done|]. intros c Hc. by apply Hin. }
    apply submseteq_length in Hsub. rewrite length_app, length_map, length_fmap in Hsub. cbn in Hsub, Hl. lia.
  - assert (Hk : f_nid fr ∈ d.*1) by (apply Hs; cbn; set_solver). destruct (visit_forest roots st fr F Hk) as (cs & -> & _). cbn [obind fst snd].
    destruct (IH (visited ++ [f_nid fr]) (visit_frame st fr) (child_frames fr ++ rest)) as (st' & -> & Hnd).
    + by eapply fresh_step.
    + rewrite length_app. cbn. lia.
    + exists st'. split; [done|]. by rewrite <-app_assoc in Hnd.
Qed.

Lemma settle_counter V : forall st, Forall (fun fr => is_Some (dict_get d (f_nid fr))) V ->
  counter (fold_left visit_frame V st) = counter st + Z.of_nat (length V).
Proof.
  induction V as [|fr V IH]; intros st HF; cbn [fold_left length]; [lia|]. apply Forall_cons in HF as [[node Hn] HF]. rewrite IH by done.
  unfold visit_frame, raw_at. rewrite Hn. cbn. lia.
Qed.

Lemma settle_lookup V : forall st, NoDup (map f_nid V) -> Forall (fun fr => is_Some (dict_get d (f_nid fr))) V ->
  (forall nid, nid ∉ map f_nid V -> placed (fold_left visit_frame V st) !! nid = placed st !! nid) /\
  (forall i fr, V !! i = Some fr -> exists node, dict_get d (f_nid fr) = Some node /\
     placed (fold_left visit_frame V st) !! f_nid fr =
       Some (mkPlaced (counter st + Z.of_nat i) (own_prefix node fr) (own_decl node fr) (own_filename node fr))).
Proof.
  induction V as [|fr V IH]; intros st Hnd HF; cbn [fold_left map]; [by split|].
  apply NoDup_cons in Hnd as [Hfr Hnd]. apply Forall_cons in HF as [[node Hn] HF]. destruct (IH (visit_frame st fr) Hnd HF) as [H1 H2].
  assert (Es : visit_frame st fr = assign st (f_nid fr) (own_prefix node fr) (own_decl node fr) (own_filename node fr)) by (unfold visit_frame, raw_at; by rewrite Hn).
  split.
  - intros nid. rewrite not_elem_of_cons. intros [Hne Hni]. rewrite H1 by done. rewrite Es. unfold assign. cbn. by rewrite lookup_insert_ne.
  - intros [|i] fr' Hi; cbn in Hi.
    + injection Hi as <-. exists node. split; [done|]. rewrite H1 by done. rewrite Es. unfold assign. cbn. rewrite lookup_insert_eq. do 2 f_equal; lia.
    + destruct (H2 i fr' Hi) as (node' & Hn' & ->). exists node'. split; [done|]. rewrite Es. unfold assign. cbn. do 2 f_equal; lia.
Qed.
End recursion.

(** * The graph of an export *)

(** The walk on an export: the AST edges, the roots and the places *)
Definition ast_of (d : Nodes) (es : list RawJoernEdge) : AstEdges := match foldO (ast_edge d) ([], ∅) es with Ok a => a | Raise _ => ([], ∅) end.
Definition roots_of (d : Nodes) (es : list RawJoernEdge) : list pystr :=
  List.filter (fun nid => bool_decide ((ast_of d es).2 !! nid = None)) (map fst d).
Definition placement (fuel : nat) (d : Nodes) (es : list RawJoernEdge) : outcome (gmap pystr Placed) :=
  _walk_ast d (ast_of d es).1 fuel (roots_of d es).

Definition emitted_at (d : Nodes) (places : gmap pystr Placed) (i : nat) (nid : pystr) (n : CPGNode) (l : Z * SourceLocation) : Prop :=
  exists node p, dict_get d nid = Some node /\ places !! nid = Some p /\
    n = mkNode (Z.of_nat i) (label node) (_operator_or_literal node) (_resolved_fqn node) (placed_decl p) (placed_path p) /\
    l = (Z.of_nat i, mkLocation (resolved_filename p) (_line node) (_col node)).

Definition edge_maps (order : list pystr) (e : RawJoernEdge) (t : pystr * Z * Z) : Prop :=
  dict_get EDGE_KIND_MAP (re_kind e) = Some t.1.1 /\
  exists i j, order !! i = Some (re_src e) /\ order !! j = Some (re_dst e) /\ t.1.2 = Z.of_nat i /\ t.2 = Z.of_nat j.

Definition sorted_before (d : Nodes) (places : gmap pystr Placed) (a b : pystr) : Prop :=
  exists ka kb, emission_key d places a = Ok ka /\ emission_key d places b = Ok kb /\ emission_key_leb ka kb = true.

Lemma sorted_by_sorted {A K} (leb : K -> K -> bool) (key : A -> outcome K) l s : TotalLe leb -> sorted_by leb key l = Ok s ->
  StronglySorted (fun a b => exists ka kb, key a = Ok ka /\ key b = Ok kb /\ leb ka kb = true) s.
Proof.
  intros HT. unfold sorted_by. intros H. apply obind_Ok in H as (keyed & H & [= <-]). apply mapO_Forall2 in H.
  assert (Hk : Forall (fun p => key p.2 = Ok p.1) (py_sorted (fun p q : K * A => leb p.1 q.1) keyed)).
  { apply Forall_forall. intros p Hp%py_sorted_elem. apply list_elem_of_lookup in Hp as [i Hi].
    destruct (Forall2_lookup_r _ _ _ _ _ H Hi) as (x & _ & Hx). apply obind_Ok in Hx as (k & Hx & [= <-]). exact Hx. }
  pose proof (py_sorted_sorted (TotalLe0 := on_key_total fst leb HT) (fun p q : K * A => leb p.1 q.1) keyed) as Hs. revert Hk Hs.
  generalize (py_sorted (fun p q : K * A => leb p.1 q.1) keyed). intros r. induction r as [|[k x] r IH]; intros Hk Hs; cbn [map]; [constructor|].
  apply Forall_cons in Hk as [Hx Hk]. apply StronglySorted_inv in Hs as [Hs Hl]. constructor; [by apply IH|]. apply Forall_fmap.
  rewrite Forall_forall in *. intros q Hq. exists k, q.1. split_and!; [exact Hx|by apply Hk|exact (Hl q Hq)].
Qed.

Lemma emit_nodes d places order : forall em em', foldO (emit_node d places) em order = Ok em' -> NoDup order ->
  exists ns ls, em_cpg em' = mkCPG (nodes (em_cpg em) ++ ns) (edges (em_cpg em)) /\ locations em' = locations em ++ ls /\
    length ns = length order /\ length ls = length order /\
    (forall nid, nid ∉ order -> raw_to_node_id em' !! nid = raw_to_node_id em !! nid) /\
    (forall i nid, order !! i = Some nid -> raw_to_node_id em' !! nid = Some (Z.of_nat (length (nodes (em_cpg em)) + i)) /\
       exists n l, ns !! i = Some n /\ ls !! i = Some l /\ emitted_at d places (length (nodes (em_cpg em)) + i) nid n l).
Proof.
  induction order as [|nid order IH]; intros em em'; cbn [foldO].
  { intros [= <-] _. exists [], []. rewrite !app_nil_r. split_and!; try done. by destruct (em_cpg em). }
  intros H [Hni Hnd]%NoDup_cons. apply obind_Ok in H as (em1 & H1 & H). unfold emit_node in H1. apply obind_Ok in H1 as (node & Hn & H1).
  apply obind_Ok in H1 as (p & Hp%getitem_Ok & H1). unfold add_node in H1. injection H1 as <-.
  destruct (IH _ _ H Hnd) as (ns & ls & E1 & E2 & L1 & L2 & R1 & R2). cbn [em_cpg raw_to_node_id locations nodes edges] in *.
  unfold raw_at in Hn. destruct (dict_get d nid) as [node0|] eqn:Ed; [|done]. injection Hn as ->.
  eexists (_ :: ns), (_ :: ls). rewrite E1, E2, <-!app_assoc. cbn [app length]. split_and!; [reflexivity|reflexivity|by f_equal..| |].
  - intros x. rewrite not_elem_of_cons. intros [Hne Hx]. rewrite R1 by done. by rewrite lookup_insert_ne.
  - intros [|i] x Hi; cbn in Hi.
    + injection Hi as <-. rewrite R1 by done. rewrite lookup_insert_eq, Nat.add_0_r. split; [done|]. eexists _, _. split_and!; [done..|].
      exists node, p. by rewrite Ed.
    + rewrite length_app in R2. cbn [length] in R2. destruct (R2 i x Hi) as [R H']. rewrite Nat.add_succ_r. rewrite Nat.add_1_r in R, H'. split; [done|exact H'].
Qed.

Lemma map_indexed_eq fuel d es : map_indexed fuel d es =
  (_ ⇐ foldO (ast_edge d) ([], ∅) es;
   places ⇐ placement fuel d es;
   emission_order ⇐ sorted_by emission_key_leb (emission_key d places) (map fst d);
   em ⇐ foldO (emit_node d places) (mkEmitted empty_cpg ∅ []) emission_order;
   mapped_edges ⇐ mapO (map_edge (raw_to_node_id em)) es;
   Ok (fold_left (fun g e => add_edge g e.1.2 e.2 e.1.1) (py_sorted edge_leb mapped_edges) (em_cpg em), locations em)).
Proof. unfold map_indexed, placement, roots_of, ast_of. by destruct (foldO (ast_edge d) ([], ∅) es). Qed.

Lemma add_edges m : forall g : CPG, fold_left (fun g e => add_edge g e.1.2 e.2 e.1.1) m g =
  mkCPG (nodes g) (edges g ++ map (fun t : pystr * Z * Z => mkEdge t.1.2 t.2 t.1.1) m).
Proof.
  induction m as [|t m IH]; intros g; cbn [fold_left map]; [rewrite app_nil_r; by destruct g|]. rewrite IH. unfold add_edge. cbn.
  by rewrite <-app_assoc.
Qed.

Lemma export_indexed x fuel : NoDup (map rn_id (raw_nodes x)) ->
  map_export_with_locations fuel x = (d ⇐ mapO with_id (raw_nodes x); map_indexed fuel d (raw_edges x)).
Proof. intros Hnd. unfold map_export_with_locations. by rewrite index_nodes. Qed.

(** C10: what the mapper returns is the export, renumbered.  Each node of the
    export is emitted once, at the position its file, line, column and
    preorder index give it, with the fields of the mapping table and the
    declaration and path of its place; the table of locations has one entry
    per node; the edges are those of the export with their kinds mapped, in
    sorted order.  So the ids are dense and the edges in range: it is a graph
    the artifact of a snapshot carries. *)
Theorem map_export_exact fuel x g locs : NoDup (map rn_id (raw_nodes x)) -> map_export_with_locations fuel x = Ok (g, locs) ->
  (exists d places order m, mapO with_id (raw_nodes x) = Ok d /\ placement fuel d (raw_edges x) = Ok places /\
    order ≡ₚ d.*1 /\ StronglySorted (sorted_before d places) order /\
    length (nodes g) = length order /\ length locs = length order /\
    (forall i nid, order !! i = Some nid -> exists n l, nodes g !! i = Some n /\ locs !! i = Some l /\ emitted_at d places i nid n l) /\
    Forall2 (edge_maps order) (raw_edges x) m /\ edges g = map (fun t => mkEdge t.1.2 t.2 t.1.1) (py_sorted edge_leb m)) /\
  dense g /\ in_range g.
Proof.
  intros Hnd H. rewrite export_indexed in H by done. apply obind_Ok in H as (d & Hd & H). rewrite map_indexed_eq in H.
  apply obind_Ok in H as (_ & _ & H). apply obind_Ok in H as (places & Hp & H). apply obind_Ok in H as (order & Ho & H).
  apply obind_Ok in H as (em & He & H). apply obind_Ok in H as (m & Hm & H). rewrite add_edges in H. injection H as <- <-.
  pose proof (sorted_by_perm_of _ _ _ _ Ho) as Hperm. assert (Hno : NoDup order) by (rewrite Hperm; by eapply with_id_NoDup).
  destruct (emit_nodes _ _ _ _ _ He Hno) as (ns & ls & E1 & E2 & L1 & L2 & R1 & R2). cbn [em_cpg locations raw_to_node_id empty_cpg nodes edges app length] in *.
  rewrite E1, E2. cbn [nodes edges app]. assert (Hmaps : Forall2 (edge_maps order) (raw_edges x) m).
  { apply mapO_Forall2 in Hm. eapply Forall2_impl; [exact Hm|]. intros e t. unfold map_edge, edge_maps. destruct (dict_get EDGE_KIND_MAP (re_kind e)); [|done].
    assert (Hin : forall nid z, raw_to_node_id em !! nid = Some z -> exists i, order !! i = Some nid /\ z = Z.of_nat i).
    { intros nid z Hz. destruct (decide (nid ∈ order)) as [[i Hi]%list_elem_of_lookup|Hni]; [|rewrite R1, lookup_empty in Hz by done; done].
      exists i. split; [done|]. destruct (R2 i nid Hi) as [R _]. rewrite Hz in R. by injection R. }
    destruct (raw_to_node_id em !! re_src e) eqn:E3; [|done]. destruct (raw_to_node_id em !! re_dst e) eqn:E4; [|done]. intros [= <-]. cbn.
    destruct (Hin _ _ E3) as (i & Hi & ->), (Hin _ _ E4) as (j & Hj & ->). split; [done|]. by exists i, j. }
  split.
  - exists d, places, order, m. split_and!; try done.
    + exact (sorted_by_sorted _ _ _ _ emission_key_total Ho).
    + intros i nid Hi. destruct (R2 i nid Hi) as [_ (n & l & H1 & H2 & H3)]. by exists n, l.
  - assert (Hid : forall i n, ns !! i = Some n -> node_id n = Z.of_nat i).
    { intros i n Hi. assert (exists nid, order !! i = Some nid) as [nid Hnid] by (apply lookup_lt_is_Some; rewrite <-L1; by eapply lookup_lt_Some).
      destruct (R2 i nid Hnid) as [_ (n' & l & H1 & _ & (node & p & _ & _ & -> & _))]. rewrite Hi in H1. by injection H1 as ->. }
    split; [exact Hid|]. unfold in_range. cbn [nodes edges]. apply Forall_fmap, Forall_forall. intros t Ht%py_sorted_elem.
    apply list_elem_of_lookup in Ht as [k Hk]. destruct (Forall2_lookup_r _ _ _ _ _ Hmaps Hk) as (e & _ & (_ & i & j & Hi & Hj & Ei & Ej)).
    apply lookup_lt_Some in Hi, Hj. cbn. lia.
Qed.

(** * Exports the mapper accepts *)

(** Distinct ids, edges of known kinds between nodes of the export, and at
    most one AST parent for each node *)
Record wellformed_export (x : RawJoernExport) : Prop := {
  we_ids : NoDup (map rn_id (raw_nodes x)) /\ None ∉ map rn_id (raw_nodes x);
  we_edges : forall e, e ∈ raw_edges x -> is_Some (dict_get EDGE_KIND_MAP (re_kind e)) /\
    Some (re_src e) ∈ map rn_id (raw_nodes x) /\ Some (re_dst e) ∈ map rn_id (raw_nodes x);
  we_parents : NoDup (map re_dst (ast_edges (raw_edges x)))
}.

Lemma wellformed_nodes x : wellformed_export x -> exists d, mapO with_id (raw_nodes x) = Ok d /\ NoDup d.*1 /\ map Some d.*1 = map rn_id (raw_nodes x).
Proof.
  intros [[Hnd Hnone] _ _]. destruct (mapO with_id (raw_nodes x)) as [d|e] eqn:E.
  - exists d. split_and!; [done|by eapply with_id_NoDup|by apply with_id_nodes in E as [? _]].
  - apply mapO_Raise in E as (n & Hn & E). unfold with_id in E. destruct (rn_id n) eqn:Ei; [done|]. exfalso. apply Hnone.
    rewrite <-Ei. by apply list_elem_of_fmap_2.
Qed.

Lemma some_keys (d : Nodes) i l : map Some d.*1 = l -> Some i ∈ l -> i ∈ d.*1.
Proof. intros <-. by intros (j & [= ->] & Hj)%list_elem_of_fmap. Qed.

Lemma elem_ast_edges es e : e ∈ ast_edges es -> e ∈ es.
Proof. unfold ast_edges. rewrite !list_elem_of_In, filter_In. by intros [? _]. Qed.

Lemma elem_children es n c : c ∈ children_of es n <-> exists e, e ∈ ast_edges es /\ re_src e = n /\ re_dst e = c.
Proof.
  unfold children_of. rewrite list_elem_of_In, in_map_iff. setoid_rewrite filter_In. unfold str_eqb. split.
  - intros (e & <- & He & Hs%bool_decide_eq_true). exists e. split; [by apply list_elem_of_In|done].
  - intros (e & He & <- & <-). exists e. split; [done|]. split; [by apply list_elem_of_In|by apply bool_decide_eq_true].
Qed.

Lemma ast_of_spec d es : forallb (grounded d) (ast_edges es) = true ->
  foldO (ast_edge d) ([], ∅) es = Ok (ast_of d es) /\ (forall n, kids (ast_of d es).1 n = children_of es n) /\
  (forall n, n ∈ roots_of d es <-> n ∈ d.*1 /\ n ∉ map re_dst (ast_edges es)).
Proof.
  intros H. destruct (ast_edges_spec d es ([], ∅)) as [_ S]. destruct (S H) as (a & E & C & P). unfold roots_of, ast_of. rewrite E.
  split; [done|]. split; [exact C|]. intros n. rewrite list_elem_of_In, filter_In, bool_decide_eq_true, P, <-list_elem_of_In. cbn.
  rewrite lookup_empty. change (map fst d) with (d.*1). naive_solver.
Qed.

Lemma wellformed_forest x d : wellformed_export x -> mapO with_id (raw_nodes x) = Ok d ->
  forallb (grounded d) (ast_edges (raw_edges x)) = true /\ ast_forest d (ast_of d (raw_edges x)).1 (roots_of d (raw_edges x)).
Proof.
  intros W Ed. destruct (wellformed_nodes x W) as (d' & Ed' & Hnd & Hk). assert (d' = d) as -> by congruence. clear Ed'.
  assert (Hin : forall e, e ∈ raw_edges x -> re_src e ∈ d.*1 /\ re_dst e ∈ d.*1).
  { intros e He. destruct (we_edges _ W e He) as (_ & H1 & H2). split; by eapply some_keys. }
  assert (Hg : forallb (grounded d) (ast_edges (raw_edges x)) = true).
  { apply forallb_forall. intros e He%list_elem_of_In%elem_ast_edges. destruct (Hin e He) as [H1 H2]. unfold grounded, has_node.
    rewrite !bool_decide_true; [done|by apply key_node in H2 as [? ->]|by apply key_node in H1 as [? ->]]. }
  split; [done|]. destruct (ast_of_spec d _ Hg) as (_ & C & P). split.
  - done.
  - split.
    + unfold roots_of. apply NoDup_ListNoDup, List.NoDup_filter, NoDup_ListNoDup. exact Hnd.
    + intros r [Hr Hn]%P. split; [done|]. intros n Hin'. rewrite C in Hin'. apply elem_children in Hin' as (e & He & _ & <-).
      apply Hn. by apply list_elem_of_fmap_2.
  - intros n. rewrite C. split; [apply NoDup_map_filter, (we_parents _ W)|].
    intros c (e & He%elem_ast_edges & _ & <-)%elem_children. by apply Hin.
  - intros n m c. rewrite !C. intros (e & He & <- & <-)%elem_children (e' & He' & <- & E)%elem_children. f_equal.
    symmetry. by eapply (NoDup_map_inj re_dst); [apply (we_parents _ W)|..].
Qed.

Lemma orphans_placed d l : forall st, NoDup l -> (forall i, i ∈ l -> i ∈ d.*1) -> exists st', foldO (place_orphan d) st l = Ok st' /\
  (forall nid, nid ∉ l -> placed st' !! nid = placed st !! nid) /\
  (forall i nid, l !! i = Some nid -> exists node, dict_get d nid = Some node /\
     placed st' !! nid = Some (mkPlaced (counter st + Z.of_nat i) [] [] (or_text (rn_filename node) []))).
Proof.
  induction l as [|x l IH]; intros st Hnd Hin; cbn [foldO]; [by exists st|]. apply NoDup_cons in Hnd as [Hx Hnd].
  destruct (key_node d x) as [node Hn]; [apply Hin; left|]. unfold place_orphan at 1, raw_at. rewrite Hn. cbn [obind].
  destruct (IH (assign st x [] [] (or_text (rn_filename node) []))) as (st' & E & H1 & H2); [done|intros i Hi; apply Hin; by right|].
  exists st'. split; [done|]. split.
  - intros nid. rewrite not_elem_of_cons. intros [Hne Hni]. rewrite H1 by done. unfold assign. cbn. by rewrite lookup_insert_ne.
  - intros [|i] nid Hi; cbn in Hi.
    + injection Hi as <-. exists node. split; [done|]. rewrite H1 by done. unfold assign. cbn. rewrite lookup_insert_eq. do 2 f_equal; lia.
    + destruct (H2 i nid Hi) as (node' & Hn' & ->). exists node'. split; [done|]. unfold assign. cbn. do 2 f_equal; lia.
Qed.

(** What the walk of a forest leaves: the nodes in the preorder of the
    recursion, then the others. *)
Record preordered (d : Nodes) (V : list Frame) (O : list pystr) (places : gmap pystr Placed) : Prop := {
  po_once : map f_nid V ++ O ≡ₚ d.*1;
  po_walked : forall i fr, V !! i = Some fr -> exists node, dict_get d (f_nid fr) = Some node /\
    places !! f_nid fr = Some (mkPlaced (Z.of_nat i) (own_prefix node fr) (own_decl node fr) (own_filename node fr));
  po_orphans : forall i nid, O !! i = Some nid -> exists node, dict_get d nid = Some node /\
    places !! nid = Some (mkPlaced (Z.of_nat (length V + i)) [] [] (or_text (rn_filename node) []))
}.

Lemma walk_ast_forest d ch roots fuel : ast_forest d ch roots -> (length d <= fuel)%nat ->
  exists places rs O, _walk_ast d ch fuel roots = Ok places /\ sort_siblings d [] roots = Ok rs /\
    preordered d (concat (map (subtree d ch fuel) (map (fun r => mkFrame r [] [] []) rs))) O places.
Proof.
  intros F Hf. destruct (fo_roots _ _ _ F) as [Hrn Hr].
  destruct (sort_siblings_Ok d [] roots) as [rs Ers]; [intros c Hc; by apply Hr|]. pose proof (sorted_by_perm_of _ _ _ _ Ers) as Prs.
  set (frames := map (fun r => mkFrame r [] [] []) rs). assert (Efr : map f_nid frames = rs) by (unfold frames; by rewrite map_map, map_id).
  destruct (walk_forest d ch roots fuel F [] (mkWalk ∅ 0) frames) as (st & Ew & Hnd).
  { split; cbn [app]; rewrite Efr; [by rewrite Prs|]. intros c. rewrite Prs. intros Hc. destruct (Hr c Hc) as [Hk Hno]. split; [done|].
    intros n Hn. by apply Hno in Hn. }
  { cbn. lia. }
  destruct (walk_trace d ch _ _ _ _ Ew) as [Est HV]. cbn [app] in Hnd. rewrite (walk_preorder d ch _ _ _ _ fuel Ew) in Est, HV, Hnd by lia.
  set (V := concat (map (subtree d ch fuel) frames)) in *. destruct (settle_lookup d V (mkWalk ∅ 0) Hnd HV) as [L1 L2]. rewrite <-Est in L1, L2.
  set (others := List.filter (is_orphan st) (map fst d)). assert (Hoth : forall x, x ∈ others <-> x ∈ d.*1 /\ x ∉ map f_nid V).
  { intros x. unfold others. rewrite list_elem_of_In, filter_In, <-list_elem_of_In. unfold is_orphan. rewrite bool_decide_eq_true.
    change (map fst d) with (d.*1). split; intros [Hx Hp]; split; try done.
    - intros (fr & -> & Hfr)%list_elem_of_fmap. apply list_elem_of_lookup in Hfr as [i Hi]. destruct (L2 i fr Hi) as (node & _ & E). congruence.
    - rewrite L1 by done. apply lookup_empty. }
  destruct (sort_siblings_Ok d [] others) as [O Eo]; [intros c Hc; by apply Hoth in Hc as [? _]|].
  pose proof (sorted_by_perm_of _ _ _ _ Eo) as PO. assert (HO : NoDup O).
  { rewrite PO. unfold others. apply NoDup_ListNoDup, List.NoDup_filter, NoDup_ListNoDup. exact (fo_keys _ _ _ F). }
  destruct (orphans_placed d O st HO) as (st' & Es' & O1 & O2); [intros i; rewrite PO; by intros [? _]%Hoth|].
  exists (placed st'), rs, O. unfold _walk_ast. rewrite Ers. cbn [obind]. fold frames. rewrite Ew. cbn [obind]. fold others. rewrite Eo. cbn [obind].
  rewrite Es'. split; [done|]. split; [done|]. rewrite Est, (settle_counter d V _ HV) in O2. cbn [counter] in O2. split.
  - apply NoDup_Permutation; [apply NoDup_app; split_and!; [done| |done]|exact (fo_keys _ _ _ F)|].
    + intros x Hx. rewrite PO, Hoth. by intros [_ ?].
    + intros x. rewrite elem_of_app, PO, Hoth. split.
      * intros [(fr & -> & Hfr)%list_elem_of_fmap|[? _]]; [|done]. rewrite Forall_forall in HV. destruct (HV fr Hfr) as [node Hn].
        destruct (decide (f_nid fr ∈ d.*1)) as [|Hno]; [done|]. apply dict_get_None in Hno. congruence.
      * intros Hx. destruct (decide (x ∈ map f_nid V)); [by left|by right].
  - intros i fr Hi. destruct (L2 i fr Hi) as (node & Hn & E). exists node. split; [done|]. rewrite O1; [exact E|].
    rewrite PO, Hoth. intros [_ Hno]. apply Hno. apply list_elem_of_fmap_2. by eapply list_elem_of_lookup_2.
  - intros i nid Hi. destruct (O2 i nid Hi) as (node & Hn & E). exists node. split; [done|]. rewrite E. do 2 f_equal. fold V. lia.
Qed.

(** C31: the mapper returns a graph for every export whose AST edges form a
    forest, whose edges have known kinds and whose references resolve, when
    its walk may take one round per node.  Then the walk on the stack has
    visited the nodes in the preorder of the recursion on the sorted children,
    each once, and given each the declaration, file and path it has there; the
    nodes below no root come after. *)
Theorem map_export_total x fuel : wellformed_export x -> (length (raw_nodes x) <= fuel)%nat ->
  exists g locs d places rs O, map_export_with_locations fuel x = Ok (g, locs) /\
    mapO with_id (raw_nodes x) = Ok d /\ placement fuel d (raw_edges x) = Ok places /\
    sort_siblings d [] (roots_of d (raw_edges x)) = Ok rs /\
    preordered d (concat (map (subtree d (ast_of d (raw_edges x)).1 fuel) (map (fun r => mkFrame r [] [] []) rs))) O places.
Proof.
  intros W Hf. destruct (wellformed_nodes x W) as (d & Ed & Hnd & Hk). destruct (wellformed_forest x d W Ed) as [Hg F].
  destruct (ast_of_spec d _ Hg) as (Ea & _ & _).
  assert (Hlen : length d = length (raw_nodes x)) by (apply with_id_nodes in Ed as [_ <-]; by rewrite length_fmap).
  destruct (walk_ast_forest d _ _ fuel F) as (places & rs & O & Hw & Hrs & Hpo); [lia|].
  assert (Hplaces : forall nid, nid ∈ d.*1 -> exists node p, dict_get d nid = Some node /\ places !! nid = Some p).
  { intros nid. rewrite <-(po_once _ _ _ _ Hpo), elem_of_app. intros [(fr & -> & Hfr)%list_elem_of_fmap|Hin].
    - apply list_elem_of_lookup in Hfr as [i Hi]. destruct (po_walked _ _ _ _ Hpo i fr Hi) as (node & Hn & E). by eexists _, _.
    - apply list_elem_of_lookup in Hin as [i Hi]. destruct (po_orphans _ _ _ _ Hpo i nid Hi) as (node & Hn & E). by eexists _, _. }
  destruct (sorted_by_Ok emission_key_leb (emission_key d places) (map fst d)) as [order Eo].
  { intros nid Hin. destruct (Hplaces nid Hin) as (node & p & Hn & Hp). unfold emission_key, getitem, raw_at. rewrite Hp. cbn. rewrite Hn. by eexists. }
  pose proof (sorted_by_perm_of _ _ _ _ Eo) as Po.
  destruct (foldO_inv (fun _ : Emitted => True) (emit_node d places) order) with (s := mkEmitted empty_cpg ∅ []) as (em & Ee & _); [|done|].
  { intros em nid Hin _. rewrite Po in Hin. destruct (Hplaces nid Hin) as (node & p & Hn & Hp). unfold emit_node, getitem, raw_at. rewrite Hn.
    cbn [obind]. rewrite Hp. by eexists. }
  assert (Hno : NoDup order) by (by rewrite Po). destruct (emit_nodes _ _ _ _ _ Ee Hno) as (ns & ls & _ & _ & _ & _ & _ & R2).
  destruct (mapO (map_edge (raw_to_node_id em)) (raw_edges x)) as [m|e] eqn:Em.
  - eexists _, _, d, places, rs, O. split_and!; [|done..]. rewrite export_indexed by apply W. rewrite Ed. cbn [obind]. rewrite map_indexed_eq, Ea.
    cbn [obind]. unfold placement. rewrite Hw. cbn [obind]. rewrite Eo. cbn [obind]. rewrite Ee. cbn [obind]. rewrite Em. reflexivity.
  - exfalso. apply mapO_Raise in Em as (ed & Hed & Em). destruct (we_edges _ W ed Hed) as ([k Hkind] & H1 & H2).
    assert (Hid : forall i, Some i ∈ map rn_id (raw_nodes x) -> exists z, raw_to_node_id em !! i = Some z).
    { intros i Hi. apply (some_keys d i _ Hk) in Hi. rewrite <-Po in Hi. apply list_elem_of_lookup in Hi as [n Hn].
      destruct (R2 n i Hn) as [R _]. by eexists. }
    destruct (Hid _ H1) as [z1 E1], (Hid _ H2) as [z2 E2]. unfold map_edge in Em. by rewrite Hkind, E1, E2 in Em.
Qed.

(** A node with two AST parents, one of them below it, is visited for ever:
    such an export is neither mapped nor refused. *)
Definition looping_export : RawJoernExport :=
  let n i := mkRawNode (Some (str i)) None None None None None None None None in
  mkExport [n "a"; n "b"; n "c"]%string
    [mkRawEdge (str "a") (str "b") AST; mkRawEdge (str "b") (str "c") AST; mkRawEdge (str "c") (str "b") AST].


Definition looping_nodes : Nodes := match mapO with_id (raw_nodes looping_export) with Ok d => d | Raise _ => [] end.
Definition looping_children : list (pystr * list pystr) := (ast_of looping_nodes (raw_edges looping_export)).1.

Lemma looping_visit_b st p : visit looping_nodes looping_children st (mkFrame (str "b") [] [] p) =
  Ok (assign st (str "b") p [] [], [mkFrame (str "c") [] [] (child_prefix p 0)]).
Proof. vm_compute. reflexivity. Qed.

Lemma looping_visit_c st p : visit looping_nodes looping_children st (mkFrame (str "c") [] [] p) =
  Ok (assign st (str "c") p [] [], [mkFrame (str "b") [] [] (child_prefix p 0)]).
Proof. vm_compute. reflexivity. Qed.

Lemma looping_walk fuel : forall st p,
  walk looping_nodes looping_children fuel st [mkFrame (str "b") [] [] p] = Raise OutOfFuel /\
  walk looping_nodes looping_children fuel st [mkFrame (str "c") [] [] p] = Raise OutOfFuel.
Proof.
  induction fuel as [|fuel IH]; intros st p; [done|]. cbn [walk]. rewrite looping_visit_b, looping_visit_c. cbn [obind fst snd app].
  split; apply IH.
Qed.

Example looping_export_diverges fuel : map_export_with_locations fuel looping_export = Raise OutOfFuel.
Proof.
  rewrite export_indexed by decided. change (mapO with_id (raw_nodes looping_export)) with (Ok looping_nodes). cbn [obind].
  rewrite map_indexed_eq. unfold placement. fold looping_children.
  replace (foldO (ast_edge looping_nodes) ([], ∅) (raw_edges looping_export)) with (Ok (ast_of looping_nodes (raw_edges looping_export))) by (vm_compute; reflexivity).
  cbn [obind]. unfold _walk_ast.
  replace (sort_siblings looping_nodes [] (roots_of looping_nodes (raw_edges looping_export))) with (Ok [str "a"]) by (vm_compute; reflexivity).
  cbn [obind map]. destruct fuel as [|fuel]; [done|]. cbn [walk].
  replace (visit looping_nodes looping_children (mkWalk ∅ 0) (mkFrame (str "a") [] [] [])) with
    (Ok (assign (mkWalk ∅ 0) (str "a") [] [] [], [mkFrame (str "b") [] [] (child_prefix [] 0)])) by (vm_compute; reflexivity).
  cbn [obind fst snd app]. by rewrite (proj1 (looping_walk fuel _ _)).
Qed.
