(* ===== verification/OracleFingerprint.v ===== *)
(** * Fingerprints of oracle findings ([services/scan/oracle_fingerprint.py])

    An oracle finding is a file and a line.  They pick one node of the graph,
    the sink, and nothing of them reaches the fingerprint of its slice. *)
From stdpp Require Import base tactics list gmap strings.
From Stdlib Require Import ZArith Lia.
From S2P Require Import Prelude PyData Sha256 Budget Cpg Ordering PyDict Fingerprint Canonical GraphSpec SliceIdentity Json PyText JoernMapper.

Open Scope Z_scope.
Open Scope list_scope.
Open Scope py_scope.

Definition CALL : pystr := str "CALL".

(** [False] before [True] *)
Definition bool_leb (a b : bool) : bool := negb a || b.

(** [(kind != "CALL", column == 0, column, node_id)] *)
Definition SinkKey : Type := bool * bool * Z * Z.
Definition sink_leb : SinkKey -> SinkKey -> bool := pair_leb (pair_leb (pair_leb bool_leb bool_leb) Z.leb) Z.leb.

Definition sink_candidate (in_cpg : gmap Z pystr) (filename : pystr) (line : Z) (entry : Z * SourceLocation) : list SinkKey :=
  match in_cpg !! entry.1 with
  | None => []
  | Some kind =>
      if negb (str_eqb (loc_filename entry.2) filename) || negb (loc_line entry.2 =? line) then []
      else [(negb (str_eqb kind CALL), loc_column entry.2 =? 0, loc_column entry.2, entry.1)]
  end.

Definition locate_sink_node (g : CPG) (locations : list (Z * SourceLocation)) (filename : pystr) (line : Z) : option Z :=
  if (line <=? 0) || bool_decide (filename = []) then None
  else
    let in_cpg := py_dict (map (fun n => (node_id n, kind n)) (nodes g)) in
    snd <$> py_min sink_leb (concat (map (sink_candidate in_cpg filename line) locations)).

(** The clock is that of the budget. *)
Definition fingerprint_oracle_finding (g : CPG) (locations : list (Z * SourceLocation)) (filename : pystr) (line : Z) (B T : pynum) (c : clock) :
    outcome (option SliceFingerprintResult) :=
  match locate_sink_node g locations filename line with
  | None => Ok None
  | Some sink => r ⇐ compute_slice_fingerprint g [sink] B T c; Ok (Some r)
  end.

(** * What picks the sink *)

#[export] Instance bool_leb_total : TotalLe bool_leb.
Proof. split; [intros [] []|intros [] [] []]; naive_solver. Qed.
#[export] Instance bool_leb_anti : AntiLe bool_leb.
Proof. intros [] []; naive_solver. Qed.
#[export] Instance sink_leb_total : TotalLe sink_leb := pair_leb_total (pair_leb (pair_leb bool_leb bool_leb) Z.leb) Z.leb _ _.
#[export] Instance sink_leb_anti : AntiLe sink_leb := pair_leb_anti (pair_leb (pair_leb bool_leb bool_leb) Z.leb) Z.leb _ _.

Definition in_cpg_of (g : CPG) : gmap Z pystr := py_dict (map (fun n => (node_id n, kind n)) (nodes g)).

(** A node on the line, and the key it is ranked by *)
Definition candidate (g : CPG) (locs : list (Z * SourceLocation)) (filename : pystr) (line : Z) (k : SinkKey) : Prop :=
  exists l kd, (k.2, l) ∈ locs /\ in_cpg_of g !! k.2 = Some kd /\ loc_filename l = filename /\ loc_line l = line /\
    k = (negb (str_eqb kd CALL), loc_column l =? 0, loc_column l, k.2).

Lemma candidates_elem g locs filename line k :
  k ∈ concat (map (sink_candidate (in_cpg_of g) filename line) locs) <-> candidate g locs filename line k.
Proof.
  rewrite list_elem_of_In, in_concat. setoid_rewrite in_map_iff. unfold candidate, sink_candidate, str_eqb. split.
  - intros (ks & ([i l] & <- & He%list_elem_of_In) & Hk). cbn [fst snd] in *. destruct (in_cpg_of g !! i) as [kd|] eqn:Ei; [|done].
    repeat case_bool_decide; cbn in Hk; try done; destruct (Z.eqb_spec (loc_line l) line); cbn in Hk; try done.
    all: destruct Hk as [<-|[]]; cbn; exists l, kd; rewrite Ei; split_and!; try done; by case_bool_decide.
  - intros (l & kd & He & Hi & Hf & Hl & ->). cbn [snd] in *. eexists. split; [exists (k.2, l); split; [reflexivity|by apply list_elem_of_In]|].
    cbn [fst snd]. rewrite Hi, Hf, Hl. rewrite (bool_decide_true (filename = filename)), Z.eqb_refl by done. cbn. by left.
Qed.

Lemma locate_sink_spec g locs filename line n : locate_sink_node g locs filename line = Some n <->
  0 < line /\ filename <> [] /\
  exists k, candidate g locs filename line k /\ k.2 = n /\ forall k', candidate g locs filename line k' -> sink_leb k k' = true.
Proof.
  unfold locate_sink_node. fold (in_cpg_of g). setoid_rewrite <-candidates_elem. set (cs := concat _).
  destruct (Z.leb_spec line 0) as [Hl|Hl]; cbn [orb]; [split; [done|lia]|]. case_bool_decide as Hf; [split; [done|by intros (_ & ? & _)]|].
  destruct (py_min sink_leb cs) as [k|] eqn:E; cbn.
  - apply py_min_spec in E as [Hk Hmin]; [|exact _]. split.
    + intros [= <-]. split; [lia|]. split; [done|]. by exists k.
    + intros (_ & _ & k' & Hk' & <- & Hmin'). do 2 f_equal. apply (leb_anti (leb := sink_leb)); auto.
  - apply py_min_None in E. rewrite E. split; [done|]. intros (_ & _ & k & Hk & _). by apply elem_of_nil in Hk.
Qed.

Lemma locate_sink_None g locs filename line : locate_sink_node g locs filename line = None <->
  line <= 0 \/ filename = [] \/ forall k, ~ candidate g locs filename line k.
Proof.
  unfold locate_sink_node. fold (in_cpg_of g). setoid_rewrite <-candidates_elem. set (cs := concat _).
  destruct (Z.leb_spec line 0) as [Hl|Hl]; cbn [orb]; [split; [by left|done]|]. case_bool_decide as Hf; [split; [by right; left|done]|].
  rewrite fmap_None, py_min_None. split.
  - intros ->. right. right. intros k Hk. by apply elem_of_nil in Hk.
  - intros [?|[?|H]]; [lia|done|]. destruct cs as [|k cs]; [done|]. exfalso. apply (H k). left.
Qed.

(** The sink of an oracle finding.  No fingerprint is made exactly when
    the line is not positive, the file is empty, or no node of the graph is
    located on that line; otherwise the fingerprint is that of the slice of
    the one node that is least there: calls first, then known columns, then
    the smaller column, then the smaller id. *)
Theorem oracle_sink_exact g locs filename line B T c :
  (fingerprint_oracle_finding g locs filename line B T c = Ok None <->
     line <= 0 \/ filename = [] \/ forall k, ~ candidate g locs filename line k) /\
  (forall k, 0 < line -> filename <> [] -> candidate g locs filename line k ->
     (forall k', candidate g locs filename line k' -> sink_leb k k' = true) ->
     fingerprint_oracle_finding g locs filename line B T c = (r ⇐ compute_slice_fingerprint g [k.2] B T c; Ok (Some r))).
Proof.
  unfold fingerprint_oracle_finding. split.
  - rewrite <-locate_sink_None. destruct (locate_sink_node _ _ _ _); [|done]. destruct (compute_slice_fingerprint _ _ _ _ _); done.
  - intros k Hl Hf Hk Hmin. assert (locate_sink_node g locs filename line = Some k.2) as ->; [|done]. apply locate_sink_spec.
    split_and!; [done..|]. by exists k.
Qed.

(** ** What does not reach the fingerprint *)

Definition relocate (f : pystr * Z -> pystr * Z) (l : SourceLocation) : SourceLocation :=
  let at_ := f (loc_filename l, loc_line l) in mkLocation at_.1 at_.2 (loc_column l).

(** Files renamed and lines moved, no two lines to one *)
Record relocation (f : pystr * Z -> pystr * Z) : Prop := {
  rl_inj : Inj (=) (=) f;
  rl_valid : forall p, 0 < (f p).2 /\ (f p).1 <> [] <-> 0 < p.2 /\ p.1 <> []
}.

Lemma candidate_relocate f g locs filename line k : relocation f ->
  candidate g (map (fun e => (e.1, relocate f e.2)) locs) (f (filename, line)).1 (f (filename, line)).2 k <-> candidate g locs filename line k.
Proof.
  intros [Hinj _]. unfold candidate. split.
  - intros (l & kd & Hin & Hi & Hf & Hl & ->). apply list_elem_of_fmap in Hin as ([i l0] & E & Hin). injection E as Ei ->. cbn [snd fst] in *.
    exists l0, kd. unfold relocate in *. cbn in *. assert (E : (loc_filename l0, loc_line l0) = (filename, line)).
    { apply Hinj. by apply injective_projections. }
    injection E as E1 E2. rewrite Ei in *. by split_and!.
  - intros (l & kd & Hin & Hi & Hf & Hl & ->). cbn [snd] in *. exists (relocate f l), kd. split_and!; try done.
    + apply list_elem_of_fmap. by exists (k.2, l).
    + unfold relocate. cbn. by rewrite Hf, Hl.
    + unfold relocate. cbn. by rewrite Hf, Hl.
Qed.

Lemma locate_relocate f g locs filename line : relocation f ->
  locate_sink_node g (map (fun e => (e.1, relocate f e.2)) locs) (f (filename, line)).1 (f (filename, line)).2 = locate_sink_node g locs filename line.
Proof.
  intros Hf. apply option_eq. intros n. rewrite !locate_sink_spec. setoid_rewrite candidate_relocate; [|done..].
  pose proof (rl_valid f Hf (filename, line)) as Hv. cbn [fst snd] in Hv. naive_solver.
Qed.

(** C29: source locations only pick the sink.  When files are renamed and
    lines moved, the same finding has the same answer, errors included; and
    for graphs that are isomorphic up to the names of local identifiers,
    whatever their tables of locations, findings whose sinks correspond have
    the same strong fingerprint. *)
Theorem oracle_fingerprint_invariant :
  (forall f g locs filename line B T c, relocation f ->
     fingerprint_oracle_finding g (map (fun e => (e.1, relocate f e.2)) locs) (f (filename, line)).1 (f (filename, line)).2 B T c =
     fingerprint_oracle_finding g locs filename line B T c) /\
  (forall p g h locs locs' file file' line line' n B B' T T' c c' r r', cpg_iso p (anon g) (anon h) ->
     locate_sink_node g locs file line = Some n -> locate_sink_node h locs' file' line' = Some (p n) ->
     fingerprint_oracle_finding g locs file line B T c = Ok (Some r) -> fingerprint_oracle_finding h locs' file' line' B' T' c' = Ok (Some r') ->
     slice_class r = strong -> slice_class r' = strong -> slice_fingerprint r' = slice_fingerprint r).
Proof.
  split.
  - intros f g locs filename line B T c Hf. unfold fingerprint_oracle_finding. by rewrite locate_relocate.
  - intros p g h locs locs' file file' line line' n B B' T T' c c' r r' Hiso Hn Hn' Hr Hr' Hk Hk'.
    unfold fingerprint_oracle_finding in Hr, Hr'. rewrite Hn in Hr. rewrite Hn' in Hr'.
    apply obind_Ok in Hr as (r0 & Hr & [= ->]), Hr' as (r1 & Hr' & [= ->]).
    destruct (compute_strong _ _ _ _ _ _ _ Hr Hk) as (Hg & sink & keep & Hl & K & _ & Vn & Sn & -> & Va).
    destruct (compute_strong _ _ _ _ _ _ _ Hr' Hk') as (Hh & sink' & keep' & Hl' & K' & _ & Vn' & Sn' & -> & Va').
    destruct (strong_slices_iso p g h [n] keep keep' sink sink' Hg Hh Hiso Hl Hl' K K' Va Va') as [q Hq].
    by destruct (tree_iso q _ _ Vn Sn Vn' Sn' Hq) as [_ ->].
Qed.
