(* ===== verification/SecureRun.v ===== *)
(** * Running the pinned tools ([tools/worker/secure_subprocess.py],
    [joern_java_safety.py])

    Every tool is started by [secure_run]: its arguments are checked against
    the tool's list before anything else, a Java parse also against a closed
    environment and the ownership of its directories.  The file system and the
    starting of a process are operations on an external state; the processes
    started are kept in a log. *)
From stdpp Require Import base tactics list strings.
From Stdlib Require Import ZArith Lia.
From S2P Require Import Prelude PyData PyDict Sha256 Ordering Json PyText Identity JsonParse.

Open Scope Z_scope.
Open Scope list_scope.
Open Scope py_scope.
Open Scope st_scope.

(** ** Paths *)

(** A [Path]: its anchor, empty when it is relative, and its components. *)
Record PyPath := mkPath { anchor : pystr; components : list pystr }.

#[export] Instance PyPath_eq_dec : EqDecision PyPath.
Proof. solve_decision. Defined.

Fixpoint split_slash (s acc : pystr) : list pystr :=
  match s with
  | [] => [rev acc]
  | c :: s => if c =? 47 then rev acc :: split_slash s [] else split_slash s (c :: acc)
  end.

(** Two leading slashes, and no more, are an anchor of their own. *)
Definition anchor_of (s : pystr) : pystr :=
  match s with
  | 47 :: 47 :: 47 :: _ => str "/"
  | 47 :: 47 :: _ => str "//"
  | 47 :: _ => str "/"
  | _ => []
  end.

(** [Path(s)]: empty components and [.] are dropped. *)
Definition path_of (s : pystr) : PyPath :=
  mkPath (anchor_of s) (List.filter (fun c => negb (bool_decide (c = [])) && negb (str_eqb c (str "."))) (split_slash s [])).

(** [str(path)] *)
Definition path_str (p : PyPath) : pystr :=
  match anchor p, components p with
  | [], [] => str "."
  | a, cs => a ++ join (str "/") cs
  end.

(** [path / name], for one plain component *)
Definition child (p : PyPath) (name : string) : PyPath := mkPath (anchor p) (components p ++ [str name]).

(** [p.is_relative_to(q)] *)
Definition is_relative_to (p q : PyPath) : bool :=
  str_eqb (anchor p) (anchor q) && bool_decide (take (length (components q)) (components p) = components q).

(** The ancestors of a path from the root down, and the path *)
Definition prefixes (p : PyPath) : list PyPath := map (fun n => mkPath (anchor p) (take n (components p))) (seq 0 (S (length (components p)))).

(** ** The file system and the processes *)

Record Stat := mkStat { st_mode : Z; st_uid : Z; st_nlink : Z }.

Definition S_IFMT (mode : Z) : Z := Z.land mode 61440.
Definition S_ISLNK (mode : Z) : bool := S_IFMT mode =? 40960.
Definition S_ISDIR (mode : Z) : bool := S_IFMT mode =? 16384.
Definition S_ISREG (mode : Z) : bool := S_IFMT mode =? 32768.
Definition S_IMODE (mode : Z) : Z := Z.land mode 4095.

Definition Env := list (pystr * pystr).

Record CompletedProcess := mkCompleted { cp_args : list pystr; cp_returncode : Z; cp_stdout : pybytes; cp_stderr : pybytes }.

(** [subprocess.run(args, capture_output=True, check=True, timeout=, env=,
    cwd=, shell=False)] *)
Record Spawn := mkSpawn { sp_args : list pystr; sp_timeout : Z; sp_env : Env; sp_cwd : pystr }.

Class Host (X : Type) := {
  lstat : PyPath -> St X Stat;
  mkdir : PyPath -> Z -> bool -> St X unit;
  is_dir : PyPath -> St X bool;
  geteuid : St X Z;
  run_process : Spawn -> St X CompletedProcess
}.

Record ProcWorld (X : Type) := mkProc { pw_host : X; pw_spawned : list Spawn }.
Arguments mkProc {X} _ _.
Arguments pw_host {X} _.
Arguments pw_spawned {X} _.

(** ** The Java profile *)

Inductive JoernEnvironmentProfile := JAVA_STATIC_V1.
Inductive JavaPhase := parse_phase | export_phase.

#[export] Instance JavaPhase_eq_dec : EqDecision JavaPhase.
Proof. solve_decision. Defined.

Definition JAVA_STATIC_PATH : pystr := str "/opt/joern:/opt/joern/bin:/opt/codeql:/opt/temurin-jre/bin:/usr/bin:/bin".
Definition JAVA_STATIC_HOME : pystr := str "/opt/temurin-jre".
Definition _WORKER_INPUT_PATH : pystr := str "/opt/joern/bin:/opt/codeql:/opt/temurin-jre/bin:/usr/bin".
Definition JAVA_STATIC_EXPORT_SCRIPT : pystr := str "/opt/joern/scripts/export_cpg.sc".

(** [_path]: [path.parts] has the anchor first. *)
Definition _path (p : PyPath) : outcome unit :=
  if negb (str_eqb (anchor p) (str "/")) || bool_decide (str ".." ∈ components p) then Raise JavaStaticEnvironmentError
  else if (length (components p) <? 2)%nat then Raise JavaStaticEnvironmentError
  else Ok tt.

Definition home_of (workdir : PyPath) : PyPath := child workdir ".scanipy-java-home".
Definition tmp_of (workdir : PyPath) : PyPath := child (home_of workdir) "tmp".

Definition _expected (workdir : PyPath) (phase : JavaPhase) : outcome Env :=
  _ ⇐ _path workdir;
  Ok ([(str "PATH", JAVA_STATIC_PATH); (str "JAVA_HOME", JAVA_STATIC_HOME); (str "HOME", path_str (home_of workdir));
       (str "TMPDIR", path_str (tmp_of workdir)); (str "LANG", str "C.UTF-8"); (str "LC_ALL", str "C.UTF-8");
       (str "JAVASRC_FETCH_DEPENDENCIES", str "no-fetch")] ++
      match phase with
      | parse_phase => []
      | export_phase => [(str "SCANIPY_CPG_BIN_PATH", path_str (child workdir "cpg.bin"));
                         (str "SCANIPY_EXPORT_JSON_PATH", path_str (child workdir "cpg_export.json"))]
      end).

(** The keys and values of two dicts agree. *)
Definition env_eqb (actual expected : Env) : bool :=
  forallb (fun k => bool_decide (dict_get actual k = dict_get expected k)) (map fst actual ++ map fst expected).

(** The test of one supplied variable *)
Definition supplied_ok (expected : Env) (workdir : PyPath) (kv : pystr * pystr) : bool :=
  match dict_get expected kv.1 with
  | None => false
  | Some v => str_eqb kv.2 v || (if str_eqb kv.1 (str "PATH") then str_eqb kv.2 _WORKER_INPUT_PATH
                                 else if str_eqb kv.1 (str "HOME") then str_eqb kv.2 (path_str workdir) else false)
  end.

Section java.
Context {X : Type} `{!Host X}.

Definition is_oserror (e : exc) : bool := match e with OSError | FileNotFoundError => true | _ => false end.

(** [component.lstat()], [None] when it is not found *)
Definition lstat_if_found (p : PyPath) : St X (option Stat) :=
  scatch (info ⟸ lstat p; sret (Some info)) (fun e => match e with FileNotFoundError => sret None | _ => sraise e end).

Definition _no_symlink_components (p : PyPath) : St X unit :=
  sfold (fun _ component =>
    found ⟸ lstat_if_found component;
    match found with
    | None => sret tt
    | Some info =>
        if S_ISLNK (st_mode info) then sraise JavaStaticEnvironmentError
        else if negb (bool_decide (component = p)) && negb (S_ISDIR (st_mode info)) then sraise JavaStaticEnvironmentError
        else sret tt
    end) tt (prefixes p).

Definition _owned_directory (p : PyPath) (private : bool) : St X Stat :=
  _no_symlink_components p ⨟
  (info ⟸ scatch (lstat p) (fun e => if is_oserror e then sraise JavaStaticEnvironmentError else sraise e);
   euid ⟸ geteuid;
   if negb (S_ISDIR (st_mode info)) || negb (st_uid info =? euid) then sraise JavaStaticEnvironmentError
   else
     let mode := S_IMODE (st_mode info) in
     if (private && negb (mode =? 448)) || negb (Z.land mode 18 =? 0) || negb (Z.land mode 192 =? 192) then sraise JavaStaticEnvironmentError
     else sret info).

Definition check_output (workdir : PyPath) (name : string) : St X unit :=
  let target := child workdir name in
  _no_symlink_components target ⨟
  (found ⟸ lstat_if_found target;
   match found with
   | None => sret tt
   | Some info =>
       euid ⟸ geteuid;
       if negb (S_ISREG (st_mode info)) || negb (st_uid info =? euid) || negb (st_nlink info =? 1) then sraise JavaStaticEnvironmentError
       else sret tt
   end).

Definition _check_outputs (workdir : PyPath) : St X unit :=
  check_output workdir "cpg.bin" ⨟ check_output workdir "cpg_export.json".

Definition _make_directory (p : PyPath) (parents : bool) : St X unit :=
  scatch (mkdir p 448 parents) (fun e => if is_oserror e then sraise JavaStaticEnvironmentError else sraise e).

Definition validate_java_static_environment (env : Env) (cwd : PyPath) (phase : JavaPhase) : St X unit :=
  expected ⟸ slift (_expected cwd phase);
  if negb (env_eqb env expected) then sraise JavaStaticEnvironmentError
  else
    (_owned_directory cwd false ⨟
     (_owned_directory (home_of cwd) true ⨟
      (_owned_directory (tmp_of cwd) true ⨟
       _check_outputs cwd))).

Definition make_private (d : PyPath) : St X unit :=
  _no_symlink_components d ⨟ (_make_directory d false ⨟ (_owned_directory d true ⨟ sret tt)).

Definition build_java_static_environment (supplied : Env) (workdir : PyPath) : St X Env :=
  expected ⟸ slift (_expected workdir parse_phase);
  if negb (forallb (supplied_ok expected workdir) supplied) then sraise JavaStaticEnvironmentError
  else
    (_no_symlink_components workdir ⨟
     (_make_directory workdir true ⨟
      (_owned_directory workdir false ⨟
       (make_private (home_of workdir) ⨟
        (make_private (tmp_of workdir) ⨟
         (validate_java_static_environment expected workdir parse_phase ⨟
          sret expected)))))).

Definition validate_java_parse_paths (source output cwd : PyPath) : St X unit :=
  _ ⟸ slift (_path source);
  _ ⟸ slift (_path output);
  _no_symlink_components source ⨟
  (is_directory ⟸ is_dir source;
   if negb is_directory then sraise JavaStaticEnvironmentError
   else if is_relative_to source cwd || is_relative_to cwd source then sraise JavaStaticEnvironmentError
   else if negb (bool_decide (output = child cwd "cpg.bin")) then sraise JavaStaticEnvironmentError
   else sret tt).

(** One directory of an observation: its path, owner and permissions *)
Definition observed_directory (p : PyPath) (private : bool) : St X (PyPath * Z * Z) :=
  info ⟸ _owned_directory p private; sret (p, st_uid info, S_IMODE (st_mode info)).

Record Observation := mkObservation { ob_phase : JavaPhase; ob_environment : Env; ob_directories : list (PyPath * Z * Z) }.

(** [Path(env["HOME"])] *)
Definition env_path (env : Env) (name : string) : outcome PyPath :=
  match dict_get env (str name) with Some v => Ok (path_of v) | None => Raise KeyError end.

Definition observe_java_static_environment (env : Env) (cwd : PyPath) (phase : JavaPhase) : St X Observation :=
  validate_java_static_environment env cwd phase ⨟
  (home ⟸ slift (env_path env "HOME");
   tmp ⟸ slift (env_path env "TMPDIR");
   d1 ⟸ observed_directory cwd false;
   d2 ⟸ observed_directory home true;
   d3 ⟸ observed_directory tmp true;
   sret (mkObservation phase env [d1; d2; d3])).
End java.

(** ** The allowlists *)

Definition texts (l : list string) : list pystr := map str l.

Definition JOERN_ARGV_ALLOWLIST : list pystr := texts ["--language"; "--output"; "--script"; "--src"; "--cpg-only"]%string.
Definition JOERN_PARSE_ARGV_ALLOWLIST : list pystr := texts ["--language"; "--output"; "--frontend-args"; "--delombok-mode"]%string.
Definition _PARSE_LANGUAGES : list pystr := texts ["javasrc"; "pythonsrc"; "jssrc"; "golang"; "rubysrc"; "php"]%string.
Definition _JAVA_STATIC_SUFFIX : list pystr := texts ["--frontend-args"; "--delombok-mode"; "no-delombok"]%string.
Definition CODEQL_ARGV_ALLOWLIST : list pystr :=
  texts ["database"; "create"; "analyze"; "--source-root"; "--db"; "--format"; "--output"; "--ram"; "--threads"]%string.
Definition GIT_ARGV_ALLOWLIST : list pystr := [].

Definition _ALLOWLISTS : list (pystr * list pystr) :=
  [(str "joern", JOERN_ARGV_ALLOWLIST); (str "joern-parse", JOERN_PARSE_ARGV_ALLOWLIST);
   (str "codeql", CODEQL_ARGV_ALLOWLIST); (str "git", GIT_ARGV_ALLOWLIST)].

Definition _PINNED_BINARIES : list (pystr * pystr) :=
  map (fun p => (str p.1, str p.2))
    [("joern", "/opt/joern/joern"); ("joern-parse", "/opt/joern/joern-parse"); ("codeql", "/opt/codeql/codeql"); ("git", "/usr/bin/git")]%string.

Definition is_flag (arg : pystr) : bool := bool_decide (is_Some (strip (str "-") arg)).

(** [arg.split("=", 1)[0]] *)
Fixpoint option_name (arg : pystr) : pystr :=
  match arg with c :: arg => if c =? 61 then [] else c :: option_name arg | [] => [] end.

Definition plain_argument (arg : pystr) : bool := negb (bool_decide (arg = [])) && negb (bool_decide (0 ∈ arg)).

Definition _enforce_parse_grammar (argv : list pystr) : outcome unit :=
  match argv with
  | a0 :: lang :: a2 :: out :: src :: suffix =>
      let java := str_eqb lang (str "javasrc") in
      if negb (bool_decide (length argv = 5%nat) || bool_decide (length argv = 8%nat)) || negb (forallb plain_argument argv) ||
         negb (str_eqb a0 (str "--language")) || negb (bool_decide (lang ∈ _PARSE_LANGUAGES)) || negb (str_eqb a2 (str "--output")) ||
         is_flag out || is_flag src ||
         (java && negb (bool_decide (suffix = _JAVA_STATIC_SUFFIX))) || (negb java && negb (bool_decide (length argv = 5%nat)))
      then Raise ArgvAllowlistViolation else Ok tt
  | _ => Raise ArgvAllowlistViolation
  end.

Definition _enforce_allowlist (tool : pystr) (argv : list pystr) : outcome (list pystr) :=
  if str_eqb tool (str "git") then Raise ArgvAllowlistViolation
  else match dict_get _ALLOWLISTS tool with
  | None => Raise UnknownTool
  | Some allowlist =>
      _ ⇐ if str_eqb tool (str "joern-parse") then _enforce_parse_grammar argv else Ok tt;
      if existsb (fun arg => is_flag arg && negb (bool_decide (option_name arg ∈ allowlist))) argv then Raise ArgvAllowlistViolation
      else Ok allowlist
  end.

Definition resolve_pinned_binary (tool : pystr) : outcome pystr :=
  match dict_get _PINNED_BINARIES tool with Some b => Ok b | None => Raise UnknownTool end.

Section run.
Context {X : Type} `{!Host X}.

Notation W := (ProcWorld X).

Definition on_host {A} (m : St X A) : St W A := fun w =>
  let '(r, x) := m (pw_host w) in (r, mkProc x (pw_spawned w)).

(** A process is in the log whether or not it succeeds. *)
Definition spawn (s : Spawn) : St W CompletedProcess :=
  sput (fun w => mkProc (pw_host w) (pw_spawned w ++ [s])) ⨟ on_host (run_process s).

(** [argv[i]], after the grammar *)
Definition arg_at (argv : list pystr) (i : nat) : pystr := default [] (argv !! i).

Definition secure_run (tool : pystr) (argv : list pystr) (timeout_s : Z) (env : Env) (cwd : pystr)
    (environment_profile : option JoernEnvironmentProfile) : St W CompletedProcess :=
  _ ⟸ slift (_enforce_allowlist tool argv);
  let java_parse := str_eqb tool (str "joern-parse") && str_eqb (arg_at argv 1) (str "javasrc") in
  (match environment_profile with
   | None => if java_parse then sraise JavaStaticEnvironmentError else sret tt
   | Some JAVA_STATIC_V1 =>
       if java_parse then
         on_host (validate_java_static_environment env (path_of cwd) parse_phase ⨟
                  validate_java_parse_paths (path_of (arg_at argv 4)) (path_of (arg_at argv 3)) (path_of cwd))
       else if str_eqb tool (str "joern") && bool_decide (argv = [str "--script"; JAVA_STATIC_EXPORT_SCRIPT]) then
         on_host (validate_java_static_environment env (path_of cwd) export_phase)
       else sraise JavaStaticEnvironmentError
   end) ⨟
  (binary ⟸ slift (resolve_pinned_binary tool);
   spawn (mkSpawn (binary :: argv) timeout_s env cwd)).
End run.

(** * What is started

    A process is started only when its arguments are sanctioned, and a Java
    parse only in the closed environment. *)

Lemma env_eqb_spec a e : env_eqb a e = true <-> forall k, dict_get a k = dict_get e k.
Proof.
  unfold env_eqb. rewrite forallb_forall. setoid_rewrite bool_decide_eq_true. split; [|auto]. intros H k.
  destruct (decide (k ∈ map fst a ++ map fst e)) as [Hk|Hk]; [by apply H, list_elem_of_In|].
  rewrite not_elem_of_app in Hk. destruct Hk as [H1%dict_get_None H2%dict_get_None]. congruence.
Qed.

Definition parse_form (argv : list pystr) : Prop := exists lang out src,
  lang ∈ _PARSE_LANGUAGES /\ is_flag out = false /\ is_flag src = false /\ Forall (fun a => plain_argument a = true) argv /\
  argv = [str "--language"; lang; str "--output"; out; src] ++ (if bool_decide (lang = str "javasrc") then _JAVA_STATIC_SUFFIX else []).

Lemma grammar_exact argv : _enforce_parse_grammar argv = Ok tt <-> parse_form argv.
Proof.
  unfold parse_form. split.
  - destruct argv as [|a0 [|lang [|a2 [|out [|src suffix]]]]]; try done. unfold _enforce_parse_grammar. intros H.
    match type of H with (if ?b then _ else _) = _ => destruct b eqn:E; [done|] end. clear H.
    repeat match goal with H : _ || _ = false |- _ => apply orb_false_iff in H as [? ?] end.
    repeat match goal with H : negb _ = false |- _ => apply negb_false_iff in H end.
    unfold str_eqb in *. repeat match goal with H : bool_decide _ = true |- _ => apply bool_decide_eq_true in H end. subst a0 a2.
    exists lang, out, src. split_and!; try done; [by apply forallb_True, Is_true_true_2 || by apply Forall_forall; intros a Ha; eapply forallb_forall; [eassumption|by apply list_elem_of_In]|].
    case_bool_decide as Hj; cbn [andb negb] in *.
    + match goal with H : negb _ = false |- _ => apply negb_false_iff, bool_decide_eq_true in H; by rewrite H end.
    + match goal with H : negb (bool_decide (length _ = 5%nat)) = false |- _ => apply negb_false_iff, bool_decide_eq_true in H end.
      destruct suffix; [done|]. cbn in *. lia.
  - intros (lang & out & src & Hl & Ho & Hs & Hp & ->). unfold _enforce_parse_grammar. cbn [app].
    assert (Hf : forallb plain_argument ([str "--language"; lang; str "--output"; out; src] ++
      (if bool_decide (lang = str "javasrc") then _JAVA_STATIC_SUFFIX else [])) = true).
    { apply forallb_forall. intros a Ha%list_elem_of_In. rewrite Forall_forall in Hp. by apply Hp. }
    cbn [app] in Hf. rewrite Hf, Ho, Hs, (bool_decide_true (lang ∈ _)) by done. unfold str_eqb. by case_bool_decide.
Qed.

Lemma on_host_spawned {X A} `{!Host X} (m : St X A) (w : ProcWorld X) : pw_spawned (on_host m w).2 = pw_spawned w.
Proof. unfold on_host. by destruct (m (pw_host w)). Qed.

Section sanctioned.
Context {X : Type} `{!Host X}.

(** What is known of a process [secure_run] has started *)
Record sanctioned (tool : pystr) (argv : list pystr) (timeout_s : Z) (env : Env) (cwd : pystr) (s : Spawn) : Prop := {
  sa_call : exists binary, dict_get _PINNED_BINARIES tool = Some binary /\ s = mkSpawn (binary :: argv) timeout_s env cwd;
  sa_tool : tool <> str "git";
  sa_flags : exists allowlist, dict_get _ALLOWLISTS tool = Some allowlist /\
    forall a, a ∈ argv -> is_flag a = true -> option_name a ∈ allowlist;
  sa_parse : tool = str "joern-parse" -> parse_form argv;
  sa_java : tool = str "joern-parse" -> arg_at argv 1 = str "javasrc" -> exists expected, _expected (path_of cwd) parse_phase = Ok expected /\
    (forall k, dict_get env k = dict_get expected k) /\ _path (path_of (arg_at argv 4)) = Ok tt /\
    is_relative_to (path_of (arg_at argv 4)) (path_of cwd) = false /\ is_relative_to (path_of cwd) (path_of (arg_at argv 4)) = false /\
    path_of (arg_at argv 3) = child (path_of cwd) "cpg.bin"
}.

Lemma allowlist_exact tool argv allowlist : _enforce_allowlist tool argv = Ok allowlist ->
  tool <> str "git" /\ dict_get _ALLOWLISTS tool = Some allowlist /\ (tool = str "joern-parse" -> parse_form argv) /\
  forall a, a ∈ argv -> is_flag a = true -> option_name a ∈ allowlist.
Proof.
  unfold _enforce_allowlist, str_eqb. case_bool_decide as Hg; [done|]. destruct (dict_get _ALLOWLISTS tool) as [l|]; [|done]. intros H.
  apply obind_Ok in H as ([] & Hp & H). destruct (existsb _ argv) eqn:E; [done|]. injection H as <-. split_and!; try done.
  - intros ->. apply grammar_exact. by rewrite bool_decide_true in Hp.
  - intros a Ha Hf. destruct (decide (option_name a ∈ l)) as [|Hn]; [done|]. exfalso. apply not_true_iff_false in E. apply E, existsb_exists.
    exists a. split; [by apply list_elem_of_In|]. by rewrite Hf, bool_decide_false.
Qed.

Lemma validate_env_Ok env cwd phase (x : X) x' : validate_java_static_environment env cwd phase x = (Ok tt, x') ->
  exists expected, _expected cwd phase = Ok expected /\ forall k, dict_get env k = dict_get expected k.
Proof.
  unfold validate_java_static_environment. intros H. apply sbind_Ok in H as (expected & y & [He ->]%slift_Ok & H).
  destruct (env_eqb env expected) eqn:E; [|done]. exists expected. split; [done|]. by apply env_eqb_spec.
Qed.

Lemma parse_paths_Ok source output cwd (x : X) x' : validate_java_parse_paths source output cwd x = (Ok tt, x') ->
  _path source = Ok tt /\ is_relative_to source cwd = false /\ is_relative_to cwd source = false /\ output = child cwd "cpg.bin".
Proof.
  unfold validate_java_parse_paths. intros H. apply sbind_Ok in H as ([] & y & [Hs ->]%slift_Ok & H).
  apply sbind_Ok in H as ([] & y1 & [_ ->]%slift_Ok & H). apply sbind_Ok in H as ([] & y2 & _ & H). apply sbind_Ok in H as (d & y3 & _ & H).
  destruct (negb d); [done|]. destruct (is_relative_to source cwd), (is_relative_to cwd source); try done. cbn [orb] in H.
  case_bool_decide; [|done]. by split_and!.
Qed.

(** The check of the profile, between the allowlist and the start *)
Definition profile_check (tool : pystr) (argv : list pystr) (env : Env) (cwd : pystr) (profile : option JoernEnvironmentProfile) : St (ProcWorld X) unit :=
  let java_parse := str_eqb tool (str "joern-parse") && str_eqb (arg_at argv 1) (str "javasrc") in
  match profile with
  | None => if java_parse then sraise JavaStaticEnvironmentError else sret tt
  | Some JAVA_STATIC_V1 =>
      if java_parse then
        on_host (validate_java_static_environment env (path_of cwd) parse_phase ⨟
                 validate_java_parse_paths (path_of (arg_at argv 4)) (path_of (arg_at argv 3)) (path_of cwd))
      else if str_eqb tool (str "joern") && bool_decide (argv = [str "--script"; JAVA_STATIC_EXPORT_SCRIPT]) then
        on_host (validate_java_static_environment env (path_of cwd) export_phase)
      else sraise JavaStaticEnvironmentError
  end.

Lemma profile_check_spawned tool argv env cwd profile w r w' : profile_check tool argv env cwd profile w = (r, w') -> pw_spawned w' = pw_spawned w.
Proof.
  unfold profile_check. intros H. assert (pw_spawned w' = pw_spawned (r, w').2) as -> by done. rewrite <-H.
  destruct profile as [[]|]; repeat case_match; try done; apply on_host_spawned.
Qed.

Lemma java_checked argv env cwd profile w w' : arg_at argv 1 = str "javasrc" ->
  profile_check (str "joern-parse") argv env cwd profile w = (Ok tt, w') -> exists expected, _expected (path_of cwd) parse_phase = Ok expected /\
    (forall k, dict_get env k = dict_get expected k) /\ _path (path_of (arg_at argv 4)) = Ok tt /\
    is_relative_to (path_of (arg_at argv 4)) (path_of cwd) = false /\ is_relative_to (path_of cwd) (path_of (arg_at argv 4)) = false /\
    path_of (arg_at argv 3) = child (path_of cwd) "cpg.bin".
Proof.
  intros Hj. unfold profile_check. rewrite Hj. change (str_eqb (str "joern-parse") (str "joern-parse") && str_eqb (str "javasrc") (str "javasrc")) with true.
  destruct profile as [[]|]; [|done]. unfold on_host. destruct (sbind _ _ (pw_host w)) as [[[]|] x] eqn:E; [|done]. intros _.
  apply sbind_Ok in E as ([] & y & (expected & He & Hk)%validate_env_Ok & (H1 & H2 & H3 & H4)%parse_paths_Ok). by exists expected.
Qed.

(** The steps of [secure_run] *)
Lemma secure_run_steps tool argv timeout_s env cwd profile (w : ProcWorld X) r w' :
  secure_run tool argv timeout_s env cwd profile w = (r, w') ->
  (pw_spawned w' = pw_spawned w /\ exists e, r = Raise e) \/
  exists allowlist binary w1, _enforce_allowlist tool argv = Ok allowlist /\ profile_check tool argv env cwd profile w = (Ok tt, w1) /\
    dict_get _PINNED_BINARIES tool = Some binary /\ spawn (mkSpawn (binary :: argv) timeout_s env cwd) w1 = (r, w').
Proof.
  change (secure_run tool argv timeout_s env cwd profile) with
    (_ ⟸ slift (_enforce_allowlist tool argv); profile_check tool argv env cwd profile ⨟
     (binary ⟸ slift (resolve_pinned_binary tool); spawn (mkSpawn (binary :: argv) timeout_s env cwd))).
  intros H. apply sbind_split in H as [(allowlist & w1 & [Ha ->]%slift_Ok & H)|(e & Hr & ->)].
  2: { left. unfold slift in Hr. injection Hr as _ <-. split; [done|by eexists]. }
  apply sbind_split in H as [([] & w2 & Hprof & H)|(e & Hr & ->)].
  2: { left. split; [|by eexists]. by eapply profile_check_spawned. }
  apply sbind_split in H as [(binary & w3 & [Hb ->]%slift_Ok & H)|(e & Hr & ->)].
  2: { left. unfold slift in Hr. injection Hr as _ <-. split; [|by eexists]. by eapply profile_check_spawned. }
  right. exists allowlist, binary, w2. unfold resolve_pinned_binary in Hb. destruct (dict_get _PINNED_BINARIES tool); [|done].
  injection Hb as ->. done.
Qed.

Lemma steps_sanctioned tool argv timeout_s env cwd profile allowlist binary w w1 :
  _enforce_allowlist tool argv = Ok allowlist -> profile_check tool argv env cwd profile w = (Ok tt, w1) ->
  dict_get _PINNED_BINARIES tool = Some binary -> sanctioned tool argv timeout_s env cwd (mkSpawn (binary :: argv) timeout_s env cwd).
Proof.
  intros (Htool & Hal & Hparse & Hflags)%allowlist_exact Hprof Hb. split; [by eexists|done|by eexists|done|].
  intros -> Hj. by eapply java_checked.
Qed.

Lemma spawn_run s (w : ProcWorld X) r w' : spawn s w = (r, w') -> pw_spawned w' = pw_spawned w ++ [s] /\ exists x, run_process s x = (r, pw_host w').
Proof. unfold spawn, sbind, sput, on_host. cbn. destruct (run_process _ _) as [r0 x] eqn:E. intros [= -> <-]. by split; [|eexists]. Qed.

Lemma secure_run_effect tool argv timeout_s env cwd profile (w : ProcWorld X) r w' :
  secure_run tool argv timeout_s env cwd profile w = (r, w') ->
  (pw_spawned w' = pw_spawned w /\ exists e, r = Raise e) \/
  exists s, sanctioned tool argv timeout_s env cwd s /\ pw_spawned w' = pw_spawned w ++ [s].
Proof.
  intros [?|(allowlist & binary & w1 & Ha & Hp & Hb & [Hs _]%spawn_run)]%secure_run_steps; [by left|right].
  eexists. split; [by eapply steps_sanctioned|]. by rewrite Hs, (profile_check_spawned _ _ _ _ _ _ _ _ Hp).
Qed.

(** C13: no unsanctioned process is started.  Whatever is asked, [secure_run]
    starts at most one process: the pinned binary of the tool with exactly
    the arguments, the environment and the directory given, never git; each
    flag is on the tool's list, a parse has the exact grammar of its language,
    and a Java parse the closed environment of its job directory, which does
    not overlap the source.  Otherwise it raises and starts nothing; when the
    arguments are refused, nothing at all has happened. *)
Theorem secure_run_sanctioned tool argv timeout_s env cwd profile (w : ProcWorld X) r w' :
  secure_run tool argv timeout_s env cwd profile w = (r, w') ->
  ((pw_spawned w' = pw_spawned w /\ exists e, r = Raise e) \/
   exists s, sanctioned tool argv timeout_s env cwd s /\ pw_spawned w' = pw_spawned w ++ [s] /\ exists x, run_process s x = (r, pw_host w')) /\
  (forall e, _enforce_allowlist tool argv = Raise e -> r = Raise e /\ w' = w).
Proof.
  intros H. split; [|intros e He; unfold secure_run in H; rewrite He in H; by injection H as <- <-].
  apply secure_run_steps in H as [?|(allowlist & binary & w1 & Ha & Hp & Hb & [Hs Hx]%spawn_run)]; [by left|right].
  eexists. split; [by eapply steps_sanctioned|]. by rewrite Hs, (profile_check_spawned _ _ _ _ _ _ _ _ Hp).
Qed.
End sanctioned.
