(* ===== verification/JoernFrontend.v ===== *)
(** * The Joern front end ([analysis/cpg_ingest/joern_frontend.py])

    [parse_source]: the parse and the export of a source tree, both through
    [secure_run], and the mapping of what was exported.  An observer, when
    there is one, gets an event for each run; times are left out of it. *)
From stdpp Require Import base tactics list strings.
From Stdlib Require Import ZArith Lia.
From S2P Require Import Prelude PyData PyDict Sha256 Ordering Json PyText Identity JsonParse Cpg CpgDelta CpgTarball JoernMapper SecureRun.

Open Scope Z_scope.
Open Scope list_scope.
Open Scope py_scope.
Open Scope st_scope.

Definition EXPORT_SCRIPT_PATH : pystr := str "/opt/joern/scripts/export_cpg.sc".
Definition ENV_CPG_BIN_PATH : pystr := str "SCANIPY_CPG_BIN_PATH".
Definition ENV_EXPORT_JSON_PATH : pystr := str "SCANIPY_EXPORT_JSON_PATH".
Definition JOERN_PARSE_TIMEOUT_S : Z := 600.
Definition JOERN_EXPORT_TIMEOUT_S : Z := 300.
Definition _CPG_BIN_FILENAME : string := "cpg.bin".
Definition _EXPORT_JSON_FILENAME : string := "cpg_export.json".

Definition JOERN_LANGUAGE_BY_SCANIPY_LANG : list (pystr * pystr) :=
  map (fun p => (str p.1, str p.2))
    [("python", "pythonsrc"); ("java", "javasrc"); ("js", "jssrc"); ("ts", "jssrc"); ("go", "golang"); ("ruby", "rubysrc"); ("php", "php")]%string.

(** [error] is the exception; its type and text are functions of it. *)
Record JoernProcessEvent := mkEvent {
  ev_phase : JavaPhase;
  ev_tool : pystr;
  ev_requested_argv : list pystr;
  ev_argv : option (list pystr);
  ev_cwd : pystr;
  ev_timeout_s : Z;
  ev_returncode : option Z;
  ev_stdout : pybytes;
  ev_stderr : pybytes;
  ev_error : option exc;
  ev_environment_observation : option Observation
}.

(** What a result, or an exception, shows of the run: [argv], [returncode],
    [stdout] and [stderr] *)
Definition run_shows (r : outcome CompletedProcess) : option (list pystr) * option Z * pybytes * pybytes :=
  match r with
  | Ok p => (Some (cp_args p), Some (cp_returncode p), cp_stdout p, cp_stderr p)
  | Raise (CalledProcessError cmd code out err) => (Some cmd, Some code, out, err)
  | Raise (TimeoutExpired cmd out err) => (Some cmd, None, out, err)
  | Raise _ => (None, None, [], [])
  end.

Definition run_error {A} (r : outcome A) : option exc :=
  match r with Raise e => if is_exception e then Some e else None | Ok _ => None end.

(** The outcome of a block as a value: [try] with [finally] *)
Definition attempt {S A} (m : St S A) : St S (outcome A) := fun s => let '(r, s') := m s in (Ok r, s').

Section frontend.
Context {X : Type} `{!Host X}.

Notation W := (ProcWorld X).

Definition Observer : Type := JoernProcessEvent -> St X unit.

(** [None] when no profile is given *)
Definition observe_profile (profile : option JoernEnvironmentProfile) (env : Env) (cwd : pystr) (phase : JavaPhase) : St W (option Observation) :=
  match profile with
  | Some JAVA_STATIC_V1 => o ⟸ on_host (observe_java_static_environment env (path_of cwd) phase); sret (Some o)
  | None => sret None
  end.

Definition _observed_run (tool : pystr) (argv : list pystr) (phase : JavaPhase) (timeout_s : Z) (env : Env) (cwd : pystr)
    (observer : option Observer) (profile : option JoernEnvironmentProfile) : St W unit :=
  match observer with
  | None => secure_run tool argv timeout_s env cwd profile ⨟ sret tt
  | Some observer =>
      observed ⟸ attempt (observe_profile profile env cwd phase);
      result ⟸ match observed with
               | Ok _ => attempt (secure_run tool argv timeout_s env cwd profile)
               | Raise e => sret (Raise e)
               end;
      let '(actual, returncode, stdout, stderr) := run_shows result in
      let observation := match observed with Ok o => o | Raise _ => None end in
      published ⟸ attempt (on_host (observer
        (mkEvent phase tool argv actual cwd timeout_s returncode stdout stderr (run_error result) observation)));
      match published, result with
      | Ok _, Ok _ => sret tt
      | Ok _, Raise e => sraise e
      | Raise observation_error, _ =>
          if is_exception observation_error then sraise (default observation_error (run_error result)) else sraise observation_error
      end
  end.

(** The file of the export, as [json.loads] gives it *)
Variable read_export : PyPath -> St X RawJoernExport.

Definition parse_argv (joern_language : pystr) (java : bool) (src_root cpg_bin : PyPath) : list pystr :=
  [str "--language"; joern_language; str "--output"; path_str cpg_bin; path_str src_root] ++
  (if java then [str "--frontend-args"; str "--delombok-mode"; str "no-delombok"] else []).

Definition setdefault (env : Env) (k v : pystr) : Env := match dict_get env k with Some _ => env | None => env ++ [(k, v)] end.

(** The environment of both phases *)
Definition base_environment (java : bool) (src_root : PyPath) (env : Env) (workdir : PyPath) : St X Env :=
  if java then
    validate_java_parse_paths src_root (child workdir _CPG_BIN_FILENAME) workdir ⨟ build_java_static_environment env workdir
  else
    mkdir workdir 511 true ⨟ sret (setdefault env (str "HOME") (path_str workdir)).

Definition export_environment (base_env : Env) (workdir : PyPath) : Env :=
  dict_set (dict_set base_env ENV_CPG_BIN_PATH (path_str (child workdir _CPG_BIN_FILENAME)))
    ENV_EXPORT_JSON_PATH (path_str (child workdir _EXPORT_JSON_FILENAME)).

(** [fuel] bounds the rounds of the mapper's walk. *)
Definition parse_source (fuel : nat) (src_root : PyPath) (language : pystr) (env : Env) (workdir : PyPath) (observer : option Observer) : St W CPG :=
  match dict_get JOERN_LANGUAGE_BY_SCANIPY_LANG language with
  | None => sraise UnsupportedParseLanguageError
  | Some joern_language =>
      let java := str_eqb language (str "java") in
      let profile := if java then Some JAVA_STATIC_V1 else None in
      base_env ⟸ on_host (base_environment java src_root env workdir);
      _observed_run (str "joern-parse") (parse_argv joern_language java src_root (child workdir _CPG_BIN_FILENAME)) parse_phase
        JOERN_PARSE_TIMEOUT_S base_env (path_str workdir) observer profile ⨟
      (_observed_run (str "joern") [str "--script"; EXPORT_SCRIPT_PATH] export_phase JOERN_EXPORT_TIMEOUT_S
         (export_environment base_env workdir) (path_str workdir) observer profile ⨟
       (raw_export ⟸ scatch (on_host (read_export (child workdir _EXPORT_JSON_FILENAME)))
          (fun e => if is_oserror e || is_json_error e then sraise JoernExportMissingError else sraise e);
        slift (map_export fuel raw_export)))
  end.
End frontend.

(** ** Parts of the ingest that are not there yet: calling them raises. *)

Definition build_graph_view (g : CPG) : outcome GraphView := Raise NotImplementedError.

Record JoernDeclReparser := mkReparser { rp_src_root : PyPath; rp_language : pystr; rp_env : Env; rp_workdir : PyPath }.

Definition joern_reparse (r : JoernDeclReparser) (decl_fqn : pystr) (fresh_id_base : Z) : outcome DeclSubgraph := Raise NotImplementedError.

(** * The two phases

    The export is started only when the parse has returned, both with the
    arguments of this module and nothing else, and the graph is that of the
    file the export left. *)

Section phases.
Context {X : Type} `{!Host X}.
Variable read_export : PyPath -> St X RawJoernExport.

Notation W := (ProcWorld X).

Lemma attempt_run {S A} (m : St S A) s r s' : attempt m s = (r, s') -> exists v, r = Ok v /\ m s = (v, s').
Proof. unfold attempt. destruct (m s) as [v t]. intros [= <- <-]. by exists v. Qed.

Lemma on_host_run {A} (m : St X A) (w : W) r w' : on_host m w = (r, w') -> pw_spawned w' = pw_spawned w /\ m (pw_host w) = (r, pw_host w').
Proof. unfold on_host. destruct (m (pw_host w)). by intros [= <- <-]. Qed.

(** ** What the host went through *)

Variable observer : option (@Observer X).

(** The host went from one state to another by looking at files, making
    directories and telling the observer, and by exactly the listed processes,
    in order, with how each ended. *)
Inductive reached : X -> list (Spawn * outcome CompletedProcess) -> X -> Prop :=
| rc_refl x : reached x [] x
| rc_lstat p x r y l z : lstat p x = (r, y) -> reached y l z -> reached x l z
| rc_mkdir p mode parents x r y l z : mkdir p mode parents x = (r, y) -> reached y l z -> reached x l z
| rc_is_dir p x r y l z : is_dir p x = (r, y) -> reached y l z -> reached x l z
| rc_geteuid x r y l z : geteuid x = (r, y) -> reached y l z -> reached x l z
| rc_observe observe ev x r y l z : observer = Some observe -> observe ev x = (r, y) -> reached y l z -> reached x l z
| rc_run s x r y l z : run_process s x = (r, y) -> reached y l z -> reached x ((s, r) :: l) z.

Lemma reached_trans x l y l' z : reached x l y -> reached y l' z -> reached x (l ++ l') z.
Proof. induction 1; intros; cbn; eauto using reached. Qed.

(** An operation that starts nothing *)
Definition quiet {A} (m : St X A) : Prop := forall x r y, m x = (r, y) -> reached x [] y.

Lemma quiet_seq {A B} (m : St X A) (f : A -> St X B) : quiet m -> (forall a, quiet (f a)) -> quiet (sbind m f).
Proof.
  intros Hm Hf x r y [(a & t & H1 & H2)|(e & H1 & _)]%sbind_split; [|by eapply Hm].
  change (@nil (Spawn * outcome CompletedProcess)) with (@nil (Spawn * outcome CompletedProcess) ++ []). eapply reached_trans; [by eapply Hm|by eapply Hf].
Qed.

Lemma quiet_catch {A} (m : St X A) handler : quiet m -> (forall e, quiet (handler e)) -> quiet (scatch m handler).
Proof.
  intros Hm Hh x r y. unfold scatch. destruct (m x) as [[a|e] t] eqn:E; [intros [= _ <-]; by eapply Hm|]. intros H.
  change (@nil (Spawn * outcome CompletedProcess)) with (@nil (Spawn * outcome CompletedProcess) ++ []). eapply reached_trans; [by eapply Hm|by eapply Hh].
Qed.

Lemma quiet_const {A} (o : outcome A) : quiet (fun x => (o, x)).
Proof. intros x r y [= _ <-]. constructor. Qed.

Lemma quiet_fold {A B} (body : B -> A -> St X B) l : (forall b a, quiet (body b a)) -> forall acc, quiet (sfold body acc l).
Proof. intros H. induction l as [|a l IH]; intros acc; [apply quiet_const|]. by apply quiet_seq. Qed.

Lemma quiet_lstat p : quiet (lstat p). Proof. intros x r y E. eauto using reached. Qed.
Lemma quiet_mkdir p mode parents : quiet (mkdir p mode parents). Proof. intros x r y E. eauto using reached. Qed.
Lemma quiet_is_dir p : quiet (is_dir p). Proof. intros x r y E. eauto using reached. Qed.
Lemma quiet_geteuid : quiet geteuid. Proof. intros x r y E. eauto using reached. Qed.

Ltac quiet := cbn zeta; repeat
  (lazymatch goal with
   | |- quiet (sbind _ _) => apply quiet_seq; [|intros]
   | |- quiet (scatch _ _) => apply quiet_catch; [|intros]
   | |- quiet (sfold _ _ _) => apply quiet_fold; intros
   | |- quiet (sret _) => apply quiet_const
   | |- quiet (sraise _) => apply quiet_const
   | |- quiet (slift _) => apply quiet_const
   | |- quiet (match _ with _ => _ end) => case_match
   | |- quiet _ => solve [auto using quiet_lstat, quiet_mkdir, quiet_is_dir, quiet_geteuid]
   end; cbn zeta).

Lemma quiet_symlinks p : quiet (_no_symlink_components p).
Proof. unfold _no_symlink_components, lstat_if_found. quiet. Qed.
Local Hint Resolve quiet_symlinks : core.

Lemma quiet_owned p private : quiet (_owned_directory p private).
Proof. unfold _owned_directory. quiet. Qed.
Local Hint Resolve quiet_owned : core.

Lemma quiet_static env cwd phase : quiet (validate_java_static_environment env cwd phase).
Proof.
  unfold validate_java_static_environment, _check_outputs, check_output, lstat_if_found. quiet.
Qed.
Local Hint Resolve quiet_static : core.

Lemma quiet_paths source output cwd : quiet (validate_java_parse_paths source output cwd).
Proof. unfold validate_java_parse_paths. quiet. Qed.
Local Hint Resolve quiet_paths : core.

Lemma quiet_base java src_root env workdir : quiet (base_environment java src_root env workdir).
Proof.
  unfold base_environment, build_java_static_environment, make_private, _make_directory. quiet.
Qed.

Lemma quiet_profile tool argv env cwd profile (w : W) r w' : profile_check tool argv env cwd profile w = (r, w') -> reached (pw_host w) [] (pw_host w').
Proof.
  unfold profile_check. destruct profile as [[]|]; repeat case_match; first [intros [_ Hr]%on_host_run|intros [= _ <-]; constructor].
  - eapply quiet_seq; [apply quiet_static|intros; apply quiet_paths|exact Hr].
  - by eapply quiet_static.
Qed.

Lemma quiet_observed profile env cwd phase (w : W) r w' : observe_profile profile env cwd phase w = (r, w') ->
  reached (pw_host w) [] (pw_host w') /\ pw_spawned w' = pw_spawned w.
Proof.
  unfold observe_profile. destruct profile as [[]|]; [|by intros [= _ <-]; split; [constructor|]]. intros H.
  assert (exists r0, on_host (observe_java_static_environment env (path_of cwd) phase) w = (r0, w')) as [r0 [Hs Ho]%on_host_run]
    by (apply sbind_split in H as [(o & t & H & [= _ <-])|(e & H & _)]; by eexists).
  split; [|done]. assert (Hq : quiet (observe_java_static_environment env (path_of cwd) phase)); [|by eapply Hq].
  unfold observe_java_static_environment, observed_directory. quiet.
Qed.

(** What a run may have done: nothing but raise, or one sanctioned process,
    which succeeded if the run returns *)
Definition ran (tool : pystr) (argv : list pystr) (timeout_s : Z) (env : Env) (cwd : pystr) {A} (w : W) (r : outcome A) (w' : W) : Prop :=
  exists l, reached (pw_host w) l (pw_host w') /\ pw_spawned w' = pw_spawned w ++ map fst l /\
    ((l = [] /\ exists e, r = Raise e) \/
     exists s p, l = [(s, p)] /\ sanctioned tool argv timeout_s env cwd s /\ (forall a, r = Ok a -> exists completed, p = Ok completed)).

(** What precedes and follows a run without starting anything *)
Lemma ran_around tool argv timeout_s env cwd {A B} (w0 w : W) (r : outcome A) w1 (r' : outcome B) w2 :
  reached (pw_host w0) [] (pw_host w) -> pw_spawned w = pw_spawned w0 -> ran tool argv timeout_s env cwd w r w1 ->
  reached (pw_host w1) [] (pw_host w2) -> pw_spawned w2 = pw_spawned w1 ->
  (forall b, r' = Ok b -> exists a, r = Ok a) -> (forall e, r = Raise e -> exists e, r' = Raise e) -> ran tool argv timeout_s env cwd w0 r' w2.
Proof.
  intros H0 S0 (l & H & S & Hcase) H2 S2 Hok Hraise. exists l. split_and!.
  - rewrite <-(app_nil_l l), <-(app_nil_r l). eapply reached_trans; [exact H0|]. by eapply reached_trans.
  - by rewrite S2, S, S0.
  - destruct Hcase as [(-> & e & He)|(s & p & -> & Hs & Hp)]; [left; split; [done|by eapply Hraise]|right].
    exists s, p. split_and!; try done. intros b [a Ha]%Hok. by eapply Hp.
Qed.

Lemma spawn_reached s (w : W) r w' : spawn s w = (r, w') -> reached (pw_host w) [(s, r)] (pw_host w') /\ pw_spawned w' = pw_spawned w ++ [s].
Proof.
  unfold spawn, sbind, sput, on_host. cbn. destruct (run_process s (pw_host w)) as [r0 x] eqn:E. intros [= -> <-]. split; [|done].
  eapply rc_run; [exact E|constructor].
Qed.

Lemma ran_nothing tool argv timeout_s env cwd {A} (w w' : W) (r : outcome A) e :
  reached (pw_host w) [] (pw_host w') -> pw_spawned w' = pw_spawned w -> r = Raise e -> ran tool argv timeout_s env cwd w r w'.
Proof. intros H1 H2 ->. exists []. rewrite app_nil_r. split_and!; [done..|left]. split; [done|by eexists]. Qed.

Lemma secure_run_ran tool argv timeout_s env cwd profile (w : W) r w' :
  secure_run tool argv timeout_s env cwd profile w = (r, w') -> ran tool argv timeout_s env cwd w r w'.
Proof.
  change (secure_run tool argv timeout_s env cwd profile) with
    (_ ⟸ slift (_enforce_allowlist tool argv); profile_check tool argv env cwd profile ⨟
     (binary ⟸ slift (resolve_pinned_binary tool); spawn (mkSpawn (binary :: argv) timeout_s env cwd))).
  intros [(allowlist & w1 & [Ha ->]%slift_Ok & H)|(e & [= _ <-] & ->)]%sbind_split; [|by eapply ran_nothing; [constructor|..]].
  apply sbind_split in H as [([] & w1 & Hp & H)|(e & Hp & ->)]; pose proof (profile_check_spawned _ _ _ _ _ _ _ _ Hp) as Hs;
    pose proof (quiet_profile _ _ _ _ _ _ _ _ Hp) as Hq; [|by eapply ran_nothing].
  apply sbind_split in H as [(binary & w2 & [Hb ->]%slift_Ok & H)|(e & [= _ <-] & ->)]; [|by eapply ran_nothing].
  apply spawn_reached in H as [Hr Hsp]. exists [(mkSpawn (binary :: argv) timeout_s env cwd, r)]. split_and!.
  - change [(mkSpawn (binary :: argv) timeout_s env cwd, r)] with ([] ++ [(mkSpawn (binary :: argv) timeout_s env cwd, r)]). by eapply reached_trans.
  - by rewrite Hsp, Hs.
  - right. do 2 eexists. split_and!; [done| |intros a ->; by eexists]. eapply steps_sanctioned; [done..|].
    unfold resolve_pinned_binary in Hb. destruct (dict_get _PINNED_BINARIES tool); [by injection Hb as ->|done].
Qed.

Lemma observed_run_ran tool argv phase timeout_s env cwd profile (w : W) r w' :
  _observed_run tool argv phase timeout_s env cwd observer profile w = (r, w') -> ran tool argv timeout_s env cwd w r w'.
Proof.
  unfold _observed_run. destruct observer as [observe|] eqn:Eo; intros H.
  2: { assert (exists r0, secure_run tool argv timeout_s env cwd profile w = (r0, w') /\ r = obind r0 (fun _ => Ok tt)) as (r0 & Hr & ->)
         by (apply sbind_split in H as [(p & w1 & H & [= <- <-])|(e & H & ->)]; by eexists).
       eapply ran_around; [constructor|done|by eapply secure_run_ran|constructor|done| |]; destruct r0; naive_solver. }
  apply sbind_split in H as [(observed & w1 & Ho & H)|(e & Ho & ->)]; apply attempt_run in Ho as (v & Ev & Ho); [|done]. injection Ev as ->.
  apply quiet_observed in Ho as [Q1 E1].
  apply sbind_split in H as [(result & w2 & Hres & H)|(e & Hres & ->)].
  2: { destruct v; [apply attempt_run in Hres as (? & ? & _); done|done]. }
  destruct (run_shows result) as [[[actual code] out] err]. apply sbind_split in H as [(published & w3 & Hp & H)|(e & Hp & ->)];
    apply attempt_run in Hp as (v' & Ev & Hp); [|done]. injection Ev as ->. apply on_host_run in Hp as [Hp Hob].
  assert (Q3 : reached (pw_host w2) [] (pw_host w3)) by (eapply rc_observe; [done|exact Hob|constructor]).
  assert (w' = w3 /\ (forall b, r = Ok b -> exists a, result = Ok a) /\ (forall e, result = Raise e -> exists e, r = Raise e)) as (-> & Hok & Hraise).
  { destruct v', result; try destruct (is_exception _); injection H as <- <-; naive_solver. }
  assert (E2 : ran tool argv timeout_s env cwd w1 result w2).
  { destruct v as [o|e]; [|injection Hres as <- <-; eapply ran_nothing; [constructor|done..]].
    apply attempt_run in Hres as (v & Ev & Hres). injection Ev as ->. by eapply secure_run_ran. }
  by eapply ran_around.
Qed.

(** The process of a phase *)
Definition parse_spawn (joern_language : pystr) (java : bool) (src_root workdir : PyPath) (base_env : Env) : Spawn :=
  mkSpawn (str "/opt/joern/joern-parse" :: parse_argv joern_language java src_root (child workdir _CPG_BIN_FILENAME))
    JOERN_PARSE_TIMEOUT_S base_env (path_str workdir).
Definition export_spawn (workdir : PyPath) (base_env : Env) : Spawn :=
  mkSpawn [str "/opt/joern/joern"; str "--script"; EXPORT_SCRIPT_PATH] JOERN_EXPORT_TIMEOUT_S (export_environment base_env workdir) (path_str workdir).

(** Both phases get the caller's environment; a Java source the closed one. *)
Definition based (java : bool) (env : Env) (workdir : PyPath) (base_env : Env) : Prop :=
  if java then _expected workdir parse_phase = Ok base_env else base_env = setdefault env (str "HOME") (path_str workdir).

Lemma base_environment_Ok java src_root env workdir (x : X) base_env x' : base_environment java src_root env workdir x = (Ok base_env, x') ->
  based java env workdir base_env.
Proof.
  unfold base_environment, based. destruct java; intros H.
  - apply sbind_Ok in H as ([] & y & _ & H). unfold build_java_static_environment in H. apply sbind_Ok in H as (expected & y1 & [He ->]%slift_Ok & H).
    destruct (negb (forallb _ _)); [done|]. do 6 (apply sbind_Ok in H as ([] & ? & _ & H) || apply sbind_Ok in H as (? & ? & _ & H)).
    by injection H as <- _.
  - by apply sbind_Ok in H as ([] & y & _ & [= <- _]).
Qed.

(** The mapping of the export that a state holds *)
Definition maps_export (fuel : nat) (workdir : PyPath) (x : X) (g : CPG) : Prop :=
  exists x' raw, read_export (child workdir _EXPORT_JSON_FILENAME) x = (Ok raw, x') /\ map_export fuel raw = Ok g.

(** C30: parsing a source is two sanctioned runs in order.  A language without
    a front end starts nothing.  Otherwise the processes started are none, the
    parse, or the parse followed by the export, with the arguments and the
    environment given here.  A graph is returned only when both have run and
    succeeded: it is the mapping of the export file as it is in the state that
    those two processes, run in this order from the initial state, and
    otherwise only file inspections, new directories and calls of the
    observer, have led to. *)
Theorem parse_source_phases fuel src_root language env workdir (w : W) r w' :
  parse_source read_export fuel src_root language env workdir observer w = (r, w') ->
  match dict_get JOERN_LANGUAGE_BY_SCANIPY_LANG language with
  | None => r = Raise UnsupportedParseLanguageError /\ w' = w
  | Some joern_language =>
      let java := str_eqb language (str "java") in
      exists base_env runs x, reached (pw_host w) runs x /\ pw_spawned w' = pw_spawned w ++ map fst runs /\
        map fst runs `prefix_of` [parse_spawn joern_language java src_root workdir base_env; export_spawn workdir base_env] /\
        (runs <> [] -> based java env workdir base_env /\ parse_form (parse_argv joern_language java src_root (child workdir _CPG_BIN_FILENAME))) /\
        (forall g, r = Ok g -> length runs = 2%nat /\ Forall (fun run => exists completed, run.2 = Ok completed) runs /\ maps_export fuel workdir x g)
  end.
Proof.
  unfold parse_source. destruct (dict_get _ language) as [lang|]; [|by intros [= <- <-]]. cbn zeta. set (java := str_eqb language (str "java")). clearbody java. intros H.
  apply sbind_split in H as [(base_env & w1 & [E1 Hb]%on_host_run & H)|(e & [E1 Hb]%on_host_run & ->)].
  2: { exists [], [], (pw_host w'). rewrite app_nil_r. split_and!; try done; [by eapply quiet_base|apply prefix_nil]. }
  pose proof (quiet_base _ _ _ _ _ _ _ Hb) as R1. apply base_environment_Ok in Hb. exists base_env.
  apply sbind_split in H as [([] & w2 & H1%observed_run_ran & H)|(e & H1%observed_run_ran & ->)]; destruct H1 as (l1 & R2 & E2 & Hl1);
    pose proof (reached_trans _ _ _ _ _ R1 R2) as R2'; cbn [app] in R2'; rewrite E1 in E2.
  2: { exists l1, (pw_host w'). split_and!; try done; destruct Hl1 as [[-> _]|(s & p & -> & Hs & _)]; try done; try apply prefix_nil;
       destruct (sa_call _ _ _ _ _ _ Hs) as (b & [= <-] & ->); [by exists [export_spawn workdir base_env]|].
       intros _. split; [done|]. by apply (sa_parse _ _ _ _ _ _ Hs). }
  destruct Hl1 as [[_ [e He]]|(s & p & -> & Hs & Hok1)]; [done|]. destruct (Hok1 tt eq_refl) as [c1 ->].
  destruct (sa_call _ _ _ _ _ _ Hs) as (b & [= <-] & ->). pose proof (sa_parse _ _ _ _ _ _ Hs eq_refl) as Hform.
  apply sbind_split in H as [([] & w3 & H2%observed_run_ran & H)|(e & H2%observed_run_ran & ->)]; destruct H2 as (l2 & R3 & E3 & Hl2);
    pose proof (reached_trans _ _ _ _ _ R2' R3) as R3'; rewrite E2, <-app_assoc in E3.
  2: { eexists _, (pw_host w'). split; [exact R3'|]. split; [by rewrite map_app|]. split_and!; try done.
       destruct Hl2 as [[-> _]|(s & p & -> & Hs2 & _)]; [by exists [export_spawn workdir base_env]|].
       by destruct (sa_call _ _ _ _ _ _ Hs2) as (b & [= <-] & ->). }
  destruct Hl2 as [[_ [e He]]|(s & p & -> & Hs2 & Hok2)]; [done|]. destruct (Hok2 tt eq_refl) as [c2 ->].
  destruct (sa_call _ _ _ _ _ _ Hs2) as (b & [= <-] & ->). eexists _, (pw_host w3). split; [exact R3'|].
  apply sbind_split in H as [(raw & w4 & Hr & H)|(e & Hr & ->)]; unfold scatch in Hr; destruct (on_host _ w3) as [[raw'|e'] w5] eqn:Eh;
    apply on_host_run in Eh as [E4 Eh].
  - injection Hr as -> ->. unfold slift in H. injection H as <- <-. split_and!; [by rewrite E4|done|done|]. intros g Hg.
    split_and!; [done|repeat constructor; by eexists|]. by eexists _, raw.
  - by destruct (is_oserror e' || is_json_error e').
  - done.
  - assert (w' = w5) as -> by (destruct (is_oserror e' || is_json_error e'); by injection Hr as _ <-). split_and!; by rewrite ?E4.
Qed.
End phases.
