(* ===== verification/JoernSamples.v ===== *)
(** * Samples: an export, oracle findings, and runs of the tools

    An export of one method with a node that hangs below nothing; a graph and
    its renaming for the oracle findings; a host whose directories belong to
    the worker. *)
From stdpp Require Import base tactics list gmap sets strings.
From Stdlib Require Import ZArith Lia Sorted.
From S2P Require Import Prelude PyData Sha256 Budget Cpg Ordering PyDict Canonical GraphSpec Fingerprint SliceIdentity Json PyText JsonParse CpgTarball JoernMapper JoernMapperSpec OracleFingerprint SecureRun JoernFrontend.

Open Scope Z_scope.
Open Scope list_scope.
Open Scope py_scope.
Open Scope st_scope.

(** ** The mapper *)

Definition raw (id label : string) (code name mfn full file : option string) (line col : option Z) : RawJoernNode :=
  mkRawNode (Some (str id)) (Some (str label)) (str <$> code) (str <$> name) (str <$> mfn) (str <$> full) (str <$> file) line col.

Definition sample_nodes : list RawJoernNode :=
  [raw "7" "CALL" None (Some "<operator>.addition") (Some "<operator>.addition") None None (Some 2) (Some 4);
   raw "3" "LITERAL" (Some "1") None None None None (Some 2) (Some 8);
   raw "1" "METHOD" None (Some "f") None (Some "m.f") (Some "m.py") (Some 1) None;
   raw "9" "IDENTIFIER" None None None None None (Some 2) (Some 4);
   raw "5" "UNKNOWN" None None None None None None None]%string.

Definition raw_edge (s d k : string) : RawJoernEdge := mkRawEdge (str s) (str d) (str k).

Definition sample_edges : list RawJoernEdge :=
  [raw_edge "7" "3" "AST"; raw_edge "1" "7" "AST"; raw_edge "7" "9" "AST"; raw_edge "9" "7" "REACHING_DEF"; raw_edge "1" "7" "CFG"]%string.

Definition sample_export : RawJoernExport := mkExport sample_nodes sample_edges.
Definition shuffled_export : RawJoernExport := mkExport (rev sample_nodes) (rev sample_edges).

Definition mapped : CPG * list (Z * SourceLocation) := match map_export_with_locations 5 sample_export with Ok r => r | Raise _ => (empty_cpg, []) end.

(** The orphan has no file, so it comes first; the call's children are in the
    order of their columns. *)
Example sample_mapped : map (fun n => (node_id n, kind n, operator_or_literal n, structural_path n)) (nodes mapped.1) =
  map (fun t => (t.1.1.1, str t.1.1.2, str t.1.2, str t.2))
    [(0, "UNKNOWN", "", ""); (1, "METHOD", "", ""); (2, "CALL", "<operator>.addition", "0"); (3, "IDENTIFIER", "", "0.0"); (4, "LITERAL", "1", "0.1")]%string.
Proof. vm_compute. reflexivity. Qed.

Example sample_mapped_edges : map (fun e => (edge_kind e, src e, dst e)) (edges mapped.1) =
  map (fun t => (str t.1.1, t.1.2, t.2)) [("AST", 1, 2); ("AST", 2, 3); ("AST", 2, 4); ("CFG", 1, 2); ("PDG", 3, 2)]%string.
Proof. vm_compute. reflexivity. Qed.

Lemma sample_ids : NoDup (map rn_id (raw_nodes sample_export)).
Proof. decided. Qed.

Lemma sample_mapped_ok : map_export_with_locations 5 sample_export = Ok (mapped.1, mapped.2).
Proof. vm_compute. reflexivity. Qed.

Lemma map_export_order_independent_witness : map_export_with_locations 5 shuffled_export = Ok mapped.
Proof.
  assert (H : same_answer (map_export_with_locations 5 sample_export) (map_export_with_locations 5 shuffled_export)).
  { exact (map_export_order_independent 5 sample_export shuffled_export sample_ids (Permutation_rev _) (Permutation_rev _)). }
  rewrite sample_mapped_ok in H. destruct (map_export_with_locations 5 shuffled_export) as [r|e]; [|destruct H].
  cbn in H. rewrite <-H. destruct mapped. reflexivity.
Defined.

Lemma map_export_exact_witness : dense mapped.1 /\ in_range mapped.1.
Proof. exact (proj2 (map_export_exact 5 sample_export mapped.1 mapped.2 sample_ids sample_mapped_ok)). Defined.

Lemma sample_wellformed : wellformed_export sample_export.
Proof.
  split; [split; [exact sample_ids|decided]| |decided]. apply Forall_forall.
  repeat (apply Forall_cons; split; [split; [vm_compute; by eexists|split; decided]|]). constructor.
Qed.

Lemma map_export_total_witness : (length (raw_nodes sample_export) <= 5)%nat /\ exists g locs, map_export_with_locations 5 sample_export = Ok (g, locs).
Proof.
  split; [cbn; lia|].
  destruct (map_export_total sample_export 5 sample_wellformed (le_n 5)) as (g & locs & d & places & rs & O & H & _). by exists g, locs.
Defined.

Example unknown_kind_refused : map_export 5 (mkExport sample_nodes [raw_edge "1" "7" "DOMINATE"]) = Raise UnknownEdgeKindError.
Proof. vm_compute. reflexivity. Qed.

Example dangling_refused : map_export 5 (mkExport sample_nodes [raw_edge "1" "8" "CFG"]) = Raise UnknownNodeReferenceError.
Proof. vm_compute. reflexivity. Qed.

(** ** Oracle findings *)

Definition here (file : string) (line col : Z) : SourceLocation := mkLocation (str file) line col.
Definition before_move : list (Z * SourceLocation) := [(10, here "a.py" 3 7); (12, here "a.py" 4 2); (11, here "a.py" 3 0)].
Definition after_move : list (Z * SourceLocation) := [(12, here "b.py" 9 1); (10, here "b.py" 8 7)].

Definition oracle_run (name : string) (locs : list (Z * SourceLocation)) (file : string) (line : Z) : outcome (option SliceFingerprintResult) :=
  fingerprint_oracle_finding (two_locals name "a.f") locs (str file) line (PyInt 100) (PyInt 1) still.

(** One line down in every file *)
Definition one_down (p : pystr * Z) : pystr * Z := (p.1, if 0 <? p.2 then p.2 + 1 else p.2).

Lemma one_down_relocation : relocation one_down.
Proof.
  split.
  - intros [f l] [f' l'] [= -> H]. cbn in H. f_equal. destruct (Z.ltb_spec 0 l), (Z.ltb_spec 0 l'); lia.
  - intros [f l]. unfold one_down. cbn. destruct (Z.ltb_spec 0 l); intuition lia.
Qed.

Definition the_result (o : outcome (option SliceFingerprintResult)) : option pybytes :=
  match o with Ok (Some r) => if bool_decide (slice_class r = strong) then Some (slice_fingerprint r) else None | _ => None end.

Lemma the_result_Some o f : the_result o = Some f -> exists r, o = Ok (Some r) /\ slice_class r = strong /\ slice_fingerprint r = f.
Proof. destruct o as [[r|]|]; cbn; [|done..]. case_bool_decide; [|done]. intros [= <-]. by exists r. Qed.

Lemma first_run : exists f, the_result (oracle_run "x" before_move "a.py" 4) = Some f.
Proof. eexists. vm_compute. reflexivity. Qed.

Lemma second_run : exists f, the_result (oracle_run "renamed" after_move "b.py" 9) = Some f.
Proof. eexists. vm_compute. reflexivity. Qed.

Lemma first_sink : locate_sink_node (two_locals "x" "a.f") before_move (str "a.py") 4 = Some 12.
Proof. vm_compute. reflexivity. Qed.

Lemma second_sink : locate_sink_node (two_locals "renamed" "a.f") after_move (str "b.py") 9 = Some (id 12).
Proof. vm_compute. reflexivity. Qed.

Lemma oracle_fingerprint_invariant_witness : relocation one_down /\ exists r r',
  oracle_run "x" before_move "a.py" 4 = Ok (Some r) /\ oracle_run "renamed" after_move "b.py" 9 = Ok (Some r') /\
  slice_fingerprint r' = slice_fingerprint r.
Proof.
  split; [exact one_down_relocation|].
  destruct first_run as [f (r & E & K & _)%the_result_Some]. destruct second_run as [f' (r' & E' & K' & _)%the_result_Some].
  exists r, r'. split; [exact E|]. split; [exact E'|].
  exact (proj2 oracle_fingerprint_invariant id _ _ _ _ _ _ _ _ _ _ _ _ _ _ _ _ _ renamed_local_iso first_sink second_sink E E' K K').
Defined.

Definition known_column : SinkKey := (true, false, 7, 10).

Lemma known_column_candidate : candidate (two_locals "x" "a.f") before_move (str "a.py") 3 known_column.
Proof. apply candidates_elem. apply list_elem_of_In. vm_compute. auto. Qed.

Lemma known_column_least k : candidate (two_locals "x" "a.f") before_move (str "a.py") 3 k -> sink_leb known_column k = true.
Proof.
  intros Hk%candidates_elem. revert k Hk. apply Forall_forall. decided.
Qed.

Lemma oracle_sink_exact_witness : oracle_run "x" before_move "a.py" 3 =
  (r ⇐ compute_slice_fingerprint (two_locals "x" "a.f") [10] (PyInt 100) (PyInt 1) still; Ok (Some r)).
Proof.
  refine (proj2 (oracle_sink_exact (two_locals "x" "a.f") before_move (str "a.py") 3 (PyInt 100) (PyInt 1) still) known_column _ _ known_column_candidate known_column_least).
  - lia.
  - discriminate.
Defined.

Example no_line_no_fingerprint : oracle_run "x" before_move "a.py" 5 = Ok None.
Proof. vm_compute. reflexivity. Qed.

(** ** The tools *)

(** Every directory is the worker's and private; no output exists yet, and
    every process succeeds. *)
#[local] Instance toy_host : Host unit := {|
  lstat := fun p x => match last (components p) with
                      | Some c => if str_eqb c (str "cpg.bin") || str_eqb c (str "cpg_export.json") then (Raise FileNotFoundError, x)
                                  else (Ok (mkStat 16832 1000 2), x)
                      | None => (Ok (mkStat 16832 1000 2), x)
                      end;
  mkdir := fun _ _ _ => sret tt;
  is_dir := fun _ => sret true;
  geteuid := sret 1000;
  run_process := fun s => sret (mkCompleted (sp_args s) 0 [] [])
|}.

Definition idle : ProcWorld unit := mkProc tt [].
Definition workdir : PyPath := path_of (str "/job/work").
Definition source : PyPath := path_of (str "/job/src").
Definition worker_env : Env :=
  [(str "PATH", str "/opt/joern/bin:/opt/codeql:/opt/temurin-jre/bin:/usr/bin"); (str "JAVA_HOME", str "/opt/temurin-jre")].

Definition read_sample : PyPath -> St unit RawJoernExport := fun _ => sret sample_export.
Definition parse_sample (language : string) (env : Env) : outcome CPG * ProcWorld unit := parse_source read_sample 5 source (str language) env workdir None idle.

Definition tools (w : ProcWorld unit) : list pystr := map (fun s => default [] (head (sp_args s))) (pw_spawned w).

Example java_parsed : (parse_sample "java" worker_env).1 = Ok mapped.1 /\
  tools (parse_sample "java" worker_env).2 = [str "/opt/joern/joern-parse"; str "/opt/joern/joern"].
Proof. split; vm_compute; reflexivity. Qed.

(** A variable that the profile does not have is refused before anything runs. *)
Example java_hook_refused : parse_sample "java" ((str "JAVA_TOOL_OPTIONS", str "-javaagent:x") :: worker_env) = (Raise JavaStaticEnvironmentError, idle).
Proof. vm_compute. reflexivity. Qed.

Example other_language_keeps_env : (parse_sample "python" ((str "JAVA_TOOL_OPTIONS", str "-javaagent:x") :: worker_env)).1 = Ok mapped.1.
Proof. vm_compute. reflexivity. Qed.

Example unknown_language_refused : parse_sample "cobol" worker_env = (Raise UnsupportedParseLanguageError, idle).
Proof. vm_compute. reflexivity. Qed.

Lemma parse_source_phases_witness : exists base_env runs x, reached None (pw_host idle) runs x /\
  map fst runs `prefix_of` [parse_spawn (str "pythonsrc") false source workdir base_env; export_spawn workdir base_env] /\
  length runs = 2%nat /\ maps_export read_sample 5 workdir x mapped.1.
Proof.
  destruct (parse_source_phases read_sample None 5 source (str "python") worker_env workdir idle _ _
    (surjective_pairing (parse_sample "python" worker_env))) as (base_env & runs & x & H1 & _ & H2 & _ & H3).
  assert (E : (parse_sample "python" worker_env).1 = Ok mapped.1) by (vm_compute; reflexivity).
  destruct (H3 _ E) as (H4 & _ & H5). exists base_env, runs, x. exact (conj H1 (conj H2 (conj H4 H5))).
Defined.

Definition run_tool (tool : string) (argv : list string) : outcome CompletedProcess * ProcWorld unit :=
  secure_run (str tool) (map str argv) 60 worker_env (str "/job") None idle.

Lemma secure_run_sanctioned_witness : run_tool "joern" ["--script=x"; "--eval"] = (Raise ArgvAllowlistViolation, idle).
Proof.
  destruct (secure_run_sanctioned (str "joern") (map str ["--script=x"; "--eval"]%string) 60 worker_env (str "/job") None idle _ _
    (surjective_pairing (run_tool "joern" ["--script=x"; "--eval"]))) as [_ H].
  destruct (H ArgvAllowlistViolation eq_refl) as [H1 H2]. rewrite (surjective_pairing (run_tool _ _)). by rewrite H1, H2.
Defined.

Example git_refused : run_tool "git" ["--version"] = (Raise ArgvAllowlistViolation, idle).
Proof. vm_compute. reflexivity. Qed.

Example codeql_runs : tools (run_tool "codeql" ["database"; "create"; "--db=/job/db"; "--threads"; "2"]).2 = [str "/opt/codeql/codeql"].
Proof. vm_compute. reflexivity. Qed.

(** A flag with one dash is a flag too, and a word that is none passes. *)
Example words_pass : tools (run_tool "joern" ["script.sc"; "--language=java"]).2 = [str "/opt/joern/joern"] /\
  run_tool "joern" ["-c"] = (Raise ArgvAllowlistViolation, idle).
Proof. split; vm_compute; reflexivity. Qed.
